(* ===== verification/_CoqProject ===== *)
-Q . S2P
Prelude.v
Bytes.v
Block.v
CrashDevice.v
Superblock.v
Allocation.v
Region.v
AllocationDisk.v
Journal.v
JournalCodec.v
JournalRegion.v
Recovery.v
TransactionImage.v
InodeCodec.v
BTree.v
Cache.v
Inode.v
RecordTable.v
InodeTable.v
DirectoryCodec.v
Directory.v
Namespace.v
NamespaceEdit.v
DirectoryTable.v
TransactionPlan.v
Atomicity.v
CreateTx.v
Format.v
Fsck.v
Transition.v
LinkTx.v
TruncateTx.v
RenameTx.v
UnlinkTx.v
MetaEffects.v
FileState.v
FileData.v
FileRange.v
FileOps.v
FileGrow.v
Operations.v
OperationOutcome.v
Lifecycle.v
FileContents.v
NetBytes.v
TcpSeq.v
Checksum.v
Ethernet.v
Ipv4.v
Icmp.v
Udp.v
Reassembly.v
ReassemblyEntries.v
ReassemblyState.v
Fragment.v
TcpSegment.v
Float64.v
Congestion.v
TcpState.v
TcpConnection.v
TcpManager.v
TcpReceive.v
TcpDelivery.v
TcpAck.v
SampleDisk.v
Witnesses.v
