(* ===== verification/Prelude.v ===== *)
(** * Verification of [filesystem-lab] and of the core of [userspace-tcpip-stack]

    Two programs of the repository are modelled; they share no code and no state,
    only the conventions and the lemmas of this file.

    [filesystem-lab], under [src/projects/filesystem-lab/src], is a small
    crash-consistent file system over an abstract block device.  A disk is a superblock, a
    journal region, an allocation bitmap, an inode table, a directory table and
    data blocks.  Every operation loads the tables it needs, edits them in
    memory, renders the result, and publishes the blocks that changed in one
    journal transaction, which recovery replays after a crash.  This library
    translates all of its modules, and the crashing device that its tests use
    ([tests/support/crash_device.rs]), and proves them correct.

    [userspace-tcpip-stack], under [src/projects/userspace-tcpip-stack/src], is a
    TCP/IP stack.  Modelled is its data path: Ethernet, IPv4, ICMP, UDP and TCP
    parsing and serializing, the Internet checksum, IPv4 fragmentation and
    reassembly, congestion control, and TCP connections with their manager.

    ** Conventions

    An [outcome] is [Ok], [Err] or [Panic]: a Rust panic is a value, so that
    "does not panic" is a statement.  Code that touches a device is a state
    transformer [M D A] over the device type; [let!] and [do!] are [?], [let?]
    and [try?] the same without a device.  [wp] and [owp] are the weakest
    preconditions of the two, with one postcondition for [Ok] and one for [Err];
    both are false of a panic.  [usize] and [u64] are 64 bits wide: a number is
    a [Z] and each checked operation carries its bound ([checked_add], [sub_u64],
    [with_capacity]).  A block is a list of 4096 bytes, a string its UTF-8 bytes,
    a [HashMap] or [BTreeMap] a [gmap] ([BTree] gives the iteration order).
    A method that changes its receiver is a state transformer on it.

    ** Files: devices

    - [Block]: the trait [BlockDevice] as a class, the contract [DeviceLaws] that
      the rest is proved against (a volatile and a durable image; only a flush
      moves one to the other; a healthy device does not fail), and
      [FileBlockDevice] of [block.rs] as an instance of it.
    - [CrashDevice]: the crashing device of the tests, the other instance: the
      power fails at a chosen write or flush.
    - [Cache]: [cache.rs], a buffer cache over any device.

    ** Files: on-disk structures

    - [Bytes]: little-endian integers and the CRC-32.  [Superblock]: the layout
      part of [format.rs].  [Region]: runs of blocks.
    - [Allocation], [AllocationDisk]: [allocation.rs] and [allocation_disk.rs].
    - [InodeCodec], [InodeTable]: [inode_codec.rs] and [inode_table.rs].
      [DirectoryCodec], [DirectoryTable]: [directory_codec.rs] and
      [directory_table.rs].  The two tables have the same code for different
      records; [RecordTable] has it once, for a [TableFormat] with [TableLaws].
    - [Inode], [Directory]: the in-memory structures of [inode.rs] and
      [directory.rs].
    - [Format]: [format_device], [read_superblock] and [format_geometry.rs].

    Each codec is shown exact: decoding never panics and accepts precisely the
    encodings of valid values.  Each store and load is a round trip that leaves
    other blocks alone.

    ** Files: journal and transactions

    - [Journal], [JournalCodec], [JournalRegion]: [journal.rs],
      [journal_codec.rs] and [journal_region.rs].  [Recovery]: [recovery.rs] and
      [journal_checkpoint.rs].
    - [TransactionImage], [TransactionPlan]: the capture device of
      [transaction_image.rs]; what rendering a set of regions and journaling the
      difference amounts to.
    - [Atomicity]: the states a disk can be in around a transaction
      ([settled], [in_flight], [recoverable]) and recovery from each, also when
      recovery is interrupted.
    - [CreateTx]: [allocation_tx.rs], [inode_tx.rs], [directory_tx.rs],
      [metadata_tx.rs] and [create_tx.rs].

    ** Files: operations

    - [Namespace], [NamespaceEdit], [Fsck]: [fsck.rs].  [check_device] succeeds
      exactly on sound disks: every inode block is owned by the allocator and by
      one inode only, and the directories form a tree that reaches every inode.
    - [Transition]: the contract of an operation.  A [Target] is what an
      operation may ask for; [implements] says that a program does what a pure
      function of the disk's contents says, all or nothing.
    - [LinkTx] ([hard_link_tx.rs], [hard_unlink_tx.rs]), [TruncateTx]
      ([truncate_tx.rs]), [RenameTx] ([rename_tx.rs], [rename_exchange_tx.rs],
      [rename_overwrite_tx.rs]), [UnlinkTx] ([unlink_tx.rs]): each operation, its
      pure function, what that does, and that it keeps the metadata sound.
    - [MetaEffects]: the effects of these operations described without their
      code, and that each is refused exactly when its effect is impossible.
    - [FileState]: metadata and data area together, and [reads], the logic of
      programs that only read.  [FileData] ([file_data.rs],
      [file_overwrite_batch.rs], [file_range_read.rs], [file_copy_range.rs],
      [file_zero_range.rs]) and [FileGrow] (the append of [file_data.rs],
      [file_append_batch.rs], [file_insert.rs]): the operations on file contents.
      [FileRange]: the block loops read and replace substrings of the file's
      bytes.  [FileOps]: the operations implement their functions.

    ** Files: the whole

    - [Operations]: all operations as one language [fs_op], with the
      specification [op_spec] (the code's own edits, as pure functions) and the
      code [run_op].  [OperationOutcome]: the independent description
      [op_effect], and [operation_outcome], each operation on a device that does
      not fail.
    - [Lifecycle]: [lifecycle_crash_safe], any sequence of operations, each
      interrupted anywhere and recovered with any number of interruptions.
    - [FileContents]: the byte-range operations seen through the disk image.
    - [SampleDisk], [Witnesses]: a twelve-block disk on which the theorems are
      instantiated.

    ** Network: packets

    - [NetBytes]: big-endian integers, narrowing casts, wrapping and saturating
      arithmetic.  [TcpSeq] ([tcp_seq.rs]): the sequence-number comparisons decide
      the order in the stream.  [Checksum] ([checksum.rs]): the checksum is the
      one's complement sum of RFC 1071.
    - [Ethernet] ([ethernet.rs]), [Ipv4] ([ipv4.rs]), [Icmp] ([icmp.rs] and the
      error builders of [diagnostics.rs]), [Udp] ([udp.rs], with the socket table),
      [TcpSegment] (the segment part of [tcp.rs]): the parsers never panic and what
      they return is what the bytes say; what the serializers write parses back.
      For IPv4 also the TTL decrement, for ICMP the echo exchange and the quoting
      of the datagram in error messages.
    - [Reassembly] ([fragment.rs], the buffer), [ReassemblyEntries] (the fragments
      of one datagram), [ReassemblyState] (the buffer's invariant, its limits, and
      the exact behaviour of [add_fragment]), [Fragment] (the fragmenter, and that
      its fragments reassemble to the payload in any order).

    ** Network: TCP

    - [Float64]: [f64] on the Standard Library's specification of binary64.
      [Congestion] ([congestion.rs]): the window's arms in [u32] arithmetic and
      the retransmission timeout in [f64], with their bounds.
    - [TcpState], [TcpConnection], [TcpManager] ([tcp.rs]): the connection's data,
      its methods (receive and send paths, state machine, timers, options), and
      the manager's tables and dispatch.  The theorems below are about the
      receive side and the acknowledgements.
    - [TcpReceive]: the invariant of the receive side, in stream positions.
      [TcpDelivery]: what is delivered, whatever the order and overlap of the
      segments, and the bounds against an arbitrary peer.  [TcpAck]: what an
      acknowledgement reports, and when building one panics.

    The clock is an argument of the methods that read it.  The iteration order of
    a [HashMap] is a parameter, with the law that it lists the map's entries: the
    class [HashOrder] of [Reassembly] and [ConnectionOrder] of [TcpManager].
    [sort_by] may panic on a comparator that is no total order; the model of the
    sort in [buffer_ooo] does so, and [receive_bounded] shows that it cannot
    happen.

    ** Fuel

    [JournalCodec.decode_loop] gets one unit per record header that fits the
    input, plus one, and [RecordTable.decode_loop] one per byte of the payload:
    each round advances the cursor by at least a header.  [Namespace.audit_directory_cycle] gets one more than
    the number of inodes, the depth of its recursion.  [Namespace.reach_loop]
    and [RenameTx.cycle_search] get one more than the number of entries, since
    each entry is pushed at most once.

    [Checksum.fold_fuel] is 2, which folds any [u32]; more changes nothing.
    [Reassembly.evict_while] gets the number of buffered datagrams, since each
    round removes one; [Fragment.fragment_loop] the length of the payload, since
    each chunk has a byte; [TcpSegment.parse_options] 40, the size of the largest
    option area, and [pad_options] 3; [TcpConnection.drain_loop] the length of
    the queue and [send_loop] that of the send buffer, which each round shortens.

    Exhausted fuel is a [Panic], and the theorems about these loops show that it
    does not happen ([send_loop_ends] for [send_loop]); [fold_carries] and
    [pad_options] have the fuel that the largest input needs.

    ** Not modelled

    [FileBlockDevice::open] and host I/O errors of the backing file; exhausted
    memory, other than capacities above [isize::MAX] in the byte-range
    operations and in [BlockAllocator::new]; the stack depth of the cycle audit; the [Display] texts of the
    errors of [directory.rs].  A write of one block is atomic and a power
    failure loses all unflushed writes, as in the crash device; torn blocks and
    flushes that persist a part of the writes are outside of it.
    Of the network stack: the text forms ([Display], [Debug], [FromStr]), the
    [stack] module that ties the protocols to a driver, the drivers, the shell
    and the lab, ARP, IPv6, routing protocols, tunnels and the application
    protocols.  The other projects of the repository (a hypervisor, a kernel, a
    container runtime, a test harness and their glue) are separate programs.

    ** Plan

    The modules of [filesystem-lab] are covered.  What remains: closing the
    operations under [store_inode_directory_tables_journaled] and the
    single-table transactions in [Operations], and a device that persists an
    arbitrary subset of the unflushed writes.  For the network stack: the send
    side of a connection and a theorem about two connected endpoints, then the
    stack that dispatches packets between the protocols. *)

From Stdlib Require Export ZArith Lia.
From stdpp Require Export base numbers list gmap sorting strings pretty.

#[global] Open Scope Z_scope.
#[export] Set Default Goal Selector "!".
#[global] Arguments Z.to_nat : simpl never.
#[global] Arguments Z.of_nat : simpl never.
#[global] Arguments Z.mul : simpl never.
#[global] Arguments Z.add : simpl never.

(** ** Outcomes

    A Rust call returns [Ok], returns [Err], or panics (an index out of
    range, or [+]/[-] overflowing in a build with overflow checks). *)

Inductive outcome (E A : Type) : Type :=
| Ok (a : A)
| Err (e : E)
| Panic.
Arguments Ok {E A} a.
Arguments Err {E A} e.
Arguments Panic {E A}.

#[global] Instance outcome_eq_dec {E A} `{EqDecision E, EqDecision A} :
  EqDecision (outcome E A).
Proof. solve_decision. Defined.

(** [Result::is_ok] *)
Definition is_ok {E A} (o : outcome E A) : bool := match o with Ok _ => true | _ => false end.

(** The kinds of [std::io::ErrorKind] the crate raises. *)
Inductive ErrorKind : Type :=
| InvalidInput
| InvalidData
| UnexpectedEof
| NotFound
| WouldBlock
| Other.

#[global] Instance ErrorKind_eq_dec : EqDecision ErrorKind.
Proof. solve_decision. Defined.

(** [std::io::Error], with the message it was built from. *)
Record io_error : Type := IoError { err_kind : ErrorKind; err_message : string }.

#[global] Instance io_error_eq_dec : EqDecision io_error.
Proof. solve_decision. Defined.

Definition invalid_input (msg : string) : io_error := IoError InvalidInput msg.
Definition invalid_data (msg : string) : io_error := IoError InvalidData msg.
Definition unexpected_eof (msg : string) : io_error := IoError UnexpectedEof msg.
Definition other_error (msg : string) : io_error := IoError Other msg.

(** The [?] operator. *)
Definition obind {E A B} (m : outcome E A) (k : A -> outcome E B) : outcome E B :=
  match m with Ok a => k a | Err e => Err e | Panic => Panic end.

Definition map_err {E E' A} (f : E -> E') (m : outcome E A) : outcome E' A :=
  match m with Ok a => Ok a | Err e => Err (f e) | Panic => Panic end.

Definition ok_or {E A} (o : option A) (e : E) : outcome E A :=
  match o with Some a => Ok a | None => Err e end.

(** [if !b { return Err(e) }] *)
Definition ensure {E} (b : bool) (e : E) : outcome E unit :=
  if b then Ok tt else Err e.

Declare Scope outcome_scope.
Delimit Scope outcome_scope with outcome.
#[global] Open Scope outcome_scope.
Notation "'let?' x ':=' m 'in' k" := (obind m (fun x => k))
  (at level 10, x pattern, m at level 200, k at level 200,
   format "'[v' 'let?'  x  ':='  m  'in' '/' k ']'") : outcome_scope.
Notation "'try?' m 'in' k" := (obind m (fun _ => k))
  (at level 10, m at level 200, k at level 200,
   format "'[v' 'try?'  m  'in' '/' k ']'") : outcome_scope.

(** A [for] loop over a list whose body may return early. *)
Fixpoint ofold {E A B} (f : B -> A -> outcome E B) (acc : B) (l : list A) : outcome E B :=
  match l with
  | [] => Ok acc
  | x :: l' => let? acc' := f acc x in ofold f acc' l'
  end.

(** A [for] loop that only checks. *)
Fixpoint ofor {E A} (f : A -> outcome E unit) (l : list A) : outcome E unit :=
  match l with
  | [] => Ok tt
  | x :: l' => try? f x in ofor f l'
  end.

(** ** Stateful calls

    A method on [&mut self] (or a function on [&mut impl BlockDevice]) is a
    state transformer; the state is kept when the call returns an error, as
    the effects done before it are. *)

Definition ST (E D A : Type) : Type := D -> outcome E A * D.
Abbreviation M := (ST io_error).

Definition iret {E D A} (a : A) : ST E D A := fun d => (Ok a, d).
Definition ilift {E D A} (o : outcome E A) : ST E D A := fun d => (o, d).
Definition ifail {E D A} (e : E) : ST E D A := fun d => (Err e, d).
Definition iget {E D A} (f : D -> A) : ST E D A := fun d => (Ok (f d), d).
Definition iset {E D} (f : D -> D) : ST E D unit := fun d => (Ok tt, f d).
Definition ibind {E D A B} (m : ST E D A) (k : A -> ST E D B) : ST E D B :=
  fun d => match m d with
           | (Ok a, d') => k a d'
           | (Err e, d') => (Err e, d')
           | (Panic, d') => (Panic, d')
           end.
(** Run a call on a local mutable value: its result and the value left. *)
Definition run_on {E S A} (m : ST E S A) (s : S) : outcome E (A * S) :=
  match m s with
  | (Ok a, s') => Ok (a, s')
  | (Err e, _) => Err e
  | (Panic, _) => Panic
  end.
Definition imap_err {E E' D A} (f : E -> E') (m : ST E D A) : ST E' D A :=
  fun d => let '(o, d') := m d in (map_err f o, d').

Declare Scope io_scope.
Delimit Scope io_scope with io.
#[global] Open Scope io_scope.
Notation "'let!' x ':=' m 'in' k" := (ibind m (fun x => k))
  (at level 10, x pattern, m at level 200, k at level 200,
   format "'[v' 'let!'  x  ':='  m  'in' '/' k ']'") : io_scope.
Notation "'do!' m 'in' k" := (ibind m (fun _ => k))
  (at level 10, m at level 200, k at level 200,
   format "'[v' 'do!'  m  'in' '/' k ']'") : io_scope.

Fixpoint ifold {E D A B} (f : B -> A -> ST E D B) (acc : B) (l : list A) : ST E D B :=
  match l with
  | [] => iret acc
  | x :: l' => let! acc' := f acc x in ifold f acc' l'
  end.

Fixpoint ifor {E D A} (f : A -> ST E D unit) (l : list A) : ST E D unit :=
  match l with
  | [] => iret tt
  | x :: l' => do! f x in ifor f l'
  end.

(** [wp m Q R d]: from state [d], [m] does not panic, ends in [Q] when it
    returns [Ok] and in [R] when it returns [Err]. *)
Definition wp {E D A} (m : ST E D A) (Q : A -> D -> Prop) (R : E -> D -> Prop) (d : D) : Prop :=
  match m d with
  | (Ok a, d') => Q a d'
  | (Err e, d') => R e d'
  | (Panic, _) => False
  end.

Definition owp {E A} (m : outcome E A) (Q : A -> Prop) (R : E -> Prop) : Prop :=
  match m with Ok a => Q a | Err e => R e | Panic => False end.

Section Wp.
Context {E D A B : Type}.
Implicit Types (R : E -> D -> Prop) (d : D).

Lemma wp_ret (a : A) (Q : A -> D -> Prop) R d : Q a d -> wp (iret a) Q R d.
Proof. done. Qed.

Lemma wp_fail e (Q : A -> D -> Prop) R d : R e d -> wp (ifail e) Q R d.
Proof. done. Qed.

Lemma wp_get (f : D -> A) (Q : A -> D -> Prop) R d : Q (f d) d -> wp (iget f) Q R d.
Proof. done. Qed.

Lemma wp_lift (o : outcome E A) (Q : A -> D -> Prop) R d :
  owp o (fun a => Q a d) (fun e => R e d) -> wp (ilift o) Q R d.
Proof. unfold wp, ilift, owp. by destruct o. Qed.

Lemma wp_bind (m : ST E D A) (k : A -> ST E D B) (Q : B -> D -> Prop) R d :
  wp m (fun a => wp (k a) Q R) R d -> wp (ibind m k) Q R d.
Proof. unfold wp, ibind. destruct (m d) as [[a|e|] d']; done. Qed.

Lemma wp_mono (m : ST E D A) (Q Q' : A -> D -> Prop) R R' d :
  wp m Q R d -> (forall a d', Q a d' -> Q' a d') ->
  (forall e d', R e d' -> R' e d') -> wp m Q' R' d.
Proof. unfold wp. destruct (m d) as [[a|e|] d']; naive_solver. Qed.

Lemma wp_map_err {E'} (f : E' -> E) (m : ST E' D A) (Q : A -> D -> Prop) R d :
  wp m Q (fun e => R (f e)) d -> wp (imap_err f m) Q R d.
Proof. unfold wp, imap_err. destruct (m d) as [[a|e|] d']; done. Qed.
End Wp.

Lemma owp_run_on {E S A} (m : ST E S A) Q R (s : S) :
  wp m Q R s -> owp (run_on m s) (fun r => Q r.1 r.2) (fun e => exists s', R e s').
Proof. unfold wp, run_on. destruct (m s) as [[a|e|] s']; simpl; eauto. Qed.

Lemma owp_bind {E A B} (m : outcome E A) (k : A -> outcome E B) Q R :
  owp m (fun a => owp (k a) Q R) R -> owp (obind m k) Q R.
Proof. by destruct m. Qed.

Lemma owp_mono {E A} (m : outcome E A) (Q Q' : A -> Prop) (R R' : E -> Prop) :
  owp m Q R -> (forall a, Q a -> Q' a) -> (forall e, R e -> R' e) -> owp m Q' R'.
Proof. destruct m; simpl; auto. Qed.

Lemma owp_map_err {E E' A} (f : E -> E') (m : outcome E A) Q R :
  owp m Q (fun e => R (f e)) -> owp (map_err f m) Q R.
Proof. by destruct m. Qed.

(** A call whose error condition cannot hold returns. *)
Lemma owp_Ok {E A} (m : outcome E A) Q : owp m Q (fun _ => False) -> exists a, m = Ok a /\ Q a.
Proof. destruct m; simpl; [eauto|done..]. Qed.

Lemma wp_for {E D A} (f : A -> ST E D unit) (I : list A -> D -> Prop)
    (R : E -> D -> Prop) (l : list A) (d : D) :
  I l d ->
  (forall x l' d', I (x :: l') d' -> wp (f x) (fun _ => I l') R d') ->
  wp (ifor f l) (fun _ => I []) R d.
Proof.
  intros Hd Hstep. revert d Hd. induction l as [|x l IH]; intros d Hd; [by apply wp_ret|].
  simpl. apply wp_bind. eapply wp_mono; [by apply Hstep| |done].
  intros [] d' Hd'. by apply IH.
Qed.

Lemma wp_fold {E D A B} (f : B -> A -> ST E D B) (I : B -> list A -> D -> Prop)
    (R : E -> D -> Prop) (l : list A) (acc : B) (d : D) :
  I acc l d ->
  (forall acc' x l' d', I acc' (x :: l') d' -> wp (f acc' x) (fun b => I b l') R d') ->
  wp (ifold f acc l) (fun b => I b []) R d.
Proof.
  intros Hd Hstep. revert acc d Hd. induction l as [|x l IH]; intros acc d Hd; [by apply wp_ret|].
  simpl. apply wp_bind. eapply wp_mono; [by apply Hstep| |done].
  intros b d' Hd'. by apply IH.
Qed.

Lemma ifold_app {E D A B} (f : B -> A -> ST E D B) acc (l1 l2 : list A) d :
  ifold f acc (l1 ++ l2) d = (let! acc' := ifold f acc l1 in ifold f acc' l2) d.
Proof.
  revert acc d. induction l1 as [|x l1 IH]; intros acc d; [done|].
  simpl. unfold ibind. destruct (f acc x d) as [[a|e|] d']; [|done..].
  rewrite IH. done.
Qed.

Lemma ifor_app {E D A} (f : A -> ST E D unit) (l1 l2 : list A) d :
  ifor f (l1 ++ l2) d = (do! ifor f l1 in ifor f l2) d.
Proof.
  revert d. induction l1 as [|x l1 IH]; intros d; [done|].
  simpl. unfold ibind. destruct (f x d) as [[a|e|] d']; [|done..].
  rewrite IH. done.
Qed.

Lemma ifor_ext {E D A} (f g : A -> ST E D unit) (l : list A) d :
  (forall x d', x ∈ l -> f x d' = g x d') -> ifor f l d = ifor g l d.
Proof.
  revert d. induction l as [|x l IH]; intros d Hfg; [done|].
  simpl. unfold ibind. rewrite Hfg by constructor. destruct (g x d) as [[a|e|] d']; [|done..].
  apply IH. intros. apply Hfg. by constructor.
Qed.

Lemma ifor_fmap {E D A B} (f : B -> ST E D unit) (h : A -> B) (l : list A) d :
  ifor f (h <$> l) d = ifor (fun x => f (h x)) l d.
Proof.
  revert d. induction l as [|x l IH]; intros d; [done|].
  simpl. unfold ibind. destruct (f (h x) d) as [[a|e|] d']; [apply IH|done..].
Qed.

Lemma ofold_app {E A B} (f : B -> A -> outcome E B) acc (l1 l2 : list A) :
  ofold f acc (l1 ++ l2) = (let? acc' := ofold f acc l1 in ofold f acc' l2).
Proof.
  revert acc. induction l1 as [|x l1 IH]; intros acc; [done|].
  simpl. destruct (f acc x); simpl; [apply IH|done..].
Qed.

(** ** Machine integers

    [u64], [u32], [u16] and [u8] are [Z] in range; [usize] is 64 bits wide. *)

Definition u8_max : Z := 255.
Definition u16_max : Z := 65535.
Definition u32_max : Z := 4294967295.
Definition u64_max : Z := 18446744073709551615.
Definition usize_max : Z := u64_max.

Definition checked_add (a b : Z) : option Z := if a + b <=? u64_max then Some (a + b) else None.
Definition checked_mul (a b : Z) : option Z := if a * b <=? u64_max then Some (a * b) else None.
Definition checked_sub (a b : Z) : option Z := if b <=? a then Some (a - b) else None.

(** Plain [+] and [-] on [u64]/[usize], which panic on overflow. *)
Definition add_u64 {E} (a b : Z) : outcome E Z := if a + b <=? u64_max then Ok (a + b) else Panic.
Definition sub_u64 {E} (a b : Z) : outcome E Z := if b <=? a then Ok (a - b) else Panic.

(** [a.div_ceil(b)] *)
Definition div_ceil (a b : Z) : Z := (a + b - 1) / b.

(** [Vec::with_capacity(n)] and [vec![x; n]] for elements of [size] bytes: no
    allocation may exceed [isize::MAX] bytes. *)
Definition isize_max : Z := 9223372036854775807.
Definition with_capacity {E} (size n : Z) : outcome E unit := if size * n <=? isize_max then Ok tt else Panic.

(** [T::try_from(x)] for an unsigned target whose maximum is [hi]. *)
Definition try_from (hi x : Z) : option Z := if x <=? hi then Some x else None.
Definition usize_try_from (x : Z) : option Z := try_from usize_max x.
Definition u64_try_from (x : Z) : option Z := try_from u64_max x.
Definition u32_try_from (x : Z) : option Z := try_from u32_max x.
Definition u16_try_from (x : Z) : option Z := try_from u16_max x.

Definition is_u64 (x : Z) : Prop := 0 <= x <= u64_max.
#[global] Instance is_u64_dec x : Decision (is_u64 x) := ltac:(unfold is_u64; apply _).

(** ** Lists with [Z] lengths *)

Definition zlen {A} (l : list A) : Z := Z.of_nat (length l).

(** The elements of a half-open [Range]. *)
Definition zrange (a b : Z) : list Z := seqZ a (b - a).

(** [v[i]] *)
Definition index_at {E A} (l : list A) (i : Z) : outcome E A :=
  if 0 <=? i then
    match l !! Z.to_nat i with Some x => Ok x | None => Panic end
  else Panic.

(** [v[i] = x] *)
Definition set_at {E A} (l : list A) (i : Z) (x : A) : outcome E (list A) :=
  if (0 <=? i) && (i <? zlen l) then Ok (<[Z.to_nat i := x]> l) else Panic.

(** [l.iter().enumerate()] *)
Definition enumerate {A} (l : list A) : list (Z * A) := imap (fun i x => (Z.of_nat i, x)) l.

(** [l.iter().position(f)] *)
Fixpoint position {A} (f : A -> bool) (l : list A) : option Z :=
  match l with
  | [] => None
  | x :: l' => if f x then Some 0 else Z.succ <$> position f l'
  end.

(** [l.iter().find(f)] *)
Fixpoint find {A} (f : A -> bool) (l : list A) : option A :=
  match l with
  | [] => None
  | x :: l' => if f x then Some x else find f l'
  end.

Definition is_empty {A} (l : list A) : bool := match l with [] => true | _ => false end.

Section ZList.
Context {A : Type}.
Implicit Types (l : list A).

Lemma zlen_nil : zlen ([] : list A) = 0.
Proof. done. Qed.
Lemma zlen_cons (x : A) l : zlen (x :: l) = 1 + zlen l.
Proof. unfold zlen. simpl. lia. Qed.
Lemma zlen_app l1 l2 : zlen (l1 ++ l2) = zlen l1 + zlen l2.
Proof. unfold zlen. rewrite length_app. lia. Qed.
Lemma zlen_nonneg l : 0 <= zlen l.
Proof. unfold zlen. lia. Qed.
Lemma zlen_replicate n (x : A) : zlen (replicate n x) = Z.of_nat n.
Proof. unfold zlen. by rewrite length_replicate. Qed.
Lemma zlen_insert l i (x : A) : zlen (<[i:=x]> l) = zlen l.
Proof. unfold zlen. by rewrite length_insert. Qed.
Lemma zlen_fmap {B} (f : A -> B) l : zlen (f <$> l) = zlen l.
Proof. unfold zlen. by rewrite length_fmap. Qed.
Lemma zlen_reverse l : zlen (reverse l) = zlen l.
Proof. unfold zlen. by rewrite length_reverse. Qed.
Lemma zlen_take n l : 0 <= n <= zlen l -> zlen (take (Z.to_nat n) l) = n.
Proof. unfold zlen. rewrite length_take. lia. Qed.
Lemma zlen_drop n l : 0 <= n <= zlen l -> zlen (drop (Z.to_nat n) l) = zlen l - n.
Proof. unfold zlen. rewrite length_drop. lia. Qed.
Lemma zlen_enumerate l : zlen (enumerate l) = zlen l.
Proof. unfold zlen, enumerate. by rewrite length_imap. Qed.
End ZList.

Lemma zlen_seqZ a n : 0 <= n -> zlen (seqZ a n) = n.
Proof. intros. unfold zlen. rewrite length_seqZ. lia. Qed.

Lemma zlen_zrange a b : a <= b -> zlen (zrange a b) = b - a.
Proof. intros. unfold zrange. rewrite zlen_seqZ; lia. Qed.

Lemma elem_of_zrange x a b : x ∈ zrange a b <-> a <= x < b.
Proof. unfold zrange. rewrite elem_of_seqZ. lia. Qed.

Lemma zrange_cons a b : a < b -> zrange a b = a :: zrange (a + 1) b.
Proof.
  intros. unfold zrange. rewrite seqZ_cons by lia. f_equal; f_equal; lia.
Qed.

Lemma zrange_snoc a b : a <= b -> zrange a (b + 1) = zrange a b ++ [b].
Proof.
  intros. unfold zrange. replace (b + 1 - a) with (b - a + 1) by lia.
  rewrite seqZ_app by lia. f_equal. rewrite seqZ_cons by lia.
  rewrite seqZ_nil by lia. do 2 f_equal. lia.
Qed.

Lemma zrange_nil a b : b <= a -> zrange a b = [].
Proof. intros. unfold zrange. apply seqZ_nil. lia. Qed.

Lemma foldl_reverse {A B} (f : B -> A -> B) (b : B) (l : list A) :
  foldl f b (reverse l) = foldr (fun x acc => f acc x) b l.
Proof. induction l as [|x l IH]; [done|]. rewrite reverse_cons, foldl_snoc, IH. done. Qed.

Lemma position_Some {A} (f : A -> bool) (l : list A) i :
  position f l = Some i ->
  0 <= i < zlen l /\ (exists x, l !! Z.to_nat i = Some x /\ f x = true) /\
  (forall j x, 0 <= j < i -> l !! Z.to_nat j = Some x -> f x = false).
Proof.
  revert i. induction l as [|y l IH]; intros i H; [done|]. simpl in H.
  rewrite zlen_cons. pose proof (zlen_nonneg l). destruct (f y) eqn:Hy.
  - simplify_eq. split; [lia|]. split; [by exists y|]. lia.
  - destruct (position f l) as [k|] eqn:Hk; simplify_eq/=.
    destruct (IH k eq_refl) as (Hb & (x & Hx & Hfx) & Hbefore). split; [lia|]. split.
    + exists x. split; [|done]. by rewrite Z2Nat.inj_succ by lia.
    + intros j z Hj Hz. destruct (decide (j = 0)) as [->|]; [by simplify_eq/=|].
      apply (Hbefore (j - 1) z); [lia|].
      by replace (Z.to_nat j) with (S (Z.to_nat (j - 1))) in Hz by lia.
Qed.

Lemma position_None {A} (f : A -> bool) (l : list A) :
  position f l = None -> forall x, x ∈ l -> f x = false.
Proof.
  induction l as [|y l IH]; simpl; intros H x Hx; [by apply not_elem_of_nil in Hx|].
  destruct (f y) eqn:Hy; [done|]. destruct (position f l); [done|].
  apply elem_of_cons in Hx as [->|Hx]; auto.
Qed.

Lemma position_only {A} (f : A -> bool) (l : list A) i x :
  l !! i = Some x -> f x = true -> (forall j y, l !! j = Some y -> f y = true -> j = i) ->
  position f l = Some (Z.of_nat i).
Proof.
  intros Hi Hx Honly. destruct (position f l) as [k|] eqn:Hp.
  - apply position_Some in Hp as (Hr & (y & Hy & Hfy) & _). f_equal. specialize (Honly _ _ Hy Hfy). lia.
  - pose proof (position_None _ _ Hp x (list_elem_of_lookup_2 _ _ _ Hi)). congruence.
Qed.

Lemma find_Some {A} (f : A -> bool) (l : list A) x : find f l = Some x -> x ∈ l /\ f x = true.
Proof.
  induction l as [|y l IH]; simpl; [done|]. destruct (f y) eqn:Hy; intros H.
  - simplify_eq. split; [constructor|done].
  - destruct (IH H). split; [by constructor|done].
Qed.

Lemma find_None {A} (f : A -> bool) (l : list A) : find f l = None -> forall x, x ∈ l -> f x = false.
Proof.
  induction l as [|y l IH]; simpl; intros H x Hx; [by apply not_elem_of_nil in Hx|].
  destruct (f y) eqn:Hy; [done|]. apply elem_of_cons in Hx as [->|Hx]; auto.
Qed.

Lemma index_at_Ok {E A} (l : list A) i x :
  0 <= i -> l !! Z.to_nat i = Some x -> @index_at E A l i = Ok x.
Proof. intros H0 Hx. unfold index_at. rewrite (proj2 (Z.leb_le _ _)) by lia. by rewrite Hx. Qed.

Lemma set_at_Ok {E A} (l : list A) i x :
  0 <= i < zlen l -> @set_at E A l i x = Ok (<[Z.to_nat i := x]> l).
Proof.
  intros. unfold set_at. rewrite (proj2 (Z.leb_le _ _)), (proj2 (Z.ltb_lt _ _)) by lia. done.
Qed.

Lemma join_app {A} (l1 l2 : list (list A)) : mjoin (l1 ++ l2) = mjoin l1 ++ mjoin l2.
Proof. induction l1 as [|x l1 IH]; [done|]. simpl. by rewrite IH, app_assoc. Qed.

Lemma list_filter_iff_in {A} (P Q : A -> Prop) `{!forall x, Decision (P x), !forall x, Decision (Q x)}
    (l : list A) : (forall x, x ∈ l -> P x <-> Q x) -> filter P l = filter Q l.
Proof.
  intros HPQ. induction l as [|x l IH]; [done|].
  rewrite !filter_cons. rewrite IH by (intros; apply HPQ; by constructor).
  pose proof (HPQ x (list_elem_of_here x l)). do 2 case_decide; tauto.
Qed.

(** ** Automation *)

(** Numeric constants [lia] has to see through. *)
Create HintDb consts discriminated.
#[export] Hint Unfold u8_max u16_max u32_max u64_max usize_max is_u64 : consts.
Ltac ulia := try (autounfold with consts in *); lia.

Create HintDb zlen discriminated.
#[export] Hint Rewrite @zlen_nil @zlen_cons @zlen_app @zlen_replicate @zlen_insert
  @zlen_fmap @zlen_reverse @zlen_enumerate : zlen.
#[export] Hint Rewrite @zlen_take @zlen_drop zlen_seqZ zlen_zrange using ulia : zlen.

(** Normalise [Z] lengths and finish with [lia]. *)
Ltac zlen_solve := autorewrite with zlen in *; try ulia.

(** Case analysis on the boolean tests and [match]es of an executable definition,
    turning comparisons into facts [lia] reads. *)
Ltac bool_facts :=
  repeat match goal with
  | H : (_ =? _) = true |- _ => apply Z.eqb_eq in H
  | H : (_ =? _) = false |- _ => apply Z.eqb_neq in H
  | H : (_ <? _) = true |- _ => apply Z.ltb_lt in H
  | H : (_ <? _) = false |- _ => apply Z.ltb_ge in H
  | H : (_ <=? _) = true |- _ => apply Z.leb_le in H
  | H : (_ <=? _) = false |- _ => apply Z.leb_gt in H
  | H : andb _ _ = true |- _ => apply andb_true_iff in H; destruct H
  | H : orb _ _ = false |- _ => apply orb_false_iff in H; destruct H
  | H : negb _ = true |- _ => apply negb_true_iff in H
  | H : negb _ = false |- _ => apply negb_false_iff in H
  | H : bool_decide _ = true |- _ => apply bool_decide_eq_true in H
  | H : bool_decide _ = false |- _ => apply bool_decide_eq_false in H
  end.

(** Reduce the plumbing of a [let?] chain and nothing else. *)
Ltac ostep := cbn [obind ensure ok_or map_err negb andb orb fst snd ilift iret].

(** Split the first [match]/[if] of the goal or of a hypothesis. *)
Ltac split_match :=
  match goal with
  | |- context [match ?x with _ => _ end] => destruct x eqn:?
  | H : context [match ?x with _ => _ end] |- _ => destruct x eqn:?
  end.

Ltac split_matches := repeat (split_match; simplify_eq/=; bool_facts).

Lemma owp_fold_range {E B} (f : B -> Z -> outcome E B) (I : B -> Z -> Prop) (R : E -> Prop) a b acc :
  a <= b -> I acc a ->
  (forall k acc', a <= k < b -> I acc' k -> owp (f acc' k) (fun acc'' => I acc'' (k + 1)) R) ->
  owp (ofold f acc (zrange a b)) (fun acc' => I acc' b) R.
Proof.
  intros Hab HI Hstep. remember (Z.to_nat (b - a)) as m eqn:Hm. revert a acc Hab HI Hm Hstep.
  induction m as [|m IH]; intros a acc Hab HI Hm Hstep.
  - assert (a = b) as -> by lia. by rewrite zrange_nil by lia.
  - rewrite zrange_cons by lia. simpl. pose proof (Hstep a acc ltac:(lia) HI) as Hs.
    destruct (f acc a); simpl in *; [|done..]. apply IH; [lia|done|lia|].
    intros k acc' Hk. apply Hstep. lia.
Qed.

Lemma wp_fold_range {E D B} (f : B -> Z -> ST E D B) (I : B -> Z -> D -> Prop)
    (R : E -> D -> Prop) a b acc d :
  a <= b -> I acc a d ->
  (forall k acc' d', a <= k < b -> I acc' k d' -> wp (f acc' k) (fun acc'' => I acc'' (k + 1)) R d') ->
  wp (ifold f acc (zrange a b)) (fun acc' => I acc' b) R d.
Proof.
  intros Hab HI Hstep. remember (Z.to_nat (b - a)) as m eqn:Hm. revert a acc d Hab HI Hm Hstep.
  induction m as [|m IH]; intros a acc d Hab HI Hm Hstep.
  - assert (a = b) as -> by lia. rewrite zrange_nil by lia. by apply wp_ret.
  - rewrite zrange_cons by lia. simpl. apply wp_bind.
    eapply wp_mono; [apply (Hstep a acc d ltac:(lia) HI)|simpl|done].
    intros acc' d' HI'. apply IH; [lia|done|lia|]. intros k acc'' d'' Hk. apply Hstep. lia.
Qed.

Lemma wp_for_range {E D} (f : Z -> ST E D unit) (I : Z -> D -> Prop) (R : E -> D -> Prop) a b d :
  a <= b -> I a d ->
  (forall k d', a <= k < b -> I k d' -> wp (f k) (fun _ => I (k + 1)) R d') ->
  wp (ifor f (zrange a b)) (fun _ => I b) R d.
Proof.
  intros Hab HI Hstep. remember (Z.to_nat (b - a)) as m eqn:Hm. revert a d Hab HI Hm Hstep.
  induction m as [|m IH]; intros a d Hab HI Hm Hstep.
  - assert (a = b) as -> by lia. rewrite zrange_nil by lia. by apply wp_ret.
  - rewrite zrange_cons by lia. simpl. apply wp_bind.
    eapply wp_mono; [apply (Hstep a d ltac:(lia) HI)|simpl|done].
    intros _ d' HI'. apply IH; [lia|done|lia|]. intros k d'' Hk. apply Hstep. lia.
Qed.

Lemma ofor_Ok {E A} (f : A -> outcome E unit) (l : list A) u :
  ofor f l = Ok u <-> forall x, x ∈ l -> f x = Ok tt.
Proof.
  destruct u. induction l as [|x l IH]; simpl.
  { split; [|done]. intros _ x Hx. by apply not_elem_of_nil in Hx. }
  split.
  - intros H y Hy. destruct (f x) as [[]|e|] eqn:Hx; simpl in H; try done.
    apply elem_of_cons in Hy as [->|Hy]; [done|]. by apply IH.
  - intros H. rewrite (H x) by constructor. simpl. apply IH. intros y Hy. apply H. by constructor.
Qed.

Lemma ofor_no_panic {E A} (f : A -> outcome E unit) (l : list A) :
  (forall x, x ∈ l -> f x <> Panic) -> ofor f l <> Panic.
Proof.
  induction l as [|x l IH]; simpl; intros H; [done|].
  pose proof (H x (list_elem_of_here _ _)). destruct (f x); simpl; [|done..].
  apply IH. intros y Hy. apply H. by constructor.
Qed.

(** Invert a chain of [let?] that returned [Ok]. *)
Lemma obind_Ok {E A B} (m : outcome E A) (k : A -> outcome E B) b :
  obind m k = Ok b <-> exists a, m = Ok a /\ k a = Ok b.
Proof. destruct m; simpl; naive_solver. Qed.

Lemma ensure_Ok {E} b (e : E) u : ensure b e = Ok u <-> b = true.
Proof. unfold ensure. destruct b, u; naive_solver. Qed.

Lemma ok_or_Ok {E A} (o : option A) (e : E) a : ok_or o e = Ok a <-> o = Some a.
Proof. unfold ok_or. destruct o; naive_solver. Qed.

Lemma map_err_Ok {E E' A} (f : E -> E') (m : outcome E A) a :
  map_err f m = Ok a <-> m = Ok a.
Proof. destruct m; simpl; naive_solver. Qed.

Ltac inv_ok :=
  repeat match goal with
  | H : obind _ _ = Ok _ |- _ =>
      apply obind_Ok in H; let x := fresh "x" in let E := fresh "E" in destruct H as (x & E & H)
  | H : ensure _ _ = Ok _ |- _ => apply ensure_Ok in H
  | H : ok_or _ _ = Ok _ |- _ => apply ok_or_Ok in H
  | H : map_err _ _ = Ok _ |- _ => apply map_err_Ok in H
  | H : Ok _ = Ok _ |- _ => injection H as H
  | H : Err _ = Ok _ |- _ => discriminate H
  | H : Panic = Ok _ |- _ => discriminate H
  end; subst.

Lemma checked_add_Some a b c : checked_add a b = Some c <-> c = a + b /\ a + b <= u64_max.
Proof. unfold checked_add. case_match; bool_facts; naive_solver lia. Qed.
Lemma checked_mul_Some a b c : checked_mul a b = Some c <-> c = a * b /\ a * b <= u64_max.
Proof. unfold checked_mul. case_match; bool_facts; naive_solver lia. Qed.
Lemma checked_add_le a b : a + b <= u64_max -> checked_add a b = Some (a + b).
Proof. intros. unfold checked_add. case_match; bool_facts; [done|lia]. Qed.
Lemma checked_mul_le a b : a * b <= u64_max -> checked_mul a b = Some (a * b).
Proof. intros. unfold checked_mul. case_match; bool_facts; [done|lia]. Qed.
Lemma add_u64_le {E} a b : a + b <= u64_max -> @add_u64 E a b = Ok (a + b).
Proof. intros. unfold add_u64. case_match; bool_facts; [done|lia]. Qed.
Lemma sub_u64_le {E} a b : b <= a -> @sub_u64 E a b = Ok (a - b).
Proof. intros. unfold sub_u64. case_match; bool_facts; [done|lia]. Qed.
Lemma try_from_le hi x : x <= hi -> try_from hi x = Some x.
Proof. intros. unfold try_from. case_match; bool_facts; [done|lia]. Qed.
Lemma usize_try_from_le x : x <= u64_max -> usize_try_from x = Some x.
Proof. apply try_from_le. Qed.
Lemma u64_try_from_le x : x <= u64_max -> u64_try_from x = Some x.
Proof. apply try_from_le. Qed.
Lemma u32_try_from_le x : x <= u32_max -> u32_try_from x = Some x.
Proof. apply try_from_le. Qed.
Lemma u16_try_from_le x : x <= u16_max -> u16_try_from x = Some x.
Proof. apply try_from_le. Qed.

#[export] Hint Rewrite checked_add_le checked_mul_le @add_u64_le @sub_u64_le usize_try_from_le
  u64_try_from_le u32_try_from_le u16_try_from_le using ulia : zlen.

Lemma ensure_true {E} (e : E) : ensure true e = Ok tt.
Proof. done. Qed.

Lemma try_from_Some hi x y : try_from hi x = Some y <-> y = x /\ x <= hi.
Proof. unfold try_from. case_match; bool_facts; naive_solver lia. Qed.
Lemma checked_sub_Some a b c : checked_sub a b = Some c <-> c = a - b /\ b <= a.
Proof. unfold checked_sub. case_match; bool_facts; naive_solver lia. Qed.
Lemma add_u64_Ok {E} a b c : @add_u64 E a b = Ok c <-> c = a + b /\ a + b <= u64_max.
Proof. unfold add_u64. case_match; bool_facts; naive_solver lia. Qed.
Lemma sub_u64_Ok {E} a b c : @sub_u64 E a b = Ok c <-> c = a - b /\ b <= a.
Proof. unfold sub_u64. case_match; bool_facts; naive_solver lia. Qed.

(** Facts of the checked operations that succeeded. *)
Ltac checked_facts :=
  unfold usize_try_from, u64_try_from, u32_try_from, u16_try_from in *;
  repeat match goal with
  | H : checked_add _ _ = Some _ |- _ => apply checked_add_Some in H as [-> ?]
  | H : checked_mul _ _ = Some _ |- _ => apply checked_mul_Some in H as [-> ?]
  | H : checked_sub _ _ = Some _ |- _ => apply checked_sub_Some in H as [-> ?]
  | H : try_from _ _ = Some _ |- _ => apply try_from_Some in H as [-> ?]
  | H : add_u64 _ _ = Ok _ |- _ => apply add_u64_Ok in H as [-> ?]
  | H : sub_u64 _ _ = Ok _ |- _ => apply sub_u64_Ok in H as [-> ?]
  end.

(** ** Calls that cannot panic *)

Section NoPanic.
Context {E A B : Type}.

Lemma obind_no_panic (m : outcome E A) (k : A -> outcome E B) :
  m <> Panic -> (forall a, m = Ok a -> k a <> Panic) -> obind m k <> Panic.
Proof. destruct m; simpl; auto. Qed.

Lemma ensure_no_panic b (e : E) : ensure b e <> Panic.
Proof. by destruct b. Qed.
Lemma ok_or_no_panic (o : option A) (e : E) : ok_or o e <> Panic.
Proof. by destruct o. Qed.
Lemma map_err_no_panic {E'} (f : E -> E') (m : outcome E A) : m <> Panic -> map_err f m <> Panic.
Proof. by destruct m. Qed.
Lemma owp_no_panic (m : outcome E A) Q R : owp m Q R -> m <> Panic.
Proof. by destruct m. Qed.
End NoPanic.

Create HintDb no_panic discriminated.
#[export] Hint Resolve ensure_no_panic ok_or_no_panic map_err_no_panic : no_panic.

(** Walk a [let?] chain; [tac] proves the calls the hints do not cover, [post]
    simplifies what is known of the calls that returned. *)
Ltac no_panic_step tac post :=
  first
  [ discriminate
  | solve [auto with no_panic]
  | apply obind_no_panic;
    [ solve [auto with no_panic | tac]
    | let x := fresh "x" in let E := fresh "E" in intros x E; inv_ok; bool_facts; checked_facts; post ]
  | case_match; bool_facts ].
Ltac no_panic_with tac post := repeat no_panic_step tac post.
