(* ===== verification/Bytes.v ===== *)
(** * Byte buffers, little-endian integers and CRC-32

    The buffer operations every codec of the crate uses: slicing and
    [copy_from_slice] (which panic out of range), [to_le_bytes] /
    [from_le_bytes], and the bitwise IEEE CRC-32 that [journal_codec],
    [journal_region], [allocation_disk], [inode_codec], [inode_table],
    [directory_codec] and [directory_table] each carry a copy of. *)

From S2P Require Import Prelude.

Definition is_byte (b : Z) : Prop := 0 <= b <= u8_max.
#[global] Instance is_byte_dec b : Decision (is_byte b) := ltac:(unfold is_byte; apply _).

Abbreviation bytes := (list Z).

(** [vec![0_u8; n]] *)
Definition zeros (n : Z) : bytes := replicate (Z.to_nat n) 0.

(** ** Total views: [sub] reads [n] elements at [a], [put] overwrites at [a] *)

Definition sub {A} (bs : list A) (a n : Z) : list A := take (Z.to_nat n) (drop (Z.to_nat a) bs).
Definition put {A} (bs : list A) (a : Z) (src : list A) : list A :=
  take (Z.to_nat a) bs ++ src ++ drop (Z.to_nat a + length src) bs.

(** [&bs[a..b]] *)
Definition slice {E A} (bs : list A) (a b : Z) : outcome E (list A) :=
  if (0 <=? a) && (a <=? b) && (b <=? zlen bs) then Ok (sub bs a (b - a)) else Panic.

(** [&bs[a..]] *)
Definition slice_from {E A} (bs : list A) (a : Z) : outcome E (list A) := slice bs a (zlen bs).

(** [bs[a..b].copy_from_slice(src)] *)
Definition copy_range {E A} (bs : list A) (a b : Z) (src : list A) : outcome E (list A) :=
  if (0 <=? a) && (a <=? b) && (b <=? zlen bs) && (b - a =? zlen src)
  then Ok (put bs a src) else Panic.

(** [x.to_le_bytes()] for an [n]-byte unsigned integer *)
Fixpoint le_bytes (n : nat) (x : Z) : bytes :=
  match n with
  | O => []
  | S n' => x mod 256 :: le_bytes n' (x / 256)
  end.

(** [from_le_bytes] *)
Fixpoint from_le_bytes (bs : bytes) : Z :=
  match bs with
  | [] => 0
  | b :: bs' => b + 256 * from_le_bytes bs'
  end.

Definition u16_le (x : Z) : bytes := le_bytes 2 x.
Definition u32_le (x : Z) : bytes := le_bytes 4 x.
Definition u64_le (x : Z) : bytes := le_bytes 8 x.

(** [uN::from_le_bytes([bytes[offset], ..])] *)
Definition read_le {E} (n : Z) (bs : bytes) (offset : Z) : outcome E Z :=
  let? field := slice bs offset (offset + n) in Ok (from_le_bytes field).
Definition read_u16 {E} : bytes -> Z -> outcome E Z := read_le 2.
Definition read_u32 {E} : bytes -> Z -> outcome E Z := read_le 4.
Definition read_u64 {E} : bytes -> Z -> outcome E Z := read_le 8.

Definition bytes_eqb (a b : bytes) : bool := bool_decide (a = b).
Definition any_nonzero (bs : bytes) : bool := existsb (fun b => negb (b =? 0)) bs.
Definition all_zero (bs : bytes) : bool := forallb (fun b => b =? 0) bs.

(** ** CRC-32 *)

Definition wrapping_sub_u32 (a b : Z) : Z := (a - b) mod 2 ^ 32.

(** One iteration of [for _ in 0..8]. *)
Definition crc_bit (crc : Z) : Z :=
  let mask := wrapping_sub_u32 0 (Z.land crc 1) in
  Z.lxor (Z.shiftr crc 1) (Z.land 0xedb88320 mask).

Definition crc_byte (crc byte : Z) : Z := Nat.iter 8 crc_bit (Z.lxor crc byte).

Definition not_u32 (x : Z) : Z := Z.lxor x u32_max.

Definition crc32 (bs : bytes) : Z := not_u32 (foldl crc_byte u32_max bs).

(** The variant that reads its own checksum field, at [offset], as zero. *)
Definition crc32_masked (offset : Z) (bs : bytes) : Z :=
  not_u32 (foldl (fun crc '(index, byte) =>
                    let value := if (offset <=? index) && (index <? offset + 4) then 0 else byte in
                    crc_byte crc value) u32_max (enumerate bs)).

(** ** Lemmas: [sub] and [put] *)

Section SubPut.
Context {A : Type}.
Implicit Types (bs src : list A).

Lemma zlen_sub bs a n : 0 <= a -> 0 <= n -> a + n <= zlen bs -> zlen (sub bs a n) = n.
Proof. unfold sub, zlen. rewrite length_take, length_drop. lia. Qed.

Lemma zlen_put bs a src : 0 <= a -> a + zlen src <= zlen bs -> zlen (put bs a src) = zlen bs.
Proof. unfold put, zlen. rewrite !length_app, length_take, length_drop. lia. Qed.

Lemma sub_put_same bs a src n :
  0 <= a -> a + zlen src <= zlen bs -> n = zlen src -> sub (put bs a src) a n = src.
Proof.
  unfold sub, put, zlen. intros ? ? ->. rewrite drop_app_length' by (rewrite length_take; lia).
  rewrite take_app_length' by lia. done.
Qed.

Lemma sub_put_before bs a src i n :
  0 <= i -> 0 <= n -> i + n <= a -> a + zlen src <= zlen bs ->
  sub (put bs a src) i n = sub bs i n.
Proof.
  unfold sub, put, zlen. intros. apply list_eq. intros k.
  destruct (decide (k < Z.to_nat n)%nat) as [Hk|Hk].
  - rewrite !lookup_take_lt, !lookup_drop by lia.
    rewrite lookup_app_l by (rewrite length_take; lia). rewrite lookup_take_lt by lia. done.
  - rewrite !lookup_take_ge by lia. done.
Qed.

Lemma sub_put_after bs a src i n :
  0 <= a -> a + zlen src <= i -> a + zlen src <= zlen bs ->
  sub (put bs a src) i n = sub bs i n.
Proof.
  unfold sub, put, zlen. intros. f_equal. apply list_eq. intros k.
  rewrite !lookup_drop.
  rewrite lookup_app_r by (rewrite length_take; lia).
  rewrite lookup_app_r by (rewrite length_take; lia).
  rewrite lookup_drop, length_take. f_equal. lia.
Qed.

Lemma sub_sub bs a n i m :
  0 <= a -> 0 <= i -> 0 <= m -> i + m <= n -> sub (sub bs a n) i m = sub bs (a + i) m.
Proof.
  unfold sub. intros. apply list_eq. intros k.
  destruct (decide (k < Z.to_nat m)%nat).
  - rewrite !lookup_take_lt, !lookup_drop by lia. rewrite lookup_take_lt by lia.
    rewrite lookup_drop. f_equal. lia.
  - rewrite !lookup_take_ge by lia. done.
Qed.

Lemma sub_all bs n : n = zlen bs -> sub bs 0 n = bs.
Proof. intros ->. unfold sub, zlen. rewrite Nat2Z.id. simpl. by rewrite firstn_all. Qed.

Lemma sub_split bs a n m :
  0 <= a -> 0 <= n -> 0 <= m -> sub bs a (n + m) = sub bs a n ++ sub bs (a + n) m.
Proof.
  intros. unfold sub. rewrite Z2Nat.inj_add by lia.
  rewrite <- take_take_drop, drop_drop. do 3 f_equal. lia.
Qed.

Lemma sub_app_l bs1 bs2 a n :
  0 <= a -> 0 <= n -> a + n <= zlen bs1 -> sub (bs1 ++ bs2) a n = sub bs1 a n.
Proof.
  unfold sub, zlen. intros. rewrite drop_app_le by lia. rewrite take_app_le; [done|].
  rewrite length_drop. lia.
Qed.

Lemma sub_app_r bs1 bs2 a n :
  zlen bs1 <= a -> sub (bs1 ++ bs2) a n = sub bs2 (a - zlen bs1) n.
Proof.
  unfold sub, zlen. intros. rewrite drop_app_ge by lia. do 2 f_equal. lia.
Qed.

Lemma sub_prefix bs1 bs2 n : n = zlen bs1 -> sub (bs1 ++ bs2) 0 n = bs1.
Proof. intros ->. rewrite sub_app_l by (pose proof (zlen_nonneg bs1); lia). by apply sub_all. Qed.

Lemma sub_at bs1 bs2 a n : a = 0 -> n = zlen bs1 -> sub (bs1 ++ bs2) a n = bs1.
Proof. intros ->. apply sub_prefix. Qed.

Lemma sub_nil bs a : sub bs a 0 = [].
Proof. done. Qed.

Lemma put_id bs a src n :
  0 <= a -> a + zlen src <= zlen bs -> n = zlen src -> sub bs a n = src -> put bs a src = bs.
Proof.
  intros ? ? -> Hsub. unfold put. unfold sub in Hsub.
  rewrite <- (take_drop (Z.to_nat a) bs) at 3. f_equal.
  rewrite <- drop_drop.
  rewrite <- (take_drop (length src) (drop (Z.to_nat a) bs)) at 2. f_equal.
  unfold zlen in Hsub. by rewrite Nat2Z.id in Hsub.
Qed.

Lemma put_app_l bs1 bs2 a src :
  0 <= a -> a + zlen src <= zlen bs1 -> put (bs1 ++ bs2) a src = put bs1 a src ++ bs2.
Proof.
  unfold put, zlen. intros. rewrite take_app_le by lia. rewrite drop_app_le by lia.
  by rewrite <- !app_assoc.
Qed.

Lemma put_put_same bs a s1 s2 :
  0 <= a -> a + zlen s1 <= zlen bs -> zlen s1 = zlen s2 -> put (put bs a s1) a s2 = put bs a s2.
Proof.
  intros Ha Hl Heq. unfold zlen in *. unfold put at 1.
  assert (Ht : take (Z.to_nat a) (put bs a s1) = take (Z.to_nat a) bs).
  { unfold put. rewrite take_app_le by (rewrite length_take; lia).
    rewrite take_take. f_equal. lia. }
  assert (Hd : drop (Z.to_nat a + length s2) (put bs a s1) = drop (Z.to_nat a + length s2) bs).
  { unfold put. rewrite app_assoc, drop_app_ge by (rewrite length_app, length_take; lia).
    rewrite drop_drop. f_equal. rewrite length_app, length_take. lia. }
  by rewrite Ht, Hd.
Qed.

Lemma put_app_r bs1 bs2 a src : zlen bs1 <= a -> put (bs1 ++ bs2) a src = bs1 ++ put bs2 (a - zlen bs1) src.
Proof.
  unfold put, zlen. intros. rewrite take_app_ge, drop_app_ge by lia. rewrite <- !app_assoc. do 2 f_equal; [f_equal; lia|].
  do 2 f_equal. lia.
Qed.

(** Overwriting twice in a row is overwriting once. *)
Lemma put_put_next bs a s1 s2 :
  0 <= a -> a + zlen s1 + zlen s2 <= zlen bs -> put (put bs a s1) (a + zlen s1) s2 = put bs a (s1 ++ s2).
Proof.
  intros Ha Hl. unfold zlen in *. unfold put. set (rest := drop (Z.to_nat a + length s1) bs).
  rewrite (app_assoc (take (Z.to_nat a) bs) s1 rest).
  assert (Hlen : length (take (Z.to_nat a) bs ++ s1) = Z.to_nat (a + Z.of_nat (length s1))).
  { rewrite length_app, length_take. lia. }
  rewrite take_app_length' by done. rewrite drop_app_ge by lia. unfold rest. rewrite drop_drop, <- !app_assoc, Hlen, length_app.
  do 3 f_equal. f_equal. lia.
Qed.

Lemma put_nil bs a : put bs a [] = bs.
Proof. unfold put. simpl. rewrite Nat.add_0_r. apply take_drop. Qed.

Lemma Forall_sub (P : A -> Prop) bs a n : Forall P bs -> Forall P (sub bs a n).
Proof. intros. unfold sub. by apply Forall_take, Forall_drop. Qed.

Lemma Forall_put (P : A -> Prop) bs a src : Forall P bs -> Forall P src -> Forall P (put bs a src).
Proof.
  intros. unfold put. rewrite !Forall_app. auto using Forall_take, Forall_drop.
Qed.

Lemma slice_Ok {E} bs a b : 0 <= a <= b -> b <= zlen bs -> @slice E A bs a b = Ok (sub bs a (b - a)).
Proof. intros. unfold slice. by rewrite !(proj2 (Z.leb_le _ _)) by lia. Qed.

Lemma slice_n {E} bs a b n :
  0 <= a -> b = a + n -> 0 <= n -> b <= zlen bs -> @slice E A bs a b = Ok (sub bs a n).
Proof. intros ? -> ? ?. rewrite slice_Ok by lia. do 2 f_equal. lia. Qed.

Lemma slice_from_Ok {E} bs a :
  0 <= a <= zlen bs -> @slice_from E A bs a = Ok (sub bs a (zlen bs - a)).
Proof. intros. unfold slice_from. apply slice_Ok; lia. Qed.

Lemma copy_range_Ok {E} bs a b src :
  0 <= a -> b = a + zlen src -> b <= zlen bs -> @copy_range E A bs a b src = Ok (put bs a src).
Proof.
  intros ? -> ?. pose proof (zlen_nonneg src). unfold copy_range.
  rewrite !(proj2 (Z.leb_le _ _)) by lia. rewrite (proj2 (Z.eqb_eq _ _)) by lia. done.
Qed.
End SubPut.

Lemma zlen_zeros n : 0 <= n -> zlen (zeros n) = n.
Proof. intros. unfold zeros. rewrite zlen_replicate. lia. Qed.

Lemma sub_zeros k a n : 0 <= a -> 0 <= n -> a + n <= k -> sub (zeros k) a n = zeros n.
Proof.
  intros. unfold sub, zeros. rewrite drop_replicate, take_replicate. f_equal. lia.
Qed.

Lemma zeros_add a b : 0 <= a -> 0 <= b -> zeros (a + b) = zeros a ++ zeros b.
Proof. intros. unfold zeros. rewrite Z2Nat.inj_add by lia. apply replicate_add. Qed.

Lemma Forall_zeros n : Forall is_byte (zeros n).
Proof. apply Forall_replicate. unfold is_byte, u8_max. lia. Qed.

(** ** Lemmas: integers *)

Lemma length_le_bytes n x : length (le_bytes n x) = n.
Proof. revert x. induction n; intros; simpl; auto. Qed.

Lemma zlen_le_bytes n x : zlen (le_bytes n x) = Z.of_nat n.
Proof. unfold zlen. by rewrite length_le_bytes. Qed.

Lemma zlen_u16_le x : zlen (u16_le x) = 2.
Proof. apply zlen_le_bytes. Qed.
Lemma zlen_u32_le x : zlen (u32_le x) = 4.
Proof. apply zlen_le_bytes. Qed.
Lemma zlen_u64_le x : zlen (u64_le x) = 8.
Proof. apply zlen_le_bytes. Qed.

Lemma Forall_le_bytes n x : Forall is_byte (le_bytes n x).
Proof.
  revert x. induction n; intros; simpl; constructor; [|done].
  unfold is_byte, u8_max. pose proof (Z.mod_pos_bound x 256). lia.
Qed.

Lemma from_le_bytes_le_bytes n x :
  0 <= x < 256 ^ Z.of_nat n -> from_le_bytes (le_bytes n x) = x.
Proof.
  revert x. induction n as [|n IH]; intros x Hx; simpl.
  - change (256 ^ Z.of_nat 0) with 1 in Hx. lia.
  - rewrite IH.
    + pose proof (Z.div_mod x 256). lia.
    + rewrite Nat2Z.inj_succ, Z.pow_succ_r in Hx by lia. split.
      * apply Z.div_pos; lia.
      * apply Z.div_lt_upper_bound; lia.
Qed.

Lemma from_le_bytes_bound bs :
  Forall is_byte bs -> 0 <= from_le_bytes bs < 256 ^ zlen bs.
Proof.
  induction 1 as [|b bs Hb _ IH]; simpl.
  - done.
  - rewrite zlen_cons. unfold is_byte, u8_max in Hb. pose proof (zlen_nonneg bs).
    replace (1 + zlen bs) with (Z.succ (zlen bs)) by lia. rewrite Z.pow_succ_r by lia. lia.
Qed.

Lemma le_bytes_from_le_bytes bs :
  Forall is_byte bs -> le_bytes (length bs) (from_le_bytes bs) = bs.
Proof.
  induction 1 as [|b bs Hb _ IH]; simpl; [done|]. unfold is_byte, u8_max in Hb.
  rewrite (Z.mul_comm 256), Z.mod_add, Z.mod_small by lia.
  rewrite Z.div_add, Z.div_small by lia. rewrite Z.add_0_l. by rewrite IH.
Qed.

Lemma from_u64_le x : is_u64 x -> from_le_bytes (u64_le x) = x.
Proof. intros. apply from_le_bytes_le_bytes. change (256 ^ Z.of_nat 8) with (u64_max + 1). unfold is_u64 in *. lia. Qed.
Lemma from_u32_le x : 0 <= x <= u32_max -> from_le_bytes (u32_le x) = x.
Proof. intros. apply from_le_bytes_le_bytes. change (256 ^ Z.of_nat 4) with (u32_max + 1). lia. Qed.
Lemma from_u16_le x : 0 <= x <= u16_max -> from_le_bytes (u16_le x) = x.
Proof. intros. apply from_le_bytes_le_bytes. change (256 ^ Z.of_nat 2) with (u16_max + 1). lia. Qed.

Lemma u16_le_from bs : Forall is_byte bs -> zlen bs = 2 -> u16_le (from_le_bytes bs) = bs.
Proof. intros ? Hl. unfold u16_le. replace 2%nat with (length bs) by (unfold zlen in Hl; lia). by apply le_bytes_from_le_bytes. Qed.
Lemma u32_le_from bs : Forall is_byte bs -> zlen bs = 4 -> u32_le (from_le_bytes bs) = bs.
Proof. intros ? Hl. unfold u32_le. replace 4%nat with (length bs) by (unfold zlen in Hl; lia). by apply le_bytes_from_le_bytes. Qed.
Lemma u64_le_from bs : Forall is_byte bs -> zlen bs = 8 -> u64_le (from_le_bytes bs) = bs.
Proof. intros ? Hl. unfold u64_le. replace 8%nat with (length bs) by (unfold zlen in Hl; lia). by apply le_bytes_from_le_bytes. Qed.

(** Bounds of a decoded field. *)
Lemma from_sub_bound bs a n :
  Forall is_byte bs -> 0 <= a -> 0 <= n -> a + n <= zlen bs ->
  0 <= from_le_bytes (sub bs a n) < 256 ^ n.
Proof.
  intros Hb Ha Hn Hl. pose proof (from_le_bytes_bound (sub bs a n) (Forall_sub _ _ _ _ Hb)) as H.
  by rewrite zlen_sub in H by lia.
Qed.

Lemma read_le_Ok {E} n bs off :
  0 <= off -> 0 <= n -> off + n <= zlen bs -> @read_le E n bs off = Ok (from_le_bytes (sub bs off n)).
Proof.
  intros. unfold read_le. rewrite slice_Ok by lia. simpl.
  replace (off + n - off) with n by lia. done.
Qed.

(** ** Lemmas: zero tests *)

Lemma any_nonzero_all_zero bs : any_nonzero bs = negb (all_zero bs).
Proof.
  unfold any_nonzero, all_zero. induction bs as [|b bs IH]; simpl; [done|].
  rewrite IH. by destruct (b =? 0).
Qed.

Lemma all_zero_spec bs : all_zero bs = true <-> bs = zeros (zlen bs).
Proof.
  unfold all_zero, zeros, zlen. rewrite Nat2Z.id. induction bs as [|b bs IH]; simpl; [done|].
  rewrite andb_true_iff, IH, Z.eqb_eq. split; [intros [-> H]; by f_equal|].
  intros [= -> H]. done.
Qed.

Lemma all_zero_zeros n : all_zero (zeros n) = true.
Proof. unfold all_zero, zeros. induction (Z.to_nat n); simpl; auto. Qed.

Lemma any_nonzero_zeros n : any_nonzero (zeros n) = false.
Proof. by rewrite any_nonzero_all_zero, all_zero_zeros. Qed.

Lemma any_nonzero_false bs : any_nonzero bs = false -> bs = zeros (zlen bs).
Proof. rewrite any_nonzero_all_zero, negb_false_iff. apply all_zero_spec. Qed.

Lemma bytes_eqb_eq a b : bytes_eqb a b = true <-> a = b.
Proof. apply bool_decide_eq_true. Qed.

Lemma bytes_eqb_refl a : bytes_eqb a a = true.
Proof. by apply bool_decide_eq_true. Qed.

(** ** Lemmas: CRC-32 *)

Lemma lxor_bound n a b : 0 <= n -> 0 <= a < 2 ^ n -> 0 <= b < 2 ^ n -> 0 <= Z.lxor a b < 2 ^ n.
Proof.
  intros Hn Ha Hb. assert (Hnn : 0 <= Z.lxor a b) by (apply Z.lxor_nonneg; lia). split; [done|].
  destruct (Z.eq_dec (Z.lxor a b) 0) as [->|Hnz]; [lia|].
  assert (Hpos : 0 < Z.lxor a b) by lia.
  assert (0 < n). { destruct (Z.eq_dec n 0) as [->|]; [|lia]. change (2 ^ 0) with 1 in *.
    replace a with 0 in Hpos by lia. replace b with 0 in Hpos by lia. done. }
  assert (Hlg : forall x, 0 <= x < 2 ^ n -> Z.log2 x < n).
  { intros x Hx. destruct (Z.eq_dec x 0) as [->|]; [done|]. apply Z.log2_lt_pow2; lia. }
  apply Z.log2_lt_pow2; [lia|].
  pose proof (Z.log2_lxor a b ltac:(lia) ltac:(lia)).
  pose proof (Hlg a Ha). pose proof (Hlg b Hb). lia.
Qed.

Lemma lor_bound n a b : 0 <= n -> 0 <= a < 2 ^ n -> 0 <= b < 2 ^ n -> 0 <= Z.lor a b < 2 ^ n.
Proof.
  intros Hn Ha Hb. assert (Hnn : 0 <= Z.lor a b) by (apply Z.lor_nonneg; lia). split; [done|].
  destruct (Z.eq_dec (Z.lor a b) 0) as [->|Hnz]; [lia|]. apply Z.log2_lt_cancel.
  rewrite Z.log2_lor, Z.log2_pow2 by lia.
  assert (Hlg : forall x, 0 <= x < 2 ^ n -> x <> 0 -> Z.log2 x < n).
  { intros x Hx Hx0. apply Z.log2_lt_pow2; lia. }
  destruct (Z.eq_dec a 0) as [->|]; destruct (Z.eq_dec b 0) as [->|]; [done|..].
  - pose proof (Hlg b Hb). pose proof (Z.log2_nonneg b). change (Z.log2 0) with 0. lia.
  - pose proof (Hlg a Ha). pose proof (Z.log2_nonneg a). change (Z.log2 0) with 0. lia.
  - pose proof (Hlg a Ha). pose proof (Hlg b Hb). lia.
Qed.

Lemma crc_bit_bound crc : 0 <= crc < 2 ^ 32 -> 0 <= crc_bit crc < 2 ^ 32.
Proof.
  intros H. unfold crc_bit. apply lxor_bound; [lia| |].
  - rewrite Z.shiftr_div_pow2 by lia. split; [apply Z.div_pos; lia|].
    apply Z.div_lt_upper_bound; lia.
  - split; [apply Z.land_nonneg; lia|].
    eapply Z.le_lt_trans; [|exact (eq_refl : 0xedb88320 < 2 ^ 32)].
    refine (proj2 (Z.ldiff_le _ _ _ _)); [lia|].
    apply Z.bits_inj'. intros k Hk. rewrite Z.ldiff_spec, Z.land_spec, Z.bits_0.
    destruct (Z.testbit 0xedb88320 k), (Z.testbit (wrapping_sub_u32 0 (Z.land crc 1)) k); done.
Qed.

Lemma crc_byte_bound crc b : 0 <= crc < 2 ^ 32 -> is_byte b -> 0 <= crc_byte crc b < 2 ^ 32.
Proof.
  intros Hc Hb. unfold crc_byte. apply Nat.iter_invariant.
  - intros x. apply crc_bit_bound.
  - apply lxor_bound; [lia|done|]. unfold is_byte, u8_max in Hb. lia.
Qed.

Lemma crc_foldl_bound bs crc :
  0 <= crc < 2 ^ 32 -> Forall is_byte bs -> 0 <= foldl crc_byte crc bs < 2 ^ 32.
Proof.
  intros Hc Hbs. revert crc Hc. induction Hbs as [|b bs Hb _ IH]; intros crc Hc; simpl; [done|].
  apply IH. by apply crc_byte_bound.
Qed.

Lemma crc32_bound bs : Forall is_byte bs -> 0 <= crc32 bs <= u32_max.
Proof.
  intros H. unfold crc32, not_u32.
  assert (0 <= Z.lxor (foldl crc_byte u32_max bs) u32_max < 2 ^ 32); [|unfold u32_max in *; lia].
  apply lxor_bound; [lia| |done]. by apply crc_foldl_bound.
Qed.

Lemma crc_fold_masked offset bs : forall (start : nat) crc,
  foldl (fun crc '(index, byte) =>
           crc_byte crc (if (offset <=? index) && (index <? offset + 4) then 0 else byte))
    crc (imap (fun i x => (Z.of_nat (start + i), x)) bs) =
  foldl crc_byte crc
    (imap (fun i x => if (offset <=? Z.of_nat (start + i)) && (Z.of_nat (start + i) <? offset + 4)
                      then 0 else x) bs).
Proof.
  induction bs as [|b bs IH]; intros start crc; [done|]. simpl.
  rewrite Nat.add_0_r.
  assert (Hshift : forall B (f : nat -> Z -> B),
            imap ((fun i x => f (start + i)%nat x) ∘ S) bs =
            imap (fun i x => f (S start + i)%nat x) bs).
  { intros. apply imap_ext. intros i x _. simpl. f_equal. lia. }
  rewrite (Hshift _ (fun i x => (Z.of_nat i, x))).
  rewrite (Hshift _ (fun i x => if (offset <=? Z.of_nat i) && (Z.of_nat i <? offset + 4)
                      then 0 else x)).
  apply IH.
Qed.

(** Masking the field while folding is the same as clearing it first. *)
Lemma crc32_masked_put offset bs :
  0 <= offset -> offset + 4 <= zlen bs -> crc32_masked offset bs = crc32 (put bs offset (zeros 4)).
Proof.
  intros H0 Hl. unfold crc32_masked, crc32. f_equal.
  unfold enumerate. rewrite (crc_fold_masked offset bs 0). f_equal. simpl.
  apply list_eq. intros i. rewrite list_lookup_imap. unfold put. unfold zlen in Hl.
  change (length (zeros 4)) with 4%nat.
  destruct (decide (Z.of_nat i < offset)).
  - rewrite lookup_app_l by (rewrite length_take; lia). rewrite lookup_take_lt by lia.
    destruct (bs !! i); simpl; [|done]. case_match; bool_facts; [lia|done].
  - rewrite lookup_app_r by (rewrite length_take; lia). rewrite length_take.
    destruct (decide (Z.of_nat i < offset + 4)).
    + rewrite lookup_app_l by (change (length (zeros 4)) with 4%nat; lia).
      unfold zeros. rewrite lookup_replicate_2 by lia.
      destruct (lookup_lt_is_Some_2 bs i) as [x ->]; [lia|]. simpl.
      case_match; [done|]. apply andb_false_iff in H as [?|?]; bool_facts; lia.
    + rewrite lookup_app_r by (change (length (zeros 4)) with 4%nat; lia).
      change (length (zeros 4)) with 4%nat. rewrite lookup_drop.
      replace (Z.to_nat offset + 4 + (i - Z.to_nat offset `min` length bs - 4))%nat with i by lia.
      destruct (bs !! i); simpl; [|done]. case_match; bool_facts; [lia|done].
Qed.

(** ** Automation *)

#[export] Hint Rewrite zlen_le_bytes zlen_u16_le zlen_u32_le zlen_u64_le : zlen.
#[export] Hint Rewrite @zlen_sub @zlen_put zlen_zeros using (autorewrite with zlen; ulia) : zlen.

Lemma Forall_u16_le x : Forall is_byte (u16_le x). Proof. apply Forall_le_bytes. Qed.
Lemma Forall_u32_le x : Forall is_byte (u32_le x). Proof. apply Forall_le_bytes. Qed.
Lemma Forall_u64_le x : Forall is_byte (u64_le x). Proof. apply Forall_le_bytes. Qed.

Create HintDb bytes discriminated.
#[export] Hint Resolve Forall_zeros Forall_u16_le Forall_u32_le Forall_u64_le Forall_sub Forall_put
  Forall_nil_2 Forall_app_2 : bytes.

#[global] Arguments le_bytes : simpl never.
#[global] Arguments from_le_bytes : simpl never.
#[global] Arguments u16_le : simpl never.
#[global] Arguments u32_le : simpl never.
#[global] Arguments u64_le : simpl never.
#[global] Arguments sub : simpl never.
#[global] Arguments put : simpl never.
#[global] Arguments zeros : simpl never.
#[global] Arguments crc32 : simpl never.
#[global] Arguments crc32_masked : simpl never.

(** Filling a zeroed buffer from the front, and overwriting a field in place. *)
Lemma put_fill pre n a src :
  zlen pre = a -> zlen src <= n ->
  put (pre ++ zeros n) a src = (pre ++ src) ++ zeros (n - zlen src).
Proof.
  unfold put, zlen. intros <- Hn. rewrite Nat2Z.id, take_app_length, <- app_assoc. do 2 f_equal.
  rewrite drop_app_ge by lia. unfold zeros. rewrite drop_replicate. f_equal. lia.
Qed.

Lemma put_mid {A} (pre old post src : list A) a :
  zlen pre = a -> zlen old = zlen src -> put (pre ++ old ++ post) a src = pre ++ src ++ post.
Proof.
  unfold put, zlen. intros <- Hn. rewrite Nat2Z.id, take_app_length. do 2 f_equal.
  rewrite drop_app_ge by lia. rewrite drop_app_ge by lia.
  replace (_ - _ - _)%nat with 0%nat by lia. done.
Qed.

Lemma lookup_put_outside {A} (v : list A) a src b :
  0 <= a -> a + zlen src <= zlen v -> 0 <= b -> (b < a \/ a + zlen src <= b) ->
  put v a src !! Z.to_nat b = v !! Z.to_nat b.
Proof.
  unfold put, zlen. intros Ha Hl Hb Ho. destruct (decide (b < a)).
  - rewrite lookup_app_l by (rewrite length_take; lia). by rewrite lookup_take_lt by lia.
  - rewrite lookup_app_r by (rewrite length_take; lia). rewrite length_take.
    rewrite lookup_app_r by lia. rewrite lookup_drop. f_equal. lia.
Qed.

(** Rewrite a zeroed buffer filled field by field into the concatenation of
    its fields, and read a field of such a concatenation. *)
Ltac zside := autorewrite with zlen; ulia.
Ltac fill_fields :=
  repeat (rewrite put_fill by zside); rewrite <- ?app_assoc.
Ltac field_at :=
  repeat (rewrite sub_app_r by zside); rewrite sub_at by zside.

(** What a field of a buffer is when its decoded value is known. *)
Lemma field_u16 bs a x : Forall is_byte bs -> 0 <= a -> a + 2 <= zlen bs ->
  from_le_bytes (sub bs a 2) = x -> sub bs a 2 = u16_le x.
Proof. intros ? ? ? <-. rewrite u16_le_from; [done|by apply Forall_sub|zside]. Qed.
Lemma field_u32 bs a x : Forall is_byte bs -> 0 <= a -> a + 4 <= zlen bs ->
  from_le_bytes (sub bs a 4) = x -> sub bs a 4 = u32_le x.
Proof. intros ? ? ? <-. rewrite u32_le_from; [done|by apply Forall_sub|zside]. Qed.
Lemma field_u64 bs a x : Forall is_byte bs -> 0 <= a -> a + 8 <= zlen bs ->
  from_le_bytes (sub bs a 8) = x -> sub bs a 8 = u64_le x.
Proof. intros ? ? ? <-. rewrite u64_le_from; [done|by apply Forall_sub|zside]. Qed.
Lemma field_zeros bs a n : 0 <= a -> 0 <= n -> a + n <= zlen bs ->
  any_nonzero (sub bs a n) = false -> sub bs a n = zeros n.
Proof. intros ? ? ? H. rewrite (any_nonzero_false _ H). f_equal. zside. Qed.

Lemma sub_from_bound n bs a : Forall is_byte bs -> 0 <= a -> a + n <= zlen bs -> 0 <= n <= 8 ->
  is_u64 (from_le_bytes (sub bs a n)).
Proof.
  intros Hb Ha Hl Hn. pose proof (from_sub_bound bs a n Hb Ha ltac:(lia) Hl).
  pose proof (Z.pow_le_mono_r 256 n 8 ltac:(lia) ltac:(lia)).
  change (256 ^ 8) with (u64_max + 1) in *. unfold is_u64. lia.
Qed.

(** Reduce the reads and slices of a codec whose bounds [zside] proves. *)
Ltac read_fields :=
  unfold read_u16, read_u32, read_u64;
  repeat (rewrite read_le_Ok by zside; cbn [obind]).
Ltac copy_some := repeat (rewrite copy_range_Ok by zside; cbn [obind]; rewrite put_fill by zside).
Ltac copy_fields := copy_some; rewrite <- ?app_assoc.

(** Evaluate the next test of an executable definition: the comparisons,
    checked operations, reads and slices whose outcome [zside] decides. *)
Ltac otest_in m :=
  match m with
  | context [?a =? ?b] => first [rewrite (proj2 (Z.eqb_eq a b)) by zside
                                |rewrite (proj2 (Z.eqb_neq a b)) by zside]
  | context [?a <=? ?b] => first [rewrite (proj2 (Z.leb_le a b)) by zside
                                 |rewrite (proj2 (Z.leb_gt a b)) by zside]
  | context [?a <? ?b] => first [rewrite (proj2 (Z.ltb_lt a b)) by zside
                                |rewrite (proj2 (Z.ltb_ge a b)) by zside]
  | context [bytes_eqb ?a ?a] => rewrite (bytes_eqb_refl a)
  | context [any_nonzero (zeros ?n)] => rewrite (any_nonzero_zeros n)
  | context [checked_add ?a ?b] => rewrite (checked_add_le a b) by zside
  | context [checked_mul ?a ?b] => rewrite (checked_mul_le a b) by zside
  | context [add_u64 ?a ?b] => rewrite (add_u64_le a b) by zside
  | context [sub_u64 ?a ?b] => rewrite (sub_u64_le a b) by zside
  | context [usize_try_from ?a] => rewrite (usize_try_from_le a) by zside
  | context [u64_try_from ?a] => rewrite (u64_try_from_le a) by zside
  | context [u32_try_from ?a] => rewrite (u32_try_from_le a) by zside
  | context [u16_try_from ?a] => rewrite (u16_try_from_le a) by zside
  | context [read_le ?n ?bs ?a] => rewrite (read_le_Ok n bs a) by zside
  end.
Ltac otest :=
  match goal with
  | |- obind ?m _ = _ => otest_in m
  | |- owp (obind ?m _) _ _ => otest_in m
  | |- context [obind ?m _] => otest_in m
  end; ostep.
Ltac otests := ostep; repeat otest.

Lemma slice_no_panic {E A} (bs : list A) a b : 0 <= a <= b -> b <= zlen bs -> @slice E A bs a b <> Panic.
Proof. intros. by rewrite slice_Ok. Qed.
Lemma slice_from_no_panic {E A} (bs : list A) a : 0 <= a <= zlen bs -> @slice_from E A bs a <> Panic.
Proof. intros. by rewrite slice_from_Ok. Qed.
Lemma read_le_no_panic {E} n bs a : 0 <= a -> 0 <= n -> a + n <= zlen bs -> @read_le E n bs a <> Panic.
Proof. intros. by rewrite read_le_Ok. Qed.
Lemma copy_range_no_panic {E A} (bs : list A) a b src :
  0 <= a -> b = a + zlen src -> b <= zlen bs -> @copy_range E A bs a b src <> Panic.
Proof. intros. by rewrite copy_range_Ok. Qed.

(** Bounds facts of reads that returned. *)
Lemma slice_inv {E A} (bs : list A) a b r :
  @slice E A bs a b = Ok r -> 0 <= a <= b /\ b <= zlen bs /\ r = sub bs a (b - a) /\ zlen r = b - a.
Proof.
  unfold slice. case_match; [|done]. intros [= <-]. bool_facts. rewrite zlen_sub by lia. by repeat split.
Qed.

Lemma slice_from_inv {E A} (bs : list A) a r :
  @slice_from E A bs a = Ok r -> 0 <= a <= zlen bs /\ r = sub bs a (zlen bs - a) /\ zlen r = zlen bs - a.
Proof. intros H. unfold slice_from in H. apply slice_inv in H. tauto. Qed.

Lemma read_le_inv {E} n bs a x :
  0 <= n -> @read_le E n bs a = Ok x -> 0 <= a /\ a + n <= zlen bs /\ x = from_le_bytes (sub bs a n).
Proof.
  intros Hn H. unfold read_le in H. inv_ok. apply slice_inv in E0 as (? & ? & -> & _).
  replace (a + n - a) with n by lia. split; [lia|]. split; [lia|done].
Qed.

Lemma copy_range_inv {E A} (bs : list A) a b src r :
  @copy_range E A bs a b src = Ok r -> 0 <= a /\ b = a + zlen src /\ b <= zlen bs /\ r = put bs a src.
Proof.
  unfold copy_range. case_match; [|done]. intros [= <-]. bool_facts. split; [lia|]. by split; [lia|].
Qed.

(** Turn the reads, slices and copies that returned into equations. *)
Ltac read_facts :=
  unfold read_u16, read_u32, read_u64 in *;
  repeat match goal with
  | H : read_le _ _ _ = Ok _ |- _ => apply read_le_inv in H as (? & ? & H); [|lia]
  | H : slice _ _ _ = Ok _ |- _ => apply slice_inv in H as (? & ? & H & ?)
  | H : slice_from _ _ = Ok _ |- _ => apply slice_from_inv in H as (? & H & ?)
  | H : copy_range _ _ _ _ = Ok _ |- _ => apply copy_range_inv in H as (? & ? & ? & H)
  | H : bytes_eqb _ _ = true |- _ => apply bytes_eqb_eq in H
  end.

Lemma index_at_no_panic {E A} (l : list A) i : 0 <= i < zlen l -> @index_at E A l i <> Panic.
Proof.
  intros Hi. destruct (lookup_lt_is_Some_2 l (Z.to_nat i)) as [x Hx]; [unfold zlen in Hi; lia|].
  rewrite (index_at_Ok _ _ x); (done || lia).
Qed.
Lemma sub_u64_no_panic {E} a b : b <= a -> @sub_u64 E a b <> Panic.
Proof. intros. by rewrite sub_u64_le. Qed.
Lemma add_u64_no_panic {E} a b : a + b <= u64_max -> @add_u64 E a b <> Panic.
Proof. intros. by rewrite add_u64_le. Qed.

Ltac bounds_no_panic :=
  unfold read_u16, read_u32, read_u64;
  first [ apply slice_no_panic | apply slice_from_no_panic | apply read_le_no_panic
        | apply copy_range_no_panic | apply index_at_no_panic | apply sub_u64_no_panic
        | apply add_u64_no_panic ]; zside.

(** Keep only the lengths of what was sliced or copied. *)
Ltac length_facts :=
  repeat match goal with
  | H : slice ?bs _ _ = Ok ?r |- _ => apply slice_inv in H as (? & ? & _ & H)
  | H : slice_from ?bs _ = Ok ?r |- _ => apply slice_from_inv in H as (? & _ & H)
  | H : copy_range ?bs _ _ _ = Ok ?r |- _ =>
      apply copy_range_inv in H as (? & ? & ? & H); apply (f_equal zlen) in H;
      rewrite zlen_put in H by zside
  end.

Ltac no_panic := no_panic_with ltac:(bounds_no_panic) ltac:(length_facts).
