(* ===== verification/Block.v ===== *)
(** * Block devices: [block.rs]

    The [BlockDevice] trait as a class, the contract its users rely on as the
    class [DeviceLaws], and [FileBlockDevice], the file-backed implementation. *)

From S2P Require Import Prelude Bytes.

Definition BLOCK_SIZE : Z := 4096.
Definition BLOCK_SIZE_U64 : Z := 4096.

#[export] Hint Unfold BLOCK_SIZE BLOCK_SIZE_U64 : consts.

(** [[u8; BLOCK_SIZE]] *)
Abbreviation block := (list Z).
Definition block_ok (b : block) : Prop := zlen b = BLOCK_SIZE /\ Forall is_byte b.
#[global] Instance block_ok_dec b : Decision (block_ok b) := ltac:(unfold block_ok; apply _).

Definition zero_block : block := zeros BLOCK_SIZE.

Lemma zero_block_ok : block_ok zero_block.
Proof. split; [apply zlen_zeros; done|apply Forall_zeros]. Qed.

(** [trait BlockDevice] *)
Class BlockDevice (D : Type) : Type := {
  block_count : D -> Z;
  read_block : Z -> M D block;
  write_block : Z -> block -> M D unit;
  flush : M D unit;
}.

(** ** The device contract

    [volatile] is what reads return, [durable] what survives a crash.  A write
    changes only the volatile image, a successful flush makes it durable, and
    an operation that fails leaves the durable image alone, a read both.  A [healthy]
    device fails only on out-of-range blocks. *)
Class DeviceLaws (D : Type) `{!BlockDevice D} : Type := {
  dev_ok : D -> Prop;
  healthy : D -> Prop;
  volatile : D -> list block;
  durable : D -> list block;
  device_images d : dev_ok d ->
    zlen (volatile d) = block_count d /\ zlen (durable d) = block_count d /\
    Forall block_ok (volatile d) /\ Forall block_ok (durable d) /\ is_u64 (block_count d);
  read_block_law d b : dev_ok d -> 0 <= b ->
    wp (read_block b)
      (fun data d' => volatile d !! Z.to_nat b = Some data /\ dev_ok d' /\
         volatile d' = volatile d /\ durable d' = durable d /\ (healthy d -> healthy d'))
      (fun _ d' => dev_ok d' /\ volatile d' = volatile d /\ durable d' = durable d /\
         (healthy d -> block_count d <= b)) d;
  write_block_law d b data : dev_ok d -> 0 <= b -> block_ok data ->
    wp (write_block b data)
      (fun _ d' => b < block_count d /\ dev_ok d' /\
         volatile d' = <[Z.to_nat b := data]> (volatile d) /\ durable d' = durable d /\
         (healthy d -> healthy d'))
      (fun _ d' => dev_ok d' /\ durable d' = durable d /\ (healthy d -> block_count d <= b)) d;
  flush_law d : dev_ok d ->
    wp flush
      (fun _ d' => dev_ok d' /\ volatile d' = volatile d /\ durable d' = volatile d /\
         (healthy d -> healthy d'))
      (fun _ d' => dev_ok d' /\ durable d' = durable d /\ ~ healthy d) d;
}.

(** [at_state h d v s]: the device holds image [v] with [s] durable; with [h]
    set it is also known to be healthy. *)
Definition at_state `{DeviceLaws D} (h : bool) (d : D) (v s : list block) : Prop :=
  dev_ok d /\ volatile d = v /\ durable d = s /\ (h = true -> healthy d).

(** What is left of a device after a failed operation. *)
Definition crashed `{DeviceLaws D} (d : D) (s : list block) : Prop :=
  dev_ok d /\ durable d = s.

(** A disk image: what a device of [n] blocks can hold. *)
Definition image_ok (n : Z) (v : list block) : Prop :=
  zlen v = n /\ Forall block_ok v /\ is_u64 n.

Lemma image_ok_insert n v b data :
  image_ok n v -> block_ok data -> image_ok n (<[b := data]> v).
Proof.
  intros (Hl & Hb & Hn) Hd. repeat split; [by rewrite zlen_insert| |apply Hn..].
  by apply Forall_insert.
Qed.

Lemma image_ok_lookup n v b data : image_ok n v -> v !! b = Some data -> block_ok data.
Proof. intros (_ & Hb & _). by apply Forall_lookup_1. Qed.

Section DeviceRules.
Context `{DeviceLaws D}.
Implicit Types (d : D) (v s : list block) (h : bool).

Lemma at_state_crashed h d v s : at_state h d v s -> crashed d s.
Proof. by intros (? & _ & ? & _). Qed.

Lemma at_state_count h d v s : at_state h d v s -> block_count d = zlen v.
Proof. intros (Hok & <- & _). by destruct (device_images d Hok) as (-> & _). Qed.

Lemma at_state_image h d v s : at_state h d v s -> image_ok (zlen v) v.
Proof.
  intros (Hok & <- & _). destruct (device_images d Hok) as (Hl & _ & Hb & _ & Hn).
  by rewrite <- Hl in Hn.
Qed.

Lemma at_state_durable h d v s : at_state h d v s -> image_ok (zlen v) s.
Proof.
  intros (Hok & <- & <- & _). destruct (device_images d Hok) as (Hl & Hl' & _ & Hb & Hn).
  rewrite <- Hl in Hn, Hl'. done.
Qed.

Lemma at_state_weaken h d v s : at_state h d v s -> at_state false d v s.
Proof. intros (? & ? & ? & _). by repeat split. Qed.

Lemma wp_read h d v s b :
  at_state h d v s -> 0 <= b ->
  wp (read_block b)
    (fun data d' => v !! Z.to_nat b = Some data /\ at_state h d' v s)
    (fun _ d' => at_state false d' v s /\ (b < zlen v -> h = false)) d.
Proof.
  intros Hst Hb. pose proof (at_state_count _ _ _ _ Hst) as Hc.
  destruct Hst as (Hok & Hv & Hs & Hh).
  eapply wp_mono; [by apply read_block_law|..]; simpl.
  - intros data d' (Hl & Hok' & Hv' & Hs' & Hh'). rewrite Hv in *.
    repeat split; [done|done|done|by rewrite Hs'|naive_solver].
  - intros e d' (Hok' & Hv' & Hs' & Hh'). rewrite Hv in *. repeat split; [done|done|by rewrite Hs'|done|].
    intros Hlt. destruct h; [|done]. specialize (Hh' (Hh eq_refl)). lia.
Qed.

Lemma wp_write h d v s b data :
  at_state h d v s -> 0 <= b -> block_ok data ->
  wp (write_block b data)
    (fun _ d' => b < zlen v /\ at_state h d' (<[Z.to_nat b := data]> v) s)
    (fun _ d' => crashed d' s /\ (b < zlen v -> h = false)) d.
Proof.
  intros Hst Hb Hd. pose proof (at_state_count _ _ _ _ Hst) as Hc.
  destruct Hst as (Hok & Hv & Hs & Hh).
  eapply wp_mono; [by apply write_block_law|..]; simpl.
  - intros [] d' (Hlt & Hok' & Hv' & Hs' & Hh'). rewrite Hv in *.
    repeat split; [lia|done|done|by rewrite Hs'|naive_solver].
  - intros e d' (Hok' & Hs' & Hh'). repeat split; [done|by rewrite Hs'|].
    intros Hlt. destruct h; [|done]. specialize (Hh' (Hh eq_refl)). lia.
Qed.

Lemma wp_flush h d v s :
  at_state h d v s ->
  wp flush (fun _ d' => at_state h d' v v)
           (fun _ d' => crashed d' s /\ h = false) d.
Proof.
  intros (Hok & Hv & Hs & Hh).
  eapply wp_mono; [by apply flush_law|..]; simpl.
  - intros [] d' (Hok' & Hv' & Hs' & Hh'). rewrite Hv in *.
    repeat split; [done|done|by rewrite Hs'|naive_solver].
  - intros e d' (Hok' & Hs' & Hh'). repeat split; [done|by rewrite Hs'|].
    destruct h; naive_solver.
Qed.
End DeviceRules.

(** ** The file behind a device

    [std::fs::File] as [block.rs] uses it: its contents, the contents known to
    be on stable storage, and the cursor.  Host I/O errors other than reading
    past the end are not modelled. *)
Record File : Type := mkFile { f_data : bytes; f_synced : bytes; f_pos : Z }.

Definition metadata_len (f : File) : Z := zlen (f_data f).

(** [seek(SeekFrom::Start(offset))] *)
Definition seek_start (offset : Z) (f : File) : File := mkFile (f_data f) (f_synced f) offset.

(** [read_exact] into a buffer of [n] bytes *)
Definition read_exact (n : Z) (f : File) : outcome io_error bytes * File :=
  if f_pos f + n <=? zlen (f_data f)
  then (Ok (sub (f_data f) (f_pos f) n), mkFile (f_data f) (f_synced f) (f_pos f + n))
  else (Err (unexpected_eof "failed to fill whole buffer"),
        mkFile (f_data f) (f_synced f) (Z.max (f_pos f) (zlen (f_data f)))).

(** [write_all], which extends a file it runs past the end of *)
Definition write_all (src : bytes) (f : File) : outcome io_error unit * File :=
  let padded := f_data f ++ zeros (f_pos f + zlen src - zlen (f_data f)) in
  (Ok tt, mkFile (put padded (f_pos f) src) (f_synced f) (f_pos f + zlen src)).

Definition sync_data (f : File) : outcome io_error unit * File :=
  (Ok tt, mkFile (f_data f) (f_data f) (f_pos f)).

(** [OpenOptions::new().create(true).truncate(true)..open] then [set_len]; the
    creation itself is taken to be on stable storage *)
Definition truncated_file (len : Z) : File := mkFile (zeros len) (zeros len) 0.

Record FileBlockDevice : Type := mkFileBlockDevice { file : File; blocks : Z }.

Definition from_file (f : File) : outcome io_error FileBlockDevice :=
  let len := metadata_len f in
  if negb (len mod BLOCK_SIZE_U64 =? 0) then
    Err (invalid_data "backing file length is not block aligned")
  else Ok (mkFileBlockDevice f (len / BLOCK_SIZE_U64)).

Definition create (blocks : Z) : outcome io_error FileBlockDevice :=
  let? len := ok_or (checked_mul blocks BLOCK_SIZE_U64)
                (invalid_input "block device size overflows u64") in
  from_file (truncated_file len).

Definition block_offset (self : FileBlockDevice) (block : Z) : outcome io_error Z :=
  if blocks self <=? block then
    Err (unexpected_eof "block index is outside the device")
  else ok_or (checked_mul block BLOCK_SIZE_U64) (invalid_input "block offset overflows u64").

(** A [File] call on the device's file. *)
Definition on_file {A} (f : File -> outcome io_error A * File) : M FileBlockDevice A :=
  fun self => let '(r, file') := f (file self) in (r, mkFileBlockDevice file' (blocks self)).

Definition file_seek (offset : Z) : M FileBlockDevice unit :=
  on_file (fun f => (Ok tt, seek_start offset f)).

Definition file_read_block (block : Z) : M FileBlockDevice (list Z) :=
  let! offset := (fun self => (block_offset self block, self)) in
  do! file_seek offset in
  on_file (read_exact BLOCK_SIZE).

Definition file_write_block (block : Z) (buf : list Z) : M FileBlockDevice unit :=
  let! offset := (fun self => (block_offset self block, self)) in
  do! file_seek offset in
  on_file (write_all buf).

#[global] Instance FileBlockDevice_BlockDevice : BlockDevice FileBlockDevice := {
  block_count := blocks;
  read_block := file_read_block;
  write_block := file_write_block;
  flush := on_file sync_data;
}.

(** ** [FileBlockDevice] meets the contract *)

Definition file_ok (self : FileBlockDevice) : Prop :=
  is_u64 (blocks self) /\ blocks self * BLOCK_SIZE <= u64_max /\
  zlen (f_data (file self)) = blocks self * BLOCK_SIZE /\
  zlen (f_synced (file self)) = blocks self * BLOCK_SIZE /\
  Forall is_byte (f_data (file self)) /\ Forall is_byte (f_synced (file self)).

(** The blocks of [n * BLOCK_SIZE] bytes. *)
Definition chunks (n : Z) (bs : bytes) : list block :=
  (fun i => sub bs (i * BLOCK_SIZE) BLOCK_SIZE) <$> seqZ 0 n.

Lemma zlen_chunks n bs : 0 <= n -> zlen (chunks n bs) = n.
Proof. intros. unfold chunks. zlen_solve. Qed.

Lemma chunks_ok n bs :
  0 <= n -> zlen bs = n * BLOCK_SIZE -> Forall is_byte bs -> Forall block_ok (chunks n bs).
Proof.
  intros Hn Hl Hbs. unfold chunks. apply Forall_fmap, Forall_forall. intros i Hi.
  apply elem_of_seqZ in Hi. unfold BLOCK_SIZE in *. split; simpl.
  - apply zlen_sub; ulia.
  - by apply Forall_sub.
Qed.

Lemma chunks_lookup n bs b : 0 <= b < n ->
  chunks n bs !! Z.to_nat b = Some (sub bs (b * BLOCK_SIZE) BLOCK_SIZE).
Proof.
  intros. unfold chunks. rewrite list_lookup_fmap, lookup_seqZ_lt by ulia. simpl.
  do 2 f_equal. ulia.
Qed.

Lemma chunks_put n bs b data :
  0 <= b < n -> zlen bs = n * BLOCK_SIZE -> zlen data = BLOCK_SIZE ->
  chunks n (put bs (b * BLOCK_SIZE) data) = <[Z.to_nat b := data]> (chunks n bs).
Proof.
  intros Hb Hl Hd. unfold BLOCK_SIZE in *. apply list_eq. intros i.
  destruct (decide (Z.of_nat i < n)) as [Hi|Hi].
  - replace i with (Z.to_nat (Z.of_nat i)) by ulia. rewrite chunks_lookup by ulia.
    destruct (decide (Z.of_nat i = b)) as [<-|Hne].
    + rewrite list_lookup_insert_eq.
      * f_equal. apply sub_put_same; ulia.
      * pose proof (zlen_chunks n bs). unfold zlen in *. ulia.
    + rewrite list_lookup_insert_ne, chunks_lookup by ulia. unfold BLOCK_SIZE. f_equal.
      destruct (decide (Z.of_nat i < b)).
      * apply sub_put_before; ulia.
      * apply sub_put_after; ulia.
  - pose proof (zlen_chunks n bs). pose proof (zlen_chunks n (put bs (b * 4096) data)).
    unfold zlen in *. rewrite !lookup_ge_None_2; [done| |]; rewrite ?length_insert; ulia.
Qed.

#[global] Program Instance FileBlockDevice_laws : DeviceLaws FileBlockDevice := {
  dev_ok := file_ok;
  healthy := fun _ => True;
  volatile := fun self => chunks (blocks self) (f_data (file self));
  durable := fun self => chunks (blocks self) (f_synced (file self));
}.
Next Obligation.
  intros d (Hn & Hm & Hl & Hl' & Hb & Hb'). simpl. unfold is_u64 in *.
  rewrite !zlen_chunks by ulia. by repeat split; try apply chunks_ok; try ulia.
Qed.
Next Obligation.
  intros d b (Hn & Hm & Hl & Hl' & Hb & Hb') H0. simpl.
  assert (Hok : file_ok d) by done. unfold is_u64 in Hn.
  unfold wp, file_read_block, ibind, block_offset.
  destruct (blocks d <=? b) eqn:Hle; bool_facts; [done|].
  unfold BLOCK_SIZE, BLOCK_SIZE_U64 in *. rewrite checked_mul_le by ulia. simpl.
  unfold read_exact, file_seek, on_file. simpl.
  rewrite (proj2 (Z.leb_le _ _)) by ulia.
  split; [by apply chunks_lookup|done].
Qed.
Next Obligation.
  intros d b data (Hn & Hm & Hl & Hl' & Hb & Hb') H0 [Hd Hdb]. simpl.
  assert (Hok : file_ok d) by done. unfold is_u64 in Hn.
  unfold wp, file_write_block, ibind, block_offset.
  destruct (blocks d <=? b) eqn:Hle; bool_facts; [done|].
  assert (Hlt : b * BLOCK_SIZE + zlen data <= zlen (f_data (file d)))
    by ulia.
  unfold BLOCK_SIZE_U64. fold BLOCK_SIZE. rewrite checked_mul_le by ulia.
  unfold write_all, file_seek, on_file. simpl.
  replace (zeros (b * BLOCK_SIZE + zlen data - zlen (f_data (file d)))) with ([] : bytes)
    by (unfold zeros; replace (Z.to_nat _) with 0%nat by ulia; done).
  rewrite app_nil_r. split; [done|]. split.
  - unfold file_ok. simpl. rewrite zlen_put by ulia.
    by repeat split; try apply Forall_put; try apply Hn.
  - rewrite chunks_put by done. done.
Qed.
Next Obligation.
  intros d (Hn & Hm & Hl & Hl' & Hb & Hb'). done.
Qed.

(** ** The file-backed device as an array of blocks *)

Lemma file_read_ok (d : FileBlockDevice) b :
  file_ok d -> 0 <= b ->
  (read_block b d).1 =
    if decide (b < blocks d) then Ok (sub (f_data (file d)) (b * BLOCK_SIZE) BLOCK_SIZE)
    else Err (unexpected_eof "block index is outside the device").
Proof.
  intros (Hn & Hm & Hl & _) H0. simpl. unfold file_read_block, ibind, block_offset.
  destruct (blocks d <=? b) eqn:Hle; bool_facts; case_decide; try lia; [done|].
  unfold BLOCK_SIZE, BLOCK_SIZE_U64, is_u64 in *. rewrite checked_mul_le by ulia. simpl.
  unfold read_exact, file_seek, on_file. simpl. by rewrite (proj2 (Z.leb_le _ _)) by ulia.
Qed.

(** [FileBlockDevice] is an array of blocks: on a well-formed device a
    write to a block of the device succeeds, the written block reads back,
    every other block reads as before, nothing becomes durable until
    [flush], which makes everything durable; reads and writes outside the
    device fail with [UnexpectedEof] and change no block. *)
Theorem file_device_is_array (d : FileBlockDevice) b data :
  file_ok d -> 0 <= b -> block_ok data ->
  let run := write_block b data d in
  file_ok run.2 /\ durable run.2 = durable d /\
  (b < blocks d ->
     run.1 = Ok tt /\ (read_block b run.2).1 = Ok data /\
     (forall c, 0 <= c -> c <> b -> (read_block c run.2).1 = (read_block c d).1) /\
     let synced := flush run.2 in synced.1 = Ok tt /\ durable synced.2 = volatile run.2) /\
  (blocks d <= b ->
     run = (Err (unexpected_eof "block index is outside the device"), d) /\
     (read_block b d).1 = Err (unexpected_eof "block index is outside the device")).
Proof.
  intros Hok H0 Hd run. pose proof (write_block_law d b data Hok H0 Hd) as Hw. unfold wp in Hw. fold run in Hw.
  assert (Hbl : blocks run.2 = blocks d).
  { unfold run. simpl. unfold file_write_block, ibind, block_offset.
    destruct (blocks d <=? b); [done|]. by destruct (checked_mul b BLOCK_SIZE_U64). }
  assert (Herr : blocks d <= b -> run = (Err (unexpected_eof "block index is outside the device"), d)).
  { intros Hle. unfold run. simpl. unfold file_write_block, ibind, block_offset.
    by rewrite (proj2 (Z.leb_le _ _)) by lia. }
  destruct (decide (b < blocks d)) as [Hlt|Hge].
  - destruct run as [[[]|e|] d'] eqn:Hrun; simpl in *; [|destruct Hw as (_ & _ & Hn); specialize (Hn I); lia|done].
    destruct Hw as (_ & Hok' & Hv & Hs & _). split; [done|]. split; [done|]. split; [|lia]. intros _.
    assert (Hread : forall c, 0 <= c < blocks d ->
      Some (sub (f_data (file d')) (c * BLOCK_SIZE) BLOCK_SIZE) =
      <[Z.to_nat b:=data]> (chunks (blocks d) (f_data (file d))) !! Z.to_nat c).
    { intros c Hc. rewrite <- Hv, Hbl. by rewrite chunks_lookup by lia. }
    split; [done|]. split; [|split].
    + pose proof (file_read_ok d' b Hok' H0) as Hr. simpl in Hr. rewrite Hr, Hbl, decide_True by done.
      specialize (Hread b ltac:(lia)). rewrite list_lookup_insert_eq in Hread; [by injection Hread as ->|].
      pose proof (zlen_chunks (blocks d) (f_data (file d)) ltac:(lia)). unfold zlen in *. lia.
    + intros c Hc Hne. pose proof (file_read_ok d' c Hok' Hc) as Hr'. pose proof (file_read_ok d c Hok Hc) as Hr.
      simpl in Hr, Hr'. rewrite Hr, Hr', Hbl. case_decide; [|done].
      specialize (Hread c ltac:(lia)). rewrite list_lookup_insert_ne, chunks_lookup in Hread by lia.
      by injection Hread as ->.
    + done.
  - rewrite (Herr ltac:(lia)). simpl. split; [done|]. split; [done|]. split; [lia|]. intros _. split; [done|].
    pose proof (file_read_ok d b Hok H0) as Hr. simpl in Hr. by rewrite Hr, decide_False by lia.
Qed.

Definition sample_file : FileBlockDevice := mkFileBlockDevice (truncated_file 8192) 2.

Lemma sample_file_ok : file_ok sample_file.
Proof.
  unfold file_ok, sample_file, truncated_file. simpl. rewrite zlen_zeros by lia.
  by repeat split; try apply Forall_zeros.
Qed.

Lemma file_device_is_array_witness :
  let run := write_block 1 zero_block sample_file in
  file_ok run.2 /\ durable run.2 = durable sample_file /\
  (1 < blocks sample_file ->
     run.1 = Ok tt /\ (read_block 1 run.2).1 = Ok zero_block /\
     (forall c, 0 <= c -> c <> 1 -> (read_block c run.2).1 = (read_block c sample_file).1) /\
     let synced := flush run.2 in synced.1 = Ok tt /\ durable synced.2 = volatile run.2) /\
  (blocks sample_file <= 1 ->
     run = (Err (unexpected_eof "block index is outside the device"), sample_file) /\
     (read_block 1 sample_file).1 = Err (unexpected_eof "block index is outside the device")).
Proof. exact (file_device_is_array sample_file 1 zero_block sample_file_ok ltac:(lia) zero_block_ok). Defined.
