(* ===== verification/CrashDevice.v ===== *)
(** * The crash-testing device: [tests/support/crash_device.rs]

    Two block images, [volatile] and [durable]; every write and flush is
    numbered once the device is armed, and the one numbered [crash_at] fails
    before it takes effect.  [reboot] drops what was not flushed.  This is the
    crate's executable statement of the crash model; here it is an instance of
    the device contract, so that every theorem proved against the contract
    covers every crash point of it. *)

From S2P Require Import Prelude Bytes Block.

Record CrashDevice : Type := mkCrashDevice {
  cd_durable : list block;
  cd_volatile : list block;
  crash_at : option Z;
  operations : Z;
  armed : bool;
}.

Definition crash_new (blocks : Z) : CrashDevice :=
  let durable := replicate (Z.to_nat blocks) zero_block in
  mkCrashDevice durable durable None 0 false.

Definition arm (at_op : option Z) (self : CrashDevice) : CrashDevice :=
  mkCrashDevice (cd_durable self) (cd_volatile self) at_op 0 true.

Definition reboot (self : CrashDevice) : CrashDevice :=
  mkCrashDevice (cd_durable self) (cd_durable self) None 0 false.

(** The counter is a [usize]; a run of 2^64 operations is not considered. *)
Definition before_mutation : M CrashDevice unit := fun self =>
  if armed self && bool_decide (crash_at self = Some (operations self)) then
    (Err (other_error ("deterministic crash at mutation operation " +:+ pretty (operations self))),
     self)
  else if armed self then
    (Ok tt, mkCrashDevice (cd_durable self) (cd_volatile self) (crash_at self)
              (operations self + 1) (armed self))
  else (Ok tt, self).

Definition crash_read_block (block : Z) : M CrashDevice (list Z) := fun self =>
  (let? index := ok_or (usize_try_from block) (invalid_input "block exceeds usize") in
   ok_or (cd_volatile self !! Z.to_nat index) (unexpected_eof "invalid block"), self).

Definition crash_write_block (block : Z) (buf : list Z) : M CrashDevice unit :=
  do! before_mutation in
  let! index := ilift (ok_or (usize_try_from block) (invalid_input "block exceeds usize")) in
  fun self =>
    match cd_volatile self !! Z.to_nat index with
    | None => (Err (unexpected_eof "invalid block"), self)
    | Some _ => (Ok tt, mkCrashDevice (cd_durable self) (<[Z.to_nat index := buf]> (cd_volatile self))
                          (crash_at self) (operations self) (armed self))
    end.

Definition crash_flush : M CrashDevice unit :=
  do! before_mutation in
  fun self => (Ok tt, mkCrashDevice (cd_volatile self) (cd_volatile self) (crash_at self)
                        (operations self) (armed self)).

#[global] Instance CrashDevice_BlockDevice : BlockDevice CrashDevice := {
  block_count := fun self => zlen (cd_volatile self);
  read_block := crash_read_block;
  write_block := crash_write_block;
  flush := crash_flush;
}.

Definition crash_ok (self : CrashDevice) : Prop :=
  zlen (cd_durable self) = zlen (cd_volatile self) /\ is_u64 (zlen (cd_volatile self)) /\
  Forall block_ok (cd_volatile self) /\ Forall block_ok (cd_durable self).

(** No crash is scheduled. *)
Definition crash_healthy (self : CrashDevice) : Prop := armed self = false \/ crash_at self = None.

Lemma before_mutation_spec d :
  wp before_mutation
    (fun _ d' => cd_durable d' = cd_durable d /\ cd_volatile d' = cd_volatile d /\
       (crash_healthy d -> crash_healthy d'))
    (fun _ d' => d' = d /\ ~ crash_healthy d) d.
Proof.
  unfold wp, before_mutation, crash_healthy. destruct (armed d) eqn:Ha; simpl; [|by rewrite Ha].
  case_bool_decide as Hc; [|done]. rewrite Hc. naive_solver.
Qed.

#[global] Program Instance CrashDevice_laws : DeviceLaws CrashDevice := {
  dev_ok := crash_ok;
  healthy := crash_healthy;
  volatile := cd_volatile;
  durable := cd_durable;
}.
Next Obligation. by intros d (? & ? & ? & ?). Qed.
Next Obligation.
  intros d b Hok Hb. unfold wp. simpl. unfold crash_read_block.
  destruct (usize_try_from b) as [i|] eqn:Hi; simpl.
  - unfold usize_try_from, try_from in Hi. case_match; simplify_eq. bool_facts.
    destruct (cd_volatile d !! Z.to_nat i) eqn:Hl; simpl; [done|].
    repeat split; [apply Hok..|]. intros _. apply lookup_ge_None in Hl. unfold zlen. lia.
  - repeat split; [apply Hok..|]. intros _. destruct Hok as (_ & Hu & _).
    unfold usize_try_from, try_from in Hi. case_match; [done|]. bool_facts. ulia.
Qed.
Next Obligation.
  intros d b data Hok Hb Hd. simpl. unfold crash_write_block. apply wp_bind.
  eapply wp_mono; [apply before_mutation_spec|..]; simpl.
  2: { intros e d' [-> Hn]. done. }
  intros [] d' (Hs & Hv & Hh). apply wp_bind, wp_lift.
  destruct Hok as (Hl & Hu & Hb1 & Hb2).
  assert (Hok' : crash_ok d') by (unfold crash_ok; by rewrite Hs, Hv).
  destruct (usize_try_from b) as [i|] eqn:Hi; simpl.
  - unfold usize_try_from, try_from in Hi. case_match; simplify_eq. bool_facts.
    unfold wp. destruct (cd_volatile d' !! Z.to_nat i) eqn:Hlk; simpl; rewrite <- Hv.
    + split; [apply lookup_lt_Some in Hlk; unfold zlen; lia|]. repeat split; simpl; try done.
      * rewrite zlen_insert. apply Hok'.
      * rewrite zlen_insert. apply Hok'.
      * rewrite zlen_insert. apply Hok'.
      * apply Forall_insert; [apply Hok'|done].
      * apply Hok'.
    + repeat split; try done; try apply Hok'. intros _. apply lookup_ge_None in Hlk. unfold zlen. lia.
  - repeat split; try done; try apply Hok'. intros _.
    unfold usize_try_from, try_from in Hi. case_match; [done|]. bool_facts. ulia.
Qed.
Next Obligation.
  intros d Hok. simpl. unfold crash_flush. apply wp_bind.
  eapply wp_mono; [apply before_mutation_spec|..]; simpl.
  2: { intros e d' [-> Hn]. done. }
  intros [] d' (Hs & Hv & Hh). unfold wp. destruct Hok as (Hl & Hu & Hb1 & Hb2).
  unfold crash_ok, crash_healthy in *. simpl. by rewrite Hv.
Qed.

(** After a reboot the durable image is all there is, and nothing fails. *)
Lemma reboot_state d s : crashed d s -> at_state true (reboot d) s s.
Proof.
  intros [(Hl & Hu & Hb1 & Hb2) <-]. unfold at_state. simpl. unfold crash_ok, crash_healthy. simpl.
  rewrite Hl. auto.
Qed.

Lemma crash_new_state n :
  is_u64 n -> at_state true (crash_new n) (replicate (Z.to_nat n) zero_block)
                (replicate (Z.to_nat n) zero_block).
Proof.
  intros Hn. unfold at_state, crash_new. simpl. unfold crash_ok, crash_healthy. simpl.
  rewrite zlen_replicate. replace (Z.of_nat (Z.to_nat n)) with n by ulia.
  repeat split; auto; try apply Hn; apply Forall_replicate, zero_block_ok.
Qed.

Lemma arm_state a h d v s : at_state h d v s -> at_state false (arm a d) v s.
Proof. intros (Hok & Hv & Hs & _). by repeat split; try apply Hok. Qed.
