(* ===== verification/Superblock.v ===== *)
(** * The superblock: geometry and codec of [format.rs]

    [Superblock] with its constructors, its ranges, [encode]/[decode] and the
    sizing functions of the allocation image.  [format_device] and
    [read_superblock] are in [Format], after the regions they initialise. *)

From S2P Require Import Prelude Bytes Block.

Definition SUPERBLOCK_BLOCK : Z := 0.
(** [*b"FSLABFS\0"] *)
Definition SUPERBLOCK_MAGIC : bytes := [70; 83; 76; 65; 66; 70; 83; 0].
Definition FORMAT_VERSION : Z := 5.
Definition FORMAT_BLOCK_SIZE : Z := 4096.
Definition DEFAULT_JOURNAL_BLOCKS : Z := 4.
Definition DEFAULT_INODE_BLOCKS : Z := 2.
Definition DEFAULT_DIRECTORY_BLOCKS : Z := 2.
Definition ALLOCATION_IMAGE_HEADER_LEN : Z := 32.

Definition MAGIC_OFFSET : Z := 0.
Definition VERSION_OFFSET : Z := 8.
Definition BLOCK_SIZE_OFFSET : Z := 12.
Definition TOTAL_BLOCKS_OFFSET : Z := 16.
Definition JOURNAL_START_OFFSET : Z := 24.
Definition JOURNAL_BLOCKS_OFFSET : Z := 32.
Definition ALLOCATION_START_OFFSET : Z := 40.
Definition ALLOCATION_BLOCKS_OFFSET : Z := 48.
Definition INODE_START_OFFSET : Z := 56.
Definition INODE_BLOCKS_OFFSET : Z := 64.
Definition DIRECTORY_START_OFFSET : Z := 72.
Definition DIRECTORY_BLOCKS_OFFSET : Z := 80.
Definition HEADER_LEN : Z := 88.

Record Superblock : Type := mkSuperblock {
  total_blocks : Z;
  journal_start : Z;
  journal_blocks : Z;
  allocation_start : Z;
  allocation_blocks : Z;
  inode_start : Z;
  inode_blocks : Z;
  directory_start : Z;
  directory_blocks : Z;
}.

#[global] Instance Superblock_eq_dec : EqDecision Superblock.
Proof. solve_decision. Defined.

Definition allocation_bitmap_bytes (total_blocks : Z) : outcome io_error Z :=
  ok_or ((fun rounded => rounded / 8) <$> checked_add total_blocks 7)
    (invalid_input "allocation bitmap size overflow").

Definition required_allocation_blocks (total_blocks : Z) : outcome io_error Z :=
  let? bytes := allocation_bitmap_bytes total_blocks in
  let? image_bytes := ok_or (checked_add ALLOCATION_IMAGE_HEADER_LEN bytes)
                        (invalid_input "allocation image size overflow") in
  ok_or ((fun rounded => rounded / BLOCK_SIZE_U64) <$> checked_add image_bytes (BLOCK_SIZE_U64 - 1))
    (invalid_input "allocation image size overflow").

Definition with_all_metadata_blocks
    (total_blocks journal_blocks inode_blocks directory_blocks : Z) : outcome io_error Superblock :=
  try? ensure (negb (journal_blocks =? 0))
         (invalid_input "filesystem journal must reserve at least one block") in
  try? ensure (negb (inode_blocks =? 0))
         (invalid_input "filesystem inode table must reserve at least one block") in
  try? ensure (negb (directory_blocks =? 0))
         (invalid_input "filesystem directory table must reserve at least one block") in
  let journal_start := SUPERBLOCK_BLOCK + 1 in
  let? allocation_start := ok_or (checked_add journal_start journal_blocks)
                             (invalid_input "journal block range overflow") in
  let? allocation_blocks := required_allocation_blocks total_blocks in
  let? inode_start := ok_or (checked_add allocation_start allocation_blocks)
                        (invalid_input "allocation metadata block range overflow") in
  let? directory_start := ok_or (checked_add inode_start inode_blocks)
                            (invalid_input "inode table block range overflow") in
  let? metadata_end := ok_or (checked_add directory_start directory_blocks)
                         (invalid_input "directory table block range overflow") in
  if total_blocks <? metadata_end then
    Err (invalid_input "filesystem device is too small for durable metadata reservations")
  else
    Ok (mkSuperblock total_blocks journal_start journal_blocks allocation_start allocation_blocks
          inode_start inode_blocks directory_start directory_blocks).

Definition superblock_new (total_blocks : Z) : outcome io_error Superblock :=
  with_all_metadata_blocks total_blocks DEFAULT_JOURNAL_BLOCKS DEFAULT_INODE_BLOCKS
    DEFAULT_DIRECTORY_BLOCKS.

Definition with_journal_blocks (total_blocks journal_blocks : Z) : outcome io_error Superblock :=
  with_all_metadata_blocks total_blocks journal_blocks DEFAULT_INODE_BLOCKS
    DEFAULT_DIRECTORY_BLOCKS.

Definition with_metadata_blocks (total_blocks journal_blocks inode_blocks : Z)
    : outcome io_error Superblock :=
  with_all_metadata_blocks total_blocks journal_blocks inode_blocks DEFAULT_DIRECTORY_BLOCKS.

(** A [Range<u64>] as its two ends. *)
Definition range_from {E} (start len : Z) : outcome E (Z * Z) :=
  let? stop := add_u64 start len in Ok (start, stop).
Definition journal_range {E} (self : Superblock) : outcome E (Z * Z) :=
  range_from (journal_start self) (journal_blocks self).
Definition allocation_range {E} (self : Superblock) : outcome E (Z * Z) :=
  range_from (allocation_start self) (allocation_blocks self).
Definition inode_range {E} (self : Superblock) : outcome E (Z * Z) :=
  range_from (inode_start self) (inode_blocks self).
Definition directory_range {E} (self : Superblock) : outcome E (Z * Z) :=
  range_from (directory_start self) (directory_blocks self).
Definition reserved_blocks {E} (self : Superblock) : outcome E Z :=
  add_u64 (directory_start self) (directory_blocks self).

(** The offsets are constants inside the array, so the copies cannot panic. *)
Definition encode (self : Superblock) : block :=
  let block := zeros BLOCK_SIZE in
  let block := put block MAGIC_OFFSET SUPERBLOCK_MAGIC in
  let block := put block VERSION_OFFSET (u32_le FORMAT_VERSION) in
  let block := put block BLOCK_SIZE_OFFSET (u32_le FORMAT_BLOCK_SIZE) in
  let block := put block TOTAL_BLOCKS_OFFSET (u64_le (total_blocks self)) in
  let block := put block JOURNAL_START_OFFSET (u64_le (journal_start self)) in
  let block := put block JOURNAL_BLOCKS_OFFSET (u64_le (journal_blocks self)) in
  let block := put block ALLOCATION_START_OFFSET (u64_le (allocation_start self)) in
  let block := put block ALLOCATION_BLOCKS_OFFSET (u64_le (allocation_blocks self)) in
  let block := put block INODE_START_OFFSET (u64_le (inode_start self)) in
  let block := put block INODE_BLOCKS_OFFSET (u64_le (inode_blocks self)) in
  let block := put block DIRECTORY_START_OFFSET (u64_le (directory_start self)) in
  put block DIRECTORY_BLOCKS_OFFSET (u64_le (directory_blocks self)).

Definition read_u32_le (block : block) (offset : Z) : Z := from_le_bytes (sub block offset 4).
Definition read_u64_le (block : block) (offset : Z) : Z := from_le_bytes (sub block offset 8).

Definition decode (block : block) : outcome io_error Superblock :=
  try? ensure (bytes_eqb (sub block MAGIC_OFFSET (zlen SUPERBLOCK_MAGIC)) SUPERBLOCK_MAGIC)
         (invalid_data "invalid superblock magic") in
  let version := read_u32_le block VERSION_OFFSET in
  try? ensure (version =? FORMAT_VERSION)
         (invalid_data ("unsupported filesystem format version " +:+ pretty version)) in
  let block_size := read_u32_le block BLOCK_SIZE_OFFSET in
  try? ensure ((block_size =? FORMAT_BLOCK_SIZE) && (block_size =? BLOCK_SIZE_U64))
         (invalid_data "unsupported logical block size") in
  let total_blocks := read_u64_le block TOTAL_BLOCKS_OFFSET in
  let journal_start := read_u64_le block JOURNAL_START_OFFSET in
  let journal_blocks := read_u64_le block JOURNAL_BLOCKS_OFFSET in
  let allocation_start := read_u64_le block ALLOCATION_START_OFFSET in
  let allocation_blocks := read_u64_le block ALLOCATION_BLOCKS_OFFSET in
  let inode_start := read_u64_le block INODE_START_OFFSET in
  let inode_blocks := read_u64_le block INODE_BLOCKS_OFFSET in
  let directory_start := read_u64_le block DIRECTORY_START_OFFSET in
  let directory_blocks := read_u64_le block DIRECTORY_BLOCKS_OFFSET in
  try? ensure ((journal_start =? SUPERBLOCK_BLOCK + 1) && negb (journal_blocks =? 0))
         (invalid_data "invalid journal reservation") in
  try? ensure (negb (inode_blocks =? 0)) (invalid_data "invalid inode table reservation") in
  try? ensure (negb (directory_blocks =? 0)) (invalid_data "invalid directory table reservation") in
  let? expected_allocation_start := ok_or (checked_add journal_start journal_blocks)
                                      (invalid_data "journal block range overflow") in
  try? ensure (allocation_start =? expected_allocation_start)
         (invalid_data "allocation metadata does not immediately follow journal") in
  let? expected_allocation_blocks :=
    map_err (fun error => invalid_data (err_message error))
      (required_allocation_blocks total_blocks) in
  try? ensure (allocation_blocks =? expected_allocation_blocks)
         (invalid_data "allocation metadata reservation has invalid length") in
  let? expected_inode_start := ok_or (checked_add allocation_start allocation_blocks)
                                 (invalid_data "allocation metadata block range overflow") in
  try? ensure (inode_start =? expected_inode_start)
         (invalid_data "inode table does not immediately follow allocation metadata") in
  let? expected_directory_start := ok_or (checked_add inode_start inode_blocks)
                                     (invalid_data "inode table block range overflow") in
  try? ensure (directory_start =? expected_directory_start)
         (invalid_data "directory table does not immediately follow inode table") in
  let? metadata_end := ok_or (checked_add directory_start directory_blocks)
                         (invalid_data "directory table block range overflow") in
  try? ensure (metadata_end <=? total_blocks)
         (invalid_data "durable metadata reservation exceeds filesystem size") in
  try? ensure (negb (any_nonzero (drop (Z.to_nat HEADER_LEN) block)))
         (invalid_data "superblock reserved bytes are non-zero") in
  Ok (mkSuperblock total_blocks journal_start journal_blocks allocation_start allocation_blocks
        inode_start inode_blocks directory_start directory_blocks).

(** ** Well-formed geometry *)

(** The metadata prefix: superblock, journal, allocation, inodes, directory,
    each region directly after the one before, all inside the device. *)
Record sb_wf (sb : Superblock) : Prop := {
  wf_total : is_u64 (total_blocks sb);
  wf_journal_start : journal_start sb = 1;
  wf_journal : 1 <= journal_blocks sb;
  wf_allocation_start : allocation_start sb = journal_start sb + journal_blocks sb;
  wf_allocation : required_allocation_blocks (total_blocks sb) = Ok (allocation_blocks sb);
  wf_inode_start : inode_start sb = allocation_start sb + allocation_blocks sb;
  wf_inode : 1 <= inode_blocks sb;
  wf_directory_start : directory_start sb = inode_start sb + inode_blocks sb;
  wf_directory : 1 <= directory_blocks sb;
  wf_end : directory_start sb + directory_blocks sb <= total_blocks sb;
}.

Lemma allocation_bitmap_bytes_Ok n k :
  allocation_bitmap_bytes n = Ok k -> n + 7 <= u64_max /\ k = (n + 7) / 8.
Proof.
  unfold allocation_bitmap_bytes, checked_add. case_match; simpl; intros; simplify_eq.
  bool_facts. done.
Qed.

Lemma required_allocation_blocks_Ok n k :
  required_allocation_blocks n = Ok k ->
  n + 7 <= u64_max /\ k = (32 + (n + 7) / 8 + 4095) / 4096.
Proof.
  unfold required_allocation_blocks. intros H. inv_ok.
  apply allocation_bitmap_bytes_Ok in E as [? ->]. apply checked_add_Some in E0 as [-> ?].
  unfold checked_add, BLOCK_SIZE_U64, ALLOCATION_IMAGE_HEADER_LEN in H.
  case_match; simplify_eq/=. split; [done|f_equal; lia].
Qed.

(** The bounds [lia] needs about a well-formed geometry. *)
Lemma sb_wf_bounds sb : sb_wf sb ->
  1 = journal_start sb /\ 1 <= journal_blocks sb /\
  allocation_start sb = 1 + journal_blocks sb /\ 1 <= allocation_blocks sb /\
  inode_start sb = allocation_start sb + allocation_blocks sb /\ 1 <= inode_blocks sb /\
  directory_start sb = inode_start sb + inode_blocks sb /\ 1 <= directory_blocks sb /\
  directory_start sb + directory_blocks sb <= total_blocks sb <= u64_max /\
  total_blocks sb + 7 <= u64_max /\
  32 + (total_blocks sb + 7) / 8 <= allocation_blocks sb * 4096.
Proof.
  intros []. pose proof (required_allocation_blocks_Ok _ _ wf_allocation0) as [? Hk].
  assert (0 <= (total_blocks sb + 7) / 8) by (apply Z.div_pos; ulia).
  assert (1 <= allocation_blocks sb).
  { rewrite Hk. apply Z.div_le_lower_bound; lia. }
  assert (32 + (total_blocks sb + 7) / 8 <= allocation_blocks sb * 4096).
  { rewrite Hk. pose proof (Z.div_mod (32 + (total_blocks sb + 7) / 8 + 4095) 4096).
    pose proof (Z.mod_pos_bound (32 + (total_blocks sb + 7) / 8 + 4095) 4096). lia. }
  unfold is_u64 in *. lia.
Qed.

Definition reserved (sb : Superblock) : Z := directory_start sb + directory_blocks sb.

Section Ranges.
Context {E : Type} (sb : Superblock) (Hwf : sb_wf sb).
Ltac solve_range :=
  pose proof (sb_wf_bounds _ Hwf);
  unfold journal_range, allocation_range, inode_range, directory_range, reserved_blocks, range_from,
    reserved; rewrite add_u64_le by lia; done.
Lemma journal_range_wf : @journal_range E sb = Ok (journal_start sb, journal_start sb + journal_blocks sb).
Proof. solve_range. Qed.
Lemma allocation_range_wf :
  @allocation_range E sb = Ok (allocation_start sb, allocation_start sb + allocation_blocks sb).
Proof. solve_range. Qed.
Lemma inode_range_wf : @inode_range E sb = Ok (inode_start sb, inode_start sb + inode_blocks sb).
Proof. solve_range. Qed.
Lemma directory_range_wf :
  @directory_range E sb = Ok (directory_start sb, directory_start sb + directory_blocks sb).
Proof. solve_range. Qed.
Lemma reserved_blocks_wf : @reserved_blocks E sb = Ok (reserved sb).
Proof. solve_range. Qed.
End Ranges.

(** ** The constructors build well-formed geometry *)

Lemma with_all_metadata_blocks_wf n j i dd sb :
  is_u64 n -> 0 <= j -> 0 <= i -> 0 <= dd ->
  with_all_metadata_blocks n j i dd = Ok sb ->
  sb_wf sb /\ total_blocks sb = n /\ journal_blocks sb = j /\ inode_blocks sb = i /\
  directory_blocks sb = dd.
Proof.
  intros Hn Hj Hi Hd H. unfold with_all_metadata_blocks in H. inv_ok. bool_facts.
  repeat match goal with H : checked_add _ _ = Some _ |- _ =>
    apply checked_add_Some in H as [-> ?] end.
  case_match; simplify_eq. bool_facts. unfold SUPERBLOCK_BLOCK in *.
  split; [|done]. constructor; simpl; try done; try lia.
Qed.

(** ** The codec *)

#[local] Hint Unfold MAGIC_OFFSET VERSION_OFFSET BLOCK_SIZE_OFFSET TOTAL_BLOCKS_OFFSET
  JOURNAL_START_OFFSET JOURNAL_BLOCKS_OFFSET ALLOCATION_START_OFFSET ALLOCATION_BLOCKS_OFFSET
  INODE_START_OFFSET INODE_BLOCKS_OFFSET DIRECTORY_START_OFFSET DIRECTORY_BLOCKS_OFFSET
  HEADER_LEN : consts.

Lemma required_allocation_blocks_no_panic n : required_allocation_blocks n <> Panic.
Proof. unfold required_allocation_blocks, allocation_bitmap_bytes. no_panic. Qed.
#[export] Hint Resolve required_allocation_blocks_no_panic : no_panic.

Lemma with_all_metadata_blocks_no_panic n j i dd : with_all_metadata_blocks n j i dd <> Panic.
Proof. unfold with_all_metadata_blocks. no_panic. Qed.

Lemma decode_no_panic b : decode b <> Panic.
Proof. unfold decode. no_panic. Qed.

Lemma zlen_magic : zlen SUPERBLOCK_MAGIC = 8.
Proof. done. Qed.
#[local] Hint Rewrite zlen_magic : zlen.

(** The encoded block, field by field. *)
Lemma encode_fields sb :
  encode sb =
    SUPERBLOCK_MAGIC ++ u32_le FORMAT_VERSION ++ u32_le FORMAT_BLOCK_SIZE ++
    u64_le (total_blocks sb) ++ u64_le (journal_start sb) ++ u64_le (journal_blocks sb) ++
    u64_le (allocation_start sb) ++ u64_le (allocation_blocks sb) ++ u64_le (inode_start sb) ++
    u64_le (inode_blocks sb) ++ u64_le (directory_start sb) ++ u64_le (directory_blocks sb) ++
    zeros (BLOCK_SIZE - HEADER_LEN).
Proof.
  unfold encode. change (zeros BLOCK_SIZE) with ([] ++ zeros BLOCK_SIZE). fill_fields.
  by rewrite app_nil_l.
Qed.

Lemma encode_ok sb : block_ok (encode sb).
Proof.
  rewrite encode_fields. split; [by zside|].
  assert (Forall is_byte SUPERBLOCK_MAGIC) by (repeat constructor; done).
  auto 20 with bytes.
Qed.

(** Every field is read back. *)
Lemma encode_reads sb : sb_wf sb ->
  sub (encode sb) MAGIC_OFFSET 8 = SUPERBLOCK_MAGIC /\
  read_u32_le (encode sb) VERSION_OFFSET = FORMAT_VERSION /\
  read_u32_le (encode sb) BLOCK_SIZE_OFFSET = FORMAT_BLOCK_SIZE /\
  read_u64_le (encode sb) TOTAL_BLOCKS_OFFSET = total_blocks sb /\
  read_u64_le (encode sb) JOURNAL_START_OFFSET = journal_start sb /\
  read_u64_le (encode sb) JOURNAL_BLOCKS_OFFSET = journal_blocks sb /\
  read_u64_le (encode sb) ALLOCATION_START_OFFSET = allocation_start sb /\
  read_u64_le (encode sb) ALLOCATION_BLOCKS_OFFSET = allocation_blocks sb /\
  read_u64_le (encode sb) INODE_START_OFFSET = inode_start sb /\
  read_u64_le (encode sb) INODE_BLOCKS_OFFSET = inode_blocks sb /\
  read_u64_le (encode sb) DIRECTORY_START_OFFSET = directory_start sb /\
  read_u64_le (encode sb) DIRECTORY_BLOCKS_OFFSET = directory_blocks sb /\
  drop (Z.to_nat HEADER_LEN) (encode sb) = zeros (BLOCK_SIZE - HEADER_LEN).
Proof.
  intros Hwf. pose proof (sb_wf_bounds sb Hwf) as Hb.
  rewrite encode_fields. unfold read_u32_le, read_u64_le.
  split; [by field_at|].
  do 2 (split; [field_at; by rewrite from_u32_le|]).
  do 9 (split; [field_at; apply from_u64_le; ulia|]).
  rewrite !app_assoc, drop_app_length'; [done|].
  apply Nat2Z.inj. change (Z.of_nat (length ?l)) with (zlen l). zside.
Qed.

Lemma decode_encode sb : sb_wf sb -> decode (encode sb) = Ok sb.
Proof.
  intros Hwf. pose proof (sb_wf_bounds sb Hwf) as Hb.
  destruct (encode_reads sb Hwf) as (E1&E2&E3&E4&E5&E6&E7&E8&E9&E10&E11&E12&E13).
  unfold decode. rewrite zlen_magic, E1, E2, E3, E4, E5, E6, E7, E8, E9, E10, E11, E12, E13.
  rewrite (wf_allocation sb Hwf), any_nonzero_zeros. unfold SUPERBLOCK_BLOCK.
  rewrite !checked_add_le by lia. rewrite bytes_eqb_refl. simpl.
  rewrite (proj2 (Z.eqb_eq (journal_start sb) _)) by lia.
  rewrite (proj2 (Z.eqb_neq (journal_blocks sb) _)), (proj2 (Z.eqb_neq (inode_blocks sb) _)),
    (proj2 (Z.eqb_neq (directory_blocks sb) _)) by lia. simpl.
  rewrite (proj2 (Z.eqb_eq (allocation_start sb) _)) by lia. rewrite Z.eqb_refl.
  rewrite (proj2 (Z.eqb_eq (inode_start sb) _)) by lia.
  rewrite (proj2 (Z.eqb_eq (directory_start sb) _)) by lia.
  rewrite (proj2 (Z.leb_le _ (total_blocks sb))) by lia.
  by destruct sb.
Qed.

(** A block that decodes is the canonical encoding of what it decodes to. *)
Lemma encode_decode b sb : block_ok b -> decode b = Ok sb -> sb_wf sb /\ encode sb = b.
Proof.
  intros [Hl Hb] H. unfold BLOCK_SIZE in Hl.
  assert (Hu : forall off, 0 <= off -> off + 8 <= 4096 -> is_u64 (read_u64_le b off)).
  { intros off ? ?. unfold read_u64_le. pose proof (from_sub_bound b off 8 Hb).
    change (256 ^ 8) with (u64_max + 1) in *. unfold is_u64. lia. }
  unfold decode in H. inv_ok.
  repeat match goal with H : checked_add _ _ = Some _ |- _ => apply checked_add_Some in H as [-> ?] end.
  bool_facts. unfold SUPERBLOCK_BLOCK in *. rewrite zlen_magic in *. split.
  - pose proof (Hu TOTAL_BLOCKS_OFFSET ltac:(done) ltac:(done)).
    pose proof (Hu JOURNAL_BLOCKS_OFFSET ltac:(done) ltac:(done)).
    pose proof (Hu INODE_BLOCKS_OFFSET ltac:(done) ltac:(done)).
    pose proof (Hu DIRECTORY_BLOCKS_OFFSET ltac:(done) ltac:(done)).
    constructor; simpl; try done; try ulia.
    by match goal with H : _ = ?x |- _ = Ok ?x => rewrite H | H : read_u64_le b ALLOCATION_BLOCKS_OFFSET = _ |- _ => rewrite H end.
  - rewrite encode_fields.
    cbn [total_blocks journal_start journal_blocks allocation_start allocation_blocks inode_start
         inode_blocks directory_start directory_blocks]. unfold read_u64_le.
    assert (Hr : forall off, 0 <= off -> off + 8 <= 4096 ->
                   u64_le (from_le_bytes (sub b off 8)) = sub b off 8).
    { intros. apply u64_le_from; [by apply Forall_sub|zside]. }
    rewrite !Hr by done. autounfold with consts in *.
    assert (Hm : sub b 0 8 = SUPERBLOCK_MAGIC) by by apply bytes_eqb_eq.
    assert (Hv : sub b 8 4 = u32_le 5).
    { rewrite <- (u32_le_from (sub b 8 4)); [|by apply Forall_sub|zside]. by f_equal. }
    assert (Hs : sub b 12 4 = u32_le 4096).
    { rewrite <- (u32_le_from (sub b 12 4)); [|by apply Forall_sub|zside]. by f_equal. }
    assert (Hz : sub b 88 4008 = zeros 4008).
    { unfold sub. rewrite take_ge by (rewrite length_drop; unfold zlen in Hl; lia).
      rewrite (any_nonzero_false (drop _ b)) by done. f_equal. zside. }
    unfold FORMAT_VERSION, FORMAT_BLOCK_SIZE. rewrite <- Hm, <- Hv, <- Hs.
    change (4096 - 88) with 4008. rewrite <- Hz.
    rewrite <- !sub_split by lia. by apply sub_all.
Qed.

(** A well-formed geometry whose byte size is a [u64], as every geometry of a
    file-backed device is. *)
Record geometry (sb : Superblock) : Prop := {
  geo_wf : sb_wf sb;
  geo_bytes : total_blocks sb * BLOCK_SIZE <= u64_max;
}.

Lemma geometry_bounds sb : geometry sb ->
  1 = journal_start sb /\ 1 <= journal_blocks sb /\
  allocation_start sb = 1 + journal_blocks sb /\ 1 <= allocation_blocks sb /\
  inode_start sb = allocation_start sb + allocation_blocks sb /\ 1 <= inode_blocks sb /\
  directory_start sb = inode_start sb + inode_blocks sb /\ 1 <= directory_blocks sb /\
  directory_start sb + directory_blocks sb <= total_blocks sb /\
  total_blocks sb * 4096 <= u64_max /\
  32 + (total_blocks sb + 7) / 8 <= allocation_blocks sb * 4096.
Proof. intros [Hwf Hb]. pose proof (sb_wf_bounds _ Hwf). unfold BLOCK_SIZE in *. lia. Qed.

Lemma superblock_geometry sb n j i dd :
  0 <= n -> n * BLOCK_SIZE <= u64_max -> 0 <= j -> 0 <= i -> 0 <= dd ->
  with_all_metadata_blocks n j i dd = Ok sb -> geometry sb /\ total_blocks sb = n.
Proof.
  intros Hpos Hn Hj Hi Hd Hsb.
  apply with_all_metadata_blocks_wf in Hsb as (Hwf & Ht & _); [|unfold is_u64, BLOCK_SIZE in *; lia|done..].
  split; [|done]. constructor; [done|]. by rewrite Ht.
Qed.

(** ** The claims *)

(** The superblock codec is exact: a block decodes to a superblock exactly
    when the superblock describes a well-formed layout and the block is its
    encoding, so decoding accepts no other block; decoding never panics. *)
Theorem superblock_codec_exact b sb :
  block_ok b -> decode b <> Panic /\ (decode b = Ok sb <-> sb_wf sb /\ b = encode sb).
Proof.
  intros Hb. split; [apply decode_no_panic|]. split.
  - intros H. by apply encode_decode in H as [? <-].
  - intros [Hwf ->]. by apply decode_encode.
Qed.

Lemma superblock_codec_exact_witness :
  let sb := mkSuperblock 12 1 4 5 1 6 2 8 2 in
  decode (encode sb) <> Panic /\ (decode (encode sb) = Ok sb <-> sb_wf sb /\ encode sb = encode sb).
Proof. exact (superblock_codec_exact (encode (mkSuperblock 12 1 4 5 1 6 2 8 2)) _ (encode_ok _)). Defined.

Lemma required_allocation_blocks_small n :
  0 <= n -> n <= 2 ^ 62 -> required_allocation_blocks n = Ok ((32 + (n + 7) / 8 + 4095) / 4096).
Proof.
  intros H0 Hn. unfold required_allocation_blocks, allocation_bitmap_bytes, ALLOCATION_IMAGE_HEADER_LEN.
  assert ((n + 7) / 8 <= 2 ^ 62) by (apply Z.div_le_upper_bound; lia).
  assert (0 <= (n + 7) / 8) by (apply Z.div_pos; lia).
  rewrite checked_add_le by ulia. simpl. rewrite checked_add_le by ulia. simpl.
  by rewrite checked_add_le by ulia.
Qed.

(** [Superblock::with_all_metadata_blocks] on every input: it succeeds
    exactly when each reservation is non-empty and the five regions fit the
    device, and then the layout is well formed, covers the whole device and
    has the requested sizes; otherwise it returns an error.  Overflowing
    sizes are rejected, and it never panics. *)
Theorem superblock_layout_total n j i dd :
  0 <= n <= 2 ^ 62 -> is_u64 j -> is_u64 i -> is_u64 dd ->
  let fits := 1 <= j /\ 1 <= i /\ 1 <= dd /\
    1 + j + (32 + (n + 7) / 8 + 4095) / 4096 + i + dd <= n in
  match with_all_metadata_blocks n j i dd with
  | Ok sb => fits /\ sb_wf sb /\ total_blocks sb = n /\ journal_blocks sb = j /\
      inode_blocks sb = i /\ directory_blocks sb = dd
  | Err _ => ~ fits
  | Panic => False
  end.
Proof.
  intros Hn Hj Hi Hd fits. destruct (with_all_metadata_blocks n j i dd) as [sb|e|] eqn:Hsb.
  - pose proof Hsb as Hwf. apply with_all_metadata_blocks_wf in Hwf as (Hwf & <- & <- & <- & <-); [|ulia..].
    split; [|done]. destruct Hwf. rewrite required_allocation_blocks_small in wf_allocation0 by lia.
    injection wf_allocation0 as Ha. unfold fits. lia.
  - intros (H1 & H2 & H3 & H4). revert Hsb. unfold with_all_metadata_blocks, SUPERBLOCK_BLOCK.
    rewrite required_allocation_blocks_small by lia.
    set (ab := (32 + (n + 7) / 8 + 4095) / 4096) in *.
    assert (0 <= ab) by (apply Z.div_pos; [assert (0 <= (n + 7) / 8) by (apply Z.div_pos; lia); lia|lia]).
    rewrite !(proj2 (Z.eqb_neq _ _)) by lia. ostep. unfold is_u64 in *.
    repeat (rewrite checked_add_le by ulia; ostep). rewrite (proj2 (Z.ltb_ge _ _)) by lia. done.
  - by eapply with_all_metadata_blocks_no_panic.
Qed.

Lemma superblock_layout_total_witness :
  let fits := 1 <= 4 /\ 1 <= 2 /\ 1 <= 2 /\
    1 + 4 + (32 + (12 + 7) / 8 + 4095) / 4096 + 2 + 2 <= 12 in
  match with_all_metadata_blocks 12 4 2 2 with
  | Ok sb => fits /\ sb_wf sb /\ total_blocks sb = 12 /\ journal_blocks sb = 4 /\
      inode_blocks sb = 2 /\ directory_blocks sb = 2
  | Err _ => ~ fits
  | Panic => False
  end.
Proof.
  exact (superblock_layout_total 12 4 2 2 ltac:(lia) ltac:(ulia) ltac:(ulia) ltac:(ulia)).
Defined.

(** A twelve-block file system with the default reservations. *)
Definition sample_sb : Superblock := mkSuperblock 12 1 4 5 1 6 2 8 2.

Lemma sample_new : superblock_new 12 = Ok sample_sb.
Proof. reflexivity. Qed.

Lemma sample_geometry : geometry sample_sb.
Proof. eapply superblock_geometry; [| | | | |exact sample_new]; done. Qed.

