(* ===== verification/Allocation.v ===== *)
(** * The block allocator: [allocation.rs]

    [BlockAllocator], a first-fit bitmap allocator over the blocks after the
    reserved metadata prefix, refined to its abstract meaning: the set of data
    blocks that are owned. *)

From S2P Require Import Prelude Bytes.

Inductive AllocationError : Type :=
| InvalidLayout (total_blocks reserved_blocks : Z)
| AddressSpaceTooLarge (total_blocks : Z)
| OutOfRange (block total_blocks : Z)
| ReservedBlock (block : Z)
| AlreadyFree (block : Z)
| Exhausted.

#[global] Instance AllocationError_eq_dec : EqDecision AllocationError.
Proof. solve_decision. Defined.

(** [impl Display for AllocationError] *)
Definition allocation_error_fmt (self : AllocationError) : string :=
  match self with
  | InvalidLayout total_blocks reserved_blocks =>
      "invalid allocation layout: " +:+ pretty reserved_blocks +:+ " reserved blocks exceed "
        +:+ pretty total_blocks +:+ " total blocks"
  | AddressSpaceTooLarge total_blocks =>
      "allocation bitmap cannot represent " +:+ pretty total_blocks +:+ " blocks on this platform"
  | OutOfRange block total_blocks =>
      "block " +:+ pretty block +:+ " is outside allocator range 0.." +:+ pretty total_blocks
  | ReservedBlock block => "block " +:+ pretty block +:+ " is reserved metadata"
  | AlreadyFree block => "block " +:+ pretty block +:+ " is already free"
  | Exhausted => "no free data blocks remain"
  end.

Inductive AllocationInvariantError : Type :=
| AllocatedCountMismatch (recorded observed : Z)
| AccountingOverflow
| AccountingMismatch (total_blocks reserved_blocks allocated_blocks free_blocks : Z).

(** [impl Display for AllocationInvariantError] *)
Definition allocation_invariant_error_fmt (self : AllocationInvariantError) : string :=
  match self with
  | AllocatedCountMismatch recorded observed =>
      "allocated-block count mismatch: recorded " +:+ pretty recorded +:+ ", observed "
        +:+ pretty observed
  | AccountingOverflow => "allocation accounting overflow"
  | AccountingMismatch total_blocks reserved_blocks allocated_blocks free_blocks =>
      "allocation accounting mismatch: total=" +:+ pretty total_blocks +:+ ", reserved="
        +:+ pretty reserved_blocks +:+ ", allocated=" +:+ pretty allocated_blocks +:+ ", free="
        +:+ pretty free_blocks
  end.

Record BlockAllocator : Type := mkBlockAllocator {
  total_blocks : Z;
  reserved_blocks : Z;
  allocated : list bool;
  allocated_blocks : Z;
}.

#[global] Instance BlockAllocator_eq_dec : EqDecision BlockAllocator.
Proof. solve_decision. Defined.

Definition allocator_new (total_blocks reserved_blocks : Z)
    : outcome AllocationError BlockAllocator :=
  if total_blocks <? reserved_blocks then Err (InvalidLayout total_blocks reserved_blocks)
  else
    let? length := ok_or (usize_try_from total_blocks) (AddressSpaceTooLarge total_blocks) in
    try? with_capacity 1 length in
    Ok (mkBlockAllocator total_blocks reserved_blocks (replicate (Z.to_nat length) false) 0).

Definition free_blocks {E} (self : BlockAllocator) : outcome E Z :=
  let? data := sub_u64 (total_blocks self) (reserved_blocks self) in
  sub_u64 data (allocated_blocks self).

Definition allocate : ST AllocationError BlockAllocator Z :=
  let! self := iget id in
  let! start := ilift (ok_or (usize_try_from (reserved_blocks self))
                         (AddressSpaceTooLarge (total_blocks self))) in
  let! tail := ilift (slice_from (allocated self) start) in
  match position negb tail with
  | None => ifail Exhausted
  | Some index =>
      let! absolute_index := ilift (add_u64 start index) in
      let! bitmap := ilift (set_at (allocated self) absolute_index true) in
      let! count := ilift (add_u64 (allocated_blocks self) 1) in
      do! iset (fun _ => mkBlockAllocator (total_blocks self) (reserved_blocks self) bitmap count) in
      ilift (ok_or (u64_try_from absolute_index) (AddressSpaceTooLarge (total_blocks self)))
  end.

Definition ensure_in_range (self : BlockAllocator) (block : Z) : outcome AllocationError unit :=
  if total_blocks self <=? block then Err (OutOfRange block (total_blocks self)) else Ok tt.

Definition data_index (self : BlockAllocator) (block : Z) : outcome AllocationError Z :=
  try? ensure_in_range self block in
  if block <? reserved_blocks self then Err (ReservedBlock block)
  else ok_or (usize_try_from block) (AddressSpaceTooLarge (total_blocks self)).

Definition free (block : Z) : ST AllocationError BlockAllocator unit :=
  let! self := iget id in
  let! index := ilift (data_index self block) in
  let! bit := ilift (index_at (allocated self) index) in
  if negb bit then ifail (AlreadyFree block)
  else
    let! bitmap := ilift (set_at (allocated self) index false) in
    let! count := ilift (sub_u64 (allocated_blocks self) 1) in
    iset (fun _ => mkBlockAllocator (total_blocks self) (reserved_blocks self) bitmap count).

Definition is_owned (self : BlockAllocator) (block : Z) : outcome AllocationError bool :=
  try? ensure_in_range self block in
  if block <? reserved_blocks self then Ok true
  else
    let? index := ok_or (usize_try_from block) (AddressSpaceTooLarge (total_blocks self)) in
    index_at (allocated self) index.

Definition count_true (l : list bool) : Z := zlen (filter (fun b => b = true) l).

Definition validate (self : BlockAllocator) : outcome AllocationInvariantError unit :=
  let? start := ok_or (usize_try_from (reserved_blocks self)) AccountingOverflow in
  let? tail := slice_from (allocated self) start in
  let? observed := ok_or (u64_try_from (count_true tail)) AccountingOverflow in
  if negb (observed =? allocated_blocks self) then
    Err (AllocatedCountMismatch (allocated_blocks self) observed)
  else
    let? value := ok_or (checked_add (reserved_blocks self) (allocated_blocks self))
                    AccountingOverflow in
    let? free := free_blocks self in
    let? accounted := ok_or (checked_add value free) AccountingOverflow in
    if negb (accounted =? total_blocks self) then
      Err (AccountingMismatch (total_blocks self) (reserved_blocks self) (allocated_blocks self) free)
    else Ok tt.

(** ** Invariant and abstraction *)

Definition bit (self : BlockAllocator) (b : Z) : bool :=
  default false (allocated self !! Z.to_nat b).

(** The owned data blocks: what the allocator means. *)
Definition owned (self : BlockAllocator) : gset Z :=
  list_to_set (filter (fun b => bit self b = true)
                 (zrange (reserved_blocks self) (total_blocks self))).

(** The data blocks of the geometry. *)
Definition data_blocks (self : BlockAllocator) : gset Z :=
  list_to_set (zrange (reserved_blocks self) (total_blocks self)).

Record alloc_ok (self : BlockAllocator) : Prop := {
  ok_total : is_u64 (total_blocks self);
  ok_reserved : 0 <= reserved_blocks self <= total_blocks self;
  ok_length : zlen (allocated self) = total_blocks self;
  ok_prefix : forall b, 0 <= b < reserved_blocks self -> bit self b = false;
  ok_count : allocated_blocks self = Z.of_nat (size (owned self));
}.

Lemma elem_of_owned self b :
  b ∈ owned self <-> reserved_blocks self <= b < total_blocks self /\ bit self b = true.
Proof.
  unfold owned. rewrite elem_of_list_to_set, list_elem_of_filter, elem_of_zrange. tauto.
Qed.

Lemma elem_of_data_blocks self b :
  b ∈ data_blocks self <-> reserved_blocks self <= b < total_blocks self.
Proof. unfold data_blocks. by rewrite elem_of_list_to_set, elem_of_zrange. Qed.

Lemma bit_lookup self b x :
  0 <= b -> b < zlen (allocated self) -> bit self b = x <-> allocated self !! Z.to_nat b = Some x.
Proof.
  intros H0 Hl. unfold bit. unfold zlen in Hl.
  destruct (lookup_lt_is_Some_2 (allocated self) (Z.to_nat b)) as [y ->]; [lia|]. simpl. naive_solver.
Qed.

Lemma owned_subseteq self : owned self ⊆ data_blocks self.
Proof. intros b. rewrite elem_of_owned, elem_of_data_blocks. tauto. Qed.

Lemma size_data_blocks self :
  reserved_blocks self <= total_blocks self ->
  Z.of_nat (size (data_blocks self)) = total_blocks self - reserved_blocks self.
Proof.
  intros. unfold data_blocks. rewrite size_list_to_set by apply NoDup_seqZ.
  apply zlen_zrange. lia.
Qed.

(** The bitmap after the prefix counts exactly the owned blocks. *)
Lemma filter_imap_count (l : list bool) (start : nat) :
  length (filter (fun i => default false (l !! (Z.to_nat i - start)%nat) = true)
            (seqZ (Z.of_nat start) (zlen l))) = length (filter (fun b => b = true) l).
Proof.
  revert start. induction l as [|x l IH]; intros start; [done|].
  rewrite zlen_cons, seqZ_cons by (pose proof (zlen_nonneg l); lia).
  rewrite !filter_cons. rewrite Nat2Z.id, Nat.sub_diag. simpl.
  assert (Htl : length (filter (fun i => default false ((x :: l) !! (Z.to_nat i - start)%nat) = true)
      (seqZ (Z.succ (Z.of_nat start)) (Z.pred (1 + zlen l)))) = length (filter (fun b => b = true) l)).
  { rewrite <- (IH (S start)). replace (Z.pred (1 + zlen l)) with (zlen l) by lia.
    rewrite Nat2Z.inj_succ. f_equal. apply list_filter_iff_in. intros i Hi.
    apply elem_of_seqZ in Hi. replace (Z.to_nat i - start)%nat with (S (Z.to_nat i - S start)) by lia.
    done. }
  case_decide; simpl; by rewrite Htl.
Qed.

Lemma count_true_owned self :
  0 <= reserved_blocks self <= total_blocks self -> zlen (allocated self) = total_blocks self ->
  count_true (drop (Z.to_nat (reserved_blocks self)) (allocated self)) = Z.of_nat (size (owned self)).
Proof.
  intros Hr Hl. unfold owned, count_true. unfold zlen at 1. f_equal.
  rewrite size_list_to_set by apply NoDup_filter, NoDup_seqZ.
  rewrite <- (filter_imap_count _ (Z.to_nat (reserved_blocks self))).
  rewrite Z2Nat.id by lia. rewrite zlen_drop by lia. rewrite Hl. unfold zrange.
  f_equal. apply list_filter_iff_in. intros i Hi. apply elem_of_seqZ in Hi.
  unfold bit. rewrite lookup_drop.
  replace (Z.to_nat (reserved_blocks self) + (Z.to_nat i - Z.to_nat (reserved_blocks self)))%nat
    with (Z.to_nat i) by lia. done.
Qed.

(** ** The operations *)

Definition set_bit_state (self : BlockAllocator) (b : Z) (x : bool) (count : Z) : BlockAllocator :=
  mkBlockAllocator (total_blocks self) (reserved_blocks self)
    (<[Z.to_nat b := x]> (allocated self)) count.

Lemma bit_set self b x count c :
  0 <= b < zlen (allocated self) -> 0 <= c ->
  bit (set_bit_state self b x count) c = if decide (c = b) then x else bit self c.
Proof.
  intros Hb Hc. unfold bit, set_bit_state. simpl. unfold zlen in Hb. case_decide as Hcb.
  - subst. rewrite list_lookup_insert_eq by lia. done.
  - rewrite list_lookup_insert_ne by lia. done.
Qed.

Lemma owned_set_true self b count :
  0 <= reserved_blocks self -> zlen (allocated self) = total_blocks self ->
  reserved_blocks self <= b < total_blocks self ->
  owned (set_bit_state self b true count) = {[b]} ∪ owned self.
Proof.
  intros H0 Hl Hb. apply set_eq. intros c. rewrite elem_of_union, elem_of_singleton, !elem_of_owned.
  simpl. destruct (decide (c = b)) as [->|Hne].
  - rewrite bit_set by lia. rewrite decide_True by done. naive_solver.
  - split.
    + intros [Hc Hbit]. rewrite bit_set, decide_False in Hbit by (done || lia). auto.
    + intros [?|[Hc Hbit]]; [done|]. rewrite bit_set, decide_False by (done || lia). auto.
Qed.

Lemma owned_set_false self b count :
  0 <= reserved_blocks self -> zlen (allocated self) = total_blocks self ->
  reserved_blocks self <= b < total_blocks self ->
  owned (set_bit_state self b false count) = owned self ∖ {[b]}.
Proof.
  intros H0 Hl Hb. apply set_eq. intros c. rewrite elem_of_difference, elem_of_singleton, !elem_of_owned.
  simpl. split.
  - intros [Hc Hbit]. rewrite bit_set in Hbit by lia. case_decide; naive_solver.
  - intros [[Hc Hbit] Hne]. rewrite bit_set, decide_False by (done || lia). auto.
Qed.

Lemma allocator_new_ok n r :
  n <= isize_max -> 0 <= r <= n ->
  exists a, allocator_new n r = Ok a /\ alloc_ok a /\ owned a = ∅ /\
    total_blocks a = n /\ reserved_blocks a = r.
Proof.
  intros Hn Hr. unfold allocator_new. rewrite (proj2 (Z.ltb_ge _ _)) by lia.
  rewrite usize_try_from_le by (unfold isize_max in *; ulia). cbn [ok_or obind]. unfold with_capacity.
  rewrite (proj2 (Z.leb_le _ _)) by lia. cbn [obind]. eexists. split; [done|].
  assert (Hbit : forall b, bit (mkBlockAllocator n r (replicate (Z.to_nat n) false) 0) b = false).
  { intros b. unfold bit. simpl. destruct (replicate _ _ !! _) eqn:Hb; [|done]. simpl.
    by apply lookup_replicate in Hb as [-> _]. }
  assert (Ho : owned (mkBlockAllocator n r (replicate (Z.to_nat n) false) 0) = ∅).
  { apply set_eq. intros b. rewrite elem_of_owned, Hbit. set_solver. }
  split; [|done]. constructor; simpl; [unfold isize_max in *; ulia|done| |done|by rewrite Ho].
  rewrite zlen_replicate. lia.
Qed.

(** Taking a free data block, and giving an owned one back. *)
Lemma alloc_ok_take self b :
  alloc_ok self -> reserved_blocks self <= b < total_blocks self -> b ∉ owned self ->
  allocated_blocks self + 1 <= u64_max /\
  alloc_ok (set_bit_state self b true (allocated_blocks self + 1)).
Proof.
  intros Hok Hb Hnb.
  pose proof (ok_total _ Hok). pose proof (ok_reserved _ Hok). pose proof (ok_length _ Hok).
  pose proof (size_data_blocks self ltac:(lia)) as Hszd. pose proof (ok_count _ Hok) as Hcount.
  assert (Hlt : (size (owned self) < size (data_blocks self))%nat).
  { apply subset_size. split; [apply owned_subseteq|]. intros Hsub. apply Hnb, Hsub.
    by apply elem_of_data_blocks. }
  split; [ulia|]. constructor; simpl; [done|done|by rewrite zlen_insert| |].
  - intros c Hc. rewrite bit_set, decide_False by lia. by apply (ok_prefix _ Hok).
  - rewrite owned_set_true, size_union, size_singleton by (set_solver || lia). lia.
Qed.

Lemma alloc_ok_give self b :
  alloc_ok self -> b ∈ owned self ->
  1 <= allocated_blocks self /\
  alloc_ok (set_bit_state self b false (allocated_blocks self - 1)).
Proof.
  intros Hok Hb. pose proof (proj1 (elem_of_owned _ _) Hb) as [Hr _].
  pose proof (ok_reserved _ Hok). pose proof (ok_length _ Hok). pose proof (ok_count _ Hok) as Hcount.
  assert (Hpos : size (owned self) <> 0%nat).
  { intros Hz. apply size_empty_inv in Hz. set_solver. }
  split; [lia|]. constructor; simpl; [by apply ok_total|done|by rewrite zlen_insert| |].
  - intros c Hc. rewrite bit_set, decide_False by lia. by apply (ok_prefix _ Hok).
  - rewrite owned_set_false, size_difference, size_singleton by (set_solver || lia). lia.
Qed.

(** [allocate] hands out the lowest data block that is not owned, or reports
    exhaustion exactly when every data block is owned. *)
Lemma allocate_spec self : alloc_ok self ->
  wp allocate
    (fun b self' => alloc_ok self' /\ total_blocks self' = total_blocks self /\
       reserved_blocks self' = reserved_blocks self /\ b ∈ data_blocks self /\ b ∉ owned self /\
       (forall c, c ∈ data_blocks self -> c < b -> c ∈ owned self) /\
       owned self' = {[b]} ∪ owned self)
    (fun e self' => self' = self /\ e = Exhausted /\ owned self = data_blocks self) self.
Proof.
  intros Hok. pose proof (ok_total _ Hok). pose proof (ok_reserved _ Hok). pose proof (ok_length _ Hok).
  assert (Hbit : forall c y, reserved_blocks self <= c < total_blocks self ->
    drop (Z.to_nat (reserved_blocks self)) (allocated self) !! Z.to_nat (c - reserved_blocks self)
      = Some y -> bit self c = y).
  { intros c y Hc Hy. apply bit_lookup; [lia|lia|]. rewrite lookup_drop in Hy. rewrite <- Hy.
    f_equal. lia. }
  assert (Hin : forall c, reserved_blocks self <= c < total_blocks self ->
    drop (Z.to_nat (reserved_blocks self)) (allocated self) !! Z.to_nat (c - reserved_blocks self)
      = Some (bit self c)).
  { intros c Hc. destruct (lookup_lt_is_Some_2 (drop (Z.to_nat (reserved_blocks self)) (allocated self))
      (Z.to_nat (c - reserved_blocks self))) as [y Hy]; [rewrite length_drop; unfold zlen in *; lia|].
    rewrite Hy. f_equal. symmetry. by apply Hbit. }
  unfold wp, allocate, ibind, iget, ilift, id. rewrite usize_try_from_le by ulia. simpl.
  rewrite slice_from_Ok by lia. unfold sub. rewrite take_ge by (rewrite length_drop; unfold zlen in *; lia).
  destruct (position negb _) as [i|] eqn:Hpos; simpl.
  - apply position_Some in Hpos as (Hi & (x & Hx & Hnx) & Hbefore). rewrite zlen_drop in Hi by lia.
    set (b := reserved_blocks self + i). assert (Hb : reserved_blocks self <= b < total_blocks self) by lia.
    replace i with (b - reserved_blocks self) in Hx by lia. apply Hbit in Hx as Hbx; [|done].
    assert (Hnb : b ∉ owned self) by (rewrite elem_of_owned, Hbx; destruct x; naive_solver).
    destruct (alloc_ok_take self b Hok Hb Hnb) as [Hmax Hok'].
    rewrite add_u64_le by ulia. fold b. rewrite set_at_Ok by ulia.
    rewrite add_u64_le by ulia. simpl. rewrite u64_try_from_le by ulia. simpl.
    split; [done|]. do 2 (split; [done|]). split; [by apply elem_of_data_blocks|]. split; [done|].
    split; [|apply owned_set_true; lia].
    intros c Hc%elem_of_data_blocks Hcb. apply elem_of_owned. split; [done|]. apply negb_false_iff.
    apply (Hbefore (c - reserved_blocks self)); [lia|]. by apply Hin.
  - split; [done|]. split; [done|]. apply set_eq. intros c.
    rewrite elem_of_owned, elem_of_data_blocks. split; [tauto|]. intros Hc. split; [done|].
    apply negb_false_iff, (position_None _ _ Hpos), list_elem_of_lookup. eexists. by apply Hin.
Qed.

(** [free] releases exactly the named block; it refuses blocks that are out of
    range, reserved, or not owned, and then changes nothing. *)
Lemma free_spec self b : alloc_ok self -> 0 <= b ->
  wp (free b)
    (fun _ self' => alloc_ok self' /\ total_blocks self' = total_blocks self /\
       reserved_blocks self' = reserved_blocks self /\ b ∈ owned self /\
       owned self' = owned self ∖ {[b]})
    (fun e self' => self' = self /\ b ∉ owned self /\
       e = if decide (total_blocks self <= b) then OutOfRange b (total_blocks self)
           else if decide (b < reserved_blocks self) then ReservedBlock b else AlreadyFree b) self.
Proof.
  intros Hok H0. pose proof (ok_total _ Hok). pose proof (ok_reserved _ Hok). pose proof (ok_length _ Hok).
  unfold wp, free, ibind, iget, ilift, id, data_index, ensure_in_range.
  destruct (total_blocks self <=? b) eqn:Hr; bool_facts; simpl.
  { rewrite decide_True by done. rewrite elem_of_owned. naive_solver lia. }
  rewrite decide_False by lia.
  destruct (b <? reserved_blocks self) eqn:Hr'; bool_facts; simpl.
  { rewrite decide_True by done. rewrite elem_of_owned. naive_solver lia. }
  rewrite decide_False by lia. rewrite usize_try_from_le by ulia. simpl.
  destruct (lookup_lt_is_Some_2 (allocated self) (Z.to_nat b)) as [x Hx]; [unfold zlen in *; lia|].
  rewrite (index_at_Ok _ _ x) by done. assert (Hbit : bit self b = x) by (unfold bit; by rewrite Hx).
  destruct x; simpl; [|rewrite elem_of_owned, Hbit; naive_solver].
  assert (Hb : b ∈ owned self) by (apply elem_of_owned; split; [lia|done]).
  destruct (alloc_ok_give self b Hok Hb) as [Hmin Hok'].
  rewrite set_at_Ok by lia. rewrite sub_u64_le by lia. unfold iset.
  split; [done|]. do 2 (split; [done|]). split; [done|]. apply owned_set_false; lia.
Qed.

Lemma is_owned_spec self b : alloc_ok self -> 0 <= b ->
  is_owned self b =
    if decide (total_blocks self <= b) then Err (OutOfRange b (total_blocks self))
    else Ok (bool_decide (b < reserved_blocks self \/ b ∈ owned self)).
Proof.
  intros Hok H0. pose proof (ok_total _ Hok). pose proof (ok_reserved _ Hok). pose proof (ok_length _ Hok).
  unfold is_owned, ensure_in_range. case_decide as Hr.
  { by rewrite (proj2 (Z.leb_le _ _)). }
  rewrite (proj2 (Z.leb_gt _ _)) by lia. simpl.
  destruct (b <? reserved_blocks self) eqn:Hr'; bool_facts.
  { f_equal. symmetry. apply bool_decide_eq_true. by left. }
  rewrite usize_try_from_le by ulia. simpl.
  destruct (lookup_lt_is_Some_2 (allocated self) (Z.to_nat b)) as [x Hx]; [unfold zlen in *; lia|].
  rewrite (index_at_Ok _ _ x) by done. assert (Hbit : bit self b = x) by (unfold bit; by rewrite Hx).
  f_equal. symmetry. destruct x.
  - apply bool_decide_eq_true. right. apply elem_of_owned. split; [lia|done].
  - apply bool_decide_eq_false. rewrite elem_of_owned, Hbit. naive_solver lia.
Qed.

Lemma free_blocks_ok {E} self : alloc_ok self ->
  @free_blocks E self = Ok (total_blocks self - reserved_blocks self - allocated_blocks self).
Proof.
  intros Hok. pose proof (ok_reserved _ Hok). unfold free_blocks. rewrite sub_u64_le by lia. simpl.
  pose proof (subseteq_size _ _ (owned_subseteq self)). pose proof (size_data_blocks self ltac:(lia)).
  rewrite (ok_count _ Hok). apply sub_u64_le. lia.
Qed.

(** On a structurally sound allocator, [validate] accepts exactly when the
    recorded count is the number of owned blocks. *)
Lemma validate_spec self :
  is_u64 (total_blocks self) -> 0 <= reserved_blocks self <= total_blocks self ->
  zlen (allocated self) = total_blocks self ->
  validate self = Ok tt <-> allocated_blocks self = Z.of_nat (size (owned self)).
Proof.
  intros Hn Hr Hl. unfold validate. rewrite usize_try_from_le by ulia. simpl.
  rewrite slice_from_Ok by lia. unfold sub.
  rewrite take_ge by (rewrite length_drop; unfold zlen in *; lia). simpl.
  rewrite count_true_owned by done.
  pose proof (subseteq_size _ _ (owned_subseteq self)). pose proof (size_data_blocks self ltac:(lia)).
  rewrite u64_try_from_le by ulia. simpl.
  destruct (Z.of_nat _ =? allocated_blocks self) eqn:Hc; simpl; bool_facts; [|naive_solver].
  rewrite <- Hc. rewrite checked_add_le by ulia. simpl. unfold free_blocks.
  rewrite sub_u64_le by lia. simpl. rewrite <- Hc. rewrite sub_u64_le by lia. simpl.
  rewrite checked_add_le by ulia. simpl. rewrite (proj2 (Z.eqb_eq _ _)) by lia. done.
Qed.

Lemma validate_ok self : alloc_ok self -> validate self = Ok tt.
Proof. intros []. by apply validate_spec. Qed.

(** Two sound allocators over the same geometry that own the same blocks are equal. *)
Lemma alloc_ok_ext a b :
  alloc_ok a -> alloc_ok b -> total_blocks a = total_blocks b ->
  reserved_blocks a = reserved_blocks b -> owned a = owned b -> a = b.
Proof.
  intros Ha Hb Ht Hr Ho. pose proof (ok_length _ Ha). pose proof (ok_length _ Hb).
  pose proof (ok_count _ Ha). pose proof (ok_count _ Hb). pose proof (ok_reserved _ Ha).
  assert (Hbits : forall c, 0 <= c < total_blocks a -> bit a c = bit b c).
  { intros c Hc. destruct (decide (c < reserved_blocks a)).
    - rewrite (ok_prefix _ Ha), (ok_prefix _ Hb) by lia. done.
    - assert (Hab : bit a c = true <-> bit b c = true).
      { assert (Hia : c ∈ owned a <-> bit a c = true) by (rewrite elem_of_owned; naive_solver lia).
        assert (Hib : c ∈ owned b <-> bit b c = true) by (rewrite elem_of_owned; naive_solver lia).
        by rewrite <- Hia, <- Hib, Ho. }
      destruct (bit a c), (bit b c); naive_solver. }
  assert (allocated a = allocated b).
  { apply list_eq. intros i. destruct (decide (Z.of_nat i < total_blocks a)).
    - specialize (Hbits (Z.of_nat i) ltac:(lia)). unfold bit in Hbits. rewrite !Nat2Z.id in Hbits.
      unfold zlen in *.
      destruct (lookup_lt_is_Some_2 (allocated a) i) as [x Hx]; [lia|].
      destruct (lookup_lt_is_Some_2 (allocated b) i) as [y Hy]; [lia|].
      rewrite Hx, Hy in *. by simpl in Hbits; subst.
    - unfold zlen in *. rewrite !lookup_ge_None_2 by lia. done. }
  destruct a, b; simpl in *. subst. f_equal. congruence.
Qed.

(** ** The allocator as a set of blocks

    The specification keeps the set of allocated data blocks and nothing else:
    [allocate] hands out the lowest block outside the set, [free] removes a
    block of the set.  A client's calls get the same replies from both. *)

Inductive allocator_call : Type := CallAllocate | CallFree (b : Z) | CallIsOwned (b : Z).
Inductive allocator_reply : Type := GaveBlock (b : Z) | Freed | Owned (o : bool).

Definition call (c : allocator_call) : ST AllocationError BlockAllocator allocator_reply :=
  match c with
  | CallAllocate => let! b := allocate in iret (GaveBlock b)
  | CallFree b => do! free b in iret Freed
  | CallIsOwned b => fun self => (let? o := is_owned self b in Ok (Owned o), self)
  end.

Definition spec_call (n r : Z) (c : allocator_call) : ST AllocationError (gset Z) allocator_reply := fun S =>
  match c with
  | CallAllocate =>
      match find (fun b => bool_decide (b ∉ S)) (zrange r n) with
      | Some b => (Ok (GaveBlock b), {[b]} ∪ S)
      | None => (Err Exhausted, S)
      end
  | CallFree b =>
      if decide (n <= b) then (Err (OutOfRange b n), S)
      else if decide (b < r) then (Err (ReservedBlock b), S)
      else if decide (b ∈ S) then (Ok Freed, S ∖ {[b]}) else (Err (AlreadyFree b), S)
  | CallIsOwned b =>
      if decide (n <= b) then (Err (OutOfRange b n), S)
      else (Ok (Owned (bool_decide (b < r \/ b ∈ S))), S)
  end.

(** A client that goes on after an error. *)
Fixpoint calls {D} (f : allocator_call -> ST AllocationError D allocator_reply) (cs : list allocator_call)
    (d : D) : list (outcome AllocationError allocator_reply) * D :=
  match cs with
  | [] => ([], d)
  | c :: cs' => let '(r, d1) := f c d in let '(rs, d2) := calls f cs' d1 in (r :: rs, d2)
  end.

Definition call_ok (c : allocator_call) : Prop :=
  match c with CallAllocate => True | CallFree b | CallIsOwned b => 0 <= b end.

Lemma find_lowest (S : gset Z) r n b :
  r <= b < n -> b ∉ S -> (forall c, r <= c < b -> c ∈ S) ->
  find (fun b => bool_decide (b ∉ S)) (zrange r n) = Some b.
Proof.
  intros Hb Hn Hlow. remember (Z.to_nat (b - r)) as k eqn:Hk. revert r Hb Hlow Hk.
  induction k as [|k IH]; intros r Hb Hlow Hk; rewrite zrange_cons by lia; simpl.
  - assert (r = b) as -> by lia. by rewrite bool_decide_eq_true_2.
  - rewrite bool_decide_eq_false_2 by (pose proof (Hlow r ltac:(lia)); tauto).
    apply IH; [lia| |lia]. intros c Hc. apply Hlow. lia.
Qed.

Lemma find_exhausted (S : gset Z) r n :
  (forall c, r <= c < n -> c ∈ S) -> find (fun b => bool_decide (b ∉ S)) (zrange r n) = None.
Proof.
  intros Hall. destruct (find _ _) as [b|] eqn:Hf; [|done].
  apply find_Some in Hf as [Hin Hb%bool_decide_eq_true]. apply elem_of_zrange in Hin. by destruct Hb; apply Hall.
Qed.

(** One call, concretely and abstractly. *)
Lemma call_refines a c : alloc_ok a -> call_ok c ->
  let run := call c a in let spec := spec_call (total_blocks a) (reserved_blocks a) c (owned a) in
  run.1 = spec.1 /\ owned run.2 = spec.2 /\ alloc_ok run.2 /\
  total_blocks run.2 = total_blocks a /\ reserved_blocks run.2 = reserved_blocks a.
Proof.
  intros Ha Hc. destruct c as [|b|b]; simpl in *; unfold ibind.
  - pose proof (allocate_spec a Ha) as Hs. unfold wp in Hs. destruct (allocate a) as [[b|e|] a']; simpl; [| |done].
    + destruct Hs as (Ha' & Ht & Hr & Hin & Hno & Hlow & Ho). apply elem_of_data_blocks in Hin.
      rewrite (find_lowest _ _ _ b); [done|done|done|].
      intros c Hc'. apply Hlow; [apply elem_of_data_blocks; lia|lia].
    + destruct Hs as (-> & -> & Ho). rewrite find_exhausted; [done|].
      intros c Hc'. rewrite Ho. by apply elem_of_data_blocks.
  - pose proof (free_spec a b Ha Hc) as Hs. unfold wp in Hs.
    pose proof (owned_subseteq a) as Hsub. destruct (free b a) as [[[]|e|] a']; simpl; [| |done].
    + destruct Hs as (Ha' & Ht & Hr & Hin & Ho). pose proof (proj1 (elem_of_data_blocks _ _) (Hsub b Hin)).
      rewrite !decide_False, decide_True by (done || lia). done.
    + destruct Hs as (-> & Hno & ->). repeat case_decide; done.
  - rewrite is_owned_spec by done. case_decide; done.
Qed.

Lemma calls_refine cs : forall a, alloc_ok a -> Forall call_ok cs ->
  let run := calls call cs a in
  let spec := calls (spec_call (total_blocks a) (reserved_blocks a)) cs (owned a) in
  run.1 = spec.1 /\ owned run.2 = spec.2 /\ alloc_ok run.2 /\
  total_blocks run.2 = total_blocks a /\ reserved_blocks run.2 = reserved_blocks a.
Proof.
  induction cs as [|c cs IH]; intros a Ha Hcs; [done|]. apply Forall_cons in Hcs as [Hc Hcs]. simpl.
  destruct (call_refines a c Ha Hc) as (H1 & H2 & Ha' & Ht & Hr).
  destruct (call c a) as [r a'], (spec_call _ _ c (owned a)) as [r' S']. simpl in *. subst.
  specialize (IH a' Ha' Hcs). simpl in IH. rewrite Ht, Hr in IH.
  destruct (calls call cs a'), (calls _ cs (owned a')). simpl in *. naive_solver.
Qed.

(** C15: [BlockAllocator] refines the set of allocated blocks: after
    [BlockAllocator::new], any sequence of [allocate], [free] and [is_owned]
    calls gets exactly the replies of the specification, errors included
    ([allocate] returns the lowest free data block; reserved, free and
    out-of-range blocks are refused), the set it keeps is the specification's,
    and at the end [validate] succeeds and [free_blocks] is the number of data
    blocks outside the set.  No call panics.  [BlockAllocator::new] itself
    panics exactly when its [Vec] of one byte per block would be larger than
    [isize::MAX], so the statement is about every smaller device. *)
Theorem allocator_refines_set n r cs :
  is_u64 n -> 0 <= r <= n -> Forall call_ok cs ->
  if isize_max <? n then allocator_new n r = Panic else
  exists a, allocator_new n r = Ok a /\
    let run := calls call cs a in let spec := calls (spec_call n r) cs ∅ in
    run.1 = spec.1 /\ owned run.2 = spec.2 /\ validate run.2 = Ok tt /\
    @free_blocks io_error run.2 = Ok (n - r - Z.of_nat (size spec.2)) /\ Forall (fun x => x <> Panic) run.1.
Proof.
  intros Hn Hr Hcs. destruct (isize_max <? n) eqn:Hbig; bool_facts.
  { unfold allocator_new, with_capacity. rewrite (proj2 (Z.ltb_ge _ _)), usize_try_from_le by ulia. cbn [ok_or obind].
    by rewrite (proj2 (Z.leb_gt _ _)) by lia. }
  destruct (allocator_new_ok n r Hbig Hr) as (a & Hnew & Ha & Ho & Ht & Hrb).
  exists a. split; [done|]. destruct (calls_refine cs a Ha Hcs) as (H1 & H2 & Ha' & Ht' & Hr').
  rewrite Ht, Hrb, Ho in *. split; [done|]. split; [done|]. split; [by apply validate_ok|]. split.
  - rewrite free_blocks_ok by done. rewrite (ok_count _ Ha'), Ht', Hr', H2. done.
  - rewrite H1. clear. generalize (∅ : gset Z) as S. induction cs as [|c cs IH]; intros S; simpl; [constructor|].
    destruct (spec_call n r c S) as [x S'] eqn:Hx. specialize (IH S'). destruct (calls _ cs S'). simpl in *.
    constructor; [|done]. intros ->. destruct c; simpl in Hx; repeat case_match; simplify_eq.
Qed.

Lemma allocator_refines_set_witness :
  exists a, allocator_new 4 2 = Ok a /\
    let cs := [CallAllocate; CallAllocate; CallAllocate; CallFree 2; CallFree 2; CallFree 1; CallAllocate] in
    let run := calls call cs a in let spec := calls (spec_call 4 2) cs ∅ in
    run.1 = spec.1 /\ owned run.2 = spec.2 /\ validate run.2 = Ok tt /\
    @free_blocks io_error run.2 = Ok (4 - 2 - Z.of_nat (size spec.2)) /\ Forall (fun x => x <> Panic) run.1.
Proof.
  refine (allocator_refines_set 4 2
    [CallAllocate; CallAllocate; CallAllocate; CallFree 2; CallFree 2; CallFree 1; CallAllocate] _ _ _);
    [ulia|lia|].
  repeat (apply Forall_cons_2; [simpl; done || lia|]). apply Forall_nil_2.
Defined.
