(* ===== verification/Region.v ===== *)
(** * Region images

    The block loops [allocation_disk], [inode_table], [directory_table] and
    [journal_region] share: reading a contiguous region into one byte image and
    writing an image back tail first, header block last.  The errors of the
    copies differ only in their messages, which are arguments here.  On a
    lawful device the loops are the pure functions [disk_region] and [put]. *)

From S2P Require Import Prelude Bytes Block.

Section Loops.
Context `{BlockDevice D}.

(** [read_region]: every block of the range into [image]. *)
Definition read_region_blocks (image : bytes) (range : Z * Z) (offset_err slice_err : io_error)
    : M D bytes :=
  ifold (fun image '(index, block) =>
           let! start := ilift (ok_or (checked_mul index BLOCK_SIZE) offset_err) in
           let! stop := ilift (add_u64 start BLOCK_SIZE) in
           let! target := ilift (slice image start stop) in
           do! ilift (ensure (zlen target =? BLOCK_SIZE) slice_err) in
           let! data := read_block block in
           ilift (copy_range image start stop data))
    image (enumerate (zrange range.1 range.2)).

(** [write_image_block] *)
Definition write_image_block_at (offset_err slice_err : io_error) (block : Z) (image : bytes)
    (index : Z) : M D unit :=
  let! start := ilift (ok_or (checked_mul index BLOCK_SIZE) offset_err) in
  let! stop := ilift (add_u64 start BLOCK_SIZE) in
  let! source := ilift (slice image start stop) in
  do! ilift (ensure (zlen source =? BLOCK_SIZE) slice_err) in
  write_block block source.

(** [write_region]: blocks [n-1 .. 1], then block 0. *)
Definition write_region_blocks (image : bytes) (range : Z * Z) (offset_err slice_err : io_error)
    : M D unit :=
  let blocks := zrange range.1 range.2 in
  do! ifor (fun index =>
              let! block := ilift (index_at blocks index) in
              write_image_block_at offset_err slice_err block image index)
        (reverse (zrange 1 (zlen blocks))) in
  match blocks with
  | first :: _ => write_image_block_at offset_err slice_err first image 0
  | [] => iret tt
  end.

Definition write_seq (ws : list (Z * block)) : M D unit :=
  ifor (fun '(b, data) => write_block b data) ws.
End Loops.

(** The bytes of [n] blocks of a disk image. *)
Definition disk_region (v : list block) (start n : Z) : bytes := mjoin (sub v start n).

(** What a sequence of block writes does to a disk image. *)
Definition apply_writes (ws : list (Z * block)) (v : list block) : list block :=
  foldl (fun v '(b, data) => <[Z.to_nat b := data]> v) v ws.

(** The writes of [write_region], in order. *)
Definition region_writes (start n : Z) (image : bytes) : list (Z * block) :=
  reverse (zip (zrange start (start + n)) (chunks n image)).

(** ** Disk images *)

Lemma zlen_mjoin_blocks (v : list block) : Forall block_ok v -> zlen (mjoin v) = zlen v * BLOCK_SIZE.
Proof.
  induction 1 as [|b v [Hb _] _ IH]; [done|]. simpl. rewrite zlen_app, zlen_cons, IH, Hb. ulia.
Qed.

Lemma Forall_mjoin_blocks (v : list block) : Forall block_ok v -> Forall is_byte (mjoin v).
Proof. induction 1 as [|b v [_ Hb] _ IH]; simpl; [constructor|by apply Forall_app_2]. Qed.

Lemma zlen_disk_region N v start n :
  image_ok N v -> 0 <= start -> 0 <= n -> start + n <= N -> zlen (disk_region v start n) = n * BLOCK_SIZE.
Proof.
  intros (Hl & Hv & _) ? ? ?. unfold disk_region.
  rewrite zlen_mjoin_blocks by by apply Forall_sub. rewrite zlen_sub by lia. done.
Qed.

Lemma Forall_disk_region N v start n : image_ok N v -> Forall is_byte (disk_region v start n).
Proof. intros (Hl & Hv & _). apply Forall_mjoin_blocks. by apply Forall_sub. Qed.

Lemma sub_mjoin (v : list block) i :
  Forall block_ok v -> 0 <= i < zlen v ->
  v !! Z.to_nat i = Some (sub (mjoin v) (i * BLOCK_SIZE) BLOCK_SIZE).
Proof.
  intros Hv. revert i. induction Hv as [|b v [Hb Hbb] Hv IH]; intros i Hi.
  { unfold zlen in Hi. simpl in Hi. lia. }
  rewrite zlen_cons in Hi. destruct (decide (i = 0)) as [->|].
  - simpl. f_equal. rewrite sub_prefix; [done|]. rewrite Hb. done.
  - replace (Z.to_nat i) with (S (Z.to_nat (i - 1))) by lia. simpl. rewrite IH by lia. f_equal.
    rewrite sub_app_r by ulia. f_equal. ulia.
Qed.

Lemma chunks_mjoin (v : list block) : Forall block_ok v -> chunks (zlen v) (mjoin v) = v.
Proof.
  intros Hv. apply list_eq. intros i. pose proof (zlen_nonneg v).
  destruct (decide (Z.of_nat i < zlen v)).
  - replace i with (Z.to_nat (Z.of_nat i)) by lia. rewrite chunks_lookup by lia.
    symmetry. apply sub_mjoin; [done|lia].
  - pose proof (zlen_chunks (zlen v) (mjoin v)). unfold zlen in *.
    rewrite !lookup_ge_None_2 by lia. done.
Qed.

Lemma mjoin_chunks n bs :
  0 <= n -> zlen bs = n * BLOCK_SIZE -> Forall is_byte bs -> mjoin (chunks n bs) = bs.
Proof.
  intros Hn Hl Hb. unfold chunks.
  assert (Hgen : forall m k, 0 <= k -> k + Z.of_nat m <= n ->
    mjoin ((fun i => sub bs (i * BLOCK_SIZE) BLOCK_SIZE) <$> seqZ k (Z.of_nat m))
      = sub bs (k * BLOCK_SIZE) (Z.of_nat m * BLOCK_SIZE)).
  { induction m as [|m IH]; intros k Hk Hkm; [done|].
    rewrite seqZ_cons by lia. cbn [fmap list_fmap mjoin list_join].
    replace (Z.pred (Z.of_nat (S m))) with (Z.of_nat m) by lia.
    rewrite IH by lia. replace (Z.of_nat (S m) * BLOCK_SIZE) with (BLOCK_SIZE + Z.of_nat m * BLOCK_SIZE)
      by lia. rewrite sub_split by ulia. do 2 f_equal. lia. }
  specialize (Hgen (Z.to_nat n) 0 ltac:(lia) ltac:(lia)). rewrite Z2Nat.id in Hgen by lia.
  rewrite Hgen. apply sub_all. lia.
Qed.

Lemma apply_writes_app ws1 ws2 v : apply_writes (ws1 ++ ws2) v = apply_writes ws2 (apply_writes ws1 v).
Proof. apply foldl_app. Qed.

Lemma zlen_apply_writes ws v : zlen (apply_writes ws v) = zlen v.
Proof.
  revert v. induction ws as [|[b data] ws IH]; intros v; simpl; [done|].
  rewrite IH. apply zlen_insert.
Qed.

Lemma image_ok_apply_writes n ws v :
  image_ok n v -> Forall (fun w => block_ok w.2) ws -> image_ok n (apply_writes ws v).
Proof.
  intros Hv Hws. revert v Hv. induction Hws as [|[b data] ws Hd _ IH]; intros v Hv; simpl; [done|].
  apply IH. by apply image_ok_insert.
Qed.

(** A region the writes do not touch keeps its blocks. *)
Lemma sub_insert_outside (v : list block) b data start n :
  0 <= start -> 0 <= n -> 0 <= b -> ~ (start <= b < start + n) ->
  sub (<[Z.to_nat b := data]> v) start n = sub v start n.
Proof.
  intros. unfold sub. apply list_eq. intros i.
  destruct (decide (i < Z.to_nat n)%nat).
  - rewrite !lookup_take_lt, !lookup_drop by lia. apply list_lookup_insert_ne. lia.
  - rewrite !lookup_take_ge by lia. done.
Qed.

Lemma sub_apply_writes_outside ws v start n :
  0 <= start -> 0 <= n -> Forall (fun w => 0 <= w.1 /\ ~ (start <= w.1 < start + n)) ws ->
  sub (apply_writes ws v) start n = sub v start n.
Proof.
  intros H0 Hn Hws. revert v. induction Hws as [|[b data] ws [Hb Hout] _ IH]; intros v; simpl; [done|].
  rewrite IH. by apply sub_insert_outside.
Qed.

Lemma disk_region_outside ws v start n :
  0 <= start -> 0 <= n -> Forall (fun w => 0 <= w.1 /\ ~ (start <= w.1 < start + n)) ws ->
  disk_region (apply_writes ws v) start n = disk_region v start n.
Proof. intros. unfold disk_region. by rewrite sub_apply_writes_outside. Qed.

(** Writing a region is a [put] of its blocks. *)
Lemma put_cons {A} (v : list A) start x xs :
  0 <= start -> start + zlen (x :: xs) <= zlen v ->
  put v start (x :: xs) = <[Z.to_nat start := x]> (put v (start + 1) xs).
Proof.
  intros H0 Hl. rewrite zlen_cons in Hl. unfold zlen in Hl. unfold put.
  apply list_eq. intros i. rewrite Z2Nat.inj_add by lia. change (Z.to_nat 1) with 1%nat. simpl.
  destruct (decide (i = Z.to_nat start)) as [->|Hne].
  - rewrite list_lookup_insert_eq by (rewrite !length_app, length_take; lia).
    rewrite lookup_app_r by (rewrite length_take; lia). rewrite length_take.
    replace (_ - _)%nat with 0%nat by lia. done.
  - rewrite list_lookup_insert_ne by done. destruct (decide (i < Z.to_nat start)%nat).
    + rewrite !lookup_app_l by (rewrite length_take; lia). by rewrite !lookup_take_lt by lia.
    + rewrite (lookup_app_r (take (Z.to_nat start) v)) by (rewrite length_take; lia).
      rewrite (lookup_app_r (take _ v)) by (rewrite length_take; lia). rewrite !length_take.
      replace (i - Z.to_nat start `min` length v)%nat
        with (S (i - (Z.to_nat start + 1) `min` length v)) by lia. simpl.
      do 3 f_equal. lia.
Qed.

Lemma apply_region_writes v start n image :
  0 <= start -> 0 <= n -> start + n <= zlen v -> zlen image = n * BLOCK_SIZE ->
  apply_writes (region_writes start n image) v = put v start (chunks n image).
Proof.
  intros H0 Hn Hl Hi. unfold apply_writes, region_writes. rewrite foldl_reverse.
  pose proof (zlen_chunks n image Hn) as Hc. revert Hc. generalize (chunks n image). clear Hi image.
  replace n with (Z.of_nat (Z.to_nat n)) in * by lia. revert start H0 Hl.
  induction (Z.to_nat n) as [|m IH]; intros start H0 Hl cs Hc.
  - destruct cs; [|rewrite zlen_cons in Hc; pose proof (zlen_nonneg cs); lia].
    rewrite zip_with_nil_r. simpl. unfold put. simpl. rewrite Nat.add_0_r. by rewrite take_drop.
  - destruct cs as [|c cs]; [unfold zlen in Hc; simpl in Hc; lia|]. rewrite zlen_cons in Hc.
    rewrite zrange_cons by lia. simpl. rewrite put_cons by (rewrite ?zlen_cons; lia). f_equal.
    replace (start + Z.of_nat (S m)) with (start + 1 + Z.of_nat m) by lia.
    apply IH; lia.
Qed.

Lemma sub_single {A} (v : list A) a x :
  0 <= a -> v !! Z.to_nat a = Some x -> sub v a 1 = [x].
Proof. intros Ha Hx. unfold sub. by rewrite (drop_S _ _ _ Hx). Qed.

(** ** The loops *)

Section LoopSpecs.
Context `{BlockDevice D}.

Lemma write_seq_app ws1 ws2 (d : D) :
  write_seq (ws1 ++ ws2) d = (do! write_seq ws1 in write_seq ws2) d.
Proof. apply ifor_app. Qed.

Lemma write_image_block_at_eq oe se b image i (d : D) :
  0 <= i -> (i + 1) * BLOCK_SIZE <= zlen image -> zlen image <= u64_max ->
  write_image_block_at oe se b image i d =
    write_block b (sub image (i * BLOCK_SIZE) BLOCK_SIZE) d.
Proof.
  intros H0 Hl Hm. unfold write_image_block_at, ibind, ilift.
  rewrite checked_mul_le by ulia. simpl. rewrite add_u64_le by ulia.
  rewrite (slice_n _ _ _ BLOCK_SIZE) by ulia.
  unfold ensure. rewrite (proj2 (Z.eqb_eq _ _)) by (apply zlen_sub; ulia). done.
Qed.

Lemma region_writes_unfold start n image :
  0 < n -> region_writes start n image =
    ((fun i => (start + i, sub image (i * BLOCK_SIZE) BLOCK_SIZE)) <$> reverse (zrange 1 n)) ++
    [(start, sub image 0 BLOCK_SIZE)].
Proof.
  intros Hn. unfold region_writes, chunks.
  assert (Hz : zrange start (start + n) = (fun i => start + i) <$> seqZ 0 n).
  { unfold zrange. replace (start + n - start) with n by lia. unfold seqZ.
    rewrite <- list_fmap_compose. apply list_fmap_ext. intros i x _. simpl. lia. }
  rewrite Hz, zip_with_fmap_l, zip_with_fmap_r, zip_with_diag. rewrite seqZ_cons by lia.
  cbn [fmap list_fmap]. rewrite reverse_cons. f_equal.
  - rewrite fmap_reverse. unfold zrange. do 3 f_equal; lia.
  - f_equal. f_equal. lia.
Qed.

(** On any device, writing a region is this sequence of block writes. *)
Lemma write_region_blocks_eq oe se image start n (d : D) :
  0 < n -> zlen image = n * BLOCK_SIZE -> n * BLOCK_SIZE <= u64_max ->
  write_region_blocks image (start, start + n) oe se d = write_seq (region_writes start n image) d.
Proof.
  intros Hn Hl Hm. rewrite region_writes_unfold, write_seq_app by done.
  unfold write_region_blocks. cbn [fst snd]. unfold ibind.
  assert (Hloop : forall d0,
    ifor (fun index => let! block := ilift (index_at (zrange start (start + n)) index) in
            write_image_block_at oe se block image index) (reverse (zrange 1 n)) d0 =
    write_seq ((fun i => (start + i, sub image (i * BLOCK_SIZE) BLOCK_SIZE))
                 <$> reverse (zrange 1 n)) d0).
  { intros d0. unfold write_seq. rewrite ifor_fmap. apply ifor_ext. intros i d' Hi.
    rewrite elem_of_reverse, elem_of_zrange in Hi. unfold ibind, ilift.
    rewrite (index_at_Ok _ _ (start + i)); [|lia|].
    - apply write_image_block_at_eq; ulia.
    - unfold zrange. rewrite lookup_seqZ_lt by lia. f_equal. lia. }
  rewrite zlen_zrange by lia. replace (start + n - start) with n by lia. rewrite Hloop.
  destruct (write_seq _ d) as [[[]|e|] d1]; [|done..].
  rewrite zrange_cons by lia. rewrite write_image_block_at_eq by ulia.
  unfold write_seq, ifor, ibind. change (0 * BLOCK_SIZE) with 0.
  by destruct (write_block _ _ d1) as [[[]|?|] ?].
Qed.
End LoopSpecs.

Section LawfulLoops.
Context `{DeviceLaws D}.
Implicit Types (d : D) (v s : list block) (h : bool).

Lemma wp_write_seq h d v s ws :
  at_state h d v s -> Forall (fun w => 0 <= w.1 /\ block_ok w.2) ws ->
  wp (write_seq ws)
    (fun _ d' => at_state h d' (apply_writes ws v) s)
    (fun _ d' => crashed d' s /\ (Forall (fun w => w.1 < zlen v) ws -> h = false)) d.
Proof.
  intros Hst Hws. revert v d Hst. induction Hws as [|[b data] ws [Hb Hd] _ IH]; intros v d Hst.
  { by apply wp_ret. }
  unfold write_seq. simpl. apply wp_bind. eapply wp_mono; [by eapply wp_write|..]; simpl in *.
  - intros [] d' [Hlt Hst']. eapply wp_mono; [by apply IH|done|]. simpl.
    intros e d'' [Hc Hh]. split; [done|]. intros Hall. inversion Hall; subst. apply Hh.
    by rewrite zlen_insert.
  - intros e d' [Hc Hh]. split; [done|]. intros Hall. inversion Hall; subst. auto.
Qed.

Lemma region_writes_ok start n image :
  0 <= start -> 0 <= n -> zlen image = n * BLOCK_SIZE -> Forall is_byte image ->
  Forall (fun w => start <= w.1 < start + n /\ block_ok w.2) (region_writes start n image).
Proof.
  intros H0 Hn Hl Hb. unfold region_writes. apply Forall_reverse, Forall_forall.
  intros [b c] Hin. simpl. split.
  - apply elem_of_zip_l in Hin. by apply elem_of_zrange in Hin.
  - apply elem_of_zip_r in Hin. by eapply Forall_forall; [apply chunks_ok|].
Qed.

(** Writing a region replaces its blocks in the volatile image. *)
Lemma wp_write_seq_region h d v s start n image :
  at_state h d v s -> 0 <= start -> 0 <= n -> start + n <= zlen v ->
  zlen image = n * BLOCK_SIZE -> Forall is_byte image ->
  wp (write_seq (region_writes start n image))
    (fun _ d' => at_state h d' (put v start (chunks n image)) s)
    (fun _ d' => crashed d' s /\ h = false) d.
Proof.
  intros Hst H0 Hn Hl Hi Hb.
  pose proof (region_writes_ok start n image H0 Hn Hi Hb) as Hws.
  eapply wp_mono; [eapply wp_write_seq; [done|]|..].
  - eapply Forall_impl; [apply Hws|]. simpl. intros w ?. split; [lia|tauto].
  - intros u d'. by rewrite apply_region_writes by (done || lia).
  - simpl. intros e d' [Hc Hh]. split; [done|]. apply Hh.
    eapply Forall_impl; [apply Hws|]. simpl. lia.
Qed.

(** One iteration of the read loop: block [k] joins the prefix read so far. *)
Definition read_prefix (v : list block) (start n k : Z) : bytes :=
  mjoin (sub v start k) ++ zeros ((n - k) * BLOCK_SIZE).

Lemma zlen_read_prefix v start n k :
  Forall block_ok v -> 0 <= start -> 0 <= k <= n -> start + n <= zlen v ->
  zlen (mjoin (sub v start k)) = k * BLOCK_SIZE /\ zlen (read_prefix v start n k) = n * BLOCK_SIZE.
Proof.
  intros Hv H0 Hk Hl.
  assert (Hp : zlen (mjoin (sub v start k)) = k * BLOCK_SIZE).
  { rewrite zlen_mjoin_blocks by by apply Forall_sub. rewrite zlen_sub by lia. done. }
  split; [done|]. unfold read_prefix. rewrite zlen_app, Hp, zlen_zeros; ulia.
Qed.

Lemma read_prefix_step v start n k data :
  Forall block_ok v -> 0 <= start -> 0 <= k < n -> start + n <= zlen v ->
  v !! Z.to_nat (start + k) = Some data ->
  put (read_prefix v start n k) (k * BLOCK_SIZE) data = read_prefix v start n (k + 1).
Proof.
  intros Hv H0 Hk Hl Hdata. assert (Hok : block_ok data) by by eapply Forall_lookup_1.
  destruct (zlen_read_prefix v start n k) as [Hp _]; [done|lia..|].
  unfold read_prefix. rewrite put_fill by (rewrite ?Hp, ?(proj1 Hok); ulia).
  rewrite (proj1 Hok), sub_split, join_app by lia.
  rewrite (sub_single _ _ data) by (done || lia). simpl. rewrite app_nil_r.
  do 2 f_equal. ulia.
Qed.

Lemma wp_read_region_step h d v s start n oe se k :
  at_state h d v s -> 0 <= start -> 0 <= k < n -> start + n <= zlen v -> n * BLOCK_SIZE <= u64_max ->
  wp (let! first := ilift (ok_or (checked_mul k BLOCK_SIZE) oe) in
      let! stop := ilift (add_u64 first BLOCK_SIZE) in
      let! target := ilift (slice (read_prefix v start n k) first stop) in
      do! ilift (ensure (zlen target =? BLOCK_SIZE) se) in
      let! data := read_block (start + k) in
      ilift (copy_range (read_prefix v start n k) first stop data))
    (fun image d' => image = read_prefix v start n (k + 1) /\ at_state h d' v s)
    (fun _ d' => at_state false d' v s /\ h = false) d.
Proof.
  intros Hst H0 Hk Hl Hm. destruct (at_state_image _ _ _ _ Hst) as (_ & Hv & _).
  destruct (zlen_read_prefix v start n k) as [_ Hz]; [done|lia..|].
  apply wp_bind, wp_lift. rewrite checked_mul_le by ulia. simpl.
  apply wp_bind, wp_lift. rewrite add_u64_le by ulia. simpl.
  apply wp_bind, wp_lift. rewrite (slice_n _ _ _ BLOCK_SIZE) by ulia. simpl.
  apply wp_bind, wp_lift. unfold ensure. rewrite (proj2 (Z.eqb_eq _ _)) by (apply zlen_sub; ulia).
  simpl. apply wp_bind. eapply wp_mono; [eapply wp_read; [done|lia]|..]; simpl.
  2: { intros e d'' [Hc Hh]. split; [done|]. apply Hh. lia. }
  intros data d'' [Hdata Hst'']. assert (Hok : block_ok data) by by eapply Forall_lookup_1.
  apply wp_lift. rewrite copy_range_Ok by (rewrite ?(proj1 Hok); ulia). simpl.
  split; [|done]. by apply read_prefix_step.
Qed.

(** Reading a region returns its bytes. *)
Lemma wp_read_region h d v s start n oe se :
  at_state h d v s -> 0 <= start -> 0 <= n -> start + n <= zlen v -> n * BLOCK_SIZE <= u64_max ->
  wp (read_region_blocks (zeros (n * BLOCK_SIZE)) (start, start + n) oe se)
    (fun image d' => image = disk_region v start n /\ at_state h d' v s)
    (fun _ d' => at_state false d' v s /\ h = false) d.
Proof.
  intros Hst H0 Hn Hl Hm. unfold read_region_blocks. cbn [fst snd].
  set (I := fun (image : bytes) (rest : list (Z * Z)) (d' : D) =>
    exists k, 0 <= k <= n /\ at_state h d' v s /\ image = read_prefix v start n k /\
      rest = drop (Z.to_nat k) (enumerate (zrange start (start + n)))).
  assert (Hlen : length (enumerate (zrange start (start + n))) = Z.to_nat n).
  { pose proof (zlen_zrange start (start + n)). unfold enumerate. rewrite length_imap.
    unfold zlen in *. lia. }
  eapply wp_mono; [apply (wp_fold _ I)|..].
  - exists 0. split; [lia|]. split; [done|]. split; [|done]. unfold read_prefix. simpl.
    by replace (n - 0) with n by lia.
  - intros image [i b] rest d' (k & Hk & Hst' & -> & Hrest).
    assert (Hlk : enumerate (zrange start (start + n)) !! Z.to_nat k = Some (i, b)).
    { rewrite <- (Nat.add_0_r (Z.to_nat k)), <- lookup_drop, <- Hrest. done. }
    assert (Hkn : k < n) by (apply lookup_lt_Some in Hlk; lia).
    unfold enumerate in Hlk. rewrite list_lookup_imap in Hlk. unfold zrange in Hlk.
    rewrite lookup_seqZ_lt in Hlk by lia. simpl in Hlk. injection Hlk as Hi Hb.
    assert (i = k) as -> by lia. assert (b = start + k) as -> by lia.
    eapply wp_mono; [apply (wp_read_region_step h d' v s start n oe se k); (done || lia)|..]; [|done].
    intros image d'' [-> Hst'']. exists (k + 1). split; [lia|]. split; [done|]. split; [done|].
    rewrite Z2Nat.inj_add by lia. rewrite <- drop_drop, <- Hrest. done.
  - simpl. intros image d' (k & Hk & Hst' & -> & Hrest). split; [|done].
    assert (k = n) as ->.
    { apply (f_equal length) in Hrest. rewrite length_drop, Hlen in Hrest. simpl in Hrest. lia. }
    unfold read_prefix. replace (n - n) with 0 by lia. by rewrite app_nil_r.
  - done.
Qed.
End LawfulLoops.

(** ** Regions of an image after a region write *)

Lemma disk_region_put_same v start n image :
  0 <= start -> 0 <= n -> start + n <= zlen v -> zlen image = n * BLOCK_SIZE -> Forall is_byte image ->
  disk_region (put v start (chunks n image)) start n = image.
Proof.
  intros. unfold disk_region. rewrite sub_put_same by (rewrite ?zlen_chunks; lia).
  by apply mjoin_chunks.
Qed.

Lemma disk_region_put_other v start n image start' n' :
  0 <= start -> 0 <= n -> start + n <= zlen v -> 0 <= start' -> 0 <= n' ->
  start' + n' <= start \/ start + n <= start' ->
  disk_region (put v start (chunks n image)) start' n' = disk_region v start' n'.
Proof.
  intros. unfold disk_region. f_equal. destruct (decide (start' + n' <= start)).
  - apply sub_put_before; rewrite ?zlen_chunks; lia.
  - apply sub_put_after; rewrite ?zlen_chunks; lia.
Qed.

Lemma image_ok_put N v start n image :
  image_ok N v -> 0 <= start -> 0 <= n -> start + n <= N ->
  zlen image = n * BLOCK_SIZE -> Forall is_byte image ->
  image_ok N (put v start (chunks n image)).
Proof.
  intros (Hl & Hv & HN) ? ? ? Hi Hb. split; [|split; [|done]].
  - rewrite zlen_put; rewrite ?zlen_chunks; lia.
  - apply Forall_put; [done|]. by apply chunks_ok.
Qed.
