(* ===== verification/AllocationDisk.v ===== *)
(** * The allocation image: [allocation_disk.rs]

    The durable form of a [BlockAllocator]: a header, a bitmap with one bit per
    block of the device, zero padding.  [load_allocator] and [store_allocator]
    move it through the allocation region of a device. *)

From S2P Require Import Prelude Bytes Block Allocation Superblock Region.

(** [*b"FSLALOC\0"] *)
Definition ALLOCATION_IMAGE_MAGIC : bytes := [70; 83; 76; 65; 76; 79; 67; 0].
Definition ALLOCATION_IMAGE_VERSION : Z := 1.
Definition MAGIC_OFFSET : Z := 0.
Definition VERSION_OFFSET : Z := 8.
Definition FLAGS_OFFSET : Z := 12.
Definition BITMAP_BYTES_OFFSET : Z := 16.
Definition CHECKSUM_OFFSET : Z := 24.
Definition RESERVED_OFFSET : Z := 28.
Definition HEADER_LEN : Z := 32.

Definition validate_device_geometry `{BlockDevice D} (superblock : Superblock) : M D unit :=
  let! count := iget block_count in
  ilift (ensure (count =? total_blocks superblock)
           (invalid_input "allocation metadata device geometry does not match superblock")).

Definition bitmap_len (superblock : Superblock) : outcome io_error Z :=
  let? bytes := allocation_bitmap_bytes (total_blocks superblock) in
  ok_or (usize_try_from bytes) (invalid_input "allocation bitmap is too large").

Definition region_len (superblock : Superblock) : outcome io_error Z :=
  let? blocks := ok_or (usize_try_from (allocation_blocks superblock))
                   (invalid_input "allocation region block count is too large") in
  ok_or (checked_mul blocks BLOCK_SIZE) (invalid_input "allocation region byte size overflow").

Definition bit_is_set (bitmap : bytes) (block : Z) : outcome io_error bool :=
  let? byte_index := ok_or (usize_try_from (block / 8)) (invalid_data "bitmap index overflow") in
  let? bit_index := ok_or (u32_try_from (block mod 8)) (invalid_data "bitmap bit overflow") in
  let? byte := ok_or (bitmap !! Z.to_nat byte_index) (invalid_data "bitmap index out of range") in
  Ok (negb (Z.land byte (Z.shiftl 1 bit_index) =? 0)).

Definition set_bit (bitmap : bytes) (block : Z) : outcome io_error bytes :=
  let? byte_index := ok_or (usize_try_from (block / 8)) (invalid_input "bitmap index overflow") in
  let? bit_index := ok_or (u32_try_from (block mod 8)) (invalid_input "bitmap bit overflow") in
  let? byte := ok_or (bitmap !! Z.to_nat byte_index) (invalid_input "bitmap index out of range") in
  Ok (<[Z.to_nat byte_index := Z.lor byte (Z.shiftl 1 bit_index)]> bitmap).

Definition validate_bitmap_bits (bitmap : bytes) (superblock : Superblock) : outcome io_error unit :=
  let? reserved := reserved_blocks superblock in
  try? ofor (fun block =>
               let? b := bit_is_set bitmap block in
               ensure (negb b)
                 (invalid_data "allocation bitmap marks reserved metadata as data-owned"))
         (zrange 0 reserved) in
  let? len := ok_or (u64_try_from (zlen bitmap)) (invalid_data "bitmap length overflow") in
  let? bit_capacity := ok_or (checked_mul len 8) (invalid_data "bitmap bit count overflow") in
  ofor (fun block =>
          let? b := bit_is_set bitmap block in
          ensure (negb b) (invalid_data "allocation bitmap has non-zero trailing bits"))
    (zrange (total_blocks superblock) bit_capacity).

Definition encode_image (superblock : Superblock) (bitmap : bytes) : outcome io_error bytes :=
  let? expected := bitmap_len superblock in
  try? ensure (zlen bitmap =? expected)
         (invalid_input "allocation bitmap length does not match filesystem geometry") in
  try? validate_bitmap_bits bitmap superblock in
  let? len := region_len superblock in
  let image := zeros len in
  let? payload_end := ok_or (checked_add HEADER_LEN (zlen bitmap))
                        (invalid_input "allocation image length overflow") in
  try? ensure ((payload_end <=? zlen image) &&
               bool_decide (u64_try_from HEADER_LEN = Some ALLOCATION_IMAGE_HEADER_LEN))
         (invalid_input "allocation image does not fit reserved region") in
  let? image := copy_range image MAGIC_OFFSET (MAGIC_OFFSET + zlen ALLOCATION_IMAGE_MAGIC)
                  ALLOCATION_IMAGE_MAGIC in
  let? image := copy_range image VERSION_OFFSET (VERSION_OFFSET + 4) (u32_le ALLOCATION_IMAGE_VERSION) in
  let? image := copy_range image FLAGS_OFFSET (FLAGS_OFFSET + 4) (u32_le 0) in
  let? bitmap_bytes := ok_or (u64_try_from (zlen bitmap)) (invalid_input "bitmap length overflow") in
  let? image := copy_range image BITMAP_BYTES_OFFSET (BITMAP_BYTES_OFFSET + 8) (u64_le bitmap_bytes) in
  let? image := copy_range image CHECKSUM_OFFSET (CHECKSUM_OFFSET + 4) (u32_le (crc32 bitmap)) in
  let? image := copy_range image RESERVED_OFFSET (RESERVED_OFFSET + 4) (u32_le 0) in
  copy_range image HEADER_LEN payload_end bitmap.

Definition decode_image (image : bytes) (superblock : Superblock) : outcome io_error bytes :=
  let? len := region_len superblock in
  try? ensure ((zlen image =? len) && (HEADER_LEN <=? zlen image))
         (invalid_data "allocation image has invalid region length") in
  let? magic := slice image MAGIC_OFFSET (MAGIC_OFFSET + zlen ALLOCATION_IMAGE_MAGIC) in
  try? ensure (bytes_eqb magic ALLOCATION_IMAGE_MAGIC)
         (invalid_data "invalid allocation image magic") in
  let? version := read_u32 image VERSION_OFFSET in
  try? ensure (version =? ALLOCATION_IMAGE_VERSION)
         (invalid_data "unsupported allocation image version") in
  let? flags := read_u32 image FLAGS_OFFSET in
  let? reserved := read_u32 image RESERVED_OFFSET in
  try? ensure ((flags =? 0) && (reserved =? 0))
         (invalid_data "allocation image reserved fields are non-zero") in
  let? encoded_bytes := read_u64 image BITMAP_BYTES_OFFSET in
  let? expected_bytes := allocation_bitmap_bytes (total_blocks superblock) in
  try? ensure (encoded_bytes =? expected_bytes)
         (invalid_data "allocation bitmap length does not match filesystem geometry") in
  let? bitmap_bytes := ok_or (usize_try_from encoded_bytes)
                         (invalid_data "allocation bitmap is too large") in
  let? payload_end := ok_or (checked_add HEADER_LEN bitmap_bytes)
                        (invalid_data "allocation image length overflow") in
  try? ensure (payload_end <=? zlen image)
         (invalid_data "allocation bitmap exceeds reserved region") in
  let? bitmap := slice image HEADER_LEN payload_end in
  let? checksum := read_u32 image CHECKSUM_OFFSET in
  try? ensure (checksum =? crc32 bitmap) (invalid_data "allocation bitmap checksum mismatch") in
  let? padding := slice_from image payload_end in
  try? ensure (negb (any_nonzero padding)) (invalid_data "allocation image padding is non-zero") in
  try? validate_bitmap_bits bitmap superblock in
  Ok bitmap.

Definition read_region `{BlockDevice D} (superblock : Superblock) : M D bytes :=
  let! len := ilift (region_len superblock) in
  let! range := ilift (allocation_range superblock) in
  read_region_blocks (zeros len) range
    (invalid_input "allocation region offset overflow")
    (invalid_data "allocation block slice mismatch").

Definition write_region `{BlockDevice D} (superblock : Superblock) (image : bytes) : M D unit :=
  let! len := ilift (region_len superblock) in
  do! ilift (ensure (zlen image =? len)
               (invalid_input "allocation image has invalid region length")) in
  let! range := ilift (allocation_range superblock) in
  write_region_blocks image range
    (invalid_input "allocation region offset overflow")
    (invalid_input "allocation block slice mismatch").

(** The middle of [load_allocator]: an allocator with every data block taken,
    from which the blocks whose bit is clear are freed. *)
Definition restore_allocator (superblock : Superblock) (bitmap : bytes)
    : outcome io_error BlockAllocator :=
  let invalid e := invalid_data (allocation_error_fmt e) in
  let? reserved := reserved_blocks superblock in
  let? allocator := map_err invalid (allocator_new (total_blocks superblock) reserved) in
  let? data_blocks := sub_u64 (total_blocks superblock) reserved in
  let? allocator := ofold (fun a _ => let? r := map_err invalid (run_on allocate a) in Ok r.2)
                      allocator (zrange 0 data_blocks) in
  let? allocator :=
    ofold (fun a block =>
             let? b := bit_is_set bitmap block in
             if negb b then let? r := map_err invalid (run_on (free block) a) in Ok r.2 else Ok a)
      allocator (zrange reserved (total_blocks superblock)) in
  try? map_err (fun e => invalid_data (allocation_invariant_error_fmt e)) (validate allocator) in
  Ok allocator.

Definition load_allocator `{BlockDevice D} (superblock : Superblock) : M D BlockAllocator :=
  do! validate_device_geometry superblock in
  let! image := read_region superblock in
  let! bitmap := ilift (decode_image image superblock) in
  ilift (restore_allocator superblock bitmap).

(** The pure part of [store_allocator]: check, render the bitmap, encode. *)
Definition render_allocator (superblock : Superblock) (allocator : BlockAllocator)
    : outcome io_error bytes :=
  let mismatch := invalid_input "allocator geometry does not match superblock" in
  try? ensure (Allocation.total_blocks allocator =? total_blocks superblock) mismatch in
  let? reserved := reserved_blocks superblock in
  try? ensure (Allocation.reserved_blocks allocator =? reserved) mismatch in
  try? map_err (fun e => invalid_input (allocation_invariant_error_fmt e)) (validate allocator) in
  let? len := bitmap_len superblock in
  let? bitmap :=
    ofold (fun bitmap block =>
             let? o := map_err (fun e => invalid_input (allocation_error_fmt e))
                         (is_owned allocator block) in
             if (o : bool) then set_bit bitmap block else Ok bitmap)
      (zeros len) (zrange reserved (total_blocks superblock)) in
  encode_image superblock bitmap.

Definition store_allocator `{BlockDevice D} (superblock : Superblock) (allocator : BlockAllocator)
    : M D unit :=
  do! validate_device_geometry superblock in
  let! image := ilift (render_allocator superblock allocator) in
  do! write_region superblock image in
  flush.

Definition initialize_allocation_region `{BlockDevice D} (superblock : Superblock) : M D unit :=
  do! validate_device_geometry superblock in
  let! len := ilift (bitmap_len superblock) in
  let! image := ilift (encode_image superblock (zeros len)) in
  write_region superblock image.

(** ** Bits *)

(** Bit [b] of a bitmap, as a total function. *)
Definition bitmap_bit (bitmap : bytes) (b : Z) : bool :=
  Z.testbit (default 0 (bitmap !! Z.to_nat (b / 8))) (b mod 8).

Lemma land_shiftl_testbit x i : 0 <= i -> negb (Z.land x (Z.shiftl 1 i) =? 0) = Z.testbit x i.
Proof.
  intros Hi. rewrite Z.shiftl_1_l. destruct (Z.testbit x i) eqn:Hb.
  - apply negb_true_iff, Z.eqb_neq. intros H0.
    assert (Ht : Z.testbit (Z.land x (2 ^ i)) i = true).
    { rewrite Z.land_spec, Hb, Z.pow2_bits_true by done. done. }
    rewrite H0, Z.bits_0 in Ht. done.
  - apply negb_false_iff, Z.eqb_eq. apply Z.bits_inj'. intros k Hk.
    rewrite Z.land_spec, Z.bits_0, Z.pow2_bits_eqb by done.
    destruct (Z.eqb_spec i k) as [->|]; [by rewrite Hb|apply andb_false_r].
Qed.

Lemma bit_is_set_Ok bitmap b :
  0 <= b < zlen bitmap * 8 -> b <= u64_max -> bit_is_set bitmap b = Ok (bitmap_bit bitmap b).
Proof.
  intros Hb Hm. pose proof (Z.mod_pos_bound b 8 ltac:(lia)). pose proof (Z.div_mod b 8 ltac:(lia)).
  unfold bit_is_set, bitmap_bit.
  rewrite usize_try_from_le, u32_try_from_le by ulia. simpl.
  destruct (lookup_lt_is_Some_2 bitmap (Z.to_nat (b / 8))) as [x Hx]; [unfold zlen in Hb; lia|].
  rewrite Hx. simpl. by rewrite land_shiftl_testbit by lia.
Qed.

Lemma set_bit_Ok bitmap b :
  0 <= b < zlen bitmap * 8 -> b <= u64_max -> Forall is_byte bitmap ->
  exists bitmap', set_bit bitmap b = Ok bitmap' /\ zlen bitmap' = zlen bitmap /\
    Forall is_byte bitmap' /\
    (forall c, 0 <= c -> bitmap_bit bitmap' c = if decide (c = b) then true else bitmap_bit bitmap c).
Proof.
  intros Hb Hm Hbytes. pose proof (Z.mod_pos_bound b 8 ltac:(lia)) as Hmod.
  pose proof (Z.div_mod b 8 ltac:(lia)). unfold set_bit.
  rewrite usize_try_from_le, u32_try_from_le by ulia. simpl.
  destruct (lookup_lt_is_Some_2 bitmap (Z.to_nat (b / 8))) as [x Hx]; [unfold zlen in Hb; lia|].
  rewrite Hx. simpl. eexists. split; [done|]. split; [by rewrite zlen_insert|]. split.
  { apply Forall_insert; [done|]. assert (Hxb : is_byte x) by by eapply Forall_lookup_1.
    unfold is_byte, u8_max in *. rewrite Z.shiftl_1_l.
    assert (2 ^ (b mod 8) < 2 ^ 8) by (apply Z.pow_lt_mono_r; lia).
    pose proof (Z.pow_nonneg 2 (b mod 8)). pose proof (lor_bound 8 x (2 ^ (b mod 8))). lia. }
  intros c Hc. unfold bitmap_bit. pose proof (Z.mod_pos_bound c 8 ltac:(lia)).
  pose proof (Z.div_mod c 8 ltac:(lia)). pose proof (Z.div_pos c 8 ltac:(lia) ltac:(lia)).
  pose proof (Z.div_pos b 8 ltac:(lia) ltac:(lia)).
  destruct (decide (c / 8 = b / 8)) as [Hq|Hq].
  - rewrite Hq, list_lookup_insert_eq by (apply lookup_lt_Some in Hx; lia). rewrite Hx. simpl.
    rewrite Z.lor_spec, Z.shiftl_1_l, Z.pow2_bits_eqb by lia.
    case_decide as Hcb; [subst; rewrite Z.eqb_refl; apply orb_true_r|].
    rewrite (proj2 (Z.eqb_neq _ _)) by lia. apply orb_false_r.
  - rewrite list_lookup_insert_ne by lia. rewrite decide_False by naive_solver. done.
Qed.

(** ** The image *)

Definition bitmap_size (sb : Superblock) : Z := (total_blocks sb + 7) / 8.

(** A bitmap marks data blocks only. *)
Definition data_bits_only (sb : Superblock) (bitmap : bytes) : Prop :=
  forall b, 0 <= b < zlen bitmap * 8 -> bitmap_bit bitmap b = true ->
    reserved sb <= b < total_blocks sb.

(** The canonical image of a bitmap. *)
Definition bitmap_image (sb : Superblock) (bitmap : bytes) : bytes :=
  ALLOCATION_IMAGE_MAGIC ++ u32_le ALLOCATION_IMAGE_VERSION ++ u32_le 0 ++ u64_le (zlen bitmap) ++
  u32_le (crc32 bitmap) ++ u32_le 0 ++ bitmap ++
  zeros (allocation_blocks sb * BLOCK_SIZE - HEADER_LEN - zlen bitmap).

#[local] Hint Unfold MAGIC_OFFSET VERSION_OFFSET FLAGS_OFFSET BITMAP_BYTES_OFFSET CHECKSUM_OFFSET
  RESERVED_OFFSET HEADER_LEN bitmap_size ALLOCATION_IMAGE_VERSION : consts.

Lemma zlen_allocation_magic : zlen ALLOCATION_IMAGE_MAGIC = 8.
Proof. done. Qed.
#[local] Hint Rewrite zlen_allocation_magic : zlen.

Lemma bitmap_bit_zeros n b : bitmap_bit (zeros n) b = false.
Proof.
  unfold bitmap_bit, zeros. destruct (replicate _ _ !! _) eqn:Hx; simpl; [|apply Z.testbit_0_l].
  apply lookup_replicate in Hx as [-> _]. apply Z.testbit_0_l.
Qed.

Lemma zeros_data_bits sb n : data_bits_only sb (zeros n).
Proof. intros b _. by rewrite bitmap_bit_zeros. Qed.

Section Image.
Context (sb : Superblock) (Hgeo : geometry sb).

Lemma bitmap_size_bounds :
  0 <= bitmap_size sb /\ total_blocks sb <= bitmap_size sb * 8 < total_blocks sb + 8 /\
  HEADER_LEN + bitmap_size sb <= allocation_blocks sb * BLOCK_SIZE /\
  bitmap_size sb * 8 <= u64_max /\ allocation_blocks sb * BLOCK_SIZE <= u64_max.
Proof.
  pose proof (geometry_bounds sb Hgeo) as Hb. unfold bitmap_size.
  pose proof (Z.div_mod (total_blocks sb + 7) 8 ltac:(lia)).
  pose proof (Z.mod_pos_bound (total_blocks sb + 7) 8 ltac:(lia)). ulia.
Qed.

Lemma bitmap_len_Ok : bitmap_len sb = Ok (bitmap_size sb).
Proof.
  pose proof (geometry_bounds sb Hgeo). pose proof bitmap_size_bounds.
  unfold bitmap_len, allocation_bitmap_bytes. rewrite checked_add_le by ulia. simpl.
  rewrite usize_try_from_le by (fold (bitmap_size sb); ulia). done.
Qed.

Lemma region_len_Ok : region_len sb = Ok (allocation_blocks sb * BLOCK_SIZE).
Proof.
  pose proof bitmap_size_bounds. pose proof (geometry_bounds sb Hgeo). unfold region_len.
  rewrite usize_try_from_le by ulia. simpl. rewrite checked_mul_le by ulia. done.
Qed.

Lemma bit_check_Ok bitmap b e :
  0 <= b < zlen bitmap * 8 -> zlen bitmap * 8 <= u64_max ->
  (let? x := bit_is_set bitmap b in ensure (negb x) e) =
    if bitmap_bit bitmap b then Err e else Ok tt.
Proof. intros. rewrite bit_is_set_Ok by lia. simpl. by destruct (bitmap_bit bitmap b). Qed.

Lemma validate_bitmap_bits_spec bitmap :
  zlen bitmap = bitmap_size sb ->
  owp (validate_bitmap_bits bitmap sb) (fun _ => data_bits_only sb bitmap)
    (fun _ => ~ data_bits_only sb bitmap).
Proof.
  intros Hl. pose proof bitmap_size_bounds as Hs. pose proof (geometry_bounds sb Hgeo) as Hg.
  assert (Hloop : forall a b e, 0 <= a -> b <= zlen bitmap * 8 ->
    owp (ofor (fun k => let? x := bit_is_set bitmap k in ensure (negb x) e) (zrange a b))
      (fun _ => forall k, a <= k < b -> bitmap_bit bitmap k = false)
      (fun _ => exists k, a <= k < b /\ bitmap_bit bitmap k = true)).
  { intros a b e Ha Hb.
    assert (Hin : forall k, k ∈ zrange a b -> a <= k < b) by (intros k; by rewrite elem_of_zrange).
    assert (Hall : forall k, a <= k < b -> k ∈ zrange a b) by (intros k; by rewrite elem_of_zrange).
    assert (Hex : forall l : list Z, (forall k, k ∈ l -> a <= k < b) ->
      owp (ofor (fun k => let? x := bit_is_set bitmap k in ensure (negb x) e) l)
      (fun _ => forall k, k ∈ l -> bitmap_bit bitmap k = false)
      (fun _ => exists k, a <= k < b /\ bitmap_bit bitmap k = true)).
    { induction l as [|k l IH]; intros Hr; simpl; [by intros k ?%not_elem_of_nil|].
      pose proof (Hr k (list_elem_of_here _ _)). rewrite bit_check_Ok by lia.
      destruct (bitmap_bit bitmap k) eqn:Hk; simpl; [by exists k|].
      specialize (IH ltac:(intros; apply Hr; by constructor)).
      destruct (ofor _ l); simpl in *; [|done..]. intros j [->|Hj]%elem_of_cons; auto. }
    specialize (Hex (zrange a b) Hin). destruct (ofor _ (zrange a b)); simpl in *; auto. }
  unfold validate_bitmap_bits. rewrite (reserved_blocks_wf _ (geo_wf _ Hgeo)). simpl.
  assert (0 <= reserved sb <= total_blocks sb) by (unfold reserved; lia).
  pose proof (Hloop 0 (reserved sb)
    (invalid_data "allocation bitmap marks reserved metadata as data-owned")
    ltac:(lia) ltac:(lia)) as H1.
  destruct (ofor _ (zrange 0 (reserved sb))); simpl in *; [|intros Hd; destruct H1 as (k & Hk & Hbk);
    specialize (Hd k ltac:(lia) Hbk); lia|done].
  rewrite u64_try_from_le by ulia. simpl. rewrite checked_mul_le by ulia. simpl.
  pose proof (Hloop (total_blocks sb) (zlen bitmap * 8)
    (invalid_data "allocation bitmap has non-zero trailing bits") ltac:(lia) ltac:(lia)) as H2.
  destruct (ofor _ _); simpl in *; [|intros Hd; destruct H2 as (k & Hk & Hbk);
    specialize (Hd k ltac:(lia) Hbk); lia|done].
  intros b Hb Hbit. destruct (decide (b < reserved sb)); [by rewrite H1 in Hbit by lia|].
  destruct (decide (total_blocks sb <= b)); [by rewrite H2 in Hbit by lia|lia].
Qed.

Lemma encode_image_Ok bitmap :
  zlen bitmap = bitmap_size sb -> data_bits_only sb bitmap ->
  encode_image sb bitmap = Ok (bitmap_image sb bitmap).
Proof.
  intros Hl Hd. pose proof bitmap_size_bounds as Hs.
  unfold encode_image. rewrite bitmap_len_Ok. simpl. rewrite (proj2 (Z.eqb_eq _ _) Hl). simpl.
  pose proof (validate_bitmap_bits_spec bitmap Hl) as Hv.
  destruct (validate_bitmap_bits bitmap sb); simpl in *; [|done..].
  rewrite region_len_Ok. simpl. rewrite checked_add_le by ulia. simpl.
  rewrite (proj2 (Z.leb_le _ _)) by zside. simpl.
  rewrite u64_try_from_le by ulia. simpl.
  change (zeros (allocation_blocks sb * BLOCK_SIZE)) with
    ([] ++ zeros (allocation_blocks sb * BLOCK_SIZE)).
  copy_fields. rewrite app_nil_l. unfold bitmap_image. do 9 f_equal. zside.
Qed.

Lemma zlen_bitmap_image bitmap :
  zlen bitmap = bitmap_size sb -> zlen (bitmap_image sb bitmap) = allocation_blocks sb * BLOCK_SIZE.
Proof. intros Hl. pose proof bitmap_size_bounds. unfold bitmap_image. zside. Qed.

Lemma Forall_bitmap_image bitmap : Forall is_byte bitmap -> Forall is_byte (bitmap_image sb bitmap).
Proof.
  intros. assert (Forall is_byte ALLOCATION_IMAGE_MAGIC) by (repeat constructor; done).
  unfold bitmap_image. auto 20 with bytes.
Qed.

Lemma bitmap_image_reads bitmap :
  zlen bitmap = bitmap_size sb -> Forall is_byte bitmap ->
  let image := bitmap_image sb bitmap in
  sub image MAGIC_OFFSET 8 = ALLOCATION_IMAGE_MAGIC /\
  from_le_bytes (sub image VERSION_OFFSET 4) = ALLOCATION_IMAGE_VERSION /\
  from_le_bytes (sub image FLAGS_OFFSET 4) = 0 /\
  from_le_bytes (sub image RESERVED_OFFSET 4) = 0 /\
  from_le_bytes (sub image BITMAP_BYTES_OFFSET 8) = zlen bitmap /\
  from_le_bytes (sub image CHECKSUM_OFFSET 4) = crc32 bitmap /\
  sub image HEADER_LEN (zlen bitmap) = bitmap /\
  sub image (HEADER_LEN + zlen bitmap) (zlen image - (HEADER_LEN + zlen bitmap)) =
    zeros (zlen image - (HEADER_LEN + zlen bitmap)).
Proof.
  intros Hl Hb image. pose proof bitmap_size_bounds as Hs. pose proof (zlen_bitmap_image bitmap Hl) as Hi.
  fold image in Hi. rewrite Hi. unfold image, bitmap_image. pose proof (crc32_bound bitmap Hb).
  split; [by field_at|].
  do 3 (split; [field_at; by rewrite from_u32_le|]).
  split; [field_at; rewrite from_u64_le by ulia; done|].
  split; [field_at; rewrite from_u32_le by ulia; done|].
  split; [by field_at|].
  repeat (rewrite sub_app_r by zside). rewrite sub_zeros by zside. f_equal.
Qed.

Lemma allocation_bitmap_bytes_geo :
  allocation_bitmap_bytes (total_blocks sb) = Ok (bitmap_size sb).
Proof.
  pose proof (geometry_bounds sb Hgeo). unfold allocation_bitmap_bytes.
  by rewrite checked_add_le by ulia.
Qed.

Lemma decode_bitmap_image bitmap :
  zlen bitmap = bitmap_size sb -> Forall is_byte bitmap -> data_bits_only sb bitmap ->
  decode_image (bitmap_image sb bitmap) sb = Ok bitmap.
Proof.
  intros Hl Hb Hd. pose proof bitmap_size_bounds as Hs. pose proof (geometry_bounds sb Hgeo).
  pose proof (zlen_bitmap_image bitmap Hl) as Hi.
  destruct (bitmap_image_reads bitmap Hl Hb) as (E1 & E2 & E3 & E4 & E5 & E6 & E7 & E8).
  unfold decode_image. rewrite region_len_Ok, allocation_bitmap_bytes_geo. otests.
  rewrite (slice_n _ _ _ 8) by zside. ostep. rewrite E1. read_fields.
  rewrite E2, E3, E4, E5, E6. otests.
  rewrite (slice_n _ _ _ (zlen bitmap)) by ulia. ostep. rewrite E7. otests.
  rewrite slice_from_Ok by ulia. ostep. rewrite E8. otests.
  pose proof (validate_bitmap_bits_spec bitmap Hl) as Hv.
  by destruct (validate_bitmap_bits bitmap sb).
Qed.

(** Only canonical images decode. *)
Lemma decode_image_canonical image bitmap :
  Forall is_byte image -> decode_image image sb = Ok bitmap ->
  zlen bitmap = bitmap_size sb /\ Forall is_byte bitmap /\ data_bits_only sb bitmap /\
  image = bitmap_image sb bitmap.
Proof.
  intros Hb H. pose proof bitmap_size_bounds as Hs. pose proof (geometry_bounds sb Hgeo).
  unfold decode_image in H. rewrite region_len_Ok, allocation_bitmap_bytes_geo in H. ostep.
  cbn [obind] in H. apply obind_Ok in H as (u & Hu & H). apply ensure_Ok in Hu. bool_facts.
  rewrite (slice_n _ _ _ 8) in H by zside. unfold read_u32, read_u64 in H.
  rewrite !read_le_Ok in H by zside. cbn [obind] in H. inv_ok. bool_facts.
  checked_facts. apply bytes_eqb_eq in E. rewrite E2 in *.
  rewrite (slice_n _ _ _ (bitmap_size sb)) in E6 by ulia. rewrite slice_from_Ok in E8 by ulia.
  injection E6 as <-. injection E8 as <-.
  assert (Hl : zlen (sub image HEADER_LEN (bitmap_size sb)) = bitmap_size sb) by zside.
  pose proof (validate_bitmap_bits_spec _ Hl) as Hv. rewrite E10 in Hv. simpl in Hv.
  apply field_u32 in E0, H, H3, E7; [|(done || zside)..]. apply field_u64 in E2; [|(done || zside)..].
  apply field_zeros in E9; [|(done || zside)..].
  split; [done|]. split; [auto with bytes|]. split; [done|].
  unfold bitmap_image. rewrite Hl, <- E7. clear Hv Hl E10.
  replace (allocation_blocks sb * BLOCK_SIZE - HEADER_LEN - bitmap_size sb)
    with (zlen image - (HEADER_LEN + bitmap_size sb)) by lia. clear E7.
  rewrite <- E, <- E0, <- E2, <- E9, <- H at 1. rewrite <- H3.
  autounfold with consts in *. rewrite <- !sub_split by ulia. symmetry. apply sub_all. ulia.
Qed.

Lemma decode_image_no_panic image : Forall is_byte image -> decode_image image sb <> Panic.
Proof.
  intros Hb. pose proof bitmap_size_bounds as Hs. unfold decode_image.
  rewrite region_len_Ok, allocation_bitmap_bytes_geo. ostep. no_panic.
  match goal with |- obind (validate_bitmap_bits ?bm _) _ <> _ =>
    pose proof (validate_bitmap_bits_spec bm ltac:(lia)) as Hv; by destruct (validate_bitmap_bits bm sb)
  end.
Qed.
End Image.

(** ** From bitmap to allocator and back *)

(** The data blocks a bitmap marks. *)
Definition marks (sb : Superblock) (bitmap : bytes) (a : BlockAllocator) : Prop :=
  forall b, b ∈ owned a <-> reserved sb <= b < total_blocks sb /\ bitmap_bit bitmap b = true.

(** The allocator of a geometry. *)
Record allocator_of (sb : Superblock) (a : BlockAllocator) : Prop := {
  of_ok : alloc_ok a;
  of_total : Allocation.total_blocks a = total_blocks sb;
  of_reserved : Allocation.reserved_blocks a = reserved sb;
}.

Section Restore.
Context (sb : Superblock) (Hgeo : geometry sb).

Lemma fill_loop a0 n f :
  allocator_of sb a0 -> owned a0 = ∅ -> n = total_blocks sb - reserved sb ->
  owp (ofold (fun a (_ : Z) => let? r := map_err f (run_on allocate a) in Ok r.2) a0 (zrange 0 n))
    (fun a => allocator_of sb a /\ owned a = data_blocks a) (fun _ : io_error => False).
Proof.
  intros Hof Ho ->. pose proof (ok_reserved _ (of_ok _ _ Hof)) as Hr.
  rewrite (of_total _ _ Hof), (of_reserved _ _ Hof) in Hr.
  eapply owp_mono; [apply (owp_fold_range _ (fun a k =>
    allocator_of sb a /\ Z.of_nat (size (owned a)) = k) (fun _ => False))|..].
  - lia.
  - split; [done|]. by rewrite Ho.
  - intros k a Hk [Ha Hsz]. apply owp_bind, owp_map_err.
    eapply owp_mono; [apply owp_run_on, allocate_spec, (of_ok _ _ Ha)|..]; simpl.
    + intros [b a'] (Hok & Ht & Hrs & _ & Hb & _ & Hown). simpl in *. split.
      * destruct Ha. constructor; congruence.
      * rewrite Hown, size_union, size_singleton by set_solver. lia.
    + intros e (a' & -> & _ & Hfull). rewrite Hfull, size_data_blocks in Hsz.
      * rewrite (of_total _ _ Ha), (of_reserved _ _ Ha) in Hsz. lia.
      * rewrite (of_total _ _ Ha), (of_reserved _ _ Ha). lia.
  - simpl. intros a [Ha Hsz]. split; [done|].
    apply leibniz_equiv, set_subseteq_size_equiv; [apply owned_subseteq|].
    pose proof (size_data_blocks a) as Hd. rewrite (of_total _ _ Ha), (of_reserved _ _ Ha) in Hd. lia.
  - done.
Qed.

Lemma free_loop bitmap a0 f :
  zlen bitmap = bitmap_size sb -> allocator_of sb a0 -> owned a0 = data_blocks a0 ->
  owp (ofold (fun a block =>
           let? b := bit_is_set bitmap block in
           if negb b then let? r := map_err f (run_on (free block) a) in Ok r.2 else Ok a)
         a0 (zrange (reserved sb) (total_blocks sb)))
    (fun a => allocator_of sb a /\ marks sb bitmap a) (fun _ : io_error => False).
Proof.
  intros Hl Hof Ho. pose proof (bitmap_size_bounds sb Hgeo) as Hs.
  pose proof (ok_reserved _ (of_ok _ _ Hof)) as Hr.
  rewrite (of_total _ _ Hof), (of_reserved _ _ Hof) in Hr.
  eapply owp_mono; [apply (owp_fold_range _ (fun a k => allocator_of sb a /\
    forall b, b ∈ owned a <-> reserved sb <= b < total_blocks sb /\
      (b < k -> bitmap_bit bitmap b = true)) (fun _ => False))|..].
  - lia.
  - split; [done|]. intros b. rewrite Ho, elem_of_data_blocks, (of_total _ _ Hof), (of_reserved _ _ Hof).
    naive_solver lia.
  - intros k a Hk [Ha Hown]. rewrite bit_is_set_Ok by ulia. ostep.
    destruct (bitmap_bit bitmap k) eqn:Hbit; ostep.
    + split; [done|]. intros b. rewrite Hown. destruct (decide (b = k)) as [->|]; naive_solver lia.
    + apply owp_bind, owp_map_err.
      eapply owp_mono; [apply owp_run_on, free_spec; [apply (of_ok _ _ Ha)|lia]|..]; simpl.
      * intros [[] a'] (Hok & Ht & Hrs & _ & Hown'). simpl in *. split.
        { destruct Ha. constructor; congruence. }
        intros b. rewrite Hown', elem_of_difference, elem_of_singleton, Hown.
        destruct (decide (b = k)) as [->|]; [|naive_solver lia]. rewrite Hbit. naive_solver lia.
      * intros e (a' & _ & Hn & _). apply Hn, Hown. split; [lia|]. lia.
  - simpl. intros a [Ha Hown]. split; [done|]. intros b. rewrite Hown. naive_solver.
  - done.
Qed.

Lemma restore_allocator_Ok bitmap :
  zlen bitmap = bitmap_size sb ->
  exists a, restore_allocator sb bitmap = Ok a /\ allocator_of sb a /\ marks sb bitmap a.
Proof.
  intros Hl. pose proof (geometry_bounds sb Hgeo) as Hb. apply owp_Ok. unfold restore_allocator.
  rewrite (reserved_blocks_wf _ (geo_wf _ Hgeo)). ostep.
  destruct (allocator_new_ok (total_blocks sb) (reserved sb)) as (a0 & -> & Hok & Ho & Ht & Hr);
    [unfold isize_max; ulia|unfold reserved; lia|]. ostep.
  rewrite sub_u64_le by (unfold reserved; lia). ostep.
  apply owp_bind. eapply owp_mono; [apply fill_loop; done|simpl|done]. intros a1 [Ha1 Ho1].
  apply owp_bind. eapply owp_mono; [apply free_loop; done|simpl|done]. intros a2 [Ha2 Hm].
  rewrite validate_ok by apply (of_ok _ _ Ha2). done.
Qed.

Lemma render_loop a f :
  allocator_of sb a ->
  owp (ofold (fun bitmap block =>
           let? o := map_err f (is_owned a block) in
           if (o : bool) then set_bit bitmap block else Ok bitmap)
         (zeros (bitmap_size sb)) (zrange (reserved sb) (total_blocks sb)))
    (fun bitmap => zlen bitmap = bitmap_size sb /\ Forall is_byte bitmap /\
       data_bits_only sb bitmap /\ marks sb bitmap a) (fun _ : io_error => False).
Proof.
  intros Ha. pose proof (bitmap_size_bounds sb Hgeo) as Hs.
  pose proof (ok_reserved _ (of_ok _ _ Ha)) as Hr.
  rewrite (of_total _ _ Ha), (of_reserved _ _ Ha) in Hr.
  eapply owp_mono; [apply (owp_fold_range _ (fun bitmap k => zlen bitmap = bitmap_size sb /\
    Forall is_byte bitmap /\ forall b, 0 <= b -> bitmap_bit bitmap b = true <-> b ∈ owned a /\ b < k)
    (fun _ => False))|..].
  - lia.
  - split; [zside|]. split; [auto with bytes|]. intros b Hb. split.
    + by rewrite bitmap_bit_zeros.
    + rewrite elem_of_owned, (of_reserved _ _ Ha). lia.
  - intros k bitmap Hk (Hl & Hb & Hbits). rewrite is_owned_spec by (apply (of_ok _ _ Ha) || lia).
    rewrite (of_total _ _ Ha), decide_False, (of_reserved _ _ Ha) by lia. ostep.
    destruct (bool_decide _) eqn:Ho; bool_facts.
    + destruct Ho as [?|Ho]; [lia|].
      destruct (set_bit_Ok bitmap k) as (bm' & -> & Hl' & Hb' & Hbit'); [ulia|ulia|done|]. simpl.
      split; [lia|]. split; [done|]. intros b H0. rewrite Hbit' by done.
      case_decide; subst; [naive_solver lia|]. rewrite Hbits by done. naive_solver lia.
    + simpl. split; [done|]. split; [done|]. intros b H0. rewrite Hbits by done.
      destruct (decide (b = k)) as [->|]; [|naive_solver lia]. naive_solver.
  - simpl. intros bitmap (Hl & Hb & Hbits).
    assert (Hown : forall b, b ∈ owned a -> reserved sb <= b < total_blocks sb).
    { intros b Hb'. apply elem_of_owned in Hb' as [Hb' _].
      by rewrite (of_total _ _ Ha), (of_reserved _ _ Ha) in Hb'. }
    split; [done|]. split; [done|]. split.
    + intros b H0 Hbit. apply Hown, Hbits; [lia|done].
    + intros b. split.
      * intros Ho. pose proof (Hown b Ho). split; [done|]. apply Hbits; [lia|]. split; [done|lia].
      * intros [Hb' Hbit]. apply Hbits in Hbit; [tauto|lia].
  - done.
Qed.

(** [store_allocator] renders every allocator of its geometry. *)
Lemma render_allocator_Ok a : allocator_of sb a ->
  exists bitmap, render_allocator sb a = Ok (bitmap_image sb bitmap) /\
    zlen bitmap = bitmap_size sb /\ Forall is_byte bitmap /\ data_bits_only sb bitmap /\
    marks sb bitmap a.
Proof.
  intros Ha. unfold render_allocator. rewrite (of_total _ _ Ha), (of_reserved _ _ Ha).
  rewrite (reserved_blocks_wf _ (geo_wf _ Hgeo)). ostep. rewrite Z.eqb_refl. ostep.
  rewrite Z.eqb_refl, validate_ok by apply (of_ok _ _ Ha). ostep.
  rewrite bitmap_len_Ok by done. ostep.
  destruct (owp_Ok _ _ (render_loop a (fun e => invalid_input (allocation_error_fmt e)) Ha))
    as (bitmap & -> & Hl & Hb & Hd & Hm). ostep.
  exists bitmap. by rewrite encode_image_Ok.
Qed.

(** Loading what was rendered gives the same allocator. *)
Lemma restore_render a bitmap :
  allocator_of sb a -> zlen bitmap = bitmap_size sb -> marks sb bitmap a ->
  restore_allocator sb bitmap = Ok a.
Proof.
  intros Ha Hl Hm. destruct (restore_allocator_Ok bitmap Hl) as (a' & -> & Ha' & Hm').
  f_equal. destruct Ha, Ha'. apply alloc_ok_ext; [done|done|congruence|congruence|].
  apply set_eq. intros b. by rewrite (Hm' b), (Hm b).
Qed.
End Restore.

(** ** On a device *)

(** The allocator a disk image holds. *)
Definition allocator_on_disk (sb : Superblock) (v : list block) : outcome io_error BlockAllocator :=
  let? bitmap := decode_image (disk_region v (allocation_start sb) (allocation_blocks sb)) sb in
  restore_allocator sb bitmap.

(** The disk image after an allocation image is written. *)
Definition with_allocation (sb : Superblock) (image : bytes) (v : list block) : list block :=
  put v (allocation_start sb) (chunks (allocation_blocks sb) image).

Section Device.
Context (sb : Superblock) (Hgeo : geometry sb).

Lemma store_allocator_eq `{BlockDevice D} a image (d : D) :
  block_count d = total_blocks sb -> render_allocator sb a = Ok image ->
  zlen image = allocation_blocks sb * BLOCK_SIZE ->
  store_allocator sb a d =
    (do! write_seq (region_writes (allocation_start sb) (allocation_blocks sb) image) in flush) d.
Proof.
  intros Hc Hr Hl. pose proof (geometry_bounds sb Hgeo). pose proof (bitmap_size_bounds sb Hgeo).
  unfold store_allocator, validate_device_geometry, write_region, ibind, iget, ilift.
  rewrite Hc, Z.eqb_refl, Hr, region_len_Ok by done. ostep. rewrite Hl, Z.eqb_refl. ostep.
  rewrite (allocation_range_wf _ (geo_wf _ Hgeo)). ostep.
  rewrite write_region_blocks_eq by ulia. done.
Qed.

Lemma initialize_allocation_region_eq `{BlockDevice D} (d : D) :
  block_count d = total_blocks sb ->
  initialize_allocation_region sb d =
    write_seq (region_writes (allocation_start sb) (allocation_blocks sb)
                 (bitmap_image sb (zeros (bitmap_size sb)))) d.
Proof.
  intros Hc. pose proof (geometry_bounds sb Hgeo). pose proof (bitmap_size_bounds sb Hgeo).
  assert (Hl : zlen (zeros (bitmap_size sb)) = bitmap_size sb) by zside.
  unfold initialize_allocation_region, validate_device_geometry, write_region, ibind, iget, ilift.
  rewrite Hc, Z.eqb_refl, bitmap_len_Ok by done. ostep.
  rewrite encode_image_Ok, region_len_Ok by (done || apply zeros_data_bits). ostep.
  rewrite zlen_bitmap_image, Z.eqb_refl by done. ostep.
  rewrite (allocation_range_wf _ (geo_wf _ Hgeo)). ostep.
  rewrite write_region_blocks_eq by (rewrite ?zlen_bitmap_image by done; ulia). done.
Qed.

Context `{DeviceLaws D}.
Implicit Types (d : D) (v s : list block).

Lemma wp_load_allocator h d v s :
  at_state h d v s -> zlen v = total_blocks sb ->
  wp (load_allocator sb)
    (fun a d' => at_state h d' v s /\ allocator_on_disk sb v = Ok a)
    (fun e d' => at_state false d' v s /\ (h = true -> allocator_on_disk sb v = Err e)) d.
Proof.
  intros Hst Hlen. pose proof (geometry_bounds sb Hgeo) as Hg. pose proof (bitmap_size_bounds sb Hgeo).
  unfold load_allocator, validate_device_geometry, read_region.
  apply wp_bind, wp_bind, wp_get, wp_lift. rewrite (at_state_count _ _ _ _ Hst), Hlen, Z.eqb_refl. ostep.
  apply wp_bind, wp_bind, wp_lift. rewrite region_len_Ok by done. ostep.
  apply wp_bind, wp_lift. rewrite (allocation_range_wf _ (geo_wf _ Hgeo)). ostep.
  eapply wp_mono; [eapply wp_read_region; [done|ulia..]|simpl|simpl].
  2: { intros e d' [Hc ->]. done. }
  intros image d' [-> Hst']. unfold allocator_on_disk.
  pose proof (Forall_disk_region _ _ (allocation_start sb) (allocation_blocks sb)
                (at_state_image _ _ _ _ Hst)) as Hb.
  set (image := disk_region _ _ _) in *.
  apply wp_bind, wp_lift. destruct (decode_image image sb) as [bitmap|e|] eqn:Hd; simpl.
  - apply decode_image_canonical in Hd as (Hl & _); [|done..].
    destruct (restore_allocator_Ok sb Hgeo bitmap Hl) as (a & Ha & _). apply wp_lift. by rewrite Ha.
  - by split; [eapply at_state_weaken|].
  - by apply decode_image_no_panic in Hd.
Qed.

(** A successful store makes the rendered image durable; a failed one leaves
    the durable image as it was. *)
Lemma wp_store_allocator h d v s a image :
  at_state h d v s -> zlen v = total_blocks sb -> render_allocator sb a = Ok image ->
  zlen image = allocation_blocks sb * BLOCK_SIZE -> Forall is_byte image ->
  wp (store_allocator sb a)
    (fun _ d' => at_state h d' (with_allocation sb image v) (with_allocation sb image v))
    (fun _ d' => crashed d' s /\ h = false) d.
Proof.
  intros Hst Hlen Hr Hl Hb. pose proof (geometry_bounds sb Hgeo). pose proof (bitmap_size_bounds sb Hgeo).
  unfold wp. rewrite (store_allocator_eq a image) by (rewrite ?(at_state_count _ _ _ _ Hst); done).
  apply wp_bind. eapply wp_mono; [eapply (wp_write_seq_region _ _ v s); (done || ulia)|..].
  - simpl. intros [] d' Hst'. by apply wp_flush.
  - done.
Qed.
End Device.

(** A stored allocator is what is loaded back. *)
Lemma allocator_on_disk_stored sb v a :
  geometry sb -> image_ok (total_blocks sb) v -> allocator_of sb a ->
  exists image, render_allocator sb a = Ok image /\
    zlen image = allocation_blocks sb * BLOCK_SIZE /\ Forall is_byte image /\
    allocator_on_disk sb (with_allocation sb image v) = Ok a.
Proof.
  intros Hgeo Hv Ha. pose proof (geometry_bounds sb Hgeo).
  destruct (render_allocator_Ok sb Hgeo a Ha) as (bitmap & Hr & Hl & Hb & Hd & Hm).
  exists (bitmap_image sb bitmap). split; [done|].
  assert (Hli := zlen_bitmap_image sb Hgeo bitmap Hl). split; [done|].
  assert (Hbi := Forall_bitmap_image sb bitmap Hb). split; [done|].
  unfold allocator_on_disk, with_allocation.
  rewrite disk_region_put_same by (done || (destruct Hv; lia)).
  rewrite decode_bitmap_image by done. ostep. by apply restore_render.
Qed.

(** ** The claims *)

(** The allocation image is exact: a byte string of the region's size
    decodes exactly when it is the canonical image (magic, version, zero
    flags, bitmap length, CRC over the image with the CRC field zeroed, zero
    padding) of a bitmap with no bit set outside the data blocks; decoding
    arbitrary bytes never panics. *)
Theorem allocation_image_exact sb image bitmap :
  geometry sb -> Forall is_byte image -> zlen image = allocation_blocks sb * BLOCK_SIZE ->
  decode_image image sb <> Panic /\
  (decode_image image sb = Ok bitmap <->
     zlen bitmap = bitmap_size sb /\ Forall is_byte bitmap /\ data_bits_only sb bitmap /\
     image = bitmap_image sb bitmap).
Proof.
  intros Hgeo Hb Hl. split; [by apply decode_image_no_panic|]. split.
  - by apply decode_image_canonical.
  - intros (? & ? & ? & ->). by apply decode_bitmap_image.
Qed.

(** What [store_allocator] writes, [load_allocator] returns: on a device
    that does not fail, storing an allocator of the superblock's geometry
    succeeds, is durable, and loading it again gives the same allocator;
    blocks outside the allocation region are untouched. *)
Theorem allocator_store_load `{DeviceLaws D} sb a (d : D) v s :
  geometry sb -> allocator_of sb a -> at_state true d v s -> zlen v = total_blocks sb ->
  exists d1, store_allocator sb a d = (Ok tt, d1) /\ durable d1 = volatile d1 /\
    (forall b, 0 <= b -> b < allocation_start sb \/ inode_start sb <= b ->
       volatile d1 !! Z.to_nat b = v !! Z.to_nat b) /\
    exists d2, load_allocator sb d1 = (Ok a, d2) /\ volatile d2 = volatile d1 /\ durable d2 = durable d1.
Proof.
  intros Hgeo Ha Hst Hlen. pose proof (geometry_bounds sb Hgeo).
  pose proof (at_state_image _ _ _ _ Hst) as Hv. rewrite Hlen in Hv.
  destruct (allocator_on_disk_stored sb v a Hgeo Hv Ha) as (image & Hren & Hl & Hb & Hdisk).
  pose proof (wp_store_allocator sb Hgeo true d v s a image Hst Hlen Hren Hl Hb) as Hs. unfold wp in Hs.
  destruct (store_allocator sb a d) as [[[]|e|] d1]; [|by destruct Hs as [_ Hs]|done].
  pose proof Hs as (_ & Hv1 & Hd1 & _). exists d1. split; [done|]. split; [congruence|]. split.
  - intros b Hb0 Hout. rewrite Hv1. unfold with_allocation. apply lookup_put_outside; rewrite ?zlen_chunks; lia.
  - assert (Hlen' : zlen (with_allocation sb image v) = total_blocks sb).
    { unfold with_allocation. rewrite zlen_put; rewrite ?zlen_chunks by lia; lia. }
    pose proof (wp_load_allocator sb Hgeo true d1 _ _ Hs Hlen') as Hld. unfold wp in Hld. rewrite Hdisk in Hld.
    destruct (load_allocator sb d1) as [[a'|e|] d2]; [|by destruct Hld as [_ Hld]; specialize (Hld eq_refl)|done].
    destruct Hld as [(_ & Hv2 & Hd2 & _) [= <-]]. exists d2. split; [done|]. split; congruence.
Qed.
