(* ===== verification/Journal.v ===== *)
(** * The redo log: [journal.rs]

    [JournalLog], the in-memory log with its one active transaction, and
    [JournalImage], a crash-truncated log and its replay.  What a log means is
    [committed_txs]: the write lists of the transactions it commits. *)

From S2P Require Import Prelude Bytes Block.

Abbreviation TransactionId := Z.

Inductive JournalEntry : Type :=
| Begin (txid : TransactionId)
| Write (txid : TransactionId) (b : Z) (data : block)
| Commit (txid : TransactionId).

#[global] Instance JournalEntry_eq_dec : EqDecision JournalEntry.
Proof. solve_decision. Defined.

Record JournalImage : Type := mkJournalImage { image_entries : list JournalEntry }.

Definition invalid_journal (message : string) : io_error := invalid_data message.

(** [replay_into]: the state is the [BTreeMap] of home blocks. *)
Definition replay_step (acc : option TransactionId * list (Z * block) * Z) (entry : JournalEntry)
    : M (gmap Z block) (option TransactionId * list (Z * block) * Z) :=
  let '(active, pending, replayed) := acc in
  match entry with
  | Begin txid =>
      do! ilift (ensure (bool_decide (active = None)) (invalid_journal "nested journal transaction")) in
      iret (Some txid, [], replayed)
  | Write txid b data =>
      do! ilift (ensure (bool_decide (active = Some txid))
                   (invalid_journal "journal write does not match active transaction")) in
      iret (active, pending ++ [(b, data)], replayed)
  | Commit txid =>
      do! ilift (ensure (bool_decide (active = Some txid))
                   (invalid_journal "journal commit does not match active transaction")) in
      do! ifor (fun '(b, data) => iset (fun home => <[b := data]> home)) pending in
      let! replayed := ilift (ok_or (checked_add replayed 1)
                         (invalid_journal "committed transaction count overflowed usize")) in
      iret (None, [], replayed)
  end.

Definition replay_into (self : JournalImage) : M (gmap Z block) Z :=
  let! acc := ifold replay_step (None, [], 0) (image_entries self) in
  iret acc.2.

Definition image_validate (self : JournalImage) : outcome io_error unit :=
  try? run_on (replay_into self) ∅ in Ok tt.

Record JournalLog : Type := mkJournalLog {
  entries : list JournalEntry;
  active : option TransactionId;
  next_txid : TransactionId;
}.

Definition log_new : JournalLog := mkJournalLog [] None 0.

Definition require_active (self : JournalLog) (txid : TransactionId) : outcome io_error unit :=
  ensure (bool_decide (active self = Some txid)) (invalid_input "transaction id is not active").

Definition begin : M JournalLog TransactionId :=
  let! self := iget id in
  do! ilift (ensure (bool_decide (active self = None))
               (IoError WouldBlock "a journal transaction is already active")) in
  let txid := next_txid self in
  let! next := ilift (ok_or (checked_add (next_txid self) 1)
                        (other_error "journal transaction id exhausted")) in
  do! iset (fun _ => mkJournalLog (entries self ++ [Begin txid]) (Some txid) next) in
  iret txid.

Definition write (txid : TransactionId) (b : Z) (data : block) : M JournalLog unit :=
  let! self := iget id in
  do! ilift (require_active self txid) in
  iset (fun _ => mkJournalLog (entries self ++ [Write txid b data]) (active self) (next_txid self)).

Definition commit (txid : TransactionId) : M JournalLog unit :=
  let! self := iget id in
  do! ilift (require_active self txid) in
  iset (fun _ => mkJournalLog (entries self ++ [Commit txid]) None (next_txid self)).

Definition crash_prefix (self : JournalLog) (durable_entries : Z) : outcome io_error JournalImage :=
  if zlen (entries self) <? durable_entries then
    Err (invalid_input "crash prefix exceeds journal length")
  else
    let? prefix := slice (entries self) 0 durable_entries in
    Ok (mkJournalImage prefix).

Definition durable_image (self : JournalLog) : JournalImage := mkJournalImage (entries self).

(** ** What a log means *)

(** The write lists of the committed transactions, in order; [None] when the
    entries are not a sequence of transactions (the last possibly open). *)
Fixpoint scan (active : option TransactionId) (pending : list (Z * block)) (es : list JournalEntry)
    : option (list (list (Z * block))) :=
  match es with
  | [] => Some []
  | Begin txid :: es' => if bool_decide (active = None) then scan (Some txid) [] es' else None
  | Write txid b data :: es' =>
      if bool_decide (active = Some txid) then scan active (pending ++ [(b, data)]) es' else None
  | Commit txid :: es' =>
      if bool_decide (active = Some txid) then cons pending <$> scan None [] es' else None
  end.

Definition committed_txs (es : list JournalEntry) : option (list (list (Z * block))) := scan None [] es.

(** Installing writes in a map of home blocks. *)
Definition install (ws : list (Z * block)) (home : gmap Z block) : gmap Z block :=
  foldl (fun home '(b, data) => <[b := data]> home) home ws.

Lemma install_app ws1 ws2 home : install (ws1 ++ ws2) home = install ws2 (install ws1 home).
Proof. apply foldl_app. Qed.

Lemma ifor_install ws home :
  ifor (E:=io_error) (fun '(b, data) => iset (fun home : gmap Z block => <[b := data]> home)) ws home =
    (Ok tt, install ws home).
Proof.
  revert home. induction ws as [|[b data] ws IH]; intros home; [done|].
  simpl. unfold ibind, iset at 1. apply IH.
Qed.

(** ** Replay *)

Lemma replay_step_eq act pending n entry home :
  n + 1 <= u64_max ->
  replay_step (act, pending, n) entry home =
    match entry with
    | Begin txid =>
        if bool_decide (act = None) then (Ok (Some txid, [], n), home)
        else (Err (invalid_journal "nested journal transaction"), home)
    | Write txid b data =>
        if bool_decide (act = Some txid) then (Ok (act, pending ++ [(b, data)], n), home)
        else (Err (invalid_journal "journal write does not match active transaction"), home)
    | Commit txid =>
        if bool_decide (act = Some txid) then (Ok (None, [], n + 1), install pending home)
        else (Err (invalid_journal "journal commit does not match active transaction"), home)
    end.
Proof.
  intros Hn. destruct entry as [t|t b data|t]; simpl; unfold ibind, ilift, ensure;
    case_bool_decide; simpl; try done.
  rewrite ifor_install. by rewrite checked_add_le by lia.
Qed.

Lemma replay_loop es : forall act pending n home,
  zlen es + n <= u64_max -> 0 <= n ->
  match scan act pending es with
  | Some txs => exists act' pending',
      ifold replay_step (act, pending, n) es home =
        (Ok (act', pending', n + zlen txs), install (mjoin txs) home)
  | None => exists e home', ifold replay_step (act, pending, n) es home = (Err e, home')
  end.
Proof.
  induction es as [|e es IH]; intros act pending n home Hn H0; [by do 2 eexists; rewrite Z.add_0_r|].
  rewrite zlen_cons in Hn. pose proof (zlen_nonneg es). cbn [ifold]. unfold ibind.
  rewrite replay_step_eq by lia.
  destruct e as [t|t b data|t]; cbn [scan]; case_bool_decide as Hact; [|by eauto| |by eauto| |by eauto].
  - apply IH; lia.
  - apply IH; lia.
  - specialize (IH None [] (n + 1) (install pending home) ltac:(lia) ltac:(lia)).
    destruct (scan None [] es) as [txs|]; simpl; [|exact IH].
    destruct IH as (act' & pending' & ->). exists act', pending'.
    rewrite zlen_cons, <- install_app. by replace (n + (1 + zlen txs)) with (n + 1 + zlen txs) by lia.
Qed.

(** Replay installs exactly the committed transactions, in order, and rejects
    exactly the malformed logs. *)
Lemma replay_into_spec self home :
  zlen (image_entries self) <= u64_max ->
  match committed_txs (image_entries self) with
  | Some txs => replay_into self home = (Ok (zlen txs), install (mjoin txs) home)
  | None => exists e home', replay_into self home = (Err e, home')
  end.
Proof.
  intros Hl. pose proof (replay_loop (image_entries self) None [] 0 home ltac:(lia) ltac:(lia)) as H.
  unfold committed_txs, replay_into, ibind. destruct (scan _ _ _) as [txs|].
  - destruct H as (act' & pending' & ->). done.
  - destruct H as (e & home' & ->). eauto.
Qed.

(** ** The log's state machine *)

(** A transaction in the log. *)
Record transaction : Type := mkTransaction { tx_id : TransactionId; tx_writes : list (Z * block) }.

Definition write_entries (t : TransactionId) (ws : list (Z * block)) : list JournalEntry :=
  (fun w => Write t w.1 w.2) <$> ws.
Definition tx_entries (tx : transaction) : list JournalEntry :=
  Begin (tx_id tx) :: write_entries (tx_id tx) (tx_writes tx) ++ [Commit (tx_id tx)].

(** The entries of an open transaction. *)
Definition open_entries (open : option transaction) : list JournalEntry :=
  match open with
  | None => []
  | Some tx => Begin (tx_id tx) :: write_entries (tx_id tx) (tx_writes tx)
  end.

(** The log holds finished transactions and at most one open one; identifiers
    were handed out in increasing order. *)
Record log_holds (log : JournalLog) (txs : list transaction) (open : option transaction) : Prop := {
  log_entries : entries log = mjoin (tx_entries <$> txs) ++ open_entries open;
  log_active : active log = tx_id <$> open;
  log_ids : forall tx, tx ∈ txs \/ open = Some tx -> 0 <= tx_id tx < next_txid log;
  log_nodup : NoDup (tx_id <$> txs ++ option_list open);
  log_next : is_u64 (next_txid log);
}.

Lemma log_new_holds : log_holds log_new [] None.
Proof.
  split; try done; simpl.
  - intros tx [?%not_elem_of_nil|?]; done.
  - constructor.
Qed.

Lemma begin_spec log txs open :
  log_holds log txs open ->
  wp begin
    (fun t log' => open = None /\ t = next_txid log /\ next_txid log' = t + 1 /\
       log_holds log' txs (Some (mkTransaction t [])))
    (fun _ log' => log' = log /\ (open <> None \/ next_txid log = u64_max)) log.
Proof.
  intros []. unfold wp, begin, ibind, iget, ilift, id. rewrite log_active0.
  unfold ensure. case_bool_decide as Ho; simpl.
  2: { split; [done|]. left. by destruct open. }
  assert (open = None) as -> by by destruct open. unfold checked_add.
  destruct (next_txid log + 1 <=? u64_max) eqn:Hn; bool_facts; simpl; [|split; [done|right; ulia]].
  split; [done|]. split; [done|]. split; [done|]. split; simpl.
  - rewrite log_entries0. simpl. by rewrite app_nil_r.
  - done.
  - intros tx [Hin|[= <-]]; simpl; [pose proof (log_ids0 tx (or_introl Hin)); lia|ulia].
  - simpl in log_nodup0. rewrite app_nil_r in log_nodup0.
    rewrite fmap_app. apply NoDup_app. split; [done|]. split; [|apply NoDup_singleton].
    intros t Ht Ht'. apply list_elem_of_singleton in Ht' as ->. simpl in Ht.
    apply list_elem_of_fmap in Ht as (tx & Heq & Hin). pose proof (log_ids0 tx (or_introl Hin)). lia.
  - ulia.
Qed.

Lemma write_spec log txs open t b data :
  log_holds log txs open ->
  wp (write t b data)
    (fun _ log' => exists ws, open = Some (mkTransaction t ws) /\ next_txid log' = next_txid log /\
       log_holds log' txs (Some (mkTransaction t (ws ++ [(b, data)]))))
    (fun _ log' => log' = log /\ tx_id <$> open <> Some t) log.
Proof.
  intros []. unfold wp, write, require_active, ibind, iget, ilift, id. rewrite log_active0.
  unfold ensure. case_bool_decide as Ho; simpl; [|done].
  destruct open as [[t' ws]|]; simplify_eq/=. exists ws. split; [done|]. split; [done|].
  split; simpl; [| done | | by rewrite fmap_app in * | done].
  - rewrite log_entries0. simpl. rewrite <- app_assoc. simpl. unfold write_entries.
    by rewrite fmap_app.
  - intros tx [Hin|[= <-]]; [by apply log_ids0; left|].
    pose proof (log_ids0 _ (or_intror eq_refl)). done.
Qed.

Lemma commit_spec log txs open t :
  log_holds log txs open ->
  wp (commit t)
    (fun _ log' => exists ws, open = Some (mkTransaction t ws) /\ next_txid log' = next_txid log /\
       log_holds log' (txs ++ [mkTransaction t ws]) None)
    (fun _ log' => log' = log /\ tx_id <$> open <> Some t) log.
Proof.
  intros []. unfold wp, commit, require_active, ibind, iget, ilift, id. rewrite log_active0.
  unfold ensure. case_bool_decide as Ho; simpl; [|done].
  destruct open as [[t' ws]|]; simplify_eq/=. exists ws. split; [done|]. split; [done|].
  split; simpl; [| done | | | done].
  - rewrite log_entries0, app_nil_r, fmap_app. simpl.
    rewrite join_app. simpl. unfold tx_entries. simpl. rewrite app_nil_r, <- app_assoc. done.
  - intros tx [[Hin|Hin]%elem_of_app|?]; [by apply log_ids0; left| |done].
    apply list_elem_of_singleton in Hin as ->. pose proof (log_ids0 _ (or_intror eq_refl)). done.
  - rewrite app_nil_r. done.
Qed.

(** ** Scanning well-formed logs *)

Lemma scan_writes t ws : forall pending es,
  scan (Some t) pending (write_entries t ws ++ es) = scan (Some t) (pending ++ ws) es.
Proof.
  induction ws as [|[b data] ws IH]; intros pending es; simpl; [by rewrite app_nil_r|].
  rewrite bool_decide_eq_true_2 by done. rewrite IH, <- app_assoc. done.
Qed.

Lemma scan_tx tx es : scan None [] (tx_entries tx ++ es) = cons (tx_writes tx) <$> scan None [] es.
Proof.
  unfold tx_entries. simpl. rewrite <- app_assoc, scan_writes. simpl.
  by rewrite bool_decide_eq_true_2.
Qed.

Lemma scan_txs txs es :
  scan None [] (mjoin (tx_entries <$> txs) ++ es) = app (tx_writes <$> txs) <$> scan None [] es.
Proof.
  induction txs as [|tx txs IH].
  - simpl. destruct (scan None [] es); done.
  - change (mjoin (tx_entries <$> tx :: txs)) with (tx_entries tx ++ mjoin (tx_entries <$> txs)).
    rewrite <- app_assoc, scan_tx, IH. by destruct (scan None [] es).
Qed.

Lemma scan_open open : scan None [] (open_entries open) = Some [].
Proof.
  destruct open as [[t ws]|]; [|done]. simpl.
  rewrite <- (app_nil_r (write_entries t ws)), scan_writes. done.
Qed.

(** A proper prefix of a transaction's entries is open. *)
Lemma tx_prefix tx es k : (k < length (tx_entries tx))%nat ->
  exists ws, take k (tx_entries tx ++ es) = open_entries ws.
Proof.
  intros Hk. rewrite take_app_le by lia. destruct k as [|k]; [by exists None|].
  exists (Some (mkTransaction (tx_id tx) (take k (tx_writes tx)))). simpl. f_equal.
  unfold tx_entries in Hk. simpl in Hk. rewrite length_app in Hk. simpl in Hk.
  rewrite take_app_le by lia. unfold write_entries. by rewrite fmap_take.
Qed.

(** How many of the transactions have all their entries among the first [k]. *)
Fixpoint whole_within (k : nat) (txs : list transaction) : nat :=
  match txs with
  | [] => 0
  | tx :: txs' =>
      if decide (length (tx_entries tx) <= k)%nat then S (whole_within (k - length (tx_entries tx)) txs') else 0
  end.

Lemma whole_within_le txs : forall k, (whole_within k txs <= length txs)%nat.
Proof. induction txs as [|tx txs IH]; intros k; cbn [whole_within length]; [lia|]. case_decide; [specialize (IH (k - length (tx_entries tx))%nat)|]; lia. Qed.

(** A prefix of a well-formed log commits exactly the transactions it holds whole. *)
Lemma committed_prefix txs open : forall k,
  committed_txs (take k (mjoin (tx_entries <$> txs) ++ open_entries open)) =
    Some (take (whole_within k txs) (tx_writes <$> txs)).
Proof.
  unfold committed_txs. induction txs as [|tx txs IH]; intros k; cbn [whole_within].
  - simpl. destruct open as [[t ws]|]; simpl; [|by rewrite take_nil].
    destruct k as [|k]; [done|]. simpl. unfold write_entries. rewrite <- fmap_take.
    fold (write_entries t (take k ws)).
    by rewrite <- (app_nil_r (write_entries t _)), scan_writes.
  - change (mjoin (tx_entries <$> tx :: txs)) with (tx_entries tx ++ mjoin (tx_entries <$> txs)).
    rewrite <- app_assoc. case_decide as Hk.
    + rewrite take_app_ge, scan_tx, IH by lia. done.
    + destruct (tx_prefix tx (mjoin (tx_entries <$> txs) ++ open_entries open) k) as [ws ->]; [lia|]. apply scan_open.
Qed.

(** ** The claims *)

(** The calls a client makes on the log; a call that fails leaves the log as
    it was and the client goes on. *)
Inductive log_call : Type :=
  CallBegin | CallWrite (t : TransactionId) (b : Z) (data : block) | CallCommit (t : TransactionId).
Abbreviation log_reply := (outcome io_error (option TransactionId)).

Definition log_do (c : log_call) : M JournalLog (option TransactionId) :=
  match c with
  | CallBegin => let! t := begin in iret (Some t)
  | CallWrite t b data => do! write t b data in iret None
  | CallCommit t => do! commit t in iret None
  end.

(** What the log is: finished transactions, the one being written, and the
    next identifier. *)
Record abstract_log : Type := mkAbstractLog {
  finished : list transaction;
  writing : option transaction;
  next_id : TransactionId;
}.

(** What a call means. *)
Definition log_spec (c : log_call) (s : abstract_log) : log_reply * abstract_log :=
  match c, writing s with
  | CallBegin, None =>
      if next_id s =? u64_max then (Err (other_error "journal transaction id exhausted"), s)
      else (Ok (Some (next_id s)), mkAbstractLog (finished s) (Some (mkTransaction (next_id s) [])) (next_id s + 1))
  | CallBegin, Some _ => (Err (IoError WouldBlock "a journal transaction is already active"), s)
  | CallWrite t b data, Some (mkTransaction t' ws) =>
      if t =? t' then (Ok None, mkAbstractLog (finished s) (Some (mkTransaction t (ws ++ [(b, data)]))) (next_id s))
      else (Err (invalid_input "transaction id is not active"), s)
  | CallCommit t, Some (mkTransaction t' ws) =>
      if t =? t' then (Ok None, mkAbstractLog (finished s ++ [mkTransaction t ws]) None (next_id s))
      else (Err (invalid_input "transaction id is not active"), s)
  | _, None => (Err (invalid_input "transaction id is not active"), s)
  end.

Fixpoint log_calls {S} (step : log_call -> S -> log_reply * S) (cs : list log_call) (s : S) : list log_reply * S :=
  match cs with
  | [] => ([], s)
  | c :: cs' => let '(x, s1) := step c s in let '(xs, s2) := log_calls step cs' s1 in (x :: xs, s2)
  end.

Abbreviation log_refines := (fun log s => log_holds log (finished s) (writing s) /\ next_txid log = next_id s).

Lemma log_do_refines c log s : log_refines log s ->
  (log_do c log).1 = (log_spec c s).1 /\ log_refines (log_do c log).2 (log_spec c s).2.
Proof.
  intros [Hlog Hnext]. destruct s as [txs open nxt]. cbn [finished writing next_id] in *.
  pose proof (log_active _ _ _ Hlog) as Ha. pose proof (log_next _ _ _ Hlog) as Hn.
  destruct c as [|t b data|t]; unfold log_do, log_spec; cbn [finished writing next_id].
  - pose proof (begin_spec log txs open Hlog) as Hs. unfold wp, begin, ibind, iget, ilift, iset, iret, Datatypes.id in *.
    rewrite Ha in *. destruct open as [tx|]; cbn in *; [by split_and!|]. unfold checked_add in *. subst nxt.
    destruct (next_txid log =? u64_max) eqn:Hmax; bool_facts.
    + rewrite (proj2 (Z.leb_gt _ _)) by lia. cbn. by split_and!.
    + rewrite (proj2 (Z.leb_le _ _)) in Hs |- * by ulia. cbn in *. by destruct Hs as (_ & _ & _ & Hs).
  - pose proof (write_spec log txs open t b data Hlog) as Hs.
    unfold wp, write, require_active, ibind, iget, ilift, iset, iret, Datatypes.id in *. rewrite Ha in *.
    destruct open as [[t' ws]|]; cbn in *; [|by split_and!]. unfold ensure in *. case_bool_decide as Ht.
    + injection Ht as ->. rewrite Z.eqb_refl. cbn in *. destruct Hs as (ws' & [= <-] & _ & Hs). by split_and!.
    + rewrite (proj2 (Z.eqb_neq _ _)) by congruence. cbn in *. by split_and!.
  - pose proof (commit_spec log txs open t Hlog) as Hs.
    unfold wp, commit, require_active, ibind, iget, ilift, iset, iret, Datatypes.id in *. rewrite Ha in *.
    destruct open as [[t' ws]|]; cbn in *; [|by split_and!]. unfold ensure in *. case_bool_decide as Ht.
    + injection Ht as ->. rewrite Z.eqb_refl. cbn in *. destruct Hs as (ws' & [= <-] & _ & Hs). by split_and!.
    + rewrite (proj2 (Z.eqb_neq _ _)) by congruence. cbn in *. by split_and!.
Qed.

Lemma log_calls_refine cs : forall log s, log_refines log s ->
  (log_calls log_do cs log).1 = (log_calls log_spec cs s).1 /\
  log_refines (log_calls log_do cs log).2 (log_calls log_spec cs s).2.
Proof.
  induction cs as [|c cs IH]; intros log s Hr; [done|]. cbn [log_calls].
  destruct (log_do_refines c log s Hr) as [Hx Hr']. destruct (log_do c log) as [x log'], (log_spec c s) as [y s'].
  cbn in Hx, Hr'. subst y. destruct (IH log' s' Hr') as [Hxs Hr''].
  destruct (log_calls log_do cs log') as [xs log''], (log_calls log_spec cs s') as [ys s'']. cbn in *. by subst.
Qed.

(** C11: The log is crash atomic whatever the client does.  Any sequence of
    [begin], [write] and [commit] calls, in any order and failing or not, gets
    the replies of the abstract log, and the entries are those of its finished
    transactions, each with all writes made to it, followed by those of the
    open one; identifiers are distinct and increase.  When a crash keeps the
    first [k] entries, replay succeeds, counts exactly the transactions whose
    entries, the commit included, are all among those, and installs exactly
    their writes in order: every transaction completely or not at all. *)
Theorem journal_prefix_atomic cs k home :
  let run := log_calls log_do cs log_new in
  let spec := log_calls log_spec cs (mkAbstractLog [] None 0) in
  let txs := finished spec.2 in
  run.1 = spec.1 /\ log_holds run.2 txs (writing spec.2) /\
  (zlen (entries run.2) < k -> is_ok (crash_prefix run.2 k) = false) /\
  (0 <= k <= zlen (entries run.2) -> zlen (entries run.2) <= u64_max ->
   exists image, crash_prefix run.2 k = Ok image /\
     let n := whole_within (Z.to_nat k) txs in
     replay_into image home = (Ok (Z.of_nat n), install (mjoin (tx_writes <$> take n txs)) home)).
Proof.
  intros run spec txs.
  destruct (log_calls_refine cs log_new (mkAbstractLog [] None 0) (conj log_new_holds eq_refl)) as (Hr & Hlog & _).
  fold run spec in Hr, Hlog. fold txs in Hlog. split; [done|]. split; [done|]. unfold crash_prefix. split.
  { intros Hk. by rewrite (proj2 (Z.ltb_lt _ _)). }
  intros Hk Hm. rewrite (proj2 (Z.ltb_ge _ _)) by lia. pose proof (committed_prefix txs (writing spec.2) (Z.to_nat k)) as Hc.
  exists (mkJournalImage (take (Z.to_nat k) (entries run.2))).
  rewrite slice_Ok by lia. unfold sub. rewrite Z.sub_0_r. split; [done|]. set (n := whole_within _ _) in *.
  pose proof (replay_into_spec (mkJournalImage (take (Z.to_nat k) (entries run.2))) home) as Hrep. simpl in Hrep.
  rewrite <- (log_entries _ _ _ Hlog) in Hc. rewrite Hc in Hrep. rewrite fmap_take.
  rewrite Hrep by (rewrite zlen_take; lia). do 2 f_equal.
  unfold zlen. rewrite length_take, length_fmap. f_equal. apply Nat.min_l. apply whole_within_le.
Qed.

(** Replay agrees with the reference reading of a log: [replay_into]
    succeeds exactly on the logs that are a sequence of transactions, the last
    possibly open, and then installs the writes of the committed ones in log
    order and reports their number; uncommitted writes never reach home. *)
Theorem replay_reference es home :
  zlen es <= u64_max ->
  (forall n home', replay_into (mkJournalImage es) home = (Ok n, home') <->
     exists txs, committed_txs es = Some txs /\ n = zlen txs /\ home' = install (mjoin txs) home) /\
  (replay_into (mkJournalImage es) home).1 <> Panic /\
  (image_validate (mkJournalImage es) = Ok tt <-> is_Some (committed_txs es)).
Proof.
  intros Hm. pose proof (replay_into_spec (mkJournalImage es)) as Hr. simpl in Hr.
  unfold image_validate, run_on. pose proof (Hr ∅ Hm) as He. specialize (Hr home Hm).
  destruct (committed_txs es) as [txs|].
  - rewrite Hr, He. split; [|split; [done|by split]].
    intros n home'. split; [intros [= <- <-]; eauto|by intros (? & [= <-] & -> & ->)].
  - destruct Hr as (e & home1 & ->), He as (e' & home2 & ->). split; [|split; [done|]].
    + intros n home'. split; [done|]. by intros (? & ? & _).
    + split; [done|]. by intros [].
Qed.

Lemma replay_reference_witness :
  let es := [Begin 0; Write 0 7 zero_block; Commit 0; Begin 1; Write 1 8 zero_block] in
  (forall n home', replay_into (mkJournalImage es) ∅ = (Ok n, home') <->
     exists txs, committed_txs es = Some txs /\ n = zlen txs /\ home' = install (mjoin txs) ∅) /\
  (replay_into (mkJournalImage es) ∅).1 <> Panic /\
  (image_validate (mkJournalImage es) = Ok tt <-> is_Some (committed_txs es)).
Proof.
  exact (replay_reference [Begin 0; Write 0 7 zero_block; Commit 0; Begin 1; Write 1 8 zero_block] ∅ ltac:(done)).
Defined.
