(* ===== verification/JournalCodec.v ===== *)
(** * The journal record codec: [journal_codec.rs]

    Log entries as a concatenation of checksummed records; decoding accepts
    exactly the canonical encodings. *)

From S2P Require Import Prelude Bytes Block Journal.

(** [*b"JNL1"] *)
Definition RECORD_MAGIC : bytes := [74; 78; 76; 49].
Definition RECORD_VERSION : Z := 1.
Definition HEADER_SIZE : Z := 32.
Definition CHECKSUM_OFFSET : Z := 28.
Definition KIND_BEGIN : Z := 1.
Definition KIND_WRITE : Z := 2.
Definition KIND_COMMIT : Z := 3.

(** The [(kind, txid, block, payload)] of an entry. *)
Definition entry_fields (entry : JournalEntry) : Z * TransactionId * Z * bytes :=
  match entry with
  | Begin txid => (KIND_BEGIN, txid, 0, [])
  | Write txid b data => (KIND_WRITE, txid, b, data)
  | Commit txid => (KIND_COMMIT, txid, 0, [])
  end.

(** One iteration of [encode_entries]: append a record with a zero checksum,
    then patch the checksum. *)
Definition encode_entry (encoded : bytes) (entry : JournalEntry) : outcome io_error bytes :=
  let '(kind, txid, b, payload) := entry_fields entry in
  let? record_len := ok_or (checked_add HEADER_SIZE (zlen payload))
                       (invalid_input "journal record length overflow") in
  let? record_len_u32 := ok_or (u32_try_from record_len)
                           (invalid_input "journal record length exceeds u32") in
  let start := zlen encoded in
  let encoded := encoded ++ RECORD_MAGIC in
  let encoded := encoded ++ u16_le RECORD_VERSION in
  let encoded := encoded ++ [kind] in
  let encoded := encoded ++ [0] in
  let encoded := encoded ++ u32_le record_len_u32 in
  let encoded := encoded ++ u64_le txid in
  let encoded := encoded ++ u64_le b in
  let encoded := encoded ++ u32_le 0 in
  let encoded := encoded ++ payload in
  let? record := slice_from encoded start in
  let checksum := crc32 record in
  copy_range encoded (start + CHECKSUM_OFFSET) (start + CHECKSUM_OFFSET + 4) (u32_le checksum).

Definition encode_entries (entries : list JournalEntry) : outcome io_error bytes :=
  ofold encode_entry [] entries.

Definition require_control_record (b : Z) (payload : bytes) : outcome io_error unit :=
  try? ensure (b =? 0) (invalid_data "journal control record has non-zero block field") in
  ensure (is_empty payload) (invalid_data "journal control record has unexpected payload").

(** The [match kind] of [decode_entries]. *)
Definition decode_kind (kind txid b : Z) (payload : bytes) : outcome io_error JournalEntry :=
  if kind =? KIND_BEGIN then
    try? require_control_record b payload in Ok (Begin txid)
  else if kind =? KIND_WRITE then
    try? ensure (zlen payload =? BLOCK_SIZE)
           (invalid_data "journal write record has invalid payload length") in
    Ok (Write txid b payload)
  else if kind =? KIND_COMMIT then
    try? require_control_record b payload in Ok (Commit txid)
  else Err (invalid_data "unknown journal record kind").

(** One iteration of [decode_entries]: the record at [cursor] and its end. *)
Definition decode_entry (bs : bytes) (cursor : Z) : outcome io_error (JournalEntry * Z) :=
  let? remaining := sub_u64 (zlen bs) cursor in
  try? ensure (HEADER_SIZE <=? remaining) (invalid_data "truncated journal record header") in
  let? header := slice bs cursor (cursor + HEADER_SIZE) in
  try? ensure (bytes_eqb (sub header 0 4) RECORD_MAGIC) (invalid_data "invalid journal record magic") in
  let? version := read_u16 header 4 in
  try? ensure (version =? RECORD_VERSION) (invalid_data "unsupported journal record version") in
  let? kind := index_at header 6 in
  let? flags := index_at header 7 in
  try? ensure (flags =? 0) (invalid_data "unsupported journal record flags") in
  let? len := read_u32 header 8 in
  let? record_len := ok_or (usize_try_from len)
                       (invalid_data "journal record length does not fit usize") in
  try? ensure (HEADER_SIZE <=? record_len)
         (invalid_data "journal record length is smaller than header") in
  let? stop := ok_or (checked_add cursor record_len) (invalid_data "journal record range overflow") in
  try? ensure (stop <=? zlen bs) (invalid_data "truncated journal record payload") in
  let? txid := read_u64 header 12 in
  let? b := read_u64 header 20 in
  let? expected_checksum := read_u32 header 28 in
  let? record := slice bs cursor stop in
  let? record := copy_range record CHECKSUM_OFFSET (CHECKSUM_OFFSET + 4) (zeros 4) in
  try? ensure (crc32 record =? expected_checksum) (invalid_data "journal record checksum mismatch") in
  let? payload := slice bs (cursor + HEADER_SIZE) stop in
  let? entry := decode_kind kind txid b payload in
  Ok (entry, stop).

(** The [while] loop; the fuel is the number of iterations allowed, and
    running out of it is a [Panic]. *)
Fixpoint decode_loop (fuel : nat) (bs : bytes) (cursor : Z) (entries : list JournalEntry)
    : outcome io_error (list JournalEntry) :=
  if cursor <? zlen bs then
    match fuel with
    | O => Panic
    | S fuel' =>
        let? r := decode_entry bs cursor in
        decode_loop fuel' bs r.2 (entries ++ [r.1])
    end
  else Ok entries.

(** Every record is at least a header long, so at most [zlen bs / HEADER_SIZE]
    iterations find one, and one more may find a torn header. *)
Definition decode_entries (bs : bytes) : outcome io_error (list JournalEntry) :=
  decode_loop (S (Z.to_nat (zlen bs / HEADER_SIZE))) bs 0 [].

(** ** Records *)

Definition record_with (crc : Z) (entry : JournalEntry) : bytes :=
  let '(kind, txid, b, payload) := entry_fields entry in
  RECORD_MAGIC ++ u16_le RECORD_VERSION ++ [kind] ++ [0] ++ u32_le (HEADER_SIZE + zlen payload) ++
  u64_le txid ++ u64_le b ++ u32_le crc ++ payload.

(** The canonical record of an entry. *)
Definition record (entry : JournalEntry) : bytes := record_with (crc32 (record_with 0 entry)) entry.

Definition records (es : list JournalEntry) : bytes := mjoin (record <$> es).

(** Entries the log can hold: [u64] fields and whole blocks. *)
Definition entry_ok (entry : JournalEntry) : Prop :=
  match entry with
  | Begin txid | Commit txid => is_u64 txid
  | Write txid b data => is_u64 txid /\ is_u64 b /\ block_ok data
  end.

Definition payload_of (entry : JournalEntry) : bytes := (entry_fields entry).2.

#[local] Hint Unfold HEADER_SIZE CHECKSUM_OFFSET RECORD_VERSION KIND_BEGIN KIND_WRITE KIND_COMMIT : consts.

Lemma zlen_record_magic : zlen RECORD_MAGIC = 4.
Proof. done. Qed.
#[local] Hint Rewrite zlen_record_magic : zlen.

Lemma entry_ok_fields entry kind txid b payload :
  entry_ok entry -> entry_fields entry = (kind, txid, b, payload) ->
  is_byte kind /\ is_u64 txid /\ is_u64 b /\ Forall is_byte payload /\ zlen payload <= BLOCK_SIZE.
Proof.
  assert (is_u64 0) by done. unfold is_byte.
  destruct entry; simpl; intros Hok [= <- <- <- <-].
  - split; [ulia|]. split; [done|]. split; [done|]. split; [constructor|done].
  - destruct Hok as (? & ? & [Hl ?]). split; [ulia|]. by rewrite Hl.
  - split; [ulia|]. split; [done|]. split; [done|]. split; [constructor|done].
Qed.

Lemma zlen_record_with crc entry : zlen (record_with crc entry) = HEADER_SIZE + zlen (payload_of entry).
Proof.
  unfold record_with, payload_of. destruct (entry_fields entry) as [[[kind txid] b] payload]. simpl.
  zside.
Qed.

Lemma Forall_record_with crc entry : entry_ok entry -> Forall is_byte (record_with crc entry).
Proof.
  intros Hok. unfold record_with. destruct (entry_fields entry) as [[[kind txid] b] payload] eqn:Hf.
  destruct (entry_ok_fields _ _ _ _ _ Hok Hf) as (? & ? & ? & ? & ?).
  assert (Forall is_byte RECORD_MAGIC) by (repeat constructor; done).
  assert (Forall is_byte [kind]) by by apply Forall_singleton.
  assert (Forall is_byte [0]) by by apply Forall_singleton. auto 20 with bytes.
Qed.

(** The checksum field of a record is a patch of the record. *)
Lemma record_with_patch pre crc crc' entry :
  put (pre ++ record_with crc entry) (zlen pre + CHECKSUM_OFFSET) (u32_le crc') =
    pre ++ record_with crc' entry.
Proof.
  unfold record_with. destruct (entry_fields entry) as [[[kind txid] b] payload].
  rewrite !app_assoc, <- (app_assoc _ (u32_le crc)), put_mid by zside. by rewrite <- !app_assoc.
Qed.

Lemma record_patch crc crc' entry :
  put (record_with crc entry) CHECKSUM_OFFSET (u32_le crc') = record_with crc' entry.
Proof. exact (record_with_patch [] crc crc' entry). Qed.

Lemma encode_entry_Ok pre entry : entry_ok entry -> encode_entry pre entry = Ok (pre ++ record entry).
Proof.
  intros Hok. unfold encode_entry. pose proof (zlen_record_with 0 entry) as Hl.
  pose proof (record_with_patch pre 0 (crc32 (record_with 0 entry)) entry) as Hp.
  unfold record, record_with in *. unfold payload_of in Hl.
  destruct (entry_fields entry) as [[[kind txid] b] payload] eqn:Hf. simpl in Hl.
  destruct (entry_ok_fields _ _ _ _ _ Hok Hf) as (? & ? & ? & ? & ?). pose proof (zlen_nonneg pre).
  pose proof (zlen_nonneg payload). otests. rewrite <- !app_assoc.
  rewrite slice_from_Ok by zside. ostep. rewrite sub_app_r, Z.sub_diag by lia.
  rewrite sub_all by zside. rewrite copy_range_Ok by zside. by rewrite Hp.
Qed.

Lemma encode_entries_Ok es : Forall entry_ok es -> encode_entries es = Ok (records es).
Proof.
  intros Hes. unfold encode_entries, records.
  cut (forall pre, ofold encode_entry pre es = Ok (pre ++ mjoin (record <$> es))); [by intros ->|].
  induction Hes as [|e es He _ IH]; intros pre; simpl; [by rewrite app_nil_r|].
  rewrite encode_entry_Ok by done. ostep. by rewrite IH, <- app_assoc.
Qed.

(** ** Decoding what was encoded *)

Lemma record_header crc entry kind txid b payload :
  entry_fields entry = (kind, txid, b, payload) ->
  record_with crc entry =
    RECORD_MAGIC ++ u16_le RECORD_VERSION ++ [kind] ++ [0] ++ u32_le (HEADER_SIZE + zlen payload) ++
    u64_le txid ++ u64_le b ++ u32_le crc ++ payload.
Proof. intros Hf. unfold record_with. by rewrite Hf. Qed.

Lemma sub_index {A} (bs : list A) a x : 0 <= a -> sub bs a 1 = [x] -> bs !! Z.to_nat a = Some x.
Proof.
  intros Ha Hs. unfold sub in Hs. rewrite <- (Nat.add_0_r (Z.to_nat a)), <- lookup_drop.
  destruct (drop (Z.to_nat a) bs); simplify_eq/=. done.
Qed.

Lemma decode_kind_fields entry kind txid b payload :
  is_u64 txid -> is_u64 b -> Forall is_byte payload ->
  decode_kind kind txid b payload = Ok entry <->
    entry_ok entry /\ entry_fields entry = (kind, txid, b, payload).
Proof.
  intros Ht Hbk Hp. unfold decode_kind, require_control_record. split.
  - intros H. split_matches; inv_ok; bool_facts; simpl; subst; try done;
      destruct payload; done.
  - intros [Hok Hf]. destruct entry; simpl in *; injection Hf as <- <- <- <-; simpl; try done.
    destruct Hok as (_ & _ & -> & _). done.
Qed.

Section DecodeRecord.
Context (pre post : bytes) (entry : JournalEntry) (Hok : entry_ok entry).
Let bs : bytes := pre ++ record entry ++ post.

Lemma record_reads kind txid b payload :
  entry_fields entry = (kind, txid, b, payload) ->
  let header := sub bs (zlen pre) HEADER_SIZE in
  zlen header = HEADER_SIZE /\ sub header 0 4 = RECORD_MAGIC /\
  from_le_bytes (sub header 4 2) = RECORD_VERSION /\
  header !! Z.to_nat 6 = Some kind /\ header !! Z.to_nat 7 = Some 0 /\
  from_le_bytes (sub header 8 4) = HEADER_SIZE + zlen payload /\
  from_le_bytes (sub header 12 8) = txid /\ from_le_bytes (sub header 20 8) = b /\
  from_le_bytes (sub header 28 4) = crc32 (record_with 0 entry).
Proof.
  intros Hf header. destruct (entry_ok_fields _ _ _ _ _ Hok Hf) as (? & ? & ? & ? & ?).
  pose proof (zlen_nonneg payload). pose proof (zlen_nonneg pre). pose proof (zlen_nonneg post).
  assert (Hh : header = RECORD_MAGIC ++ u16_le RECORD_VERSION ++ [kind] ++ [0] ++
    u32_le (HEADER_SIZE + zlen payload) ++ u64_le txid ++ u64_le b ++
    u32_le (crc32 (record_with 0 entry)) ++ []).
  { unfold header, bs, record. rewrite (record_header _ _ _ _ _ _ Hf), sub_app_r, Z.sub_diag by lia.
    rewrite app_nil_r, !app_assoc, <- app_assoc. apply sub_prefix. zside. }
  rewrite Hh. split; [zside|]. split; [by field_at|].
  split; [field_at; by rewrite from_u16_le|].
  split; [apply sub_index; [lia|by field_at]|]. split; [apply sub_index; [lia|by field_at]|].
  split; [field_at; rewrite from_u32_le by ulia; done|].
  split; [field_at; rewrite from_u64_le by ulia; done|].
  split; [field_at; rewrite from_u64_le by ulia; done|].
  field_at. rewrite from_u32_le; [done|]. by apply crc32_bound, Forall_record_with.
Qed.

Lemma decode_entry_record :
  zlen bs <= u64_max -> decode_entry bs (zlen pre) = Ok (entry, zlen pre + zlen (record entry)).
Proof.
  intros Hm. destruct (entry_fields entry) as [[[kind txid] b] payload] eqn:Hf.
  destruct (entry_ok_fields _ _ _ _ _ Hok Hf) as (? & ? & ? & ? & ?).
  destruct (record_reads _ _ _ _ Hf) as (Hl & E1 & E2 & E3 & E4 & E5 & E6 & E7 & E8).
  assert (Hlr : zlen (record entry) = HEADER_SIZE + zlen payload).
  { unfold record. rewrite zlen_record_with. unfold payload_of. by rewrite Hf. }
  pose proof (zlen_nonneg payload). pose proof (zlen_nonneg pre). pose proof (zlen_nonneg post).
  assert (Hbs : zlen bs = zlen pre + (HEADER_SIZE + zlen payload) + zlen post)
    by (unfold bs; autorewrite with zlen; lia).
  unfold decode_entry. otests. rewrite (slice_n _ _ _ HEADER_SIZE) by ulia. ostep.
  rewrite E1. read_fields. rewrite E2. otests.
  rewrite (index_at_Ok _ _ kind), (index_at_Ok _ _ 0) by (done || lia). ostep.
  rewrite E5, E6, E7, E8. otests.
  rewrite (slice_n _ _ _ (zlen (record entry))) by ulia. ostep.
  replace (sub bs (zlen pre) (zlen (record entry))) with (record entry)
    by (unfold bs; rewrite sub_app_r, Z.sub_diag by lia; by rewrite sub_prefix).
  rewrite copy_range_Ok by zside. ostep.
  change (zeros 4) with (u32_le 0). unfold record.
  rewrite record_patch, Z.eqb_refl. ostep.
  rewrite (slice_n _ _ _ (zlen payload)) by ulia. ostep.
  replace (sub bs (zlen pre + HEADER_SIZE) (zlen payload)) with payload.
  2: { unfold bs, record. rewrite (record_header _ _ _ _ _ _ Hf), <- !app_assoc. by field_at. }
  rewrite zlen_record_with. unfold payload_of. rewrite Hf. cbn [snd].
  assert (Hk : decode_kind kind txid b payload = Ok entry) by by apply decode_kind_fields.
  by rewrite Hk.
Qed.
End DecodeRecord.

Lemma records_cons e es : records (e :: es) = record e ++ records es.
Proof. done. Qed.

Lemma zlen_record e : zlen (record e) = HEADER_SIZE + zlen (payload_of e).
Proof. unfold record. apply zlen_record_with. Qed.

Lemma zlen_records_ge es : HEADER_SIZE * zlen es <= zlen (records es).
Proof.
  induction es as [|e es IH]; [done|]. rewrite records_cons, zlen_cons, zlen_app, zlen_record.
  pose proof (zlen_nonneg (payload_of e)). ulia.
Qed.

Lemma decode_loop_records es : forall pre acc fuel,
  Forall entry_ok es -> zlen (pre ++ records es) <= u64_max -> (length es <= fuel)%nat ->
  decode_loop fuel (pre ++ records es) (zlen pre) acc = Ok (acc ++ es).
Proof.
  induction es as [|e es IH]; intros pre acc fuel Hes Hm Hf.
  - change (records []) with ([] : bytes). rewrite !app_nil_r.
    destruct fuel; cbn [decode_loop]; by rewrite Z.ltb_irrefl.
  - apply Forall_cons in Hes as [He Hes]. destruct fuel as [|fuel]; [simpl in Hf; lia|].
    pose proof (zlen_records_ge (e :: es)) as Hge. pose proof (zlen_nonneg es).
    rewrite zlen_cons in Hge. cbn [decode_loop].
    rewrite (proj2 (Z.ltb_lt _ _)) by (rewrite zlen_app; ulia). rewrite records_cons in *.
    rewrite decode_entry_record by done. ostep.
    rewrite <- zlen_app, (app_assoc pre). rewrite IH; [by rewrite <- app_assoc|done| |simpl in Hf; lia].
    by rewrite <- app_assoc.
Qed.

(** Decoding inverts encoding. *)
Lemma decode_entries_records es :
  Forall entry_ok es -> zlen (records es) <= u64_max -> decode_entries (records es) = Ok es.
Proof.
  intros Hes Hm. unfold decode_entries. apply (decode_loop_records es [] []); [done..|].
  pose proof (zlen_records_ge es). pose proof (zlen_nonneg es).
  assert (zlen es <= zlen (records es) / HEADER_SIZE) by (apply Z.div_le_lower_bound; ulia).
  unfold zlen at 1 in H1. lia.
Qed.

(** ** Only canonical records decode *)

Lemma header_fields (header : bytes) : zlen header = HEADER_SIZE ->
  header = sub header 0 4 ++ sub header 4 2 ++ sub header 6 1 ++ sub header 7 1 ++ sub header 8 4 ++
    sub header 12 8 ++ sub header 20 8 ++ sub header 28 4.
Proof. intros Hl. rewrite <- !sub_split by lia. symmetry. by apply sub_all. Qed.

(** A record in a buffer is determined by its fields. *)
Lemma record_in_buffer bs c stop entry kind txid b payload crc :
  Forall is_byte bs -> 0 <= c -> c + HEADER_SIZE <= stop <= zlen bs ->
  entry_fields entry = (kind, txid, b, payload) ->
  let header := sub bs c HEADER_SIZE in
  sub header 0 4 = RECORD_MAGIC -> from_le_bytes (sub header 4 2) = RECORD_VERSION ->
  sub header 6 1 = [kind] -> sub header 7 1 = [0] ->
  from_le_bytes (sub header 8 4) = stop - c ->
  from_le_bytes (sub header 12 8) = txid -> from_le_bytes (sub header 20 8) = b ->
  from_le_bytes (sub header 28 4) = crc ->
  payload = sub bs (c + HEADER_SIZE) (stop - (c + HEADER_SIZE)) ->
  sub bs c (stop - c) = record_with crc entry.
Proof.
  intros Hb H0 Hs Hf header E1 E2 E3 E4 E5 E6 E7 E8 E9.
  assert (Hl : zlen header = HEADER_SIZE) by (unfold header; zside).
  assert (Hhb : Forall is_byte header) by (unfold header; auto with bytes).
  rewrite (record_header _ _ _ _ _ _ Hf).
  replace (stop - c) with (HEADER_SIZE + (stop - (c + HEADER_SIZE))) by lia.
  rewrite sub_split by ulia. fold header. rewrite (header_fields header Hl).
  rewrite E1, (field_u16 header 4 RECORD_VERSION), E3, E4, (field_u32 header 8 (stop - c)),
    (field_u64 header 12 txid), (field_u64 header 20 b), (field_u32 header 28 crc) by (done || ulia).
  rewrite <- !app_assoc. rewrite E9. do 5 f_equal. f_equal. autorewrite with zlen; ulia.
Qed.

Lemma index_at_sub {E} (bs : bytes) i x : @index_at E Z bs i = Ok x -> sub bs i 1 = [x].
Proof.
  unfold index_at. case_match; [|done]. case_match eqn:Hx; [|done]. intros [= ->]. bool_facts.
  unfold sub. by rewrite (drop_S _ _ _ Hx).
Qed.

Lemma decode_entry_canonical bs c entry stop :
  Forall is_byte bs -> 0 <= c -> decode_entry bs c = Ok (entry, stop) ->
  entry_ok entry /\ c + HEADER_SIZE <= stop <= zlen bs /\ sub bs c (stop - c) = record entry.
Proof.
  intros Hb H0 H. unfold decode_entry in H. inv_ok. bool_facts. checked_facts.
  apply index_at_sub in E5, E6. read_facts.
  replace (c + HEADER_SIZE - c) with HEADER_SIZE in * by lia.
  set (header := sub bs c HEADER_SIZE) in *. subst.
  assert (Hhb : Forall is_byte header) by (unfold header; auto with bytes).
  apply decode_kind_fields in E20 as [Hok Hf];
    [|apply sub_from_bound; (done || ulia)..|auto with bytes].
  split; [done|]. split; [lia|].
  set (len := from_le_bytes (sub header 8 4)) in *.
  assert (Hrec : sub bs c (c + len - c) = record_with (from_le_bytes (sub header 28 4)) entry).
  { eapply record_in_buffer; [done|done| |exact Hf|done..| |done|done|done|done]; fold header; lia. }
  rewrite Hrec in E18 |- *. unfold record. f_equal. rewrite <- E18.
  change (zeros 4) with (u32_le 0). by rewrite record_patch.
Qed.

Lemma decode_kind_no_panic kind txid b payload : decode_kind kind txid b payload <> Panic.
Proof.
  unfold decode_kind, require_control_record.
  destruct (kind =? KIND_BEGIN), (kind =? KIND_WRITE), (kind =? KIND_COMMIT), (b =? 0),
    (zlen payload =? BLOCK_SIZE), (is_empty payload); done.
Qed.
#[local] Hint Resolve decode_kind_no_panic : no_panic.

Lemma decode_entry_no_panic bs c : 0 <= c <= zlen bs -> decode_entry bs c <> Panic.
Proof. intros Hc. unfold decode_entry. no_panic. Qed.

Lemma decode_entry_advances bs c r :
  decode_entry bs c = Ok r -> c + HEADER_SIZE <= r.2 <= zlen bs.
Proof.
  intros H. unfold decode_entry in H. inv_ok. bool_facts. checked_facts. simpl. lia.
Qed.

(** The loop terminates within its fuel and never panics. *)
Lemma decode_loop_total fuel bs : forall c acc,
  0 <= c <= zlen bs -> zlen bs - c < HEADER_SIZE * Z.of_nat fuel -> decode_loop fuel bs c acc <> Panic.
Proof.
  induction fuel as [|fuel IH]; intros c acc Hc Hf; cbn [decode_loop];
    (destruct (c <? zlen bs) eqn:Hlt; bool_facts; [|done]); [lia|].
  apply obind_no_panic; [by apply decode_entry_no_panic|]. intros r Hr.
  apply decode_entry_advances in Hr. apply IH; ulia.
Qed.

Lemma decode_entries_no_panic bs : decode_entries bs <> Panic.
Proof.
  pose proof (zlen_nonneg bs). apply decode_loop_total; [lia|].
  rewrite Nat2Z.inj_succ, Z2Nat.id by (apply Z.div_pos; ulia).
  pose proof (Z.mod_pos_bound (zlen bs) HEADER_SIZE ltac:(done)).
  pose proof (Z.div_mod (zlen bs) HEADER_SIZE ltac:(done)). ulia.
Qed.
#[export] Hint Resolve decode_entries_no_panic : no_panic.

(** What was decoded is what the records of the buffer say. *)
Lemma decode_loop_canonical fuel bs : forall c acc es,
  Forall is_byte bs -> 0 <= c <= zlen bs -> decode_loop fuel bs c acc = Ok es ->
  exists es', es = acc ++ es' /\ Forall entry_ok es' /\ sub bs c (zlen bs - c) = records es'.
Proof.
  induction fuel as [|fuel IH]; intros c acc es Hb Hc H; cbn [decode_loop] in H;
    (destruct (c <? zlen bs) eqn:Hlt; bool_facts;
     [|injection H as <-; exists []; rewrite app_nil_r; split; [done|]; split; [constructor|];
       replace (zlen bs - c) with 0 by lia; done]); [done|].
  inv_ok. destruct x as [e stop]. simpl in H.
  apply decode_entry_canonical in E as (Hok & Hstop & Hrec); [|done|lia].
  apply IH in H as (es' & -> & Hes & Hrest); [|done|ulia].
  exists (e :: es'). rewrite <- app_assoc. split; [done|]. split; [by constructor|].
  rewrite records_cons, <- Hrec, <- Hrest.
  replace (zlen bs - c) with ((stop - c) + (zlen bs - stop)) by lia.
  rewrite sub_split by ulia. do 2 f_equal. lia.
Qed.

Lemma decode_entries_canonical bs es :
  Forall is_byte bs -> decode_entries bs = Ok es -> Forall entry_ok es /\ bs = records es.
Proof.
  intros Hb H. pose proof (zlen_nonneg bs).
  apply decode_loop_canonical in H as (es' & -> & Hes & Hr); [|done|lia].
  rewrite app_nil_l. split; [done|]. rewrite <- Hr. symmetry. apply sub_all. lia.
Qed.

Lemma Forall_records es : Forall entry_ok es -> Forall is_byte (records es).
Proof.
  induction 1 as [|e es He _ IH]; [constructor|]. rewrite records_cons. apply Forall_app. split; [|done].
  unfold record. by apply Forall_record_with.
Qed.

(** ** The claims *)

(** The journal codec is exact: [encode_entries] never fails on entries of
    machine width, and a buffer decodes to a list of entries exactly when it
    is that encoding, so a truncated, extended or altered record, or one with
    a wrong checksum, is rejected. *)
Theorem journal_codec_exact bs es :
  Forall is_byte bs -> zlen bs <= u64_max ->
  decode_entries bs = Ok es <-> Forall entry_ok es /\ encode_entries es = Ok bs.
Proof.
  intros Hb Hm. split.
  - intros H. apply decode_entries_canonical in H as [Hes ->]; [|done]. split; [done|by apply encode_entries_Ok].
  - intros [Hes H]. rewrite encode_entries_Ok in H by done. injection H as <-. by apply decode_entries_records.
Qed.

Definition sample_log : list JournalEntry := [Begin 7; Commit 7].
Lemma sample_log_ok : Forall entry_ok sample_log.
Proof. repeat constructor; ulia. Qed.

Lemma journal_codec_exact_witness :
  decode_entries (records sample_log) = Ok sample_log <->
  Forall entry_ok sample_log /\ encode_entries sample_log = Ok (records sample_log).
Proof.
  refine (journal_codec_exact (records sample_log) sample_log (Forall_records _ sample_log_ok) _).
  unfold sample_log. rewrite !records_cons, !zlen_app, !zlen_record. done.
Defined.

(** The decoding loop terminates on every input: each record it accepts
    moves the cursor at least one header forward, so one unit of fuel per 32
    bytes of the buffer plus one is never exhausted, and no byte string makes
    the decoder panic (no slice or index is out of bounds). *)
Theorem journal_decode_terminates bs c acc fuel :
  0 <= c <= zlen bs -> zlen bs - c < HEADER_SIZE * Z.of_nat fuel ->
  (forall r, decode_entry bs c = Ok r -> c + HEADER_SIZE <= r.2 <= zlen bs) /\
  decode_loop fuel bs c acc <> Panic /\
  decode_loop fuel bs c acc = decode_loop (S fuel) bs c acc.
Proof.
  intros Hc Hf. split; [intros r; apply decode_entry_advances|]. split; [by apply decode_loop_total|].
  revert c acc Hc Hf. induction fuel as [|fuel IH]; intros c acc Hc Hf.
  - cbn [decode_loop]. destruct (c <? zlen bs) eqn:Hlt; bool_facts; [lia|done].
  - cbn [decode_loop]. destruct (c <? zlen bs) eqn:Hlt; [|done].
    destruct (decode_entry bs c) as [r|e|] eqn:Hr; ostep; [|done..].
    apply decode_entry_advances in Hr. rewrite IH by ulia. done.
Qed.

Lemma journal_decode_terminates_witness :
  (forall r, decode_entry (zeros 40) 0 = Ok r -> 0 + HEADER_SIZE <= r.2 <= zlen (zeros 40)) /\
  decode_loop 2 (zeros 40) 0 [] <> Panic /\
  decode_loop 2 (zeros 40) 0 [] = decode_loop 3 (zeros 40) 0 [].
Proof. exact (journal_decode_terminates (zeros 40) 0 [] 2 ltac:(done) ltac:(done)). Defined.
