(* ===== verification/JournalRegion.v ===== *)
(** * The journal region: [journal_region.rs]

    One checksummed image of the encoded log in the reserved journal blocks.
    An all-zero region is an empty log. *)

From S2P Require Import Prelude Bytes Block Superblock Region Journal JournalCodec.

(** [*b"JRG1"] *)
Definition REGION_MAGIC : bytes := [74; 82; 71; 49].
Definition REGION_VERSION : Z := 1.
Definition HEADER_SIZE : Z := 32.
Definition CHECKSUM_OFFSET : Z := 16.
Definition RESERVED_OFFSET : Z := 20.

Definition validate_region `{BlockDevice D} (superblock : Superblock) : M D unit :=
  let! count := iget block_count in
  ilift (
    try? ensure (total_blocks superblock =? count)
           (invalid_input "superblock block count does not match journal device") in
    try? ensure ((journal_start superblock =? SUPERBLOCK_BLOCK + 1) &&
                 negb (journal_blocks superblock =? 0))
           (invalid_input "invalid journal reservation") in
    let? journal_end := ok_or (checked_add (journal_start superblock) (journal_blocks superblock))
                          (invalid_input "journal block range overflow") in
    ensure (journal_end <=? total_blocks superblock)
      (invalid_input "journal reservation exceeds filesystem size")).

(** [range.contains(block)] *)
Definition contains (range : Z * Z) (b : Z) : bool := (range.1 <=? b) && (b <? range.2).

(** One iteration of [validate_entries]. *)
Definition validate_entry (superblock : Superblock) (active : option TransactionId)
    (entry : JournalEntry) : outcome io_error (option TransactionId) :=
  match entry with
  | Begin txid =>
      try? ensure (bool_decide (active = None)) (invalid_data "nested journal transaction") in
      Ok (Some txid)
  | Write txid b _ =>
      try? ensure (bool_decide (active = Some txid))
             (invalid_data "journal write does not match active transaction") in
      let? allocation := allocation_range superblock in
      let? inode := inode_range superblock in
      let? directory := directory_range superblock in
      let? reserved := reserved_blocks superblock in
      let data_home := (reserved <=? b) && (b <? total_blocks superblock) in
      try? ensure (contains allocation b || contains inode b || contains directory b || data_home)
             (invalid_data "journal write targets forbidden or invalid block") in
      Ok active
  | Commit txid =>
      try? ensure (bool_decide (active = Some txid))
             (invalid_data "journal commit does not match active transaction") in
      Ok None
  end.

Definition validate_entries (superblock : Superblock) (entries : list JournalEntry)
    : outcome io_error unit :=
  try? ofold (validate_entry superblock) None entries in Ok tt.

Definition region_capacity (superblock : Superblock) : outcome io_error Z :=
  let? bytes := ok_or (checked_mul (journal_blocks superblock) BLOCK_SIZE_U64)
                  (invalid_input "journal region byte size overflow") in
  ok_or (usize_try_from bytes) (invalid_input "journal region byte size exceeds usize").

(** The image [store_journal_image] builds. *)
Definition encode_region (superblock : Superblock) (entries : list JournalEntry)
    : outcome io_error bytes :=
  let? payload := encode_entries entries in
  let? capacity := region_capacity superblock in
  let? used := ok_or (checked_add HEADER_SIZE (zlen payload))
                 (invalid_input "journal region image length overflow") in
  try? ensure (used <=? capacity) (invalid_input "journal image exceeds reserved region") in
  let region := zeros capacity in
  let? region := copy_range region 0 4 REGION_MAGIC in
  let? region := copy_range region 4 6 (u16_le REGION_VERSION) in
  let? region := copy_range region 6 8 (u16_le 0) in
  let? payload_len := ok_or (u64_try_from (zlen payload))
                        (invalid_input "journal payload length exceeds u64") in
  let? region := copy_range region 8 16 (u64_le payload_len) in
  let? region := copy_range region HEADER_SIZE used payload in
  let? prefix := slice region 0 used in
  let checksum := crc32 prefix in
  copy_range region CHECKSUM_OFFSET (CHECKSUM_OFFSET + 4) (u32_le checksum).

(** What [load_journal_image] does with the bytes it read. *)
Definition decode_region (superblock : Superblock) (capacity : Z) (region : bytes)
    : outcome io_error (list JournalEntry) :=
  if all_zero region then Ok [] else
  let? magic := slice region 0 4 in
  try? ensure (bytes_eqb magic REGION_MAGIC) (invalid_data "invalid journal region magic") in
  let? version := read_u16 region 4 in
  try? ensure (version =? REGION_VERSION) (invalid_data "unsupported journal region version") in
  let? flag0 := index_at region 6 in
  let? flag1 := index_at region 7 in
  try? ensure ((flag0 =? 0) && (flag1 =? 0)) (invalid_data "unsupported journal region flags") in
  let? reserved := slice region RESERVED_OFFSET HEADER_SIZE in
  try? ensure (negb (any_nonzero reserved))
         (invalid_data "journal region reserved bytes are non-zero") in
  let? payload_len_u64 := read_u64 region 8 in
  let? payload_len := ok_or (usize_try_from payload_len_u64)
                        (invalid_data "journal payload length exceeds usize") in
  let? used := ok_or (checked_add HEADER_SIZE payload_len)
                 (invalid_data "journal region used length overflow") in
  try? ensure (used <=? capacity) (invalid_data "journal payload exceeds reserved region") in
  let? padding := slice_from region used in
  try? ensure (negb (any_nonzero padding))
         (invalid_data "journal region trailing padding is non-zero") in
  let? expected_checksum := read_u32 region CHECKSUM_OFFSET in
  let? checksummed := slice region 0 used in
  let? checksummed := copy_range checksummed CHECKSUM_OFFSET (CHECKSUM_OFFSET + 4) (zeros 4) in
  try? ensure (crc32 checksummed =? expected_checksum)
         (invalid_data "journal region checksum mismatch") in
  let? payload := slice region HEADER_SIZE used in
  let? entries := decode_entries payload in
  try? validate_entries superblock entries in
  Ok entries.

Section Device.
Context `{BlockDevice D}.

Definition write_region_block (superblock : Superblock) (region : bytes) (index : Z) : M D unit :=
  let! index_u64 := ilift (ok_or (u64_try_from index) (invalid_input "journal index exceeds u64")) in
  let! b := ilift (ok_or (checked_add (journal_start superblock) index_u64)
                     (invalid_input "journal block index overflow")) in
  let! start := ilift (ok_or (checked_mul index BLOCK_SIZE)
                         (invalid_input "journal byte offset overflow")) in
  let! stop := ilift (ok_or (checked_add start BLOCK_SIZE)
                        (invalid_input "journal byte range overflow")) in
  let! chunk := ilift (slice region start stop) in
  do! ilift (ensure (zlen chunk =? BLOCK_SIZE)
               (invalid_input "journal block slice has invalid size")) in
  write_block b chunk.

Definition store_journal_image (superblock : Superblock) (entries : list JournalEntry) : M D unit :=
  do! validate_region superblock in
  do! ilift (validate_entries superblock entries) in
  let! region := ilift (encode_region superblock entries) in
  let! block_count := ilift (ok_or (usize_try_from (journal_blocks superblock))
                               (invalid_input "journal block count exceeds usize")) in
  do! ifor (write_region_block superblock region) (reverse (zrange 1 block_count)) in
  do! write_region_block superblock region 0 in
  flush.

(** One iteration of the read loop of [load_journal_image]. *)
Definition read_region_block (superblock : Superblock) (region : bytes) (index : Z) : M D bytes :=
  let! index_u64 := ilift (ok_or (u64_try_from index) (invalid_data "journal index exceeds u64")) in
  let! b := ilift (ok_or (checked_add (journal_start superblock) index_u64)
                     (invalid_data "journal block index overflow")) in
  let! start := ilift (ok_or (checked_mul index BLOCK_SIZE)
                         (invalid_data "journal byte offset overflow")) in
  let! stop := ilift (ok_or (checked_add start BLOCK_SIZE)
                        (invalid_data "journal byte range overflow")) in
  let! block_data := read_block b in
  ilift (copy_range region start stop block_data).

Definition load_journal_image (superblock : Superblock) : M D (list JournalEntry) :=
  do! validate_region superblock in
  let! capacity := ilift (region_capacity superblock) in
  let! block_count := ilift (ok_or (usize_try_from (journal_blocks superblock))
                               (invalid_data "journal block count exceeds usize")) in
  let! region := ifold (read_region_block superblock) (zeros capacity) (zrange 0 block_count) in
  ilift (decode_region superblock capacity region).
End Device.

(** ** Which logs a region may hold *)

(** Where a journaled write may go: behind the journal, inside the device. *)
Definition home_block (sb : Superblock) (b : Z) : Prop := allocation_start sb <= b < total_blocks sb.

#[global] Instance home_block_dec sb b : Decision (home_block sb b) :=
  ltac:(unfold home_block; apply _).

Definition home_entry (sb : Superblock) (entry : JournalEntry) : Prop :=
  match entry with Write _ b _ => home_block sb b | _ => True end.

(** A log of whole transactions (the last possibly open) on home blocks. *)
Definition log_ok (sb : Superblock) (es : list JournalEntry) : Prop :=
  is_Some (committed_txs es) /\ Forall (home_entry sb) es.

Section Validate.
Context (sb : Superblock) (Hgeo : geometry sb).

Lemma validate_write_home t b data :
  validate_entry sb (Some t) (Write t b data) =
    if bool_decide (home_block sb b) then Ok (Some t)
    else Err (invalid_data "journal write targets forbidden or invalid block").
Proof.
  pose proof (geometry_bounds sb Hgeo). simpl. rewrite bool_decide_eq_true_2 by done. ostep.
  rewrite (allocation_range_wf _ (geo_wf _ Hgeo)), (inode_range_wf _ (geo_wf _ Hgeo)),
    (directory_range_wf _ (geo_wf _ Hgeo)), (reserved_blocks_wf _ (geo_wf _ Hgeo)).
  ostep. unfold contains, reserved. ostep.
  match goal with |- obind (ensure ?c _) _ = _ => assert (Hc : c = bool_decide (home_block sb b)) end.
  { apply eq_true_iff_eq. unfold home_block.
    rewrite bool_decide_eq_true, !orb_true_iff, !andb_true_iff, !Z.leb_le, !Z.ltb_lt. lia. }
  rewrite Hc. by destruct (bool_decide (home_block sb b)).
Qed.

Lemma validate_loop es : forall act pending,
  owp (ofold (validate_entry sb) act es)
    (fun _ => is_Some (scan act pending es) /\ Forall (home_entry sb) es)
    (fun _ => ~ (is_Some (scan act pending es) /\ Forall (home_entry sb) es)).
Proof.
  assert (Hcons : forall e es o, home_entry sb e ->
    is_Some o /\ Forall (home_entry sb) es <-> is_Some (A:=list (list (Z * block))) o /\
      Forall (home_entry sb) (e :: es)) by (intros; rewrite Forall_cons; tauto).
  induction es as [|e es IH]; intros act pending; [simpl; split; [done|constructor]|].
  cbn [ofold]. destruct e as [t|t b data|t].
  - cbn [validate_entry scan]. case_bool_decide as Hact; ostep; [|by intros [[] _]].
    eapply owp_mono; [apply (IH (Some t) [])|..]; intros ?; by rewrite <- Hcons.
  - cbn [scan]. case_bool_decide as Hact; [subst|].
    + rewrite validate_write_home. case_bool_decide as Hh; ostep.
      * eapply owp_mono; [apply (IH (Some t) (pending ++ [(b, data)]))|..]; intros ?; by rewrite <- Hcons.
      * intros [_ Hall]. by inversion Hall.
    + cbn [validate_entry]. rewrite bool_decide_eq_false_2 by done. ostep. by intros [[] _].
  - cbn [validate_entry scan]. case_bool_decide as Hact; ostep; [|by intros [[] _]].
    eapply owp_mono; [apply (IH None [])|..]; intros ?; rewrite <- Hcons, fmap_is_Some by done; done.
Qed.

Lemma validate_entries_spec es :
  owp (validate_entries sb es) (fun _ => log_ok sb es) (fun _ => ~ log_ok sb es).
Proof.
  unfold validate_entries. apply owp_bind. eapply owp_mono; [apply (validate_loop es None [])|done..].
Qed.
End Validate.

(** ** The image *)

Definition used_image (crc : Z) (payload : bytes) : bytes :=
  REGION_MAGIC ++ u16_le REGION_VERSION ++ [0] ++ [0] ++ u64_le (zlen payload) ++ u32_le crc ++
  zeros 12 ++ payload.

(** The canonical region of [n] bytes around an encoded log. *)
Definition region_image (n : Z) (payload : bytes) : bytes :=
  used_image (crc32 (used_image 0 payload)) payload ++ zeros (n - HEADER_SIZE - zlen payload).

#[local] Hint Unfold HEADER_SIZE CHECKSUM_OFFSET RESERVED_OFFSET REGION_VERSION : consts.

Lemma zlen_region_magic : zlen REGION_MAGIC = 4.
Proof. done. Qed.
#[local] Hint Rewrite zlen_region_magic : zlen.

Lemma zlen_used_image crc payload : zlen (used_image crc payload) = HEADER_SIZE + zlen payload.
Proof. unfold used_image. zside. Qed.
#[local] Hint Rewrite zlen_used_image : zlen.

Lemma Forall_used_image crc payload : Forall is_byte payload -> Forall is_byte (used_image crc payload).
Proof.
  intros. unfold used_image. assert (Forall is_byte REGION_MAGIC) by (repeat constructor; done).
  assert (Forall is_byte [0]) by by apply Forall_singleton. auto 20 with bytes.
Qed.

Lemma used_image_patch crc crc' payload post :
  put (used_image crc payload ++ post) CHECKSUM_OFFSET (u32_le crc') = used_image crc' payload ++ post.
Proof.
  unfold used_image. rewrite <- !app_assoc.
  rewrite (app_assoc REGION_MAGIC), (app_assoc (_ ++ _) [0]), (app_assoc (_ ++ [0]) [0]),
    (app_assoc (_ ++ [0]) (u64_le _)).
  rewrite put_mid by zside. by rewrite <- !app_assoc.
Qed.

Lemma zlen_region_image n payload :
  HEADER_SIZE + zlen payload <= n -> zlen (region_image n payload) = n.
Proof. intros. pose proof (zlen_nonneg payload). unfold region_image. zside. Qed.

Lemma Forall_region_image n payload : Forall is_byte payload -> Forall is_byte (region_image n payload).
Proof. intros. unfold region_image. auto using Forall_used_image with bytes. Qed.

Section Image.
Context (sb : Superblock) (Hgeo : geometry sb).
Let capacity : Z := journal_blocks sb * BLOCK_SIZE.

Lemma region_capacity_Ok : region_capacity sb = Ok capacity.
Proof.
  pose proof (geometry_bounds sb Hgeo). unfold region_capacity, capacity.
  rewrite checked_mul_le by ulia. ostep. by rewrite usize_try_from_le by ulia.
Qed.

Lemma encode_region_Ok es :
  Forall entry_ok es ->
  encode_region sb es =
    if HEADER_SIZE + zlen (records es) <=? capacity then Ok (region_image capacity (records es))
    else if HEADER_SIZE + zlen (records es) <=? u64_max
         then Err (invalid_input "journal image exceeds reserved region")
         else Err (invalid_input "journal region image length overflow").
Proof.
  intros Hes. pose proof (geometry_bounds sb Hgeo). assert (capacity <= u64_max) by (unfold capacity; ulia).
  unfold encode_region. rewrite encode_entries_Ok, region_capacity_Ok by done. ostep.
  set (payload := records es). pose proof (zlen_nonneg payload). unfold checked_add.
  destruct (HEADER_SIZE + zlen payload <=? capacity) eqn:Hfit; bool_facts.
  2: { destruct (HEADER_SIZE + zlen payload <=? u64_max); ostep; [|done].
       by rewrite (proj2 (Z.leb_gt _ _)). }
  rewrite (proj2 (Z.leb_le (HEADER_SIZE + zlen payload) u64_max)) by lia. ostep.
  rewrite (proj2 (Z.leb_le (HEADER_SIZE + zlen payload) capacity)) by lia. ostep.
  rewrite u64_try_from_le by ulia. ostep.
  change (zeros capacity) with ([] ++ zeros capacity). copy_fields. rewrite app_nil_l.
  match goal with |- context [zeros ?n] =>
    replace (zeros n) with (u32_le 0 ++ zeros 12 ++ zeros (capacity - HEADER_SIZE)) end.
  2: { change (u32_le 0) with (zeros 4). rewrite <- !zeros_add by ulia. f_equal. zside. }
  rewrite copy_range_Ok by zside. ostep.
  match goal with |- context [put ?r HEADER_SIZE payload] =>
    replace (put r HEADER_SIZE payload) with
      (used_image 0 payload ++ zeros (capacity - HEADER_SIZE - zlen payload)) end.
  2: { rewrite !app_assoc, put_fill by zside. unfold used_image. by rewrite <- !app_assoc. }
  rewrite (slice_n _ _ _ (HEADER_SIZE + zlen payload)) by zside. ostep.
  rewrite sub_prefix by zside. rewrite copy_range_Ok by zside. by rewrite used_image_patch.
Qed.

(** Every field of the image is read back. *)
Lemma region_image_reads payload :
  HEADER_SIZE + zlen payload <= capacity -> Forall is_byte payload ->
  let region := region_image capacity payload in
  sub region 0 4 = REGION_MAGIC /\ from_le_bytes (sub region 4 2) = REGION_VERSION /\
  region !! Z.to_nat 6 = Some 0 /\ region !! Z.to_nat 7 = Some 0 /\
  from_le_bytes (sub region 8 8) = zlen payload /\
  from_le_bytes (sub region CHECKSUM_OFFSET 4) = crc32 (used_image 0 payload) /\
  sub region RESERVED_OFFSET 12 = zeros 12 /\
  sub region HEADER_SIZE (zlen payload) = payload /\
  sub region 0 (HEADER_SIZE + zlen payload) = used_image (crc32 (used_image 0 payload)) payload /\
  sub region (HEADER_SIZE + zlen payload) (capacity - (HEADER_SIZE + zlen payload)) =
    zeros (capacity - (HEADER_SIZE + zlen payload)).
Proof.
  intros Hfit Hb region. pose proof (geometry_bounds sb Hgeo). pose proof (zlen_nonneg payload).
  assert (capacity <= u64_max) by (unfold capacity; ulia).
  assert (0 <= crc32 (used_image 0 payload) <= u32_max) by by apply crc32_bound, Forall_used_image.
  assert (Hu : sub region 0 (HEADER_SIZE + zlen payload) =
    used_image (crc32 (used_image 0 payload)) payload).
  { unfold region, region_image. apply sub_prefix. zside. }
  assert (Hz : sub region (HEADER_SIZE + zlen payload) (capacity - (HEADER_SIZE + zlen payload)) =
    zeros (capacity - (HEADER_SIZE + zlen payload))).
  { unfold region, region_image. rewrite sub_app_r by zside. rewrite sub_zeros by zside. done. }
  assert (Hr : region = REGION_MAGIC ++ u16_le REGION_VERSION ++ [0] ++ [0] ++ u64_le (zlen payload) ++
    u32_le (crc32 (used_image 0 payload)) ++ zeros 12 ++ payload ++
    zeros (capacity - HEADER_SIZE - zlen payload)).
  { unfold region, region_image. unfold used_image at 1. by rewrite <- !app_assoc. }
  rewrite Hr in *. clearbody region. clear Hr.
  split; [by field_at|]. split; [field_at; by rewrite from_u16_le|].
  split; [apply sub_index; [lia|by field_at]|]. split; [apply sub_index; [lia|by field_at]|].
  split; [field_at; by rewrite from_u64_le by ulia|].
  split; [field_at; by rewrite from_u32_le by ulia|].
  split; [by field_at|]. split; [by field_at|]. done.
Qed.

Lemma region_image_not_zero n payload : all_zero (region_image n payload) = false.
Proof. done. Qed.

(** Decoding inverts encoding. *)
Lemma decode_region_image es :
  Forall entry_ok es -> log_ok sb es -> HEADER_SIZE + zlen (records es) <= capacity ->
  decode_region sb capacity (region_image capacity (records es)) = Ok es.
Proof.
  intros Hes Hlog Hfit. pose proof (geometry_bounds sb Hgeo). assert (capacity <= u64_max) by (unfold capacity; ulia).
  set (payload := records es) in *. pose proof (zlen_nonneg payload).
  assert (Hb : Forall is_byte payload) by by apply Forall_records.
  pose proof (zlen_region_image capacity payload Hfit) as Hl.
  destruct (region_image_reads payload Hfit Hb)
    as (E1 & E2 & E3 & E4 & E5 & E6 & E7 & E8 & E9 & E10).
  unfold decode_region. rewrite region_image_not_zero.
  rewrite (slice_n _ _ _ 4) by zside. ostep. rewrite E1. read_fields. rewrite E2, E5, E6. otests.
  rewrite (index_at_Ok _ _ 0), (index_at_Ok _ _ 0) by (done || lia). otests.
  rewrite (slice_n _ _ _ 12) by zside. ostep. rewrite E7. otests.
  rewrite slice_from_Ok by ulia. ostep. rewrite Hl, E10. otests.
  rewrite (slice_n _ _ _ (HEADER_SIZE + zlen payload)) by ulia. ostep. rewrite E9.
  rewrite copy_range_Ok by zside. ostep.
  rewrite <- (app_nil_r (used_image (crc32 (used_image 0 payload)) payload)).
  change (zeros 4) with (u32_le 0). rewrite used_image_patch, app_nil_r, Z.eqb_refl. ostep.
  rewrite (slice_n _ _ _ (zlen payload)) by ulia. ostep. rewrite E8.
  unfold payload. rewrite decode_entries_records by (done || (fold payload; ulia)). ostep.
  pose proof (validate_entries_spec sb Hgeo es) as Hv. by destruct (validate_entries sb es).
Qed.

Lemma decode_region_no_panic region :
  Forall is_byte region -> zlen region = capacity -> decode_region sb capacity region <> Panic.
Proof.
  intros Hb Hl. pose proof (geometry_bounds sb Hgeo). assert (4096 <= capacity) by (unfold capacity; ulia).
  unfold decode_region. destruct (all_zero region); [done|]. unfold read_u64.
  apply obind_no_panic; [bounds_no_panic|]. intros magic _.
  apply obind_no_panic; [auto with no_panic|]. intros _ _.
  apply obind_no_panic; [bounds_no_panic|]. intros version _.
  apply obind_no_panic; [auto with no_panic|]. intros _ _.
  do 2 (apply obind_no_panic; [bounds_no_panic|]; intros ? _).
  apply obind_no_panic; [auto with no_panic|]. intros _ _.
  apply obind_no_panic; [bounds_no_panic|]. intros resv _.
  apply obind_no_panic; [auto with no_panic|]. intros _ _.
  rewrite read_le_Ok by ulia. ostep.
  pose proof (sub_from_bound 8 region 8 Hb ltac:(lia) ltac:(lia) ltac:(lia)).
  set (len := from_le_bytes _) in *.
  pose proof (fun es => owp_no_panic _ _ _ (validate_entries_spec sb Hgeo es)). no_panic.
Qed.

(** Only the empty region and canonical images decode. *)
Lemma decode_region_canonical region es :
  Forall is_byte region -> zlen region = capacity -> decode_region sb capacity region = Ok es ->
  Forall entry_ok es /\ log_ok sb es /\
  (region = zeros capacity /\ es = [] \/
   HEADER_SIZE + zlen (records es) <= capacity /\ region = region_image capacity (records es)).
Proof.
  intros Hb Hl H. pose proof (geometry_bounds sb Hgeo). assert (4096 <= capacity) by (unfold capacity; ulia).
  unfold decode_region in H. destruct (all_zero region) eqn:Hz.
  { injection H as <-. apply all_zero_spec in Hz. rewrite Hl in Hz. split; [constructor|].
    split; [split; [done|constructor]|]. by left. }
  inv_ok. bool_facts. checked_facts. apply index_at_sub in E3, E4. read_facts. subst.
  set (len := from_le_bytes (sub region 8 8)) in *.
  replace (HEADER_SIZE + len - HEADER_SIZE) with len in * by lia.
  replace (HEADER_SIZE + len - 0) with (HEADER_SIZE + len) in * by lia.
  change (HEADER_SIZE - RESERVED_OFFSET) with 12 in *. change (4 - 0) with 4 in *.
  apply decode_entries_canonical in E19 as [Hes Hrec]; [|auto with bytes].
  pose proof (validate_entries_spec sb Hgeo es) as Hv. rewrite E20 in Hv. simpl in Hv.
  split; [done|]. split; [done|]. right. rewrite <- Hrec, H13. split; [lia|].
  assert (Hlen : from_le_bytes (sub region 8 8) = zlen (sub region HEADER_SIZE len)) by (rewrite H13; done).
  apply field_u64 in Hlen; [|done|ulia..]. apply field_u16 in E2; [|done|ulia..].
  apply field_zeros in E7, E13; [|ulia..].
  assert (Hu : sub region 0 (HEADER_SIZE + len) =
    used_image (from_le_bytes (sub region CHECKSUM_OFFSET 4)) (sub region HEADER_SIZE len)).
  { unfold used_image. rewrite <- E0, <- E2, <- Hlen, <- E7. rewrite <- E3 at 1. rewrite <- E4 at 1.
    rewrite <- (field_u32 region CHECKSUM_OFFSET _ Hb) by ((done || ulia)).
    autounfold with consts in *. rewrite <- !sub_split by ulia. f_equal. lia. }
  unfold region_image. rewrite H13. rewrite <- (sub_all region capacity) at 1 by done.
  replace capacity with ((HEADER_SIZE + len) + (capacity - (HEADER_SIZE + len))) at 1 by lia.
  rewrite sub_split by ulia. rewrite Z.add_0_l, <- Hl, E13, Hl. rewrite Hu at 1.
  replace (capacity - HEADER_SIZE - len) with (capacity - (HEADER_SIZE + len)) by lia. f_equal. f_equal.
  rewrite <- E17, Hu. change (zeros 4) with (u32_le 0).
  rewrite <- (app_nil_r (used_image _ _)), used_image_patch, app_nil_r. done.
Qed.
End Image.

(** ** On a device *)

(** The log a disk image holds, and the disk image with a new journal region. *)
Definition journal_on_disk (sb : Superblock) (v : list block) : outcome io_error (list JournalEntry) :=
  decode_region sb (journal_blocks sb * BLOCK_SIZE)
    (disk_region v (journal_start sb) (journal_blocks sb)).

Definition with_journal (sb : Superblock) (region : bytes) (v : list block) : list block :=
  put v (journal_start sb) (chunks (journal_blocks sb) region).

(** The region of a log. *)
Definition journal_region_of (sb : Superblock) (es : list JournalEntry) : bytes :=
  region_image (journal_blocks sb * BLOCK_SIZE) (records es).

Definition journal_fits (sb : Superblock) (es : list JournalEntry) : Prop :=
  HEADER_SIZE + zlen (records es) <= journal_blocks sb * BLOCK_SIZE.
#[global] Instance journal_fits_dec sb es : Decision (journal_fits sb es) :=
  ltac:(unfold journal_fits; apply _).

Section DeviceSpecs.
Context (sb : Superblock) (Hgeo : geometry sb).

Lemma write_region_block_eq `{BlockDevice D} region i (d : D) :
  0 <= i < journal_blocks sb -> zlen region = journal_blocks sb * BLOCK_SIZE ->
  write_region_block sb region i d =
    write_block (journal_start sb + i) (sub region (i * BLOCK_SIZE) BLOCK_SIZE) d.
Proof.
  intros Hi Hl. pose proof (geometry_bounds sb Hgeo). unfold write_region_block, ibind, ilift.
  rewrite u64_try_from_le by ulia. ostep. rewrite checked_add_le by ulia. ostep.
  rewrite checked_mul_le by ulia. ostep. rewrite checked_add_le by ulia. ostep.
  rewrite (slice_n _ _ _ BLOCK_SIZE) by ulia. ostep.
  by rewrite (proj2 (Z.eqb_eq _ _)) by (apply zlen_sub; ulia).
Qed.

Lemma write_journal_loop `{BlockDevice D} region (d : D) :
  zlen region = journal_blocks sb * BLOCK_SIZE ->
  (do! ifor (write_region_block sb region) (reverse (zrange 1 (journal_blocks sb))) in
   do! write_region_block sb region 0 in flush) d =
  (do! write_seq (region_writes (journal_start sb) (journal_blocks sb) region) in flush) d.
Proof.
  intros Hl. pose proof (geometry_bounds sb Hgeo). unfold ibind.
  rewrite region_writes_unfold, write_seq_app by lia. unfold ibind.
  replace (ifor (write_region_block sb region) (reverse (zrange 1 (journal_blocks sb))) d) with
    (write_seq ((fun i => (journal_start sb + i, sub region (i * BLOCK_SIZE) BLOCK_SIZE)) <$>
       reverse (zrange 1 (journal_blocks sb))) d).
  2: { unfold write_seq. rewrite ifor_fmap. apply ifor_ext. intros i d' Hi.
       rewrite elem_of_reverse, elem_of_zrange in Hi. by rewrite write_region_block_eq by lia. }
  destruct (write_seq _ d) as [[[]|e|] d1]; [|done..].
  rewrite write_region_block_eq by lia. unfold write_seq, ifor, ibind.
  rewrite Z.add_0_r. change (0 * BLOCK_SIZE) with 0.
  by destruct (write_block _ _ d1) as [[[]|?|] ?].
Qed.

Context `{DeviceLaws D}.
Implicit Types (d : D) (v s : list block).

Lemma wp_validate_region h d v s Q R :
  at_state h d v s -> zlen v = total_blocks sb -> Q tt d -> wp (validate_region sb) Q R d.
Proof.
  intros Hst Hlen HQ. pose proof (geometry_bounds sb Hgeo). unfold validate_region.
  apply wp_bind, wp_get, wp_lift. rewrite (at_state_count _ _ _ _ Hst). unfold SUPERBLOCK_BLOCK.
  otests. rewrite (proj2 (Z.leb_le _ _)) by lia. done.
Qed.

(** A store makes the whole log durable or changes nothing. *)
Lemma wp_store_journal_image h d v s es :
  at_state h d v s -> zlen v = total_blocks sb -> Forall entry_ok es -> log_ok sb es ->
  wp (store_journal_image sb es)
    (fun _ d' => journal_fits sb es /\
       at_state h d' (with_journal sb (journal_region_of sb es) v)
                     (with_journal sb (journal_region_of sb es) v))
    (fun _ d' => crashed d' s /\ (h = true -> ~ journal_fits sb es)) d.
Proof.
  intros Hst Hlen Hes Hlog. pose proof (geometry_bounds sb Hgeo).
  pose proof (at_state_crashed _ _ _ _ Hst) as Hcr.
  unfold store_journal_image. apply wp_bind, (wp_validate_region h d v s); [done..|].
  apply wp_bind, wp_lift. pose proof (validate_entries_spec sb Hgeo es) as Hv.
  destruct (validate_entries sb es); simpl in *; [|done..].
  apply wp_bind, wp_lift. rewrite encode_region_Ok by done. unfold journal_fits.
  destruct (_ <=? journal_blocks sb * BLOCK_SIZE) eqn:Hfit; bool_facts.
  2: { destruct (_ <=? u64_max); simpl; (split; [done|lia]). }
  simpl. apply wp_bind, wp_lift. rewrite usize_try_from_le by ulia. simpl.
  fold (journal_region_of sb es). set (region := journal_region_of sb es).
  assert (Hl : zlen region = journal_blocks sb * BLOCK_SIZE) by by apply zlen_region_image.
  unfold wp. rewrite write_journal_loop by done. apply wp_bind.
  eapply wp_mono; [eapply (wp_write_seq_region h d v s); (done || ulia || idtac)|..].
  - by apply Forall_region_image, Forall_records.
  - simpl. intros [] d' Hst'. eapply wp_mono; [by apply wp_flush|done|]. simpl.
    intros e d'' [Hc ->]. done.
  - simpl. intros e d' [Hc ->]. done.
Qed.

Lemma wp_read_region_block h d v s k :
  at_state h d v s -> zlen v = total_blocks sb -> 0 <= k < journal_blocks sb ->
  wp (read_region_block sb (read_prefix v (journal_start sb) (journal_blocks sb) k) k)
    (fun region d' => at_state h d' v s /\
       region = read_prefix v (journal_start sb) (journal_blocks sb) (k + 1))
    (fun _ d' => at_state false d' v s /\ h = false) d.
Proof.
  intros Hst Hlen Hk. pose proof (geometry_bounds sb Hgeo).
  destruct (at_state_image _ _ _ _ Hst) as (_ & Hv & _).
  destruct (zlen_read_prefix v (journal_start sb) (journal_blocks sb) k) as [_ Hz]; [done|lia..|].
  unfold read_region_block. apply wp_bind, wp_lift. rewrite u64_try_from_le by ulia. simpl.
  apply wp_bind, wp_lift. rewrite checked_add_le by ulia. simpl.
  apply wp_bind, wp_lift. rewrite checked_mul_le by ulia. simpl.
  apply wp_bind, wp_lift. rewrite checked_add_le by ulia. simpl.
  apply wp_bind. eapply wp_mono; [eapply wp_read; [done|lia]|..]; simpl.
  2: { intros e d'' [Hc Hh]. split; [done|]. apply Hh. lia. }
  intros data d'' [Hdata Hst'']. assert (Hok : block_ok data) by by eapply Forall_lookup_1.
  apply wp_lift. rewrite copy_range_Ok by (rewrite ?(proj1 Hok); ulia). simpl.
  split; [done|]. apply read_prefix_step; (done || lia).
Qed.

Lemma wp_load_journal_image h d v s :
  at_state h d v s -> zlen v = total_blocks sb ->
  wp (load_journal_image sb)
    (fun es d' => at_state h d' v s /\ journal_on_disk sb v = Ok es)
    (fun e d' => at_state false d' v s /\ (h = true -> journal_on_disk sb v = Err e)) d.
Proof.
  intros Hst Hlen. pose proof (geometry_bounds sb Hgeo).
  unfold load_journal_image. apply wp_bind, (wp_validate_region h d v s); [done..|].
  apply wp_bind, wp_lift. rewrite region_capacity_Ok by done. simpl.
  apply wp_bind, wp_lift. rewrite usize_try_from_le by ulia. simpl.
  apply wp_bind. eapply wp_mono; [apply (wp_fold_range _ (fun region k d' => at_state h d' v s /\
    region = read_prefix v (journal_start sb) (journal_blocks sb) k)
    (fun _ d' => at_state false d' v s /\ h = false))|..].
  - lia.
  - split; [done|]. unfold read_prefix. simpl. by rewrite Z.sub_0_r.
  - intros k region d' Hk [Hst' ->]. by apply wp_read_region_block.
  - simpl. intros region d' [Hst' ->]. apply wp_lift. unfold journal_on_disk, read_prefix.
    rewrite Z.sub_diag, app_nil_r. fold (disk_region v (journal_start sb) (journal_blocks sb)).
    pose proof (at_state_image _ _ _ _ Hst) as Him.
    pose proof (decode_region_no_panic sb Hgeo (disk_region v (journal_start sb) (journal_blocks sb)))
      as Hnp. destruct (decode_region _ _ _) eqn:Hd; simpl; [done| |].
    + by split; [eapply at_state_weaken|].
    + apply Hnp; [by eapply Forall_disk_region|eapply zlen_disk_region; (done || lia)|done].
  - simpl. intros e d' [Hc ->]. done.
Qed.
End DeviceSpecs.

(** ** The claims *)

(** The journal region is exact: bytes of the region's size decode to a log
    exactly when they are all zero and the log is empty, or they are the
    canonical image of that log and the log is a sequence of transactions
    whose writes stay behind the journal and inside the device; arbitrary
    bytes never make the decoder panic. *)
Theorem journal_region_exact sb region es :
  geometry sb -> Forall is_byte region -> zlen region = journal_blocks sb * BLOCK_SIZE ->
  let decoded := decode_region sb (journal_blocks sb * BLOCK_SIZE) region in
  decoded <> Panic /\
  (decoded = Ok es <->
     region = zeros (journal_blocks sb * BLOCK_SIZE) /\ es = [] \/
     Forall entry_ok es /\ log_ok sb es /\ journal_fits sb es /\ region = journal_region_of sb es).
Proof.
  intros Hgeo Hb Hl decoded. split; [by apply decode_region_no_panic|]. split.
  - intros H. apply decode_region_canonical in H as (Hes & Hlog & [[-> ->]|[Hfit ->]]); [..|done|done|done]; auto.
  - intros [[-> ->]|(Hes & Hlog & Hfit & ->)].
    + unfold decoded, decode_region. by rewrite all_zero_zeros.
    + by apply decode_region_image.
Qed.

Lemma journal_region_exact_witness :
  let n := journal_blocks sample_sb * BLOCK_SIZE in
  let decoded := decode_region sample_sb n (zeros n) in
  decoded <> Panic /\
  (decoded = Ok [] <->
     zeros n = zeros n /\ ([] : list JournalEntry) = [] \/
     Forall entry_ok [] /\ log_ok sample_sb [] /\ journal_fits sample_sb [] /\
     zeros n = journal_region_of sample_sb []).
Proof.
  refine (journal_region_exact sample_sb (zeros (4 * BLOCK_SIZE)) [] sample_geometry (Forall_zeros _) _).
  by rewrite zlen_zeros.
Defined.

(** C12: Storing a log, on any device and however the device fails: a log that
    is not a sequence of home transactions is refused before anything is
    written; otherwise the call either makes the whole log durable, and then
    loading it on a device that does not fail returns it, or leaves the
    durable image untouched; on a device that does not fail it succeeds
    exactly when the log fits the region. *)
Theorem journal_store_load `{DeviceLaws D} sb es h (d : D) v s :
  geometry sb -> Forall entry_ok es -> at_state h d v s -> zlen v = total_blocks sb ->
  let run := store_journal_image sb es d in
  (~ log_ok sb es -> exists e, run = (Err e, d)) /\
  (log_ok sb es ->
     match run.1 with
     | Ok _ => journal_fits sb es /\ journal_on_disk sb (durable run.2) = Ok es /\
         (h = true -> (load_journal_image sb run.2).1 = Ok es)
     | Err _ => durable run.2 = s /\ (h = true -> ~ journal_fits sb es)
     | Panic => False
     end).
Proof.
  intros Hgeo Hes Hst Hlen run. pose proof (geometry_bounds sb Hgeo). split.
  - intros Hn. unfold run, store_journal_image.
    pose proof (wp_validate_region sb Hgeo h d v s (fun _ d' => d' = d) (fun _ _ => False) Hst Hlen eq_refl) as Hval.
    unfold wp in Hval. unfold ibind. destruct (validate_region sb d) as [[[]|?|] d']; [|done..]. subst d'.
    pose proof (validate_entries_spec sb Hgeo es) as He. unfold ilift.
    destruct (validate_entries sb es); simpl in *; [done|by eauto|done].
  - intros Hlog. pose proof (wp_store_journal_image sb Hgeo h d v s es Hst Hlen Hes Hlog) as Hs.
    unfold wp in Hs. fold run in Hs. destruct run as [[[]|e|] d1]; simpl; [|by destruct Hs as [[_ ?] ?]|done].
    destruct Hs as [Hfit Hst1]. pose proof Hst1 as (_ & _ & Hd1 & _). split; [done|].
    pose proof (at_state_image _ _ _ _ Hst) as (_ & Hv & _).
    assert (Hl : zlen (journal_region_of sb es) = journal_blocks sb * BLOCK_SIZE) by by apply zlen_region_image.
    assert (Hj : journal_on_disk sb (with_journal sb (journal_region_of sb es) v) = Ok es).
    { unfold journal_on_disk, with_journal. rewrite disk_region_put_same; [|lia|lia|lia|done|].
      - by apply decode_region_image.
      - by apply Forall_region_image, Forall_records. }
    split; [by rewrite Hd1|]. intros ->.
    assert (Hlen' : zlen (with_journal sb (journal_region_of sb es) v) = total_blocks sb).
    { unfold with_journal. rewrite zlen_put; rewrite ?zlen_chunks by lia; lia. }
    pose proof (wp_load_journal_image sb Hgeo true d1 _ _ Hst1 Hlen') as Hld. unfold wp in Hld. rewrite Hj in Hld.
    destruct (load_journal_image sb d1) as [[es'|e|] d2]; [|by destruct Hld as [_ Hld]; specialize (Hld eq_refl)|done].
    by destruct Hld as [_ [= <-]].
Qed.
