(* ===== verification/Recovery.v ===== *)
(** * Recovery and checkpointing: [recovery.rs], [journal_checkpoint.rs]

    [recover_journal] replays the committed transactions of the stored log to
    their home blocks; [checkpoint_journal] then empties the journal region.
    Both are idempotent and may be interrupted by a crash at any operation. *)

From S2P Require Import Prelude Bytes Block Superblock Region Journal JournalCodec JournalRegion.

Record RecoveryReport : Type := mkRecoveryReport {
  committed_transactions : Z;
  home_writes : Z;
}.

#[global] Instance RecoveryReport_eq_dec : EqDecision RecoveryReport.
Proof. solve_decision. Defined.

(** [RecoveryReport::default()] *)
Definition report_default : RecoveryReport := mkRecoveryReport 0 0.

Section Ops.
Context `{BlockDevice D}.

(** The [pending.drain(..)] loop of a commit. *)
Definition write_home (report : RecoveryReport) (w : Z * block) : M D RecoveryReport :=
  do! write_block w.1 w.2 in
  let! writes := ilift (ok_or (checked_add (home_writes report) 1)
                          (invalid_data "home write count overflowed usize")) in
  iret (mkRecoveryReport (committed_transactions report) writes).

(** One iteration of the loop over the entries. *)
Definition recover_entry (acc : option TransactionId * list (Z * block) * RecoveryReport)
    (entry : JournalEntry) : M D (option TransactionId * list (Z * block) * RecoveryReport) :=
  let '(active, pending, report) := acc in
  match entry with
  | Begin txid =>
      do! ilift (ensure (bool_decide (active = None))
                   (invalid_data "nested journal transaction during recovery")) in
      iret (Some txid, [], report)
  | Write txid b data =>
      do! ilift (ensure (bool_decide (active = Some txid))
                   (invalid_data "journal write does not match active recovery transaction")) in
      iret (active, pending ++ [(b, data)], report)
  | Commit txid =>
      do! ilift (ensure (bool_decide (active = Some txid))
                   (invalid_data "journal commit does not match active recovery transaction")) in
      let! report := ifold write_home report pending in
      let! committed := ilift (ok_or (checked_add (committed_transactions report) 1)
                                 (invalid_data "transaction count overflowed usize")) in
      iret (None, [], mkRecoveryReport committed (home_writes report))
  end.

Definition recover_journal (superblock : Superblock) : M D RecoveryReport :=
  let! entries := load_journal_image superblock in
  let! acc := ifold recover_entry (None, [], report_default) entries in
  let report := acc.2 in
  if negb (home_writes report =? 0) then
    do! flush in iret report
  else iret report.

Definition checkpoint_journal (superblock : Superblock) : M D bool :=
  let! entries := load_journal_image superblock in
  if is_empty entries then iret false
  else
    do! ifor (fun offset =>
                let! b := ilift (ok_or (checked_add (journal_start superblock) offset)
                                   (invalid_input "journal block index overflow")) in
                write_block b zero_block)
          (zrange 0 (journal_blocks superblock)) in
    do! flush in
    iret true.

Definition recover_journal_and_checkpoint (superblock : Superblock) : M D RecoveryReport :=
  let! report := recover_journal superblock in
  do! checkpoint_journal superblock in
  iret report.
End Ops.

(** ** Writes on disk images *)

(** The last block written to [i]. *)
Definition last_write (ws : list (Z * block)) (i : nat) : option block :=
  foldl (fun acc '(b, data) => if decide (Z.to_nat b = i) then Some data else acc) None ws.

Lemma last_write_snoc ws b data i :
  last_write (ws ++ [(b, data)]) i = if decide (Z.to_nat b = i) then Some data else last_write ws i.
Proof. unfold last_write. by rewrite foldl_snoc. Qed.

Lemma apply_writes_snoc ws b data v :
  apply_writes (ws ++ [(b, data)]) v = <[Z.to_nat b := data]> (apply_writes ws v).
Proof. unfold apply_writes. by rewrite foldl_snoc. Qed.

Lemma apply_writes_lookup ws v i :
  (i < length v)%nat ->
  apply_writes ws v !! i = match last_write ws i with Some data => Some data | None => v !! i end.
Proof.
  intros Hi. induction ws as [|[b data] ws IH] using rev_ind; [done|].
  rewrite apply_writes_snoc, last_write_snoc. case_decide as Hb.
  - subst. apply list_lookup_insert_eq. pose proof (zlen_apply_writes ws v). unfold zlen in *. lia.
  - by rewrite list_lookup_insert_ne.
Qed.

(** Writing twice is writing once. *)
Lemma apply_writes_idemp ws v : apply_writes ws (apply_writes ws v) = apply_writes ws v.
Proof.
  apply list_eq. intros i. pose proof (zlen_apply_writes ws v) as Hl.
  pose proof (zlen_apply_writes ws (apply_writes ws v)) as Hl'. unfold zlen in *.
  destruct (decide (i < length v)%nat).
  - rewrite !apply_writes_lookup by lia. by destruct (last_write ws i).
  - rewrite !lookup_ge_None_2 by lia. done.
Qed.

(** Writes at or behind [start + n] commute with replacing the blocks
    [start .. start + n). *)
Lemma apply_writes_put ws v start bs :
  0 <= start -> start + zlen bs <= zlen v -> Forall (fun w => start + zlen bs <= w.1) ws ->
  apply_writes ws (put v start bs) = put (apply_writes ws v) start bs.
Proof.
  intros H0 Hl Hws. induction ws as [|[b data] ws IH] using rev_ind; [done|].
  apply Forall_app in Hws as [Hws Hw]. rewrite Forall_singleton in Hw. simpl in Hw.
  rewrite !apply_writes_snoc, IH by done. unfold put. pose proof (zlen_apply_writes ws v).
  pose proof (zlen_nonneg bs). unfold zlen in *.
  rewrite insert_app_r_alt by (rewrite length_take; lia). f_equal.
  - rewrite take_insert_ge by lia. done.
  - rewrite insert_app_r_alt by (rewrite length_take; lia). f_equal.
    rewrite length_take. rewrite drop_insert_ge by lia. f_equal. lia.
Qed.

Lemma put_snoc {A} (v : list A) a xs x :
  0 <= a -> a + zlen xs < zlen v ->
  <[Z.to_nat (a + zlen xs) := x]> (put v a xs) = put v a (xs ++ [x]).
Proof.
  intros H0 Hl. unfold put, zlen in *. rewrite length_app. simpl.
  rewrite insert_app_r_alt by (rewrite length_take; lia). f_equal. rewrite length_take.
  rewrite insert_app_r_alt by lia. rewrite <- app_assoc. f_equal. simpl.
  replace (_ - _ - _)%nat with 0%nat by lia.
  destruct (drop (Z.to_nat a + length xs) v) as [|y l] eqn:Hd.
  - apply (f_equal length) in Hd. rewrite length_drop in Hd. simpl in Hd. lia.
  - simpl. f_equal. rewrite Nat.add_assoc, <- drop_drop, Hd. done.
Qed.

(** ** What recovery does to a disk image *)

(** The home writes of a log, in replay order. *)
Definition replay_writes (es : list JournalEntry) : list (Z * block) :=
  mjoin (default [] (committed_txs es)).

Definition report_of (es : list JournalEntry) : RecoveryReport :=
  mkRecoveryReport (zlen (default [] (committed_txs es))) (zlen (replay_writes es)).

(** The image with an empty journal. *)
Definition clear_journal (sb : Superblock) (v : list block) : list block :=
  with_journal sb (zeros (journal_blocks sb * BLOCK_SIZE)) v.

(** The image after [checkpoint_journal] found log [es]. *)
Definition checkpointed (sb : Superblock) (es : list JournalEntry) (v : list block) : list block :=
  if is_empty es then v else clear_journal sb v.

(** What a list of home writes must satisfy. *)
Definition home_writes_ok (sb : Superblock) (ws : list (Z * block)) : Prop :=
  Forall (fun w => home_block sb w.1 /\ block_ok w.2) ws.

Lemma scan_writes_ok sb es : forall act pending txs,
  Forall entry_ok es -> Forall (home_entry sb) es -> home_writes_ok sb pending ->
  scan act pending es = Some txs -> home_writes_ok sb (mjoin txs).
Proof.
  induction es as [|e es IH]; intros act pending txs Hes Hhome Hp Hs; simpl in Hs.
  - injection Hs as <-. constructor.
  - apply Forall_cons in Hes as [He Hes]. apply Forall_cons in Hhome as [Hh Hhome].
    destruct e as [t|t b data|t]; case_bool_decide; try done.
    + eapply IH; [done..| |exact Hs]. constructor.
    + eapply IH; [done..| |exact Hs]. apply Forall_app. split; [done|].
      apply Forall_singleton. destruct He as (_ & _ & ?). done.
    + destruct (scan None [] es) as [txs'|] eqn:Hs'; simplify_eq/=.
      apply Forall_app. split; [done|]. eapply IH; [done..| |exact Hs']. constructor.
Qed.

Lemma replay_writes_ok sb es :
  Forall entry_ok es -> log_ok sb es -> home_writes_ok sb (replay_writes es).
Proof.
  intros Hes [[txs Htxs] Hh]. unfold replay_writes. rewrite Htxs. simpl.
  eapply scan_writes_ok; [done|done|constructor|exact Htxs].
Qed.

(** A log commits no more transactions and no more writes than it has entries. *)
Lemma scan_length es : forall act pending txs,
  scan act pending es = Some txs -> zlen txs <= zlen es /\ zlen (mjoin txs) <= zlen pending + zlen es.
Proof.
  induction es as [|e es IH]; intros act pending txs Hs; simpl in Hs.
  - injection Hs as <-. simpl. pose proof (zlen_nonneg pending). unfold zlen in *. simpl. lia.
  - rewrite zlen_cons. pose proof (zlen_nonneg pending). destruct e as [t|t b data|t]; case_bool_decide; try done.
    + apply IH in Hs. rewrite zlen_nil in Hs. lia.
    + apply IH in Hs. rewrite zlen_app, zlen_cons, zlen_nil in Hs. lia.
    + destruct (scan None [] es) as [txs'|] eqn:Hs'; simplify_eq/=. apply IH in Hs'.
      rewrite zlen_nil in Hs'. rewrite zlen_cons, zlen_app. lia.
Qed.

Section Recover.
Context (sb : Superblock) (Hgeo : geometry sb).

(** What a decoded journal guarantees. *)
Lemma journal_on_disk_ok v es :
  image_ok (total_blocks sb) v -> journal_on_disk sb v = Ok es ->
  Forall entry_ok es /\ log_ok sb es /\ zlen es <= u64_max.
Proof.
  intros Hv Hd. pose proof (geometry_bounds sb Hgeo).
  apply decode_region_canonical in Hd as (Hes & Hlog & Hcase); [|done|by eapply Forall_disk_region|].
  2: { eapply zlen_disk_region; (done || lia). }
  split; [done|]. split; [done|]. destruct Hcase as [[_ ->]|[Hfit _]]; [done|].
  pose proof (zlen_records_ge es). unfold JournalCodec.HEADER_SIZE, HEADER_SIZE in *.
  pose proof (zlen_nonneg es). ulia.
Qed.

(** Home writes leave the journal region alone. *)
Lemma journal_on_disk_home ws v :
  home_writes_ok sb ws -> journal_on_disk sb (apply_writes ws v) = journal_on_disk sb v.
Proof.
  intros Hws. pose proof (geometry_bounds sb Hgeo). unfold journal_on_disk.
  rewrite disk_region_outside; [done|lia|lia|]. eapply Forall_impl; [exact Hws|]. simpl.
  intros w [Hh _]. unfold home_block in Hh. lia.
Qed.

Lemma image_ok_home ws v N : image_ok N v -> home_writes_ok sb ws -> image_ok N (apply_writes ws v).
Proof.
  intros Hv Hws. apply image_ok_apply_writes; [done|]. eapply Forall_impl; [exact Hws|]. by intros w [].
Qed.

Lemma home_with_journal ws region v :
  home_writes_ok sb ws -> total_blocks sb <= zlen v ->
  apply_writes ws (with_journal sb region v) = with_journal sb region (apply_writes ws v).
Proof.
  intros Hws Hl. pose proof (geometry_bounds sb Hgeo). unfold with_journal.
  apply apply_writes_put; rewrite ?zlen_chunks by lia; [lia|lia|].
  eapply Forall_impl; [exact Hws|]. simpl. intros w [Hh _]. unfold home_block in Hh. lia.
Qed.

Context `{DeviceLaws D}.
Implicit Types (d : D) (v s : list block).

Lemma wp_write_home_loop h d v s ws report :
  at_state h d v s -> zlen v = total_blocks sb -> home_writes_ok sb ws -> 0 <= home_writes report ->
  home_writes report + zlen ws <= u64_max ->
  wp (ifold write_home report ws)
    (fun r d' => at_state h d' (apply_writes ws v) s /\
       r = mkRecoveryReport (committed_transactions report) (home_writes report + zlen ws))
    (fun _ d' => crashed d' s /\ h = false) d.
Proof.
  intros Hst Hlen Hws. revert d v report Hst Hlen.
  induction Hws as [|[b data] ws [Hh Hd] _ IH]; intros d v report Hst Hlen H0 Hm.
  { apply wp_ret. split; [done|]. rewrite zlen_nil, Z.add_0_r. by destruct report. }
  rewrite zlen_cons in *. pose proof (zlen_nonneg ws). pose proof (geometry_bounds sb Hgeo).
  simpl in *. unfold home_block in Hh. unfold write_home at 1. cbn [fst snd].
  apply wp_bind, wp_bind. eapply wp_mono; [eapply (wp_write h d v s); (done || lia)|..]; simpl.
  2: { intros e d' [Hc Hf]. split; [done|]. apply Hf. lia. }
  intros [] d' [_ Hst']. apply wp_bind, wp_lift. rewrite checked_add_le by lia. simpl. apply wp_ret.
  eapply wp_mono; [apply (IH d' (<[Z.to_nat b:=data]> v) (mkRecoveryReport (committed_transactions report) (home_writes report + 1)));
    [done|by rewrite zlen_insert|simpl; lia..]|..]; simpl; [|done].
  intros r d'' [Hst'' ->]. split; [done|]. f_equal. lia.
Qed.

Lemma wp_recover_loop es : forall h d v s act pending report,
  at_state h d v s -> zlen v = total_blocks sb ->
  Forall entry_ok es -> Forall (home_entry sb) es -> home_writes_ok sb pending ->
  is_Some (scan act pending es) ->
  0 <= committed_transactions report -> 0 <= home_writes report ->
  committed_transactions report + zlen es <= u64_max ->
  home_writes report + zlen pending + zlen es <= u64_max ->
  wp (ifold recover_entry (act, pending, report) es)
    (fun acc d' => exists txs, scan act pending es = Some txs /\
       at_state h d' (apply_writes (mjoin txs) v) s /\
       acc.2 = mkRecoveryReport (committed_transactions report + zlen txs)
                                (home_writes report + zlen (mjoin txs)))
    (fun _ d' => crashed d' s /\ h = false) d.
Proof.
  induction es as [|e es IH]; intros h d v s act pending report Hst Hlen Hes Hhome Hp Hsc Hc Hw Hc' Hw'.
  { apply wp_ret. exists []. split; [done|]. split; [done|]. rewrite zlen_nil, !Z.add_0_r.
    by destruct report. }
  pose proof (zlen_nonneg es). pose proof (zlen_nonneg pending). rewrite zlen_cons in *.
  apply Forall_cons in Hes as [He Hes]. apply Forall_cons in Hhome as [Hh Hhome].
  cbn [ifold scan recover_entry] in *. apply wp_bind.
  destruct e as [t|t b data|t]; apply wp_bind, wp_lift; case_bool_decide as Hact; simpl in *;
    try (by destruct Hsc).
  - apply wp_ret, IH; rewrite ?zlen_nil; (done || lia || apply Forall_nil_2).
  - apply wp_ret, IH; try (done || lia).
    + apply Forall_app. split; [done|]. apply Forall_singleton. by destruct He as (_ & _ & ?).
    + rewrite zlen_app, zlen_cons, zlen_nil. lia.
  - apply wp_bind. eapply wp_mono; [apply (wp_write_home_loop h d v s); (done || lia)|..]; simpl; [|done].
    intros r d' [Hst' ->]. apply wp_bind, wp_lift. simpl. rewrite checked_add_le by lia. simpl. apply wp_ret.
    eapply wp_mono; [apply (IH h d' (apply_writes pending v) s); try done;
      rewrite ?zlen_apply_writes, ?zlen_nil; simpl; try (done || lia || apply Forall_nil_2);
      by rewrite fmap_is_Some in Hsc|..]; simpl; [|done].
    + intros acc d'' (txs & Hs & Hst'' & ->). rewrite Hs. exists (pending :: txs). split; [done|].
      simpl. rewrite apply_writes_app, zlen_cons, zlen_app. split; [done|]. f_equal; lia.
Qed.

(** [recover_journal] installs exactly the committed writes of the log, all
    of them durable at once, or leaves the durable image as it was. *)
Lemma wp_recover_journal h d v :
  at_state h d v v -> zlen v = total_blocks sb ->
  wp (recover_journal sb)
    (fun r d' => exists es, journal_on_disk sb v = Ok es /\ r = report_of es /\
       at_state h d' (apply_writes (replay_writes es) v) (apply_writes (replay_writes es) v))
    (fun e d' => crashed d' v /\ (h = true -> journal_on_disk sb v = Err e)) d.
Proof.
  intros Hst Hlen. pose proof (at_state_image _ _ _ _ Hst) as Hv. rewrite Hlen in Hv.
  unfold recover_journal. apply wp_bind. eapply wp_mono; [by apply wp_load_journal_image|simpl|intros e d' [Hc%at_state_crashed Hh]; by split].
  intros es d' [Hst' Hes]. destruct (journal_on_disk_ok v es Hv Hes) as (Hok & [Hsc Hh] & Hm).
  apply wp_bind. eapply wp_mono; [apply (wp_recover_loop es h d' v v None [] report_default);
    try done; simpl; rewrite ?zlen_nil; try lia; apply Forall_nil_2|..]; simpl.
  2: { intros e d'' [Hc ->]. done. }
  intros acc d'' (txs & Hs & Hst'' & ->). cbn [home_writes].
  assert (Hw : replay_writes es = mjoin txs) by (unfold replay_writes, committed_txs; by rewrite Hs).
  assert (Hr : report_of es = mkRecoveryReport (0 + zlen txs) (0 + zlen (mjoin txs))).
  { unfold report_of. rewrite Hw. unfold committed_txs. by rewrite Hs. }
  destruct (0 + zlen (mjoin txs) =? 0) eqn:Hz; simpl; bool_facts.
  - assert (Hnil : mjoin txs = []).
    { destruct (mjoin txs); [done|]. rewrite zlen_cons in Hz. pose proof (zlen_nonneg l). lia. }
    apply wp_ret. exists es. rewrite Hw, Hr, Hnil in *. done.
  - apply wp_bind. eapply wp_mono; [by apply wp_flush|..]; simpl.
    + intros [] d3 Hst3. apply wp_ret. exists es. by rewrite Hw, Hr.
    + intros e d3 [Hc ->]. done.
Qed.

Lemma clear_journal_blocks v :
  clear_journal sb v = put v (journal_start sb) (replicate (Z.to_nat (journal_blocks sb)) zero_block).
Proof.
  pose proof (geometry_bounds sb Hgeo). unfold clear_journal, with_journal. f_equal.
  apply list_eq. intros i. pose proof (zlen_chunks (journal_blocks sb) (zeros (journal_blocks sb * BLOCK_SIZE))).
  unfold zlen in *. destruct (decide (i < Z.to_nat (journal_blocks sb))%nat).
  - replace i with (Z.to_nat (Z.of_nat i)) by lia. rewrite chunks_lookup by lia.
    rewrite lookup_replicate_2 by lia. rewrite sub_zeros by ulia. done.
  - rewrite !lookup_ge_None_2; [done| |]; rewrite ?length_replicate; lia.
Qed.

Lemma journal_on_disk_clear v : image_ok (total_blocks sb) v -> journal_on_disk sb (clear_journal sb v) = Ok [].
Proof.
  intros (Hl & _). pose proof (geometry_bounds sb Hgeo). unfold journal_on_disk, clear_journal, with_journal.
  rewrite disk_region_put_same; [|lia|lia|lia|zside|auto with bytes].
  unfold decode_region. by rewrite all_zero_zeros.
Qed.

Lemma image_ok_clear N v : image_ok N v -> total_blocks sb <= N -> image_ok N (clear_journal sb v).
Proof.
  intros Hv HN. pose proof (geometry_bounds sb Hgeo). apply image_ok_put; [done|lia..|zside|auto with bytes].
Qed.

Lemma wp_zero_loop h d v s :
  at_state h d v s -> zlen v = total_blocks sb ->
  wp (ifor (fun offset =>
              let! b := ilift (ok_or (checked_add (journal_start sb) offset)
                                 (invalid_input "journal block index overflow")) in
              write_block b zero_block)
        (zrange 0 (journal_blocks sb)))
    (fun _ d' => at_state h d' (clear_journal sb v) s)
    (fun _ d' => crashed d' s /\ h = false) d.
Proof.
  intros Hst Hlen. pose proof (geometry_bounds sb Hgeo). rewrite clear_journal_blocks.
  apply (wp_for_range _ (fun k d' =>
    at_state h d' (put v (journal_start sb) (replicate (Z.to_nat k) zero_block)) s)); [lia| |].
  { unfold put. simpl. by rewrite Nat.add_0_r, take_drop. }
  intros k d' Hk Hst'. apply wp_bind, wp_lift. rewrite checked_add_le by ulia. simpl.
  assert (Hz : zlen (replicate (Z.to_nat k) zero_block) = k) by (rewrite zlen_replicate; lia).
  eapply wp_mono; [eapply (wp_write h d'); [done|lia|apply zero_block_ok]|..]; simpl.
  - intros [] d'' [_ Hst'']. rewrite <- Hz in Hst'' at 1. rewrite put_snoc in Hst'' by lia.
    rewrite <- replicate_S_end in Hst''. by replace (Z.to_nat (k + 1)) with (S (Z.to_nat k)) by lia.
  - intros e d'' [Hc Hh]. split; [done|]. apply Hh. rewrite zlen_put by lia. lia.
Qed.

(** [checkpoint_journal] empties a non-empty journal, durably or not at all. *)
Lemma wp_checkpoint_journal h d v :
  at_state h d v v -> zlen v = total_blocks sb ->
  wp (checkpoint_journal sb)
    (fun b d' => exists es, journal_on_disk sb v = Ok es /\ b = negb (is_empty es) /\
       at_state h d' (checkpointed sb es v) (checkpointed sb es v))
    (fun e d' => crashed d' v /\ (h = true -> journal_on_disk sb v = Err e)) d.
Proof.
  intros Hst Hlen. unfold checkpoint_journal. apply wp_bind.
  eapply wp_mono; [by apply wp_load_journal_image|simpl|intros e d' [Hc%at_state_crashed Hh]; by split].
  intros es d' [Hst' Hes]. unfold checkpointed. destruct es as [|e es]; simpl.
  { apply wp_ret. by exists []. }
  apply wp_bind. eapply wp_mono; [by apply wp_zero_loop|simpl|simpl; intros ? ? [? ->]; done].
  intros [] d2 Hst2. apply wp_bind. eapply wp_mono; [by apply wp_flush|simpl|simpl; intros ? ? [? ->]; done].
  intros [] d3 Hst3. apply wp_ret. by exists (e :: es).
Qed.

(** Recovery followed by a checkpoint: an error leaves the image as it was or
    with the log replayed and still in place. *)
Lemma wp_recover_and_checkpoint h d v :
  at_state h d v v -> zlen v = total_blocks sb ->
  wp (recover_journal_and_checkpoint sb)
    (fun r d' => exists es, journal_on_disk sb v = Ok es /\ r = report_of es /\
       let v' := checkpointed sb es (apply_writes (replay_writes es) v) in at_state h d' v' v')
    (fun e d' => (crashed d' v \/ exists es, journal_on_disk sb v = Ok es /\
                    crashed d' (apply_writes (replay_writes es) v)) /\
       (h = true -> journal_on_disk sb v = Err e)) d.
Proof.
  intros Hst Hlen. pose proof (at_state_image _ _ _ _ Hst) as Hv. rewrite Hlen in Hv.
  unfold recover_journal_and_checkpoint. apply wp_bind.
  eapply wp_mono; [by apply wp_recover_journal|simpl|simpl; intros ? ? [? ?]; auto].
  intros r d' (es & Hes & -> & Hst').
  destruct (journal_on_disk_ok v es Hv Hes) as (Hok & Hlog & Hm).
  pose proof (replay_writes_ok sb es Hok Hlog) as Hws.
  apply wp_bind. eapply wp_mono; [apply wp_checkpoint_journal; [done|by rewrite zlen_apply_writes]|simpl|simpl].
  - intros b d2 (es' & Hes' & _ & Hst2). rewrite journal_on_disk_home in Hes' by done.
    rewrite Hes in Hes'. injection Hes' as <-. apply wp_ret. by exists es.
  - intros e d2 [Hc He]. split; [right; by exists es|].
    rewrite journal_on_disk_home in He by done. done.
Qed.
End Recover.

(** ** The claims *)

(** C10: Recovery is replay, once: on a device that does not fail whose journal
    region decodes, [recover_journal_and_checkpoint] returns the number of
    committed transactions and of their writes, leaves every home block as the
    committed writes in log order make it, leaves the superblock alone and
    the journal empty, all of it durable; running it again changes nothing and
    reports nothing. *)
Theorem recovery_replays_once `{DeviceLaws D} sb (d : D) v es :
  geometry sb -> at_state true d v v -> zlen v = total_blocks sb -> journal_on_disk sb v = Ok es ->
  let run := recover_journal_and_checkpoint sb d in
  run.1 = Ok (report_of es) /\ journal_on_disk sb (durable run.2) = Ok [] /\
  (forall b, b = 0 \/ home_block sb b ->
     durable run.2 !! Z.to_nat b = apply_writes (replay_writes es) v !! Z.to_nat b) /\
  let again := recover_journal_and_checkpoint sb run.2 in
  again.1 = Ok report_default /\ durable again.2 = durable run.2.
Proof.
  intros Hgeo Hst Hlen Hes run. pose proof (geometry_bounds sb Hgeo).
  pose proof (at_state_image _ _ _ _ Hst) as Hv. rewrite Hlen in Hv.
  destruct (journal_on_disk_ok sb Hgeo v es Hv Hes) as (Hok & Hlog & _).
  pose proof (replay_writes_ok sb es Hok Hlog) as Hws.
  pose proof (wp_recover_and_checkpoint sb Hgeo true d v Hst Hlen) as W. unfold wp in W. fold run in W.
  rewrite Hes in W. destruct run as [[r|e|] d1]; [|by destruct W as [_ W]; specialize (W eq_refl)|done].
  destruct W as (es' & [= <-] & -> & Hst1). set (v' := apply_writes (replay_writes es) v) in *.
  pose proof (image_ok_home sb _ _ _ Hv Hws) as Hv'. fold v' in Hv'. destruct Hst1 as (Hok1 & Hv1 & Hd1 & Hh1).
  assert (Hj : journal_on_disk sb (checkpointed sb es v') = Ok []).
  { unfold checkpointed. destruct es as [|e es]; simpl; [|by apply journal_on_disk_clear].
    unfold v'. by rewrite journal_on_disk_home. }
  assert (Hlen1 : zlen (checkpointed sb es v') = total_blocks sb).
  { unfold checkpointed. case_match; [apply Hv'|]. by apply image_ok_clear. }
  simpl. rewrite Hd1. split; [done|]. split; [done|]. split.
  - intros b Hb. unfold checkpointed. destruct (is_empty es); [done|]. unfold clear_journal, with_journal.
    unfold home_block in Hb. destruct Hv' as (Hl' & _).
    apply lookup_put_outside; rewrite ?zlen_chunks by lia; lia.
  - pose proof (wp_recover_and_checkpoint sb Hgeo true d1 _ ltac:(split; [done|]; split; [exact Hv1|done]) Hlen1) as W2.
    unfold wp in W2. rewrite Hj in W2.
    destruct (recover_journal_and_checkpoint sb d1) as [[r|e|] d2];
      [|by destruct W2 as [_ W2]; specialize (W2 eq_refl)|done].
    destruct W2 as (es' & [= <-] & -> & (_ & _ & Hd2 & _)). done.
Qed.

(** Recovery refuses what it cannot read and survives failures: if the
    journal region does not decode, recovery on a device that does not fail
    returns that decoding error and the durable image is unchanged; if the
    device fails at any operation of recovery, the durable image is either
    unchanged or has exactly the committed writes replayed with the log still
    in place.  Recovery never panics. *)
Theorem recovery_failure_safe `{DeviceLaws D} sb h (d : D) v :
  geometry sb -> at_state h d v v -> zlen v = total_blocks sb ->
  let run := recover_journal_and_checkpoint sb d in
  run.1 <> Panic /\
  forall e, run.1 = Err e ->
    (h = true -> journal_on_disk sb v = Err e /\ durable run.2 = v) /\
    (durable run.2 = v \/ exists es, journal_on_disk sb v = Ok es /\
       durable run.2 = apply_writes (replay_writes es) v /\
       journal_on_disk sb (durable run.2) = Ok es).
Proof.
  intros Hgeo Hst Hlen run. pose proof (at_state_image _ _ _ _ Hst) as Hv. rewrite Hlen in Hv.
  pose proof (wp_recover_and_checkpoint sb Hgeo h d v Hst Hlen) as W. unfold wp in W. fold run in W.
  destruct run as [[r|e|] d1]; simpl; [done| |done]. split; [done|]. intros e' [= <-].
  destruct W as [Hcase Hh]. split.
  - intros Ht. specialize (Hh Ht). split; [done|]. destruct Hcase as [[_ ?]|(es & Hes & _)]; [done|congruence].
  - destruct Hcase as [[_ ?]|(es & Hes & [_ Hd])]; [by left|right]. exists es. rewrite Hd.
    split; [done|]. split; [done|]. destruct (journal_on_disk_ok sb Hgeo v es Hv Hes) as (Hok & Hlog & _).
    rewrite journal_on_disk_home; [done|done|by apply replay_writes_ok].
Qed.
