(* ===== verification/TransactionImage.v ===== *)
(** * Rendering and committing one transaction: [transaction_image.rs]

    [CaptureDevice] collects the blocks a store would write; a transaction
    journals those that differ from the device.  The log-building and commit
    steps every transaction module repeats are here too, with what a crash can
    leave behind at each of them. *)

From S2P Require Import Prelude Bytes Block Superblock Region Journal JournalCodec JournalRegion.
From S2P Require Import Recovery.

Record CaptureDevice : Type := mkCaptureDevice {
  capture_block_count : Z;
  capture_blocks : gmap Z block;
}.

Definition capture_new (block_count : Z) : CaptureDevice := mkCaptureDevice block_count ∅.

Definition take_rendered_block (b : Z) (missing_message : string) : M CaptureDevice block :=
  let! self := iget id in
  match capture_blocks self !! b with
  | Some data =>
      do! iset (fun self => mkCaptureDevice (capture_block_count self) (delete b (capture_blocks self))) in
      iret data
  | None => ifail (invalid_data missing_message)
  end.

Definition ensure_empty (self : CaptureDevice) (unexpected_message : string) : outcome io_error unit :=
  ensure (bool_decide (capture_blocks self = ∅)) (invalid_data unexpected_message).

Definition capture_read_block (b : Z) : M CaptureDevice block :=
  let! self := iget id in
  if capture_block_count self <=? b then ifail (unexpected_eof "capture-device read is out of range")
  else match capture_blocks self !! b with Some data => iret data | None => iret zero_block end.

Definition capture_write_block (b : Z) (buf : block) : M CaptureDevice unit :=
  let! self := iget id in
  if capture_block_count self <=? b then ifail (unexpected_eof "capture-device write is out of range")
  else iset (fun self => mkCaptureDevice (capture_block_count self) (<[b := buf]> (capture_blocks self))).

#[global] Instance CaptureDevice_BlockDevice : BlockDevice CaptureDevice := {
  block_count := capture_block_count;
  read_block := capture_read_block;
  write_block := capture_write_block;
  flush := iret tt;
}.

Section Collect.
Context `{BlockDevice D}.

(** One iteration of [collect_changed_range]; the capture device and the
    [changed] vector are the accumulator. *)
Definition collect_block (missing_message : string) (acc : CaptureDevice * list (Z * block)) (b : Z)
    : M D (CaptureDevice * list (Z * block)) :=
  let '(self, changed) := acc in
  let! (desired, self) := ilift (run_on (take_rendered_block b missing_message) self) in
  let! current := read_block b in
  iret (self, if bool_decide (current <> desired) then changed ++ [(b, desired)] else changed).

Definition collect_changed_range (self : CaptureDevice) (range : Z * Z) (missing_message : string)
    (changed : list (Z * block)) : M D (CaptureDevice * list (Z * block)) :=
  ifold (collect_block missing_message) (self, changed) (zrange range.1 range.2).
End Collect.

(** The log of one complete transaction, as each transaction module builds it
    on a fresh [JournalLog]. *)
Definition single_transaction_log (changed : list (Z * block)) : outcome io_error (list JournalEntry) :=
  let? r := run_on (let! txid := begin in
                    do! ifor (fun '(b, data) => write txid b data) changed in
                    commit txid) log_new in
  Ok (entries r.2).

(** ** Captured writes *)

Lemma capture_write_seq ws (d : CaptureDevice) :
  Forall (fun w => w.1 < capture_block_count d) ws ->
  write_seq ws d =
    (Ok tt, mkCaptureDevice (capture_block_count d) (install ws (capture_blocks d))).
Proof.
  intros Hws. revert d Hws. induction ws as [|[b data] ws IH]; intros d Hws; [by destruct d|].
  apply Forall_cons in Hws as [Hb Hws]. simpl in Hb.
  change (write_seq ((b, data) :: ws) d) with ((do! write_block b data in write_seq ws) d).
  unfold ibind. simpl. unfold capture_write_block, ibind, iget, id, iset.
  rewrite (proj2 (Z.leb_gt _ _)) by lia. by rewrite IH.
Qed.

Lemma install_snoc ws b data m : install (ws ++ [(b, data)]) m = <[b := data]> (install ws m).
Proof. by rewrite install_app. Qed.

Lemma lookup_install_notin ws m b : b ∉ ws.*1 -> install ws m !! b = m !! b.
Proof.
  induction ws as [|[c data] ws IH] using rev_ind; [done|].
  rewrite fmap_app, elem_of_app, install_snoc. simpl. intros Hb.
  rewrite lookup_insert_ne by (intros ->; apply Hb; right; constructor). apply IH. tauto.
Qed.

Lemma lookup_install_in ws m b data : NoDup ws.*1 -> (b, data) ∈ ws -> install ws m !! b = Some data.
Proof.
  induction ws as [|[c x] ws IH] using rev_ind; intros Hnd Hin; [by apply not_elem_of_nil in Hin|].
  rewrite fmap_app in Hnd. apply NoDup_app in Hnd as (Hnd & Hdis & _).
  rewrite install_snoc. apply elem_of_app in Hin as [Hin|Hin].
  - rewrite lookup_insert_ne; [by apply IH|]. intros ->. apply (Hdis b).
    + apply list_elem_of_fmap. by exists (b, data).
    + constructor.
  - apply list_elem_of_singleton in Hin as [= -> ->]. by rewrite lookup_insert_eq.
Qed.

(** ** Region writes by block number *)

Definition region_blocks (start n : Z) (image : bytes) : list (Z * block) :=
  (fun b => (b, sub image ((b - start) * BLOCK_SIZE) BLOCK_SIZE)) <$> zrange start (start + n).

Lemma region_writes_blocks start n image :
  0 <= n -> region_writes start n image = reverse (region_blocks start n image).
Proof.
  intros Hn. unfold region_writes, region_blocks, chunks. f_equal.
  assert (Hz : zrange start (start + n) = (fun i => start + i) <$> seqZ 0 n).
  { unfold zrange. replace (start + n - start) with n by lia. unfold seqZ.
    rewrite <- list_fmap_compose. apply list_fmap_ext. intros i x _. simpl. lia. }
  rewrite Hz, <- list_fmap_compose, zip_with_fmap_l, zip_with_fmap_r, zip_with_diag.
  apply list_fmap_ext. intros i x _. simpl. do 3 f_equal. lia.
Qed.

Lemma region_blocks_keys start n image : (region_blocks start n image).*1 = zrange start (start + n).
Proof.
  unfold region_blocks. rewrite <- list_fmap_compose. simpl. apply list_fmap_id.
Qed.

Lemma elem_of_region_blocks start n image b data :
  (b, data) ∈ region_blocks start n image <->
    start <= b < start + n /\ data = sub image ((b - start) * BLOCK_SIZE) BLOCK_SIZE.
Proof.
  unfold region_blocks. rewrite list_elem_of_fmap. split.
  - intros (c & [= -> ->] & Hc). by apply elem_of_zrange in Hc.
  - intros [Hb ->]. exists b. split; [done|]. by apply elem_of_zrange.
Qed.

(** ** Order does not matter for writes to distinct blocks *)

Definition write_keys (ws : list (Z * block)) : list nat := Z.to_nat <$> ws.*1.

Lemma last_write_in ws b data :
  NoDup (write_keys ws) -> (b, data) ∈ ws -> last_write ws (Z.to_nat b) = Some data.
Proof.
  induction ws as [|[c x] ws IH] using rev_ind; intros Hnd Hin; [by apply not_elem_of_nil in Hin|].
  unfold write_keys in Hnd. rewrite !fmap_app in Hnd. apply NoDup_app in Hnd as (Hnd & Hdis & _).
  rewrite last_write_snoc. apply elem_of_app in Hin as [Hin|Hin].
  - rewrite decide_False; [by apply IH|]. intros Heq. apply (Hdis (Z.to_nat b)).
    + apply list_elem_of_fmap. exists b. split; [done|]. apply list_elem_of_fmap. by exists (b, data).
    + simpl. rewrite Heq. constructor.
  - apply list_elem_of_singleton in Hin as [= -> ->]. by rewrite decide_True.
Qed.

Lemma last_write_notin ws i : i ∉ write_keys ws -> last_write ws i = None.
Proof.
  induction ws as [|[c x] ws IH] using rev_ind; intros Hi; [done|].
  unfold write_keys in *. rewrite !fmap_app, elem_of_app in Hi. simpl in Hi.
  rewrite last_write_snoc, decide_False by (intros <-; apply Hi; right; constructor). apply IH. tauto.
Qed.

(** Writes that change nothing may be left out, and the order is free. *)
Lemma apply_writes_subset ws ws' v :
  NoDup (write_keys ws) -> NoDup (write_keys ws') -> (forall w, w ∈ ws' -> w ∈ ws) ->
  (forall w, w ∈ ws -> w ∉ ws' -> v !! Z.to_nat w.1 = Some w.2) ->
  apply_writes ws' v = apply_writes ws v.
Proof.
  intros Hnd Hnd' Hsub Hsame. apply list_eq. intros i.
  pose proof (zlen_apply_writes ws v). pose proof (zlen_apply_writes ws' v). unfold zlen in *.
  destruct (decide (i < length v)%nat) as [Hi|Hi].
  2: { rewrite !lookup_ge_None_2 by lia. done. }
  rewrite !apply_writes_lookup by done.
  destruct (decide (i ∈ write_keys ws')) as [Hin|Hin].
  - unfold write_keys in Hin. apply list_elem_of_fmap in Hin as (b & -> & Hin).
    apply list_elem_of_fmap in Hin as ([c data] & -> & Hin). simpl.
    rewrite (last_write_in ws' c data), (last_write_in ws c data) by auto. done.
  - rewrite (last_write_notin ws') by done. destruct (decide (i ∈ write_keys ws)) as [Hin'|Hin'].
    + unfold write_keys in Hin'. apply list_elem_of_fmap in Hin' as (b & -> & Hin').
      apply list_elem_of_fmap in Hin' as ([c data] & -> & Hin'). simpl in *.
      rewrite (last_write_in ws c data) by done. apply (Hsame (c, data)); [done|].
      intros Hc. apply Hin. apply list_elem_of_fmap. exists c. split; [done|].
      apply list_elem_of_fmap. by exists (c, data).
    + by rewrite (last_write_notin ws).
Qed.

Lemma write_keys_region start n image : 0 <= start -> NoDup (write_keys (region_blocks start n image)).
Proof.
  intros H0. unfold write_keys. rewrite region_blocks_keys. apply NoDup_fmap_2_strong.
  - intros x y Hx%elem_of_zrange Hy%elem_of_zrange. lia.
  - apply NoDup_seqZ.
Qed.

Lemma write_keys_reverse ws : write_keys (reverse ws) = reverse (write_keys ws).
Proof. unfold write_keys. by rewrite !fmap_reverse. Qed.

Lemma apply_region_blocks v start n image :
  0 <= start -> 0 <= n -> start + n <= zlen v -> zlen image = n * BLOCK_SIZE ->
  apply_writes (region_blocks start n image) v = put v start (chunks n image).
Proof.
  intros H0 Hn Hl Hi. rewrite <- apply_region_writes, region_writes_blocks by done. symmetry.
  apply apply_writes_subset.
  - by apply write_keys_region.
  - rewrite write_keys_reverse. rewrite reverse_Permutation. by apply write_keys_region.
  - intros w. by rewrite elem_of_reverse.
  - intros w Hw Hn'. by rewrite elem_of_reverse in Hn'.
Qed.

(** ** Collecting the blocks that change *)

Definition changed_writes (v : list block) (ws : list (Z * block)) : list (Z * block) :=
  filter (fun w => v !! Z.to_nat w.1 <> Some w.2) ws.

Lemma changed_writes_app v ws1 ws2 :
  changed_writes v (ws1 ++ ws2) = changed_writes v ws1 ++ changed_writes v ws2.
Proof. apply filter_app. Qed.

Lemma apply_changed_writes v ws :
  NoDup (write_keys ws) -> apply_writes (changed_writes v ws) v = apply_writes ws v.
Proof.
  intros Hnd. apply apply_writes_subset; [done| | |].
  - unfold write_keys. rewrite <- list_fmap_compose.
    unfold write_keys in Hnd. rewrite <- list_fmap_compose in Hnd.
    eapply sublist_NoDup; [exact Hnd|]. apply fmap_sublist, sublist_filter.
  - intros w Hw. by apply list_elem_of_filter in Hw as [_ ?].
  - intros w Hw Hnw. destruct (decide (v !! Z.to_nat w.1 = Some w.2)); [done|].
    exfalso. apply Hnw. by apply list_elem_of_filter.
Qed.

Lemma Forall_changed_writes P v ws : Forall P ws -> Forall P (changed_writes v ws).
Proof.
  rewrite !Forall_forall. intros H w Hw. apply H. by apply list_elem_of_filter in Hw as [_ ?].
Qed.

(** Nothing changed exactly when the disk already holds the writes. *)
Lemma changed_writes_nil v ws :
  changed_writes v ws = [] -> NoDup (write_keys ws) -> apply_writes ws v = v.
Proof. intros Hnil Hnd. by rewrite <- apply_changed_writes, Hnil. Qed.

Section CollectSpec.
Context `{DeviceLaws D}.
Implicit Types (d : D) (v s : list block).

Lemma wp_collect h d v s self a b msg changed (f : Z -> block) :
  at_state h d v s -> 0 <= a <= b -> b <= zlen v ->
  (forall k, a <= k < b -> capture_blocks self !! k = Some (f k)) ->
  wp (collect_changed_range self (a, b) msg changed)
    (fun r d' => at_state h d' v s /\
       (forall k, capture_blocks r.1 !! k =
          if decide (a <= k < b) then None else capture_blocks self !! k) /\
       r.2 = changed ++ changed_writes v ((fun k => (k, f k)) <$> zrange a b))
    (fun _ d' => crashed d' s /\ h = false) d.
Proof.
  intros Hst Hab Hb Hf. unfold collect_changed_range. cbn [fst snd].
  set (I := fun (r : CaptureDevice * list (Z * block)) (j : Z) (d' : D) => at_state h d' v s /\
       (forall k, capture_blocks r.1 !! k =
          if decide (a <= k < j) then None else capture_blocks self !! k) /\
       r.2 = changed ++ changed_writes v ((fun k => (k, f k)) <$> zrange a j)).
  change (wp (ifold (collect_block msg) (self, changed) (zrange a b)) (fun r => I r b)
    (fun _ d' => crashed d' s /\ h = false) d).
  apply wp_fold_range; [lia| |].
  { split; [done|]. split; [intros k; by rewrite decide_False by lia|].
    rewrite zrange_nil by lia. simpl. by rewrite app_nil_r. }
  intros j [self' changed'] d' Hj (Hst' & Hbl & Hch). simpl in *. subst changed'.
  apply wp_bind, wp_lift. unfold run_on, take_rendered_block, ibind, iget, id.
  rewrite Hbl, decide_False, Hf by lia. simpl.
  apply wp_bind. eapply wp_mono; [eapply (wp_read h d' v s); (done || lia)|..]; simpl.
  2: { intros e d'' [Hc%at_state_crashed Hh]. split; [done|]. apply Hh. lia. }
  intros current d'' [Hcur Hst'']. apply wp_ret. unfold I. cbn [fst snd capture_blocks].
  split; [done|]. split.
  - intros k. destruct (decide (k = j)) as [->|Hne].
    + rewrite lookup_delete_eq. by rewrite decide_True by lia.
    + rewrite lookup_delete_ne, Hbl by done. by repeat case_decide; try lia.
  - rewrite zrange_snoc, fmap_app, changed_writes_app, app_assoc by lia. simpl.
    assert (Hone : changed_writes v [(j, f j)] = if bool_decide (current <> f j) then [(j, f j)] else []).
    { unfold changed_writes. rewrite filter_cons, filter_nil. simpl. rewrite Hcur.
      case_bool_decide; case_decide; naive_solver. }
    rewrite Hone. case_bool_decide; [done|by rewrite app_nil_r].
Qed.
End CollectSpec.

(** ** The log of the transaction *)

Lemma log_writes t ws log :
  active log = Some t ->
  ifor (fun '(b, data) => write t b data) ws log =
    (Ok tt, mkJournalLog (entries log ++ write_entries t ws) (active log) (next_txid log)).
Proof.
  revert log. induction ws as [|[b data] ws IH]; intros log Ha; simpl.
  { rewrite app_nil_r. by destruct log. }
  unfold ibind at 1. unfold write at 1. unfold ibind, iget, id, ilift, require_active, iset.
  rewrite bool_decide_eq_true_2 by done. simpl. rewrite IH by done. simpl. by rewrite <- app_assoc.
Qed.

Definition tx_log (ws : list (Z * block)) : list JournalEntry := tx_entries (mkTransaction 0 ws).

Lemma single_transaction_log_Ok ws : single_transaction_log ws = Ok (tx_log ws).
Proof.
  unfold single_transaction_log, run_on, ibind. simpl. rewrite log_writes by done. simpl.
  unfold commit, ibind, iget, id, ilift, require_active, iset. simpl.
  done.
Qed.

Lemma tx_log_committed ws : committed_txs (tx_log ws) = Some [ws].
Proof.
  unfold committed_txs, tx_log. rewrite <- (app_nil_r (tx_entries _)), scan_tx. done.
Qed.

Lemma tx_log_ok sb ws :
  home_writes_ok sb ws -> is_u64 (total_blocks sb) -> 0 <= allocation_start sb ->
  Forall entry_ok (tx_log ws) /\ log_ok sb (tx_log ws).
Proof.
  intros Hws Hu H0. split.
  - unfold tx_log, tx_entries, write_entries. simpl. constructor; [done|]. apply Forall_app. split; [|by apply Forall_singleton].
    apply Forall_fmap. eapply Forall_impl; [exact Hws|]. intros w [Hh Hb]. simpl.
    unfold home_block in Hh. split; [done|]. split; [ulia|done].
  - split; [by rewrite tx_log_committed|]. unfold tx_log, tx_entries, write_entries. simpl.
    constructor; [done|]. apply Forall_app.
    split; [|by apply Forall_singleton]. apply Forall_fmap. eapply Forall_impl; [exact Hws|].
    intros w [Hh _]. done.
Qed.

Lemma tx_log_replay ws : replay_writes (tx_log ws) = ws.
Proof. unfold replay_writes. rewrite tx_log_committed. simpl. by rewrite app_nil_r. Qed.

Lemma tx_log_report ws : report_of (tx_log ws) = mkRecoveryReport 1 (zlen ws).
Proof. unfold report_of. by rewrite tx_log_replay, tx_log_committed. Qed.

(** The journal space a transaction needs: the region header, a begin and a
    commit record, and a header and a block for every write. *)
Lemma zlen_tx_log ws :
  Forall (fun w => block_ok w.2) ws -> zlen (records (tx_log ws)) = 64 + 4128 * zlen ws.
Proof.
  intros Hws. assert (Hw : zlen (records (write_entries 0 ws)) = 4128 * zlen ws).
  { induction Hws as [|[b data] ws [Hl _] _ IH]; [done|]. simpl in Hl. unfold write_entries in *.
    rewrite fmap_cons, records_cons, zlen_app, zlen_record, IH, zlen_cons. simpl.
    unfold payload_of. simpl. rewrite Hl. unfold JournalCodec.HEADER_SIZE, BLOCK_SIZE. lia. }
  assert (Happ : forall es1 es2, records (es1 ++ es2) = records es1 ++ records es2).
  { intros es1 es2. unfold records. by rewrite fmap_app, join_app. }
  unfold tx_log, tx_entries. cbn [tx_id tx_writes]. rewrite records_cons, Happ, records_cons.
  rewrite !zlen_app, !zlen_record, Hw. unfold JournalCodec.HEADER_SIZE. cbn. unfold zlen. simpl. lia.
Qed.

Lemma journal_fits_tx sb ws :
  Forall (fun w => block_ok w.2) ws ->
  journal_fits sb (tx_log ws) <-> 96 + 4128 * zlen ws <= journal_blocks sb * BLOCK_SIZE.
Proof. intros Hws. unfold journal_fits. rewrite zlen_tx_log by done. unfold HEADER_SIZE. lia. Qed.

(** ** Committing *)

(** The commit of a transaction: log it durably, then replay and checkpoint. *)
Definition commit_checkpointed `{BlockDevice D} (sb : Superblock) (es : list JournalEntry)
    : M D RecoveryReport :=
  do! store_journal_image sb es in recover_journal_and_checkpoint sb.

(** The same without the checkpoint, as the single-table transactions do it. *)
Definition commit_retained `{BlockDevice D} (sb : Superblock) (es : list JournalEntry)
    : M D RecoveryReport :=
  do! store_journal_image sb es in recover_journal sb.

Definition logged (sb : Superblock) (ws : list (Z * block)) (v : list block) : list block :=
  with_journal sb (journal_region_of sb (tx_log ws)) v.

(** The durable images from which recovery finishes the transaction: the log
    is complete, and its writes are replayed or not. *)
Definition in_flight (sb : Superblock) (v : list block) (ws : list (Z * block)) (s : list block) : Prop :=
  journal_fits sb (tx_log ws) /\ (s = logged sb ws v \/ s = apply_writes ws (logged sb ws v)).

(** The durable images a crash during the transaction can leave. *)
Definition wal_state (sb : Superblock) (v : list block) (ws : list (Z * block)) (s : list block) : Prop :=
  s = v \/ in_flight sb v ws s.

(** A disk image whose journal has nothing left to do. *)
Definition quiescent (sb : Superblock) (v : list block) : Prop :=
  exists es, journal_on_disk sb v = Ok es /\ apply_writes (replay_writes es) v = v.

Section Commit.
Context (sb : Superblock) (Hgeo : geometry sb).
Context (v : list block) (Hv : image_ok (total_blocks sb) v).
Context (ws : list (Z * block)) (Hws : home_writes_ok sb ws).

Lemma tx_log_good : Forall entry_ok (tx_log ws) /\ log_ok sb (tx_log ws).
Proof.
  pose proof (geometry_bounds sb Hgeo). destruct Hgeo as [Hwf _]. pose proof (wf_total _ Hwf).
  apply tx_log_ok; [done|done|lia].
Qed.

Lemma Forall_journal_region : Forall is_byte (journal_region_of sb (tx_log ws)).
Proof. apply Forall_region_image, Forall_records, tx_log_good. Qed.

Lemma logged_image_ok : journal_fits sb (tx_log ws) -> image_ok (total_blocks sb) (logged sb ws v).
Proof.
  intros Hfit. pose proof (geometry_bounds sb Hgeo).
  apply image_ok_put; [done|lia..| |apply Forall_journal_region]. by apply zlen_region_image.
Qed.

Lemma journal_on_logged :
  journal_fits sb (tx_log ws) -> journal_on_disk sb (logged sb ws v) = Ok (tx_log ws).
Proof.
  intros Hfit. pose proof (geometry_bounds sb Hgeo). destruct Hv as (Hl & _).
  destruct tx_log_good as [Hes Hlog].
  unfold journal_on_disk, logged, with_journal.
  rewrite disk_region_put_same; [|lia..|by apply zlen_region_image|apply Forall_journal_region].
  by apply decode_region_image.
Qed.

Lemma clear_logged : clear_journal sb (apply_writes ws (logged sb ws v)) = clear_journal sb (apply_writes ws v).
Proof.
  pose proof (geometry_bounds sb Hgeo). destruct Hv as (Hl & _). unfold logged.
  rewrite (home_with_journal sb Hgeo) by (done || lia). unfold clear_journal, with_journal.
  apply put_put_same; rewrite ?zlen_chunks by lia; [lia| |done]. rewrite zlen_apply_writes. lia.
Qed.

Lemma in_flight_facts s : in_flight sb v ws s ->
  image_ok (total_blocks sb) s /\ journal_on_disk sb s = Ok (tx_log ws) /\
  apply_writes ws s = apply_writes ws (logged sb ws v).
Proof.
  intros [Hfit [->| ->]].
  - split; [by apply logged_image_ok|]. split; [by apply journal_on_logged|done].
  - split; [apply (image_ok_home sb); [by apply logged_image_ok|done]|].
    split; [|apply apply_writes_idemp]. rewrite journal_on_disk_home by done. by apply journal_on_logged.
Qed.

Lemma wal_state_image s : wal_state sb v ws s -> image_ok (total_blocks sb) s.
Proof. intros [->|Hs]; [done|by apply in_flight_facts]. Qed.

Context `{DeviceLaws D}.
Implicit Types (d : D).

(** Recovery from an in-flight image finishes the transaction, and a crash
    during it leaves an in-flight image again. *)
Lemma wp_recover_in_flight h d s :
  at_state h d s s -> in_flight sb v ws s ->
  wp (recover_journal_and_checkpoint sb)
    (fun r d' => journal_fits sb (tx_log ws) /\ r = mkRecoveryReport 1 (zlen ws) /\
       at_state h d' (clear_journal sb (apply_writes ws v)) (clear_journal sb (apply_writes ws v)))
    (fun _ d' => h = false /\ exists s', crashed d' s' /\ in_flight sb v ws s') d.
Proof.
  intros Hst Hs. destruct (in_flight_facts s Hs) as ((Hl & _) & Hj & Ha).
  eapply wp_mono; [by apply wp_recover_and_checkpoint|..]; simpl.
  - intros r d' (es & Hes & -> & Hst'). rewrite Hj in Hes. injection Hes as <-.
    rewrite tx_log_report. split; [apply Hs|]. split; [done|]. rewrite tx_log_replay, Ha in Hst'.
    unfold checkpointed in Hst'. simpl in Hst'. by rewrite clear_logged in Hst'.
  - intros e d' [Hcase Hh]. split; [destruct h; [|done]; specialize (Hh eq_refl); congruence|].
    destruct Hcase as [Hc|(es & Hes & Hc)]; [by exists s|].
    rewrite Hj in Hes. injection Hes as <-. rewrite tx_log_replay, Ha in Hc.
    eexists. split; [exact Hc|]. destruct Hs as [Hfit _]. split; [done|]. by right.
Qed.

(** The same for recovery that keeps the log. *)
Lemma wp_recover_retained h d s :
  at_state h d s s -> in_flight sb v ws s ->
  wp (recover_journal sb)
    (fun r d' => journal_fits sb (tx_log ws) /\ r = mkRecoveryReport 1 (zlen ws) /\
       let v' := apply_writes ws (logged sb ws v) in at_state h d' v' v')
    (fun _ d' => h = false /\ exists s', crashed d' s' /\ in_flight sb v ws s') d.
Proof.
  intros Hst Hs. destruct (in_flight_facts s Hs) as ((Hl & _) & Hj & Ha).
  eapply wp_mono; [by apply wp_recover_journal|..]; simpl.
  - intros r d' (es & Hes & -> & Hst'). rewrite Hj in Hes. injection Hes as <-.
    rewrite tx_log_report. split; [apply Hs|]. split; [done|]. by rewrite tx_log_replay, Ha in Hst'.
  - intros e d' [Hc Hh]. split; [destruct h; [|done]; specialize (Hh eq_refl); congruence|].
    by exists s.
Qed.

(** Running the whole commit from a clean device. *)
Lemma wp_commit_with (m : M D RecoveryReport) Q h d :
  at_state h d v v ->
  (forall d', in_flight sb v ws (logged sb ws v) -> at_state h d' (logged sb ws v) (logged sb ws v) ->
     wp m Q (fun _ d'' => h = false /\ exists s', crashed d'' s' /\ in_flight sb v ws s') d') ->
  wp (do! store_journal_image sb (tx_log ws) in m) Q
    (fun _ d' => (h = true -> ~ journal_fits sb (tx_log ws)) /\
       exists s, crashed d' s /\ wal_state sb v ws s) d.
Proof.
  intros Hst Hm. destruct Hv as (Hl & _). destruct tx_log_good as [Hes Hlog]. apply wp_bind.
  eapply wp_mono; [by apply wp_store_journal_image|..]; simpl.
  2: { intros e d' [Hc Hh]. split; [done|]. exists v. split; [done|by left]. }
  intros [] d' [Hfit Hst']. eapply wp_mono; [apply Hm; [by split; [|left]|done]|done|]. simpl.
  intros e d'' [-> (s' & Hc & Hs')]. split; [done|]. exists s'. split; [done|by right].
Qed.

Lemma wp_commit_checkpointed h d :
  at_state h d v v ->
  wp (commit_checkpointed sb (tx_log ws))
    (fun r d' => journal_fits sb (tx_log ws) /\ r = mkRecoveryReport 1 (zlen ws) /\
       at_state h d' (clear_journal sb (apply_writes ws v)) (clear_journal sb (apply_writes ws v)))
    (fun _ d' => (h = true -> ~ journal_fits sb (tx_log ws)) /\
       exists s, crashed d' s /\ wal_state sb v ws s) d.
Proof. intros Hst. apply wp_commit_with; [done|]. intros d' Hf Hst'. by eapply wp_recover_in_flight. Qed.

Lemma wp_commit_retained h d :
  at_state h d v v ->
  wp (commit_retained sb (tx_log ws))
    (fun r d' => journal_fits sb (tx_log ws) /\ r = mkRecoveryReport 1 (zlen ws) /\
       let v' := apply_writes ws (logged sb ws v) in at_state h d' v' v')
    (fun _ d' => (h = true -> ~ journal_fits sb (tx_log ws)) /\
       exists s, crashed d' s /\ wal_state sb v ws s) d.
Proof. intros Hst. apply wp_commit_with; [done|]. intros d' Hf Hst'. by eapply wp_recover_retained. Qed.
End Commit.

(** ** The claims *)

(** Journaling only the blocks that differ is the same as writing every
    rendered block: on a device that does not fail, [collect_changed_range]
    over a range the capture device covers takes exactly that range out of
    it, returns writes that each differ from the disk, and applying them gives
    the image that writing all rendered blocks gives. *)
Theorem collect_is_full_write `{DeviceLaws D} (d : D) v s self a b msg (f : Z -> block) :
  at_state true d v s -> 0 <= a <= b -> b <= zlen v ->
  (forall k, a <= k < b -> capture_blocks self !! k = Some (f k)) ->
  exists self' changed d', collect_changed_range self (a, b) msg [] d = (Ok (self', changed), d') /\
    volatile d' = v /\ durable d' = s /\
    (forall k, capture_blocks self' !! k = if decide (a <= k < b) then None else capture_blocks self !! k) /\
    Forall (fun w => a <= w.1 < b /\ w.2 = f w.1 /\ v !! Z.to_nat w.1 <> Some w.2) changed /\
    apply_writes changed v = apply_writes ((fun k => (k, f k)) <$> zrange a b) v.
Proof.
  intros Hst Hab Hb Hf. pose proof (wp_collect true d v s self a b msg [] f Hst Hab Hb Hf) as W. unfold wp in W.
  destruct (collect_changed_range self (a, b) msg [] d) as [[[self' changed]|e|] d'];
    [|by destruct W as [_ W]|done]. destruct W as ((_ & Hv & Hs & _) & Hcap & Hch). simpl in *.
  exists self', changed, d'. split; [done|]. split; [done|]. split; [done|]. split; [done|].
  rewrite Hch. split.
  - apply Forall_forall. intros w Hw. apply list_elem_of_filter in Hw as [Hne Hin].
    apply list_elem_of_fmap in Hin as (k & -> & Hk). apply elem_of_zrange in Hk. done.
  - apply apply_changed_writes. unfold write_keys.
    assert (Hid : ((fun k => (k, f k)) <$> zrange a b).*1 = zrange a b)
      by (rewrite <- list_fmap_compose; apply list_fmap_id).
    rewrite Hid. apply NoDup_fmap_2_strong; [|apply NoDup_seqZ].
    intros x y Hx%elem_of_zrange Hy%elem_of_zrange. lia.
Qed.

(** The journal bounds a transaction: on a device that does not fail, the
    log of a transaction with [n] block writes is accepted exactly when
    [96 + 4128 * n] bytes fit the journal region, so with the default four
    journal blocks a transaction of up to three changed blocks commits and a
    larger one is refused with the disk untouched. *)
Theorem journal_capacity `{DeviceLaws D} sb ws (d : D) v :
  geometry sb -> home_writes_ok sb ws -> at_state true d v v -> zlen v = total_blocks sb ->
  let run := store_journal_image sb (tx_log ws) d in
  (run.1 = Ok tt <-> 96 + 4128 * zlen ws <= journal_blocks sb * BLOCK_SIZE) /\
  (journal_blocks sb = DEFAULT_JOURNAL_BLOCKS -> run.1 = Ok tt <-> zlen ws <= 3) /\
  (run.1 <> Ok tt -> durable run.2 = v).
Proof.
  intros Hgeo Hws Hst Hlen run. destruct (tx_log_good sb Hgeo ws Hws) as [Hes Hlog].
  pose proof (wp_store_journal_image sb Hgeo true d v v (tx_log ws) Hst Hlen Hes Hlog) as W.
  assert (Hb : Forall (fun w => block_ok w.2) ws) by (eapply Forall_impl; [exact Hws|]; by intros w []).
  assert (Hiff : run.1 = Ok tt <-> 96 + 4128 * zlen ws <= journal_blocks sb * BLOCK_SIZE).
  { rewrite <- journal_fits_tx by done. unfold wp in W. fold run in W.
    destruct run as [[[]|e|] d1]; simpl in *; [tauto| |done]. destruct W as [_ W]. specialize (W eq_refl).
    split; [done|tauto]. }
  split; [done|]. split.
  - intros Hj. rewrite Hiff, Hj. unfold DEFAULT_JOURNAL_BLOCKS, BLOCK_SIZE. lia.
  - intros Hn. unfold wp in W. fold run in W. destruct run as [[[]|e|] d1]; simpl in *; [done| |done].
    by destruct W as [[_ ?] _].
Qed.
