(* ===== verification/InodeCodec.v ===== *)
(** * The inode record codec: [inode_codec.rs]

    One persisted inode as a checksummed record: header, then its blocks as
    little-endian words. *)

From S2P Require Import Prelude Bytes.

(** [InodeKind] of [inode.rs]. *)
Inductive InodeKind : Type := File | Directory.
#[global] Instance InodeKind_eq_dec : EqDecision InodeKind.
Proof. solve_decision. Defined.

(** [*b"INO1"] *)
Definition INODE_RECORD_MAGIC : bytes := [73; 78; 79; 49].
Definition INODE_RECORD_VERSION : Z := 1.
Definition INODE_RECORD_HEADER_LEN : Z := 32.
Definition KIND_FILE : Z := 1.
Definition KIND_DIRECTORY : Z := 2.
Definition MAGIC_OFFSET : Z := 0.
Definition VERSION_OFFSET : Z := 4.
Definition KIND_OFFSET : Z := 6.
Definition TOTAL_LEN_OFFSET : Z := 8.
Definition INODE_ID_OFFSET : Z := 12.
Definition BLOCK_COUNT_OFFSET : Z := 20.
Definition CRC_OFFSET : Z := 24.
Definition RESERVED_OFFSET : Z := 28.

Record PersistedInode : Type := mkPersistedInode {
  id : Z;
  kind : InodeKind;
  blocks : list Z;
}.
#[global] Instance PersistedInode_eq_dec : EqDecision PersistedInode.
Proof. solve_decision. Defined.

Definition kind_code (kind : InodeKind) : Z :=
  match kind with File => KIND_FILE | Directory => KIND_DIRECTORY end.

(** [sorted.windows(2).any(|pair| pair[0] == pair[1])] *)
Fixpoint adjacent_equal (l : list Z) : bool :=
  match l with
  | x :: (y :: _) as l' => (x =? y) || adjacent_equal l'
  | _ => false
  end.

(** Sort a copy and look for equal neighbours. *)
Definition has_duplicates (blocks : list Z) : bool := adjacent_equal (merge_sort Z.le blocks).

Definition record_crc (bs : bytes) : Z := crc32_masked CRC_OFFSET bs.

(** The bodies of the two loops over the block list. *)
Definition encode_block (bs : bytes) (entry : Z * Z) : outcome io_error bytes :=
  let '(index, block) := entry in
  let offset := INODE_RECORD_HEADER_LEN + index * 8 in
  copy_range bs offset (offset + 8) (u64_le block).

Definition decode_block (bs : bytes) (blocks : list Z) (index : Z) : outcome io_error (list Z) :=
  let offset := INODE_RECORD_HEADER_LEN + index * 8 in
  let? b := read_u64 bs offset in Ok (blocks ++ [b]).

Definition encode_inode (inode : PersistedInode) : outcome io_error bytes :=
  try? ensure (negb (id inode =? 0)) (invalid_input "inode identifier zero is reserved") in
  let? block_count := ok_or (u32_try_from (zlen (blocks inode)))
                        (invalid_input "inode block count exceeds codec limit") in
  let? payload_len := ok_or (checked_mul (zlen (blocks inode)) 8)
                        (invalid_input "inode record size overflow") in
  let? total_len := ok_or (checked_add INODE_RECORD_HEADER_LEN payload_len)
                      (invalid_input "inode record size overflow") in
  let? total_len_u32 := ok_or (u32_try_from total_len)
                          (invalid_input "inode record length exceeds codec limit") in
  try? ensure (negb (has_duplicates (blocks inode)))
         (invalid_input "inode record contains duplicate block references") in
  let bs := zeros total_len in
  let? bs := copy_range bs MAGIC_OFFSET (MAGIC_OFFSET + 4) INODE_RECORD_MAGIC in
  let? bs := copy_range bs VERSION_OFFSET (VERSION_OFFSET + 2) (u16_le INODE_RECORD_VERSION) in
  let? bs := copy_range bs KIND_OFFSET (KIND_OFFSET + 2) (u16_le (kind_code (kind inode))) in
  let? bs := copy_range bs TOTAL_LEN_OFFSET (TOTAL_LEN_OFFSET + 4) (u32_le total_len_u32) in
  let? bs := copy_range bs INODE_ID_OFFSET (INODE_ID_OFFSET + 8) (u64_le (id inode)) in
  let? bs := copy_range bs BLOCK_COUNT_OFFSET (BLOCK_COUNT_OFFSET + 4) (u32_le block_count) in
  let? bs := ofold encode_block bs (enumerate (blocks inode)) in
  let crc := record_crc bs in
  copy_range bs CRC_OFFSET (CRC_OFFSET + 4) (u32_le crc).

Definition decode_inode (bs : bytes) : outcome io_error PersistedInode :=
  try? ensure (INODE_RECORD_HEADER_LEN <=? zlen bs) (unexpected_eof "torn inode record header") in
  let? magic := slice bs MAGIC_OFFSET (MAGIC_OFFSET + 4) in
  try? ensure (bytes_eqb magic INODE_RECORD_MAGIC) (invalid_data "invalid inode record magic") in
  let? version := read_u16 bs VERSION_OFFSET in
  try? ensure (version =? INODE_RECORD_VERSION)
         (invalid_data ("unsupported inode record version " +:+ pretty version)) in
  let? reserved := slice bs RESERVED_OFFSET INODE_RECORD_HEADER_LEN in
  try? ensure (negb (any_nonzero reserved))
         (invalid_data "inode record reserved bytes are non-zero") in
  let? total_len_u32 := read_u32 bs TOTAL_LEN_OFFSET in
  let? total_len := ok_or (usize_try_from total_len_u32)
                      (invalid_data "inode record length is invalid") in
  let? block_count_u32 := read_u32 bs BLOCK_COUNT_OFFSET in
  let? block_count := ok_or (usize_try_from block_count_u32)
                        (invalid_data "inode block count is invalid") in
  let? payload_len := ok_or (checked_mul block_count 8) (invalid_data "inode record size overflow") in
  let? expected_len := ok_or (checked_add INODE_RECORD_HEADER_LEN payload_len)
                         (invalid_data "inode record size overflow") in
  try? ensure (total_len =? expected_len)
         (invalid_data "inode record length does not match block count") in
  try? ensure (total_len <=? zlen bs) (unexpected_eof "torn inode record payload") in
  try? ensure (zlen bs =? total_len) (invalid_data "inode decoder requires exactly one record") in
  let? stored_crc := read_u32 bs CRC_OFFSET in
  try? ensure (stored_crc =? record_crc bs) (invalid_data "inode record checksum mismatch") in
  let? id := read_u64 bs INODE_ID_OFFSET in
  try? ensure (negb (id =? 0)) (invalid_data "inode identifier zero is reserved") in
  let? code := read_u16 bs KIND_OFFSET in
  let? kind := (if code =? KIND_FILE then Ok File
                else if code =? KIND_DIRECTORY then Ok Directory
                else Err (invalid_data "invalid inode kind")) in
  let? blocks := ofold (decode_block bs) [] (zrange 0 block_count) in
  try? ensure (negb (has_duplicates blocks))
         (invalid_data "inode record contains duplicate block references") in
  Ok (mkPersistedInode id kind blocks).

(** ** Duplicates *)

Lemma adjacent_equal_sorted l : StronglySorted Z.le l -> adjacent_equal l = false <-> NoDup l.
Proof.
  intros Hs. induction Hs as [|x l Hs IH Hx]; [simpl; split; [constructor|done]|].
  destruct l as [|y l]; [simpl; split; [intros _; apply NoDup_singleton|done]|].
  change (adjacent_equal (x :: y :: l)) with ((x =? y) || adjacent_equal (y :: l)).
  rewrite orb_false_iff, IH, (NoDup_cons x), Z.eqb_neq. split; [|intros [Hn ?]; split; [intros ->; apply Hn; constructor|done]].
  intros [Hne Hnd]. split; [|done]. intros Hin. apply elem_of_cons in Hin as [->|Hin]; [done|].
  apply Forall_cons in Hx as [Hxy _]. inversion Hs as [|? ? _ Hy]; subst.
  rewrite Forall_forall in Hy. specialize (Hy x Hin). lia.
Qed.

Lemma has_duplicates_spec l : has_duplicates l = false <-> NoDup l.
Proof.
  unfold has_duplicates. rewrite adjacent_equal_sorted by (apply StronglySorted_merge_sort; apply _).
  by rewrite merge_sort_Permutation.
Qed.

(** ** Records *)

Definition block_words (blocks : list Z) : bytes := mjoin (u64_le <$> blocks).

Definition inode_record_with (crc : Z) (inode : PersistedInode) : bytes :=
  INODE_RECORD_MAGIC ++ u16_le INODE_RECORD_VERSION ++ u16_le (kind_code (kind inode)) ++
  u32_le (INODE_RECORD_HEADER_LEN + zlen (blocks inode) * 8) ++ u64_le (id inode) ++
  u32_le (zlen (blocks inode)) ++ u32_le crc ++ zeros 4 ++ block_words (blocks inode).

(** The canonical record of an inode. *)
Definition inode_record (inode : PersistedInode) : bytes :=
  inode_record_with (crc32 (inode_record_with 0 inode)) inode.

(** The fields are [u64]s. *)
Definition inode_typed (inode : PersistedInode) : Prop :=
  is_u64 (id inode) /\ Forall is_u64 (blocks inode).

(** What a record can hold. *)
Definition inode_valid (inode : PersistedInode) : Prop :=
  inode_typed inode /\ id inode <> 0 /\ NoDup (blocks inode) /\
  INODE_RECORD_HEADER_LEN + zlen (blocks inode) * 8 <= u32_max.

#[local] Hint Unfold MAGIC_OFFSET VERSION_OFFSET KIND_OFFSET TOTAL_LEN_OFFSET INODE_ID_OFFSET
  BLOCK_COUNT_OFFSET CRC_OFFSET RESERVED_OFFSET INODE_RECORD_HEADER_LEN INODE_RECORD_VERSION
  KIND_FILE KIND_DIRECTORY : consts.

Lemma zlen_inode_magic : zlen INODE_RECORD_MAGIC = 4.
Proof. done. Qed.
Lemma block_words_cons b l : block_words (b :: l) = u64_le b ++ block_words l.
Proof. done. Qed.
Lemma zlen_block_words l : zlen (block_words l) = zlen l * 8.
Proof.
  induction l as [|b l IH]; [done|]. rewrite block_words_cons, zlen_app, IH, zlen_cons. zside.
Qed.
#[local] Hint Rewrite zlen_inode_magic zlen_block_words : zlen.

Lemma Forall_block_words l : Forall is_byte (block_words l).
Proof.
  induction l as [|b l IH]; [constructor|]. rewrite block_words_cons. auto with bytes.
Qed.

Lemma zlen_inode_record_with crc inode :
  zlen (inode_record_with crc inode) = INODE_RECORD_HEADER_LEN + zlen (blocks inode) * 8.
Proof. unfold inode_record_with. zside. Qed.

Lemma Forall_inode_record_with crc inode : Forall is_byte (inode_record_with crc inode).
Proof.
  unfold inode_record_with. assert (Forall is_byte INODE_RECORD_MAGIC) by (repeat constructor; done).
  auto 20 using Forall_block_words with bytes.
Qed.

Lemma inode_record_patch crc crc' inode :
  put (inode_record_with crc inode) CRC_OFFSET (u32_le crc') = inode_record_with crc' inode.
Proof.
  assert (Hsplit : forall c, inode_record_with c inode =
    (INODE_RECORD_MAGIC ++ u16_le INODE_RECORD_VERSION ++ u16_le (kind_code (kind inode)) ++
     u32_le (INODE_RECORD_HEADER_LEN + zlen (blocks inode) * 8) ++ u64_le (id inode) ++
     u32_le (zlen (blocks inode))) ++ u32_le c ++ zeros 4 ++ block_words (blocks inode)).
  { intros c. unfold inode_record_with. by rewrite <- !app_assoc. }
  rewrite !Hsplit, put_mid by zside. done.
Qed.

Lemma inode_record_crc_with crc inode : record_crc (inode_record_with crc inode) = crc32 (inode_record_with 0 inode).
Proof.
  pose proof (zlen_nonneg (blocks inode)). unfold record_crc. rewrite crc32_masked_put by (rewrite ?zlen_inode_record_with; zside).
  change (zeros 4) with (u32_le 0). by rewrite inode_record_patch.
Qed.

(** ** Encoding *)

Lemma encode_blocks_loop pre l n (k : nat) :
  zlen pre = INODE_RECORD_HEADER_LEN + Z.of_nat k * 8 -> zlen l * 8 <= n ->
  ofold encode_block
    (pre ++ zeros n) (imap (fun i x => (Z.of_nat (k + i), x)) l) =
  Ok ((pre ++ block_words l) ++ zeros (n - zlen l * 8)).
Proof.
  revert pre n k. induction l as [|b l IH]; intros pre n k Hp Hn.
  { simpl. rewrite app_nil_r. do 3 f_equal. unfold zlen. simpl. lia. }
  rewrite zlen_cons in Hn. pose proof (zlen_nonneg l). rewrite imap_cons. cbn [ofold].
  rewrite Nat.add_0_r. unfold encode_block at 1. rewrite copy_range_Ok by zside. ostep. rewrite put_fill by zside.
  rewrite (imap_ext _ (fun i x => (Z.of_nat (S k + i), x))) by (intros; simpl; do 2 f_equal; lia).
  rewrite IH by zside. rewrite block_words_cons, <- !app_assoc. do 5 f_equal. zside.
Qed.

Lemma encode_inode_spec inode : inode_typed inode ->
  owp (encode_inode inode) (fun bs => inode_valid inode /\ bs = inode_record inode)
    (fun _ => ~ inode_valid inode).
Proof.
  intros Ht. unfold encode_inode, inode_valid. pose proof (zlen_nonneg (blocks inode)).
  destruct (id inode =? 0) eqn:Hid; ostep; bool_facts; [simpl; tauto|].
  unfold u32_try_from, try_from at 1. destruct (zlen (blocks inode) <=? u32_max) eqn:Hc; bool_facts; ostep.
  2: { simpl. ulia. }
  unfold checked_mul. destruct (zlen (blocks inode) * 8 <=? u64_max) eqn:Hm; bool_facts; ostep; [|simpl; ulia].
  rewrite checked_add_le by ulia. ostep. unfold try_from.
  destruct (INODE_RECORD_HEADER_LEN + zlen (blocks inode) * 8 <=? u32_max) eqn:Hl; bool_facts; ostep; [|simpl; ulia].
  destruct (has_duplicates (blocks inode)) eqn:Hd; ostep.
  { simpl. intros (_ & _ & Hnd & _). apply has_duplicates_spec in Hnd. congruence. }
  apply has_duplicates_spec in Hd. set (n := INODE_RECORD_HEADER_LEN + zlen (blocks inode) * 8) in *.
  change (zeros n) with ([] ++ zeros n). copy_fields. rewrite app_nil_l.
  match goal with |- context [zeros (n - ?a - ?b - ?c - ?e - ?f - ?g)] =>
    replace (zeros (n - a - b - c - e - f - g)) with
      (u32_le 0 ++ zeros 4 ++ zeros (zlen (blocks inode) * 8)) end.
  2: { change (u32_le 0) with (zeros 4). rewrite <- !zeros_add by ulia. f_equal. zside. }
  rewrite !app_assoc. change (enumerate (blocks inode)) with
    (imap (fun i x => (Z.of_nat (0 + i), x)) (blocks inode)).
  rewrite encode_blocks_loop by zside. ostep. rewrite Z.sub_diag, app_nil_r, <- !app_assoc.
  change (INODE_RECORD_MAGIC ++ _) with (inode_record_with 0 inode).
  rewrite copy_range_Ok by (rewrite ?zlen_inode_record_with; zside).
  rewrite inode_record_crc_with, inode_record_patch. simpl. auto.
Qed.

(** ** Decoding *)

Lemma nth_block_word l i : 0 <= i < zlen l ->
  exists b, l !! Z.to_nat i = Some b /\ sub (block_words l) (i * 8) 8 = u64_le b.
Proof.
  revert i. induction l as [|b l IH]; intros i Hi; [unfold zlen in Hi; simpl in Hi; lia|].
  rewrite zlen_cons in Hi. rewrite block_words_cons. destruct (decide (i = 0)) as [->|].
  - exists b. split; [done|]. by field_at.
  - destruct (IH (i - 1)) as (x & Hx & Hs); [lia|]. exists x.
    replace (Z.to_nat i) with (S (Z.to_nat (i - 1))) by lia. split; [done|].
    rewrite sub_app_r by zside. rewrite <- Hs. f_equal. zside.
Qed.

(** Reading the words of a buffer. *)
Lemma decode_blocks_loop bs n :
  0 <= n -> INODE_RECORD_HEADER_LEN + n * 8 <= zlen bs ->
  ofold (decode_block bs) [] (zrange 0 n) =
  Ok ((fun i => from_le_bytes (sub bs (INODE_RECORD_HEADER_LEN + i * 8) 8)) <$> zrange 0 n).
Proof.
  intros Hn Hl.
  destruct (owp_Ok (ofold (decode_block bs) [] (zrange 0 n))
    (fun r => r = (fun i => from_le_bytes (sub bs (INODE_RECORD_HEADER_LEN + i * 8) 8)) <$> zrange 0 n))
    as (r & -> & ->); [|done].
  apply (owp_fold_range _ (fun r k => r = (fun i => from_le_bytes
    (sub bs (INODE_RECORD_HEADER_LEN + i * 8) 8)) <$> zrange 0 k)); [lia|by rewrite zrange_nil|].
  intros k r Hk ->. unfold decode_block. read_fields. simpl. rewrite zrange_snoc, fmap_app by lia. done.
Qed.

Lemma kind_code_bound k : 0 <= kind_code k <= u16_max.
Proof. by destruct k. Qed.

Lemma inode_record_reads inode : inode_valid inode ->
  let bs := inode_record inode in
  sub bs MAGIC_OFFSET 4 = INODE_RECORD_MAGIC /\
  from_le_bytes (sub bs VERSION_OFFSET 2) = INODE_RECORD_VERSION /\
  from_le_bytes (sub bs KIND_OFFSET 2) = kind_code (kind inode) /\
  from_le_bytes (sub bs TOTAL_LEN_OFFSET 4) = INODE_RECORD_HEADER_LEN + zlen (blocks inode) * 8 /\
  from_le_bytes (sub bs INODE_ID_OFFSET 8) = id inode /\
  from_le_bytes (sub bs BLOCK_COUNT_OFFSET 4) = zlen (blocks inode) /\
  from_le_bytes (sub bs CRC_OFFSET 4) = crc32 (inode_record_with 0 inode) /\
  sub bs RESERVED_OFFSET 4 = zeros 4 /\
  (fun i => from_le_bytes (sub bs (INODE_RECORD_HEADER_LEN + i * 8) 8)) <$> zrange 0 (zlen (blocks inode))
    = blocks inode.
Proof.
  intros ([Hid Hbl] & Hnz & Hnd & Hl) bs. pose proof (zlen_nonneg (blocks inode)).
  pose proof (crc32_bound _ (Forall_inode_record_with 0 inode)). pose proof (kind_code_bound (kind inode)).
  unfold bs, inode_record. set (crc := crc32 (inode_record_with 0 inode)) in *. clearbody crc.
  unfold inode_record_with.
  split; [by field_at|]. split; [field_at; by rewrite from_u16_le|].
  split; [field_at; by rewrite from_u16_le|].
  split; [field_at; by rewrite from_u32_le by ulia|].
  split; [field_at; by rewrite from_u64_le|].
  split; [field_at; by rewrite from_u32_le by ulia|].
  split; [field_at; by rewrite from_u32_le by ulia|]. split; [by field_at|].
  apply list_eq. intros i. rewrite list_lookup_fmap.
  destruct (decide (Z.of_nat i < zlen (blocks inode))).
  - unfold zrange. rewrite lookup_seqZ_lt by lia. cbn [fmap option_fmap option_map].
    destruct (nth_block_word (blocks inode) (Z.of_nat i)) as (b & Hb & Hs); [lia|].
    rewrite Nat2Z.id in Hb. rewrite Hb. repeat (rewrite sub_app_r by zside).
    replace (sub (block_words (blocks inode)) _ 8) with (u64_le b).
    2: { rewrite <- Hs. f_equal. zside. }
    rewrite from_u64_le; [done|]. by eapply Forall_lookup_1 in Hb.
  - unfold zlen in *. rewrite (lookup_ge_None_2 (blocks inode)) by lia.
    rewrite lookup_ge_None_2; [done|]. pose proof (zlen_zrange 0 (Z.of_nat (length (blocks inode)))).
    unfold zlen in *. lia.
Qed.

Lemma zlen_inode_record inode :
  zlen (inode_record inode) = INODE_RECORD_HEADER_LEN + zlen (blocks inode) * 8.
Proof. unfold inode_record. apply zlen_inode_record_with. Qed.

Lemma Forall_inode_record inode : Forall is_byte (inode_record inode).
Proof. unfold inode_record. apply Forall_inode_record_with. Qed.

Lemma decode_inode_record inode : inode_valid inode -> decode_inode (inode_record inode) = Ok inode.
Proof.
  intros Hv. pose proof (zlen_nonneg (blocks inode)). pose proof (zlen_inode_record inode) as Hl.
  destruct (inode_record_reads inode Hv) as (E1 & E2 & E3 & E4 & E5 & E6 & E7 & E8 & E9).
  destruct Hv as ([Hid Hbl] & Hnz & Hnd & Hm).
  unfold decode_inode. otests. rewrite (slice_n _ _ _ 4) by zside. ostep. rewrite E1. read_fields.
  rewrite E2. otests. rewrite (slice_n _ _ _ 4) by zside. ostep. rewrite E8. otests.
  replace (record_crc (inode_record inode)) with (crc32 (inode_record_with 0 inode))
    by (unfold inode_record; by rewrite inode_record_crc_with).
  rewrite E7, Z.eqb_refl, E3, E5, E6. ostep. replace (if kind_code (kind inode) =? KIND_FILE then _ else _)
    with (@Ok io_error _ (kind inode)) by by destruct (kind inode). ostep.
  rewrite decode_blocks_loop by ulia. ostep. rewrite E9.
  rewrite (proj2 (has_duplicates_spec _)) by done. by destruct inode.
Qed.

Lemma decode_inode_no_panic bs : Forall is_byte bs -> decode_inode bs <> Panic.
Proof.
  intros Hb. unfold decode_inode.
  apply obind_no_panic; [auto with no_panic|]. intros [] Hl. inv_ok. bool_facts.
  pose proof (sub_from_bound 4 bs BLOCK_COUNT_OFFSET Hb ltac:(done) ltac:(ulia) ltac:(lia)).
  unfold read_u32 at 2. rewrite (read_le_Ok 4 bs BLOCK_COUNT_OFFSET) by ulia.
  set (n := from_le_bytes _) in *. ostep. no_panic.
  all: rewrite decode_blocks_loop by ulia; ostep; by destruct (has_duplicates _).
Qed.

(** The words read back are the words of the payload. *)
Lemma block_words_of bs n :
  Forall is_byte bs -> 0 <= n -> zlen bs = INODE_RECORD_HEADER_LEN + n * 8 ->
  sub bs INODE_RECORD_HEADER_LEN (n * 8) =
    block_words ((fun i => from_le_bytes (sub bs (INODE_RECORD_HEADER_LEN + i * 8) 8)) <$> zrange 0 n).
Proof.
  intros Hb Hn Hl.
  assert (Hgen : forall m k, 0 <= k -> k + Z.of_nat m <= n ->
    sub bs (INODE_RECORD_HEADER_LEN + k * 8) (Z.of_nat m * 8) =
    block_words ((fun i => from_le_bytes (sub bs (INODE_RECORD_HEADER_LEN + i * 8) 8)) <$>
      zrange k (k + Z.of_nat m))).
  { induction m as [|m IH]; intros k Hk Hm.
    - rewrite zrange_nil by lia. done.
    - rewrite zrange_cons, fmap_cons, block_words_cons by lia.
      replace (k + Z.of_nat (S m)) with (k + 1 + Z.of_nat m) by lia. rewrite <- IH by lia.
      rewrite u64_le_from by (zside || auto with bytes).
      replace (Z.of_nat (S m) * 8) with (8 + Z.of_nat m * 8) by lia.
      rewrite sub_split by ulia. do 2 f_equal. lia. }
  specialize (Hgen (Z.to_nat n) 0 ltac:(lia) ltac:(lia)).
  rewrite Z2Nat.id, Z.mul_0_l, Z.add_0_r, Z.add_0_l in Hgen by lia. exact Hgen.
Qed.

(** A buffer with these fields is a record. *)
Lemma inode_record_of_fields bs inode crc :
  Forall is_byte bs -> zlen bs = INODE_RECORD_HEADER_LEN + zlen (blocks inode) * 8 ->
  sub bs MAGIC_OFFSET 4 = INODE_RECORD_MAGIC ->
  from_le_bytes (sub bs VERSION_OFFSET 2) = INODE_RECORD_VERSION ->
  from_le_bytes (sub bs KIND_OFFSET 2) = kind_code (kind inode) ->
  from_le_bytes (sub bs TOTAL_LEN_OFFSET 4) = zlen bs ->
  from_le_bytes (sub bs INODE_ID_OFFSET 8) = id inode ->
  from_le_bytes (sub bs BLOCK_COUNT_OFFSET 4) = zlen (blocks inode) ->
  from_le_bytes (sub bs CRC_OFFSET 4) = crc ->
  sub bs RESERVED_OFFSET 4 = zeros 4 ->
  sub bs INODE_RECORD_HEADER_LEN (zlen (blocks inode) * 8) = block_words (blocks inode) ->
  bs = inode_record_with crc inode.
Proof.
  intros Hb Hl E1 E2 E3 E4 E5 E6 E7 E8 E9. pose proof (zlen_nonneg (blocks inode)).
  apply field_u16 in E2, E3; [|(done || ulia)..]. rewrite Hl in E4.
  apply field_u32 in E4, E6, E7; [|(done || ulia)..]. apply field_u64 in E5; [|(done || ulia)..].
  unfold inode_record_with. rewrite <- E1, <- E2, <- E3, <- E4, <- E5, <- E6, <- E7, <- E8, <- E9.
  autounfold with consts in *. rewrite <- !sub_split by lia. symmetry. apply sub_all. lia.
Qed.

(** Only canonical records decode. *)
Lemma decode_inode_canonical bs inode :
  Forall is_byte bs -> decode_inode bs = Ok inode -> inode_valid inode /\ bs = inode_record inode.
Proof.
  intros Hb H. unfold decode_inode in H. inv_ok. bool_facts. checked_facts. read_facts. subst.
  set (n := from_le_bytes (sub bs BLOCK_COUNT_OFFSET 4)) in *.
  assert (Hn : is_u64 n) by (apply sub_from_bound; (done || lia)).
  rewrite decode_blocks_loop in E21 by ulia. injection E21 as <-. apply has_duplicates_spec in E22.
  assert (Hwords := block_words_of bs n Hb ltac:(ulia) ltac:(lia)).
  set (l := _ <$> zrange 0 n) in *.
  assert (Hll : zlen l = n) by (unfold l; rewrite zlen_fmap, zlen_zrange by ulia; lia).
  assert (Hk : from_le_bytes (sub bs KIND_OFFSET 2) = kind_code x20).
  { repeat case_match; simplify_eq; bool_facts; done. }
  assert (Hl32 : from_le_bytes (sub bs TOTAL_LEN_OFFSET 4) <= u32_max).
  { pose proof (from_sub_bound bs TOTAL_LEN_OFFSET 4 Hb). change (256 ^ 4) with (u32_max + 1) in *. ulia. }
  set (inode := mkPersistedInode _ x20 l).
  assert (Hrec : bs = inode_record_with (from_le_bytes (sub bs CRC_OFFSET 4)) inode).
  { apply inode_record_of_fields; unfold inode; cbn [id kind blocks]; rewrite ?Hll; try done; try lia.
    apply field_zeros; (done || ulia). }
  split; [|unfold inode_record; rewrite Hrec at 1; f_equal; rewrite E16, Hrec at 1; apply inode_record_crc_with].
  split; [split; [apply sub_from_bound; (done || lia)|]|].
  - apply Forall_fmap, Forall_forall. intros i Hi. apply elem_of_zrange in Hi. simpl.
    apply sub_from_bound; (done || ulia).
  - unfold inode; cbn [id blocks]. rewrite Hll. split; [done|]. split; [done|]. lia.
Qed.

(** ** The claims *)

(** The inode record codec is exact: [encode_inode] succeeds exactly on
    inodes with a non-zero identifier, pairwise distinct blocks and a length
    that fits 32 bits; a byte string decodes to an inode exactly when it is
    that inode's encoding; arbitrary bytes never make the decoder panic. *)
Theorem inode_codec_exact bs inode :
  Forall is_byte bs -> inode_typed inode ->
  decode_inode bs <> Panic /\ encode_inode inode <> Panic /\
  (is_ok (encode_inode inode) = true <-> inode_valid inode) /\
  (decode_inode bs = Ok inode <-> encode_inode inode = Ok bs).
Proof.
  intros Hb Ht. pose proof (encode_inode_spec inode Ht) as He. split; [by apply decode_inode_no_panic|].
  destruct (encode_inode inode) as [bs'|e|] eqn:Henc; simpl in He; [|..|done].
  - destruct He as [Hv ->]. split; [done|]. split; [done|]. split.
    + intros H. by apply decode_inode_canonical in H as [_ ->].
    + intros [= <-]. by apply decode_inode_record.
  - split; [done|]. split; [done|]. split; [|done]. intros H. by apply decode_inode_canonical in H as [? _].
Qed.

Lemma inode_codec_exact_witness :
  let inode := mkPersistedInode 2 File [10; 11] in
  decode_inode (inode_record inode) <> Panic /\ encode_inode inode <> Panic /\
  (is_ok (encode_inode inode) = true <-> inode_valid inode) /\
  (decode_inode (inode_record inode) = Ok inode <-> encode_inode inode = Ok (inode_record inode)).
Proof.
  refine (inode_codec_exact (inode_record (mkPersistedInode 2 File [10; 11])) _ (Forall_inode_record _) _).
  split; [simpl; ulia|]. repeat (apply Forall_cons_2; [ulia|]). apply Forall_nil_2.
Defined.
