(* ===== verification/BTree.v ===== *)
(** * Ordered maps: [std::collections::BTreeMap]

    A [BTreeMap] is a finite map whose iterators yield the entries in key
    order.  The maps are [gmap]s; [btree_iter] is the iteration. *)

From S2P Require Import Prelude Bytes.

(** The order of the keys ([Ord] of the key type). *)
Class KeyOrder (K : Type) : Type := {
  key_le : K -> K -> Prop;
  key_le_dec :: RelDecision key_le;
}.

(** [u64] and the identifiers that wrap it. *)
#[global] Instance Z_key_order : KeyOrder Z := { key_le := Z.le }.

(** [String]: byte-wise lexicographic order. *)
Fixpoint bytes_leb (a b : bytes) : bool :=
  match a, b with
  | [], _ => true
  | _ :: _, [] => false
  | x :: a', y :: b' => (x <? y) || ((x =? y) && bytes_leb a' b')
  end.
#[global] Instance bytes_key_order : KeyOrder bytes := {
  key_le := fun a b => bytes_leb a b = true;
  key_le_dec := fun a b => decide (bytes_leb a b = true);
}.

Section Iter.
Context {K V : Type} `{Countable K} `{!KeyOrder K}.
Implicit Types (m : gmap K V).

Definition entry_le (p q : K * V) : Prop := key_le p.1 q.1.
#[global] Instance entry_le_dec : RelDecision entry_le := fun p q => decide (key_le p.1 q.1).

Definition btree_iter m : list (K * V) := merge_sort entry_le (map_to_list m).
Definition btree_keys m : list K := (btree_iter m).*1.

Lemma btree_iter_permutation m : btree_iter m ≡ₚ map_to_list m.
Proof. apply merge_sort_Permutation. Qed.

Lemma elem_of_btree_iter m k x : (k, x) ∈ btree_iter m <-> m !! k = Some x.
Proof. by rewrite btree_iter_permutation, elem_of_map_to_list. Qed.

Lemma NoDup_btree_keys m : NoDup (btree_keys m).
Proof. unfold btree_keys. rewrite btree_iter_permutation. apply NoDup_fst_map_to_list. Qed.

Lemma elem_of_btree_keys m k : k ∈ btree_keys m <-> is_Some (m !! k).
Proof.
  unfold btree_keys. rewrite list_elem_of_fmap. split.
  - intros ([k' x] & -> & Hin). apply elem_of_btree_iter in Hin. by exists x.
  - intros [x Hx]. exists (k, x). split; [done|]. by apply elem_of_btree_iter.
Qed.
End Iter.
