(* ===== verification/Cache.v ===== *)
(** * The write-back block cache: [cache.rs]

    Cached blocks are clean, dirty or in writeback; only a device flush makes
    a written-back block clean, and only clean blocks may be evicted. *)

From S2P Require Import Prelude Bytes BTree Block CrashDevice.

Inductive BufferState : Type := Clean | Dirty | Writeback.
#[global] Instance BufferState_eq_dec : EqDecision BufferState.
Proof. solve_decision. Defined.

Record CacheEntry : Type := mkCacheEntry { ce_data : block; ce_state : BufferState }.

Record BufferCache (D : Type) : Type := mkBufferCache {
  device : D;
  cached : gmap Z CacheEntry;
}.
Arguments mkBufferCache {D}.
Arguments device {D}.
Arguments cached {D}.

Section Ops.
Context `{BlockDevice D}.

Definition cache_new (d : D) : BufferCache D := mkBufferCache d ∅.
Definition cached_blocks (self : BufferCache D) : Z := Z.of_nat (size (cached self)).
Definition state (self : BufferCache D) (b : Z) : option BufferState := ce_state <$> cached self !! b.

(** A call on the underlying device. *)
Definition on_device {A} (m : M D A) : M (BufferCache D) A := fun self =>
  let '(r, d') := m (device self) in (r, mkBufferCache d' (cached self)).

Definition set_entry (b : Z) (data : block) (s : BufferState) : M (BufferCache D) unit :=
  iset (fun self => mkBufferCache (device self) (<[b := mkCacheEntry data s]> (cached self))).

Definition validate_block (b : Z) : M (BufferCache D) unit :=
  let! self := iget id in
  ilift (ensure (b <? block_count (device self)) (unexpected_eof "block index is outside the device")).

Definition cache_read_block (b : Z) : M (BufferCache D) block :=
  do! validate_block b in
  let! self := iget id in
  do! (if bool_decide (is_Some (cached self !! b)) then iret tt
       else let! data := on_device (read_block b) in set_entry b data Clean) in
  let! self := iget id in
  ilift (ok_or (ce_data <$> cached self !! b) (other_error "cache entry disappeared after insertion")).

Definition cache_write_block (b : Z) (data : block) : M (BufferCache D) unit :=
  do! validate_block b in
  set_entry b data Dirty.

Definition write_back (b : Z) : M (BufferCache D) unit :=
  let! self := iget id in
  match cached self !! b with
  | None => ifail (IoError NotFound "cannot write back an uncached block")
  | Some entry =>
      if bool_decide (ce_state entry <> Dirty) then iret tt
      else
        do! on_device (write_block b (ce_data entry)) in
        (* [if let Some(entry) = self.entries.get_mut(&block)] *)
        iset (fun self => mkBufferCache (device self)
                (alter (fun e => mkCacheEntry (ce_data e) Writeback) b (cached self)))
  end.

(** The blocks [flush] writes back, in key order. *)
Definition dirty_blocks (self : BufferCache D) : list Z :=
  (filter (fun p => ce_state p.2 = Dirty) (btree_iter (cached self))).*1.

Definition settle (e : CacheEntry) : CacheEntry :=
  match ce_state e with Writeback => mkCacheEntry (ce_data e) Clean | _ => e end.

Definition cache_flush : M (BufferCache D) unit :=
  let! self := iget id in
  do! ifor write_back (dirty_blocks self) in
  let! self := iget id in
  if existsb (fun p => bool_decide (ce_state p.2 = Writeback)) (btree_iter (cached self)) then
    do! on_device flush in
    iset (fun self => mkBufferCache (device self) (settle <$> cached self))
  else iret tt.

Definition evict (b : Z) : M (BufferCache D) unit :=
  let! self := iget id in
  match cached self !! b with
  | None => ifail (IoError NotFound "cannot evict an uncached block")
  | Some entry =>
      if bool_decide (ce_state entry <> Clean) then
        ifail (IoError WouldBlock "cannot evict a block that is not durable")
      else iset (fun self => mkBufferCache (device self) (delete b (cached self)))
  end.

Definition validate_invariants (self : BufferCache D) : outcome io_error unit :=
  match find (fun p => block_count (device self) <=? p.1) (btree_iter (cached self)) with
  | Some (b, _) => Err (invalid_data ("cached block " +:+ pretty b +:+ " is outside the device"))
  | None => Ok tt
  end.

Definition into_inner (self : BufferCache D) : D := device self.
End Ops.

(** ** The cache as a disk *)

Section Spec.
Context `{DeviceLaws D}.
Implicit Types (self : BufferCache D) (cur dur : list block).

(** One block: [cur] is what the cache's client sees, [dur] what a crash
    leaves.  A block that is not dirty is on the device; one that is neither
    dirty nor in writeback is durable. *)
Definition entry_ok (v dur cur : list block) (b : nat) (e : option CacheEntry) : Prop :=
  match e with
  | None => cur !! b = v !! b /\ dur !! b = v !! b
  | Some (mkCacheEntry data Clean) => cur !! b = Some data /\ v !! b = Some data /\ dur !! b = Some data
  | Some (mkCacheEntry data Writeback) => cur !! b = Some data /\ v !! b = Some data
  | Some (mkCacheEntry data Dirty) => cur !! b = Some data
  end.

(** The cache shows [cur] and would leave [dur] after a crash. *)
Definition cache_at self cur dur : Prop :=
  exists v, at_state true (device self) v dur /\ zlen cur = zlen v /\ Forall block_ok cur /\
    (forall b, is_Some (cached self !! b) -> 0 <= b < zlen v) /\
    (forall b, 0 <= b < zlen v -> entry_ok v dur cur (Z.to_nat b) (cached self !! b)).

Lemma cache_new_at (d : D) v : at_state true d v v -> cache_at (cache_new d) v v.
Proof.
  intros Hst. exists v. split; [done|]. split; [done|]. pose proof (at_state_image _ _ _ _ Hst) as (_ & Hb & _).
  split; [done|]. simpl. split.
  - intros b Hs. rewrite lookup_empty in Hs. by destruct Hs.
  - intros b _. by rewrite lookup_empty.
Qed.

Lemma wp_validate_block b self cur dur Q R : cache_at self cur dur -> 0 <= b ->
  (b < zlen cur -> Q tt self) -> (zlen cur <= b -> R (unexpected_eof "block index is outside the device") self) ->
  wp (validate_block b) Q R self.
Proof.
  intros (v & Hst & Hl & _) H0 HQ HR. unfold wp, validate_block, ibind, iget, ilift, id.
  rewrite (at_state_count _ _ _ _ Hst), <- Hl.
  destruct (b <? zlen cur) eqn:Hb; bool_facts; simpl; auto.
Qed.

Lemma cache_read_spec b self cur dur : cache_at self cur dur -> 0 <= b ->
  wp (cache_read_block b)
    (fun data self' => cur !! Z.to_nat b = Some data /\ cache_at self' cur dur)
    (fun _ self' => self' = self /\ zlen cur <= b) self.
Proof.
  intros Hat H0. unfold cache_read_block. apply wp_bind. eapply wp_validate_block; [done..| |done].
  intros Hb. pose proof Hat as (v & Hst & Hl & Hbl & Hkeys & Hent).
  unfold wp, ibind, iget, ilift, id. specialize (Hent b ltac:(lia)) as He.
  destruct (cached self !! b) as [[data st]|] eqn:Hc; simpl.
  - rewrite Hc. simpl. split; [|done]. destruct st; naive_solver.
  - unfold on_device. pose proof (wp_read true (device self) v dur b Hst H0) as Hr. unfold wp in Hr.
    destruct (read_block b (device self)) as [[data|e|] d']; simpl; [| |done].
    + destruct Hr as [Hdata Hst']. rewrite lookup_insert_eq. simpl. destruct He as [E1 E2].
      split; [congruence|]. exists v. simpl. split; [done|]. split; [done|]. split; [done|]. split.
      * intros c Hs. destruct (decide (b = c)) as [<-|]; [lia|]. rewrite lookup_insert_ne in Hs by done. auto.
      * intros c Hcr. destruct (decide (b = c)) as [<-|].
        -- rewrite lookup_insert_eq. simpl. split_and!; congruence.
        -- rewrite lookup_insert_ne by done. auto.
    + destruct Hr as [_ Hr]. specialize (Hr ltac:(lia)). done.
Qed.

Lemma cache_write_spec b data self cur dur : cache_at self cur dur -> 0 <= b -> block_ok data ->
  wp (cache_write_block b data)
    (fun _ self' => b < zlen cur /\ cache_at self' (<[Z.to_nat b := data]> cur) dur)
    (fun _ self' => self' = self /\ zlen cur <= b) self.
Proof.
  intros Hat H0 Hd. unfold cache_write_block. apply wp_bind. eapply wp_validate_block; [done..| |done].
  intros Hb. pose proof Hat as (v & Hst & Hl & Hbl & Hkeys & Hent). unfold wp, set_entry, iset.
  split; [done|]. exists v. simpl. split; [done|]. split; [by rewrite zlen_insert|]. split; [by apply Forall_insert|].
  split.
  - intros c Hs. destruct (decide (b = c)) as [<-|]; [lia|]. rewrite lookup_insert_ne in Hs by done. auto.
  - intros c Hcr. destruct (decide (b = c)) as [<-|].
    + rewrite lookup_insert_eq. simpl. apply list_lookup_insert_eq. unfold zlen in *. lia.
    + rewrite lookup_insert_ne by done. specialize (Hent c Hcr). unfold entry_ok in *.
      rewrite list_lookup_insert_ne by lia. done.
Qed.


Lemma write_back_spec b self cur dur : cache_at self cur dur ->
  wp (write_back b)
    (fun _ self' => cache_at self' cur dur /\ is_Some (cached self !! b) /\
       (forall c e, cached self' !! c = Some e -> ce_state e = Dirty ->
          c <> b /\ cached self !! c = Some e) /\
       (forall c, is_Some (cached self !! c) -> is_Some (cached self' !! c)))
    (fun _ self' => self' = self /\ cached self !! b = None) self.
Proof.
  intros Hat. pose proof Hat as (v & Hst & Hl & Hbl & Hkeys & Hent).
  unfold wp, write_back, ibind, iget, id.
  destruct (cached self !! b) as [[data st]|] eqn:Hc; [|done].
  specialize (Hkeys b ltac:(eauto)) as Hb. specialize (Hent b Hb) as He. rewrite Hc in He. simpl.
  case_bool_decide as Hd.
  { split; [done|]. split; [done|]. split; [|done]. intros c e Hce Hst'. split; [|done]. intros ->.
    rewrite Hc in Hce. by simplify_eq/=. }
  assert (st = Dirty) as -> by (destruct st; naive_solver). simpl in He. unfold on_device.
  assert (Hblk : block_ok data) by (eapply Forall_lookup_1; [apply Hbl|done]).
  pose proof (wp_write true (device self) v dur b data Hst ltac:(lia) Hblk) as Hw. unfold wp in Hw.
  destruct (write_block b data (device self)) as [[[]|e|] d']; simpl; [| |done].
  2: { destruct Hw as [_ Hw]. specialize (Hw ltac:(lia)). done. }
  destruct Hw as [_ Hst']. split; [|split; [done|split]].
  - exists (<[Z.to_nat b := data]> v). simpl. split; [done|]. rewrite zlen_insert. split; [done|]. split; [done|].
    split.
    + intros c Hs. apply Hkeys. by rewrite lookup_alter_is_Some in Hs.
    + intros c Hcr. destruct (decide (b = c)) as [<-|].
      * rewrite lookup_alter_eq, Hc. simpl. split; [done|]. apply list_lookup_insert_eq. unfold zlen in *. lia.
      * rewrite lookup_alter_ne by done. specialize (Hent c Hcr). unfold entry_ok in *.
        rewrite list_lookup_insert_ne by lia. done.
  - intros c e Hce Hse. destruct (decide (b = c)) as [<-|].
    + rewrite lookup_alter_eq, Hc in Hce. simpl in Hce. by simplify_eq.
    + rewrite lookup_alter_ne in Hce by done. done.
  - intros c Hs. by rewrite lookup_alter_is_Some.
Qed.

(** Between the write-backs and the device flush nothing is dirty, so the
    device already holds what the client sees. *)
Lemma no_dirty_written self cur dur :
  cache_at self cur dur -> (forall b e, cached self !! b = Some e -> ce_state e <> Dirty) ->
  at_state true (device self) cur dur.
Proof.
  intros (v & Hst & Hl & _ & _ & Hent) Hnd. cut (cur = v); [by intros ->|].
  apply list_eq_same_length with (length v); [done|unfold zlen in *; lia|].
  intros i x y Hi Hx Hy. specialize (Hent (Z.of_nat i) ltac:(unfold zlen; lia)). rewrite Nat2Z.id in Hent.
  destruct (cached self !! Z.of_nat i) as [[data []]|] eqn:Hc; simpl in Hent; destruct_and?;
    try congruence.
  by destruct (Hnd _ _ Hc).
Qed.

(** With only clean entries, what the client sees is durable. *)
Lemma all_clean_durable self cur dur :
  cache_at self cur dur -> (forall b e, cached self !! b = Some e -> ce_state e = Clean) -> dur = cur.
Proof.
  intros (v & Hst & Hl & _ & _ & Hent) Hcl. pose proof (at_state_durable _ _ _ _ Hst) as (Hld & _).
  apply list_eq_same_length with (length v); [unfold zlen in *; lia..|].
  intros i x y Hi Hx Hy. specialize (Hent (Z.of_nat i) ltac:(unfold zlen; lia)). rewrite Nat2Z.id in Hent.
  destruct (cached self !! Z.of_nat i) as [[data st]|] eqn:Hc; simpl in Hent.
  - assert (st = Clean) as -> by apply (Hcl _ _ Hc). destruct_and?; congruence.
  - destruct Hent; congruence.
Qed.

Lemma write_backs_spec self cur dur : cache_at self cur dur ->
  wp (ifor write_back (dirty_blocks self))
    (fun _ self' => cache_at self' cur dur /\ forall b e, cached self' !! b = Some e -> ce_state e <> Dirty)
    (fun _ _ => False) self.
Proof.
  intros Hat. eapply wp_mono with (R := fun _ _ => False); [|..|done].
  { apply wp_for with (I := fun l self' => cache_at self' cur dur /\
      (forall b, b ∈ l -> is_Some (cached self' !! b)) /\
      (forall b e, cached self' !! b = Some e -> ce_state e = Dirty -> b ∈ l)).
    - split; [done|]. unfold dirty_blocks. split.
      + intros b ((b' & e) & -> & Hin)%list_elem_of_fmap. apply list_elem_of_filter in Hin as [_ Hin].
        apply elem_of_btree_iter in Hin. eauto.
      + intros b e Hb Hd. apply list_elem_of_fmap. exists (b, e). split; [done|].
        apply list_elem_of_filter. split; [done|]. by apply elem_of_btree_iter.
    - intros b l self' (Hat' & Hin & Hdirty). eapply wp_mono; [by apply write_back_spec|..]; simpl.
      + intros [] self'' (Hat'' & _ & Hd' & Hs'). split; [done|]. split.
        * intros c Hc. apply Hs', Hin. by right.
        * intros c e Hce Hd. destruct (Hd' _ _ Hce Hd) as [Hne Hce'].
          specialize (Hdirty _ _ Hce' Hd). by apply elem_of_cons in Hdirty as [->|].
      + intros _ self'' [_ Hn]. destruct (Hin b) as [? Hb]; [by left|]. congruence. }
  intros [] self' (Hat' & _ & Hnd). split; [done|]. intros b e Hb Hd. specialize (Hnd _ _ Hb Hd).
  by apply not_elem_of_nil in Hnd.
Qed.

(** The device flush, when there is something in writeback. *)
Lemma settle_spec self cur dur :
  cache_at self cur dur -> (forall b e, cached self !! b = Some e -> ce_state e <> Dirty) ->
  wp (do! on_device flush in iset (fun self => mkBufferCache (device self) (settle <$> cached self)))
    (fun _ self' => cache_at self' cur cur /\ forall b e, cached self' !! b = Some e -> ce_state e = Clean)
    (fun _ _ => False) self.
Proof.
  intros Hat Hnd. pose proof (no_dirty_written _ _ _ Hat Hnd) as Hst.
  destruct Hat as (v & Hst' & _ & Hbl & Hkeys & Hent).
  assert (cur = v) as <-. { destruct Hst as (_ & <- & _). by destruct Hst' as (_ & -> & _). }
  apply wp_bind. unfold wp, on_device. pose proof (wp_flush true (device self) cur dur Hst) as Hf. unfold wp in Hf.
  destruct (flush (device self)) as [[[]|?|] d']; [|by destruct Hf..]. unfold iset. simpl. split.
  - exists cur. simpl. split; [done|]. split; [done|]. split; [done|]. split.
    + intros b Hs. rewrite lookup_fmap, fmap_is_Some in Hs. auto.
    + intros b Hb. specialize (Hent b Hb). rewrite lookup_fmap.
      destruct (cached self !! b) as [[data []]|]; simpl in *; destruct_and?; auto.
  - intros b e Hb. rewrite lookup_fmap in Hb.
    destruct (cached self !! b) as [[data []]|] eqn:Hc; simplify_eq/=; auto.
    by destruct (Hnd _ _ Hc).
Qed.

Lemma cache_flush_spec self cur dur : cache_at self cur dur ->
  wp cache_flush
    (fun _ self' => cache_at self' cur cur /\ forall b e, cached self' !! b = Some e -> ce_state e = Clean)
    (fun _ _ => False) self.
Proof.
  intros Hat. unfold cache_flush. apply wp_bind, wp_get. unfold id. apply wp_bind.
  eapply wp_mono; [by apply write_backs_spec| |done].
  intros [] self' (Hat' & Hnd). apply wp_bind, wp_get. unfold id.
  destruct (existsb _ _) eqn:Hex; [by eapply settle_spec|].
  assert (Hclean : forall b e, cached self' !! b = Some e -> ce_state e = Clean).
  { intros b e Hb. destruct (ce_state e) eqn:Hs; [done|by destruct (Hnd _ _ Hb)|]. exfalso.
    apply not_true_iff_false in Hex. apply Hex, existsb_exists. exists (b, e).
    split; [|by apply bool_decide_eq_true]. by apply list_elem_of_In, elem_of_btree_iter. }
  apply wp_ret. split; [|done]. rewrite (all_clean_durable _ _ _ Hat' Hclean) in Hat'. done.
Qed.

Lemma evict_spec b self cur dur : cache_at self cur dur ->
  wp (evict b)
    (fun _ self' => cache_at self' cur dur /\ cached self' = delete b (cached self) /\
       0 <= b < zlen cur /\ cur !! Z.to_nat b = dur !! Z.to_nat b)
    (fun _ self' => self' = self) self.
Proof.
  intros (v & Hst & Hl & Hbl & Hkeys & Hent). unfold wp, evict, ibind, iget, id.
  destruct (cached self !! b) as [[data st]|] eqn:Hc; [|done]. simpl. case_bool_decide as Hd; [done|].
  assert (st = Clean) as -> by (destruct st; naive_solver).
  specialize (Hkeys b ltac:(eauto)) as Hb. specialize (Hent b Hb) as He. rewrite Hc in He. simpl in He.
  destruct He as (E1 & E2 & E3). split; [|split; [done|split; [lia|congruence]]].
  exists v. simpl. split; [done|]. split; [done|]. split; [done|]. split.
  - intros c Hs. apply Hkeys. rewrite lookup_delete_is_Some in Hs. tauto.
  - intros c Hcr. destruct (decide (b = c)) as [<-|].
    + rewrite lookup_delete_eq. simpl. split; congruence.
    + rewrite lookup_delete_ne by done. auto.
Qed.

Lemma validate_invariants_at self cur dur : cache_at self cur dur -> validate_invariants self = Ok tt.
Proof.
  intros (v & Hst & Hl & Hbl & Hkeys & _). unfold validate_invariants.
  destruct (find _ _) as [[b e]|] eqn:Hf; [|done]. exfalso. apply find_Some in Hf as [Hin Hge].
  apply elem_of_btree_iter in Hin. specialize (Hkeys b ltac:(eauto)).
  rewrite (at_state_count _ _ _ _ Hst) in Hge. bool_facts. simpl in *. lia.
Qed.

(** *** Sequences of operations *)

Inductive cache_op : Type :=
  | OpRead (b : Z) | OpWrite (b : Z) (data : block) | OpWriteBack (b : Z) | OpFlush | OpEvict (b : Z).

Definition op_ok (op : cache_op) : Prop :=
  match op with
  | OpRead b | OpWriteBack b | OpEvict b => 0 <= b
  | OpWrite b data => 0 <= b /\ block_ok data
  | OpFlush => True
  end.

Definition run_op (op : cache_op) : M (BufferCache D) (option block) :=
  match op with
  | OpRead b => let! data := cache_read_block b in iret (Some data)
  | OpWrite b data => do! cache_write_block b data in iret None
  | OpWriteBack b => do! write_back b in iret None
  | OpFlush => do! cache_flush in iret None
  | OpEvict b => do! evict b in iret None
  end.

(** A disk with a volatile and a durable image, and no cache. *)
Definition spec_op (op : cache_op) (s : list block * list block) : list block * list block :=
  let '(cur, dur) := s in
  match op with
  | OpWrite b data => (<[Z.to_nat b := data]> cur, dur)
  | OpFlush => (cur, cur)
  | _ => (cur, dur)
  end.

(** What the client may see: reads return the disk's block, reads and writes
    fail exactly outside the disk, flushes do not fail. *)
Definition spec_result (op : cache_op) (cur : list block) (r : outcome io_error (option block)) : Prop :=
  match op, r with
  | OpRead b, Ok (Some data) => cur !! Z.to_nat b = Some data
  | OpWrite b _, Ok None => b < zlen cur
  | (OpRead b | OpWrite b _), Err _ => zlen cur <= b
  | OpFlush, Ok None => True
  | (OpWriteBack _ | OpEvict _), (Ok None | Err _) => True
  | _, _ => False
  end.

Fixpoint run_ops (ops : list cache_op) (self : BufferCache D) : list (outcome io_error (option block)) * BufferCache D :=
  match ops with
  | [] => ([], self)
  | op :: ops => let '(r, self) := run_op op self in let '(rs, self) := run_ops ops self in (r :: rs, self)
  end.

Fixpoint spec_ops (ops : list cache_op) (s : list block * list block) (rs : list (outcome io_error (option block)))
    (s' : list block * list block) : Prop :=
  match ops, rs with
  | [], [] => s' = s
  | op :: ops, r :: rs => spec_result op s.1 r /\ spec_ops ops (spec_op op s) rs s'
  | _, _ => False
  end.

Lemma run_op_spec op self cur dur : cache_at self cur dur -> op_ok op ->
  let '(r, self') := run_op op self in
  spec_result op cur r /\ cache_at self' (spec_op op (cur, dur)).1 (spec_op op (cur, dur)).2.
Proof.
  intros Hat Hop. destruct op as [b|b data|b| |b]; simpl in Hop.
  - pose proof (cache_read_spec b self cur dur Hat Hop) as Hs. revert Hs. unfold wp, run_op, ibind.
    destruct (cache_read_block b self) as [[data|e|] self']; simpl; naive_solver.
  - destruct Hop as [H0 Hd]. pose proof (cache_write_spec b data self cur dur Hat H0 Hd) as Hs. revert Hs.
    unfold wp, run_op, ibind. destruct (cache_write_block b data self) as [[[]|e|] self']; simpl; try naive_solver.
    intros [-> Hl]. split; [done|]. rewrite list_insert_ge by (unfold zlen in *; lia). done.
  - pose proof (write_back_spec b self cur dur Hat) as Hs. revert Hs. unfold wp, run_op, ibind.
    destruct (write_back b self) as [[[]|e|] self']; simpl; naive_solver.
  - pose proof (cache_flush_spec self cur dur Hat) as Hs. revert Hs. unfold wp, run_op, ibind.
    destruct (cache_flush self) as [[[]|e|] self']; simpl; naive_solver.
  - pose proof (evict_spec b self cur dur Hat) as Hs. revert Hs. unfold wp, run_op, ibind.
    destruct (evict b self) as [[[]|e|] self']; simpl; naive_solver.
Qed.

Lemma run_ops_spec ops self cur dur : cache_at self cur dur -> Forall op_ok ops ->
  exists cur' dur', spec_ops ops (cur, dur) (run_ops ops self).1 (cur', dur') /\
    cache_at (run_ops ops self).2 cur' dur'.
Proof.
  intros Hat Hops. revert self cur dur Hat. induction Hops as [|op ops Hop _ IH]; intros self cur dur Hat; simpl.
  { by exists cur, dur. }
  pose proof (run_op_spec op self cur dur Hat Hop) as Hs. destruct (run_op op self) as [r self'].
  destruct Hs as [Hr Hat']. destruct (spec_op op (cur, dur)) as [cur1 dur1] eqn:E. simpl in Hat'.
  destruct (IH self' cur1 dur1 Hat') as (cur' & dur' & Hsp & Hat''). destruct (run_ops ops self') as [rs self''].
  simpl in *. exists cur', dur'. rewrite E. done.
Qed.

(** C20: the write-back cache is a disk.  Over a healthy device, any sequence of
    reads, writes, write-backs, flushes and evictions behaves like a plain disk
    with a volatile and a durable image: every read returns the last block
    written, reads and writes fail exactly outside the device, a flush does not
    fail and makes the whole visible image durable, no other operation changes
    what a crash would leave (evictions and write-backs included), and the
    cache's own invariant check passes at the end. *)
Theorem cache_refines_disk (d : D) (image : list block) (ops : list cache_op) :
  at_state true d image image -> Forall op_ok ops ->
  let '(results, self') := run_ops ops (cache_new d) in
  exists cur' dur', spec_ops ops (image, image) results (cur', dur') /\
    durable (into_inner self') = dur' /\
    (forall b, state self' b = Some Clean -> cur' !! Z.to_nat b = dur' !! Z.to_nat b) /\
    validate_invariants self' = Ok tt.
Proof.
  intros Hst Hops. destruct (run_ops_spec ops _ _ _ (cache_new_at d image Hst) Hops) as (cur' & dur' & Hsp & Hat).
  destruct (run_ops ops (cache_new d)) as [rs self']. simpl in *. exists cur', dur'. split; [done|].
  pose proof (validate_invariants_at _ _ _ Hat) as Hv. destruct Hat as (v & Hst' & _ & _ & Hkeys & Hent).
  split; [by apply Hst'|]. split; [|done]. intros b Hb. unfold state in Hb.
  destruct (cached self' !! b) as [[data st]|] eqn:Hc; [|done]. simplify_eq/=.
  specialize (Hent b (Hkeys b ltac:(eauto))). rewrite Hc in Hent. simpl in Hent. destruct_and?. congruence.
Qed.
End Spec.

(** A write that is read back, written back, refused eviction, flushed and evicted. *)
Definition sample_ops : list cache_op :=
  [OpWrite 1 (replicate 4096 7); OpRead 1; OpWriteBack 1; OpEvict 1; OpFlush; OpEvict 1; OpRead 1; OpRead 9].

Lemma cache_refines_disk_witness :
  exists rs self', run_ops sample_ops (cache_new (crash_new 3)) = (rs, self') /\
    exists cur' dur', spec_ops sample_ops (replicate 3 zero_block, replicate 3 zero_block) rs (cur', dur') /\
      durable (into_inner self') = dur'.
Proof.
  assert (Hops : Forall op_ok sample_ops).
  { assert (block_ok (replicate 4096 7)) by (split; [by rewrite zlen_replicate|by apply Forall_replicate]).
    unfold sample_ops. repeat (apply Forall_cons; split); [..|by apply Forall_nil]; simpl; split_and?; done. }
  pose proof (cache_refines_disk (crash_new 3) (replicate 3 zero_block) sample_ops
    (crash_new_state 3 ltac:(done)) Hops) as H.
  destruct (run_ops sample_ops (cache_new (crash_new 3))) as [rs self'].
  exists rs, self'. split; [done|]. destruct H as (cur' & dur' & H1 & H2 & _). by exists cur', dur'.
Defined.
