(* ===== verification/Inode.v ===== *)
(** * The in-memory inode table: [inode.rs]

    Inodes by identifier, with an index from every referenced block to the
    inode that owns it. *)

From S2P Require Import Prelude Bytes BTree Allocation InodeCodec.

(** [InodeId] wraps a [u64]. *)
Abbreviation InodeId := Z.

Record Inode : Type := mkInode {
  inode_id : InodeId;
  inode_kind : InodeKind;
  inode_blocks : list Z;
}.

Inductive InodeError : Type :=
  | IdExhausted
  | NotFound (id : InodeId)
  | BlockNotAllocated (block : Z)
  | InodeReservedBlock (block : Z)
  | BlockAlreadyOwned (block : Z) (owner : InodeId)
  | BlockNotOwnedByInode (inode : InodeId) (block : Z)
  | InodeStillOwnsBlocks (id : InodeId)
  | InodeAllocation (error : AllocationError).

Definition inode_error_fmt (self : InodeError) : string :=
  match self with
  | IdExhausted => "inode identifier space exhausted"
  | NotFound id => "inode " +:+ pretty id +:+ " does not exist"
  | BlockNotAllocated b => "block " +:+ pretty b +:+ " is not allocated to filesystem data"
  | InodeReservedBlock b => "block " +:+ pretty b +:+ " is reserved metadata"
  | BlockAlreadyOwned b owner => "block " +:+ pretty b +:+ " is already owned by inode " +:+ pretty owner
  | BlockNotOwnedByInode i b => "block " +:+ pretty b +:+ " is not owned by inode " +:+ pretty i
  | InodeStillOwnsBlocks id => "inode " +:+ pretty id +:+ " cannot be removed while it still owns blocks"
  | InodeAllocation error => "allocator rejected inode operation: " +:+ allocation_error_fmt error
  end.

Inductive InodeInvariantError : Type :=
  | BlockOwnerMissingInode (block : Z) (owner : InodeId)
  | ReverseOwnershipMismatch (block : Z) (owner : InodeId)
  | DuplicateBlockReference (block : Z) (first_owner second_owner : InodeId)
  | ReservedBlockReferenced (inode : InodeId) (block : Z)
  | UnallocatedBlockReferenced (inode : InodeId) (block : Z)
  | InvariantAllocation (error : AllocationError).

Definition inode_invariant_error_fmt (self : InodeInvariantError) : string :=
  match self with
  | BlockOwnerMissingInode b owner =>
      "ownership index maps block " +:+ pretty b +:+ " to missing inode " +:+ pretty owner
  | ReverseOwnershipMismatch b owner =>
      "ownership index for block " +:+ pretty b +:+ " disagrees with inode " +:+ pretty owner
  | DuplicateBlockReference b first second =>
      "block " +:+ pretty b +:+ " is referenced by both inode " +:+ pretty first +:+ " and inode " +:+
      pretty second
  | ReservedBlockReferenced i b => "inode " +:+ pretty i +:+ " references reserved block " +:+ pretty b
  | UnallocatedBlockReferenced i b => "inode " +:+ pretty i +:+ " references unallocated block " +:+ pretty b
  | InvariantAllocation error => "allocator validation failed: " +:+ allocation_error_fmt error
  end.

(** The struct [InodeTable]. *)
Record InodeTable : Type := mkInodeTable {
  next_id : Z;
  inodes : gmap InodeId Inode;
  block_owners : gmap Z InodeId;
}.

Definition inode_table_new : InodeTable := mkInodeTable 1 ∅ ∅.

Definition inode_create (kind : InodeKind) : ST InodeError InodeTable InodeId :=
  let! self := iget Datatypes.id in
  let id := next_id self in
  let! next := ilift (ok_or (checked_add (next_id self) 1) IdExhausted) in
  do! iset (fun self => mkInodeTable next (<[id := mkInode id kind []]> (inodes self)) (block_owners self)) in
  iret id.

Definition inode_get (self : InodeTable) (id : InodeId) : option Inode := inodes self !! id.
Definition inode_len (self : InodeTable) : Z := Z.of_nat (size (inodes self)).
Definition inode_is_empty (self : InodeTable) : bool := bool_decide (inodes self = ∅).

Definition attach_block (inode : InodeId) (block : Z) (allocator : BlockAllocator)
    : ST InodeError InodeTable unit :=
  let! self := iget Datatypes.id in
  do! ilift (ensure (bool_decide (is_Some (inodes self !! inode))) (NotFound inode)) in
  do! ilift (ensure (negb (block <? reserved_blocks allocator)) (InodeReservedBlock block)) in
  let! owned := ilift (map_err InodeAllocation (is_owned allocator block)) in
  do! ilift (ensure owned (BlockNotAllocated block)) in
  match block_owners self !! block with
  | Some owner => ifail (BlockAlreadyOwned block owner)
  | None =>
      let! node := ilift (ok_or (inodes self !! inode) (NotFound inode)) in
      iset (fun self =>
        mkInodeTable (next_id self)
          (<[inode := mkInode (inode_id node) (inode_kind node) (inode_blocks node ++ [block])]> (inodes self))
          (<[block := inode]> (block_owners self)))
  end.

(** [Vec::remove] *)
Definition remove_at {A} (l : list A) (i : Z) : list A := take (Z.to_nat i) l ++ drop (S (Z.to_nat i)) l.

Definition detach_block (inode : InodeId) (block : Z) : ST InodeError InodeTable unit :=
  let! self := iget Datatypes.id in
  let! node := ilift (ok_or (inodes self !! inode) (NotFound inode)) in
  let! pos := ilift (ok_or (position (Z.eqb block) (inode_blocks node)) (BlockNotOwnedByInode inode block)) in
  iset (fun self =>
    mkInodeTable (next_id self)
      (<[inode := mkInode (inode_id node) (inode_kind node) (remove_at (inode_blocks node) pos)]> (inodes self))
      (delete block (block_owners self))).

Definition inode_remove (inode : InodeId) : ST InodeError InodeTable Inode :=
  let! self := iget Datatypes.id in
  let! node := ilift (ok_or (inodes self !! inode) (NotFound inode)) in
  do! ilift (ensure (is_empty (inode_blocks node)) (InodeStillOwnsBlocks inode)) in
  do! iset (fun self => mkInodeTable (next_id self) (delete inode (inodes self)) (block_owners self)) in
  iret node.

(** The body of [validate]'s inner loop; [observed] is threaded. *)
Definition validate_reference (self : InodeTable) (allocator : BlockAllocator) (inode_id : InodeId)
    (observed : gmap Z InodeId) (block : Z) : outcome InodeInvariantError (gmap Z InodeId) :=
  try? ensure (negb (block <? reserved_blocks allocator)) (ReservedBlockReferenced inode_id block) in
  try? match is_owned allocator block with
       | Ok true => Ok tt
       | Ok false => Err (UnallocatedBlockReferenced inode_id block)
       | Err error => Err (InvariantAllocation error)
       | Panic => Panic
       end in
  try? match observed !! block with
       | Some first_owner => Err (DuplicateBlockReference block first_owner inode_id)
       | None => Ok tt
       end in
  try? ensure (bool_decide (block_owners self !! block = Some inode_id))
         (ReverseOwnershipMismatch block inode_id) in
  Ok (<[block := inode_id]> observed).

Definition validate_inode (self : InodeTable) (allocator : BlockAllocator) (observed : gmap Z InodeId)
    (entry : InodeId * Inode) : outcome InodeInvariantError (gmap Z InodeId) :=
  ofold (validate_reference self allocator entry.1) observed (inode_blocks entry.2).

Definition validate_owner (self : InodeTable) (entry : Z * InodeId) : outcome InodeInvariantError unit :=
  let? inode := ok_or (inodes self !! entry.2) (BlockOwnerMissingInode entry.1 entry.2) in
  ensure (bool_decide (entry.1 ∈ inode_blocks inode)) (ReverseOwnershipMismatch entry.1 entry.2).

Definition inode_validate (self : InodeTable) (allocator : BlockAllocator) : outcome InodeInvariantError unit :=
  try? ofold (validate_inode self allocator) ∅ (btree_iter (inodes self)) in
  ofor (validate_owner self) (btree_iter (block_owners self)).

(** [impl From<&Inode> for PersistedInode] *)
Definition persisted_from (inode : Inode) : PersistedInode :=
  mkPersistedInode (inode_id inode) (inode_kind inode) (inode_blocks inode).

(** ** The invariant *)

(** Every block an inode lists is an allocated data block, listed once and by
    no other inode, and the owner index is exactly the inverse of the lists. *)
Record ownership_ok (allocator : BlockAllocator) (self : InodeTable) : Prop := {
  own_allocated : forall i n b, inodes self !! i = Some n -> b ∈ inode_blocks n -> b ∈ owned allocator;
  own_once : forall i n, inodes self !! i = Some n -> NoDup (inode_blocks n);
  own_index : forall b i, block_owners self !! b = Some i <->
    exists n, inodes self !! i = Some n /\ b ∈ inode_blocks n;
}.

(** Identifiers are handed out once, from 1 upwards. *)
Record ids_ok (self : InodeTable) : Prop := {
  ids_next : 1 <= next_id self <= u64_max;
  ids_range : forall i n, inodes self !! i = Some n -> inode_id n = i /\ 1 <= i < next_id self;
}.

(** [u64] block numbers. *)
Definition blocks_typed (self : InodeTable) : Prop :=
  forall i n b, inodes self !! i = Some n -> b ∈ inode_blocks n -> 0 <= b.

(** ** [validate] decides the invariant *)

Section Validate.
Context (allocator : BlockAllocator) (Hal : alloc_ok allocator) (self : InodeTable).

(** Which references the loop accepts. *)
Definition reference_ok (i : InodeId) (b : Z) : Prop :=
  b ∈ owned allocator /\ block_owners self !! b = Some i.

Lemma validate_reference_spec i observed b : 0 <= b ->
  owp (validate_reference self allocator i observed b)
    (fun o => o = <[b := i]> observed /\ reference_ok i b /\ observed !! b = None)
    (fun _ => ~ (reference_ok i b /\ observed !! b = None)).
Proof.
  intros Hb. unfold validate_reference, reference_ok.
  pose proof (owned_subseteq allocator) as Hsub.
  destruct (b <? reserved_blocks allocator) eqn:Hr; bool_facts; ostep; simpl.
  { intros [[Hin _] _]. apply Hsub, elem_of_data_blocks in Hin. lia. }
  rewrite (is_owned_spec allocator b Hal Hb). case_decide as Ht; ostep.
  { simpl. intros [[Hin _] _]. apply Hsub, elem_of_data_blocks in Hin. lia. }
  case_bool_decide as Ho; ostep; [|simpl; intros [[Hin _] _]; tauto].
  destruct Ho as [|Ho]; [lia|]. destruct (observed !! b) eqn:Hob; ostep; [simpl; naive_solver|].
  case_bool_decide as Hrev; ostep; simpl; [done|]. naive_solver.
Qed.

Lemma validate_references i bs : forall observed, Forall (fun b => 0 <= b) bs ->
  owp (ofold (validate_reference self allocator i) observed bs)
    (fun o => Forall (fun b => reference_ok i b /\ observed !! b = None) bs /\ NoDup bs /\
       forall b, is_Some (o !! b) <-> is_Some (observed !! b) \/ b ∈ bs)
    (fun _ => ~ (Forall (fun b => reference_ok i b /\ observed !! b = None) bs /\ NoDup bs)).
Proof.
  induction bs as [|b bs IH]; intros observed Hbs; simpl.
  { split; [constructor|]. split; [constructor|]. intros b. split; [by left|].
    intros [|Hb]; [done|by apply not_elem_of_nil in Hb]. }
  apply Forall_cons in Hbs as [Hb Hbs]. apply owp_bind.
  eapply owp_mono; [by apply validate_reference_spec|simpl|simpl].
  2: { intros _ Hn [Hall _]. by apply Forall_cons in Hall as [? _]. }
  intros o (-> & Hok & Hnone). eapply owp_mono; [by apply (IH (<[b := i]> observed))|simpl|simpl].
  - intros o (Hall & Hnd & Ho). rewrite Forall_cons, NoDup_cons.
    assert (Hnotin : b ∉ bs).
    { intros Hin. rewrite Forall_forall in Hall. specialize (Hall b Hin). rewrite lookup_insert_eq in Hall.
      by destruct Hall. }
    split; [split; [done|]|].
    + eapply Forall_impl; [exact Hall|]. intros c [Hc Hn]. split; [done|].
      apply lookup_insert_None in Hn. tauto.
    + split; [done|]. intros c. rewrite Ho, lookup_insert_is_Some', elem_of_cons. naive_solver.
  - intros _ Hn [Hall Hnd]. apply Hn. rewrite Forall_cons in Hall. rewrite NoDup_cons in Hnd.
    destruct Hall as [_ Hall], Hnd as [Hnotin Hnd]. split; [|done]. apply Forall_forall. intros c Hc.
    rewrite Forall_forall in Hall. destruct (Hall c Hc) as [? ?]. split; [done|].
    rewrite lookup_insert_ne; [done|]. by intros ->.
Qed.

Definition inode_refs_ok (e : InodeId * Inode) : Prop :=
  Forall (reference_ok e.1) (inode_blocks e.2) /\ NoDup (inode_blocks e.2).

Lemma validate_inodes es : forall observed,
  Forall (fun e => Forall (fun b => 0 <= b) (inode_blocks e.2)) es -> NoDup es.*1 ->
  (forall b, is_Some (observed !! b) -> exists j, reference_ok j b /\ j ∉ es.*1) ->
  owp (ofold (validate_inode self allocator) observed es)
    (fun _ => Forall inode_refs_ok es) (fun _ => ~ Forall inode_refs_ok es).
Proof.
  induction es as [|[i n] es IH]; intros observed Ht Hnd Hobs; simpl; [constructor|].
  apply Forall_cons in Ht as [Hn Ht]. simpl in *. rewrite NoDup_cons in Hnd. destruct Hnd as [Hi Hnd].
  assert (Hfresh : Forall (reference_ok i) (inode_blocks n) ->
    Forall (fun b => reference_ok i b /\ observed !! b = None) (inode_blocks n)).
  { intros Hr. eapply Forall_impl; [exact Hr|]. intros b Hb. split; [done|]. apply eq_None_not_Some. intros Hs.
    destruct (Hobs b Hs) as (j & [_ Hj] & Hnot). destruct Hb as [_ Hb]. rewrite Hj in Hb. simplify_eq.
    apply Hnot. constructor. }
  apply owp_bind. unfold validate_inode at 1. simpl.
  eapply owp_mono; [by apply validate_references|simpl|simpl].
  - intros o (Hall & Hnodup & Ho). eapply owp_mono; [apply (IH o); [done|done|]|simpl|simpl].
    + intros b Hb. apply Ho in Hb as [Hb|Hb].
      * destruct (Hobs b Hb) as (j & Hj & Hnot). exists j. split; [done|]. by apply not_elem_of_cons in Hnot as [_ ?].
      * exists i. rewrite Forall_forall in Hall. by split; [apply Hall|].
    + intros _ Hes. apply Forall_cons. split; [|done]. split; [|done].
      eapply Forall_impl; [exact Hall|]. by intros b [].
    + intros _ Hnes Hes. by apply Forall_cons in Hes as [_ ?].
  - intros _ Hno Hes. apply Forall_cons in Hes as [[Hr Hd] _]. apply Hno. split; [by apply Hfresh|done].
Qed.

(** [validate] succeeds exactly when the invariant holds, and never panics. *)
Lemma inode_validate_spec : blocks_typed self ->
  owp (inode_validate self allocator) (fun _ => ownership_ok allocator self)
    (fun _ => ~ ownership_ok allocator self).
Proof.
  intros Ht. unfold inode_validate. apply owp_bind.
  assert (Hrefs : ownership_ok allocator self -> Forall inode_refs_ok (btree_iter (inodes self))).
  { intros []. apply Forall_forall. intros [i n] Hin. apply elem_of_btree_iter in Hin. split; [|by eapply own_once0].
    apply Forall_forall. intros b Hb. split; [by eapply own_allocated0|]. apply own_index0. by exists n. }
  eapply owp_mono; [apply (validate_inodes (btree_iter (inodes self)) ∅)|simpl|simpl].
  - apply Forall_forall. intros [i n] Hin. apply Forall_forall. intros b Hb.
    apply elem_of_btree_iter in Hin. by eapply Ht.
  - apply NoDup_btree_keys.
  - intros b Hb. rewrite lookup_empty in Hb. by destruct Hb.
  - intros _ Hall. rewrite Forall_forall in Hall.
    assert (Hin : forall i n, inodes self !! i = Some n -> inode_refs_ok (i, n))
      by (intros i n Hn; by apply Hall, elem_of_btree_iter).
    destruct (ofor (validate_owner self) (btree_iter (block_owners self))) as [[]|e|] eqn:Hown; simpl.
    + constructor.
      * intros i n b Hn Hb. destruct (Hin i n Hn) as [Hr _]. rewrite Forall_forall in Hr. apply (Hr b Hb).
      * intros i n Hn. apply (Hin i n Hn).
      * intros b i. split.
        -- intros Hb%elem_of_btree_iter. pose proof (proj1 (ofor_Ok _ _ _) Hown (b, i) Hb) as Hb'.
           apply obind_Ok in Hb' as (n & Hn%ok_or_Ok & He). exists n. split; [done|].
           apply ensure_Ok, bool_decide_eq_true in He. done.
        -- intros (n & Hn & Hb). destruct (Hin i n Hn) as [Hr _]. rewrite Forall_forall in Hr. apply (Hr b Hb).
    + intros []. assert (Hok : ofor (validate_owner self) (btree_iter (block_owners self)) = Ok tt); [|congruence].
      apply ofor_Ok. intros [b i] Hbi%elem_of_btree_iter. unfold validate_owner. simpl.
      apply own_index0 in Hbi as (n & Hn & Hb). rewrite Hn. ostep. by rewrite bool_decide_eq_true_2.
    + revert Hown. apply ofor_no_panic. intros [b i] _. unfold validate_owner. no_panic_with idtac idtac.
  - intros _ Hn Hok. by apply Hn, Hrefs.
Qed.
End Validate.

(** ** The operations keep it *)

Definition table_ok (allocator : BlockAllocator) (self : InodeTable) : Prop :=
  ids_ok self /\ ownership_ok allocator self.

Section Ops.
Context (allocator : BlockAllocator) (Hal : alloc_ok allocator).
Implicit Types (self : InodeTable).

Lemma inode_table_new_ok : table_ok allocator inode_table_new.
Proof.
  split; constructor; simpl; try done; try ulia; try (intros; by rewrite lookup_empty in * ).
  intros b i. rewrite lookup_empty. split; [done|]. intros (n & Hn & _). by rewrite lookup_empty in Hn.
Qed.

(** A fresh inode owns nothing. *)
Lemma inode_create_spec kind self : table_ok allocator self ->
  wp (inode_create kind)
    (fun i self' => i = next_id self /\ next_id self' = i + 1 /\ block_owners self' = block_owners self /\
       inodes self' = <[i := mkInode i kind []]> (inodes self) /\ inodes self !! i = None /\
       table_ok allocator self')
    (fun e self' => self' = self /\ e = IdExhausted /\ next_id self = u64_max) self.
Proof.
  intros [[Hnext Hr] []]. unfold wp, inode_create, ibind, iget, ilift, iset. unfold Datatypes.id.
  unfold checked_add. destruct (next_id self + 1 <=? u64_max) eqn:Hle; bool_facts; simpl; [|split; [done|]; split; [done|ulia]].
  assert (Hnone : inodes self !! next_id self = None).
  { destruct (inodes self !! next_id self) as [n|] eqn:Hn; [|done]. apply Hr in Hn. lia. }
  split_and!; try done. split; constructor; simpl.
  - lia.
  - intros i n [[<- <-]|[_ Hn]]%lookup_insert_Some; simpl; [lia|]. apply Hr in Hn. lia.
  - intros i n b [[<- <-]|[_ Hn]]%lookup_insert_Some; [by intros ?%not_elem_of_nil|by eapply own_allocated0].
  - intros i n [[<- <-]|[_ Hn]]%lookup_insert_Some; [constructor|by eapply own_once0].
  - intros b i. rewrite own_index0. split.
    + intros (n & Hn & Hb). exists n. split; [|done]. rewrite lookup_insert_ne; [done|]. by intros <-; congruence.
    + intros (n & [[<- <-]|[_ Hn]]%lookup_insert_Some & Hb); [by apply not_elem_of_nil in Hb|by exists n].
Qed.

(** Replacing an inode's block list and the index entry of one block. *)
Lemma table_ok_update self i n bs owners :
  table_ok allocator self -> inodes self !! i = Some n -> NoDup bs -> Forall (fun b => b ∈ owned allocator) bs ->
  (forall b j, owners !! b = Some j <-> if decide (j = i) then b ∈ bs else block_owners self !! b = Some j) ->
  table_ok allocator
    (mkInodeTable (next_id self) (<[i := mkInode (inode_id n) (inode_kind n) bs]> (inodes self)) owners).
Proof.
  intros [[Hnext Hr] []] Hn Hnd Hal' Ho. split; constructor; simpl.
  - done.
  - intros j m [[<- <-]|[_ Hm]]%lookup_insert_Some; simpl; by apply Hr.
  - intros j m b [[<- <-]|[_ Hm]]%lookup_insert_Some; simpl; [|by eapply own_allocated0].
    rewrite Forall_forall in Hal'. apply Hal'.
  - intros j m [[<- <-]|[_ Hm]]%lookup_insert_Some; simpl; [done|by eapply own_once0].
  - intros b j. rewrite Ho. case_decide as Hj; [subst j|].
    + rewrite lookup_insert_eq. naive_solver.
    + rewrite lookup_insert_ne by done. apply own_index0.
Qed.

Lemma attach_block_spec i b self : table_ok allocator self -> 0 <= b ->
  wp (attach_block i b allocator)
    (fun _ self' => exists n, inodes self !! i = Some n /\ b ∈ owned allocator /\ block_owners self !! b = None /\
       inodes self' = <[i := mkInode (inode_id n) (inode_kind n) (inode_blocks n ++ [b])]> (inodes self) /\
       next_id self' = next_id self /\ table_ok allocator self')
    (fun _ self' => self' = self /\
       (inodes self !! i = None \/ b ∉ owned allocator \/ is_Some (block_owners self !! b))) self.
Proof.
  intros Hok Hb. unfold wp, attach_block, ibind, iget, ilift. unfold Datatypes.id.
  pose proof (owned_subseteq allocator) as Hsub.
  destruct (inodes self !! i) as [n|] eqn:Hn; simpl; [|by auto].
  destruct (b <? reserved_blocks allocator) eqn:Hr; bool_facts; simpl.
  { split; [done|]. right; left. intros Hin%Hsub%elem_of_data_blocks. lia. }
  rewrite (is_owned_spec allocator b Hal Hb). case_decide as Ht; simpl.
  { split; [done|]. right; left. intros Hin%Hsub%elem_of_data_blocks. lia. }
  case_bool_decide as Ho; simpl; [|split; [done|]; right; left; tauto].
  destruct Ho as [|Ho]; [lia|]. destruct (block_owners self !! b) as [j|] eqn:Hbo; simpl; [by eauto|].
  exists n. split_and!; try done. pose proof Hok as [_ []].
  assert (Hnot : b ∉ inode_blocks n) by (intros Hin; assert (block_owners self !! b = Some i) by (apply own_index0; eauto); congruence).
  apply table_ok_update; [done|done| | |].
  - apply NoDup_app. split; [by eapply own_once0|]. split; [|apply NoDup_singleton].
    intros c Hc ->%list_elem_of_singleton. done.
  - apply Forall_app. split; [|by apply Forall_singleton]. apply Forall_forall. intros c Hc. by eapply own_allocated0.
  - intros c j. rewrite lookup_insert_Some. case_decide as Hj.
    + subst j. rewrite own_index0, elem_of_app, list_elem_of_singleton.
      destruct (decide (b = c)) as [<-|]; naive_solver.
    + destruct (decide (b = c)) as [<-|]; naive_solver.
Qed.

(** [position] finds the only occurrence, so [remove] filters it out. *)
Lemma remove_at_position l b pos : NoDup l -> position (Z.eqb b) l = Some pos ->
  NoDup (remove_at l pos) /\ b ∈ l /\ forall c, c ∈ remove_at l pos <-> c ∈ l /\ c <> b.
Proof.
  intros Hnd Hp. apply position_Some in Hp as (Hpos & (x & Hx & He) & _). apply Z.eqb_eq in He. subst x.
  pose proof (take_drop_middle l (Z.to_nat pos) b Hx) as Hl. unfold remove_at.
  rewrite <- Hl in Hnd. apply NoDup_app in Hnd as (Hnd1 & Hdis & Hnd2). rewrite NoDup_cons in Hnd2.
  destruct Hnd2 as [Hb Hnd2]. split; [|split].
  - apply NoDup_app. split; [done|]. split; [|done]. intros c Hc Hc'. apply (Hdis c Hc). by constructor.
  - rewrite <- Hl. apply elem_of_app. right. constructor.
  - intros c. assert (Hmem : c ∈ l <-> c ∈ take (Z.to_nat pos) l \/ c = b \/ c ∈ drop (S (Z.to_nat pos)) l)
      by (rewrite <- elem_of_cons, <- elem_of_app, Hl; done).
    rewrite Hmem, elem_of_app. split.
    + intros [Hc|Hc]; (split; [tauto|]); intros ->; [apply (Hdis b Hc); constructor|done].
    + naive_solver.
Qed.

Lemma detach_block_spec i b self : table_ok allocator self ->
  wp (detach_block i b)
    (fun _ self' => block_owners self !! b = Some i /\ block_owners self' = delete b (block_owners self) /\
       next_id self' = next_id self /\ table_ok allocator self')
    (fun _ self' => self' = self /\ block_owners self !! b <> Some i) self.
Proof.
  intros Hok. pose proof Hok as [_ []]. unfold wp, detach_block, ibind, iget, ilift. unfold Datatypes.id.
  destruct (inodes self !! i) as [n|] eqn:Hn; simpl.
  2: { split; [done|]. rewrite own_index0. naive_solver. }
  destruct (position (Z.eqb b) (inode_blocks n)) as [pos|] eqn:Hp; simpl.
  2: { split; [done|]. rewrite own_index0. intros (n' & Hn' & Hin). simplify_eq.
       apply (position_None _ _ Hp) in Hin. by rewrite Z.eqb_refl in Hin. }
  destruct (remove_at_position _ _ _ (own_once0 i n Hn) Hp) as (Hnd & Hin & Hel).
  assert (Hbo : block_owners self !! b = Some i) by (apply own_index0; eauto).
  split_and!; try done. apply table_ok_update; [done|done|done| |].
  - apply Forall_forall. intros c Hc%Hel. eapply own_allocated0; [done|tauto].
  - intros c j. rewrite lookup_delete_Some. case_decide as Hj.
    + subst j. rewrite Hel, own_index0. naive_solver.
    + destruct (decide (b = c)) as [<-|]; [|tauto]. rewrite Hbo. naive_solver.
Qed.

Lemma inode_remove_spec i self : table_ok allocator self ->
  wp (inode_remove i)
    (fun n self' => inodes self !! i = Some n /\ (forall b, block_owners self !! b <> Some i) /\
       inodes self' = delete i (inodes self) /\ block_owners self' = block_owners self /\ table_ok allocator self')
    (fun _ self' => self' = self /\
       (inodes self !! i = None \/ exists b, block_owners self !! b = Some i)) self.
Proof.
  intros Hok. pose proof Hok as [[Hnext Hr] []]. unfold wp, inode_remove, ibind, iget, ilift, iset. unfold Datatypes.id.
  destruct (inodes self !! i) as [n|] eqn:Hn; simpl; [|by auto].
  destruct (inode_blocks n) as [|b bs] eqn:Hbs; simpl.
  2: { split; [done|]. right. exists b. apply own_index0. exists n. rewrite Hbs. split; [done|constructor]. }
  assert (Hnone : forall b, block_owners self !! b <> Some i).
  { intros b Hb%own_index0. destruct Hb as (n' & Hn' & Hb). simplify_eq. rewrite Hbs in Hb. by apply not_elem_of_nil in Hb. }
  split_and!; try done. split; constructor; simpl.
  - done.
  - intros j m [_ Hm]%lookup_delete_Some. by apply Hr.
  - intros j m b [_ Hm]%lookup_delete_Some. by eapply own_allocated0.
  - intros j m [_ Hm]%lookup_delete_Some. by eapply own_once0.
  - intros b j. rewrite own_index0. split.
    + intros (m & Hm & Hb). exists m. split; [|done]. apply lookup_delete_Some. split; [|done].
      intros <-. apply (Hnone b), own_index0. eauto.
    + intros (m & [_ Hm]%lookup_delete_Some & Hb). eauto.
Qed.
End Ops.

(** ** The claim *)

Inductive inode_call : Type :=
  | CallCreate (kind : InodeKind)
  | CallAttach (i : InodeId) (b : Z)
  | CallDetach (i : InodeId) (b : Z)
  | CallRemove (i : InodeId).

(** The table after one call, failed or not, and whether it returned. *)
Definition inode_step (allocator : BlockAllocator) (self : InodeTable) (c : inode_call) : bool * InodeTable :=
  match c with
  | CallCreate kind => let '(r, s) := inode_create kind self in (is_ok r, s)
  | CallAttach i b => let '(r, s) := attach_block i b allocator self in (is_ok r, s)
  | CallDetach i b => let '(r, s) := detach_block i b self in (is_ok r, s)
  | CallRemove i => let '(r, s) := inode_remove i self in (is_ok r, s)
  end.

Definition inode_call_ok (c : inode_call) : Prop :=
  match c with CallAttach _ b => 0 <= b | _ => True end.

Lemma inode_step_ok allocator self c :
  alloc_ok allocator -> table_ok allocator self -> inode_call_ok c ->
  let r := inode_step allocator self c in table_ok allocator r.2 /\ (r.1 = false -> r.2 = self).
Proof.
  intros Hal Hok Hc. destruct c as [kind|i b|i b|i]; simpl.
  - pose proof (inode_create_spec allocator kind self Hok) as Hs. unfold wp in Hs.
    destruct (inode_create kind self) as [[j|e|] s]; simpl; [|by destruct Hs as [-> _]|done]. by destruct Hs as (_ & _ & _ & _ & _ & ?).
  - pose proof (attach_block_spec allocator Hal i b self Hok Hc) as Hs. unfold wp in Hs.
    destruct (attach_block i b allocator self) as [[[]|e|] s]; simpl; [|by destruct Hs as [-> _]|done].
    by destruct Hs as (n & _ & _ & _ & _ & _ & ?).
  - pose proof (detach_block_spec allocator i b self Hok) as Hs. unfold wp in Hs.
    destruct (detach_block i b self) as [[[]|e|] s]; simpl; [|by destruct Hs as [-> _]|done]. by destruct Hs as (_ & _ & _ & ?).
  - pose proof (inode_remove_spec allocator i self Hok) as Hs. unfold wp in Hs.
    destruct (inode_remove i self) as [[n|e|] s]; simpl; [|by destruct Hs as [-> _]|done]. by destruct Hs as (_ & _ & _ & _ & ?).
Qed.

(** C18: The in-memory inode table keeps its ownership invariant: after any
    sequence of [create], [attach_block], [detach_block] and [remove] calls,
    every listed block is an allocated data block listed exactly once over all
    inodes, the owner index is exactly the inverse of the block lists,
    identifiers are unique and [validate] succeeds; a call that fails changes
    nothing.  And on any table whatever, [validate] succeeds exactly when the
    ownership invariant holds, so it misses no violation and never panics. *)
Theorem inode_table_invariant allocator cs table :
  alloc_ok allocator -> Forall inode_call_ok cs -> blocks_typed table ->
  let final := foldl (fun t c => (inode_step allocator t c).2) inode_table_new cs in
  table_ok allocator final /\ inode_validate final allocator = Ok tt /\
  (forall c, inode_call_ok c -> (inode_step allocator final c).1 = false ->
     (inode_step allocator final c).2 = final) /\
  (inode_validate table allocator = Ok tt <-> ownership_ok allocator table) /\
  inode_validate table allocator <> Panic.
Proof.
  intros Hal Hcs Ht final.
  assert (Hok : table_ok allocator final).
  { unfold final. clear final. assert (Hinv := inode_table_new_ok allocator). revert Hinv.
    generalize inode_table_new as t. induction Hcs as [|c cs Hc _ IH]; intros t Hinv; [done|]. simpl.
    by apply IH, inode_step_ok. }
  assert (Htyped : blocks_typed final).
  { intros i n b Hn Hb. destruct Hok as [_ []]. pose proof (own_allocated0 i n b Hn Hb) as Hin.
    apply owned_subseteq, elem_of_data_blocks in Hin. pose proof (ok_reserved _ Hal). lia. }
  split; [done|]. split; [|split; [|]].
  - pose proof (inode_validate_spec allocator Hal final Htyped) as Hv.
    destruct (inode_validate final allocator) as [[]|e|]; simpl in *; [done| |done]. destruct Hv. apply Hok.
  - intros c Hc. by apply inode_step_ok.
  - pose proof (inode_validate_spec allocator Hal table Ht) as Hv.
    destruct (inode_validate table allocator) as [[]|e|]; simpl in *; [done|done|done].
Qed.

Lemma inode_table_invariant_witness :
  let allocator := mkBlockAllocator 4 2 [false; false; true; true] 2 in
  let cs := [CallCreate File; CallAttach 1 2; CallAttach 1 2; CallCreate Directory; CallDetach 1 2; CallRemove 2] in
  let final := foldl (fun t c => (inode_step allocator t c).2) inode_table_new cs in
  table_ok allocator final /\ inode_validate final allocator = Ok tt /\
  (forall c, inode_call_ok c -> (inode_step allocator final c).1 = false ->
     (inode_step allocator final c).2 = final) /\
  (inode_validate inode_table_new allocator = Ok tt <-> ownership_ok allocator inode_table_new) /\
  inode_validate inode_table_new allocator <> Panic.
Proof.
  refine (inode_table_invariant (mkBlockAllocator 4 2 [false; false; true; true] 2)
    [CallCreate File; CallAttach 1 2; CallAttach 1 2; CallCreate Directory; CallDetach 1 2; CallRemove 2]
    inode_table_new _ _ _).
  - constructor; [done|done|done| |reflexivity]. intros b Hb. unfold bit. simpl in *.
    assert (b = 0 \/ b = 1) as [->| ->] by lia; done.
  - repeat (apply Forall_cons_2; [simpl; done || lia|]). apply Forall_nil_2.
  - intros i n b Hn. simpl in Hn. by rewrite lookup_empty in Hn.
Defined.
