(* ===== verification/RecordTable.v ===== *)
(** * Record tables

    [inode_table.rs] and [directory_table.rs] are the same code around two
    record codecs: a header, the concatenated records, zero padding, in one
    reserved region.  [TableFormat] collects what differs (codec, key, region,
    constants, messages); [TableLaws] is what the table needs of the codec, and
    everything is proved against it. *)

From S2P Require Import Prelude Bytes Block Superblock Region.

Record TableFormat (R K : Type) : Type := mkTableFormat {
  tf_magic : bytes;
  tf_version : Z;
  tf_record_header_len : Z;
  tf_encode_record : R -> outcome io_error bytes;
  tf_decode_record : bytes -> outcome io_error R;
  tf_key : R -> K;
  tf_start : Superblock -> Z;
  tf_blocks : Superblock -> Z;
  msg_geometry : string;
  msg_reservation : string;
  msg_block_count : string;
  msg_byte_size : string;
  msg_duplicate : string;
  msg_image_size : string;
  msg_exceeds : string;
  msg_payload_large : string;
  msg_too_many : string;
  msg_short : string;
  msg_magic : string;
  msg_version : string;
  msg_flags : string;
  msg_payload_usize : string;
  msg_count_usize : string;
  msg_used_overflow : string;
  msg_payload_region : string;
  msg_padding : string;
  msg_checksum : string;
  msg_torn : string;
  msg_record_usize : string;
  msg_record_small : string;
  msg_record_overflow : string;
  msg_count_mismatch : string;
  msg_offset : string;
  msg_slice : string;
  msg_region_len : string;
}.
Arguments tf_magic {R K}. Arguments tf_version {R K}. Arguments tf_record_header_len {R K}.
Arguments tf_encode_record {R K}. Arguments tf_decode_record {R K}. Arguments tf_key {R K}.
Arguments tf_start {R K}. Arguments tf_blocks {R K}. Arguments msg_geometry {R K}.
Arguments msg_reservation {R K}. Arguments msg_block_count {R K}. Arguments msg_byte_size {R K}.
Arguments msg_duplicate {R K}. Arguments msg_image_size {R K}. Arguments msg_exceeds {R K}.
Arguments msg_payload_large {R K}. Arguments msg_too_many {R K}. Arguments msg_short {R K}.
Arguments msg_magic {R K}. Arguments msg_version {R K}. Arguments msg_flags {R K}.
Arguments msg_payload_usize {R K}. Arguments msg_count_usize {R K}. Arguments msg_used_overflow {R K}.
Arguments msg_payload_region {R K}. Arguments msg_padding {R K}. Arguments msg_checksum {R K}.
Arguments msg_torn {R K}. Arguments msg_record_usize {R K}. Arguments msg_record_small {R K}.
Arguments msg_record_overflow {R K}. Arguments msg_count_mismatch {R K}. Arguments msg_offset {R K}.
Arguments msg_slice {R K}. Arguments msg_region_len {R K}.

Definition TABLE_HEADER_LEN : Z := 32.
Definition MAGIC_OFFSET : Z := 0.
Definition VERSION_OFFSET : Z := 8.
Definition FLAGS_OFFSET : Z := 12.
Definition PAYLOAD_BYTES_OFFSET : Z := 16.
Definition RECORD_COUNT_OFFSET : Z := 24.
Definition CHECKSUM_OFFSET : Z := 28.

Section Table.
Context {R K : Type} `{Countable K} (T : TableFormat R K).

Definition table_range {E} (sb : Superblock) : outcome E (Z * Z) :=
  range_from (tf_start T sb) (tf_blocks T sb).

Definition validate_geometry `{BlockDevice D} (superblock : Superblock) : M D unit :=
  let! count := iget block_count in
  ilift (
    try? ensure (count =? total_blocks superblock) (invalid_input (msg_geometry T)) in
    try? ensure (negb (tf_blocks T superblock =? 0)) (invalid_input (msg_reservation T)) in
    let? range := table_range superblock in
    ensure (range.2 <=? total_blocks superblock) (invalid_input (msg_reservation T))).

Definition region_len (superblock : Superblock) : outcome io_error Z :=
  let? blocks := ok_or (usize_try_from (tf_blocks T superblock))
                   (invalid_input (msg_block_count T)) in
  ok_or (checked_mul blocks BLOCK_SIZE) (invalid_input (msg_byte_size T)).

(** One iteration of the first loop of [encode_image]; [seen] is the
    [BTreeSet] of keys. *)
Definition encode_step (acc : gset K * bytes) (r : R) : outcome io_error (gset K * bytes) :=
  let '(seen, payload) := acc in
  try? ensure (negb (bool_decide (tf_key T r ∈ seen))) (invalid_input (msg_duplicate T)) in
  let? record := tf_encode_record T r in
  Ok ({[tf_key T r]} ∪ seen, payload ++ record).

(** The checksum, which reads its own field as zero. *)
Definition table_crc (bs : bytes) : Z := crc32_masked CHECKSUM_OFFSET bs.

Definition encode_image (superblock : Superblock) (rs : list R) : outcome io_error bytes :=
  let? acc := ofold encode_step (∅, []) rs in
  let payload := acc.2 in
  let? capacity := region_len superblock in
  let? used := ok_or (checked_add TABLE_HEADER_LEN (zlen payload))
                 (invalid_input (msg_image_size T)) in
  try? ensure (used <=? capacity) (invalid_input (msg_exceeds T)) in
  let image := zeros capacity in
  let? image := copy_range image MAGIC_OFFSET (MAGIC_OFFSET + zlen (tf_magic T)) (tf_magic T) in
  let? image := copy_range image VERSION_OFFSET (VERSION_OFFSET + 4) (u32_le (tf_version T)) in
  let? image := copy_range image FLAGS_OFFSET (FLAGS_OFFSET + 4) (u32_le 0) in
  let? payload_len := ok_or (u64_try_from (zlen payload)) (invalid_input (msg_payload_large T)) in
  let? image := copy_range image PAYLOAD_BYTES_OFFSET (PAYLOAD_BYTES_OFFSET + 8) (u64_le payload_len) in
  let? count := ok_or (u32_try_from (zlen rs)) (invalid_input (msg_too_many T)) in
  let? image := copy_range image RECORD_COUNT_OFFSET (RECORD_COUNT_OFFSET + 4) (u32_le count) in
  let? image := copy_range image TABLE_HEADER_LEN used payload in
  let? prefix := slice image 0 used in
  let checksum := table_crc prefix in
  copy_range image CHECKSUM_OFFSET (CHECKSUM_OFFSET + 4) (u32_le checksum).

(** One iteration of the [while] loop of [decode_image]: the record at
    [offset] and its end. *)
Definition decode_step (payload : bytes) (offset : Z) : outcome io_error (R * Z) :=
  let? remaining := slice_from payload offset in
  try? ensure (tf_record_header_len T <=? zlen remaining) (unexpected_eof (msg_torn T)) in
  let? len := read_u32 remaining 8 in
  let? total_len := ok_or (usize_try_from len) (invalid_data (msg_record_usize T)) in
  try? ensure (tf_record_header_len T <=? total_len) (invalid_data (msg_record_small T)) in
  let? stop := ok_or (checked_add offset total_len) (invalid_data (msg_record_overflow T)) in
  try? ensure (stop <=? zlen payload) (unexpected_eof (msg_torn T)) in
  let? record := slice payload offset stop in
  let? r := tf_decode_record T record in
  Ok (r, stop).

(** The [while] loop; running out of fuel is a [Panic]. *)
Fixpoint decode_loop (fuel : nat) (payload : bytes) (offset : Z) (seen : gset K) (rs : list R)
    : outcome io_error (list R) :=
  if offset <? zlen payload then
    match fuel with
    | O => Panic
    | S fuel' =>
        let? s := decode_step payload offset in
        try? ensure (negb (bool_decide (tf_key T s.1 ∈ seen))) (invalid_data (msg_duplicate T)) in
        decode_loop fuel' payload s.2 ({[tf_key T s.1]} ∪ seen) (rs ++ [s.1])
    end
  else Ok rs.

(** A record is not shorter than its header, which is not empty: the payload
    length bounds the iterations. *)
Definition decode_records (payload : bytes) : outcome io_error (list R) :=
  decode_loop (length payload) payload 0 ∅ [].

Definition decode_image (image : bytes) : outcome io_error (list R) :=
  try? ensure (TABLE_HEADER_LEN <=? zlen image) (invalid_data (msg_short T)) in
  let? magic := slice image MAGIC_OFFSET (MAGIC_OFFSET + zlen (tf_magic T)) in
  try? ensure (bytes_eqb magic (tf_magic T)) (invalid_data (msg_magic T)) in
  let? version := read_u32 image VERSION_OFFSET in
  try? ensure (version =? tf_version T) (invalid_data (msg_version T)) in
  let? flags := read_u32 image FLAGS_OFFSET in
  try? ensure (flags =? 0) (invalid_data (msg_flags T)) in
  let? payload_len_u64 := read_u64 image PAYLOAD_BYTES_OFFSET in
  let? payload_len := ok_or (usize_try_from payload_len_u64) (invalid_data (msg_payload_usize T)) in
  let? record_count_u32 := read_u32 image RECORD_COUNT_OFFSET in
  let? record_count := ok_or (usize_try_from record_count_u32) (invalid_data (msg_count_usize T)) in
  let? used := ok_or (checked_add TABLE_HEADER_LEN payload_len) (invalid_data (msg_used_overflow T)) in
  try? ensure (used <=? zlen image) (invalid_data (msg_payload_region T)) in
  let? padding := slice_from image used in
  try? ensure (negb (any_nonzero padding)) (invalid_data (msg_padding T)) in
  let? stored_checksum := read_u32 image CHECKSUM_OFFSET in
  let? checksummed := slice image 0 used in
  let? checksummed := copy_range checksummed CHECKSUM_OFFSET (CHECKSUM_OFFSET + 4) (zeros 4) in
  try? ensure (table_crc checksummed =? stored_checksum) (invalid_data (msg_checksum T)) in
  let? payload := slice image TABLE_HEADER_LEN used in
  let? rs := decode_records payload in
  try? ensure (zlen rs =? record_count) (invalid_data (msg_count_mismatch T)) in
  Ok rs.

Section Ops.
Context `{BlockDevice D}.

Definition read_region (superblock : Superblock) : M D bytes :=
  let! len := ilift (region_len superblock) in
  let! range := ilift (table_range superblock) in
  read_region_blocks (zeros len) range (invalid_data (msg_offset T)) (invalid_data (msg_slice T)).

Definition write_region (superblock : Superblock) (image : bytes) : M D unit :=
  let! len := ilift (region_len superblock) in
  do! ilift (ensure (zlen image =? len) (invalid_input (msg_region_len T))) in
  let! range := ilift (table_range superblock) in
  write_region_blocks image range (invalid_input (msg_offset T)) (invalid_input (msg_slice T)).

Definition load_table (superblock : Superblock) : M D (list R) :=
  do! validate_geometry superblock in
  let! image := read_region superblock in
  ilift (decode_image image).

Definition store_table (superblock : Superblock) (rs : list R) : M D unit :=
  do! validate_geometry superblock in
  let! image := ilift (encode_image superblock rs) in
  do! write_region superblock image in
  flush.

Definition initialize_table_region (superblock : Superblock) : M D unit :=
  do! validate_geometry superblock in
  let! image := ilift (encode_image superblock []) in
  write_region superblock image.
End Ops.
End Table.

(** ** What a table needs of its records *)

Class TableLaws {R K : Type} (T : TableFormat R K) : Type := {
  (** the fields of a record are in the range of their Rust types *)
  rec_typed : R -> Prop;
  (** the record can be encoded *)
  rec_valid : R -> Prop;
  rec_bytes : R -> bytes;
  magic_law : zlen (tf_magic T) = 8 /\ Forall is_byte (tf_magic T);
  version_law : 0 <= tf_version T <= u32_max;
  header_law : 12 <= tf_record_header_len T;
  valid_typed r : rec_valid r -> rec_typed r;
  encode_law r : rec_typed r ->
    owp (tf_encode_record T r) (fun bs => rec_valid r /\ bs = rec_bytes r) (fun _ => ~ rec_valid r);
  bytes_law r : rec_valid r ->
    Forall is_byte (rec_bytes r) /\ tf_record_header_len T <= zlen (rec_bytes r) /\
    from_le_bytes (sub (rec_bytes r) 8 4) = zlen (rec_bytes r);
  decode_law r : rec_valid r -> tf_decode_record T (rec_bytes r) = Ok r;
  canonical_law bs r : Forall is_byte bs -> tf_decode_record T bs = Ok r ->
    rec_valid r /\ bs = rec_bytes r;
  no_panic_law bs : Forall is_byte bs -> tf_decode_record T bs <> Panic;
  (** the table's region lies behind the journal, inside the metadata prefix *)
  region_law sb : geometry sb ->
    allocation_start sb <= tf_start T sb /\ 1 <= tf_blocks T sb /\
    tf_start T sb + tf_blocks T sb <= reserved sb;
}.

#[local] Hint Unfold TABLE_HEADER_LEN MAGIC_OFFSET VERSION_OFFSET FLAGS_OFFSET PAYLOAD_BYTES_OFFSET
  RECORD_COUNT_OFFSET CHECKSUM_OFFSET : consts.

Section Images.
Context {R K : Type} `{Countable K} (T : TableFormat R K) `{!TableLaws T}.
Implicit Types (rs : list R).

Definition table_payload rs : bytes := mjoin (rec_bytes (T:=T) <$> rs).

(** Distinct keys and encodable records. *)
Definition table_valid rs : Prop :=
  Forall (rec_valid (T:=T)) rs /\ NoDup (tf_key T <$> rs) /\ zlen rs <= u32_max.

Definition table_fits (n : Z) rs : Prop := TABLE_HEADER_LEN + zlen (table_payload rs) <= n.

Definition used_with (crc : Z) rs : bytes :=
  tf_magic T ++ u32_le (tf_version T) ++ u32_le 0 ++ u64_le (zlen (table_payload rs)) ++
  u32_le (zlen rs) ++ u32_le crc ++ table_payload rs.

(** The canonical image of [n] bytes. *)
Definition table_image (n : Z) rs : bytes :=
  used_with (crc32 (used_with 0 rs)) rs ++ zeros (n - TABLE_HEADER_LEN - zlen (table_payload rs)).

Lemma table_payload_cons r rs : table_payload (r :: rs) = rec_bytes r ++ table_payload rs.
Proof. done. Qed.

Lemma zlen_tf_magic : zlen (tf_magic T) = 8.
Proof. apply magic_law. Qed.

Lemma zlen_used_with crc rs : zlen (used_with crc rs) = TABLE_HEADER_LEN + zlen (table_payload rs).
Proof. unfold used_with. pose proof zlen_tf_magic. zside. Qed.

Lemma Forall_payload rs : Forall (rec_valid (T:=T)) rs -> Forall is_byte (table_payload rs).
Proof.
  induction 1 as [|r rs Hr _ IH]; [constructor|]. rewrite table_payload_cons.
  apply Forall_app. split; [by apply bytes_law|done].
Qed.

Lemma Forall_used_with crc rs : Forall (rec_valid (T:=T)) rs -> Forall is_byte (used_with crc rs).
Proof.
  intros Hrs. unfold used_with. pose proof (proj2 (magic_law (T:=T))).
  auto 20 using Forall_payload with bytes.
Qed.

Lemma zlen_table_image n rs : table_fits n rs -> zlen (table_image n rs) = n.
Proof.
  unfold table_fits. intros. pose proof (zlen_nonneg (table_payload rs)). unfold table_image.
  rewrite zlen_app, zlen_used_with. zside.
Qed.

Lemma Forall_table_image n rs :
  Forall (rec_valid (T:=T)) rs -> Forall is_byte (table_image n rs).
Proof. intros. unfold table_image. auto using Forall_used_with with bytes. Qed.

Lemma used_patch crc crc' rs post :
  put (used_with crc rs ++ post) CHECKSUM_OFFSET (u32_le crc') = used_with crc' rs ++ post.
Proof.
  assert (Hsplit : forall c, used_with c rs ++ post =
    (tf_magic T ++ u32_le (tf_version T) ++ u32_le 0 ++ u64_le (zlen (table_payload rs)) ++
     u32_le (zlen rs)) ++ u32_le c ++ table_payload rs ++ post).
  { intros c. unfold used_with. by rewrite <- !app_assoc. }
  pose proof zlen_tf_magic. rewrite !Hsplit, put_mid by zside. done.
Qed.

Lemma table_crc_used crc rs : table_crc (used_with crc rs) = crc32 (used_with 0 rs).
Proof.
  pose proof (zlen_nonneg (table_payload rs)). unfold table_crc.
  rewrite crc32_masked_put by (rewrite ?zlen_used_with; zside).
  change (zeros 4) with (u32_le 0). f_equal.
  pose proof (used_patch crc 0 rs []) as Hp. by rewrite !app_nil_r in Hp.
Qed.

(** ** Encoding *)

Lemma encode_loop rs : forall seen pre,
  Forall (rec_typed (T:=T)) rs ->
  owp (ofold (encode_step T) (seen, pre) rs)
    (fun acc => Forall (rec_valid (T:=T)) rs /\ NoDup (tf_key T <$> rs) /\
       (forall r, r ∈ rs -> tf_key T r ∉ seen) /\ acc.2 = pre ++ table_payload rs)
    (fun _ => ~ (Forall (rec_valid (T:=T)) rs /\ NoDup (tf_key T <$> rs) /\
       (forall r, r ∈ rs -> tf_key T r ∉ seen))).
Proof.
  induction rs as [|r rs IH]; intros seen pre Ht.
  { simpl. split; [constructor|]. split; [constructor|]. split; [by intros r ?%not_elem_of_nil|].
    by rewrite app_nil_r. }
  apply Forall_cons in Ht as [Hr Ht]. cbn [ofold encode_step].
  case_bool_decide as Hk; ostep.
  { intros (_ & _ & Hn). by apply (Hn r); [constructor|]. }
  pose proof (encode_law (T:=T) r Hr) as He.
  destruct (tf_encode_record T r) as [bs|e|]; ostep; simpl in He; [|intros [Hv _]; by inversion Hv|done].
  destruct He as [Hv ->]. eapply owp_mono; [by apply IH|..]; cbn beta.
  - intros acc (Hvs & Hnd & Hout & ->). rewrite fmap_cons, table_payload_cons, app_assoc.
    split; [by constructor|]. split; [|split; [|done]].
    + constructor; [|done]. intros (r' & Heq & Hin)%list_elem_of_fmap.
      specialize (Hout r' Hin). set_solver.
    + intros r' [->|Hin]%elem_of_cons; [done|]. specialize (Hout r' Hin). set_solver.
  - intros _ Hno (Hvs & Hnd & Hout). apply Hno. apply Forall_cons in Hvs as [_ Hvs].
    rewrite fmap_cons, NoDup_cons in Hnd. destruct Hnd as [Hn Hnd].
    split; [done|]. split; [done|]. intros r' Hin. rewrite elem_of_union, elem_of_singleton.
    intros [Heq|Hin']; [apply Hn; apply list_elem_of_fmap; by exists r'|].
    apply (Hout r'); [by constructor|done].
Qed.

(** ** Decoding *)

Lemma decode_step_record pre r post :
  rec_valid r -> zlen (pre ++ rec_bytes (T:=T) r ++ post) <= u64_max ->
  decode_step T (pre ++ rec_bytes (T:=T) r ++ post) (zlen pre) =
    Ok (r, zlen pre + zlen (rec_bytes (T:=T) r)).
Proof.
  intros Hr Hm. destruct (bytes_law (T:=T) r Hr) as (Hb & Hh & Hlen). pose proof (header_law (T:=T)).
  pose proof (zlen_nonneg pre). pose proof (zlen_nonneg post). set (rb := rec_bytes (T:=T) r) in *.
  rewrite !zlen_app in Hm. unfold decode_step, read_u32.
  rewrite slice_from_Ok by (autorewrite with zlen; lia). ostep.
  rewrite sub_app_r, Z.sub_diag, sub_all by (autorewrite with zlen; lia). otests.
  rewrite sub_app_l, Hlen by lia. otests.
  rewrite (slice_n _ _ _ (zlen rb)) by (autorewrite with zlen; lia). ostep.
  rewrite sub_app_r, Z.sub_diag, sub_prefix by lia. unfold rb. by rewrite decode_law.
Qed.

Lemma decode_loop_payload rs : forall pre seen acc fuel,
  Forall (rec_valid (T:=T)) rs -> NoDup (tf_key T <$> rs) ->
  (forall r, r ∈ rs -> tf_key T r ∉ seen) ->
  zlen (pre ++ table_payload rs) <= u64_max -> (length rs <= fuel)%nat ->
  decode_loop T fuel (pre ++ table_payload rs) (zlen pre) seen acc = Ok (acc ++ rs).
Proof.
  induction rs as [|r rs IH]; intros pre seen acc fuel Hv Hnd Hout Hm Hf.
  - change (table_payload []) with ([] : bytes). rewrite !app_nil_r.
    destruct fuel; cbn [decode_loop]; by rewrite Z.ltb_irrefl.
  - apply Forall_cons in Hv as [Hr Hv]. rewrite fmap_cons, NoDup_cons in Hnd. destruct Hnd as [Hn Hnd].
    destruct fuel as [|fuel]; [simpl in Hf; lia|].
    destruct (bytes_law (T:=T) r Hr) as (_ & Hh & _). pose proof (header_law (T:=T)).
    pose proof (zlen_nonneg (table_payload rs)). rewrite table_payload_cons in *. cbn [decode_loop].
    rewrite (proj2 (Z.ltb_lt _ _)) by (rewrite !zlen_app; lia).
    rewrite decode_step_record by done. ostep.
    rewrite bool_decide_eq_false_2 by (apply Hout; constructor). ostep.
    rewrite <- zlen_app, (app_assoc pre).
    rewrite IH; [by rewrite <- app_assoc|done|done| |by rewrite <- app_assoc|simpl in Hf; lia].
    intros r' Hin. rewrite elem_of_union, elem_of_singleton. intros [Heq|Hin'].
    + apply Hn, list_elem_of_fmap. by exists r'.
    + apply (Hout r'); [by constructor|done].
Qed.

Lemma zlen_payload_ge rs : Forall (rec_valid (T:=T)) rs -> zlen rs <= zlen (table_payload rs).
Proof.
  pose proof (header_law (T:=T)). induction 1 as [|r rs Hr _ IH]; [done|].
  destruct (bytes_law (T:=T) r Hr) as (_ & Hh & _). rewrite table_payload_cons, zlen_cons, zlen_app. lia.
Qed.

Lemma decode_records_payload rs :
  table_valid rs -> zlen (table_payload rs) <= u64_max -> decode_records T (table_payload rs) = Ok rs.
Proof.
  intros (Hv & Hnd & _) Hm. pose proof (zlen_payload_ge rs Hv). unfold zlen in *.
  apply (decode_loop_payload rs [] ∅ []); [done|done|set_solver|done|lia].
Qed.

Lemma decode_step_canonical payload offset r stop :
  Forall is_byte payload -> decode_step T payload offset = Ok (r, stop) ->
  rec_valid r /\ 0 <= offset /\ offset + 12 <= stop <= zlen payload /\
  sub payload offset (stop - offset) = rec_bytes (T:=T) r.
Proof.
  intros Hb Hd. pose proof (header_law (T:=T)). unfold decode_step in Hd. inv_ok. bool_facts. checked_facts.
  read_facts. subst.
  match goal with E : tf_decode_record _ _ = Ok _ |- _ =>
    apply (canonical_law (T:=T)) in E as [Hv Heq]; [|auto with bytes] end.
  split; [done|]. split; [lia|]. split; [lia|done].
Qed.

Lemma decode_step_no_panic payload offset :
  Forall is_byte payload -> 0 <= offset <= zlen payload -> decode_step T payload offset <> Panic.
Proof.
  intros Hb Ho. pose proof (header_law (T:=T)). unfold decode_step.
  rewrite slice_from_Ok by lia. ostep. rewrite zlen_sub by lia.
  apply obind_no_panic; [auto with no_panic|]. intros [] Hl. inv_ok. bool_facts.
  unfold read_u32. rewrite read_le_Ok by (rewrite ?zlen_sub; lia). ostep.
  apply obind_no_panic; [auto with no_panic|]. intros len Hlen. inv_ok. checked_facts.
  set (len := from_le_bytes _) in *.
  apply obind_no_panic; [auto with no_panic|]. intros [] Hs. inv_ok. bool_facts.
  apply obind_no_panic; [auto with no_panic|]. intros stop Hstop. inv_ok. checked_facts.
  apply obind_no_panic; [auto with no_panic|]. intros [] Hs'. inv_ok. bool_facts.
  rewrite slice_Ok by lia. ostep. apply obind_no_panic; [apply (no_panic_law (T:=T)); auto with bytes|done].
Qed.

Lemma table_decode_loop_total fuel payload : forall offset seen acc,
  Forall is_byte payload -> 0 <= offset <= zlen payload -> zlen payload - offset <= Z.of_nat fuel ->
  decode_loop T fuel payload offset seen acc <> Panic.
Proof.
  induction fuel as [|fuel IH]; intros offset seen acc Hb Ho Hf; cbn [decode_loop];
    (destruct (offset <? zlen payload) eqn:Hlt; bool_facts; [|done]); [lia|].
  apply obind_no_panic; [by apply decode_step_no_panic|]. intros [r stop] Hs.
  apply decode_step_canonical in Hs as (_ & _ & Hstop & _); [|done].
  apply obind_no_panic; [auto with no_panic|]. intros _ _. apply IH; [done|simpl; lia..].
Qed.

Lemma table_decode_loop_canonical fuel payload : forall offset seen acc rs,
  Forall is_byte payload -> 0 <= offset <= zlen payload ->
  decode_loop T fuel payload offset seen acc = Ok rs ->
  exists rs', rs = acc ++ rs' /\ Forall (rec_valid (T:=T)) rs' /\ NoDup (tf_key T <$> rs') /\
    (forall r, r ∈ rs' -> tf_key T r ∉ seen) /\
    sub payload offset (zlen payload - offset) = table_payload rs'.
Proof.
  induction fuel as [|fuel IH]; intros offset seen acc rs Hb Ho Hd; cbn [decode_loop] in Hd;
    (destruct (offset <? zlen payload) eqn:Hlt; bool_facts;
     [|injection Hd as <-; exists []; rewrite app_nil_r;
       split; [done|]; split; [constructor|]; split; [constructor|];
       split; [by intros r ?%not_elem_of_nil|]; replace (zlen payload - offset) with 0 by lia; done]);
    [done|].
  inv_ok. bool_facts. destruct x as [r stop]. cbn [fst snd] in *.
  apply decode_step_canonical in E as (Hv & H0 & Hstop & Hrec); [|done].
  apply IH in Hd as (rs' & -> & Hvs & Hnd & Hout & Hrest); [|done|lia].
  exists (r :: rs'). rewrite <- app_assoc. split; [done|]. split; [by constructor|]. split; [|split].
  - rewrite fmap_cons. constructor; [|done]. intros (r' & Heq & Hin)%list_elem_of_fmap.
    specialize (Hout r' Hin). set_solver.
  - intros r' [->|Hin]%elem_of_cons; [done|]. specialize (Hout r' Hin). set_solver.
  - rewrite table_payload_cons, <- Hrec, <- Hrest.
    replace (zlen payload - offset) with ((stop - offset) + (zlen payload - stop)) by lia.
    rewrite sub_split by lia. do 2 f_equal. lia.
Qed.

Lemma table_image_reads n rs :
  table_valid rs -> table_fits n rs -> n <= u64_max ->
  let image := table_image n rs in
  let len := zlen (table_payload rs) in
  sub image MAGIC_OFFSET 8 = tf_magic T /\
  from_le_bytes (sub image VERSION_OFFSET 4) = tf_version T /\
  from_le_bytes (sub image FLAGS_OFFSET 4) = 0 /\
  from_le_bytes (sub image PAYLOAD_BYTES_OFFSET 8) = len /\
  from_le_bytes (sub image RECORD_COUNT_OFFSET 4) = zlen rs /\
  from_le_bytes (sub image CHECKSUM_OFFSET 4) = crc32 (used_with 0 rs) /\
  sub image TABLE_HEADER_LEN len = table_payload rs /\
  sub image 0 (TABLE_HEADER_LEN + len) = used_with (crc32 (used_with 0 rs)) rs /\
  sub image (TABLE_HEADER_LEN + len) (n - (TABLE_HEADER_LEN + len)) =
    zeros (n - (TABLE_HEADER_LEN + len)).
Proof.
  intros (Hv & Hnd & Hc) Hfit Hn image len. unfold table_fits in Hfit. fold len in Hfit.
  assert (Hlen : len = zlen (table_payload rs)) by done.
  assert (0 <= len) by apply zlen_nonneg. pose proof (zlen_nonneg rs).
  pose proof (crc32_bound _ (Forall_used_with 0 rs Hv)) as Hcrc. set (crc := crc32 (used_with 0 rs)) in *.
  pose proof zlen_tf_magic as Hmag. pose proof (version_law (T:=T)).
  assert (Hu : sub image 0 (TABLE_HEADER_LEN + len) = used_with crc rs).
  { unfold image, table_image. apply sub_prefix. by rewrite zlen_used_with. }
  assert (Hz : sub image (TABLE_HEADER_LEN + len) (n - (TABLE_HEADER_LEN + len)) =
    zeros (n - (TABLE_HEADER_LEN + len))).
  { unfold image, table_image. fold len crc. rewrite sub_app_r by (rewrite zlen_used_with; fold len; lia).
    rewrite zlen_used_with. fold len. rewrite sub_zeros by ulia. done. }
  assert (Hi : image = tf_magic T ++ u32_le (tf_version T) ++ u32_le 0 ++ u64_le len ++
    u32_le (zlen rs) ++ u32_le crc ++ table_payload rs ++ zeros (n - TABLE_HEADER_LEN - len)).
  { unfold image, table_image. unfold used_with at 1. by rewrite <- !app_assoc. }
  rewrite Hi in *. clearbody image crc len. clear Hi.
  split; [by field_at|]. split; [field_at; by rewrite from_u32_le by ulia|].
  split; [field_at; by rewrite from_u32_le by ulia|].
  split; [field_at; by rewrite from_u64_le by ulia|].
  split; [field_at; by rewrite from_u32_le by ulia|].
  split; [field_at; by rewrite from_u32_le by ulia|]. split; [by field_at|done].
Qed.

(** Decoding inverts encoding. *)
Lemma decode_table_image n rs :
  table_valid rs -> table_fits n rs -> n <= u64_max -> decode_image T (table_image n rs) = Ok rs.
Proof.
  intros Hv Hfit Hn. pose proof (zlen_table_image n rs Hfit) as Hl. pose proof zlen_tf_magic as Hmag.
  pose proof (zlen_nonneg (table_payload rs)). pose proof (zlen_nonneg rs).
  destruct (table_image_reads n rs Hv Hfit Hn) as (E1 & E2 & E3 & E4 & E5 & E6 & E7 & E8 & E9).
  unfold table_fits in Hfit. destruct Hv as (Hv & Hnd & Hc).
  unfold decode_image. otests. rewrite (slice_n _ _ _ 8) by zside. ostep. rewrite E1. otests.
  read_fields. rewrite E2, E3, E4, E5, E6. otests.
  rewrite slice_from_Ok by ulia. ostep. rewrite Hl, E9. otests.
  rewrite (slice_n _ _ _ (TABLE_HEADER_LEN + zlen (table_payload rs))) by ulia. ostep. rewrite E8.
  pose proof (zlen_used_with (crc32 (used_with 0 rs)) rs) as Hu.
  rewrite copy_range_Ok by zside. ostep. rewrite <- (app_nil_r (used_with _ rs)).
  change (zeros 4) with (u32_le 0). rewrite used_patch, app_nil_r, table_crc_used, Z.eqb_refl. ostep.
  rewrite (slice_n _ _ _ (zlen (table_payload rs))) by ulia. ostep. rewrite E7.
  rewrite decode_records_payload by (done || ulia). ostep. by rewrite Z.eqb_refl.
Qed.

Lemma table_decode_image_no_panic image : Forall is_byte image -> decode_image T image <> Panic.
Proof.
  intros Hb. pose proof zlen_tf_magic as Hmag. unfold decode_image.
  apply obind_no_panic; [auto with no_panic|]. intros [] Hl. inv_ok. bool_facts.
  pose proof (sub_from_bound 8 image PAYLOAD_BYTES_OFFSET Hb ltac:(done) ltac:(ulia) ltac:(lia)).
  unfold read_u64. rewrite (read_le_Ok 8 image PAYLOAD_BYTES_OFFSET) by ulia.
  set (len := from_le_bytes _) in *. ostep.
  assert (Hrec : forall p, Forall is_byte p -> decode_records T p <> Panic).
  { intros p Hp. apply table_decode_loop_total; [done|pose proof (zlen_nonneg p); lia|unfold zlen; lia]. }
  no_panic_with ltac:(bounds_no_panic)
    ltac:(try match goal with E : slice image _ _ = Ok ?r |- _ =>
            assert (Forall is_byte r) by (apply slice_inv in E as (_ & _ & -> & _); auto with bytes) end;
          length_facts).
  all: try by apply Hrec.
Qed.

(** Only canonical images decode. *)
Lemma table_decode_image_canonical image rs :
  Forall is_byte image -> zlen image <= u64_max -> decode_image T image = Ok rs ->
  table_valid rs /\ table_fits (zlen image) rs /\ image = table_image (zlen image) rs.
Proof.
  intros Hb Hm Hd. pose proof zlen_tf_magic as Hmag. unfold decode_image in Hd.
  inv_ok. bool_facts. checked_facts. read_facts. subst. rewrite Hmag in *.
  replace (MAGIC_OFFSET + 8 - MAGIC_OFFSET) with 8 in * by ulia.
  set (len := from_le_bytes (sub image PAYLOAD_BYTES_OFFSET 8)) in *.
  replace (TABLE_HEADER_LEN + len - TABLE_HEADER_LEN) with len in * by lia.
  replace (TABLE_HEADER_LEN + len - 0) with (TABLE_HEADER_LEN + len) in * by lia.
  apply table_decode_loop_canonical in E19 as (rs' & -> & Hv & Hnd & _ & Hpay); [|auto with bytes|lia].
  rewrite app_nil_l in *. rewrite Z.sub_0_r, sub_all in Hpay by done.
  pose proof (from_sub_bound image RECORD_COUNT_OFFSET 4 Hb ltac:(ulia) ltac:(lia) ltac:(ulia)) as Hcnt.
  change (256 ^ 4) with (u32_max + 1) in Hcnt.
  split; [by split_and!; [..|lia]|]. unfold table_fits. rewrite <- Hpay, H15. split; [lia|].
  assert (Hlen : from_le_bytes (sub image PAYLOAD_BYTES_OFFSET 8) = zlen (table_payload rs'))
    by (rewrite <- Hpay, H15; done).
  apply field_u64 in Hlen; [|done|ulia..]. apply field_u32 in E3, E5; [|(done || ulia)..].
  symmetry in E20. apply field_u32 in E20; [|done|ulia..]. apply field_zeros in E13; [|ulia..].
  assert (Hu : sub image 0 (TABLE_HEADER_LEN + len) =
    used_with (from_le_bytes (sub image CHECKSUM_OFFSET 4)) rs').
  { unfold used_with. rewrite <- Hlen, <- E1, <- E3, <- E5, <- E20, <- Hpay.
    rewrite <- (field_u32 image CHECKSUM_OFFSET _ Hb) by ((done || ulia)).
    autounfold with consts in *. rewrite <- !sub_split by ulia. f_equal. lia. }
  unfold table_image. rewrite <- Hpay, H15. rewrite <- (sub_all image (zlen image)) at 1 by done.
  replace (zlen image) with ((TABLE_HEADER_LEN + len) + (zlen image - (TABLE_HEADER_LEN + len))) at 1 by lia.
  rewrite sub_split by ulia. rewrite Z.add_0_l, E13. rewrite Hu at 1.
  replace (zlen image - TABLE_HEADER_LEN - len) with (zlen image - (TABLE_HEADER_LEN + len)) by lia.
  f_equal. f_equal. rewrite <- E17, Hu. change (zeros 4) with (u32_le 0).
  rewrite <- (app_nil_r (used_with _ _)), used_patch, app_nil_r. apply table_crc_used.
Qed.

Context (sb : Superblock) (Hgeo : geometry sb).
Let n : Z := tf_blocks T sb * BLOCK_SIZE.

(** What [store_table] accepts. *)
Definition storable rs : Prop := table_valid rs /\ table_fits (tf_blocks T sb * BLOCK_SIZE) rs.

Lemma table_len_bounds : BLOCK_SIZE <= n <= u64_max.
Proof.
  pose proof (geometry_bounds sb Hgeo). pose proof (region_law (T:=T) sb Hgeo). unfold n, reserved in *. ulia.
Qed.

Lemma table_region_len_Ok : region_len T sb = Ok n.
Proof.
  pose proof table_len_bounds. pose proof (region_law (T:=T) sb Hgeo). unfold region_len, n in *.
  rewrite usize_try_from_le by ulia. ostep. by rewrite checked_mul_le by ulia.
Qed.

Lemma table_encode_image_spec rs :
  Forall (rec_typed (T:=T)) rs ->
  owp (encode_image T sb rs) (fun image => storable rs /\ image = table_image n rs)
    (fun _ => ~ storable rs).
Proof.
  intros Ht. pose proof table_len_bounds. unfold encode_image, storable, table_valid, table_fits.
  apply owp_bind. eapply owp_mono; [by apply (encode_loop rs ∅ [])|..]; simpl.
  2: { intros _ Hno [(Hv & Hnd & _) _]. apply Hno. split; [done|]. split; [done|]. set_solver. }
  intros acc (Hv & Hnd & _ & ->). set (payload := table_payload rs) in *.
  pose proof (zlen_nonneg payload). pose proof (zlen_nonneg rs). fold n.
  rewrite table_region_len_Ok. ostep. unfold checked_add.
  destruct (TABLE_HEADER_LEN + zlen payload <=? u64_max) eqn:Hm; bool_facts; ostep; [|simpl; ulia].
  destruct (TABLE_HEADER_LEN + zlen payload <=? n) eqn:Hfit; bool_facts; ostep; [|simpl; ulia].
  rewrite u64_try_from_le by ulia. ostep. pose proof zlen_tf_magic as Hmag.
  change (zeros n) with ([] ++ zeros n). copy_some.
  unfold u32_try_from, try_from.
  destruct (zlen rs <=? u32_max) eqn:Hc; bool_facts; ostep; [|simpl; lia].
  copy_some. rewrite app_nil_l, <- !app_assoc.
  match goal with |- context [zeros ?m] =>
    replace (zeros m) with (u32_le 0 ++ zeros (n - TABLE_HEADER_LEN)) end.
  2: { change (u32_le 0) with (zeros 4). rewrite <- !zeros_add by ulia. f_equal. zside. }
  rewrite copy_range_Ok by zside. ostep.
  match goal with |- context [put ?r TABLE_HEADER_LEN payload] =>
    replace (put r TABLE_HEADER_LEN payload) with
      (used_with 0 rs ++ zeros (n - TABLE_HEADER_LEN - zlen payload)) end.
  2: { rewrite !app_assoc, put_fill by zside. unfold used_with. by rewrite <- !app_assoc. }
  pose proof (zlen_used_with 0 rs) as Hu. fold payload in Hu.
  rewrite (slice_n _ _ _ (TABLE_HEADER_LEN + zlen payload)) by zside. ostep.
  rewrite sub_prefix, copy_range_Ok by zside. rewrite used_patch, table_crc_used. simpl. auto.
Qed.

Lemma storable_typed rs : storable rs -> Forall (rec_typed (T:=T)) rs.
Proof. intros [(Hv & _) _]. eapply Forall_impl; [done|apply valid_typed]. Qed.

Lemma table_encode_image_Ok rs : storable rs -> encode_image T sb rs = Ok (table_image n rs).
Proof.
  intros Hs. pose proof (table_encode_image_spec rs (storable_typed rs Hs)) as He.
  destruct (encode_image T sb rs); simpl in He; [by destruct He as [_ ->]|done..].
Qed.

Lemma storable_nil : storable [].
Proof.
  pose proof table_len_bounds. split; [|unfold table_fits; fold n; change (zlen (table_payload [])) with 0; ulia].
  split; [constructor|]. split; [constructor|]. rewrite zlen_nil. ulia.
Qed.
End Images.

(** ** On a device *)

Section TableDevice.
Context {R K : Type} `{Countable K} (T : TableFormat R K) `{!TableLaws T}.
Context (sb : Superblock) (Hgeo : geometry sb).

(** The table a disk image holds, and the image with a new table region. *)
Definition table_on_disk (v : list block) : outcome io_error (list R) :=
  decode_image T (disk_region v (tf_start T sb) (tf_blocks T sb)).

Definition with_table (rs : list R) (v : list block) : list block :=
  put v (tf_start T sb) (chunks (tf_blocks T sb) (table_image T (tf_blocks T sb * BLOCK_SIZE) rs)).

Lemma table_range_Ok {E} :
  @table_range R K T E sb = Ok (tf_start T sb, tf_start T sb + tf_blocks T sb).
Proof.
  pose proof (geometry_bounds sb Hgeo). pose proof (region_law (T:=T) sb Hgeo). unfold table_range, range_from, reserved in *.
  rewrite add_u64_le by ulia. done.
Qed.

Lemma validate_geometry_eq `{BlockDevice D} (d : D) :
  block_count d = total_blocks sb -> validate_geometry T sb d = (Ok tt, d).
Proof.
  intros Hc. pose proof (geometry_bounds sb Hgeo). pose proof (region_law (T:=T) sb Hgeo).
  unfold validate_geometry, ibind, iget, ilift, reserved in *. rewrite Hc, table_range_Ok. otests.
  by rewrite (proj2 (Z.leb_le _ _)) by (simpl; lia).
Qed.

Lemma write_table_eq `{BlockDevice D} rs (d : D) :
  table_fits T (tf_blocks T sb * BLOCK_SIZE) rs ->
  write_region T sb (table_image T (tf_blocks T sb * BLOCK_SIZE) rs) d =
    write_seq (region_writes (tf_start T sb) (tf_blocks T sb)
                 (table_image T (tf_blocks T sb * BLOCK_SIZE) rs)) d.
Proof.
  intros Hf. pose proof (geometry_bounds sb Hgeo). pose proof (region_law (T:=T) sb Hgeo).
  pose proof (zlen_table_image T _ rs Hf) as Hl. set (image := table_image _ _ _) in *.
  unfold write_region, ibind, ilift, reserved in *. rewrite (table_region_len_Ok T sb Hgeo). ostep.
  rewrite Hl, Z.eqb_refl. ostep. rewrite table_range_Ok. ostep. by rewrite write_region_blocks_eq by ulia.
Qed.

Lemma store_table_eq `{BlockDevice D} rs (d : D) :
  block_count d = total_blocks sb -> storable T sb rs ->
  store_table T sb rs d =
    (do! write_seq (region_writes (tf_start T sb) (tf_blocks T sb)
                      (table_image T (tf_blocks T sb * BLOCK_SIZE) rs)) in flush) d.
Proof.
  intros Hc Hs. unfold store_table, ibind, ilift. rewrite validate_geometry_eq by done.
  rewrite (table_encode_image_Ok T sb Hgeo) by done. by rewrite write_table_eq by apply Hs.
Qed.

Lemma initialize_table_region_eq `{BlockDevice D} (d : D) :
  block_count d = total_blocks sb ->
  initialize_table_region T sb d =
    write_seq (region_writes (tf_start T sb) (tf_blocks T sb)
                 (table_image T (tf_blocks T sb * BLOCK_SIZE) [])) d.
Proof.
  intros Hc. pose proof (storable_nil T sb Hgeo) as Hs.
  unfold initialize_table_region, ibind, ilift. rewrite validate_geometry_eq by done.
  rewrite (table_encode_image_Ok T sb Hgeo) by done. by rewrite write_table_eq by apply Hs.
Qed.

Context `{DeviceLaws D}.
Implicit Types (d : D) (v s : list block).

Lemma wp_load_table h d v s :
  at_state h d v s -> zlen v = total_blocks sb ->
  wp (load_table T sb)
    (fun rs d' => at_state h d' v s /\ table_on_disk v = Ok rs)
    (fun e d' => at_state false d' v s /\ (h = true -> table_on_disk v = Err e)) d.
Proof.
  intros Hst Hlen. pose proof (geometry_bounds sb Hgeo) as Hg. pose proof (region_law (T:=T) sb Hgeo).
  pose proof (table_len_bounds T sb Hgeo). unfold reserved in *.
  unfold load_table, read_region. apply wp_bind. unfold wp at 1.
  rewrite validate_geometry_eq by (rewrite (at_state_count _ _ _ _ Hst); done).
  apply wp_bind, wp_bind, wp_lift. rewrite (table_region_len_Ok T sb Hgeo). ostep.
  apply wp_bind, wp_lift. rewrite table_range_Ok. ostep.
  eapply wp_mono; [eapply wp_read_region; [done|ulia..]|simpl|simpl].
  2: { intros e d' [Hc ->]. done. }
  intros image d' [-> Hst']. unfold table_on_disk.
  pose proof (Forall_disk_region _ _ (tf_start T sb) (tf_blocks T sb) (at_state_image _ _ _ _ Hst)) as Hb.
  apply wp_lift. pose proof (table_decode_image_no_panic T _ Hb).
  destruct (decode_image T _) as [rs|e|]; simpl; [done| |done]. by split; [eapply at_state_weaken|].
Qed.

Lemma wp_store_table h d v s rs :
  at_state h d v s -> zlen v = total_blocks sb -> storable T sb rs ->
  wp (store_table T sb rs)
    (fun _ d' => at_state h d' (with_table rs v) (with_table rs v))
    (fun _ d' => crashed d' s /\ h = false) d.
Proof.
  intros Hst Hlen Hs. pose proof (geometry_bounds sb Hgeo). pose proof (region_law (T:=T) sb Hgeo).
  unfold reserved in *. pose proof (zlen_table_image T _ rs (proj2 Hs)) as Hl.
  pose proof (Forall_table_image T (tf_blocks T sb * BLOCK_SIZE) rs (proj1 (proj1 Hs))).
  unfold wp. rewrite store_table_eq by (rewrite ?(at_state_count _ _ _ _ Hst); done).
  apply wp_bind. eapply wp_mono; [eapply (wp_write_seq_region _ _ v s); (done || ulia)|..].
  - simpl. intros [] d' Hst'. by apply wp_flush.
  - done.
Qed.

(** A stored table is what is loaded back. *)
Lemma table_on_disk_stored v rs :
  image_ok (total_blocks sb) v -> storable T sb rs -> table_on_disk (with_table rs v) = Ok rs.
Proof.
  intros Hv [Hval Hfit]. pose proof (geometry_bounds sb Hgeo). pose proof (region_law (T:=T) sb Hgeo).
  pose proof (table_len_bounds T sb Hgeo). unfold reserved in *.
  pose proof (zlen_table_image T _ rs Hfit).
  pose proof (Forall_table_image T (tf_blocks T sb * BLOCK_SIZE) rs (proj1 Hval)).
  unfold table_on_disk, with_table.
  rewrite disk_region_put_same by (done || (destruct Hv; lia)).
  apply decode_table_image; (done || ulia).
Qed.
End TableDevice.

(** ** Exactness and store/load, for any table *)

Section Exact.
Context {R K : Type} `{Countable K} (T : TableFormat R K) `{!TableLaws T}.
Context (sb : Superblock) (Hgeo : geometry sb).

Lemma table_image_exact image rs :
  Forall is_byte image -> zlen image = tf_blocks T sb * BLOCK_SIZE -> Forall (rec_typed (T:=T)) rs ->
  decode_image T image <> Panic /\
  (is_ok (encode_image T sb rs) = true <-> storable T sb rs) /\
  (decode_image T image = Ok rs <-> encode_image T sb rs = Ok image).
Proof.
  intros Hb Hl Hrs. pose proof (table_len_bounds T sb Hgeo) as Hn.
  pose proof (table_encode_image_spec T sb Hgeo rs Hrs) as He.
  split; [by apply table_decode_image_no_panic|].
  assert (Hcan : decode_image T image = Ok rs -> storable T sb rs /\ image = table_image T (tf_blocks T sb * BLOCK_SIZE) rs).
  { intros H'. destruct (table_decode_image_canonical T image rs Hb ltac:(rewrite Hl; apply Hn) H') as (Hv & Hf & Hi).
    rewrite Hl in Hf, Hi. by split. }
  destruct (encode_image T sb rs) as [image'|e|]; simpl in He; [|..|done].
  - destruct He as [Hs ->]. split; [done|]. split.
    + intros H'. by apply Hcan in H' as [_ ->].
    + intros [= <-]. destruct Hs. apply decode_table_image; [done..|apply Hn].
  - split; [done|]. split; [|done]. intros H'. by apply Hcan in H' as [? _].
Qed.

Lemma table_store_load `{DeviceLaws D} rs (d : D) v s :
  Forall (rec_typed (T:=T)) rs -> at_state true d v s -> zlen v = total_blocks sb ->
  let run := store_table T sb rs d in
  (storable T sb rs ->
     run.1 = Ok tt /\ durable run.2 = volatile run.2 /\
     (forall b, 0 <= b -> b < tf_start T sb \/ tf_start T sb + tf_blocks T sb <= b ->
        durable run.2 !! Z.to_nat b = v !! Z.to_nat b) /\
     (load_table T sb run.2).1 = Ok rs) /\
  (~ storable T sb rs -> exists e, run = (Err e, d)).
Proof.
  intros Hrs Hst Hlen run. pose proof (region_law (T:=T) sb Hgeo) as Hreg. pose proof (geometry_bounds sb Hgeo).
  pose proof (at_state_image _ _ _ _ Hst) as Hv. rewrite Hlen in Hv. unfold reserved in *. split.
  - intros Hs. pose proof (wp_store_table T sb Hgeo true d v s rs Hst Hlen Hs) as W. unfold wp in W. fold run in W.
    destruct run as [[[]|e|] d1]; [|by destruct W as [_ W]|done]. pose proof W as (_ & Hv1 & Hd1 & _).
    assert (Hlen' : zlen (with_table T sb rs v) = total_blocks sb).
    { unfold with_table. rewrite zlen_put; rewrite ?zlen_chunks by lia; lia. }
    simpl. split; [done|]. split; [congruence|]. split.
    + intros b H0b Hout. rewrite Hd1. unfold with_table. apply lookup_put_outside; rewrite ?zlen_chunks; lia.
    + pose proof (wp_load_table T sb Hgeo true d1 _ _ W Hlen') as L. unfold wp in L.
      rewrite table_on_disk_stored in L by done.
      destruct (load_table T sb d1) as [[rs'|e|] d2]; [|by destruct L as [_ L]; specialize (L eq_refl)|done].
      by destruct L as [_ [= <-]].
  - intros Hn. unfold run, store_table, ibind, ilift.
    rewrite validate_geometry_eq by (done || rewrite (at_state_count _ _ _ _ Hst); done).
    pose proof (table_encode_image_spec T sb Hgeo rs Hrs) as He.
    destruct (encode_image T sb rs) as [image|e|]; simpl in *; [by destruct He|by eauto|done].
Qed.
End Exact.
