(* ===== verification/InodeTable.v ===== *)
(** * The persistent inode table: [inode_table.rs]

    The record table of inode records, keyed by inode identifier, in the
    superblock's inode region. *)

From S2P Require Import Prelude Bytes Block Superblock Region InodeCodec RecordTable.

(** [*b"FSLINOD\0"] *)
Definition INODE_TABLE_MAGIC : bytes := [70; 83; 76; 73; 78; 79; 68; 0].
Definition INODE_TABLE_VERSION : Z := 1.

(** The codec, key, region and messages of [inode_table.rs]. *)
Definition inode_format : TableFormat PersistedInode Z := {|
  tf_magic := INODE_TABLE_MAGIC;
  tf_version := INODE_TABLE_VERSION;
  tf_record_header_len := INODE_RECORD_HEADER_LEN;
  tf_encode_record := encode_inode;
  tf_decode_record := decode_inode;
  tf_key := id;
  tf_start := inode_start;
  tf_blocks := inode_blocks;
  msg_geometry := "inode table device geometry does not match superblock";
  msg_reservation := "invalid inode table reservation";
  msg_block_count := "inode table block count is too large";
  msg_byte_size := "inode table byte size overflow";
  msg_duplicate := "inode table contains duplicate inode identifiers";
  msg_image_size := "inode image size overflow";
  msg_exceeds := "inode table image exceeds reserved region";
  msg_payload_large := "inode payload too large";
  msg_too_many := "too many inode records";
  msg_short := "inode table region is shorter than header";
  msg_magic := "invalid inode table magic";
  msg_version := "unsupported inode table version";
  msg_flags := "inode table flags are non-zero";
  msg_payload_usize := "inode table payload exceeds usize";
  msg_count_usize := "inode table record count exceeds usize";
  msg_used_overflow := "inode table used length overflow";
  msg_payload_region := "inode table payload exceeds reserved region";
  msg_padding := "inode table trailing padding is non-zero";
  msg_checksum := "inode table checksum mismatch";
  msg_torn := "torn inode record in table";
  msg_record_usize := "inode record length exceeds usize";
  msg_record_small := "inode record length is smaller than header";
  msg_record_overflow := "inode record offset overflow";
  msg_count_mismatch := "inode table record count mismatch";
  msg_offset := "inode table offset overflow";
  msg_slice := "inode table block slice mismatch";
  msg_region_len := "inode table image has invalid region length";
|}.

Definition load_inode_table `{BlockDevice D} (superblock : Superblock) : M D (list PersistedInode) :=
  load_table inode_format superblock.
Definition store_inode_table `{BlockDevice D} (superblock : Superblock)
    (inodes : list PersistedInode) : M D unit :=
  store_table inode_format superblock inodes.
Definition initialize_inode_table_region `{BlockDevice D} (superblock : Superblock) : M D unit :=
  initialize_table_region inode_format superblock.

(** The codec keeps the table's contract. *)
#[global] Program Instance inode_laws : TableLaws inode_format := {
  rec_typed := inode_typed;
  rec_valid := inode_valid;
  rec_bytes := inode_record;
  encode_law := encode_inode_spec;
  decode_law := decode_inode_record;
  canonical_law := decode_inode_canonical;
  no_panic_law := decode_inode_no_panic;
}.
Next Obligation. split; [done|]. repeat constructor; done. Qed.
Next Obligation. done. Qed.
Next Obligation. done. Qed.
Next Obligation. by intros r [Ht _]. Qed.
Next Obligation.
  intros r Hv. pose proof (zlen_nonneg (blocks r)). pose proof (zlen_inode_record r) as Hl.
  destruct (inode_record_reads r Hv) as (_ & _ & _ & Hlen & _). rewrite <- Hl in Hlen.
  refine (conj (Forall_inode_record r) (conj _ Hlen)).
  rewrite Hl. cbn. unfold INODE_RECORD_HEADER_LEN. lia.
Qed.
Next Obligation.
  intros sb Hgeo. pose proof (geometry_bounds sb Hgeo). unfold reserved. simpl. lia.
Qed.

(** ** The claims *)

(** The inode table image is exact: a table can be encoded exactly when its
    records are valid, their identifiers distinct and the image fits the
    inode region; bytes of the region's size decode to a table exactly when
    they are its encoding, so duplicate identifiers, torn records, wrong
    checksums and dirty padding are all rejected; decoding arbitrary bytes
    never panics and ends within its fuel. *)
Theorem inode_table_exact sb image inodes :
  geometry sb -> Forall is_byte image -> zlen image = inode_blocks sb * BLOCK_SIZE ->
  Forall inode_typed inodes ->
  decode_image inode_format image <> Panic /\
  (is_ok (encode_image inode_format sb inodes) = true <-> storable inode_format sb inodes) /\
  (decode_image inode_format image = Ok inodes <-> encode_image inode_format sb inodes = Ok image).
Proof. intros Hgeo. exact (table_image_exact inode_format sb Hgeo image inodes). Qed.

(** What [store_inode_table] writes, [load_inode_table] returns: on a device
    that does not fail, a storable table is stored durably, read back equal,
    and no block outside the inode region changes; a table that cannot be
    stored is refused before the device is written. *)
Theorem inode_table_store_load `{DeviceLaws D} sb inodes (d : D) v s :
  geometry sb -> Forall inode_typed inodes -> at_state true d v s -> zlen v = total_blocks sb ->
  let run := store_inode_table sb inodes d in
  (storable inode_format sb inodes ->
     run.1 = Ok tt /\ durable run.2 = volatile run.2 /\
     (forall b, 0 <= b -> b < inode_start sb \/ inode_start sb + inode_blocks sb <= b ->
        durable run.2 !! Z.to_nat b = v !! Z.to_nat b) /\
     (load_inode_table sb run.2).1 = Ok inodes) /\
  (~ storable inode_format sb inodes -> exists e, run = (Err e, d)).
Proof. intros Hgeo. exact (table_store_load inode_format sb Hgeo inodes d v s). Qed.
