(* ===== verification/DirectoryCodec.v ===== *)
(** * The directory entry codec: [directory_codec.rs]

    One persisted directory entry as a checksummed record: header, then the
    name.  A Rust [String] is its bytes, which are valid UTF-8. *)

From S2P Require Import Prelude Bytes.

(** [*b"DNT1"] *)
Definition DIRECTORY_ENTRY_MAGIC : bytes := [68; 78; 84; 49].
Definition DIRECTORY_ENTRY_VERSION : Z := 1.
Definition DIRECTORY_ENTRY_HEADER_LEN : Z := 40.
Definition DIRECTORY_NAME_MAX_BYTES : Z := 255.
Definition MAGIC_OFFSET : Z := 0.
Definition VERSION_OFFSET : Z := 4.
Definition FLAGS_OFFSET : Z := 6.
Definition TOTAL_LEN_OFFSET : Z := 8.
Definition NAME_LEN_OFFSET : Z := 12.
Definition RESERVED16_OFFSET : Z := 14.
Definition PARENT_ID_OFFSET : Z := 16.
Definition TARGET_ID_OFFSET : Z := 24.
Definition CRC_OFFSET : Z := 32.
Definition RESERVED32_OFFSET : Z := 36.

Record PersistedDirectoryEntry : Type := mkPersistedDirectoryEntry {
  parent : Z;
  target : Z;
  name : bytes;
}.
#[global] Instance PersistedDirectoryEntry_eq_dec : EqDecision PersistedDirectoryEntry.
Proof. solve_decision. Defined.

(** ** [str::from_utf8]

    The well-formed byte sequences of the Unicode standard, which is what
    [core::str] accepts: no overlong form, no surrogate, nothing above
    U+10FFFF. *)
Definition in_range (lo hi b : Z) : bool := (lo <=? b) && (b <=? hi).
Definition is_cont (b : Z) : bool := in_range 0x80 0xbf b.

Fixpoint utf8_valid (bs : bytes) : bool :=
  match bs with
  | [] => true
  | b0 :: rest =>
      if b0 <=? 0x7f then utf8_valid rest else
      match rest with
      | [] => false
      | b1 :: rest1 =>
          if in_range 0xc2 0xdf b0 then is_cont b1 && utf8_valid rest1 else
          match rest1 with
          | [] => false
          | b2 :: rest2 =>
              if in_range 0xe0 0xef b0 then
                (if b0 =? 0xe0 then in_range 0xa0 0xbf b1
                 else if b0 =? 0xed then in_range 0x80 0x9f b1
                 else is_cont b1) && is_cont b2 && utf8_valid rest2
              else
              match rest2 with
              | [] => false
              | b3 :: rest3 =>
                  in_range 0xf0 0xf4 b0 &&
                  (if b0 =? 0xf0 then in_range 0x90 0xbf b1
                   else if b0 =? 0xf4 then in_range 0x80 0x8f b1
                   else is_cont b1) && is_cont b2 && is_cont b3 && utf8_valid rest3
              end
          end
      end
  end.

Definition from_utf8 (bs : bytes) : option bytes := if utf8_valid bs then Some bs else None.

(** ** The codec *)

Definition contains_byte (b : Z) (bs : bytes) : bool := existsb (Z.eqb b) bs.

(** [.] is 46, [/] is 47. *)
Definition validate_name (name : bytes) (kind : ErrorKind) : outcome io_error unit :=
  ensure (negb (bytes_eqb name [] || bytes_eqb name [46] || bytes_eqb name [46; 46] ||
                contains_byte 47 name || contains_byte 0 name ||
                negb (zlen name <=? DIRECTORY_NAME_MAX_BYTES)))
    (IoError kind "invalid directory entry name").

Definition record_crc (bs : bytes) : Z := crc32_masked CRC_OFFSET bs.

Definition encode_directory_entry (entry : PersistedDirectoryEntry) : outcome io_error bytes :=
  try? ensure (negb ((parent entry =? 0) || (target entry =? 0)))
         (invalid_input "directory entry inode identifier zero is reserved") in
  try? validate_name (name entry) InvalidInput in
  let? name_len := ok_or (u16_try_from (zlen (name entry)))
                     (invalid_input "directory entry name length exceeds codec limit") in
  let? total_len := ok_or (checked_add DIRECTORY_ENTRY_HEADER_LEN (zlen (name entry)))
                      (invalid_input "directory entry size overflow") in
  let? total_len_u32 := ok_or (u32_try_from total_len)
                          (invalid_input "directory entry length exceeds codec limit") in
  let bs := zeros total_len in
  let? bs := copy_range bs MAGIC_OFFSET (MAGIC_OFFSET + 4) DIRECTORY_ENTRY_MAGIC in
  let? bs := copy_range bs VERSION_OFFSET (VERSION_OFFSET + 2) (u16_le DIRECTORY_ENTRY_VERSION) in
  let? bs := copy_range bs TOTAL_LEN_OFFSET (TOTAL_LEN_OFFSET + 4) (u32_le total_len_u32) in
  let? bs := copy_range bs NAME_LEN_OFFSET (NAME_LEN_OFFSET + 2) (u16_le name_len) in
  let? bs := copy_range bs PARENT_ID_OFFSET (PARENT_ID_OFFSET + 8) (u64_le (parent entry)) in
  let? bs := copy_range bs TARGET_ID_OFFSET (TARGET_ID_OFFSET + 8) (u64_le (target entry)) in
  let? bs := copy_range bs DIRECTORY_ENTRY_HEADER_LEN (zlen bs) (name entry) in
  let crc := record_crc bs in
  copy_range bs CRC_OFFSET (CRC_OFFSET + 4) (u32_le crc).

Definition decode_directory_entry (bs : bytes) : outcome io_error PersistedDirectoryEntry :=
  try? ensure (DIRECTORY_ENTRY_HEADER_LEN <=? zlen bs) (unexpected_eof "torn directory entry header") in
  let? magic := slice bs MAGIC_OFFSET (MAGIC_OFFSET + 4) in
  try? ensure (bytes_eqb magic DIRECTORY_ENTRY_MAGIC) (invalid_data "invalid directory entry magic") in
  let? version := read_u16 bs VERSION_OFFSET in
  try? ensure (version =? DIRECTORY_ENTRY_VERSION)
         (invalid_data ("unsupported directory entry version " +:+ pretty version)) in
  let? flags := read_u16 bs FLAGS_OFFSET in
  let? reserved16 := read_u16 bs RESERVED16_OFFSET in
  let? reserved32 := read_u32 bs RESERVED32_OFFSET in
  try? ensure ((flags =? 0) && (reserved16 =? 0) && (reserved32 =? 0))
         (invalid_data "directory entry reserved fields are non-zero") in
  let? total_len_u32 := read_u32 bs TOTAL_LEN_OFFSET in
  let? total_len := ok_or (usize_try_from total_len_u32)
                      (invalid_data "directory entry record length is invalid") in
  let? name_len := read_u16 bs NAME_LEN_OFFSET in
  let? expected_len := ok_or (checked_add DIRECTORY_ENTRY_HEADER_LEN name_len)
                         (invalid_data "directory entry size overflow") in
  try? ensure (total_len =? expected_len)
         (invalid_data "directory entry length does not match name length") in
  try? ensure (total_len <=? zlen bs) (unexpected_eof "torn directory entry payload") in
  try? ensure (zlen bs =? total_len)
         (invalid_data "directory entry decoder requires exactly one record") in
  let? stored_crc := read_u32 bs CRC_OFFSET in
  try? ensure (stored_crc =? record_crc bs) (invalid_data "directory entry checksum mismatch") in
  let? parent := read_u64 bs PARENT_ID_OFFSET in
  let? target := read_u64 bs TARGET_ID_OFFSET in
  try? ensure (negb ((parent =? 0) || (target =? 0)))
         (invalid_data "directory entry inode identifier zero is reserved") in
  let? payload := slice_from bs DIRECTORY_ENTRY_HEADER_LEN in
  let? name := ok_or (from_utf8 payload) (invalid_data "directory entry name is not UTF-8") in
  try? validate_name name InvalidData in
  Ok (mkPersistedDirectoryEntry parent target name).

(** ** Names *)

(** A valid path component. *)
Definition name_ok (name : bytes) : Prop :=
  name <> [] /\ name <> [46] /\ name <> [46; 46] /\ 47 ∉ name /\ 0 ∉ name /\
  zlen name <= DIRECTORY_NAME_MAX_BYTES.

Lemma contains_byte_false b bs : contains_byte b bs = false <-> b ∉ bs.
Proof.
  unfold contains_byte. rewrite <- not_true_iff_false, existsb_exists. apply not_iff_compat. split.
  - intros (x & Hin & ->%Z.eqb_eq). by apply list_elem_of_In.
  - intros Hin. exists b. split; [by apply list_elem_of_In|apply Z.eqb_refl].
Qed.

Lemma bytes_eqb_false a b : bytes_eqb a b = false <-> a <> b.
Proof. apply bool_decide_eq_false. Qed.

Lemma validate_name_spec name kind :
  owp (validate_name name kind) (fun _ => name_ok name)
    (fun e => e = IoError kind "invalid directory entry name" /\ ~ name_ok name).
Proof.
  unfold validate_name.
  match goal with |- context [ensure (negb ?t)] => assert (Ht : t = false <-> name_ok name) end.
  { unfold name_ok. rewrite !orb_false_iff, !contains_byte_false, !bytes_eqb_false, negb_false_iff, Z.leb_le.
    tauto. }
  destruct (_ || _); simpl; [|tauto]. split; [done|]. intros Hn. by apply Ht in Hn.
Qed.

(** ** Records *)

Definition entry_record_with (crc : Z) (entry : PersistedDirectoryEntry) : bytes :=
  DIRECTORY_ENTRY_MAGIC ++ u16_le DIRECTORY_ENTRY_VERSION ++ u16_le 0 ++
  u32_le (DIRECTORY_ENTRY_HEADER_LEN + zlen (name entry)) ++ u16_le (zlen (name entry)) ++ u16_le 0 ++
  u64_le (parent entry) ++ u64_le (target entry) ++ u32_le crc ++ u32_le 0 ++ name entry.

(** The canonical record of an entry. *)
Definition entry_record (entry : PersistedDirectoryEntry) : bytes :=
  entry_record_with (crc32 (entry_record_with 0 entry)) entry.

(** Two [u64]s and a [String]. *)
Definition entry_typed (entry : PersistedDirectoryEntry) : Prop :=
  is_u64 (parent entry) /\ is_u64 (target entry) /\ Forall is_byte (name entry) /\
  utf8_valid (name entry) = true.

(** What a record can hold. *)
Definition entry_valid (entry : PersistedDirectoryEntry) : Prop :=
  entry_typed entry /\ parent entry <> 0 /\ target entry <> 0 /\ name_ok (name entry).

#[local] Hint Unfold MAGIC_OFFSET VERSION_OFFSET FLAGS_OFFSET TOTAL_LEN_OFFSET NAME_LEN_OFFSET
  RESERVED16_OFFSET PARENT_ID_OFFSET TARGET_ID_OFFSET CRC_OFFSET RESERVED32_OFFSET
  DIRECTORY_ENTRY_HEADER_LEN DIRECTORY_ENTRY_VERSION DIRECTORY_NAME_MAX_BYTES : consts.

Lemma zlen_entry_magic : zlen DIRECTORY_ENTRY_MAGIC = 4.
Proof. done. Qed.
#[local] Hint Rewrite zlen_entry_magic : zlen.

Lemma zlen_entry_record_with crc entry :
  zlen (entry_record_with crc entry) = DIRECTORY_ENTRY_HEADER_LEN + zlen (name entry).
Proof. unfold entry_record_with. zside. Qed.

Lemma zlen_entry_record entry :
  zlen (entry_record entry) = DIRECTORY_ENTRY_HEADER_LEN + zlen (name entry).
Proof. unfold entry_record. apply zlen_entry_record_with. Qed.

Lemma Forall_entry_record_with crc entry :
  Forall is_byte (name entry) -> Forall is_byte (entry_record_with crc entry).
Proof.
  intros. unfold entry_record_with.
  assert (Forall is_byte DIRECTORY_ENTRY_MAGIC) by (repeat constructor; done). auto 20 with bytes.
Qed.

Lemma Forall_entry_record entry : Forall is_byte (name entry) -> Forall is_byte (entry_record entry).
Proof. intros. unfold entry_record. by apply Forall_entry_record_with. Qed.

Lemma entry_record_patch crc crc' entry :
  put (entry_record_with crc entry) CRC_OFFSET (u32_le crc') = entry_record_with crc' entry.
Proof.
  assert (Hsplit : forall c, entry_record_with c entry =
    (DIRECTORY_ENTRY_MAGIC ++ u16_le DIRECTORY_ENTRY_VERSION ++ u16_le 0 ++
     u32_le (DIRECTORY_ENTRY_HEADER_LEN + zlen (name entry)) ++ u16_le (zlen (name entry)) ++ u16_le 0 ++
     u64_le (parent entry) ++ u64_le (target entry)) ++ u32_le c ++ u32_le 0 ++ name entry).
  { intros c. unfold entry_record_with. by rewrite <- !app_assoc. }
  rewrite !Hsplit, put_mid by zside. done.
Qed.

Lemma entry_record_crc_with crc entry :
  record_crc (entry_record_with crc entry) = crc32 (entry_record_with 0 entry).
Proof.
  pose proof (zlen_nonneg (name entry)). unfold record_crc.
  rewrite crc32_masked_put by (rewrite ?zlen_entry_record_with; zside).
  change (zeros 4) with (u32_le 0). by rewrite entry_record_patch.
Qed.

Lemma encode_directory_entry_spec entry : entry_typed entry ->
  owp (encode_directory_entry entry) (fun bs => entry_valid entry /\ bs = entry_record entry)
    (fun _ => ~ entry_valid entry).
Proof.
  intros Ht. unfold encode_directory_entry, entry_valid. pose proof (zlen_nonneg (name entry)).
  destruct (parent entry =? 0) eqn:Hp; bool_facts; [simpl; tauto|].
  destruct (target entry =? 0) eqn:Htg; bool_facts; [simpl; tauto|]. ostep.
  apply owp_bind. eapply owp_mono; [apply validate_name_spec|..]; simpl; [|tauto]. intros _ Hn.
  assert (Hm : zlen (name entry) <= DIRECTORY_NAME_MAX_BYTES) by apply Hn. otests.
  set (n := DIRECTORY_ENTRY_HEADER_LEN + zlen (name entry)).
  change (zeros n) with ([] ++ zeros n).
  assert (Hz : forall k, 2 <= k -> zeros k = u16_le 0 ++ zeros (k - 2)).
  { intros k Hk. change (u16_le 0) with (zeros 2). rewrite <- zeros_add by lia. f_equal. lia. }
  do 2 (rewrite copy_range_Ok by zside; ostep; rewrite put_fill by zside).
  rewrite Hz, (app_assoc _ (u16_le 0)) by zside.
  do 2 (rewrite copy_range_Ok by zside; ostep; rewrite put_fill by zside).
  rewrite Hz, (app_assoc _ (u16_le 0)) by zside.
  do 2 (rewrite copy_range_Ok by zside; ostep; rewrite put_fill by zside). rewrite app_nil_l.
  match goal with |- context [?p ++ zeros ?m] => replace (p ++ zeros m) with
    (((p ++ u32_le 0) ++ u32_le 0) ++ zeros (zlen (name entry))) end.
  2: { change (u32_le 0) with (zeros 4). rewrite <- !app_assoc, <- !zeros_add by zside.
       do 9 f_equal. unfold n. zside. }
  rewrite copy_range_Ok by zside. ostep. rewrite put_fill by zside.
  rewrite Z.sub_diag, app_nil_r, <- !app_assoc.
  change (DIRECTORY_ENTRY_MAGIC ++ _) with (entry_record_with 0 entry).
  rewrite copy_range_Ok by (rewrite ?zlen_entry_record_with; zside).
  rewrite entry_record_crc_with, entry_record_patch. simpl. auto.
Qed.

Lemma entry_record_reads entry : entry_valid entry ->
  let bs := entry_record entry in
  sub bs MAGIC_OFFSET 4 = DIRECTORY_ENTRY_MAGIC /\
  from_le_bytes (sub bs VERSION_OFFSET 2) = DIRECTORY_ENTRY_VERSION /\
  from_le_bytes (sub bs FLAGS_OFFSET 2) = 0 /\
  from_le_bytes (sub bs TOTAL_LEN_OFFSET 4) = DIRECTORY_ENTRY_HEADER_LEN + zlen (name entry) /\
  from_le_bytes (sub bs NAME_LEN_OFFSET 2) = zlen (name entry) /\
  from_le_bytes (sub bs RESERVED16_OFFSET 2) = 0 /\
  from_le_bytes (sub bs PARENT_ID_OFFSET 8) = parent entry /\
  from_le_bytes (sub bs TARGET_ID_OFFSET 8) = target entry /\
  from_le_bytes (sub bs CRC_OFFSET 4) = crc32 (entry_record_with 0 entry) /\
  from_le_bytes (sub bs RESERVED32_OFFSET 4) = 0 /\
  sub bs DIRECTORY_ENTRY_HEADER_LEN (zlen (name entry)) = name entry.
Proof.
  intros ((Hp & Htg & Hb & _) & _ & _ & Hn) bs. pose proof (zlen_nonneg (name entry)).
  assert (zlen (name entry) <= DIRECTORY_NAME_MAX_BYTES) by apply Hn.
  pose proof (crc32_bound _ (Forall_entry_record_with 0 entry Hb)).
  unfold bs, entry_record. set (crc := crc32 (entry_record_with 0 entry)) in *. clearbody crc.
  unfold entry_record_with.
  split; [by field_at|]. split; [field_at; by rewrite from_u16_le by ulia|].
  split; [field_at; by rewrite from_u16_le by ulia|].
  split; [field_at; by rewrite from_u32_le by ulia|].
  split; [field_at; by rewrite from_u16_le by ulia|].
  split; [field_at; by rewrite from_u16_le by ulia|].
  split; [field_at; by rewrite from_u64_le|]. split; [field_at; by rewrite from_u64_le|].
  split; [field_at; by rewrite from_u32_le by ulia|].
  split; [field_at; by rewrite from_u32_le by ulia|].
  repeat (rewrite sub_app_r by zside). rewrite sub_all; [done|zside].
Qed.

Lemma decode_directory_entry_record entry : entry_valid entry -> decode_directory_entry (entry_record entry) = Ok entry.
Proof.
  intros Hv. pose proof (zlen_nonneg (name entry)). pose proof (zlen_entry_record entry) as Hl.
  destruct (entry_record_reads entry Hv) as (E1 & E2 & E3 & E4 & E5 & E6 & E7 & E8 & E9 & E10 & E11).
  destruct Hv as ((Hp & Htg & Hb & Hu) & Hpz & Htz & Hn).
  assert (zlen (name entry) <= DIRECTORY_NAME_MAX_BYTES) by apply Hn.
  unfold decode_directory_entry. otests. rewrite (slice_n _ _ _ 4) by zside. ostep. rewrite E1. read_fields.
  rewrite E2, E3, E6, E10, E4, E5. otests.
  replace (record_crc (entry_record entry)) with (crc32 (entry_record_with 0 entry))
    by (unfold entry_record; by rewrite entry_record_crc_with).
  rewrite E9, Z.eqb_refl, E7, E8. otests.
  rewrite slice_from_Ok by zside. ostep. rewrite Hl.
  replace (DIRECTORY_ENTRY_HEADER_LEN + zlen (name entry) - DIRECTORY_ENTRY_HEADER_LEN)
    with (zlen (name entry)) by lia.
  rewrite E11. unfold from_utf8. rewrite Hu. ostep.
  pose proof (validate_name_spec (name entry) InvalidData) as Hvn.
  destruct (validate_name _ _); simpl in Hvn; [by destruct entry|tauto|done].
Qed.

Lemma decode_directory_entry_no_panic bs : Forall is_byte bs -> decode_directory_entry bs <> Panic.
Proof.
  intros Hb. unfold decode_directory_entry.
  pose proof (fun n => owp_no_panic _ _ _ (validate_name_spec n InvalidData)). no_panic.
Qed.

(** A buffer with these fields is a record. *)
Lemma entry_record_of_fields bs entry crc :
  Forall is_byte bs -> zlen bs = DIRECTORY_ENTRY_HEADER_LEN + zlen (name entry) ->
  sub bs MAGIC_OFFSET 4 = DIRECTORY_ENTRY_MAGIC ->
  from_le_bytes (sub bs VERSION_OFFSET 2) = DIRECTORY_ENTRY_VERSION ->
  from_le_bytes (sub bs FLAGS_OFFSET 2) = 0 ->
  from_le_bytes (sub bs TOTAL_LEN_OFFSET 4) = zlen bs ->
  from_le_bytes (sub bs NAME_LEN_OFFSET 2) = zlen (name entry) ->
  from_le_bytes (sub bs RESERVED16_OFFSET 2) = 0 ->
  from_le_bytes (sub bs PARENT_ID_OFFSET 8) = parent entry ->
  from_le_bytes (sub bs TARGET_ID_OFFSET 8) = target entry ->
  from_le_bytes (sub bs CRC_OFFSET 4) = crc ->
  from_le_bytes (sub bs RESERVED32_OFFSET 4) = 0 ->
  sub bs DIRECTORY_ENTRY_HEADER_LEN (zlen (name entry)) = name entry ->
  bs = entry_record_with crc entry.
Proof.
  intros Hb Hl E1 E2 E3 E4 E5 E6 E7 E8 E9 E10 E11. pose proof (zlen_nonneg (name entry)).
  rewrite Hl in E4. apply field_u16 in E2, E3, E5, E6; [|(done || ulia)..].
  apply field_u32 in E4, E9, E10; [|(done || ulia)..]. apply field_u64 in E7, E8; [|(done || ulia)..].
  unfold entry_record_with. rewrite <- E1, <- E2, <- E4, <- E5, <- E7, <- E8, <- E9, <- E10.
  rewrite <- E11 at 1. rewrite <- E3 at 1. rewrite <- E6.
  autounfold with consts in *. rewrite <- !sub_split by lia. symmetry. apply sub_all. lia.
Qed.

(** Only canonical records decode. *)
Lemma decode_directory_entry_canonical bs entry :
  Forall is_byte bs -> decode_directory_entry bs = Ok entry -> entry_valid entry /\ bs = entry_record entry.
Proof.
  intros Hb Hd. unfold decode_directory_entry in Hd. inv_ok. bool_facts. checked_facts. read_facts. subst.
  pose proof (validate_name_spec x21 InvalidData) as Hn. rewrite E22 in Hn. simpl in Hn.
  unfold from_utf8 in E21. destruct (utf8_valid _) eqn:Hu; [|done]. injection E21 as <-.
  set (nm := sub bs DIRECTORY_ENTRY_HEADER_LEN _) in *.
  set (entry := mkPersistedDirectoryEntry _ _ nm).
  assert (Hrec : bs = entry_record_with (from_le_bytes (sub bs CRC_OFFSET 4)) entry).
  { apply entry_record_of_fields; unfold entry; cbn [parent target name]; rewrite ?H28; (done || lia). }
  split; [|unfold entry_record; rewrite Hrec at 1; f_equal; rewrite E16, Hrec at 1; apply entry_record_crc_with].
  split; [|done]. unfold entry_typed, entry; cbn [parent target name].
  split; [apply sub_from_bound; (done || lia)|]. split; [apply sub_from_bound; (done || lia)|].
  split; [unfold nm; auto with bytes|done].
Qed.

(** ** The claims *)

(** The directory entry codec is exact: [encode_directory_entry] succeeds
    exactly on entries whose parent and target are non-zero and whose name is
    a non-empty component of at most 255 bytes, not [.] or [..], without a
    slash or a zero byte; a byte string decodes to an entry exactly when it
    is that entry's encoding; arbitrary bytes never make the decoder panic. *)
Theorem directory_codec_exact bs entry :
  Forall is_byte bs -> entry_typed entry ->
  decode_directory_entry bs <> Panic /\ encode_directory_entry entry <> Panic /\
  (is_ok (encode_directory_entry entry) = true <-> entry_valid entry) /\
  (decode_directory_entry bs = Ok entry <-> encode_directory_entry entry = Ok bs).
Proof.
  intros Hb Ht. pose proof (encode_directory_entry_spec entry Ht) as He.
  split; [by apply decode_directory_entry_no_panic|].
  destruct (encode_directory_entry entry) as [bs'|e|] eqn:Henc; simpl in He; [|..|done].
  - destruct He as [Hv ->]. split; [done|]. split; [done|]. split.
    + intros H. by apply decode_directory_entry_canonical in H as [_ ->].
    + intros [= <-]. by apply decode_directory_entry_record.
  - split; [done|]. split; [done|]. split; [|done]. intros H.
    by apply decode_directory_entry_canonical in H as [? _].
Qed.

Lemma directory_codec_exact_witness :
  let entry := mkPersistedDirectoryEntry 1 2 [97; 98] in
  decode_directory_entry (entry_record entry) <> Panic /\ encode_directory_entry entry <> Panic /\
  (is_ok (encode_directory_entry entry) = true <-> entry_valid entry) /\
  (decode_directory_entry (entry_record entry) = Ok entry <->
     encode_directory_entry entry = Ok (entry_record entry)).
Proof.
  assert (Hname : Forall is_byte [97; 98]) by (repeat (apply Forall_cons_2; [done|]); apply Forall_nil_2).
  refine (directory_codec_exact (entry_record (mkPersistedDirectoryEntry 1 2 [97; 98]))
    (mkPersistedDirectoryEntry 1 2 [97; 98]) (Forall_entry_record (mkPersistedDirectoryEntry 1 2 [97; 98]) Hname) _).
  by repeat split.
Defined.
