(* ===== verification/Directory.v ===== *)
(** * The in-memory namespace: [directory.rs]

    Directory entries by parent inode and name.  Names are UTF-8 strings, kept
    as their bytes.  The [Display] texts, which print names with Rust's debug
    escapes, are left out; errors are the enum's values. *)

From S2P Require Import Prelude Bytes BTree InodeCodec DirectoryCodec Inode.

Inductive DirectoryError : Type :=
  | ParentNotFound (parent : InodeId)
  | ParentNotDirectory (parent : InodeId)
  | TargetNotFound (target : InodeId)
  | InvalidName (name : bytes)
  | EntryAlreadyExists (parent : InodeId) (name : bytes)
  | EntryNotFound (parent : InodeId) (name : bytes).

Inductive DirectoryInvariantError : Type :=
  | InvParentMissing (parent : InodeId)
  | InvParentNotDirectory (parent : InodeId)
  | InvInvalidName (parent : InodeId) (name : bytes)
  | InvDanglingTarget (parent : InodeId) (name : bytes) (target : InodeId).

(** The struct [DirectoryTable]. *)
Record DirectoryTable : Type := mkDirectoryTable {
  dir_entries : gmap InodeId (gmap bytes InodeId);
}.

Definition directory_new : DirectoryTable := mkDirectoryTable ∅.

Definition valid_name (name : bytes) : bool :=
  negb (is_empty name) && negb (bytes_eqb name [46]) && negb (bytes_eqb name [46; 46]) &&
  negb (contains_byte 47 name) && negb (contains_byte 0 name).

Definition validate_parent (parent : InodeId) (inodes : InodeTable) : outcome DirectoryError unit :=
  let? inode := ok_or (inode_get inodes parent) (ParentNotFound parent) in
  ensure (bool_decide (inode_kind inode = Directory)) (ParentNotDirectory parent).

Definition dir_insert (parent : InodeId) (name : bytes) (target : InodeId) (inodes : InodeTable)
    : ST DirectoryError DirectoryTable unit :=
  do! ilift (validate_parent parent inodes) in
  do! ilift (ensure (bool_decide (is_Some (inode_get inodes target))) (TargetNotFound target)) in
  do! ilift (ensure (valid_name name) (InvalidName name)) in
  (* [self.entries.entry(parent).or_default()] *)
  let! directory := iget (fun self => default ∅ (dir_entries self !! parent)) in
  do! iset (fun self => mkDirectoryTable (<[parent := directory]> (dir_entries self))) in
  do! ilift (ensure (negb (bool_decide (is_Some (directory !! name)))) (EntryAlreadyExists parent name)) in
  iset (fun self => mkDirectoryTable (<[parent := <[name := target]> directory]> (dir_entries self))).

Definition dir_remove (parent : InodeId) (name : bytes) (inodes : InodeTable)
    : ST DirectoryError DirectoryTable InodeId :=
  do! ilift (validate_parent parent inodes) in
  do! ilift (ensure (valid_name name) (InvalidName name)) in
  let! self := iget Datatypes.id in
  let! directory := ilift (ok_or (dir_entries self !! parent) (EntryNotFound parent name)) in
  let! target := ilift (ok_or (directory !! name) (EntryNotFound parent name)) in
  let directory := delete name directory in
  do! iset (fun self =>
    mkDirectoryTable (if bool_decide (directory = ∅) then delete parent (dir_entries self)
                      else <[parent := directory]> (dir_entries self))) in
  iret target.

Definition dir_lookup (self : DirectoryTable) (parent : InodeId) (name : bytes) : option InodeId :=
  dir_entries self !! parent ≫= (fun directory => directory !! name).

Definition entry_count (self : DirectoryTable) (parent : InodeId) : Z :=
  match dir_entries self !! parent with Some directory => Z.of_nat (size directory) | None => 0 end.

Definition validate_name_entry (inodes : InodeTable) (parent : InodeId) (entry : bytes * InodeId)
    : outcome DirectoryInvariantError unit :=
  try? ensure (valid_name entry.1) (InvInvalidName parent entry.1) in
  ensure (bool_decide (is_Some (inode_get inodes entry.2))) (InvDanglingTarget parent entry.1 entry.2).

Definition validate_directory (inodes : InodeTable) (entry : InodeId * gmap bytes InodeId)
    : outcome DirectoryInvariantError unit :=
  let? parent_inode := ok_or (inode_get inodes entry.1) (InvParentMissing entry.1) in
  try? ensure (bool_decide (inode_kind parent_inode = Directory)) (InvParentNotDirectory entry.1) in
  ofor (validate_name_entry inodes entry.1) (btree_iter entry.2).

Definition dir_validate (self : DirectoryTable) (inodes : InodeTable) : outcome DirectoryInvariantError unit :=
  ofor (validate_directory inodes) (btree_iter (dir_entries self)).

(** ** The namespace as one map *)

Definition view (self : DirectoryTable) : gmap (InodeId * bytes) InodeId :=
  map_uncurry (M1:=gmap InodeId) (M2:=gmap bytes) (M12:=gmap (InodeId * bytes)) (dir_entries self).

Lemma lookup_view self p n : view self !! (p, n) = dir_lookup self p n.
Proof. unfold view, dir_lookup. by rewrite lookup_map_uncurry. Qed.

Definition no_empty (self : DirectoryTable) : Prop := map_Forall (fun _ d => d <> ∅) (dir_entries self).

(** An inode that can hold entries. *)
Definition is_directory (inodes : InodeTable) (i : InodeId) : Prop :=
  exists n, inode_get inodes i = Some n /\ inode_kind n = Directory.

(** What [validate] promises of the entries. *)
Definition entries_ok (inodes : InodeTable) (S : gmap (InodeId * bytes) InodeId) : Prop :=
  map_Forall (fun k t => is_directory inodes k.1 /\ valid_name k.2 = true /\ is_Some (inode_get inodes t)) S.

Lemma validate_parent_spec p inodes :
  owp (validate_parent p inodes) (fun _ => is_directory inodes p)
    (fun e => ~ is_directory inodes p /\
       e = match inode_get inodes p with Some _ => ParentNotDirectory p | None => ParentNotFound p end).
Proof.
  unfold validate_parent, is_directory. destruct (inode_get inodes p) as [n|]; simpl; [|naive_solver].
  case_bool_decide; simpl; naive_solver.
Qed.

Lemma dir_validate_spec self inodes : no_empty self ->
  dir_validate self inodes = Ok tt <-> entries_ok inodes (view self).
Proof.
  intros Hne. unfold dir_validate. rewrite ofor_Ok. split.
  - intros Hall [p n] t Ht. rewrite lookup_view in Ht. unfold dir_lookup in Ht.
    destruct (dir_entries self !! p) as [d|] eqn:Hd; simpl in Ht; [|done].
    pose proof (Hall (p, d) (proj2 (elem_of_btree_iter _ _ _) Hd)) as H. unfold validate_directory in H.
    simpl in H. inv_ok. apply bool_decide_eq_true in E0.
    pose proof (proj1 (ofor_Ok _ _ _) H (n, t) (proj2 (elem_of_btree_iter _ _ _) Ht)) as Hn.
    unfold validate_name_entry in Hn. inv_ok. apply bool_decide_eq_true in Hn. simpl in *.
    split; [by eexists|done].
  - intros Hok [p d] Hd%elem_of_btree_iter. unfold validate_directory. simpl.
    destruct (map_choose d (Hne p d Hd)) as (n0 & t0 & Ht0).
    assert (Hv : forall n t, d !! n = Some t -> view self !! (p, n) = Some t)
      by (intros n t Hn; rewrite lookup_view; unfold dir_lookup; by rewrite Hd).
    destruct (Hok (p, n0) t0 (Hv _ _ Ht0)) as [(pn & Hp & Hk) _]. simpl in Hp. rewrite Hp. ostep.
    rewrite bool_decide_eq_true_2 by done. ostep. apply ofor_Ok. intros [n t] Hn%elem_of_btree_iter.
    destruct (Hok (p, n) t (Hv _ _ Hn)) as (_ & Hname & Ht). unfold validate_name_entry. simpl in *.
    rewrite Hname. ostep. by rewrite bool_decide_eq_true_2.
Qed.

(** ** The operations on the map *)

(** A change of one directory, seen through [view]. *)
Lemma view_eq self S : (forall p n, dir_lookup self p n = S !! (p, n)) -> view self = S.
Proof. intros H. apply map_eq. intros [p n]. by rewrite lookup_view. Qed.

Lemma lookup_dir_default self p n :
  (default ∅ (dir_entries self !! p) : gmap bytes InodeId) !! n = dir_lookup self p n.
Proof. unfold dir_lookup. destruct (dir_entries self !! p); simpl; [done|by rewrite lookup_empty]. Qed.

Lemma dir_lookup_insert (m : gmap InodeId (gmap bytes InodeId)) (p : InodeId) (d : gmap bytes InodeId) (q : InodeId) (n : bytes) :
  dir_lookup (mkDirectoryTable (<[p := d]> m)) q n =
    if decide (p = q) then d !! n else dir_lookup (mkDirectoryTable m) q n.
Proof.
  unfold dir_lookup. simpl. case_decide as Hq; [subst q; by rewrite lookup_insert_eq|by rewrite lookup_insert_ne].
Qed.

Lemma dir_insert_spec p n t inodes self : no_empty self ->
  let S := view self in
  let run := dir_insert p n t inodes self in
  match run.1 with
  | Ok _ => is_directory inodes p /\ is_Some (inode_get inodes t) /\ valid_name n = true /\ S !! (p, n) = None /\
      view run.2 = <[(p, n) := t]> S /\ no_empty run.2
  | Err _ => run.2 = self /\
      ~ (is_directory inodes p /\ is_Some (inode_get inodes t) /\ valid_name n = true /\ S !! (p, n) = None)
  | Panic => False
  end.
Proof.
  intros Hne S run. unfold run, dir_insert, ibind, ilift, iget, iset.
  pose proof (validate_parent_spec p inodes) as Hp. destruct (validate_parent p inodes) as [[]|e|]; simpl in *;
    [|split; [done|]; tauto|done].
  case_bool_decide as Ht; simpl; [|split; [done|]; tauto].
  destruct (valid_name n) eqn:Hn; simpl; [|split; [done|]; naive_solver].
  rewrite lookup_dir_default. unfold S. rewrite lookup_view.
  destruct (dir_lookup self p n) as [t'|] eqn:Hl; simpl.
  - split; [|naive_solver]. unfold dir_lookup in Hl. destruct (dir_entries self !! p) as [d|] eqn:Hd; [|done].
    destruct self as [m]. simpl in *. by rewrite insert_id.
  - split_and!; try done.
    + apply view_eq. intros q k. rewrite !dir_lookup_insert, lookup_insert. case_decide as Hq.
      * subst q. rewrite lookup_insert, lookup_dir_default.
        destruct (decide (n = k)) as [->|]; [by rewrite decide_True|].
        rewrite decide_False by naive_solver. by rewrite lookup_view.
      * rewrite lookup_insert_ne by naive_solver. rewrite lookup_view. by destruct self.
    + unfold no_empty in *. simpl. rewrite insert_insert_eq. apply map_Forall_insert_2; [|done].
      intros He. apply (f_equal (lookup n)) in He. rewrite lookup_insert_eq, lookup_empty in He. done.
Qed.

Lemma dir_remove_spec p n inodes self : no_empty self ->
  let S := view self in
  let run := dir_remove p n inodes self in
  match run.1 with
  | Ok t => is_directory inodes p /\ valid_name n = true /\ S !! (p, n) = Some t /\
      view run.2 = delete (p, n) S /\ no_empty run.2
  | Err _ => run.2 = self /\ ~ (is_directory inodes p /\ valid_name n = true /\ is_Some (S !! (p, n)))
  | Panic => False
  end.
Proof.
  intros Hne S run. unfold run, dir_remove, ibind, ilift, iget, iset, Datatypes.id.
  pose proof (validate_parent_spec p inodes) as Hp. destruct (validate_parent p inodes) as [[]|e|]; simpl in *;
    [|split; [done|]; tauto|done].
  destruct (valid_name n) eqn:Hn; simpl; [|split; [done|]; naive_solver].
  unfold S. rewrite lookup_view. unfold dir_lookup.
  destruct (dir_entries self !! p) as [d|] eqn:Hd; simpl; [|split; [done|]; intros (_ & _ & []); done].
  destruct (d !! n) as [t|] eqn:Ht; simpl; [|split; [done|]; intros (_ & _ & []); done].
  split_and!; try done.
  - apply view_eq. intros q k. rewrite lookup_delete, lookup_view. case_bool_decide as He.
    + unfold dir_lookup. simpl. destruct (decide (p = q)) as [<-|Hq].
      * rewrite lookup_delete_eq, Hd. simpl. case_decide as Hk; [done|].
        assert (delete n d !! k = None) as Hnone by (rewrite He; apply lookup_empty).
        rewrite lookup_delete_ne in Hnone by naive_solver. done.
      * rewrite lookup_delete_ne, decide_False by naive_solver. done.
    + rewrite dir_lookup_insert. unfold dir_lookup. destruct (decide (p = q)) as [<-|Hq].
      * rewrite lookup_delete, Hd. simpl. destruct (decide (n = k)) as [<-|]; [by rewrite decide_True|].
        by rewrite decide_False by naive_solver.
      * by rewrite decide_False by naive_solver.
  - unfold no_empty in *. simpl. case_bool_decide; [by apply map_Forall_delete|by apply map_Forall_insert_2].
Qed.

Lemma entry_count_spec self p :
  entry_count self p = Z.of_nat (size (filter (fun kt => kt.1.1 = p) (view self))).
Proof.
  unfold entry_count. destruct (dir_entries self !! p) as [d|] eqn:Hd.
  - f_equal. assert (Heq : filter (fun kt => kt.1.1 = p) (view self) = kmap (M2:=gmap (InodeId * bytes)) (pair p) d).
    { apply map_eq. intros [q n]. apply option_eq. intros t.
      rewrite map_lookup_filter_Some, lookup_view, lookup_kmap_Some by (intros ? ? [= ->]; done). unfold dir_lookup. simpl. split.
      - intros [Hl ->]. rewrite Hd in Hl. by exists n.
      - intros (n' & [= -> ->] & Hl). by rewrite Hd. }
    rewrite Heq, <- !length_map_to_list, map_to_list_kmap by (intros ? ? [= ->]; done). by rewrite length_fmap.
  - assert (Heq : filter (fun kt => kt.1.1 = p) (view self) = ∅); [|by rewrite Heq, map_size_empty].
    apply map_eq. intros [q n]. rewrite lookup_empty. apply eq_None_not_Some.
    intros [t [Hl Hq]%map_lookup_filter_Some]. simpl in Hq. subst q.
    rewrite lookup_view in Hl. unfold dir_lookup in Hl. by rewrite Hd in Hl.
Qed.

(** ** The claim *)

Inductive dir_call : Type :=
  | CallInsert (parent : InodeId) (name : bytes) (target : InodeId)
  | CallRemoveEntry (parent : InodeId) (name : bytes)
  | CallLookup (parent : InodeId) (name : bytes)
  | CallCount (parent : InodeId).

Inductive dir_reply : Type :=
  | Done | Removed (target : InodeId) | Found (target : option InodeId) | Count (n : Z) | Refused.

Definition dir_step (inodes : InodeTable) (c : dir_call) (self : DirectoryTable) : dir_reply * DirectoryTable :=
  match c with
  | CallInsert p n t => let '(r, s) := dir_insert p n t inodes self in (if is_ok r then Done else Refused, s)
  | CallRemoveEntry p n =>
      let '(r, s) := dir_remove p n inodes self in (match r with Ok t => Removed t | _ => Refused end, s)
  | CallLookup p n => (Found (dir_lookup self p n), self)
  | CallCount p => (Count (entry_count self p), self)
  end.

(** The same calls on a map from (parent, name) to target. *)
Definition dir_spec (inodes : InodeTable) (c : dir_call) (S : gmap (InodeId * bytes) InodeId)
    : dir_reply * gmap (InodeId * bytes) InodeId :=
  let directory p := match inode_get inodes p with Some n => bool_decide (inode_kind n = Directory) | None => false end in
  match c with
  | CallInsert p n t =>
      if directory p && bool_decide (is_Some (inode_get inodes t)) && valid_name n && bool_decide (S !! (p, n) = None)
      then (Done, <[(p, n) := t]> S) else (Refused, S)
  | CallRemoveEntry p n =>
      if directory p && valid_name n then
        match S !! (p, n) with Some t => (Removed t, delete (p, n) S) | None => (Refused, S) end
      else (Refused, S)
  | CallLookup p n => (Found (S !! (p, n)), S)
  | CallCount p => (Count (Z.of_nat (size (filter (fun kt => kt.1.1 = p) S))), S)
  end.

Fixpoint dir_run {A} (f : dir_call -> A -> dir_reply * A) (cs : list dir_call) (a : A) : list dir_reply * A :=
  match cs with
  | [] => ([], a)
  | c :: cs' => let '(r, a1) := f c a in let '(rs, a2) := dir_run f cs' a1 in (r :: rs, a2)
  end.

Lemma directory_test inodes p :
  match inode_get inodes p with Some n => bool_decide (inode_kind n = Directory) | None => false end = true <->
  is_directory inodes p.
Proof.
  unfold is_directory. destruct (inode_get inodes p) as [n|]; [|naive_solver].
  rewrite bool_decide_eq_true. naive_solver.
Qed.

Lemma dir_step_refines inodes c self : no_empty self -> entries_ok inodes (view self) ->
  let run := dir_step inodes c self in let spec := dir_spec inodes c (view self) in
  run.1 = spec.1 /\ view run.2 = spec.2 /\ no_empty run.2 /\ entries_ok inodes (view run.2).
Proof.
  intros Hne Hok. destruct c as [p n t|p n|p n|p]; simpl.
  - pose proof (dir_insert_spec p n t inodes self Hne) as Hs. simpl in Hs. pose proof (directory_test inodes p) as Hd.
    set (D := match inode_get inodes p with Some _ => _ | None => _ end) in *.
    destruct (dir_insert p n t inodes self) as [[[]|e|] s]; simpl in *; [| |done].
    + destruct Hs as (Hp & Ht & Hn & Hl & Hv & Hne'). rewrite (proj2 Hd Hp), Hn, Hl.
      rewrite !bool_decide_eq_true_2 by done. simpl. split_and!; [done..|]. rewrite Hv. by apply map_Forall_insert_2.
    + destruct Hs as [-> Hn]. destruct (D && _ && _ && _) eqn:Hc; [|done]. exfalso. apply Hn. bool_facts. tauto.
  - pose proof (dir_remove_spec p n inodes self Hne) as Hs. simpl in Hs. pose proof (directory_test inodes p) as Hd.
    set (D := match inode_get inodes p with Some _ => _ | None => _ end) in *.
    destruct (dir_remove p n inodes self) as [[t|e|] s]; simpl in *; [| |done].
    + destruct Hs as (Hp & Hn & Hl & Hv & Hne'). rewrite (proj2 Hd Hp), Hn, Hl. simpl. split_and!; [done..|].
      rewrite Hv. by apply map_Forall_delete.
    + destruct Hs as [-> Hn]. destruct (D && valid_name n) eqn:Hc; [|done]. bool_facts.
      destruct (view self !! (p, n)) eqn:Hl; [|done]. exfalso. apply Hn. split; [tauto|]. by split.
  - by rewrite lookup_view.
  - by rewrite entry_count_spec.
Qed.

(** C19: The in-memory directory is a map from (parent, name) to target: any
    sequence of [insert], [remove], [lookup] and [entry_count] calls gets the
    replies of the map, refusals included ([insert] is refused exactly when
    the parent is not a directory, the target does not exist, the name is not
    a component or is taken; [remove] when there is no such entry), a refused
    call changes nothing, and [validate] succeeds afterwards.  On any table
    without empty directories [validate] succeeds exactly when every entry has
    a directory for parent, a valid name and an existing target. *)
Theorem directory_refines_map inodes cs table :
  no_empty table ->
  let run := dir_run (dir_step inodes) cs directory_new in let spec := dir_run (dir_spec inodes) cs ∅ in
  run.1 = spec.1 /\ view run.2 = spec.2 /\ dir_validate run.2 inodes = Ok tt /\
  (dir_validate table inodes = Ok tt <-> entries_ok inodes (view table)).
Proof.
  intros Hne run spec.
  assert (H : forall self, no_empty self -> entries_ok inodes (view self) ->
    let run := dir_run (dir_step inodes) cs self in let spec := dir_run (dir_spec inodes) cs (view self) in
    run.1 = spec.1 /\ view run.2 = spec.2 /\ no_empty run.2 /\ entries_ok inodes (view run.2)).
  { clear. induction cs as [|c cs IH]; intros self Hne Hok; [done|]. simpl.
    destruct (dir_step_refines inodes c self Hne Hok) as (H1 & H2 & Hne' & Hok').
    destruct (dir_step inodes c self) as [r s], (dir_spec inodes c (view self)) as [r' S]. simpl in *. subst.
    specialize (IH s Hne' Hok'). destruct (dir_run (dir_step inodes) cs s), (dir_run (dir_spec inodes) cs (view s)).
    simpl in *. naive_solver. }
  assert (Hnew : no_empty directory_new) by apply map_Forall_empty.
  assert (Hview : view directory_new = ∅) by reflexivity.
  destruct (H directory_new Hnew ltac:(rewrite Hview; apply map_Forall_empty)) as (H1 & H2 & H3 & H4).
  rewrite Hview in *. split; [done|]. split; [done|]. split; [by apply dir_validate_spec|by apply dir_validate_spec].
Qed.

Lemma directory_refines_map_witness :
  let inodes := mkInodeTable 3 {[1 := mkInode 1 Directory []; 2 := mkInode 2 File []]} ∅ in
  let cs := [CallInsert 1 [97] 2; CallInsert 1 [97] 2; CallInsert 2 [98] 1; CallLookup 1 [97]; CallCount 1;
             CallRemoveEntry 1 [97]; CallRemoveEntry 1 [97]] in
  let run := dir_run (dir_step inodes) cs directory_new in let spec := dir_run (dir_spec inodes) cs ∅ in
  run.1 = spec.1 /\ view run.2 = spec.2 /\ dir_validate run.2 inodes = Ok tt /\
  (dir_validate directory_new inodes = Ok tt <-> entries_ok inodes (view directory_new)).
Proof.
  exact (directory_refines_map (mkInodeTable 3 {[1 := mkInode 1 Directory []; 2 := mkInode 2 File []]} ∅)
    [CallInsert 1 [97] 2; CallInsert 1 [97] 2; CallInsert 2 [98] 1; CallLookup 1 [97]; CallCount 1;
     CallRemoveEntry 1 [97]; CallRemoveEntry 1 [97]] directory_new (map_Forall_empty _)).
Defined.
