(* ===== verification/Namespace.v ===== *)
(** * The namespace audit: [audit_namespace] and [audit_directory_cycle] of [fsck.rs]

    Directory entries as a graph over inode numbers.  The audit checks every
    entry, then colours the directories depth first (1 on the stack, 2 done)
    to refuse cycles, then walks the graph from the root. *)

From S2P Require Import Prelude Bytes BTree InodeCodec DirectoryCodec.

Definition ROOT_INODE_ID : Z := 1.

Abbreviation Kinds := (gmap Z InodeKind).
Abbreviation Adjacency := (gmap Z (list Z)).

(** [inodes.iter().map(|inode| (inode.id, inode.kind)).collect()] *)
Definition inode_kinds (inodes : list PersistedInode) : Kinds :=
  foldl (fun m inode => <[id inode := kind inode]> m) ∅ inodes.

(** [{}] of a [String]. *)
Definition string_of_bytes (bs : bytes) : string :=
  foldr (fun b s => String.String (Ascii.ascii_of_N (Z.to_N b)) s) "" bs.

(** One directory entry of the first loop. *)
Definition audit_entry (kinds : Kinds) (adjacency : Adjacency) (entry : PersistedDirectoryEntry)
    : outcome io_error Adjacency :=
  let quoted := "directory entry '" +:+ string_of_bytes (name entry) +:+ "' " in
  let? parent_kind := ok_or (kinds !! parent entry)
    (invalid_data (quoted +:+ "references missing parent inode " +:+ pretty (parent entry))) in
  try? ensure (bool_decide (parent_kind = Directory))
    (invalid_data (quoted +:+ "parent inode " +:+ pretty (parent entry) +:+ " is not a directory")) in
  try? ensure (bool_decide (is_Some (kinds !! target entry)))
    (invalid_data (quoted +:+ "references missing target inode " +:+ pretty (target entry))) in
  Ok (<[parent entry := default [] (adjacency !! parent entry) ++ [target entry]]> adjacency).

(** The recursion is bounded by [fuel], the depth of the call stack. *)
Fixpoint audit_directory_cycle (fuel : nat) (kinds : Kinds) (adjacency : Adjacency) (inode : Z)
    : M (gmap Z Z) unit :=
  match fuel with
  | O => ilift Panic
  | S fuel =>
      let! states := iget Datatypes.id in
      match states !! inode with
      | Some 1 => ifail (invalid_data ("directory cycle includes inode " +:+ pretty inode))
      | Some 2 => iret tt
      | _ =>
          do! iset (insert inode 1) in
          do! ifor (fun target =>
                      if bool_decide (kinds !! target = Some Directory)
                      then audit_directory_cycle fuel kinds adjacency target else iret tt)
                (default [] (adjacency !! inode)) in
          iset (insert inode 2)
      end
  end.

(** [Vec::pop] *)
Definition vec_pop {A} (l : list A) : option (A * list A) :=
  match reverse l with [] => None | x :: r => Some (x, reverse r) end.

(** The reachability loop. *)
Fixpoint reach_loop (fuel : nat) (adjacency : Adjacency) (reachable : gset Z) (pending : list Z)
    : outcome io_error (gset Z) :=
  match vec_pop pending with
  | None => Ok reachable
  | Some (inode, pending) =>
      match fuel with
      | O => Panic
      | S fuel =>
          if bool_decide (inode ∈ reachable) then reach_loop fuel adjacency reachable pending
          else reach_loop fuel adjacency ({[inode]} ∪ reachable)
                 (pending ++ default [] (adjacency !! inode))
      end
  end.

(** Every directory is entered at most once, and every entry is pushed at most
    once. *)
Definition audit_namespace (inodes : list PersistedInode) (entries : list PersistedDirectoryEntry)
    : outcome io_error unit :=
  let kinds := inode_kinds inodes in
  let? adjacency := ofold (audit_entry kinds) ∅ entries in
  if is_empty inodes then Ok tt else
  let? root_kind := ok_or (kinds !! ROOT_INODE_ID)
    (invalid_data "non-empty inode table is missing root inode 1") in
  try? ensure (bool_decide (root_kind = Directory)) (invalid_data "root inode 1 is not a directory") in
  try? run_on (ifor (fun inode => audit_directory_cycle (S (size kinds)) kinds adjacency (id inode))
                 (filter (fun inode => kind inode = Directory) inodes)) ∅ in
  let? reachable := reach_loop (S (length entries)) adjacency ∅ [ROOT_INODE_ID] in
  match find (fun inode => bool_decide (id inode ∉ reachable)) inodes with
  | Some unreachable =>
      Err (invalid_data ("inode " +:+ pretty (id unreachable) +:+ " is unreachable from root inode " +:+
                           pretty ROOT_INODE_ID))
  | None => Ok tt
  end.

(** ** The cycle check *)

Section Cycle.
Context (kinds : Kinds) (adjacency : Adjacency).
Implicit Types (st : gmap Z Z).

(** [y] is a directory with an entry in [x]. *)
Definition dir_edge (x y : Z) : Prop := y ∈ default [] (adjacency !! x) /\ kinds !! y = Some Directory.

(** Finished directories are on no cycle: nothing infinite starts there. *)
Record colour_ok st : Prop := {
  colour_values x c : st !! x = Some c -> c = 1 \/ c = 2;
  colour_done x : st !! x = Some 2 -> Acc (flip dir_edge) x;
}.

(** A call colours new directories only, and leaves none on the stack. *)
Record colour_le st st' : Prop := {
  colour_kept x c : st !! x = Some c -> st' !! x = Some c;
  colour_grey x : st' !! x = Some 1 -> st !! x = Some 1;
}.

Definition directories : gset Z := dom (filter (fun p => p.2 = Directory) kinds).
Definition white st : nat := size (directories ∖ (dom st : gset Z)).

Lemma elem_of_directories x : x ∈ directories <-> kinds !! x = Some Directory.
Proof.
  unfold directories. rewrite elem_of_dom. split.
  - intros [k Hk]. apply map_lookup_filter_Some in Hk as [Hk Hd]. simpl in Hd. congruence.
  - intros Hx. exists Directory. by apply map_lookup_filter_Some.
Qed.

Lemma white_le st st' : colour_le st st' -> (white st' <= white st)%nat.
Proof.
  intros Hle. unfold white. apply subseteq_size. intros x. rewrite !elem_of_difference, !not_elem_of_dom.
  intros [Hd Hx]. split; [done|]. destruct (st !! x) as [c|] eqn:E; [|done].
  apply (colour_kept _ _ Hle) in E. congruence.
Qed.

Lemma white_insert st x : kinds !! x = Some Directory -> st !! x = None -> (white (<[x := 1%Z]> st) < white st)%nat.
Proof.
  intros Hk Hx. unfold white. apply subset_size. apply elem_of_directories in Hk. apply (not_elem_of_dom (D:=gset Z)) in Hx.
  split; [set_solver|]. intros Hs. specialize (Hs x). set_solver.
Qed.

Lemma colour_le_refl st : colour_le st st.
Proof. by split. Qed.
Lemma colour_le_trans st1 st2 st3 : colour_le st1 st2 -> colour_le st2 st3 -> colour_le st1 st3.
Proof. intros [? ?] [? ?]. split; auto. Qed.

Lemma colour_ok_push st x : colour_ok st -> colour_ok (<[x := 1]> st).
Proof.
  intros [Hv Ha]. split; intros y; [intros c|]; intros Hy; apply lookup_insert_Some in Hy as [[<- E]|[_ E]].
  - by left.
  - by eapply Hv.
  - done.
  - by apply Ha.
Qed.

(** Leaving a directory all of whose subdirectories are finished. *)
Lemma colour_ok_pop st x :
  colour_ok st -> (forall y, dir_edge x y -> st !! y = Some 2) -> colour_ok (<[x := 2]> st).
Proof.
  intros [Hv Ha] Hs. split; intros y; [intros c|]; intros Hy; apply lookup_insert_Some in Hy as [[<- E]|[_ E]].
  - right. congruence.
  - by eapply Hv.
  - constructor. intros z Hz. by apply Ha, Hs.
  - by apply Ha.
Qed.

(** The stack is a path to [x]. *)
Definition stack_to st x : Prop := forall g, st !! g = Some 1 -> tc dir_edge g x.

Lemma stack_to_target st st' x y :
  stack_to st x -> colour_le (<[x := 1]> st) st' -> dir_edge x y -> stack_to st' y.
Proof.
  intros Hp Hle He g Hg. apply (colour_grey _ _ Hle), lookup_insert_Some in Hg as [[<- _]|[_ Hg]].
  - by apply tc_once.
  - eapply tc_r; [by apply Hp|done].
Qed.

Lemma cycle_spec fuel : forall inode st,
  colour_ok st -> kinds !! inode = Some Directory -> stack_to st inode -> (white st < fuel)%nat ->
  wp (audit_directory_cycle fuel kinds adjacency inode)
    (fun _ st' => colour_ok st' /\ colour_le st st' /\ st' !! inode = Some 2)
    (fun _ _ => exists z, tc dir_edge z z) st.
Proof.
  induction fuel as [|fuel IH]; intros inode st Hok Hk Hp Hf; [lia|]. cbn [audit_directory_cycle].
  apply wp_bind, wp_get. unfold Datatypes.id. destruct (st !! inode) as [c|] eqn:Hc.
  { destruct (colour_values _ Hok _ _ Hc) as [-> | ->].
    - apply wp_fail. exists inode. by apply Hp.
    - apply wp_ret. auto using colour_le_refl. }
  pose proof (white_insert st inode Hk Hc) as Hw. set (st1 := <[inode := 1]> st) in *.
  set (targets := default [] (adjacency !! inode)).
  apply wp_bind. change (iset (insert inode 1)) with (iset (E:=io_error) (fun s : gmap Z Z => <[inode := 1]> s)).
  unfold wp at 1. simpl. fold st1. apply wp_bind. eapply wp_mono.
  { apply wp_for with (I := fun l st' => colour_ok st' /\ colour_le st1 st' /\ (forall y, y ∈ l -> y ∈ targets) /\
      forall y, y ∈ targets -> kinds !! y = Some Directory -> y ∈ l \/ st' !! y = Some 2).
    - split; [by apply colour_ok_push|]. split; [apply colour_le_refl|]. auto.
    - intros y l st' (Hok' & Hle & Hin & Hdone). case_bool_decide as Hy.
      + eapply wp_mono; [apply IH|..]; simpl.
        * done.
        * done.
        * eapply stack_to_target; [done|done|]. split; [apply Hin; by left|done].
        * pose proof (white_le _ _ Hle). lia.
        * intros [] st'' (Hok'' & Hle'' & Hblack). split; [done|].
          split; [by eapply colour_le_trans|]. split; [intros z Hz; apply Hin; by right|].
          intros z Hz Hkz. destruct (Hdone z Hz Hkz) as [Hc'|Hb]; [apply elem_of_cons in Hc' as [->|]|]; auto.
          right. by apply (colour_kept _ _ Hle'').
        * intros e st'' Hx. exact Hx.
      + apply wp_ret. split; [done|]. split; [done|]. split; [intros z Hz; apply Hin; by right|].
        intros z Hz Hkz. destruct (Hdone z Hz Hkz) as [Hc'|Hb]; [apply elem_of_cons in Hc' as [->|]|]; auto. by destruct Hy. }
  2: done.
  intros [] st2 (Hok2 & Hle2 & _ & Hdone). unfold wp. simpl. split; [|split].
  - apply colour_ok_pop; [done|]. intros y [Hy Hky]. destruct (Hdone y Hy Hky) as [Hn|]; [|done].
    by apply not_elem_of_nil in Hn.
  - split.
    + intros x c Hx. assert (inode <> x) by congruence. rewrite lookup_insert_ne by done.
      apply (colour_kept _ _ Hle2). unfold st1. by rewrite lookup_insert_ne.
    + intros x [[<- ?]|[Hne Hx]]%lookup_insert_Some; [done|]. apply (colour_grey _ _ Hle2) in Hx. unfold st1 in Hx.
      by rewrite lookup_insert_ne in Hx.
  - by rewrite lookup_insert_eq.
Qed.
End Cycle.

Lemma acc_no_cycle {A} (R : relation A) x : Acc (flip R) x -> ~ tc R x x.
Proof.
  induction 1 as [x _ IH]. intros Hx. inversion Hx as [? ? Hxx|? y ? Hxy Hyx]; subst.
  - by apply (IH x Hxx).
  - apply (IH y Hxy). by eapply tc_r.
Qed.

(** ** The entries as a graph *)

Definition link (entries : list PersistedDirectoryEntry) (x y : Z) : Prop :=
  exists e, e ∈ entries /\ parent e = x /\ target e = y.

Definition targets_of (entries : list PersistedDirectoryEntry) (x : Z) : list Z :=
  target <$> filter (fun e => parent e = x) entries.

Lemma elem_of_targets_of entries x y : y ∈ targets_of entries x <-> link entries x y.
Proof.
  unfold targets_of, link. rewrite list_elem_of_fmap. split.
  - intros (e & -> & He). apply list_elem_of_filter in He as [<- He]. by exists e.
  - intros (e & He & <- & <-). exists e. split; [done|]. by apply list_elem_of_filter.
Qed.

Lemma targets_of_snoc entries e x :
  targets_of (entries ++ [e]) x = targets_of entries x ++ (if decide (parent e = x) then [target e] else []).
Proof.
  unfold targets_of. rewrite filter_app, fmap_app. f_equal. rewrite filter_cons. by destruct (decide (parent e = x)).
Qed.

(** What the first loop checks of an entry. *)
Definition entry_linked (kinds : Kinds) (e : PersistedDirectoryEntry) : Prop :=
  kinds !! parent e = Some Directory /\ is_Some (kinds !! target e).

Lemma audit_entry_spec kinds adj e :
  owp (audit_entry kinds adj e)
    (fun adj' => entry_linked kinds e /\ adj' = <[parent e := default [] (adj !! parent e) ++ [target e]]> adj)
    (fun err => ~ entry_linked kinds e /\ err_kind err = InvalidData).
Proof.
  unfold audit_entry, entry_linked. destruct (kinds !! parent e) as [k|]; simpl; [|naive_solver].
  case_bool_decide as Hk; simpl; [|naive_solver]. case_bool_decide as Ht; simpl; [|naive_solver]. naive_solver.
Qed.

(** The adjacency lists are the targets in table order. *)
Lemma audit_entries_spec kinds entries :
  owp (ofold (audit_entry kinds) ∅ entries)
    (fun adj => Forall (entry_linked kinds) entries /\ forall x, default [] (adj !! x) = targets_of entries x)
    (fun err => ~ Forall (entry_linked kinds) entries /\ err_kind err = InvalidData).
Proof.
  induction entries as [|e entries IH] using rev_ind; simpl.
  { split; [done|]. intros x. by rewrite lookup_empty. }
  rewrite ofold_app. apply owp_bind. eapply owp_mono; [exact IH|..]; simpl.
  - intros adj [Hl Hadj]. apply owp_bind. eapply owp_mono; [apply audit_entry_spec|..]; simpl.
    + intros adj' [He ->]. split; [by apply Forall_app; split; [|constructor]|]. intros x. rewrite targets_of_snoc.
      destruct (decide (parent e = x)) as [<-|Hne].
      * by rewrite lookup_insert_eq, <- Hadj.
      * by rewrite lookup_insert_ne, app_nil_r, <- Hadj.
    + intros err [Hn ?]. split; [|done]. intros [_ He]%Forall_app. by inversion He.
  - intros err [Hn ?]. split; [|done]. by intros [? _]%Forall_app.
Qed.

(** ** The reachability loop *)

Lemma vec_pop_None {A} (l : list A) : vec_pop l = None <-> l = [].
Proof.
  unfold vec_pop. destruct (reverse l) eqn:E; [|split; [done|by intros ->]].
  split; [|done]. intros _. apply (f_equal reverse) in E. by rewrite reverse_involutive in E.
Qed.
Lemma vec_pop_Some {A} (l l' : list A) x : vec_pop l = Some (x, l') -> l = l' ++ [x].
Proof.
  unfold vec_pop. destruct (reverse l) eqn:E; [done|]. intros [= -> <-].
  apply (f_equal reverse) in E. by rewrite reverse_involutive, reverse_cons in E.
Qed.

Section Reach.
Context (entries : list PersistedDirectoryEntry) (adjacency : Adjacency) (root : Z).
Context (Hadj : forall x, default [] (adjacency !! x) = targets_of entries x).
Implicit Types (R : gset Z).

(** The links that are still to be followed. *)
Definition unfollowed R : nat := length (filter (fun e => parent e ∉ R) entries).

Lemma unfollowed_insert R x :
  x ∉ R -> (unfollowed ({[x]} ∪ R) + length (targets_of entries x) = unfollowed R)%nat.
Proof.
  clear Hadj. intros Hx. unfold unfollowed, targets_of. rewrite length_fmap.
  induction entries as [|e es IH]; [done|]. rewrite !filter_cons.
  destruct (decide (parent e = x)) as [<-|Hne].
  - rewrite decide_False by set_solver. rewrite decide_True by done. simpl in *.
    rewrite Nat.add_succ_r. f_equal. exact IH.
  - destruct (decide (parent e ∉ R)) as [Hin|Hin].
    + rewrite decide_True by set_solver. simpl in *. f_equal. exact IH.
    + rewrite decide_False by set_solver. exact IH.
Qed.

Definition reach_inv R (pending : list Z) : Prop :=
  (forall x, x ∈ R \/ x ∈ pending -> rtc (link entries) root x) /\
  (root ∈ R \/ root ∈ pending) /\
  (forall x y, x ∈ R -> link entries x y -> y ∈ R \/ y ∈ pending).

Lemma reach_inv_pop R pending x : x ∈ R -> reach_inv R (pending ++ [x]) -> reach_inv R pending.
Proof.
  intros Hx (H1 & H2 & H3). split; [|split].
  - intros y [Hy|Hy]; apply H1; [by left|]. right. apply elem_of_app. by left.
  - destruct H2 as [|[| ->%list_elem_of_singleton]%elem_of_app]; auto.
  - intros y z Hy Hyz. destruct (H3 y z Hy Hyz) as [|[| ->%list_elem_of_singleton]%elem_of_app]; auto.
Qed.

Lemma reach_inv_push R pending x :
  reach_inv R (pending ++ [x]) -> reach_inv ({[x]} ∪ R) (pending ++ targets_of entries x).
Proof.
  intros (H1 & H2 & H3). assert (Hx : rtc (link entries) root x) by (apply H1; set_solver). split; [|split].
  - intros y. rewrite elem_of_union, elem_of_singleton, elem_of_app, elem_of_targets_of.
    intros [[->|Hy]|[Hy|Hy]]; [done|apply H1; set_solver|apply H1; set_solver|]. by eapply rtc_r.
  - set_solver.
  - intros y z. rewrite elem_of_union, elem_of_singleton, elem_of_app, elem_of_targets_of.
    intros [->|Hy] Hyz; [by right; right|]. specialize (H3 y z Hy Hyz). set_solver.
Qed.

Lemma reach_loop_spec fuel : forall R pending,
  reach_inv R pending -> (length pending + unfollowed R <= fuel)%nat ->
  exists R', reach_loop fuel adjacency R pending = Ok R' /\ forall x, x ∈ R' <-> rtc (link entries) root x.
Proof.
  assert (Hfinal : forall R, reach_inv R [] -> forall x, x ∈ R <-> rtc (link entries) root x).
  { intros R (H1 & H2 & H3) x. split; [intros Hx; apply H1; by left|].
    revert x. apply (rtc_ind_r (fun x => x ∈ R)); [set_solver|].
    intros y z _ Hyz IH. specialize (H3 y z IH Hyz). set_solver. }
  induction fuel as [|fuel IH]; intros R pending Hinv Hf; simpl.
  - destruct pending; [|simpl in Hf; lia]. exists R. auto.
  - destruct (vec_pop pending) as [[x pend]|] eqn:Hp.
    + apply vec_pop_Some in Hp as ->. rewrite length_app in Hf. simpl in Hf. case_bool_decide as Hx.
      * apply IH; [by eapply reach_inv_pop|lia].
      * rewrite Hadj. apply IH; [by apply reach_inv_push|]. rewrite length_app.
        pose proof (unfollowed_insert R x Hx). lia.
    + apply vec_pop_None in Hp as ->. exists R. auto.
Qed.

Lemma reach_loop_root : exists R, reach_loop (S (length entries)) adjacency ∅ [root] = Ok R /\
  forall x, x ∈ R <-> rtc (link entries) root x.
Proof.
  apply reach_loop_spec.
  - split; [|split]; [|set_solver..]. intros x [?| ->%list_elem_of_singleton]; [set_solver|done].
  - unfold unfollowed. simpl. apply le_n_S, length_filter.
Qed.
End Reach.

#[global] Arguments audit_directory_cycle : simpl never.
#[global] Arguments reach_loop : simpl never.

(** ** What the audit accepts *)

Definition inode_of_kind (inodes : list PersistedInode) (x : Z) (k : InodeKind) : Prop :=
  exists i, i ∈ inodes /\ id i = x /\ kind i = k.

(** The inode kinds, with distinct identifiers. *)
Lemma inode_kinds_snoc inodes i : inode_kinds (inodes ++ [i]) = <[id i := kind i]> (inode_kinds inodes).
Proof. unfold inode_kinds. by rewrite foldl_app. Qed.

Lemma inode_kinds_Some inodes x k : NoDup (id <$> inodes) ->
  (inode_kinds inodes !! x = Some k <-> inode_of_kind inodes x k).
Proof.
  induction inodes as [|i inodes IH] using rev_ind; intros Hnd.
  { change (inode_kinds []) with (∅ : Kinds). rewrite lookup_empty.
    split; [done|]. intros (i & []%not_elem_of_nil & _). }
  rewrite fmap_app in Hnd. apply NoDup_app in Hnd as (Hnd & Hdis & _). specialize (IH Hnd).
  rewrite inode_kinds_snoc, lookup_insert_Some, IH. unfold inode_of_kind. split.
  - intros [[<- <-]|[Hne (j & Hj & <- & <-)]].
    + exists i. split; [apply elem_of_app; right; by apply list_elem_of_singleton|done].
    + exists j. split; [apply elem_of_app; by left|done].
  - intros (j & Hj & <- & <-). apply elem_of_app in Hj as [Hj| ->%list_elem_of_singleton]; [|by left].
    right. split; [|by exists j]. intros Heq. apply (Hdis (id j)); [by apply list_elem_of_fmap_2|].
    rewrite <- Heq. simpl. by apply list_elem_of_singleton.
Qed.

(** [y] is a directory listed in [x]. *)
Definition subdirectory (inodes : list PersistedInode) (entries : list PersistedDirectoryEntry) (x y : Z) : Prop :=
  link entries x y /\ inode_of_kind inodes y Directory.

(** A sound namespace: entries go from directories to inodes; if there are
    inodes at all, inode 1 is a directory, no directory contains itself at any
    depth, and every inode has a path from the root. *)
Record namespace_ok (inodes : list PersistedInode) (entries : list PersistedDirectoryEntry) : Prop := {
  entry_parents e : e ∈ entries -> inode_of_kind inodes (parent e) Directory;
  entry_targets e : e ∈ entries -> exists k, inode_of_kind inodes (target e) k;
  root_directory : inodes <> [] -> inode_of_kind inodes ROOT_INODE_ID Directory;
  no_cycle x : ~ tc (subdirectory inodes entries) x x;
  all_reachable i : i ∈ inodes -> rtc (link entries) ROOT_INODE_ID (id i);
}.

Section Audit.
Context (inodes : list PersistedInode) (entries : list PersistedDirectoryEntry).
Context (Hids : NoDup (id <$> inodes)).
Let kinds := inode_kinds inodes.

Lemma kinds_Some x k : kinds !! x = Some k <-> inode_of_kind inodes x k.
Proof. by apply inode_kinds_Some. Qed.

Lemma entries_linked : Forall (entry_linked kinds) entries <->
  (forall e, e ∈ entries -> inode_of_kind inodes (parent e) Directory) /\
  (forall e, e ∈ entries -> exists k, inode_of_kind inodes (target e) k).
Proof.
  rewrite Forall_forall. unfold entry_linked. split.
  - intros H. split; intros e He; destruct (H e He) as [Hp [k Hk]]; [by apply kinds_Some|].
    exists k. by apply kinds_Some.
  - intros [Hp Ht] e He. split; [by apply kinds_Some, Hp|]. destruct (Ht e He) as [k Hk]. exists k. by apply kinds_Some.
Qed.

Section Walk.
Context (adjacency : Adjacency) (Hadj : forall x, default [] (adjacency !! x) = targets_of entries x).

Lemma dir_edge_subdirectory x y : dir_edge kinds adjacency x y <-> subdirectory inodes entries x y.
Proof. unfold dir_edge, subdirectory. by rewrite Hadj, elem_of_targets_of, kinds_Some. Qed.

Lemma tc_dir_edge x y : tc (dir_edge kinds adjacency) x y <-> tc (subdirectory inodes entries) x y.
Proof.
  split; apply (tc_congruence (fun x : Z => x)); intros ? ?; by apply dir_edge_subdirectory.
Qed.

(** The coloured walk finds a cycle or shows there is none. *)
Lemma cycle_walk_spec :
  wp (ifor (fun inode => audit_directory_cycle (S (size kinds)) kinds adjacency (id inode))
        (filter (fun inode => kind inode = Directory) inodes))
    (fun _ _ => forall x, ~ tc (subdirectory inodes entries) x x)
    (fun _ _ => exists x, tc (subdirectory inodes entries) x x) ∅.
Proof.
  set (dirs := filter (fun inode => kind inode = Directory) inodes).
  assert (Hdirs : forall i, i ∈ dirs <-> i ∈ inodes /\ kind i = Directory).
  { intros i. unfold dirs. rewrite list_elem_of_filter. tauto. }
  eapply wp_mono; [eapply wp_for with (R := fun _ _ => exists x, tc (subdirectory inodes entries) x x)
    (I := fun l st => colour_ok kinds adjacency st /\
      (forall x, st !! x <> Some 1) /\ (forall i, i ∈ l -> i ∈ dirs) /\
      forall i, i ∈ dirs -> i ∈ l \/ st !! id i = Some 2)|..]; [..|done].
  - split; [split; intros ? *; by rewrite lookup_empty|].
    split; [intros x; by rewrite lookup_empty|]. auto.
  - intros i l st (Hok & Hng & Hin & Hdone).
    assert (Hk : kinds !! id i = Some Directory).
    { apply kinds_Some. exists i. destruct (proj1 (Hdirs i) (Hin i ltac:(by left))). done. }
    eapply wp_mono; [apply (cycle_spec kinds adjacency)|..]; simpl.
    + done.
    + done.
    + intros g Hg. by destruct (Hng g).
    + unfold white. apply Nat.lt_succ_r. etrans; [apply subseteq_size; instantiate (1 := directories kinds); set_solver|].
      unfold directories. rewrite size_dom. apply map_size_filter.
    + intros [] st' (Hok' & Hle & Hb). split; [done|]. split.
      { intros x Hx. by apply (Hng x), (colour_grey _ _ Hle). }
      split; [intros j Hj; apply Hin; by right|]. intros j Hj.
      destruct (Hdone j Hj) as [Hc|Hb']; [apply elem_of_cons in Hc as [->|]; auto|].
      right. by apply (colour_kept _ _ Hle).
    + intros _ _ [z Hz]. exists z. by apply tc_dir_edge.
  - intros [] st (Hok & _ & _ & Hdone) x Hx. assert (Hd : inode_of_kind inodes x Directory).
    { revert Hx. apply (tc_ind_r (fun y => inode_of_kind inodes y Directory) x); [by intros ? []|by intros ? ? _ []]. }
    destruct Hd as (i & Hi & <- & Hk). apply (acc_no_cycle (dir_edge kinds adjacency) (id i)); [|by apply tc_dir_edge].
    apply (colour_done _ _ _ Hok). destruct (Hdone i) as [Hn|]; [by apply Hdirs|by apply not_elem_of_nil in Hn|done].
Qed.
End Walk.

Lemma audit_namespace_spec :
  owp (audit_namespace inodes entries)
    (fun _ => namespace_ok inodes entries)
    (fun _ => ~ namespace_ok inodes entries).
Proof.
  unfold audit_namespace. fold kinds. apply owp_bind.
  eapply owp_mono; [apply audit_entries_spec|..]; simpl.
  2: { intros e [Hn _] [Hp Ht _ _ _]. by apply Hn, entries_linked. }
  intros adjacency [[Hp Ht]%entries_linked Hadj]. destruct (is_empty inodes) eqn:Hempty.
  { assert (inodes = []) as Hnil by (by destruct inodes). simpl. split; [done..| |].
    - intros x Hx. destruct Hx as [? ? [_ (i & Hi & _)]|? ? ? [_ (i & Hi & _)] _]; rewrite Hnil in Hi; set_solver.
    - rewrite Hnil. set_solver. }
  assert (Hne : inodes <> []) by (by destruct inodes).
  destruct (kinds !! ROOT_INODE_ID) as [k|] eqn:Hroot; simpl.
  2: { intros [_ _ Hr _ _]. specialize (Hr Hne). apply kinds_Some in Hr. congruence. }
  case_bool_decide as Hk; simpl.
  2: { intros [_ _ Hr _ _]. specialize (Hr Hne). apply kinds_Some in Hr. congruence. }
  subst k. apply owp_bind. eapply owp_mono; [by apply owp_run_on, (cycle_walk_spec adjacency)|..]; simpl.
  2: { intros _ [_ [x Hx]] [_ _ _ Hc _]. by destruct (Hc x). }
  intros _ Hcyc. destruct (reach_loop_root entries adjacency ROOT_INODE_ID Hadj) as (R & -> & HR). simpl.
  destruct (find _ inodes) as [i|] eqn:Hf; simpl.
  - apply find_Some in Hf as [Hi Hni]. apply bool_decide_eq_true in Hni. intros [_ _ _ _ Hr].
    by apply Hni, HR, Hr.
  - split; [done..|by intros _; apply kinds_Some|done|]. intros i Hi.
    pose proof (find_None _ _ Hf i Hi) as Hni. apply bool_decide_eq_false, dec_stable in Hni. by apply HR.
Qed.
End Audit.

(** C9: The namespace audit of [fsck] is exact and terminates.  On an inode
    table with distinct identifiers it succeeds exactly when every entry leads
    from a directory to an existing inode, inode 1 is a directory (if there
    are inodes at all), no directory contains itself at any depth, and every
    inode is reachable from inode 1; the depth-first recursion never needs
    more stack than one frame per inode and one more, and the reachability
    loop never runs longer than one round per entry and one more, so the
    audit always returns. *)
Theorem namespace_audit_exact inodes entries :
  NoDup (id <$> inodes) ->
  (audit_namespace inodes entries = Ok tt <-> namespace_ok inodes entries) /\
  audit_namespace inodes entries <> Panic.
Proof.
  intros Hids. pose proof (audit_namespace_spec inodes entries Hids) as Hs. unfold owp in Hs.
  destruct (audit_namespace inodes entries) as [[]|e|]; naive_solver.
Qed.

(** A root, a subdirectory and a file linked twice; and the same with a cycle. *)
Definition sample_namespace_inodes : list PersistedInode :=
  [mkPersistedInode 1 Directory []; mkPersistedInode 2 Directory []; mkPersistedInode 3 File [9]].
Definition sample_namespace_entries : list PersistedDirectoryEntry :=
  [mkPersistedDirectoryEntry 1 2 [97]; mkPersistedDirectoryEntry 2 3 [98]; mkPersistedDirectoryEntry 1 3 [99]].

Lemma namespace_audit_exact_witness :
  namespace_ok sample_namespace_inodes sample_namespace_entries /\
  ~ namespace_ok sample_namespace_inodes (mkPersistedDirectoryEntry 2 1 [100] :: sample_namespace_entries).
Proof.
  assert (Hids : NoDup (id <$> sample_namespace_inodes)) by (apply (bool_decide_unpack _); vm_compute; exact I).
  split.
  - apply (namespace_audit_exact _ sample_namespace_entries Hids). vm_compute. reflexivity.
  - intros H. apply (namespace_audit_exact _ _ Hids) in H. vm_compute in H. discriminate H.
Defined.
