(* ===== verification/NamespaceEdit.v ===== *)
(** * Editing a namespace

    Files are leaves of the namespace graph, so a sound namespace is a
    directory tree plus at least one entry per file ([namespace_tree]).  In
    that form the edits of the lifecycle operations are easy to follow: most
    leave the directory graph alone, and a directory rename moves one edge. *)

From S2P Require Import Prelude Bytes BTree InodeCodec DirectoryCodec Namespace.

Record namespace_tree (inodes : list PersistedInode) (entries : list PersistedDirectoryEntry) : Prop := {
  tree_parents e : e ∈ entries -> inode_of_kind inodes (parent e) Directory;
  tree_targets e : e ∈ entries -> exists k, inode_of_kind inodes (target e) k;
  tree_root : inodes <> [] -> inode_of_kind inodes ROOT_INODE_ID Directory;
  tree_acyclic x : ~ tc (subdirectory inodes entries) x x;
  tree_directories x : inode_of_kind inodes x Directory -> rtc (subdirectory inodes entries) ROOT_INODE_ID x;
  tree_files x : inode_of_kind inodes x File -> exists e, e ∈ entries /\ target e = x;
}.

Lemma inode_kind_unique inodes x k k' : NoDup (id <$> inodes) ->
  inode_of_kind inodes x k -> inode_of_kind inodes x k' -> k = k'.
Proof.
  intros Hids H H'. apply (inode_kinds_Some inodes x) in H, H'; [congruence|done..].
Qed.

Lemma link_parent entries x y : link entries x y -> exists e, e ∈ entries /\ parent e = x.
Proof. intros (e & He & Hp & _). by exists e. Qed.

Lemma namespace_ok_tree inodes entries :
  NoDup (id <$> inodes) -> namespace_ok inodes entries -> namespace_tree inodes entries.
Proof.
  intros Hids [Hp Ht Hroot Hcyc Hr]. split; [done..| |].
  - intros x (i & Hi & <- & Hk). assert (Hx : inode_of_kind inodes (id i) Directory) by (by exists i).
    specialize (Hr i Hi). revert Hx. revert Hr. generalize (id i). intros z Hz.
    revert z Hz. apply (rtc_ind_r (fun z => inode_of_kind inodes z Directory ->
      rtc (subdirectory inodes entries) ROOT_INODE_ID z)); [done|].
    intros y z _ Hyz IH Hz. eapply rtc_r; [|by split].
    apply IH. destruct Hyz as (e & He & <- & _). by apply Hp.
  - intros x (i & Hi & <- & Hk). specialize (Hr i Hi).
    apply rtc_inv_r in Hr as [Hr|(y & _ & (e & He & _ & Ht'))]; [|by exists e].
    exfalso. assert (inodes <> []) as Hne by (by intros ->; apply not_elem_of_nil in Hi).
    specialize (Hroot Hne). rewrite Hr in Hroot.
    by pose proof (inode_kind_unique _ _ _ File Hids Hroot ltac:(by exists i)).
Qed.

Lemma namespace_tree_ok inodes entries : namespace_tree inodes entries -> namespace_ok inodes entries.
Proof.
  intros [Hp Ht Hroot Hcyc Hd Hf]. split; [done..|].
  assert (Hdir : forall x, inode_of_kind inodes x Directory -> rtc (link entries) ROOT_INODE_ID x).
  { intros x Hx. eapply (rtc_congruence (fun x : Z => x)); [|by apply Hd]. by intros ? ? []. }
  intros i Hi. destruct (kind i) eqn:Hk.
  - destruct (Hf (id i)) as (e & He & Ht'); [by exists i|]. eapply rtc_r; [by apply Hdir, Hp|].
    by exists e.
  - apply Hdir. by exists i.
Qed.

(** An edit that keeps the directories and the links between them. *)
Lemma tree_edit inodes inodes' entries entries' :
  namespace_tree inodes entries ->
  (forall x, inode_of_kind inodes' x Directory <-> inode_of_kind inodes x Directory) ->
  (forall x y, inode_of_kind inodes y Directory -> (link entries' x y <-> link entries x y)) ->
  (forall e, e ∈ entries' -> inode_of_kind inodes (parent e) Directory /\ exists k, inode_of_kind inodes' (target e) k) ->
  (forall x, inode_of_kind inodes' x File -> exists e, e ∈ entries' /\ target e = x) ->
  (inodes' <> [] -> inodes <> []) ->
  namespace_tree inodes' entries'.
Proof.
  intros [Hp Ht Hroot Hcyc Hd Hf] Hk Hl He Hfile Hne.
  assert (Hsub : forall x y, subdirectory inodes' entries' x y <-> subdirectory inodes entries x y).
  { intros x y. unfold subdirectory. rewrite Hk. naive_solver. }
  split.
  - intros e He'. apply Hk. by apply He.
  - intros e He'. by apply He.
  - intros H. by apply Hk, Hroot, Hne.
  - intros x Hx. apply (Hcyc x). eapply (tc_congruence (fun x : Z => x)); [|exact Hx]. intros ? ? H. by apply Hsub.
  - intros x Hx%Hk. eapply (rtc_congruence (fun x : Z => x)); [|by apply Hd]. intros ? ? H. by apply Hsub.
  - done.
Qed.

(** An edit that only adds and removes names of files. *)
Lemma tree_file_edit inodes entries entries' :
  NoDup (id <$> inodes) -> namespace_tree inodes entries ->
  (forall e, e ∈ entries' -> e ∈ entries \/
     inode_of_kind inodes (parent e) Directory /\ inode_of_kind inodes (target e) File) ->
  (forall e, e ∈ entries -> e ∈ entries' \/ inode_of_kind inodes (target e) File) ->
  (forall x, inode_of_kind inodes x File -> exists e, e ∈ entries' /\ target e = x) ->
  namespace_tree inodes entries'.
Proof.
  intros Hids Htree Hnew Hold Hfiles. assert (Hnd : forall x, inode_of_kind inodes x File -> ~ inode_of_kind inodes x Directory).
  { intros x H1 H2. by pose proof (inode_kind_unique _ _ _ _ Hids H1 H2). }
  apply (tree_edit inodes inodes entries entries'); [done|done| |..|done|done].
  - intros x y Hy. split; intros (e & He & Hp & <-).
    + destruct (Hnew e He) as [|[_ Hf]]; [by exists e|]. by destruct (Hnd _ Hf).
    + destruct (Hold e He) as [|Hf]; [by exists e|]. by destruct (Hnd _ Hf).
  - intros e He. destruct (Hnew e He) as [He'|[Hp Hf]]; [|eauto].
    split; [by apply (tree_parents _ _ Htree)|by apply (tree_targets _ _ Htree)].
Qed.

(** ** Moving one edge *)

Lemma tc_first_step {A} (R : relation A) x y : tc R x y -> exists z, R x z /\ rtc R z y.
Proof.
  intros H. inversion H as [? ? Hxy|? z ? Hxz Hzy]; subst; [by exists y|]. exists z. split; [done|by apply tc_rtc].
Qed.

Section Edge.
Context (R : relation Z) (a b : Z).
Let plus : relation Z := fun x y => R x y \/ x = a /\ y = b.

Lemma rtc_plus_edge x y : rtc plus x y -> rtc R x y \/ rtc R x a /\ rtc R b y.
Proof.
  induction 1 as [x|x z y [Hxz|[-> ->]] _ IH]; [by left|..].
  - destruct IH as [IH|[IH1 IH2]]; [left|right; split; [|done]]; by eapply rtc_l.
  - right. split; [done|]. tauto.
Qed.

Lemma tc_plus_edge x : tc plus x x -> tc R x x \/ rtc R b a.
Proof.
  intros (z & Hxz & Hzx)%tc_first_step. apply rtc_plus_edge in Hzx.
  destruct Hxz as [Hxz|[-> ->]]; destruct Hzx as [Hzx|[Hza Hbx]]; auto.
  - left. eapply tc_rtc_r; [by apply tc_once|done].
  - right. etrans; [exact Hbx|]. by eapply rtc_l.
Qed.
End Edge.

(** The entries, one entry replaced. *)
Section Move.
Context (inodes : list PersistedInode) (entries : list PersistedDirectoryEntry) (i : nat).
Context (e0 e1 : PersistedDirectoryEntry) (He0 : entries !! i = Some e0).

(** The other entries. *)
Definition others (e : PersistedDirectoryEntry) : Prop := exists j, j <> i /\ entries !! j = Some e.
Definition link_others (x y : Z) : Prop := exists e, others e /\ parent e = x /\ target e = y.

Lemma elem_of_others e : e ∈ entries <-> others e \/ e = e0.
Proof.
  unfold others. rewrite list_elem_of_lookup. split.
  - intros [j Hj]. destruct (decide (j = i)) as [->|]; [right; congruence|left; by exists j].
  - intros [(j & _ & Hj)| ->]; eauto.
Qed.

Lemma elem_of_replaced e : e ∈ <[i := e1]> entries <-> others e \/ e = e1.
Proof.
  pose proof (lookup_lt_Some _ _ _ He0). unfold others. rewrite list_elem_of_lookup. split.
  - intros [j Hj]. destruct (decide (i = j)) as [<-|].
    + rewrite list_lookup_insert_eq in Hj by done. right. congruence.
    + rewrite list_lookup_insert_ne in Hj by done. left. exists j. auto.
  - intros [(j & Hne & Hj)| ->].
    + exists j. by rewrite list_lookup_insert_ne.
    + exists i. by apply list_lookup_insert_eq.
Qed.

Lemma elem_of_removed e : e ∈ take i entries ++ drop (S i) entries <-> others e.
Proof.
  rewrite <- delete_take_drop. unfold others. rewrite list_elem_of_lookup. split.
  - intros [j Hj]. destruct (decide (j < i)%nat).
    + rewrite list_lookup_delete_lt in Hj by done. exists j. split; [lia|done].
    + rewrite list_lookup_delete_ge in Hj by lia. exists (S j). split; [lia|done].
  - intros (j & Hne & Hj). destruct (decide (j < i)%nat).
    + exists j. by rewrite list_lookup_delete_lt.
    + exists (pred j). rewrite list_lookup_delete_ge by lia. by replace (S (pred j)) with j by lia.
Qed.

Lemma link_split x y : link entries x y <-> link_others x y \/ x = parent e0 /\ y = target e0.
Proof. unfold link, link_others. setoid_rewrite elem_of_others. naive_solver. Qed.

Lemma link_replaced x y : link (<[i := e1]> entries) x y <-> link_others x y \/ x = parent e1 /\ y = target e1.
Proof. unfold link, link_others. setoid_rewrite elem_of_replaced. naive_solver. Qed.

(** The directory links the edit keeps. *)
Definition sub_others (x y : Z) : Prop := link_others x y /\ inode_of_kind inodes y Directory.

Lemma subdirectory_split x y : subdirectory inodes entries x y ->
  sub_others x y \/ inode_of_kind inodes (target e0) Directory /\ x = parent e0 /\ y = target e0.
Proof. intros [[Hl|[-> ->]]%link_split Hk]; [left; by split|by right]. Qed.

Lemma sub_others_kept x y : sub_others x y -> subdirectory inodes entries x y.
Proof. intros [Hl Hk]. split; [|done]. apply link_split. by left. Qed.

Lemma rtc_sub_others x y : rtc sub_others x y -> rtc link_others x y.
Proof. apply (rtc_congruence (fun x : Z => x)). by intros ? ? []. Qed.

Context (Hids : NoDup (id <$> inodes)) (Htree : namespace_tree inodes entries).
Context (Htgt : target e1 = target e0) (Hpar : inode_of_kind inodes (parent e1) Directory).
Context (Hno : inode_of_kind inodes (target e0) Directory -> ~ rtc link_others (target e0) (parent e1)).

Lemma subdirectory_moved x y : subdirectory inodes (<[i := e1]> entries) x y <->
  sub_others x y \/ inode_of_kind inodes (target e0) Directory /\ x = parent e1 /\ y = target e0.
Proof. unfold subdirectory, sub_others. rewrite link_replaced, Htgt. naive_solver. Qed.

Lemma rtc_sub_moved x y : rtc sub_others x y -> rtc (subdirectory inodes (<[i := e1]> entries)) x y.
Proof. apply (rtc_congruence (fun x : Z => x)). intros ? ? ?. apply subdirectory_moved. by left. Qed.

Lemma moved_acyclic x : ~ tc (subdirectory inodes (<[i := e1]> entries)) x x.
Proof.
  intros Hx. assert (Hplain : tc sub_others x x -> False).
  { intros H. apply (tree_acyclic _ _ Htree x). by apply (tc_congruence (fun x : Z => x) _ _ _ sub_others_kept). }
  destruct (tree_targets _ _ Htree e0) as [[] Hk]; [apply elem_of_others; by right|..].
  - apply Hplain. eapply (tc_congruence (fun x : Z => x)); [|exact Hx].
    intros y z [?|[Hk' _]]%subdirectory_moved; [done|]. by pose proof (inode_kind_unique _ _ _ _ Hids Hk Hk').
  - assert (Hx' : tc (fun x y => sub_others x y \/ x = parent e1 /\ y = target e0) x x).
    { eapply (tc_congruence (fun x : Z => x)); [|exact Hx]. intros ? ? H%subdirectory_moved. naive_solver. }
    apply tc_plus_edge in Hx' as [?|Hr]; [auto|]. by apply (Hno Hk), rtc_sub_others.
Qed.

(** A path from the root, up to its last use of the moved entry. *)
Lemma root_path_split y : rtc (subdirectory inodes entries) ROOT_INODE_ID y ->
  rtc sub_others ROOT_INODE_ID y \/ inode_of_kind inodes (target e0) Directory /\ rtc sub_others (target e0) y.
Proof.
  apply (rtc_ind_r (fun y => rtc sub_others ROOT_INODE_ID y \/
    inode_of_kind inodes (target e0) Directory /\ rtc sub_others (target e0) y)); [by left|].
  intros u w _ [Hs|(Hk & -> & ->)]%subdirectory_split IH; [|by right].
  destruct IH as [IH|[Hk IH]]; [left|right; split; [done|]]; by eapply rtc_r.
Qed.

Lemma moved_directories x : inode_of_kind inodes x Directory ->
  rtc (subdirectory inodes (<[i := e1]> entries)) ROOT_INODE_ID x.
Proof.
  intros Hx. destruct (root_path_split x (tree_directories _ _ Htree x Hx)) as [Hr|[Hk Hr]]; [by apply rtc_sub_moved|].
  etrans; [|by apply rtc_sub_moved]. eapply rtc_r with (y := parent e1); [|apply subdirectory_moved; by right].
  destruct (root_path_split (parent e1) (tree_directories _ _ Htree _ Hpar)) as [Hr'|[_ Hr']];
    [by apply rtc_sub_moved|by destruct (Hno Hk); apply rtc_sub_others].
Qed.

(** Moving an entry to another directory, where that does not close a cycle. *)
Lemma tree_move : namespace_tree inodes (<[i := e1]> entries).
Proof.
  pose proof Htree as [Hp Ht Hroot _ _ Hf]. split.
  - intros e [Ho| ->]%elem_of_replaced; [apply Hp, elem_of_others; by left|done].
  - intros e [Ho| ->]%elem_of_replaced; [apply Ht, elem_of_others; by left|]. rewrite Htgt.
    apply Ht, elem_of_others. by right.
  - done.
  - apply moved_acyclic.
  - apply moved_directories.
  - intros x Hx. destruct (Hf x Hx) as (e & He & <-). apply elem_of_others in He as [Ho| ->].
    + exists e. split; [|done]. apply elem_of_replaced. by left.
    + exists e1. split; [|done]. apply elem_of_replaced. by right.
Qed.
End Move.

(** Removing an inode nothing is listed in, with all its names. *)
Lemma tree_remove_leaf inodes inodes' entries entries' r :
  namespace_tree inodes entries -> r <> ROOT_INODE_ID -> (forall e, e ∈ entries -> parent e <> r) ->
  (forall x k, inode_of_kind inodes' x k <-> inode_of_kind inodes x k /\ x <> r) ->
  (forall e, e ∈ entries' <-> e ∈ entries /\ target e <> r) ->
  (inodes' <> [] -> inodes <> []) ->
  namespace_tree inodes' entries'.
Proof.
  intros [Hp Ht Hroot Hcyc Hd Hf] Hr Hleaf Hi He Hne. split.
  - intros e [He' _]%He. apply Hi. auto.
  - intros e [He' Hne']%He. destruct (Ht e He') as [k Hk]. exists k. by apply Hi.
  - intros H. apply Hi. auto.
  - intros x Hx. apply (Hcyc x). eapply (tc_congruence (fun x : Z => x)); [|exact Hx].
    intros y z [(e & [He' _]%He & Hpe & Hte) [Hk _]%Hi]. split; [by exists e|done].
  - intros x [Hx Hxr]%Hi. specialize (Hd x Hx). revert Hxr. clear Hx. revert x Hd.
    apply (rtc_ind_r (fun x => x <> r -> rtc (subdirectory inodes' entries') ROOT_INODE_ID x)); [done|].
    intros y z _ [(e & He' & <- & <-) Hk] IH Hz. eapply rtc_r; [apply IH; auto|].
    split; [exists e; split; [by apply He|done]|by apply Hi].
  - intros x [Hx Hxr]%Hi. destruct (Hf x Hx) as (e & He' & <-). exists e. split; [by apply He|done].
Qed.
