(* ===== verification/DirectoryTable.v ===== *)
(** * The persistent directory table: [directory_table.rs]

    The record table of directory entries, keyed by parent and name, in the
    superblock's directory region. *)

From S2P Require Import Prelude Bytes Block Superblock Region DirectoryCodec RecordTable.

(** [*b"FSLDIR\0\0"] *)
Definition DIRECTORY_TABLE_MAGIC : bytes := [70; 83; 76; 68; 73; 82; 0; 0].
Definition DIRECTORY_TABLE_VERSION : Z := 1.

(** [(entry.parent, entry.name)] *)
Definition entry_key (entry : PersistedDirectoryEntry) : Z * bytes := (parent entry, name entry).

(** The codec, key, region and messages of [directory_table.rs]. *)
Definition directory_format : TableFormat PersistedDirectoryEntry (Z * bytes) := {|
  tf_magic := DIRECTORY_TABLE_MAGIC;
  tf_version := DIRECTORY_TABLE_VERSION;
  tf_record_header_len := DIRECTORY_ENTRY_HEADER_LEN;
  tf_encode_record := encode_directory_entry;
  tf_decode_record := decode_directory_entry;
  tf_key := entry_key;
  tf_start := directory_start;
  tf_blocks := directory_blocks;
  msg_geometry := "directory table device geometry does not match superblock";
  msg_reservation := "invalid directory table reservation";
  msg_block_count := "directory table block count is too large";
  msg_byte_size := "directory table byte size overflow";
  msg_duplicate := "directory table contains duplicate parent/name entry";
  msg_image_size := "directory image size overflow";
  msg_exceeds := "directory table image exceeds reserved region";
  msg_payload_large := "directory payload too large";
  msg_too_many := "too many directory records";
  msg_short := "directory table region is shorter than header";
  msg_magic := "invalid directory table magic";
  msg_version := "unsupported directory table version";
  msg_flags := "directory table flags are non-zero";
  msg_payload_usize := "directory table payload exceeds usize";
  msg_count_usize := "directory table record count exceeds usize";
  msg_used_overflow := "directory table used length overflow";
  msg_payload_region := "directory table payload exceeds reserved region";
  msg_padding := "directory table trailing padding is non-zero";
  msg_checksum := "directory table checksum mismatch";
  msg_torn := "torn directory entry in table";
  msg_record_usize := "directory record length exceeds usize";
  msg_record_small := "directory record length is smaller than header";
  msg_record_overflow := "directory record offset overflow";
  msg_count_mismatch := "directory table record count mismatch";
  msg_offset := "directory table offset overflow";
  msg_slice := "directory table block slice mismatch";
  msg_region_len := "directory table image has invalid region length";
|}.

(** The functions of the file, one by one. *)
Section Ops.
Context `{BlockDevice D}.

Definition directory_validate_geometry (superblock : Superblock) : M D unit :=
  validate_geometry directory_format superblock.

Definition directory_region_len (superblock : Superblock) : outcome io_error Z :=
  region_len directory_format superblock.

Definition directory_encode_image (superblock : Superblock) (entries : list PersistedDirectoryEntry)
    : outcome io_error bytes :=
  encode_image directory_format superblock entries.

Definition directory_decode_image (image : bytes) : outcome io_error (list PersistedDirectoryEntry) :=
  decode_image directory_format image.

Definition directory_read_region (superblock : Superblock) : M D bytes :=
  read_region directory_format superblock.

Definition directory_write_region (superblock : Superblock) (image : bytes) : M D unit :=
  write_region directory_format superblock image.

Definition load_directory_table (superblock : Superblock) : M D (list PersistedDirectoryEntry) :=
  do! directory_validate_geometry superblock in
  let! image := directory_read_region superblock in
  ilift (directory_decode_image image).

Definition store_directory_table (superblock : Superblock) (entries : list PersistedDirectoryEntry)
    : M D unit :=
  do! directory_validate_geometry superblock in
  let! image := ilift (directory_encode_image superblock entries) in
  do! directory_write_region superblock image in
  flush.

Definition initialize_directory_table_region (superblock : Superblock) : M D unit :=
  do! directory_validate_geometry superblock in
  let! image := ilift (directory_encode_image superblock []) in
  directory_write_region superblock image.
End Ops.

(** The codec keeps the table's contract. *)
#[global] Program Instance directory_laws : TableLaws directory_format := {
  rec_typed := entry_typed;
  rec_valid := entry_valid;
  rec_bytes := entry_record;
  encode_law := encode_directory_entry_spec;
  decode_law := decode_directory_entry_record;
  canonical_law := decode_directory_entry_canonical;
  no_panic_law := decode_directory_entry_no_panic;
}.
Next Obligation. split; [done|]. repeat constructor; done. Qed.
Next Obligation. done. Qed.
Next Obligation. done. Qed.
Next Obligation. by intros r [Ht _]. Qed.
Next Obligation.
  intros r Hv. pose proof (zlen_nonneg (name r)). pose proof (zlen_entry_record r) as Hl.
  destruct (entry_record_reads r Hv) as (_ & _ & _ & Hlen & _). rewrite <- Hl in Hlen.
  refine (conj (Forall_entry_record r _) (conj _ Hlen)); [apply Hv|].
  rewrite Hl. cbn. unfold DIRECTORY_ENTRY_HEADER_LEN. lia.
Qed.
Next Obligation.
  intros sb Hgeo. pose proof (geometry_bounds sb Hgeo). unfold reserved. simpl. lia.
Qed.

(** ** The claims *)

(** The directory table image is exact: a table can be encoded exactly when
    its entries are valid, no two have the same parent and name, and the
    image fits the directory region; bytes of the region's size decode to a
    table exactly when they are its encoding; decoding arbitrary bytes never
    panics and ends within its fuel. *)
Theorem directory_table_exact sb image entries :
  geometry sb -> Forall is_byte image -> zlen image = directory_blocks sb * BLOCK_SIZE ->
  Forall entry_typed entries ->
  directory_decode_image image <> Panic /\
  (is_ok (directory_encode_image sb entries) = true <-> storable directory_format sb entries) /\
  (directory_decode_image image = Ok entries <-> directory_encode_image sb entries = Ok image).
Proof. intros Hgeo. exact (table_image_exact directory_format sb Hgeo image entries). Qed.

(** What [store_directory_table] writes, [load_directory_table] returns: on
    a device that does not fail, a storable table is stored durably, read
    back equal, and no block outside the directory region changes; a table
    that cannot be stored is refused before the device is written. *)
Theorem directory_table_store_load `{DeviceLaws D} sb entries (d : D) v s :
  geometry sb -> Forall entry_typed entries -> at_state true d v s -> zlen v = total_blocks sb ->
  let run := store_directory_table sb entries d in
  (storable directory_format sb entries ->
     run.1 = Ok tt /\ durable run.2 = volatile run.2 /\
     (forall b, 0 <= b -> b < directory_start sb \/ directory_start sb + directory_blocks sb <= b ->
        durable run.2 !! Z.to_nat b = v !! Z.to_nat b) /\
     (load_directory_table sb run.2).1 = Ok entries) /\
  (~ storable directory_format sb entries -> exists e, run = (Err e, d)).
Proof. intros Hgeo. exact (table_store_load directory_format sb Hgeo entries d v s). Qed.
