(* ===== verification/TransactionPlan.v ===== *)
(** * Rendered regions and the tail of a transaction

    Every transaction module renders whole regions into a [CaptureDevice],
    collects the blocks that change, and commits them as one transaction.  A
    plan is the list of rendered regions; the lemmas follow it through the
    render, collect and commit steps. *)

From S2P Require Import Prelude Bytes Block Superblock Region Journal JournalCodec JournalRegion.
From S2P Require Import Recovery TransactionImage.

Section Tail.
Context `{BlockDevice D}.

Definition check_report (report : RecoveryReport) (writes : Z) (msg : string)
    : outcome io_error RecoveryReport :=
  try? ensure ((committed_transactions report =? 1) && (home_writes report =? writes))
         (invalid_data msg) in
  Ok report.

(** From [if changed.is_empty()] to the end, with and without a checkpoint. *)
Definition finish_checkpointed (sb : Superblock) (changed : list (Z * block)) (msg : string)
    : M D RecoveryReport :=
  if bool_decide (changed = []) then iret report_default else
  let! es := ilift (single_transaction_log changed) in
  let! report := commit_checkpointed sb es in
  ilift (check_report report (zlen changed) msg).

Definition finish_retained (sb : Superblock) (changed : list (Z * block)) (msg : string)
    : M D RecoveryReport :=
  if bool_decide (changed = []) then iret report_default else
  let! es := ilift (single_transaction_log changed) in
  let! report := commit_retained sb es in
  ilift (check_report report (zlen changed) msg).
End Tail.

(** ** Plans *)

Record region := mkRegion { ri_start : Z; ri_blocks : Z; ri_image : bytes }.

Definition region_ok (r : region) : Prop :=
  0 <= ri_blocks r /\ zlen (ri_image r) = ri_blocks r * BLOCK_SIZE /\ Forall is_byte (ri_image r).

(** The regions follow each other between [lo] and [hi]. *)
Fixpoint plan_ok (lo : Z) (p : list region) (hi : Z) : Prop :=
  match p with
  | [] => lo <= hi
  | r :: p => lo <= ri_start r /\ region_ok r /\ plan_ok (ri_start r + ri_blocks r) p hi
  end.

Definition writes_of (r : region) : list (Z * block) := region_blocks (ri_start r) (ri_blocks r) (ri_image r).
Definition plan_writes (p : list region) : list (Z * block) := mjoin (writes_of <$> p).

Definition install_region (r : region) (v : list block) : list block :=
  put v (ri_start r) (chunks (ri_blocks r) (ri_image r)).
Definition install_plan (p : list region) (v : list block) : list block :=
  foldl (fun v r => install_region r v) v p.

Lemma plan_writes_cons r p : plan_writes (r :: p) = writes_of r ++ plan_writes p.
Proof. done. Qed.

Lemma plan_writes_snoc r p : plan_writes (p ++ [r]) = plan_writes p ++ writes_of r.
Proof. unfold plan_writes. rewrite fmap_app, join_app. simpl. by rewrite app_nil_r. Qed.

Lemma plan_ok_le lo p hi : plan_ok lo p hi -> lo <= hi.
Proof.
  revert lo. induction p as [|r p IH]; intros lo; simpl; [done|].
  intros (Hlo & (Hn & _) & Hp). specialize (IH _ Hp). lia.
Qed.

Lemma plan_ok_snoc lo p r hi :
  plan_ok lo (p ++ [r]) hi <->
    plan_ok lo p (ri_start r) /\ region_ok r /\ ri_start r + ri_blocks r <= hi.
Proof. revert lo. induction p as [|q p IH]; intros lo; simpl; [|rewrite IH]; tauto. Qed.

Lemma plan_ok_weaken lo lo' p hi hi' : plan_ok lo p hi -> lo' <= lo -> hi <= hi' -> plan_ok lo' p hi'.
Proof.
  revert lo lo'. induction p as [|r p IH]; intros lo lo' Hp Hlo Hhi; simpl in *; [lia|].
  destruct Hp as (Hr & Hok & Hp). split; [lia|]. split; [done|]. eapply IH; (done || lia).
Qed.

Lemma writes_of_block r b data : (b, data) ∈ writes_of r <->
  ri_start r <= b < ri_start r + ri_blocks r /\
  data = sub (ri_image r) ((b - ri_start r) * BLOCK_SIZE) BLOCK_SIZE.
Proof. apply elem_of_region_blocks. Qed.

Lemma plan_writes_bounds lo p hi w : plan_ok lo p hi -> w ∈ plan_writes p -> lo <= w.1 < hi.
Proof.
  revert lo. induction p as [|r p IH]; intros lo Hp Hw; [by apply not_elem_of_nil in Hw|].
  destruct Hp as (Hlo & (Hn & _) & Hp). pose proof (plan_ok_le _ _ _ Hp).
  rewrite plan_writes_cons in Hw. apply elem_of_app in Hw as [Hw|Hw].
  - destruct w as [b data]. apply writes_of_block in Hw as [? _]. simpl. lia.
  - specialize (IH _ Hp Hw). lia.
Qed.

Lemma plan_writes_ok lo p hi : plan_ok lo p hi -> Forall (fun w => block_ok w.2) (plan_writes p).
Proof.
  revert lo. induction p as [|r p IH]; intros lo Hp; [constructor|].
  destruct Hp as (Hlo & (Hn & Hl & Hb) & Hp). rewrite plan_writes_cons. apply Forall_app.
  split; [|by eapply IH]. apply Forall_forall. intros [b data] [Hb' ->]%writes_of_block. simpl.
  split; [apply zlen_sub; unfold BLOCK_SIZE in *; lia|auto with bytes].
Qed.

Lemma plan_home_writes sb p :
  plan_ok (allocation_start sb) p (total_blocks sb) -> home_writes_ok sb (plan_writes p).
Proof.
  intros Hp. apply Forall_forall. intros w Hw.
  pose proof (plan_writes_bounds _ _ _ _ Hp Hw). pose proof (plan_writes_ok _ _ _ Hp) as Hb.
  rewrite Forall_forall in Hb. specialize (Hb w Hw). unfold home_block. split; [lia|done].
Qed.

Lemma write_keys_app ws1 ws2 : write_keys (ws1 ++ ws2) = write_keys ws1 ++ write_keys ws2.
Proof. unfold write_keys. by rewrite !fmap_app. Qed.

Lemma plan_writes_NoDup lo p hi : 0 <= lo -> plan_ok lo p hi -> NoDup (write_keys (plan_writes p)).
Proof.
  revert lo. induction p as [|r p IH]; intros lo H0 Hp; [constructor|].
  destruct Hp as (Hlo & (Hn & _) & Hp). rewrite plan_writes_cons, write_keys_app. apply NoDup_app.
  split; [apply write_keys_region; lia|]. split; [|by eapply IH; [|done]; lia].
  unfold write_keys. intros i (b & -> & Hb)%list_elem_of_fmap (c & Heq & Hc)%list_elem_of_fmap.
  apply list_elem_of_fmap in Hb as ([b' data] & -> & Hb). apply list_elem_of_fmap in Hc as (w & -> & Hw).
  apply writes_of_block in Hb as [Hb _]. pose proof (plan_writes_bounds _ _ _ _ Hp Hw). simpl in Heq. lia.
Qed.

Lemma apply_plan_writes lo p hi v :
  0 <= lo -> plan_ok lo p hi -> hi <= zlen v -> apply_writes (plan_writes p) v = install_plan p v.
Proof.
  revert lo v. induction p as [|r p IH]; intros lo v H0 Hp Hv; [done|].
  destruct Hp as (Hlo & (Hn & Hl & Hb) & Hp). pose proof (plan_ok_le _ _ _ Hp).
  rewrite plan_writes_cons, apply_writes_app. unfold writes_of at 1.
  rewrite apply_region_blocks by lia.
  change (install_plan (r :: p) v) with (install_plan p (install_region r v)).
  apply (IH (ri_start r + ri_blocks r)); [lia|done|].
  unfold install_region. rewrite zlen_put by (rewrite ?zlen_chunks; lia). done.
Qed.

Lemma zlen_install_region r v lo hi :
  0 <= lo -> lo <= ri_start r -> region_ok r -> ri_start r + ri_blocks r <= hi -> hi <= zlen v ->
  zlen (install_region r v) = zlen v.
Proof. intros H0 Hlo (Hn & _) Hhi Hv. unfold install_region. apply zlen_put; rewrite ?zlen_chunks; lia. Qed.

(** Installing a plan changes nothing outside its range... *)
Lemma disk_region_plan_outside lo p hi start n : forall v,
  0 <= lo -> plan_ok lo p hi -> hi <= zlen v -> 0 <= start -> 0 <= n -> start + n <= zlen v ->
  (start + n <= lo \/ hi <= start) -> disk_region (install_plan p v) start n = disk_region v start n.
Proof.
  revert lo. induction p as [|r p IH]; intros lo v H0 Hp Hv Hs Hn Hsn Ho; [done|].
  destruct Hp as (Hlo & Hr & Hp). pose proof (plan_ok_le _ _ _ Hp). pose proof Hr as (Hb & Hl & _).
  pose proof (zlen_install_region r v lo hi H0 Hlo Hr ltac:(lia) Hv) as Hz.
  change (install_plan (r :: p) v) with (install_plan p (install_region r v)).
  rewrite (IH (ri_start r + ri_blocks r)) by (done || lia).
  apply disk_region_put_other; lia.
Qed.

(** ... and puts every region in place. *)
Lemma disk_region_plan lo p hi r : forall v,
  0 <= lo -> plan_ok lo p hi -> hi <= zlen v -> r ∈ p ->
  disk_region (install_plan p v) (ri_start r) (ri_blocks r) = ri_image r.
Proof.
  revert lo. induction p as [|q p IH]; intros lo v H0 Hp Hv Hin; [by apply not_elem_of_nil in Hin|].
  destruct Hp as (Hlo & Hq & Hp). pose proof (plan_ok_le _ _ _ Hp). pose proof Hq as (Hb & Hl & Hby).
  pose proof (zlen_install_region q v lo hi H0 Hlo Hq ltac:(lia) Hv) as Hz.
  change (install_plan (q :: p) v) with (install_plan p (install_region q v)).
  apply elem_of_cons in Hin as [->|Hin].
  - rewrite (disk_region_plan_outside (ri_start q + ri_blocks q) p hi) by (done || lia).
    apply disk_region_put_same; (done || lia).
  - apply (IH (ri_start q + ri_blocks q)); (done || lia).
Qed.

(** ** Rendering and collecting *)

(** The capture device holds exactly the blocks of a plan. *)
Definition captured (cap : CaptureDevice) (p : list region) : Prop :=
  forall b data, capture_blocks cap !! b = Some data <-> (b, data) ∈ plan_writes p.

Lemma captured_new n : captured (capture_new n) [].
Proof.
  intros b data. unfold capture_new. simpl. rewrite lookup_empty.
  split; [done|by intros ?%not_elem_of_nil].
Qed.

Lemma region_writes_keys r : 0 <= ri_blocks r ->
  NoDup (region_writes (ri_start r) (ri_blocks r) (ri_image r)).*1.
Proof.
  intros Hn. rewrite region_writes_blocks, fmap_reverse by done. rewrite reverse_Permutation.
  rewrite region_blocks_keys. apply NoDup_seqZ.
Qed.

(** Storing one more region on the capture device extends the plan. *)
Lemma captured_store cap p r lo hi (m : M CaptureDevice unit) :
  captured cap p -> plan_ok lo (p ++ [r]) hi -> hi <= capture_block_count cap ->
  m cap = (do! write_seq (region_writes (ri_start r) (ri_blocks r) (ri_image r)) in flush) cap ->
  exists cap', run_on m cap = Ok (tt, cap') /\ captured cap' (p ++ [r]) /\
    capture_block_count cap' = capture_block_count cap.
Proof.
  intros Hcap Hp Hhi Hm. apply plan_ok_snoc in Hp as (Hp & (Hn & _) & Hend).
  unfold run_on. rewrite Hm. unfold ibind. rewrite capture_write_seq.
  2: { apply Forall_forall. intros w Hw. rewrite region_writes_blocks, elem_of_reverse in Hw by done.
       destruct w as [b data]. apply writes_of_block in Hw as [Hb _]. simpl. lia. }
  simpl. eexists. split; [done|]. split; [|done]. intros b data. cbn [capture_blocks].
  rewrite plan_writes_snoc, elem_of_app.
  set (ws := region_writes _ _ _).
  assert (Hws : forall w, w ∈ ws <-> w ∈ writes_of r).
  { intros w. unfold ws. by rewrite region_writes_blocks, elem_of_reverse. }
  destruct (decide (b ∈ ws.*1)) as [Hin|Hin].
  - apply list_elem_of_fmap in Hin as ([b' x] & -> & Hin). simpl.
    rewrite (lookup_install_in ws _ b' x) by (done || by apply region_writes_keys).
    apply Hws in Hin as Hin'. apply writes_of_block in Hin' as [Hb Hx]. rewrite writes_of_block. split.
    + intros [= ->]. by right.
    + intros [Hp'|[_ ->]]; [apply (plan_writes_bounds _ _ _ _ Hp) in Hp'; simpl in Hp'; lia|by rewrite Hx].
  - rewrite lookup_install_notin by done. rewrite (Hcap b data). split; [by left|]. intros [?|Hw]; [done|].
    exfalso. apply Hin, list_elem_of_fmap. exists (b, data). split; [done|]. by apply Hws.
Qed.

Lemma captured_nil cap msg : captured cap [] -> ensure_empty cap msg = Ok tt.
Proof.
  intros Hcap. unfold ensure_empty. rewrite bool_decide_eq_true_2; [done|].
  apply map_empty. intros b. apply eq_None_not_Some. intros [data Hd]. apply Hcap in Hd.
  by apply not_elem_of_nil in Hd.
Qed.

Section PlanSpec.
Context `{DeviceLaws D}.
Implicit Types (d : D) (v s : list block).

(** Collecting the first region of the captured plan. *)
Lemma wp_collect_region h d v s cap r p lo hi msg changed :
  at_state h d v s -> captured cap (r :: p) -> 0 <= lo -> plan_ok lo (r :: p) hi -> hi <= zlen v ->
  wp (collect_changed_range cap (ri_start r, ri_start r + ri_blocks r) msg changed)
    (fun a d' => at_state h d' v s /\ captured a.1 p /\
       a.2 = changed ++ changed_writes v (writes_of r))
    (fun _ d' => crashed d' s /\ h = false) d.
Proof.
  intros Hst Hcap H0 (Hlo & (Hn & _) & Hp) Hhi. pose proof (plan_ok_le _ _ _ Hp).
  eapply wp_mono; [eapply (wp_collect h d v s cap _ _ _ _
    (fun b => sub (ri_image r) ((b - ri_start r) * BLOCK_SIZE) BLOCK_SIZE)); [done|lia..|]|..].
  - intros k Hk. apply Hcap. rewrite plan_writes_cons, elem_of_app. left. by apply writes_of_block.
  - simpl. intros [cap' changed'] d' (Hst' & Hbl & Hch). simpl in *. split; [done|]. split; [|done].
    intros b data. rewrite Hbl. case_decide as Hin.
    + split; [done|]. intros Hw. apply (plan_writes_bounds _ _ _ _ Hp) in Hw. simpl in Hw. lia.
    + rewrite (Hcap b data), plan_writes_cons, elem_of_app, writes_of_block. tauto.
  - done.
Qed.

(** ** The tail *)

Context (sb : Superblock) (Hgeo : geometry sb).
Context (v : list block) (Hv : image_ok (total_blocks sb) v).
Context (ws : list (Z * block)) (Hws : home_writes_ok sb ws).

(** What a committed transaction leaves on the disk. *)
Definition committed_image (sb : Superblock) (ws : list (Z * block)) (v : list block) : list block :=
  if bool_decide (ws = []) then v else clear_journal sb (apply_writes ws v).
Definition retained_image (sb : Superblock) (ws : list (Z * block)) (v : list block) : list block :=
  if bool_decide (ws = []) then v else apply_writes ws (logged sb ws v).
Definition fits_log (sb : Superblock) (ws : list (Z * block)) : Prop :=
  ws <> [] -> journal_fits sb (tx_log ws).
Definition report_for (ws : list (Z * block)) : RecoveryReport :=
  if bool_decide (ws = []) then report_default else mkRecoveryReport 1 (zlen ws).

Lemma check_report_Ok msg : check_report (mkRecoveryReport 1 (zlen ws)) (zlen ws) msg =
  Ok (mkRecoveryReport 1 (zlen ws)).
Proof. unfold check_report. simpl. by rewrite Z.eqb_refl. Qed.

Lemma wp_finish_checkpointed h d msg :
  at_state h d v v ->
  wp (finish_checkpointed sb ws msg)
    (fun r d' => fits_log sb ws /\ r = report_for ws /\
       at_state h d' (committed_image sb ws v) (committed_image sb ws v))
    (fun _ d' => (h = true -> ws <> [] /\ ~ journal_fits sb (tx_log ws)) /\
       exists s, crashed d' s /\ wal_state sb v ws s) d.
Proof.
  intros Hst. unfold finish_checkpointed, report_for, committed_image. case_bool_decide as Hnil.
  { apply wp_ret. by split; [intros ?|]. }
  apply wp_bind, wp_lift. rewrite single_transaction_log_Ok. simpl.
  apply wp_bind. eapply wp_mono; [by apply wp_commit_checkpointed|..]; simpl.
  - intros r d' (Hfit & -> & Hst'). apply wp_lift. rewrite check_report_Ok. by split; [intros ?|].
  - intros e d' [Hh Hs]. split; [by auto|done].
Qed.

Lemma wp_finish_retained h d msg :
  at_state h d v v ->
  wp (finish_retained sb ws msg)
    (fun r d' => fits_log sb ws /\ r = report_for ws /\
       at_state h d' (retained_image sb ws v) (retained_image sb ws v))
    (fun _ d' => (h = true -> ws <> [] /\ ~ journal_fits sb (tx_log ws)) /\
       exists s, crashed d' s /\ wal_state sb v ws s) d.
Proof.
  intros Hst. unfold finish_retained, report_for, retained_image. case_bool_decide as Hnil.
  { apply wp_ret. by split; [intros ?|]. }
  apply wp_bind, wp_lift. rewrite single_transaction_log_Ok. simpl.
  apply wp_bind. eapply wp_mono; [by apply wp_commit_retained|..]; simpl.
  - intros r d' (Hfit & -> & Hst'). apply wp_lift. rewrite check_report_Ok. by split; [intros ?|].
  - intros e d' [Hh Hs]. split; [by auto|done].
Qed.
End PlanSpec.
