(* ===== verification/Atomicity.v ===== *)
(** * Home images and crash atomicity

    What a file system promises is about its home blocks: everything but the
    journal.  [same_home] identifies disk images that differ only in the
    journal; the metadata a disk holds is a function of that class.  On top of
    it: recovery from every image a crashed transaction can leave, for any
    number of crashes. *)

From S2P Require Import Prelude Bytes Block CrashDevice Allocation Superblock Region AllocationDisk.
From S2P Require Import Journal JournalCodec JournalRegion Recovery TransactionImage.
From S2P Require Import TransactionPlan InodeCodec RecordTable InodeTable DirectoryCodec.
From S2P Require Import DirectoryTable.

(** Equal outside the journal. *)
Definition same_home (sb : Superblock) (v s : list block) : Prop :=
  zlen v = zlen s /\
  forall b, 0 <= b -> (b < journal_start sb \/ journal_start sb + journal_blocks sb <= b) ->
    v !! Z.to_nat b = s !! Z.to_nat b.

#[global] Instance same_home_equivalence sb : Equivalence (same_home sb).
Proof.
  split.
  - intros v. by split.
  - intros v s [Hl Hb]. split; [done|]. intros b H0 Ho. symmetry. by apply Hb.
  - intros v s t [Hl Hb] [Hl' Hb']. split; [congruence|]. intros b H0 Ho. rewrite Hb by done. by apply Hb'.
Qed.

Lemma sub_ext {A} (v s : list A) start n :
  0 <= start -> (forall b, start <= b < start + n -> v !! Z.to_nat b = s !! Z.to_nat b) ->
  sub v start n = sub s start n.
Proof.
  intros H0 Hb. unfold sub. apply list_eq. intros i.
  destruct (decide (Z.of_nat i < n)).
  - rewrite !lookup_take_lt, !lookup_drop by lia. specialize (Hb (start + Z.of_nat i)).
    replace (Z.to_nat (start + Z.of_nat i)) with (Z.to_nat start + i)%nat in Hb by lia. apply Hb. lia.
  - rewrite !lookup_take_ge by lia. done.
Qed.

(** A region behind the journal is a function of the home class. *)
Lemma disk_region_home sb v s start n :
  0 <= start -> journal_start sb + journal_blocks sb <= start ->
  same_home sb v s -> disk_region v start n = disk_region s start n.
Proof.
  intros H0 Hs [_ Hb]. unfold disk_region. f_equal. apply sub_ext; [done|]. intros b Hb'. apply Hb; lia.
Qed.

Section Metadata.
Context (sb : Superblock) (Hgeo : geometry sb).

(** The metadata a disk holds: allocator, inodes and directory entries. *)
Definition metadata : Type := BlockAllocator * list PersistedInode * list PersistedDirectoryEntry.

Definition metadata_on_disk (v : list block) : outcome io_error metadata :=
  let? a := allocator_on_disk sb v in
  let? inodes := table_on_disk inode_format sb v in
  let? entries := table_on_disk directory_format sb v in
  Ok (a, inodes, entries).

#[global] Instance allocator_on_disk_proper : Proper (same_home sb ==> eq) (allocator_on_disk sb).
Proof.
  intros v s Hs. pose proof (geometry_bounds sb Hgeo). unfold allocator_on_disk.
  by rewrite (disk_region_home sb v s) by (done || lia).
Qed.

Lemma table_on_disk_home {R K} `{Countable K} (T : TableFormat R K) `{!TableLaws T} v s :
  same_home sb v s -> table_on_disk T sb v = table_on_disk T sb s.
Proof.
  intros Hs. pose proof (geometry_bounds sb Hgeo). pose proof (region_law (T:=T) sb Hgeo).
  unfold table_on_disk. by rewrite (disk_region_home sb v s) by (done || lia).
Qed.

#[global] Instance metadata_on_disk_proper : Proper (same_home sb ==> eq) metadata_on_disk.
Proof.
  intros v s Hs. unfold metadata_on_disk. rewrite (allocator_on_disk_proper v s Hs).
  by rewrite (table_on_disk_home inode_format v s Hs), (table_on_disk_home directory_format v s Hs).
Qed.

Lemma same_home_with_journal region v :
  total_blocks sb <= zlen v -> same_home sb (with_journal sb region v) v.
Proof.
  intros Hl. pose proof (geometry_bounds sb Hgeo). unfold with_journal.
  split; [rewrite zlen_put; rewrite ?zlen_chunks; lia|]. intros b H0 Ho.
  apply lookup_put_outside; rewrite ?zlen_chunks; lia.
Qed.

#[global] Instance apply_writes_home ws :
  Proper (same_home sb ==> same_home sb) (apply_writes ws).
Proof.
  intros v s [Hl Hb]. split; [by rewrite !zlen_apply_writes|]. intros b H0 Ho.
  specialize (Hb b H0 Ho). unfold zlen in Hl.
  destruct (decide (Z.to_nat b < length v)%nat) as [Hlt|Hge].
  - rewrite !apply_writes_lookup by lia. by rewrite Hb.
  - pose proof (zlen_apply_writes ws v). pose proof (zlen_apply_writes ws s). unfold zlen in *.
    rewrite !lookup_ge_None_2 by lia. done.
Qed.

Lemma same_home_clear v : total_blocks sb <= zlen v -> same_home sb (clear_journal sb v) v.
Proof. apply same_home_with_journal. Qed.

Lemma same_home_logged ws v : total_blocks sb <= zlen v -> same_home sb (logged sb ws v) v.
Proof. apply same_home_with_journal. Qed.
End Metadata.

(** ** Recovery *)

(** The disk [s] is consistent, needs no recovery, and has the home of [v]. *)
Definition settled (sb : Superblock) (v s : list block) : Prop :=
  image_ok (total_blocks sb) s /\ quiescent sb s /\ same_home sb v s.

(** What recovery may find: the old home, a complete log, or the new home. *)
Definition recoverable (sb : Superblock) (v : list block) (ws : list (Z * block)) (s : list block) : Prop :=
  settled sb v s \/ in_flight sb v ws s \/ settled sb (apply_writes ws v) s.

(** Recovery after a crash, itself interrupted at the given operations. *)
Fixpoint restarts (sb : Superblock) (arms : list (option Z)) (d : CrashDevice) : CrashDevice :=
  match arms with
  | [] => d
  | a :: arms => restarts sb arms (recover_journal_and_checkpoint sb (arm a (reboot d))).2
  end.

Section Recovery.
Context (sb : Superblock) (Hgeo : geometry sb).

Lemma clear_journal_quiescent v : image_ok (total_blocks sb) v -> quiescent sb (clear_journal sb v).
Proof. intros Hv. exists []. split; [by apply journal_on_disk_clear|done]. Qed.

Lemma settled_clear v s :
  image_ok (total_blocks sb) s -> same_home sb v s -> settled sb v (clear_journal sb s).
Proof.
  intros Hs Hh. pose proof Hs as (Hl & _). split; [apply image_ok_clear; (done || lia)|].
  split; [by apply clear_journal_quiescent|]. etrans; [done|]. symmetry. apply same_home_clear; (done || lia).
Qed.

Lemma wal_state_recoverable v ws s :
  image_ok (total_blocks sb) v -> quiescent sb v -> wal_state sb v ws s -> recoverable sb v ws s.
Proof. intros Hv Hq [->|Hs]; [by left|by right; left]. Qed.

Section Wp.
Context `{DeviceLaws D}.
Implicit Types (d : D) (v s : list block).

Lemma wp_recover_settled h d v s :
  at_state h d s s -> settled sb v s ->
  wp (recover_journal_and_checkpoint sb)
    (fun _ d' => exists s', at_state h d' s' s' /\ journal_on_disk sb s' = Ok [] /\ settled sb v s')
    (fun _ d' => h = false /\ exists s', crashed d' s' /\ settled sb v s') d.
Proof.
  intros Hst Hs. pose proof Hs as (Him & (es & Hes & Hid) & Hh). pose proof Him as (Hl & _).
  eapply wp_mono; [by apply wp_recover_and_checkpoint|..]; simpl.
  - intros r d' (es' & Hes' & _ & Hst'). rewrite Hes in Hes'. injection Hes' as <-. rewrite Hid in Hst'.
    eexists. split; [done|]. unfold checkpointed. destruct (is_empty es) eqn:He; [by destruct es|].
    split; [by apply journal_on_disk_clear|]. by apply settled_clear.
  - intros e d' [Hc Hh']. split; [destruct h; [specialize (Hh' eq_refl); congruence|done]|].
    exists s. split; [|done]. destruct Hc as [Hc|(es' & Hes' & Hc)]; [done|].
    rewrite Hes in Hes'. injection Hes' as <-. by rewrite Hid in Hc.
Qed.

Lemma wp_recover_recoverable h d v ws s :
  image_ok (total_blocks sb) v -> home_writes_ok sb ws ->
  at_state h d s s -> recoverable sb v ws s ->
  wp (recover_journal_and_checkpoint sb)
    (fun _ d' => exists s', at_state h d' s' s' /\ journal_on_disk sb s' = Ok [] /\
       (settled sb v s' \/ settled sb (apply_writes ws v) s'))
    (fun _ d' => h = false /\ exists s', crashed d' s' /\ recoverable sb v ws s') d.
Proof.
  intros Hv Hws Hst [Hs|[Hs|Hs]].
  - eapply wp_mono; [by eapply wp_recover_settled|..]; simpl; [naive_solver|].
    intros e d' [-> (s' & Hc & Hs')]. split; [done|]. exists s'. by split; [|left].
  - eapply wp_mono; [by eapply (wp_recover_in_flight sb Hgeo v Hv ws Hws)|..]; simpl.
    + intros r d' (_ & _ & Hst'). eexists. split; [done|].
      assert (image_ok (total_blocks sb) (apply_writes ws v)) by (by eapply image_ok_home).
      split; [by apply journal_on_disk_clear|]. right. by apply settled_clear.
    + intros e d' [-> (s' & Hc & Hs')]. split; [done|]. exists s'. by split; [|right; left].
  - eapply wp_mono; [by eapply wp_recover_settled|..]; simpl; [naive_solver|].
    intros e d' [-> (s' & Hc & Hs')]. split; [done|]. exists s'. by split; [|right; right].
Qed.
End Wp.

Lemma restarts_recoverable v ws arms : forall (d : CrashDevice) s,
  image_ok (total_blocks sb) v -> home_writes_ok sb ws ->
  crashed d s -> recoverable sb v ws s ->
  exists s', crashed (restarts sb arms d) s' /\ recoverable sb v ws s'.
Proof.
  induction arms as [|a arms IH]; intros d s Hv Hws Hc Hs; [by exists s|]. simpl.
  pose proof (arm_state a _ _ _ _ (reboot_state d s Hc)) as Hst.
  pose proof (wp_recover_recoverable false _ v ws s Hv Hws Hst Hs) as Hwp. unfold wp in Hwp.
  destruct (recover_journal_and_checkpoint sb (arm a (reboot d))) as [[r|e|] d']; simpl; [..|done].
  - destruct Hwp as (s' & Hst' & _ & Hs'). apply (IH d' s'); [done..|by eapply at_state_crashed|].
    destruct Hs'; [by left|by right; right].
  - destruct Hwp as (_ & s' & Hc' & Hs'). by apply (IH d' s').
Qed.

(** However often recovery is interrupted, one that is not finds the old home
    or installs the new one. *)
Lemma recover_after_restarts v ws arms (d : CrashDevice) s :
  image_ok (total_blocks sb) v -> home_writes_ok sb ws -> crashed d s -> recoverable sb v ws s ->
  exists r d', recover_journal_and_checkpoint sb (reboot (restarts sb arms d)) = (Ok r, d') /\
    exists s', at_state true d' s' s' /\ journal_on_disk sb s' = Ok [] /\
      (settled sb v s' \/ settled sb (apply_writes ws v) s').
Proof.
  intros Hv Hws Hc Hs. destruct (restarts_recoverable v ws arms d s Hv Hws Hc Hs) as (s1 & Hc1 & Hs1).
  pose proof (wp_recover_recoverable true _ v ws s1 Hv Hws (reboot_state _ _ Hc1) Hs1) as Hwp.
  unfold wp in Hwp.
  destruct (recover_journal_and_checkpoint sb (reboot (restarts sb arms d))) as [[r|e|] d']; [|by destruct Hwp|done].
  by exists r, d'.
Qed.

(** An operation that leaves the new home settled when it returns, and one of
    the images of its transaction when it fails, is atomic: after any crash in
    it and any number of crashes in recovery, the home is the old one or the
    new one, and it is the new one if the operation returned. *)
Lemma crash_atomic {A} (m : M CrashDevice A) v ws arms d :
  image_ok (total_blocks sb) v -> home_writes_ok sb ws ->
  wp m (fun _ d' => exists s, at_state false d' s s /\ settled sb (apply_writes ws v) s)
       (fun _ d' => exists s, crashed d' s /\ recoverable sb v ws s) d ->
  exists r d', recover_journal_and_checkpoint sb (reboot (restarts sb arms (m d).2)) = (Ok r, d') /\
    exists s, at_state true d' s s /\ journal_on_disk sb s = Ok [] /\
      ((exists e, (m d).1 = Err e) /\ settled sb v s \/ settled sb (apply_writes ws v) s).
Proof.
  intros Hv Hws Hwp. unfold wp in Hwp. destruct (m d) as [[a|e|] d1]; simpl in *; [| |done].
  - destruct Hwp as (s1 & Hst & Hs). apply at_state_crashed in Hst as Hc.
    destruct (recover_after_restarts (apply_writes ws v) [] arms d1 s1) as (r & d' & Hr & s & Hst' & Hj & Hs');
      [by apply (image_ok_home sb)|constructor|done|by left|].
    exists r, d'. split; [done|]. exists s. split; [done|]. split; [done|]. right. by destruct Hs'.
  - destruct Hwp as (s1 & Hc & Hs).
    destruct (recover_after_restarts v ws arms d1 s1) as (r & d' & Hr & s & Hst' & Hj & Hs');
      [done..|].
    exists r, d'. split; [done|]. exists s. split; [done|]. split; [done|]. destruct Hs'; [left|by right].
    split; [by exists e|done].
Qed.

(** Blocks no write of the transaction names keep their contents. *)
Lemma settled_block v ws s b lo :
  settled sb (apply_writes ws v) s -> 0 <= b ->
  (b < journal_start sb \/ journal_start sb + journal_blocks sb <= b) ->
  Forall (fun w => 0 <= w.1 < lo) ws -> lo <= b -> s !! Z.to_nat b = v !! Z.to_nat b.
Proof.
  intros (_ & _ & Hl & Hb) H0 Ho Hws Hlo. rewrite <- Hb by done.
  destruct (decide (Z.to_nat b < length v)%nat) as [Hlt|Hge].
  - rewrite apply_writes_lookup, last_write_notin; [done| |done].
    unfold write_keys. intros (k & Hk & Hin)%list_elem_of_fmap.
    apply list_elem_of_fmap in Hin as (w & -> & Hin). rewrite Forall_forall in Hws. specialize (Hws w Hin). lia.
  - pose proof (zlen_apply_writes ws v) as Hz. unfold zlen in Hz. by rewrite !lookup_ge_None_2 by lia.
Qed.
End Recovery.
