(* ===== verification/CreateTx.v ===== *)
(** * Metadata transactions: [allocation_tx.rs], [inode_tx.rs], [directory_tx.rs], [metadata_tx.rs]
      and [create_tx.rs]

    Each renders the desired metadata images into a capture device and commits
    the result as one transaction; [create_tx.rs] also checkpoints. *)

From S2P Require Import Prelude Bytes Block CrashDevice Allocation Superblock Region AllocationDisk.
From S2P Require Import Journal JournalCodec JournalRegion Recovery TransactionImage.
From S2P Require Import TransactionPlan InodeCodec RecordTable InodeTable DirectoryCodec.
From S2P Require Import DirectoryTable Atomicity.

Section Ops.
Context `{BlockDevice D}.

Definition geometry_matches (superblock : Superblock) (msg : string) : M D unit :=
  let! count := iget block_count in
  ilift (ensure (count =? total_blocks superblock) (invalid_input msg)).

(** One iteration of the loop of [store_allocator_journaled]: every rendered
    block is logged, changed or not. *)
Definition log_rendered_block (txid : Z) (acc : CaptureDevice * JournalLog) (b : Z)
    : outcome io_error (CaptureDevice * JournalLog) :=
  let '(capture, log) := acc in
  let? (data, capture) := run_on (take_rendered_block b
    "allocator image did not render every allocation metadata block") capture in
  let? (_, log) := run_on (write txid b data) log in
  Ok (capture, log).

Definition store_allocator_journaled (superblock : Superblock) (allocator : BlockAllocator)
    : M D RecoveryReport :=
  do! geometry_matches superblock "journaled allocator device geometry does not match superblock" in
  let capture := capture_new (total_blocks superblock) in
  let! (_, capture) := ilift (run_on (store_allocator superblock allocator) capture) in
  let! (txid, log) := ilift (run_on begin log_new) in
  let! range := ilift (allocation_range superblock) in
  let! (capture, log) :=
    ilift (ofold (log_rendered_block txid) (capture, log) (zrange range.1 range.2)) in
  do! ilift (ensure_empty capture "allocator image rendered outside allocation metadata region") in
  let! (_, log) := ilift (run_on (commit txid) log) in
  let! report := commit_retained superblock (entries log) in
  let! expected_writes := ilift (ok_or (usize_try_from (allocation_blocks superblock))
                                   (invalid_input "allocation block count exceeds usize")) in
  ilift (check_report report expected_writes
           "journaled allocator recovery report does not match one complete transaction").

Definition store_inode_table_journaled (superblock : Superblock) (inodes : list PersistedInode)
    : M D RecoveryReport :=
  do! geometry_matches superblock "journaled inode-table device geometry does not match superblock" in
  let capture := capture_new (total_blocks superblock) in
  let! (_, capture) := ilift (run_on (store_inode_table superblock inodes) capture) in
  let! range := ilift (inode_range superblock) in
  let! (capture, changed) := collect_changed_range capture range
    "inode-table image did not render every inode metadata block" [] in
  do! ilift (ensure_empty capture "inode-table image rendered outside inode metadata region") in
  finish_retained superblock changed
    "journaled inode-table recovery report does not match one complete transaction".

Definition store_directory_table_journaled (superblock : Superblock)
    (entries : list PersistedDirectoryEntry) : M D RecoveryReport :=
  do! geometry_matches superblock "journaled directory-table device geometry does not match superblock" in
  let capture := capture_new (total_blocks superblock) in
  let! (_, capture) := ilift (run_on (store_directory_table superblock entries) capture) in
  let! range := ilift (directory_range superblock) in
  let! (capture, changed) := collect_changed_range capture range
    "directory-table image did not render every directory metadata block" [] in
  do! ilift (ensure_empty capture "directory-table image rendered outside directory metadata region") in
  finish_retained superblock changed
    "journaled directory-table recovery report does not match one complete transaction".

Definition store_inode_directory_tables_journaled (superblock : Superblock)
    (inodes : list PersistedInode) (entries : list PersistedDirectoryEntry) : M D RecoveryReport :=
  do! geometry_matches superblock "journaled metadata device geometry does not match superblock" in
  let capture := capture_new (total_blocks superblock) in
  let! (_, capture) := ilift (run_on (store_inode_table superblock inodes) capture) in
  let! (_, capture) := ilift (run_on (store_directory_table superblock entries) capture) in
  let! irange := ilift (inode_range superblock) in
  let! (capture, changed) := collect_changed_range capture irange
    "combined metadata image did not render every inode metadata block" [] in
  let! drange := ilift (directory_range superblock) in
  let! (capture, changed) := collect_changed_range capture drange
    "combined metadata image did not render every directory metadata block" changed in
  do! ilift (ensure_empty capture
               "combined metadata image rendered outside inode and directory regions") in
  finish_retained superblock changed
    "combined metadata recovery report does not match one complete transaction".

Definition store_create_metadata_journaled (superblock : Superblock) (allocator : BlockAllocator)
    (inodes : list PersistedInode) (entries : list PersistedDirectoryEntry) : M D RecoveryReport :=
  do! geometry_matches superblock "atomic-create device geometry does not match superblock" in
  let capture := capture_new (total_blocks superblock) in
  let! (_, capture) := ilift (run_on (store_allocator superblock allocator) capture) in
  let! (_, capture) := ilift (run_on (store_inode_table superblock inodes) capture) in
  let! (_, capture) := ilift (run_on (store_directory_table superblock entries) capture) in
  let! arange := ilift (allocation_range superblock) in
  let! (capture, changed) := collect_changed_range capture arange
    "atomic-create image did not render every allocation metadata block" [] in
  let! irange := ilift (inode_range superblock) in
  let! (capture, changed) := collect_changed_range capture irange
    "atomic-create image did not render every inode metadata block" changed in
  let! drange := ilift (directory_range superblock) in
  let! (capture, changed) := collect_changed_range capture drange
    "atomic-create image did not render every directory metadata block" changed in
  do! ilift (ensure_empty capture
               "atomic-create image rendered outside allocation, inode, and directory regions") in
  finish_checkpointed superblock changed
    "atomic-create recovery report does not match one complete transaction".
End Ops.

(** ** The rendered regions *)

Definition allocation_image (sb : Superblock) (a : BlockAllocator) : bytes :=
  match render_allocator sb a with Ok image => image | _ => [] end.

Definition allocation_region (sb : Superblock) (a : BlockAllocator) : region :=
  mkRegion (allocation_start sb) (allocation_blocks sb) (allocation_image sb a).

Definition table_region {R K} `{Countable K} (T : TableFormat R K) `{!TableLaws T} (sb : Superblock)
    (rs : list R) : region :=
  mkRegion (tf_start T sb) (tf_blocks T sb) (table_image T (tf_blocks T sb * BLOCK_SIZE) rs).

(** The plan of [create_tx.rs], and what it asks of its arguments. *)
Definition create_plan (sb : Superblock) (a : BlockAllocator) (inodes : list PersistedInode)
    (entries : list PersistedDirectoryEntry) : list region :=
  [allocation_region sb a; table_region inode_format sb inodes; table_region directory_format sb entries].

Definition create_storable (sb : Superblock) (inodes : list PersistedInode)
    (entries : list PersistedDirectoryEntry) : Prop :=
  storable inode_format sb inodes /\ storable directory_format sb entries.

Section Render.
Context (sb : Superblock) (Hgeo : geometry sb).

Lemma allocation_image_Ok a : allocator_of sb a ->
  render_allocator sb a = Ok (allocation_image sb a) /\
  zlen (allocation_image sb a) = allocation_blocks sb * BLOCK_SIZE /\
  Forall is_byte (allocation_image sb a).
Proof.
  intros Ha. destruct (render_allocator_Ok sb Hgeo a Ha) as (bitmap & Hr & Hl & Hb & Hd & Hm).
  unfold allocation_image. rewrite Hr. split; [done|].
  split; [by apply zlen_bitmap_image|by apply Forall_bitmap_image].
Qed.

Lemma allocation_region_ok a : allocator_of sb a -> region_ok (allocation_region sb a).
Proof.
  intros Ha. pose proof (geometry_bounds sb Hgeo). destruct (allocation_image_Ok a Ha) as (_ & Hl & Hb).
  split; [simpl; lia|done].
Qed.

Lemma table_region_ok {R K} `{Countable K} (T : TableFormat R K) `{!TableLaws T} rs :
  storable T sb rs -> region_ok (table_region T sb rs).
Proof.
  intros [Hv Hf]. pose proof (region_law (T:=T) sb Hgeo). split; [simpl; lia|].
  split; [by apply zlen_table_image|apply Forall_table_image, Hv].
Qed.

Lemma create_plan_ok a inodes entries :
  allocator_of sb a -> create_storable sb inodes entries ->
  plan_ok (allocation_start sb) (create_plan sb a inodes entries) (reserved sb).
Proof.
  intros Ha [Hi He]. pose proof (geometry_bounds sb Hgeo).
  split; [simpl; lia|]. split; [by apply allocation_region_ok|].
  split; [simpl; lia|]. split; [by apply table_region_ok|].
  split; [simpl; lia|]. split; [by apply table_region_ok|]. unfold reserved. simpl. lia.
Qed.

(** Rendering a table extends the captured plan, or fails because the table
    cannot be stored. *)
Lemma owp_render_table {R K} `{Countable K} (T : TableFormat R K) `{!TableLaws T} cap p rs lo :
  captured cap p -> capture_block_count cap = total_blocks sb ->
  plan_ok lo p (tf_start T sb) -> Forall (rec_typed (T:=T)) rs ->
  owp (run_on (store_table T sb rs) cap)
    (fun r => storable T sb rs /\ captured r.2 (p ++ [table_region T sb rs]) /\
       capture_block_count r.2 = total_blocks sb)
    (fun _ => ~ storable T sb rs).
Proof.
  intros Hcap Hc Hp Ht. pose proof (geometry_bounds sb Hgeo). pose proof (region_law (T:=T) sb Hgeo).
  pose proof (table_encode_image_spec T sb Hgeo rs Ht) as He.
  destruct (encode_image T sb rs) as [image|e|] eqn:Hen; simpl in He; [|..|done].
  - destruct He as [Hs _].
    destruct (captured_store cap p (table_region T sb rs) lo (reserved sb) (store_table T sb rs))
      as (cap' & -> & Hcap' & Hc'); [done| |unfold reserved in *; lia|by apply store_table_eq|].
    + apply plan_ok_snoc. split; [done|]. split; [by apply table_region_ok|]. simpl. lia.
    + simpl. rewrite Hc'. done.
  - unfold run_on, store_table, ibind, ilift. rewrite validate_geometry_eq by done. by rewrite Hen.
Qed.

Lemma owp_render_allocator cap p a lo :
  captured cap p -> capture_block_count cap = total_blocks sb ->
  plan_ok lo p (allocation_start sb) -> allocator_of sb a ->
  owp (run_on (store_allocator sb a) cap)
    (fun r => captured r.2 (p ++ [allocation_region sb a]) /\
       capture_block_count r.2 = total_blocks sb)
    (fun _ => False).
Proof.
  intros Hcap Hc Hp Ha. pose proof (geometry_bounds sb Hgeo).
  destruct (allocation_image_Ok a Ha) as (Hr & Hl & _).
  destruct (captured_store cap p (allocation_region sb a) lo (inode_start sb) (store_allocator sb a))
    as (cap' & -> & Hcap' & Hc'); [done| |lia|by apply store_allocator_eq|].
  - apply plan_ok_snoc. split; [done|]. split; [by apply allocation_region_ok|]. simpl. lia.
  - simpl. rewrite Hc'. done.
Qed.
End Render.

(** ** What the transactions do *)

(** How a transaction that may have been interrupted or rejected ends. *)
Definition tx_failed `{DeviceLaws D} (sb : Superblock) (v : list block) (ws : list (Z * block))
    (valid : Prop) (h : bool) (d' : D) : Prop :=
  (h = true -> ~ valid \/ ws <> [] /\ ~ journal_fits sb (tx_log ws)) /\
  exists s, crashed d' s /\ wal_state sb v ws s /\ (s = v \/ h = false /\ valid).

Section Spec.
Context (sb : Superblock) (Hgeo : geometry sb).
Context `{DeviceLaws D} (h : bool) (v : list block) (Hlen : zlen v = total_blocks sb).
Implicit Types (d : D).

Lemma tx_failed_early ws valid d s :
  crashed d s -> s = v -> (h = true -> ~ valid) -> tx_failed sb v ws valid h d.
Proof. intros Hc -> Hh. split; [auto|]. exists v. split; [done|]. split; by left. Qed.

Lemma tx_failed_late ws (valid : Prop) d s : valid ->
  (h = true -> ws <> [] /\ ~ journal_fits sb (tx_log ws)) -> crashed d s -> wal_state sb v ws s ->
  tx_failed sb v ws valid h d.
Proof.
  intros Hval Hh Hc Hs. split; [auto|]. exists s. split; [done|]. split; [done|].
  destruct Hs as [->|[Hfit _]]; [by left|]. right. split; [|done]. destruct h; [|done]. by destruct (Hh eq_refl).
Qed.

Lemma wp_geometry_matches msg d (Q : unit -> D -> Prop) R :
  at_state h d v v -> Q tt d -> wp (geometry_matches sb msg) Q R d.
Proof.
  intros Hst HQ. unfold geometry_matches. apply wp_bind, wp_get, wp_lift.
  rewrite (at_state_count _ _ _ _ Hst), Hlen, Z.eqb_refl. done.
Qed.

(** The collected regions, put together. *)
Lemma changed_plan1 w r : [] ++ changed_writes w (writes_of r) = changed_writes w (plan_writes [r]).
Proof. unfold plan_writes. simpl. by rewrite app_nil_r. Qed.
Lemma changed_plan2 w r1 r2 :
  ([] ++ changed_writes w (writes_of r1)) ++ changed_writes w (writes_of r2) =
  changed_writes w (plan_writes [r1; r2]).
Proof. rewrite plan_writes_cons, changed_writes_app, <- changed_plan1. done. Qed.
Lemma changed_plan3 w r1 r2 r3 :
  (([] ++ changed_writes w (writes_of r1)) ++ changed_writes w (writes_of r2)) ++
    changed_writes w (writes_of r3) = changed_writes w (plan_writes [r1; r2; r3]).
Proof. rewrite plan_writes_cons, changed_writes_app, <- changed_plan2. simpl. by rewrite app_assoc. Qed.

(** The last steps of the checkpointed and of the retained transactions. *)
Lemma wp_tail_checkpointed p ws (valid : Prop) msg d :
  ws = changed_writes v (plan_writes p) -> at_state h d v v -> plan_ok (allocation_start sb) p (reserved sb) -> valid ->
  wp (finish_checkpointed sb ws msg)
    (fun r d' => valid /\ fits_log sb ws /\ r = report_for ws /\
       at_state h d' (committed_image sb ws v) (committed_image sb ws v))
    (fun _ d' => tx_failed sb v ws valid h d') d.
Proof.
  intros -> Hst Hp Hval. pose proof (geometry_bounds sb Hgeo).
  pose proof (at_state_image _ _ _ _ Hst) as Hv. rewrite Hlen in Hv.
  assert (Hws : home_writes_ok sb (changed_writes v (plan_writes p))).
  { apply Forall_changed_writes, plan_home_writes. eapply plan_ok_weaken; [done|unfold reserved; lia..]. }
  eapply wp_mono; [by apply wp_finish_checkpointed|..]; simpl; [by intros r d' (? & -> & ?)|].
  intros e d' [Hh (s & Hc & Hs)]. by eapply tx_failed_late.
Qed.

Lemma wp_tail_retained p ws (valid : Prop) msg d :
  ws = changed_writes v (plan_writes p) -> at_state h d v v -> plan_ok (allocation_start sb) p (reserved sb) -> valid ->
  wp (finish_retained sb ws msg)
    (fun r d' => valid /\ fits_log sb ws /\ r = report_for ws /\
       at_state h d' (retained_image sb ws v) (retained_image sb ws v))
    (fun _ d' => tx_failed sb v ws valid h d') d.
Proof.
  intros -> Hst Hp Hval. pose proof (geometry_bounds sb Hgeo).
  pose proof (at_state_image _ _ _ _ Hst) as Hv. rewrite Hlen in Hv.
  assert (Hws : home_writes_ok sb (changed_writes v (plan_writes p))).
  { apply Forall_changed_writes, plan_home_writes. eapply plan_ok_weaken; [done|unfold reserved; lia..]. }
  eapply wp_mono; [by apply wp_finish_retained|..]; simpl; [by intros r d' (? & -> & ?)|].
  intros e d' [Hh (s & Hc & Hs)]. by eapply tx_failed_late.
Qed.

(** Collecting one region, as the transactions do it. *)
Lemma wp_collect_next {A} cap r p lo hi msg changed (k : CaptureDevice * list (Z * block) -> M D A) Q ws valid d :
  at_state h d v v -> captured cap (r :: p) -> 0 <= lo -> plan_ok lo (r :: p) hi -> hi <= total_blocks sb ->
  (forall cap' d', at_state h d' v v -> captured cap' p ->
     wp (k (cap', changed ++ changed_writes v (writes_of r))) Q (fun _ d => tx_failed sb v ws valid h d) d') ->
  wp (ibind (collect_changed_range cap (ri_start r, ri_start r + ri_blocks r) msg changed) k)
    Q (fun _ d => tx_failed sb v ws valid h d) d.
Proof.
  intros Hst Hcap H0 Hp Hhi Hk. apply wp_bind.
  eapply wp_mono; [eapply (wp_collect_region h d v v); (done || lia)|..]; simpl.
  - intros [cap' changed'] d' (Hst' & Hcap' & Hch). simpl in Hch. subst changed'. by apply Hk.
  - intros e d' [Hc Hh]. eapply tx_failed_early; [done|done|]. rewrite Hh. done.
Qed.

Lemma wp_render_table {R K A} `{Countable K} (T : TableFormat R K) `{!TableLaws T} cap p rs lo
    (k : unit * CaptureDevice -> M D A) Q ws (valid : Prop) d :
  at_state h d v v -> captured cap p -> capture_block_count cap = total_blocks sb ->
  plan_ok lo p (tf_start T sb) -> Forall (rec_typed (T:=T)) rs -> (valid -> storable T sb rs) ->
  (forall r, storable T sb rs -> captured r.2 (p ++ [table_region T sb rs]) ->
     capture_block_count r.2 = total_blocks sb ->
     wp (k r) Q (fun _ d => tx_failed sb v ws valid h d) d) ->
  wp (ibind (ilift (run_on (store_table T sb rs) cap)) k) Q (fun _ d => tx_failed sb v ws valid h d) d.
Proof.
  intros Hst Hcap Hc Hp Ht Hval Hk. apply wp_bind, wp_lift.
  eapply owp_mono; [by eapply (owp_render_table sb Hgeo T)|..]; simpl.
  - intros r (Hs & Hcap' & Hc'). by apply Hk.
  - intros e Hns. eapply tx_failed_early; [by eapply at_state_crashed|done|]. intros _ Hv. auto.
Qed.

Lemma wp_create a inodes entries d :
  at_state h d v v -> allocator_of sb a -> Forall inode_typed inodes -> Forall entry_typed entries ->
  let ws := changed_writes v (plan_writes (create_plan sb a inodes entries)) in
  wp (store_create_metadata_journaled sb a inodes entries)
    (fun r d' => create_storable sb inodes entries /\ fits_log sb ws /\ r = report_for ws /\
       at_state h d' (committed_image sb ws v) (committed_image sb ws v))
    (fun _ d' => tx_failed sb v ws (create_storable sb inodes entries) h d') d.
Proof.
  intros Hst Ha Hi He ws. pose proof (geometry_bounds sb Hgeo).
  unfold store_create_metadata_journaled. apply wp_bind, wp_geometry_matches; [done|].
  apply wp_bind, wp_lift. eapply owp_mono; [apply (owp_render_allocator sb Hgeo _ [] a (allocation_start sb));
    [apply captured_new|done|simpl; lia|done]|simpl|done].
  intros [[] cap] [Hcap Hc]. pose proof (allocation_region_ok sb Hgeo a Ha) as Hra.
  eapply (wp_render_table inode_format); [done|done|done| |done|by intros []|].
  { simpl. split; [|split; [done|]]; [reflexivity|simpl; lia]. }
  intros [[] cap2] Hsi Hcap2 Hc2. pose proof (table_region_ok sb Hgeo inode_format inodes Hsi) as Hri.
  eapply (wp_render_table directory_format); [done|done|done| |done|by intros []|].
  { simpl. split; [reflexivity|]. split; [done|]. split; [simpl; lia|]. split; [done|]. simpl. lia. }
  intros [[] cap3] Hse Hcap3 Hc3.
  pose proof (create_plan_ok sb Hgeo a inodes entries Ha (conj Hsi Hse)) as Hp.
  pose proof Hp as (_ & _ & Hp1). pose proof Hp1 as (_ & _ & Hp2).
  apply wp_bind, wp_lift. rewrite (allocation_range_wf _ (geo_wf _ Hgeo)). ostep.
  eapply (wp_collect_next _ (allocation_region sb a)); [done|exact Hcap3| |exact Hp|unfold reserved; lia|]; [lia|].
  intros cap4 d4 Hst4 Hcap4. apply wp_bind, wp_lift. rewrite (inode_range_wf _ (geo_wf _ Hgeo)). ostep.
  eapply (wp_collect_next _ (table_region inode_format sb inodes));
    [done|exact Hcap4| |exact Hp1|unfold reserved; lia|]; [simpl; lia|].
  intros cap5 d5 Hst5 Hcap5. apply wp_bind, wp_lift. rewrite (directory_range_wf _ (geo_wf _ Hgeo)). ostep.
  eapply (wp_collect_next _ (table_region directory_format sb entries));
    [done|exact Hcap5| |exact Hp2|unfold reserved; lia|]; [simpl; lia|].
  intros cap6 d6 Hst6 Hcap6. apply wp_bind, wp_lift. rewrite (captured_nil _ _ Hcap6). cbn [owp].
  rewrite (changed_plan3 v). by eapply wp_tail_checkpointed.
Qed.

(** The retained transactions: one table, both tables, the allocator. *)
Lemma table_plan_ok {R K} `{Countable K} (T : TableFormat R K) `{!TableLaws T} rs :
  storable T sb rs -> plan_ok (allocation_start sb) [table_region T sb rs] (reserved sb).
Proof.
  intros Hs. pose proof (geometry_bounds sb Hgeo). pose proof (region_law (T:=T) sb Hgeo).
  split; [simpl; lia|]. split; [by apply table_region_ok|]. simpl. lia.
Qed.

Lemma wp_store_inode_table_journaled inodes d :
  at_state h d v v -> Forall inode_typed inodes ->
  let ws := changed_writes v (plan_writes [table_region inode_format sb inodes]) in
  wp (store_inode_table_journaled sb inodes)
    (fun r d' => storable inode_format sb inodes /\ fits_log sb ws /\ r = report_for ws /\
       at_state h d' (retained_image sb ws v) (retained_image sb ws v))
    (fun _ d' => tx_failed sb v ws (storable inode_format sb inodes) h d') d.
Proof.
  intros Hst Hi ws. pose proof (geometry_bounds sb Hgeo). unfold store_inode_table_journaled.
  apply wp_bind, wp_geometry_matches; [done|].
  eapply (wp_render_table inode_format _ [] _ (allocation_start sb));
    [done|apply captured_new|done|simpl; lia|done|done|].
  intros [[] cap] Hs Hcap Hc. pose proof (table_plan_ok inode_format inodes Hs) as Hp.
  apply wp_bind, wp_lift. rewrite (inode_range_wf _ (geo_wf _ Hgeo)). ostep.
  eapply (wp_collect_next _ (table_region inode_format sb inodes));
    [done|exact Hcap| |exact Hp|unfold reserved; lia|]; [lia|].
  intros cap2 d2 Hst2 Hcap2. apply wp_bind, wp_lift. rewrite (captured_nil _ _ Hcap2). cbn [owp].
  rewrite (changed_plan1 v). by eapply wp_tail_retained.
Qed.

Lemma wp_store_directory_table_journaled entries d :
  at_state h d v v -> Forall entry_typed entries ->
  let ws := changed_writes v (plan_writes [table_region directory_format sb entries]) in
  wp (store_directory_table_journaled sb entries)
    (fun r d' => storable directory_format sb entries /\ fits_log sb ws /\ r = report_for ws /\
       at_state h d' (retained_image sb ws v) (retained_image sb ws v))
    (fun _ d' => tx_failed sb v ws (storable directory_format sb entries) h d') d.
Proof.
  intros Hst He ws. pose proof (geometry_bounds sb Hgeo). unfold store_directory_table_journaled.
  apply wp_bind, wp_geometry_matches; [done|].
  eapply (wp_render_table directory_format _ [] _ (allocation_start sb));
    [done|apply captured_new|done|simpl; lia|done|done|].
  intros [[] cap] Hs Hcap Hc. pose proof (table_plan_ok directory_format entries Hs) as Hp.
  apply wp_bind, wp_lift. rewrite (directory_range_wf _ (geo_wf _ Hgeo)). ostep.
  eapply (wp_collect_next _ (table_region directory_format sb entries));
    [done|exact Hcap| |exact Hp|unfold reserved; lia|]; [lia|].
  intros cap2 d2 Hst2 Hcap2. apply wp_bind, wp_lift. rewrite (captured_nil _ _ Hcap2). cbn [owp].
  rewrite (changed_plan1 v). by eapply wp_tail_retained.
Qed.

Lemma wp_store_inode_directory_tables_journaled inodes entries d :
  at_state h d v v -> Forall inode_typed inodes -> Forall entry_typed entries ->
  let ws := changed_writes v (plan_writes [table_region inode_format sb inodes;
                                           table_region directory_format sb entries]) in
  wp (store_inode_directory_tables_journaled sb inodes entries)
    (fun r d' => create_storable sb inodes entries /\ fits_log sb ws /\ r = report_for ws /\
       at_state h d' (retained_image sb ws v) (retained_image sb ws v))
    (fun _ d' => tx_failed sb v ws (create_storable sb inodes entries) h d') d.
Proof.
  intros Hst Hi He ws. pose proof (geometry_bounds sb Hgeo). unfold store_inode_directory_tables_journaled.
  apply wp_bind, wp_geometry_matches; [done|].
  eapply (wp_render_table inode_format _ [] _ (allocation_start sb));
    [done|apply captured_new|done|simpl; lia|done|by intros []|].
  intros [[] cap] Hsi Hcap Hc. pose proof (table_region_ok sb Hgeo inode_format inodes Hsi) as Hri.
  eapply (wp_render_table directory_format _ _ _ (inode_start sb)); [done|exact Hcap|exact Hc| |done|by intros []|].
  { simpl. split; [lia|]. split; [done|]. simpl. lia. }
  intros [[] cap1] Hse Hcap1 Hc1. pose proof (table_region_ok sb Hgeo directory_format entries Hse) as Hre.
  assert (Hp : plan_ok (allocation_start sb) [table_region inode_format sb inodes;
    table_region directory_format sb entries] (reserved sb)).
  { split; [simpl; lia|]. split; [done|]. split; [simpl; lia|]. split; [done|]. unfold reserved. simpl. lia. }
  pose proof Hp as (_ & _ & Hp1). apply wp_bind, wp_lift. rewrite (inode_range_wf _ (geo_wf _ Hgeo)). ostep.
  eapply (wp_collect_next _ (table_region inode_format sb inodes));
    [done|exact Hcap1| |exact Hp|unfold reserved; lia|]; [lia|].
  intros cap2 d2 Hst2 Hcap2. apply wp_bind, wp_lift. rewrite (directory_range_wf _ (geo_wf _ Hgeo)). ostep.
  eapply (wp_collect_next _ (table_region directory_format sb entries));
    [done|exact Hcap2| |exact Hp1|unfold reserved; lia|]; [simpl; lia|].
  intros cap3 d3 Hst3 Hcap3. apply wp_bind, wp_lift. rewrite (captured_nil _ _ Hcap3). cbn [owp].
  rewrite (changed_plan2 v). by eapply wp_tail_retained.
Qed.

Lemma owp_log_rendered cap r log t :
  captured cap [r] -> region_ok r -> active log = Some t ->
  owp (ofold (log_rendered_block t) (cap, log) (zrange (ri_start r) (ri_start r + ri_blocks r)))
    (fun acc => captured acc.1 [] /\
       acc.2 = mkJournalLog (entries log ++ write_entries t (writes_of r)) (active log) (next_txid log))
    (fun _ => False).
Proof.
  intros Hcap (Hn & _) Ha.
  set (f := fun b => (b, sub (ri_image r) ((b - ri_start r) * BLOCK_SIZE) BLOCK_SIZE)).
  eapply owp_mono; [apply (owp_fold_range _ (fun acc k =>
    (forall b data, capture_blocks acc.1 !! b = Some data <->
       k <= b < ri_start r + ri_blocks r /\ data = (f b).2) /\
    acc.2 = mkJournalLog (entries log ++ write_entries t (f <$> zrange (ri_start r) k))
              (active log) (next_txid log)) (fun _ => False)); [lia|split|]|..]; simpl.
  - intros b data. rewrite (Hcap b data). rewrite plan_writes_cons, app_nil_r. apply writes_of_block.
  - rewrite zrange_nil by lia. simpl. rewrite app_nil_r. by destruct log.
  - intros k [cap' log'] Hk [Hcap' Hlog]. simpl in Hcap', Hlog. subst log'. simpl. unfold run_on, take_rendered_block, ibind, iget, Datatypes.id.
    rewrite (proj2 (Hcap' k (f k).2)) by (split; [lia|done]). simpl.
    unfold write, ibind, iget, Datatypes.id, ilift, require_active, iset. simpl.
    rewrite bool_decide_eq_true_2 by done. simpl. split.
    + intros b data. destruct (decide (b = k)) as [->|Hne].
      * rewrite lookup_delete_eq. split; [done|intros [? _]; lia].
      * rewrite lookup_delete_ne, Hcap' by done. split; intros [? ?]; (split; [lia|done]).
    + rewrite zrange_snoc, fmap_app by lia. unfold write_entries. rewrite fmap_app. simpl. by rewrite app_assoc.
  - intros [cap' log'] [Hcap' Hlog]. simpl in *. split; [|done].
    intros b data. rewrite Hcap'. split; [intros [? _]; lia|by intros ?%not_elem_of_nil].
  - done.
Qed.

Lemma zlen_writes_of r : region_ok r -> zlen (writes_of r) = ri_blocks r.
Proof.
  intros (Hn & _). unfold writes_of, region_blocks. rewrite zlen_fmap, zlen_zrange by lia. lia.
Qed.

(** Every block of the allocation region is logged. *)
Lemma wp_store_allocator_journaled a d :
  at_state h d v v -> allocator_of sb a ->
  let ws := writes_of (allocation_region sb a) in
  wp (store_allocator_journaled sb a)
    (fun r d' => fits_log sb ws /\ r = report_for ws /\
       at_state h d' (retained_image sb ws v) (retained_image sb ws v))
    (fun _ d' => tx_failed sb v ws True h d') d.
Proof.
  intros Hst Ha ws. pose proof (geometry_bounds sb Hgeo). unfold store_allocator_journaled.
  pose proof (allocation_region_ok sb Hgeo a Ha) as Hr.
  pose proof (at_state_image _ _ _ _ Hst) as Hv. rewrite Hlen in Hv.
  assert (Hws : home_writes_ok sb ws).
  { unfold ws. rewrite <- (app_nil_r (writes_of _)). apply (plan_home_writes sb [allocation_region sb a]).
    split; [simpl; lia|]. split; [done|]. simpl. lia. }
  assert (Hz : zlen ws = allocation_blocks sb) by by apply zlen_writes_of.
  assert (Hnil : ws <> []) by (intros Hn; rewrite Hn, zlen_nil in Hz; lia).
  apply wp_bind, wp_geometry_matches; [done|].
  apply wp_bind, wp_lift. eapply owp_mono; [apply (owp_render_allocator sb Hgeo _ [] a (allocation_start sb));
    [apply captured_new|done|simpl; lia|done]|simpl|done].
  intros [[] cap] [Hcap Hc]. simpl. apply wp_bind, wp_lift. simpl. apply wp_bind, wp_lift.
  rewrite (allocation_range_wf _ (geo_wf _ Hgeo)). ostep. apply wp_bind, wp_lift.
  eapply owp_mono; [apply (owp_log_rendered cap (allocation_region sb a)); done|simpl|done].
  intros [cap2 log] [Hcap2 Hlog]. simpl in *. subst log.
  apply wp_bind, wp_lift. rewrite (captured_nil _ _ Hcap2). simpl. apply wp_bind, wp_lift.
  simpl. fold ws. apply wp_bind. change (Begin 0 :: (write_entries 0 ws ++ [Commit 0])) with (tx_log ws).
  eapply wp_mono; [by apply wp_commit_retained|..]; simpl.
  - intros r d' (Hfit & -> & Hst'). apply wp_bind, wp_lift. rewrite usize_try_from_le by ulia. simpl.
    apply wp_lift. rewrite <- Hz, check_report_Ok. unfold report_for, retained_image.
    rewrite bool_decide_eq_false_2 by done. by split; [intros ?|].
  - intros e d' [Hh (s & Hcr & Hs)]. eapply tx_failed_late; [done| |done..]. auto.
Qed.
End Spec.

(** ** The metadata a transaction leaves *)

Section Result.
Context (sb : Superblock) (Hgeo : geometry sb).
Context (v : list block) (Hv : image_ok (total_blocks sb) v).

Lemma allocator_of_region a w :
  allocator_of sb a ->
  disk_region w (allocation_start sb) (allocation_blocks sb) = allocation_image sb a ->
  allocator_on_disk sb w = Ok a.
Proof.
  intros Ha Hw. pose proof (geometry_bounds sb Hgeo). destruct Hv as (Hl & _).
  destruct (allocator_on_disk_stored sb v a Hgeo Hv Ha) as (image & Hr & Hz & Hb & Hd).
  unfold allocator_on_disk, with_allocation in *. rewrite disk_region_put_same in Hd by (done || lia).
  rewrite Hw. unfold allocation_image. by rewrite Hr.
Qed.

Lemma table_of_region {R K} `{Countable K} (T : TableFormat R K) `{!TableLaws T} rs w :
  storable T sb rs ->
  disk_region w (tf_start T sb) (tf_blocks T sb) = ri_image (table_region T sb rs) ->
  table_on_disk T sb w = Ok rs.
Proof.
  intros [Hs Hf] Hw. pose proof (table_len_bounds T sb Hgeo). unfold table_on_disk. rewrite Hw.
  apply decode_table_image; (done || ulia).
Qed.

(** A region of the plan, and one outside it, after the writes. *)
Lemma plan_region p hi r :
  plan_ok (allocation_start sb) p hi -> hi <= total_blocks sb -> r ∈ p ->
  disk_region (apply_writes (changed_writes v (plan_writes p)) v) (ri_start r) (ri_blocks r) = ri_image r.
Proof.
  intros Hp Hhi Hr. pose proof (geometry_bounds sb Hgeo). destruct Hv as (Hl & _).
  rewrite apply_changed_writes by (eapply plan_writes_NoDup; [|done]; lia).
  rewrite (apply_plan_writes (allocation_start sb) p hi) by (done || lia).
  eapply disk_region_plan; [|done|lia|done]. lia.
Qed.

Lemma plan_region_outside p lo hi start n :
  0 <= lo -> plan_ok lo p hi -> hi <= total_blocks sb ->
  0 <= start -> 0 <= n -> start + n <= total_blocks sb -> (start + n <= lo \/ hi <= start) ->
  disk_region (apply_writes (changed_writes v (plan_writes p)) v) start n = disk_region v start n.
Proof.
  intros H0 Hp Hhi Hs Hn Hsn Ho. destruct Hv as (Hl & _).
  rewrite apply_changed_writes by (eapply plan_writes_NoDup; [|done]; lia).
  rewrite (apply_plan_writes lo p hi) by (done || lia).
  apply (disk_region_plan_outside lo p hi); (done || lia).
Qed.

Lemma create_metadata a inodes entries :
  allocator_of sb a -> create_storable sb inodes entries ->
  metadata_on_disk sb (apply_writes (changed_writes v (plan_writes (create_plan sb a inodes entries))) v)
    = Ok (a, inodes, entries).
Proof.
  intros Ha Hs. pose proof (geometry_bounds sb Hgeo).
  pose proof (create_plan_ok sb Hgeo a inodes entries Ha Hs) as Hp. destruct Hs as [Hi He].
  unfold metadata_on_disk.
  rewrite (allocator_of_region a) by
    (done || (apply (plan_region _ (reserved sb) (allocation_region sb a));
      [done|unfold reserved; lia|repeat constructor])). ostep.
  rewrite (table_of_region inode_format inodes) by
    (done || (apply (plan_region _ (reserved sb) (table_region inode_format sb inodes));
      [done|unfold reserved; lia|repeat constructor])). ostep.
  by rewrite (table_of_region directory_format entries) by
    (done || (apply (plan_region _ (reserved sb) (table_region directory_format sb entries));
      [done|unfold reserved; lia|repeat constructor])).
Qed.

Lemma committed_home ws : home_writes_ok sb ws -> same_home sb (committed_image sb ws v) (apply_writes ws v).
Proof.
  intros Hws. destruct Hv as (Hl & _). unfold committed_image. case_bool_decide as Hn; [by subst ws|].
  apply same_home_clear; [done|]. rewrite zlen_apply_writes. lia.
Qed.

Lemma retained_home ws : same_home sb (retained_image sb ws v) (apply_writes ws v).
Proof.
  destruct Hv as (Hl & _). unfold retained_image. case_bool_decide as Hn; [by subst ws|].
  apply apply_writes_home, same_home_logged; (done || lia).
Qed.

(** The image a transaction leaves needs no recovery: its log, if it is still
    there, has been replayed. *)
Lemma committed_settled ws :
  home_writes_ok sb ws -> quiescent sb v -> settled sb (apply_writes ws v) (committed_image sb ws v).
Proof.
  intros Hws Hq. unfold committed_image. case_bool_decide as Hn; [by subst ws; split_and!|].
  apply settled_clear; [done|by eapply (image_ok_home sb)|done].
Qed.

Lemma retained_settled ws :
  home_writes_ok sb ws -> fits_log sb ws -> quiescent sb v ->
  settled sb (apply_writes ws v) (retained_image sb ws v).
Proof.
  intros Hws Hfit Hq. pose proof (retained_home ws) as Hh. unfold retained_image in *.
  case_bool_decide as Hn; [by subst ws; split_and!|].
  destruct (in_flight_facts sb Hgeo v Hv ws Hws (apply_writes ws (logged sb ws v))) as (Him & Hj & Ha).
  { split; [by apply Hfit|by right]. }
  split; [done|]. split; [|by symmetry]. exists (tx_log ws). split; [done|]. by rewrite tx_log_replay.
Qed.
End Result.

(** ** What the transactions promise across crashes *)

Section Create.
Context (sb : Superblock) (a : BlockAllocator) (inodes : list PersistedInode)
  (entries : list PersistedDirectoryEntry) (v : list block).
Context (Hgeo : geometry sb) (Ha : allocator_of sb a) (Hi : Forall inode_typed inodes)
  (He : Forall entry_typed entries) (Hlen : zlen v = total_blocks sb).

(** The blocks [create_tx.rs] journals. *)
Definition create_writes : list (Z * block) := changed_writes v (plan_writes (create_plan sb a inodes entries)).

Lemma create_writes_ok :
  create_storable sb inodes entries ->
  home_writes_ok sb create_writes /\ Forall (fun w => 0 <= w.1 < reserved sb) create_writes.
Proof.
  intros Hs. pose proof (geometry_bounds sb Hgeo).
  pose proof (create_plan_ok sb Hgeo a inodes entries Ha Hs) as Hp. split.
  - apply Forall_changed_writes, plan_home_writes. eapply plan_ok_weaken; [done|unfold reserved; lia..].
  - apply Forall_changed_writes, Forall_forall. intros w Hw.
    pose proof (plan_writes_bounds _ _ _ _ Hp Hw). lia.
Qed.

Lemma wp_create_settled `{DeviceLaws D} h (d : D) :
  create_storable sb inodes entries -> at_state h d v v -> quiescent sb v ->
  wp (store_create_metadata_journaled sb a inodes entries)
    (fun r d' => r = report_for create_writes /\
       exists s, at_state h d' s s /\ settled sb (apply_writes create_writes v) s)
    (fun _ d' => tx_failed sb v create_writes (create_storable sb inodes entries) h d') d.
Proof.
  intros Hs Hst Hq. destruct (create_writes_ok Hs) as [Hws _].
  pose proof (at_state_image _ _ _ _ Hst) as Hv. rewrite Hlen in Hv.
  eapply wp_mono; [by apply (wp_create sb Hgeo h v Hlen a inodes entries d)|simpl|done].
  intros r d' (_ & _ & -> & Hst'). split; [done|]. eexists. split; [exact Hst'|]. by apply committed_settled.
Qed.

(** The result of a settled create. *)
Lemma create_settled_metadata s :
  create_storable sb inodes entries -> image_ok (total_blocks sb) v ->
  settled sb (apply_writes create_writes v) s ->
  metadata_on_disk sb s = Ok (a, inodes, entries) /\
  forall b, reserved sb <= b -> s !! Z.to_nat b = v !! Z.to_nat b.
Proof.
  intros Hs Hv Hset. pose proof (geometry_bounds sb Hgeo). destruct (create_writes_ok Hs) as [_ Hlt]. split.
  - rewrite <- (metadata_on_disk_proper sb Hgeo _ _ (proj2 (proj2 Hset))). by apply create_metadata.
  - intros b Hb. unfold reserved in *. eapply (settled_block sb v create_writes s b (reserved sb));
      [done|lia|lia|done|done].
Qed.
End Create.

(** C7: Storing an allocator, an inode table and a directory table with
    [store_create_metadata_journaled] is atomic.  Whatever write or flush the
    device fails at, and however often recovery is itself interrupted, the
    first recovery that completes leaves a disk whose metadata is exactly the
    old triple or exactly the new one - the new one if the call returned - and
    whose data blocks are untouched. *)
Theorem create_crash_atomic sb a inodes entries v old (d : CrashDevice) arms :
  geometry sb -> allocator_of sb a -> create_storable sb inodes entries ->
  at_state false d v v -> zlen v = total_blocks sb ->
  quiescent sb v -> metadata_on_disk sb v = Ok old ->
  let run := store_create_metadata_journaled sb a inodes entries d in
  exists r d', recover_journal_and_checkpoint sb (reboot (restarts sb arms run.2)) = (Ok r, d') /\
    (metadata_on_disk sb (cd_durable d') = Ok (a, inodes, entries) \/
     (exists e, run.1 = Err e) /\ metadata_on_disk sb (cd_durable d') = Ok old) /\
    (forall b, reserved sb <= b -> cd_durable d' !! Z.to_nat b = v !! Z.to_nat b).
Proof.
  intros Hgeo Ha Hs Hst Hlen Hq Hold run. pose proof (geometry_bounds sb Hgeo).
  pose proof (at_state_image _ _ _ _ Hst) as Hv. rewrite Hlen in Hv.
  destruct (create_writes_ok sb a inodes entries v Hgeo Ha Hs) as [Hws _].
  pose proof (storable_typed _ _ _ (proj1 Hs)) as Hi. pose proof (storable_typed _ _ _ (proj2 Hs)) as He.
  destruct (crash_atomic sb Hgeo (store_create_metadata_journaled sb a inodes entries) v
    (create_writes sb a inodes entries v) arms d Hv Hws) as (r & d' & Hr & s & (_ & _ & Hdur & _) & _ & Hcase).
  { eapply wp_mono; [by apply wp_create_settled|simpl..]; [by intros ? ? []|]. intros e d' [_ (s & ? & ? & _)]. exists s. split; [done|]. by apply wal_state_recoverable. }
  exists r, d'. split; [done|]. simpl in Hdur. rewrite Hdur. destruct Hcase as [[Herr Hset]|Hset].
  - pose proof Hset as (_ & _ & Hh). split.
    + right. split; [done|]. by rewrite <- (metadata_on_disk_proper sb Hgeo _ _ Hh).
    + intros b Hb. symmetry. unfold reserved in Hb. apply Hh; lia.
  - destruct (create_settled_metadata sb a inodes entries v Hgeo Ha s Hs Hv Hset) as [Hm Hd].
    split; [by left|done].
Qed.

(** On a device that does not fail, [store_create_metadata_journaled]
    succeeds exactly when the tables can be stored in their regions and the
    changed blocks fit the journal.  Then the durable metadata is the given
    triple, no data block and no superblock byte changed, and the report counts
    one transaction and the changed blocks (nothing is written when nothing
    changed).  Otherwise it returns an error and the durable disk is as before. *)
Theorem create_outcome `{DeviceLaws D} sb a inodes entries v (d : D) :
  geometry sb -> allocator_of sb a -> Forall inode_typed inodes -> Forall entry_typed entries ->
  at_state true d v v -> zlen v = total_blocks sb -> quiescent sb v ->
  let ws := create_writes sb a inodes entries v in
  let run := store_create_metadata_journaled sb a inodes entries d in
  (create_storable sb inodes entries /\ fits_log sb ws ->
     run.1 = Ok (report_for ws) /\
     metadata_on_disk sb (durable run.2) = Ok (a, inodes, entries) /\
     (forall b, b = 0 \/ reserved sb <= b -> durable run.2 !! Z.to_nat b = v !! Z.to_nat b)) /\
  (~ (create_storable sb inodes entries /\ fits_log sb ws) ->
     exists e, run.1 = Err e /\ durable run.2 = v).
Proof.
  intros Hgeo Ha Hi He Hst Hlen Hq ws run. pose proof (geometry_bounds sb Hgeo).
  pose proof (at_state_image _ _ _ _ Hst) as Hv. rewrite Hlen in Hv.
  pose proof (wp_create sb Hgeo true v Hlen a inodes entries d Hst Ha Hi He) as Hwp.
  fold (create_writes sb a inodes entries v) in Hwp. fold ws in Hwp. unfold wp in Hwp.
  fold run in Hwp. destruct run as [[r|e|] d'] eqn:Hrun; simpl in *; [..|done].
  - destruct Hwp as (Hs & Hfit & -> & (_ & _ & Hdur & _)).
    destruct (create_writes_ok sb a inodes entries v Hgeo Ha Hs) as [Hws Hlt].
    pose proof (committed_settled sb Hgeo v Hv ws Hws Hq) as Hset. rewrite Hdur.
    destruct (create_settled_metadata sb a inodes entries v Hgeo Ha _ Hs Hv Hset) as [Hm Hd]. split.
    + intros _. split; [done|]. split; [done|]. intros b [->|Hb]; [|by apply Hd].
      rewrite <- (proj2 (proj2 (proj2 Hset))) by lia.
      rewrite apply_writes_lookup by (unfold zlen in Hlen; lia).
      rewrite last_write_notin; [done|]. unfold write_keys.
      intros (k & Hk & Hin)%list_elem_of_fmap. apply list_elem_of_fmap in Hin as (w & -> & Hin).
      pose proof (proj1 (Forall_forall _ _) Hws w Hin) as [Hh _]. unfold home_block in Hh. lia.
    + intros Hn. by destruct Hn.
  - destruct Hwp as [Hh (s & [_ Hdur] & _ & Heq)]. specialize (Hh eq_refl).
    destruct Heq as [->|[? _]]; [|done]. rewrite Hdur. split.
    + intros [Hs Hfit]. exfalso. destruct Hh as [Hn|[Hnil Hn]]; [done|]. by apply Hn, Hfit.
    + intros _. by exists e.
Qed.

(** ** The inode and directory transaction *)

Section Tables.
Context (sb : Superblock) (inodes : list PersistedInode) (entries : list PersistedDirectoryEntry)
  (v : list block).
Context (Hgeo : geometry sb) (Hs : create_storable sb inodes entries) (Hv : image_ok (total_blocks sb) v).

Definition tables_plan : list region :=
  [table_region inode_format sb inodes; table_region directory_format sb entries].
Definition tables_writes : list (Z * block) := changed_writes v (plan_writes tables_plan).

Lemma tables_plan_ok : plan_ok (inode_start sb) tables_plan (reserved sb).
Proof.
  destruct Hs as [Hi He]. pose proof (geometry_bounds sb Hgeo).
  split; [simpl; lia|]. split; [by apply table_region_ok|].
  split; [simpl; lia|]. split; [by apply table_region_ok|]. unfold reserved. simpl. lia.
Qed.

Lemma tables_writes_ok : home_writes_ok sb tables_writes.
Proof.
  pose proof (geometry_bounds sb Hgeo). apply Forall_changed_writes, plan_home_writes.
  eapply plan_ok_weaken; [apply tables_plan_ok|unfold reserved; lia..].
Qed.

Lemma tables_metadata a inodes0 entries0 :
  metadata_on_disk sb v = Ok (a, inodes0, entries0) ->
  metadata_on_disk sb (apply_writes tables_writes v) = Ok (a, inodes, entries).
Proof.
  intros Hold. pose proof (geometry_bounds sb Hgeo). pose proof tables_plan_ok as Hp.
  assert (Hp' : plan_ok (allocation_start sb) tables_plan (reserved sb))
    by (eapply plan_ok_weaken; [done|unfold reserved; lia..]).
  assert (Ha : allocator_on_disk sb v = Ok a) by (unfold metadata_on_disk in Hold; by inv_ok).
  unfold metadata_on_disk.
  assert (Ha' : allocator_on_disk sb (apply_writes tables_writes v) = Ok a).
  { rewrite <- Ha. unfold allocator_on_disk.
    rewrite (plan_region_outside sb v Hv tables_plan (inode_start sb) (reserved sb));
      [done|lia|done|unfold reserved; lia|lia..]. }
  rewrite Ha'. ostep. destruct Hs as [Hi He].
  rewrite (table_of_region sb Hgeo inode_format inodes) by
    (done || (apply (plan_region sb Hgeo v Hv _ (reserved sb) (table_region inode_format sb inodes));
      [done|unfold reserved; lia|repeat constructor])). ostep.
  by rewrite (table_of_region sb Hgeo directory_format entries) by
    (done || (apply (plan_region sb Hgeo v Hv _ (reserved sb) (table_region directory_format sb entries));
      [done|unfold reserved; lia|repeat constructor])).
Qed.
End Tables.

(** [store_inode_directory_tables_journaled] is atomic across the two
    tables: after any crash in it and any number of crashes in recovery, the
    inode table and the directory table are both the old ones or both the new
    ones, and the allocator is the one that was there. *)
Theorem tables_crash_atomic sb inodes entries v a inodes0 entries0 (d : CrashDevice) arms :
  geometry sb -> create_storable sb inodes entries ->
  at_state false d v v -> zlen v = total_blocks sb ->
  quiescent sb v -> metadata_on_disk sb v = Ok (a, inodes0, entries0) ->
  let run := store_inode_directory_tables_journaled sb inodes entries d in
  exists r d', recover_journal_and_checkpoint sb (reboot (restarts sb arms run.2)) = (Ok r, d') /\
    (metadata_on_disk sb (cd_durable d') = Ok (a, inodes, entries) \/
     (exists e, run.1 = Err e) /\ metadata_on_disk sb (cd_durable d') = Ok (a, inodes0, entries0)).
Proof.
  intros Hgeo Hs Hst Hlen Hq Hold run. pose proof (at_state_image _ _ _ _ Hst) as Hv. rewrite Hlen in Hv.
  pose proof (tables_writes_ok sb inodes entries v Hgeo Hs) as Hws.
  pose proof (storable_typed _ _ _ (proj1 Hs)) as Hi. pose proof (storable_typed _ _ _ (proj2 Hs)) as He.
  destruct (crash_atomic sb Hgeo (store_inode_directory_tables_journaled sb inodes entries) v
    (tables_writes sb inodes entries v) arms d Hv Hws) as (r & d' & Hr & s & (_ & _ & Hdur & _) & _ & Hcase).
  { eapply wp_mono; [by apply (wp_store_inode_directory_tables_journaled sb Hgeo false v Hlen)|simpl..].
    - intros r d' (_ & Hfit & _ & Hst'). eexists. split; [exact Hst'|]. by apply retained_settled.
    - intros e d' [_ (s & ? & ? & _)]. exists s. split; [done|]. by apply wal_state_recoverable. }
  exists r, d'. split; [done|]. simpl in Hdur. rewrite Hdur.
  destruct Hcase as [[Herr (_ & _ & Hh)]|(_ & _ & Hh)].
  - right. split; [done|]. by rewrite <- (metadata_on_disk_proper sb Hgeo _ _ Hh).
  - left. rewrite <- (metadata_on_disk_proper sb Hgeo _ _ Hh). by eapply tables_metadata.
Qed.

