(* ===== verification/Format.v ===== *)
(** * Formatting: the device functions of [format.rs], and [format_geometry.rs]

    A format writes the three empty metadata regions, then the superblock, and
    flushes once. *)

From S2P Require Import Prelude Bytes Block CrashDevice Allocation Superblock Region AllocationDisk.
From S2P Require Import Journal JournalCodec JournalRegion Recovery TransactionImage.
From S2P Require Import TransactionPlan InodeCodec RecordTable InodeTable DirectoryCodec.
From S2P Require Import DirectoryTable Atomicity CreateTx.

Section Ops.
Context `{BlockDevice D}.

(** The common body: everything after the superblock is computed. *)
Definition write_fresh (superblock : Superblock) : M D Superblock :=
  do! initialize_allocation_region superblock in
  do! initialize_inode_table_region superblock in
  do! initialize_directory_table_region superblock in
  do! write_block SUPERBLOCK_BLOCK (encode superblock) in
  do! flush in
  iret superblock.

Definition format_device : M D Superblock :=
  let! count := iget block_count in
  let! superblock := ilift (superblock_new count) in
  write_fresh superblock.

Definition format_device_with_journal_blocks (journal_blocks : Z) : M D Superblock :=
  let! count := iget block_count in
  let! superblock := ilift (with_journal_blocks count journal_blocks) in
  write_fresh superblock.

Definition read_superblock : M D Superblock :=
  let! block := read_block SUPERBLOCK_BLOCK in
  let! superblock := ilift (decode block) in
  let! count := iget block_count in
  do! ilift (ensure (total_blocks superblock =? count)
               (invalid_data "superblock block count does not match device")) in
  iret superblock.
End Ops.

(** ** The formatted image *)

Definition empty_bitmap_region (sb : Superblock) : region :=
  mkRegion (allocation_start sb) (allocation_blocks sb) (bitmap_image sb (zeros (bitmap_size sb))).

Definition fresh_plan (sb : Superblock) : list region :=
  [empty_bitmap_region sb; table_region inode_format sb []; table_region directory_format sb []].

Definition formatted (sb : Superblock) (v : list block) : list block :=
  <[0%nat := encode sb]> (install_plan (fresh_plan sb) v).

(** The allocator in which nothing is allocated. *)
Definition empty_allocator (sb : Superblock) : BlockAllocator :=
  mkBlockAllocator (total_blocks sb) (reserved sb) (replicate (Z.to_nat (total_blocks sb)) false) 0.

Section Facts.
Context (sb : Superblock) (Hgeo : geometry sb).

Lemma empty_allocator_of : allocator_of sb (empty_allocator sb) /\ owned (empty_allocator sb) = ∅.
Proof.
  pose proof (geometry_bounds sb Hgeo) as Hg. destruct Hgeo as [Hwf _]. pose proof (wf_total _ Hwf).
  destruct (allocator_new_ok (total_blocks sb) (reserved sb)) as (a & Ha & Hok & Ho & Ht & Hr);
    [unfold isize_max; ulia|unfold reserved; lia|].
  unfold allocator_new, with_capacity in Ha. rewrite (proj2 (Z.ltb_ge _ _)) in Ha by (unfold reserved; lia).
  rewrite usize_try_from_le in Ha by ulia. cbn [ok_or obind] in Ha.
  rewrite (proj2 (Z.leb_le _ _)) in Ha by (unfold isize_max; ulia). injection Ha as <-. by split.
Qed.

Lemma fresh_plan_ok : plan_ok (allocation_start sb) (fresh_plan sb) (reserved sb).
Proof.
  pose proof (geometry_bounds sb Hgeo). pose proof (bitmap_size_bounds sb Hgeo).
  split; [simpl; lia|]. split; [split; [simpl; lia|split; [apply zlen_bitmap_image; (done || zside)|]]|].
  { apply Forall_bitmap_image. auto with bytes. }
  split; [simpl; lia|]. split; [apply table_region_ok, storable_nil; done|].
  split; [simpl; lia|]. split; [apply table_region_ok, storable_nil; done|]. unfold reserved. simpl. lia.
Qed.

Lemma zlen_formatted v : total_blocks sb <= zlen v -> zlen (formatted sb v) = zlen v.
Proof.
  intros Hl. pose proof (geometry_bounds sb Hgeo). unfold formatted. rewrite zlen_insert.
  rewrite <- (apply_plan_writes (allocation_start sb) _ (reserved sb));
    [apply zlen_apply_writes|lia|apply fresh_plan_ok|unfold reserved; lia].
Qed.

(** Regions behind the superblock block do not see it. *)
Lemma disk_region_insert0 v x start n : 1 <= start -> disk_region (<[0%nat:=x]> v) start n = disk_region v start n.
Proof.
  intros Hs. unfold disk_region. f_equal. apply sub_ext; [lia|]. intros b Hb.
  rewrite list_lookup_insert_ne by lia. done.
Qed.

Lemma formatted_metadata v :
  total_blocks sb <= zlen v -> metadata_on_disk sb (formatted sb v) = Ok (empty_allocator sb, [], []).
Proof.
  intros Hl. pose proof (geometry_bounds sb Hgeo). pose proof fresh_plan_ok as Hp.
  pose proof (bitmap_size_bounds sb Hgeo) as Hbs.
  assert (Hreg : forall r, r ∈ fresh_plan sb ->
    disk_region (formatted sb v) (ri_start r) (ri_blocks r) = ri_image r).
  { intros r Hr. unfold formatted. rewrite disk_region_insert0.
    - eapply disk_region_plan; [|done|unfold reserved; lia|done]. lia.
    - apply elem_of_cons in Hr as [->|Hr]; [simpl; lia|].
      apply elem_of_cons in Hr as [->|Hr]; [simpl; lia|].
      apply list_elem_of_singleton in Hr as ->. simpl. lia. }
  destruct empty_allocator_of as [Ha Ho].
  assert (Hal : allocator_on_disk sb (formatted sb v) = Ok (empty_allocator sb)).
  { unfold allocator_on_disk. pose proof (Hreg (empty_bitmap_region sb) ltac:(repeat constructor)) as Hr.
    cbn [ri_start ri_blocks ri_image empty_bitmap_region] in Hr. rewrite Hr.
    rewrite decode_bitmap_image; [|done|zside|auto with bytes|apply zeros_data_bits]. ostep.
    apply restore_render; [done|done|zside|]. intros b. rewrite Ho, bitmap_bit_zeros. set_solver. }
  unfold metadata_on_disk. rewrite Hal. ostep.
  rewrite (table_of_region sb Hgeo inode_format [] _ (storable_nil _ sb Hgeo)
    (Hreg (table_region inode_format sb []) ltac:(repeat constructor))). ostep.
  by rewrite (table_of_region sb Hgeo directory_format [] _ (storable_nil _ sb Hgeo)
    (Hreg (table_region directory_format sb []) ltac:(repeat constructor))).
Qed.

(** Formatting does not touch the journal region. *)
Lemma formatted_journal v :
  total_blocks sb <= zlen v -> journal_on_disk sb (formatted sb v) = journal_on_disk sb v.
Proof.
  intros Hl. pose proof (geometry_bounds sb Hgeo). unfold journal_on_disk, formatted.
  rewrite disk_region_insert0 by lia.
  rewrite (disk_region_plan_outside (allocation_start sb) (fresh_plan sb) (reserved sb)); [done|lia|
    apply fresh_plan_ok|unfold reserved; lia|lia..].
Qed.
End Facts.

Section FormatSpec.
Context `{DeviceLaws D}.
Implicit Types (d : D) (v s : list block).

Lemma wp_write_fresh sb h d v s :
  geometry sb -> at_state h d v s -> zlen v = total_blocks sb ->
  wp (write_fresh sb)
    (fun r d' => r = sb /\ at_state h d' (formatted sb v) (formatted sb v))
    (fun _ d' => crashed d' s /\ h = false) d.
Proof.
  intros Hgeo Hst Hl. pose proof (geometry_bounds sb Hgeo). pose proof (fresh_plan_ok sb Hgeo) as Hp.
  destruct Hp as (_ & Hra & _ & Hri & _ & Hrd & _). unfold write_fresh.
  assert (Hstep : forall r (m : M D unit) d' w, at_state h d' w s -> zlen w = total_blocks sb ->
    region_ok r -> 0 <= ri_start r -> ri_start r + ri_blocks r <= total_blocks sb ->
    m d' = write_seq (region_writes (ri_start r) (ri_blocks r) (ri_image r)) d' ->
    wp m (fun _ d'' => at_state h d'' (install_region r w) s /\ zlen (install_region r w) = total_blocks sb)
      (fun _ d'' => crashed d'' s /\ h = false) d').
  { intros r m d' w Hst' Hlw (Hn & Hz & Hb) Hpos Hend Hm. unfold wp. rewrite Hm.
    eapply wp_mono; [eapply (wp_write_seq_region h d' w s); (done || lia)|..]; simpl; [|done].
    intros [] d'' Hst''. split; [done|]. unfold install_region. rewrite zlen_put; rewrite ?zlen_chunks; lia. }
  apply wp_bind. eapply wp_mono; [apply (Hstep (empty_bitmap_region sb) _ d v); try done; simpl; try lia|..];
    [apply initialize_allocation_region_eq; [done|by rewrite (at_state_count _ _ _ _ Hst)]|simpl|done].
  intros [] d1 [Hst1 Hl1]. apply wp_bind.
  eapply wp_mono; [eapply (Hstep (table_region inode_format sb []) _ d1); try done; simpl; try lia|..];
    [apply initialize_table_region_eq; [done|by rewrite (at_state_count _ _ _ _ Hst1)]|simpl|done].
  intros [] d2 [Hst2 Hl2]. apply wp_bind.
  eapply wp_mono; [eapply (Hstep (table_region directory_format sb []) _ d2); try done; simpl; try lia|..];
    [apply initialize_table_region_eq; [done|by rewrite (at_state_count _ _ _ _ Hst2)]|simpl|done].
  intros [] d3 [Hst3 Hl3]. apply wp_bind.
  eapply wp_mono; [eapply (wp_write h d3); [done|done|apply encode_ok]|..]; simpl.
  2: { intros e d' [Hc Hh]. split; [done|]. apply Hh. unfold SUPERBLOCK_BLOCK. lia. }
  intros [] d4 [_ Hst4]. apply wp_bind. eapply wp_mono; [by apply wp_flush|simpl|done].
  intros [] d5 Hst5. by apply wp_ret.
Qed.

Lemma wp_format_from n j i dd h d v s :
  at_state h d v s -> n = zlen v -> n * BLOCK_SIZE <= u64_max -> 0 <= j -> 0 <= i -> 0 <= dd ->
  wp (let! sb := ilift (with_all_metadata_blocks n j i dd) in write_fresh sb)
    (fun sb d' => with_all_metadata_blocks n j i dd = Ok sb /\ geometry sb /\
       at_state h d' (formatted sb v) (formatted sb v))
    (fun e d' => crashed d' s /\ (h = true -> with_all_metadata_blocks n j i dd = Err e)) d.
Proof.
  intros Hst -> Hn Hj Hi Hd. apply wp_bind, wp_lift. pose proof (zlen_nonneg v).
  pose proof (with_all_metadata_blocks_no_panic (zlen v) j i dd).
  destruct (with_all_metadata_blocks (zlen v) j i dd) as [sb|e|] eqn:Hsb; simpl; [|..|done].
  - apply superblock_geometry in Hsb as Hg; [|(done || lia)..]. destruct Hg as [Hgeo Ht].
    eapply wp_mono; [by eapply (wp_write_fresh sb)|..]; simpl; [by intros r d' [-> ?]|].
    intros e d' [Hc ->]. done.
  - split; [by eapply at_state_crashed|done].
Qed.

Lemma wp_format_device h d v s :
  at_state h d v s -> zlen v * BLOCK_SIZE <= u64_max ->
  wp format_device
    (fun sb d' => superblock_new (zlen v) = Ok sb /\ geometry sb /\
       at_state h d' (formatted sb v) (formatted sb v))
    (fun e d' => crashed d' s /\ (h = true -> superblock_new (zlen v) = Err e)) d.
Proof.
  intros Hst Hn. unfold format_device. apply wp_bind, wp_get. rewrite (at_state_count _ _ _ _ Hst).
  by apply wp_format_from.
Qed.

Lemma wp_format_with j h d v s :
  at_state h d v s -> zlen v * BLOCK_SIZE <= u64_max -> 0 <= j ->
  wp (format_device_with_journal_blocks j)
    (fun sb d' => with_journal_blocks (zlen v) j = Ok sb /\ geometry sb /\
       at_state h d' (formatted sb v) (formatted sb v))
    (fun e d' => crashed d' s /\ (h = true -> with_journal_blocks (zlen v) j = Err e)) d.
Proof.
  intros Hst Hn Hj. unfold format_device_with_journal_blocks. apply wp_bind, wp_get.
  rewrite (at_state_count _ _ _ _ Hst). by apply wp_format_from.
Qed.

(** The superblock a disk image holds. *)
Definition superblock_on_disk (v : list block) : outcome io_error Superblock :=
  match v !! 0%nat with Some b => decode b | None => Panic end.

Lemma wp_read_superblock h d v s :
  at_state h d v s -> 1 <= zlen v ->
  wp read_superblock
    (fun sb d' => at_state h d' v s /\ superblock_on_disk v = Ok sb /\ total_blocks sb = zlen v)
    (fun e d' => at_state false d' v s /\ (h = true -> superblock_on_disk v = Err e \/
       exists sb, superblock_on_disk v = Ok sb /\ total_blocks sb <> zlen v)) d.
Proof.
  intros Hst Hl. unfold read_superblock, superblock_on_disk. apply wp_bind.
  eapply wp_mono; [eapply (wp_read h d v s); [done|done]|..]; simpl.
  2: { intros e d' [Hc Hh]. split; [done|]. rewrite Hh by (unfold SUPERBLOCK_BLOCK; lia). done. }
  intros b d' [Hb Hst']. change (Z.to_nat SUPERBLOCK_BLOCK) with 0%nat in Hb. rewrite Hb.
  apply wp_bind, wp_lift. pose proof (decode_no_panic b).
  destruct (decode b) as [sb|e|] eqn:Hd; simpl; [|by split; [eapply at_state_weaken|left]|done].
  apply wp_bind, wp_get. rewrite (at_state_count _ _ _ _ Hst'). apply wp_bind, wp_lift.
  destruct (total_blocks sb =? zlen v) eqn:Ht; bool_facts; simpl; [by apply wp_ret|].
  split; [by eapply at_state_weaken|]. right. by exists sb.
Qed.

Lemma superblock_formatted sb v : geometry sb -> 1 <= zlen v -> total_blocks sb <= zlen v ->
  superblock_on_disk (formatted sb v) = Ok sb.
Proof.
  intros Hgeo Hl Ht. pose proof (zlen_formatted sb Hgeo v Ht) as Hz. unfold superblock_on_disk, formatted in *.
  rewrite zlen_insert in Hz. unfold zlen in *. rewrite list_lookup_insert_eq by lia.
  apply decode_encode, Hgeo.
Qed.
End FormatSpec.

(** ** Formatting *)

(** C13: [format_device] is all or nothing: if it returns, the durable disk has
    a superblock that reads back as the one returned and covers the device,
    no allocated block, no inode and no directory entry; if it fails, at
    whatever operation, the durable disk is what it was.  It never panics. *)
Theorem format_all_or_nothing `{DeviceLaws D} h (d : D) v s :
  at_state h d v s -> zlen v * BLOCK_SIZE <= u64_max ->
  let run := format_device d in
  match run.1 with
  | Ok sb =>
      superblock_on_disk (durable run.2) = Ok sb /\ total_blocks sb = zlen v /\
      metadata_on_disk sb (durable run.2) = Ok (empty_allocator sb, [], [])
  | Err e => durable run.2 = s /\ (h = true -> superblock_new (zlen v) = Err e)
  | Panic => False
  end.
Proof.
  intros Hst Hn run. pose proof (wp_format_device h d v s Hst Hn) as Hwp. unfold wp in Hwp. fold run in Hwp.
  destruct run as [[sb|e|] d']; simpl in *; [|by destruct Hwp as [[_ ?] ?]|done].
  destruct Hwp as (Hsb & Hgeo & (_ & _ & -> & _)). pose proof (geometry_bounds sb Hgeo).
  pose proof (zlen_nonneg v).
  apply superblock_geometry in Hsb as [_ Ht]; [|(done || lia)..].
  split; [apply superblock_formatted; (done || lia)|]. split; [done|]. apply formatted_metadata; (done || lia).
Qed.

Section StaleLog.
Context (sb : Superblock) (a : BlockAllocator) (Hgeo : geometry sb) (Ha : allocator_of sb a).

Let ws : list (Z * block) := writes_of (allocation_region sb a).

Lemma allocation_plan_ok : plan_ok (allocation_start sb) [allocation_region sb a] (inode_start sb).
Proof.
  pose proof (geometry_bounds sb Hgeo). split; [simpl; lia|]. split; [by apply allocation_region_ok|]. simpl. lia.
Qed.

Lemma allocation_writes_eq : ws = plan_writes [allocation_region sb a].
Proof. unfold plan_writes. simpl. by rewrite app_nil_r. Qed.

Lemma allocation_writes_ok : home_writes_ok sb ws.
Proof.
  pose proof (geometry_bounds sb Hgeo). rewrite allocation_writes_eq. apply plan_home_writes.
  eapply plan_ok_weaken; [apply allocation_plan_ok|lia..].
Qed.

(** Replaying the allocator log over a formatted disk. *)
Lemma stale_log_metadata v :
  image_ok (total_blocks sb) v ->
  metadata_on_disk sb (apply_writes ws (formatted sb v)) = Ok (a, [], []).
Proof.
  intros Hv. pose proof Hv as (Hl & _). pose proof (geometry_bounds sb Hgeo). pose proof allocation_plan_ok as Hp.
  assert (Hz := zlen_formatted sb Hgeo v ltac:(lia)).
  assert (Hw : apply_writes ws (formatted sb v) = install_plan [allocation_region sb a] (formatted sb v)).
  { rewrite allocation_writes_eq. eapply apply_plan_writes; [|done|lia]. lia. }
  pose proof (formatted_metadata sb Hgeo v ltac:(lia)) as Hm. unfold metadata_on_disk in *. inv_ok.
  assert (Hal : allocator_on_disk sb (apply_writes ws (formatted sb v)) = Ok a).
  { apply (allocator_of_region sb Hgeo v Hv); [done|]. rewrite Hw.
    apply (disk_region_plan (allocation_start sb) _ (inode_start sb) (allocation_region sb a));
      [lia|done|lia|repeat constructor]. }
  assert (Hout : forall {R K} `{Countable K} (T : TableFormat R K) `{!TableLaws T},
    inode_start sb <= tf_start T sb ->
    table_on_disk T sb (apply_writes ws (formatted sb v)) = table_on_disk T sb (formatted sb v)).
  { intros R K ? ? T ? Hs. unfold table_on_disk. rewrite Hw. pose proof (region_law (T:=T) sb Hgeo).
    unfold reserved in *.
    rewrite (disk_region_plan_outside (allocation_start sb) _ (inode_start sb)) by (done || lia). done. }
  rewrite Hal, (Hout _ _ _ _ inode_format inode_laws), (Hout _ _ _ _ directory_format directory_laws)
    by (simpl; lia).
  rewrite E0, E1. done.
Qed.
End StaleLog.

(** C14: Formatting leaves the journal region alone, so a log the old file
    system left there is replayed over the new one: after
    [store_allocator_journaled], a format and a recovery, which all succeed,
    the disk holds the old allocator again beside empty tables. *)
Theorem format_keeps_stale_log `{DeviceLaws D} sb a v (d : D) :
  superblock_new (zlen v) = Ok sb -> geometry sb -> allocator_of sb a -> at_state true d v v ->
  journal_fits sb (tx_log (writes_of (allocation_region sb a))) ->
  let run1 := store_allocator_journaled sb a d in
  let run2 := format_device run1.2 in
  let run3 := recover_journal_and_checkpoint sb run2.2 in
  run2.1 = Ok sb /\ metadata_on_disk sb (durable run2.2) = Ok (empty_allocator sb, [], []) /\
  is_ok run3.1 = true /\ metadata_on_disk sb (durable run3.2) = Ok (a, [], []).
Proof.
  intros Hsb Hgeo Ha Hst Hfit run1 run2 run3. pose proof (geometry_bounds sb Hgeo) as Hg.
  assert (Ht : total_blocks sb = zlen v).
  { eapply with_all_metadata_blocks_wf in Hsb as (_ & Ht & _); [done|apply (at_state_image _ _ _ _ Hst)|done..]. }
  pose proof (at_state_image _ _ _ _ Hst) as Hv. rewrite <- Ht in Hv.
  pose proof (allocation_writes_ok sb a Hgeo Ha) as Hws. set (ws := writes_of (allocation_region sb a)) in *.
  assert (Hnil : ws <> []).
  { intros Hn. pose proof (zlen_writes_of _ (allocation_region_ok sb Hgeo a Ha)) as Hz.
    fold ws in Hz. rewrite Hn, zlen_nil in Hz. simpl in Hz. lia. }
  pose proof (wp_store_allocator_journaled sb Hgeo true v (eq_sym Ht) a d Hst Ha) as W1. unfold wp in W1.
  fold run1 ws in W1. destruct run1 as [[r1|e|] d1]; [|destruct W1 as [Hh _]; destruct (Hh eq_refl); tauto|done].
  destruct W1 as (_ & _ & Hst1). unfold retained_image in Hst1.
  rewrite bool_decide_eq_false_2 in Hst1 by done.
  destruct (in_flight_facts sb Hgeo v Hv ws Hws (apply_writes ws (logged sb ws v))) as (Him & Hj & _);
    [by split; [|right]|].
  set (v1 := apply_writes ws (logged sb ws v)) in *. pose proof Him as (Hl1 & _).
  pose proof (wp_format_device true d1 v1 v1 Hst1 ltac:(rewrite Hl1; unfold BLOCK_SIZE; lia)) as W2.
  unfold wp in W2. simpl in run2. fold run2 in W2. rewrite Hl1, Ht, Hsb in W2.
  destruct run2 as [[sb'|e|] d2]; [|by destruct W2 as [_ W2]; specialize (W2 eq_refl)|done].
  destruct W2 as ([= <-] & _ & Hst2). pose proof Hst2 as (_ & _ & Hd2 & _).
  assert (Hz2 := zlen_formatted sb Hgeo v1 ltac:(lia)).
  pose proof (wp_recover_and_checkpoint sb Hgeo true d2 _ Hst2 ltac:(lia)) as W3. unfold wp in W3.
  simpl in run3. fold run3 in W3. rewrite formatted_journal, Hj in W3 by (done || lia).
  split; [done|]. split; [simpl; rewrite Hd2; apply formatted_metadata; (done || lia)|].
  destruct run3 as [[r3|e|] d3]; [|by destruct W3 as [_ W3]; specialize (W3 eq_refl)|done].
  destruct W3 as (es & [= <-] & _ & (_ & _ & Hd3 & _)). split; [done|]. simpl. rewrite Hd3.
  rewrite tx_log_replay. unfold checkpointed. simpl.
  rewrite (metadata_on_disk_proper sb Hgeo _ _ (same_home_clear sb Hgeo (apply_writes ws (formatted sb v1))
    ltac:(rewrite zlen_apply_writes; lia))).
  by apply stale_log_metadata.
Qed.

