(* ===== verification/Fsck.v ===== *)
(** * The consistency check: [fsck.rs]

    [check_device] loads every metadata region and checks what no single
    region can: that inodes own allocated blocks once, that the namespace is a
    tree of directories with every inode in it, and that the counts agree.
    The namespace audit is in [Namespace]. *)

From S2P Require Import Prelude Bytes BTree Block CrashDevice Allocation Superblock Region AllocationDisk.
From S2P Require Import Journal JournalCodec JournalRegion Recovery TransactionImage.
From S2P Require Import TransactionPlan InodeCodec RecordTable InodeTable DirectoryCodec.
From S2P Require Import DirectoryTable Atomicity CreateTx Format Namespace.

Record FsckReport : Type := mkFsckReport {
  fr_total_blocks : Z;
  fr_reserved_blocks : Z;
  fr_data_blocks : Z;
  fr_allocated_blocks : Z;
  fr_free_blocks : Z;
  fr_inode_records : Z;
  fr_referenced_blocks : Z;
  fr_directory_entries : Z;
  fr_journal_entries : Z;
  fr_journal_writes : Z;
  fr_committed_transactions : Z;
  fr_pending_transaction : option TransactionId;
}.

(** One block of one inode. *)
Definition audit_block (superblock : Superblock) (reserved : Z) (allocator : BlockAllocator)
    (inode : PersistedInode) (acc : gmap Z Z * Z) (block : Z) : outcome io_error (gmap Z Z * Z) :=
  let '(owners, referenced) := acc in
  let named := "inode " +:+ pretty (id inode) +:+ " references " in
  try? ensure (negb ((block <? reserved) || (total_blocks superblock <=? block)))
    (invalid_data (named +:+ "reserved or out-of-range block " +:+ pretty block)) in
  let? allocated := map_err (fun error => invalid_data (allocation_error_fmt error)) (is_owned allocator block) in
  try? ensure allocated (invalid_data (named +:+ "unallocated block " +:+ pretty block)) in
  match owners !! block with
  | Some previous =>
      Err (invalid_data ("block " +:+ pretty block +:+ " is owned by both inode " +:+ pretty previous +:+
                           " and inode " +:+ pretty (id inode)))
  | None =>
      let? referenced := ok_or (checked_add referenced 1) (invalid_data "inode reference count overflow") in
      Ok (<[block := id inode]> owners, referenced)
  end.

Definition audit_inode_ownership (superblock : Superblock) (allocator : BlockAllocator)
    (inodes : list PersistedInode) : outcome io_error Z :=
  let? reserved := reserved_blocks superblock in
  let? acc := ofold (fun acc inode => ofold (audit_block superblock reserved allocator inode) acc (blocks inode))
                (∅, 0) inodes in
  Ok acc.2.

(** One entry of the journal: the active transaction and the two counts. *)
Definition audit_journal_entry (superblock : Superblock) (reserved : Z) (acc : option TransactionId * Z * Z)
    (entry : JournalEntry) : outcome io_error (option TransactionId * Z * Z) :=
  let '(active, writes, committed) := acc in
  match entry with
  | Begin txid =>
      try? ensure (bool_decide (active = None)) (invalid_data "nested journal transaction") in
      Ok (Some txid, writes, committed)
  | Write txid b _ =>
      try? ensure (bool_decide (active = Some txid))
             (invalid_data "journal write does not match active transaction") in
      let? allocation := allocation_range superblock in
      let? inode := inode_range superblock in
      let? directory := directory_range superblock in
      let data_home := (reserved <=? b) && (b <? total_blocks superblock) in
      try? ensure (contains allocation b || contains inode b || contains directory b || data_home)
             (invalid_data "journal write targets forbidden or invalid block") in
      let? writes := ok_or (checked_add writes 1) (invalid_data "journal write count overflow") in
      Ok (active, writes, committed)
  | Commit txid =>
      try? ensure (bool_decide (active = Some txid))
             (invalid_data "journal commit does not match active transaction") in
      let? committed := ok_or (checked_add committed 1)
                          (invalid_data "committed transaction count overflow") in
      Ok (None, writes, committed)
  end.

Definition audit_journal (superblock : Superblock) (entries : list JournalEntry)
    (allocated_blocks free_blocks inode_records referenced_blocks directory_entries : Z)
    : outcome io_error FsckReport :=
  let? reserved := reserved_blocks superblock in
  let? data_blocks := ok_or (checked_sub (total_blocks superblock) reserved)
                        (invalid_data "reserved metadata exceeds filesystem size") in
  let? sum := ok_or (checked_add allocated_blocks free_blocks) (invalid_data "allocation accounting overflow") in
  try? ensure (sum =? data_blocks) (invalid_data "allocation accounting mismatch") in
  let? (active, writes, committed) := ofold (audit_journal_entry superblock reserved) (None, 0, 0) entries in
  Ok (mkFsckReport (total_blocks superblock) reserved data_blocks allocated_blocks free_blocks inode_records
        referenced_blocks directory_entries (zlen entries) writes committed active).

Definition with_context (layer : string) (error : io_error) : io_error :=
  IoError (err_kind error) ("fsck " +:+ layer +:+ ": " +:+ err_message error).

Section Device.
Context `{BlockDevice D}.

Definition check_device : M D FsckReport :=
  let! superblock := imap_err (with_context "superblock") read_superblock in
  let! allocator := imap_err (with_context "allocation") (load_allocator superblock) in
  let! inodes := imap_err (with_context "inode table") (load_inode_table superblock) in
  let! referenced_blocks := ilift (audit_inode_ownership superblock allocator inodes) in
  let! directory_entries := imap_err (with_context "directory table") (load_directory_table superblock) in
  do! ilift (audit_namespace inodes directory_entries) in
  let! entries := imap_err (with_context "journal") (load_journal_image superblock) in
  let! free := ilift (free_blocks allocator) in
  ilift (audit_journal superblock entries (Allocation.allocated_blocks allocator) free (zlen inodes)
           referenced_blocks (zlen directory_entries)).
End Device.

(** ** Ownership *)

(** Every block an inode lists. *)
Definition inode_references (inodes : list PersistedInode) : list Z := mjoin (blocks <$> inodes).

(** Inodes own allocated data blocks, each at most one inode and once. *)
Definition ownership_sound (a : BlockAllocator) (inodes : list PersistedInode) : Prop :=
  Forall (fun b => b ∈ owned a) (inode_references inodes) /\ NoDup (inode_references inodes).

Section Ownership.
Context (sb : Superblock) (Hgeo : geometry sb) (a : BlockAllocator) (Ha : allocator_of sb a).

Definition claims_ok (seen : list Z) : Prop := Forall (fun b => b ∈ owned a) seen /\ NoDup seen.

(** The loop state after the references [seen]. *)
Definition owners_of (seen : list Z) (acc : gmap Z Z * Z) : Prop :=
  claims_ok seen /\ (forall b, is_Some (acc.1 !! b) <-> b ∈ seen) /\ acc.2 = zlen seen.

Lemma claims_ok_prefix l1 l2 : claims_ok (l1 ++ l2) -> claims_ok l1.
Proof. intros [[? _]%Forall_app (? & _)%NoDup_app]. by split. Qed.

(** Distinct allocated blocks are fewer than the device has. *)
Lemma claims_bound seen : claims_ok seen -> zlen seen <= total_blocks sb.
Proof.
  intros [Hall Hnd]. pose proof (geometry_bounds sb Hgeo). destruct Ha as [Hok Ht Hr].
  assert (Hs : zlen seen <= zlen (zrange 0 (total_blocks sb))).
  { unfold zlen. apply inj_le, submseteq_length, NoDup_submseteq; [done|]. intros b Hb.
    rewrite Forall_forall in Hall. apply Hall, elem_of_owned in Hb as [Hrg _].
    rewrite Hr, Ht in Hrg. apply elem_of_zrange. unfold reserved in Hrg. lia. }
  rewrite zlen_zrange in Hs by lia. lia.
Qed.

Lemma audit_block_spec inode seen acc b : owners_of seen acc ->
  owp (audit_block sb (reserved sb) a inode acc b)
    (owners_of (seen ++ [b])) (fun _ => ~ claims_ok (seen ++ [b])).
Proof.
  intros (Hseen & Hown & Hn). pose proof (geometry_bounds sb Hgeo). destruct Ha as [Hok Ht Hr].
  destruct acc as [owners n]. simpl in *. unfold audit_block. apply owp_bind.
  assert (Hin : claims_ok (seen ++ [b]) -> b ∈ owned a /\ b ∉ seen).
  { intros [[_ Hb]%Forall_app (_ & Hd & _)%NoDup_app]. split; [by inversion Hb|].
    intros Hs. apply (Hd b Hs). by apply list_elem_of_singleton. }
  destruct ((b <? reserved sb) || (total_blocks sb <=? b)) eqn:Hrange; simpl.
  { intros [Hb _]%Hin. apply elem_of_owned in Hb as [Hb _]. rewrite Hr, Ht in Hb.
    apply orb_true_iff in Hrange. rewrite Z.ltb_lt, Z.leb_le in Hrange. lia. }
  apply orb_false_iff in Hrange. rewrite Z.ltb_ge, Z.leb_gt in Hrange. unfold reserved in Hrange.
  rewrite is_owned_spec by (done || lia). rewrite decide_False by lia. simpl.
  case_bool_decide as Hal; simpl; [|intros [Hb _]%Hin; tauto].
  destruct Hal as [Hlt|Hal]; [unfold reserved in *; lia|].
  destruct (owners !! b) as [p|] eqn:Hb; simpl.
  { intros [_ Hns]%Hin. apply Hns, Hown. eauto. }
  assert (Hfresh : b ∉ seen) by (intros [? ?]%Hown; congruence).
  assert (Hok' : claims_ok (seen ++ [b])).
  { destruct Hseen as [Hall Hnd]. split; [apply Forall_app; split; [done|by constructor]|].
    apply NoDup_app. split; [done|]. split; [|apply NoDup_singleton].
    intros x Hx ->%list_elem_of_singleton. done. }
  pose proof (claims_bound _ Hok'). rewrite zlen_app in *. change (zlen [b]) with 1 in *.
  rewrite checked_add_le by ulia. simpl. split; [done|]. split.
  - intros c. simpl. rewrite lookup_insert_is_Some', elem_of_app, list_elem_of_singleton, Hown. naive_solver.
  - simpl. rewrite zlen_app. change (zlen [b]) with 1. lia.
Qed.

Lemma audit_blocks_spec inode bs : forall seen acc, owners_of seen acc ->
  owp (ofold (audit_block sb (reserved sb) a inode) acc bs)
    (owners_of (seen ++ bs)) (fun _ => ~ claims_ok (seen ++ bs)).
Proof.
  induction bs as [|b bs IH]; intros seen acc Hs; simpl; [by rewrite app_nil_r|].
  apply owp_bind. rewrite cons_middle, app_assoc. eapply owp_mono; [by apply audit_block_spec|..]; simpl.
  - intros acc'. apply IH.
  - intros _ Hn Hc. apply Hn. by eapply claims_ok_prefix.
Qed.

Lemma audit_inodes_spec inodes : forall seen acc, owners_of seen acc ->
  owp (ofold (fun acc inode => ofold (audit_block sb (reserved sb) a inode) acc (blocks inode)) acc inodes)
    (owners_of (seen ++ inode_references inodes)) (fun _ => ~ claims_ok (seen ++ inode_references inodes)).
Proof.
  induction inodes as [|i inodes IH]; intros seen acc Hs; simpl; [by rewrite app_nil_r|].
  apply owp_bind. unfold inode_references. cbn [fmap list_fmap mjoin list_join]. rewrite app_assoc.
  eapply owp_mono; [by apply audit_blocks_spec|..]; simpl.
  - intros acc'. apply IH.
  - intros _ Hn Hc. apply Hn. by eapply claims_ok_prefix.
Qed.

Lemma audit_inode_ownership_spec inodes :
  owp (audit_inode_ownership sb a inodes)
    (fun n => ownership_sound a inodes /\ n = zlen (inode_references inodes))
    (fun _ => ~ ownership_sound a inodes).
Proof.
  unfold audit_inode_ownership. rewrite (reserved_blocks_wf _ (geo_wf _ Hgeo)). ostep. apply owp_bind.
  eapply owp_mono; [apply (audit_inodes_spec inodes [] (∅, 0))|..]; simpl.
  - split; [split; constructor|]. split; [|done]. intros b. simpl. rewrite lookup_empty. split; [by intros []|set_solver].
  - intros acc (Hc & _ & Hn). by split.
  - intros _ Hn. exact Hn.
Qed.
End Ownership.

(** ** The journal *)

Definition is_write (entry : JournalEntry) : bool := match entry with Write _ _ _ => true | _ => false end.

(** The transaction that is open at the end of a log. *)
Definition open_tx (active : option TransactionId) (es : list JournalEntry) : option TransactionId :=
  foldl (fun active entry => match entry with Begin t => Some t | Write _ _ _ => active | Commit _ => None end)
    active es.

Definition write_count (es : list JournalEntry) : Z := zlen (List.filter is_write es).

Section JournalAudit.
Context (sb : Superblock) (Hgeo : geometry sb).

Lemma audit_write_home t b data w c : home_block sb b -> w + 1 <= u64_max ->
  audit_journal_entry sb (reserved sb) (Some t, w, c) (Write t b data) = Ok (Some t, w + 1, c).
Proof.
  intros Hb Hw. pose proof (geometry_bounds sb Hgeo). cbn [audit_journal_entry].
  rewrite bool_decide_eq_true_2 by done. ostep.
  rewrite (allocation_range_wf _ (geo_wf _ Hgeo)), (inode_range_wf _ (geo_wf _ Hgeo)),
    (directory_range_wf _ (geo_wf _ Hgeo)). ostep. rewrite checked_add_le by done. ostep.
  match goal with |- obind (ensure ?x _) _ = _ => assert (Hx : x = true) end; [|by rewrite Hx].
  unfold contains, home_block, reserved in *. cbn [fst snd].
  rewrite !orb_true_iff, !andb_true_iff, !Z.leb_le, !Z.ltb_lt. lia.
Qed.

Lemma audit_journal_loop es : forall act pending w c txs,
  scan act pending es = Some txs -> Forall (home_entry sb) es -> 0 <= w -> 0 <= c ->
  w + zlen es <= u64_max -> c + zlen es <= u64_max ->
  ofold (audit_journal_entry sb (reserved sb)) (act, w, c) es =
    Ok (open_tx act es, w + write_count es, c + zlen txs).
Proof.
  induction es as [|e es IH]; intros act pending w c txs Hs Hh Hw Hc Hlw Hlc.
  { simpl in *. simplify_eq. change (zlen []) with 0 in *. unfold write_count. simpl.
    change (zlen []) with 0. by rewrite !Z.add_0_r. }
  apply Forall_cons in Hh as [He Hh]. rewrite zlen_cons in *. pose proof (zlen_nonneg es). cbn [ofold].
  destruct e as [t|t b data|t]; cbn [scan] in Hs; case_bool_decide as Hact; try done; subst act.
  - cbn [audit_journal_entry]. rewrite bool_decide_eq_true_2 by done. ostep. by apply (IH _ _ _ _ _ Hs); try lia.
  - rewrite audit_write_home by (done || lia). ostep. rewrite (IH _ _ _ _ _ Hs) by (done || lia).
    unfold write_count. simpl. rewrite zlen_cons. do 3 f_equal. lia.
  - apply fmap_Some in Hs as (txs' & Hs & ->). cbn [audit_journal_entry]. rewrite bool_decide_eq_true_2 by done. ostep.
    rewrite checked_add_le by lia. ostep. rewrite (IH _ _ _ _ _ Hs) by (done || lia). rewrite zlen_cons.
    unfold write_count. simpl. do 2 f_equal. lia.
Qed.
End JournalAudit.

(** ** What a checked disk holds *)

Lemma allocator_on_disk_of sb v a :
  geometry sb -> image_ok (total_blocks sb) v -> allocator_on_disk sb v = Ok a -> allocator_of sb a.
Proof.
  intros Hgeo Hv Ha. unfold allocator_on_disk in Ha. apply obind_Ok in Ha as (bitmap & Hd & Ha).
  apply (decode_image_canonical sb Hgeo) in Hd as (Hl & _); [|by eapply Forall_disk_region].
  destruct (restore_allocator_Ok sb Hgeo bitmap Hl) as (a' & Ha' & Hof & _). congruence.
Qed.

Lemma table_on_disk_storable {R K} `{Countable K} (T : TableFormat R K) `{!TableLaws T} sb v rs :
  geometry sb -> image_ok (total_blocks sb) v -> table_on_disk T sb v = Ok rs -> storable T sb rs.
Proof.
  intros Hgeo Hv Hd. pose proof (geometry_bounds sb Hgeo). pose proof (region_law (T:=T) sb Hgeo).
  pose proof (table_len_bounds T sb Hgeo). unfold reserved in *.
  assert (Hl : zlen (disk_region v (tf_start T sb) (tf_blocks T sb)) = tf_blocks T sb * BLOCK_SIZE)
    by (eapply zlen_disk_region; [done|lia..]).
  destruct (table_decode_image_canonical T _ rs (Forall_disk_region _ _ _ _ Hv) ltac:(rewrite Hl; lia) Hd)
    as (Hval & Hfit & _).
  rewrite Hl in Hfit. by split.
Qed.

(** A sound disk: every region decodes, and the metadata fits together. *)
Record disk_sound (v : list block) (sb : Superblock) (a : BlockAllocator) (inodes : list PersistedInode)
    (entries : list PersistedDirectoryEntry) (es : list JournalEntry) : Prop := {
  sound_superblock : superblock_on_disk v = Ok sb;
  sound_size : total_blocks sb = zlen v;
  sound_metadata : metadata_on_disk sb v = Ok (a, inodes, entries);
  sound_journal : journal_on_disk sb v = Ok es;
  sound_ownership : ownership_sound a inodes;
  sound_namespace : namespace_ok inodes entries;
}.

Definition metadata_sound (m : metadata) : Prop :=
  let '(a, inodes, entries) := m in ownership_sound a inodes /\ namespace_ok inodes entries.

(** What [fsck] reports about it. *)
Definition fsck_report (sb : Superblock) (a : BlockAllocator) (inodes : list PersistedInode)
    (entries : list PersistedDirectoryEntry) (es : list JournalEntry) : FsckReport :=
  let data := total_blocks sb - reserved sb in
  let owned_blocks := Z.of_nat (size (owned a)) in
  mkFsckReport (total_blocks sb) (reserved sb) data owned_blocks (data - owned_blocks) (zlen inodes)
    (zlen (inode_references inodes)) (zlen entries) (zlen es) (write_count es)
    (zlen (default [] (committed_txs es))) (open_tx None es).

(** All of it is a function of the disk. *)
Lemma disk_sound_unique v sb a inodes entries es sb' a' inodes' entries' es' :
  disk_sound v sb a inodes entries es -> disk_sound v sb' a' inodes' entries' es' ->
  (sb, a, inodes, entries, es) = (sb', a', inodes', entries', es').
Proof.
  intros [H1 _ H2 H3 _ _] [H1' _ H2' H3' _ _]. rewrite H1' in H1. simplify_eq.
  rewrite H2' in H2. simplify_eq. rewrite H3' in H3. by simplify_eq.
Qed.

Lemma superblock_on_disk_geometry v sb :
  Forall block_ok v -> zlen v * BLOCK_SIZE <= u64_max -> superblock_on_disk v = Ok sb ->
  total_blocks sb = zlen v -> geometry sb.
Proof.
  intros Hv Hb Hs Ht. unfold superblock_on_disk in Hs. destruct (v !! 0%nat) as [b|] eqn:Hb0; [|done].
  apply encode_decode in Hs as [Hwf _]; [|by eapply Forall_lookup_1]. split; [done|lia].
Qed.

Lemma audit_journal_report sb a inodes entries es :
  geometry sb -> allocator_of sb a -> log_ok sb es -> zlen es <= u64_max ->
  audit_journal sb es (Allocation.allocated_blocks a)
    (Allocation.total_blocks a - Allocation.reserved_blocks a - Allocation.allocated_blocks a)
    (zlen inodes) (zlen (inode_references inodes)) (zlen entries) = Ok (fsck_report sb a inodes entries es).
Proof.
  intros Hgeo [Hok Ht Hr] [[txs Hs] Hh] Hl. pose proof (geometry_bounds sb Hgeo) as Hb.
  pose proof (ok_count _ Hok) as Hc. pose proof (zlen_nonneg es). unfold audit_journal.
  rewrite (reserved_blocks_wf _ (geo_wf _ Hgeo)), Ht, Hr, Hc. ostep.
  unfold checked_sub. rewrite (proj2 (Z.leb_le _ _)) by (unfold reserved; lia). ostep.
  rewrite checked_add_le by (unfold reserved; ulia). ostep.
  rewrite (proj2 (Z.eqb_eq _ _)) by lia. ostep.
  rewrite (audit_journal_loop sb Hgeo es None [] 0 0 txs) by (done || lia). ostep.
  unfold fsck_report. rewrite Hs. done.
Qed.

(** A failed load or audit refutes soundness. *)
Ltac unsound :=
  intros ? ? ? ? ? [Hs ? Hm ? ? ?]; unfold metadata_on_disk in Hm; inv_ok; simplify_eq; congruence.

Section CheckSpec.
Context `{DeviceLaws D}.

Lemma wp_check_device h (d : D) v s :
  at_state h d v s -> 1 <= zlen v -> zlen v * BLOCK_SIZE <= u64_max ->
  wp check_device
    (fun r d' => at_state h d' v s /\ exists sb a inodes entries es,
       disk_sound v sb a inodes entries es /\ r = fsck_report sb a inodes entries es)
    (fun _ d' => at_state false d' v s /\ (h = true -> forall sb a inodes entries es, ~ disk_sound v sb a inodes entries es)) d.
Proof.
  intros Hst H1 Hbytes. pose proof (at_state_image _ _ _ _ Hst) as Hv. unfold check_device.
  apply wp_bind, wp_map_err. eapply wp_mono; [by apply wp_read_superblock|..]; simpl.
  2: { intros e d' [Hc Hh]. split; [done|]. intros Ht.
       destruct (Hh Ht) as [He|(sb & Hsb & Hn)]; [|]; unsound. }
  intros sb d1 (Hst1 & Hsb & Hlen). assert (Hgeo : geometry sb).
  { apply (superblock_on_disk_geometry v); [apply Hv|done..]. }
  rewrite <- Hlen in Hv. symmetry in Hlen.
  apply wp_bind, wp_map_err. eapply wp_mono; [by apply wp_load_allocator|..]; simpl.
  2: { intros e d' [Hc Hh]. split; [done|]. intros Ht. specialize (Hh Ht). unsound. }
  intros a d2 [Hst2 Ha]. pose proof (allocator_on_disk_of _ _ _ Hgeo Hv Ha) as Hof.
  apply wp_bind, wp_map_err. change (load_inode_table sb) with (load_table (D:=D) inode_format sb).
  eapply wp_mono; [by apply (wp_load_table inode_format)|..]; simpl.
  2: { intros e d' [Hc Hh]. split; [done|]. intros Ht. specialize (Hh Ht). unsound. }
  intros inodes d3 [Hst3 Hi]. destruct (table_on_disk_storable inode_format sb v inodes Hgeo Hv Hi) as [(_ & Hids & _) _].
  apply wp_bind, wp_lift. pose proof (audit_inode_ownership_spec sb Hgeo a Hof inodes) as Hown. unfold owp in Hown.
  destruct (audit_inode_ownership sb a inodes) as [n|e|]; [destruct Hown as [Hown ->]| |done].
  2: { split; [by eapply at_state_weaken|]. intros _. unsound. }
  apply wp_bind, wp_map_err. change (load_directory_table sb) with (load_table (D:=D) directory_format sb).
  eapply wp_mono; [by apply (wp_load_table directory_format)|..]; simpl.
  2: { intros e d' [Hc Hh]. split; [done|]. intros Ht. specialize (Hh Ht). unsound. }
  intros entries d4 [Hst4 He]. apply wp_bind, wp_lift.
  pose proof (audit_namespace_spec inodes entries Hids) as Hns. unfold owp in Hns.
  destruct (audit_namespace inodes entries) as [[]|e|]; [| |done].
  2: { split; [by eapply at_state_weaken|]. intros _. unsound. }
  apply wp_bind, wp_map_err. eapply wp_mono; [by apply wp_load_journal_image|..]; simpl.
  2: { intros e d' [Hc Hh]. split; [done|]. intros Ht. specialize (Hh Ht). unsound. }
  intros es d5 [Hst5 Hes]. destruct (journal_on_disk_ok sb Hgeo v es Hv Hes) as (_ & Hlog & Hl).
  apply wp_bind, wp_lift. rewrite (free_blocks_ok a (of_ok _ _ Hof)). apply wp_lift.
  rewrite (audit_journal_report sb a inodes entries es) by done. split; [done|].
  exists sb, a, inodes, entries, es. split; [|done]. split; [done|done| |done|done|done].
  unfold metadata_on_disk. by rewrite Ha, Hi, He.
Qed.
End CheckSpec.


(** ** The check after a crash *)

Section AfterCrash.
Context (sb : Superblock) (Hgeo : geometry sb).

#[global] Instance superblock_on_disk_proper : Proper (same_home sb ==> eq) superblock_on_disk.
Proof.
  intros v s [_ Hb]. pose proof (geometry_bounds sb Hgeo). unfold superblock_on_disk.
  specialize (Hb 0 ltac:(lia) ltac:(lia)). change (Z.to_nat 0) with 0%nat in Hb. by rewrite Hb.
Qed.

(** A disk with an empty journal and the home of a disk with sound metadata
    passes the check, with the report of that metadata. *)
Lemma check_settled (d : CrashDevice) v s a inodes entries :
  at_state true d s s -> zlen s = total_blocks sb -> journal_on_disk sb s = Ok [] -> same_home sb v s ->
  superblock_on_disk v = Ok sb -> metadata_on_disk sb v = Ok (a, inodes, entries) ->
  ownership_sound a inodes -> namespace_ok inodes entries ->
  (check_device d).1 = Ok (fsck_report sb a inodes entries []).
Proof.
  intros Hst Hl Hj Hh Hsb Hm Ho Hn. pose proof (geometry_bounds sb Hgeo).
  assert (Hsound : disk_sound s sb a inodes entries []).
  { split; [|done| |done..].
    - by rewrite <- (superblock_on_disk_proper _ _ Hh).
    - by rewrite <- (metadata_on_disk_proper sb Hgeo _ _ Hh). }
  pose proof (wp_check_device true d s s Hst ltac:(lia) ltac:(rewrite Hl; apply Hgeo)) as Hwp. unfold wp in Hwp.
  destruct (check_device d) as [[r|e|] d']; simpl; [|by destruct Hwp as [_ Hwp]; destruct (Hwp eq_refl _ _ _ _ _ Hsound)|done].
  destruct Hwp as (_ & sb' & a' & i' & e' & es' & Hs' & ->).
  pose proof (disk_sound_unique _ _ _ _ _ _ _ _ _ _ _ Hsound Hs'). by simplify_eq.
Qed.
End AfterCrash.

(** The superblock survives every transaction. *)
Lemma superblock_home_writes sb v ws :
  geometry sb -> image_ok (total_blocks sb) v -> home_writes_ok sb ws ->
  superblock_on_disk (apply_writes ws v) = superblock_on_disk v.
Proof.
  intros Hgeo (Hl & _) Hws. pose proof (geometry_bounds sb Hgeo). unfold superblock_on_disk.
  rewrite apply_writes_lookup by (unfold zlen in Hl; lia). rewrite last_write_notin; [done|].
  unfold write_keys. intros (k & Hk & Hin)%list_elem_of_fmap. apply list_elem_of_fmap in Hin as (w & -> & Hin).
  pose proof (proj1 (Forall_forall _ _) Hws w Hin) as [Hh _]. unfold home_block in Hh. lia.
Qed.

(** A file system that passes [check_device] keeps passing it across
    crashes.  Take a sound disk with nothing left to recover and sound new
    metadata.  Whatever operation [store_create_metadata_journaled] is
    interrupted at, and however often recovery is interrupted, after the first
    recovery that completes [check_device] succeeds, and its report is the
    one for the new metadata or, only if the store failed, the one for the old
    metadata, with an empty journal. *)
Theorem create_crash_fsck sb a inodes entries v a0 inodes0 entries0 es0 (d : CrashDevice) arms :
  zlen v * BLOCK_SIZE <= u64_max -> disk_sound v sb a0 inodes0 entries0 es0 -> quiescent sb v ->
  allocator_of sb a -> create_storable sb inodes entries -> ownership_sound a inodes -> namespace_ok inodes entries ->
  at_state false d v v ->
  let run := store_create_metadata_journaled sb a inodes entries d in
  exists r d', recover_journal_and_checkpoint sb (reboot (restarts sb arms run.2)) = (Ok r, d') /\
    ((check_device d').1 = Ok (fsck_report sb a inodes entries []) \/
     (exists e, run.1 = Err e) /\ (check_device d').1 = Ok (fsck_report sb a0 inodes0 entries0 [])).
Proof.
  intros Hbytes [Hsb Hsize Hm0 _ Ho0 Hn0] Hq Ha Hs Ho Hn Hst run.
  pose proof (at_state_image _ _ _ _ Hst) as Hv. rewrite <- Hsize in Hv.
  assert (Hgeo : geometry sb) by (apply (superblock_on_disk_geometry v); [apply Hv|done..]).
  destruct (create_writes_ok sb a inodes entries v Hgeo Ha Hs) as [Hws _].
  pose proof (storable_typed _ _ _ (proj1 Hs)) as Hi. pose proof (storable_typed _ _ _ (proj2 Hs)) as He.
  destruct (crash_atomic sb Hgeo (store_create_metadata_journaled sb a inodes entries) v
    (create_writes sb a inodes entries v) arms d Hv Hws) as (r & d' & Hr & s & Hst' & Hj & Hcase).
  { eapply wp_mono; [by apply wp_create_settled|simpl..]; [by intros ? ? []|]. intros e d' [_ (s & ? & ? & _)]. exists s. split; [done|]. by apply wal_state_recoverable. }
  exists r, d'. split; [done|]. destruct Hcase as [[Herr (Him & _ & Hh)]|(Him & _ & Hh)].
  - right. split; [done|]. eapply check_settled; (done || apply Him).
  - left. eapply check_settled; try (done || apply Him).
    + by rewrite (superblock_home_writes sb).
    + by apply create_metadata.
Qed.
