(* ===== verification/Transition.v ===== *)
(** * Metadata transitions

    The operations that load the durable metadata, compute new metadata and
    store it in one transaction share this pattern.  [implements] is its
    contract: the operation does what a pure function of the metadata says, or
    nothing, and a crash leaves a disk from which recovery gets to one of the
    two.  The rules below take an operation through its loads, its refusals
    and its store. *)

From S2P Require Import Prelude Bytes Block CrashDevice Allocation Superblock Region AllocationDisk.
From S2P Require Import Journal JournalCodec JournalRegion Recovery TransactionImage.
From S2P Require Import TransactionPlan InodeCodec RecordTable InodeTable DirectoryCodec.
From S2P Require Import DirectoryTable Atomicity CreateTx Format Namespace Fsck.

(** Evaluate the pure function an operation follows, as far as its steps are
    known. *)
Ltac pure_steps :=
  simpl; repeat match goal with
  | H : ?m = _ |- context [obind ?m _] => rewrite H; simpl
  | H : ?c = _ |- context [if ?c then _ else _] => rewrite H; simpl
  end; done.

(** ** Regions that are already on the disk *)

Lemma region_unchanged v r N :
  image_ok N v -> 0 <= ri_start r -> 0 <= ri_blocks r -> ri_start r + ri_blocks r <= N ->
  disk_region v (ri_start r) (ri_blocks r) = ri_image r -> changed_writes v (writes_of r) = [].
Proof.
  intros (Hl & Hv & _) H0 Hn HN Hr. unfold changed_writes. apply elem_of_nil_inv. intros w Hw.
  apply list_elem_of_filter in Hw as [Hne Hw]. apply Hne. unfold writes_of, region_blocks in Hw.
  apply list_elem_of_fmap in Hw as (b & -> & Hb). apply elem_of_zrange in Hb. simpl. rewrite <- Hr.
  unfold disk_region. rewrite <- sub_mjoin by (try apply Forall_sub; rewrite ?zlen_sub; (done || lia)).
  unfold sub. rewrite lookup_take_lt, lookup_drop by lia. f_equal. lia.
Qed.

Lemma byte_ext x y : is_byte x -> is_byte y -> (forall i, 0 <= i < 8 -> Z.testbit x i = Z.testbit y i) -> x = y.
Proof.
  intros Hx Hy Hb. apply Z.bits_inj'. intros i Hi. destruct (decide (i < 8)); [apply Hb; lia|].
  assert (Hhi : forall z, is_byte z -> Z.testbit z i = false).
  { intros z Hz. unfold is_byte, u8_max in Hz. destruct (decide (z = 0)) as [->|]; [apply Z.testbit_0_l|].
    apply Z.bits_above_log2; [lia|]. apply Z.log2_lt_pow2; [lia|].
    assert (256 <= 2 ^ i) by (change 256 with (2 ^ 8); apply Z.pow_le_mono_r; lia). lia. }
  by rewrite !Hhi.
Qed.

(** A bitmap is its bits. *)
Lemma bitmap_ext bm1 bm2 :
  zlen bm1 = zlen bm2 -> Forall is_byte bm1 -> Forall is_byte bm2 ->
  (forall b, 0 <= b < zlen bm1 * 8 -> bitmap_bit bm1 b = bitmap_bit bm2 b) -> bm1 = bm2.
Proof.
  intros Hl H1 H2 Hb. apply list_eq_same_length with (length bm1); [unfold zlen in Hl; lia|done|].
  intros i x y Hi Hx Hy. apply byte_ext;
    [exact (Forall_lookup_1 _ _ _ _ H1 Hx)|exact (Forall_lookup_1 _ _ _ _ H2 Hy)|].
  intros j Hj. specialize (Hb (Z.of_nat i * 8 + j) ltac:(unfold zlen; lia)). unfold bitmap_bit in Hb.
  rewrite Z.div_add_l, (Z.div_small j 8), Z.add_0_r, Nat2Z.id, Hx, Hy in Hb by lia. simpl in Hb.
  replace ((Z.of_nat i * 8 + j) mod 8) with j in Hb; [done|].
  rewrite Z.add_comm, Z.mod_add, Z.mod_small by lia. done.
Qed.

Section OnDisk.
Context (sb : Superblock) (Hgeo : geometry sb) (v : list block) (Hv : image_ok (total_blocks sb) v).

Lemma bitmap_of_allocator bm1 bm2 a :
  zlen bm1 = bitmap_size sb -> zlen bm2 = bitmap_size sb -> Forall is_byte bm1 -> Forall is_byte bm2 ->
  data_bits_only sb bm1 -> data_bits_only sb bm2 -> marks sb bm1 a -> marks sb bm2 a -> bm1 = bm2.
Proof.
  intros L1 L2 B1 B2 D1 D2 M1 M2. apply bitmap_ext; [congruence|done|done|]. intros b Hb.
  apply eq_true_iff_eq. split; intros Hbit.
  - pose proof (D1 b Hb Hbit). by apply M2, M1.
  - pose proof (D2 b ltac:(rewrite L2, <- L1; done) Hbit). by apply M1, M2.
Qed.

Lemma allocator_region_on_disk a :
  allocator_on_disk sb v = Ok a ->
  disk_region v (allocation_start sb) (allocation_blocks sb) = allocation_image sb a.
Proof.
  intros Hd. pose proof (allocator_on_disk_of _ _ _ Hgeo Hv Hd) as Ha.
  unfold allocator_on_disk in Hd. apply obind_Ok in Hd as (bitmap & Hd & Hr).
  apply (decode_image_canonical sb Hgeo) in Hd as (L1 & B1 & D1 & ->); [|by eapply Forall_disk_region].
  destruct (restore_allocator_Ok sb Hgeo bitmap L1) as (a' & Ha' & _ & M1). rewrite Ha' in Hr. simplify_eq.
  destruct (render_allocator_Ok sb Hgeo a Ha) as (bm2 & Hr & L2 & B2 & D2 & M2).
  unfold allocation_image. rewrite Hr. f_equal. by eapply bitmap_of_allocator.
Qed.

Lemma table_region_on_disk {R K} `{Countable K} (T : TableFormat R K) `{!TableLaws T} rs :
  table_on_disk T sb v = Ok rs ->
  disk_region v (tf_start T sb) (tf_blocks T sb) = ri_image (table_region T sb rs).
Proof.
  intros Hd. pose proof (geometry_bounds sb Hgeo). pose proof (region_law (T:=T) sb Hgeo).
  pose proof (table_len_bounds T sb Hgeo). unfold reserved in *.
  assert (Hl : zlen (disk_region v (tf_start T sb) (tf_blocks T sb)) = tf_blocks T sb * BLOCK_SIZE)
    by (eapply zlen_disk_region; [done|lia..]).
  destruct (table_decode_image_canonical T _ rs (Forall_disk_region _ _ _ _ Hv) ltac:(rewrite Hl; lia) Hd)
    as (_ & _ & Hi). rewrite Hl in Hi. exact Hi.
Qed.

Lemma allocator_unchanged a :
  allocator_on_disk sb v = Ok a -> changed_writes v (writes_of (allocation_region sb a)) = [].
Proof.
  intros Hd. pose proof (geometry_bounds sb Hgeo). eapply region_unchanged; [done|simpl; lia..|].
  by apply allocator_region_on_disk.
Qed.

Lemma table_unchanged {R K} `{Countable K} (T : TableFormat R K) `{!TableLaws T} rs :
  table_on_disk T sb v = Ok rs -> changed_writes v (writes_of (table_region T sb rs)) = [].
Proof.
  intros Hd. pose proof (geometry_bounds sb Hgeo). pose proof (region_law (T:=T) sb Hgeo). unfold reserved in *.
  eapply region_unchanged; [done|simpl; lia..|]. by apply table_region_on_disk.
Qed.

(** Only the directory region changes when only the entries do. *)
Lemma create_writes_directory a inodes entries :
  allocator_on_disk sb v = Ok a -> table_on_disk inode_format sb v = Ok inodes ->
  create_writes sb a inodes entries v = changed_writes v (plan_writes [table_region directory_format sb entries]).
Proof.
  intros Ha Hi. unfold create_writes, create_plan. rewrite !plan_writes_cons, !changed_writes_app.
  rewrite allocator_unchanged, (table_unchanged inode_format) by done. done.
Qed.

Lemma create_writes_same a inodes entries :
  metadata_on_disk sb v = Ok (a, inodes, entries) -> create_writes sb a inodes entries v = [].
Proof.
  unfold metadata_on_disk. intros Hm. inv_ok. rewrite create_writes_directory by done.
  rewrite plan_writes_cons, changed_writes_app, (table_unchanged directory_format) by done. done.
Qed.
End OnDisk.

(** ** The contract of an operation *)

(** What an operation may ask for: a value that stands for a set of block
    writes, and for which the code can build them. *)
Class Target (sb : Superblock) (v : list block) (T : Type) : Type := {
  target_writes : T -> list (Z * block);
  target_storable : T -> Prop;
}.
#[global] Arguments target_writes sb v {T _} _.
#[global] Arguments target_storable sb v {T _} _.

(** The blocks that turn the disk [v] into one with metadata [m], and when [m]
    can be encoded. *)
Definition new_writes (sb : Superblock) (v : list block) (m : metadata) : list (Z * block) :=
  let '(a, inodes, entries) := m in create_writes sb a inodes entries v.
Definition storable_metadata (sb : Superblock) (m : metadata) : Prop :=
  let '(a, inodes, entries) := m in allocator_of sb a /\ create_storable sb inodes entries.

#[global] Instance metadata_target sb v : Target sb v metadata := {|
  target_writes := new_writes sb v;
  target_storable := storable_metadata sb;
|}.

Definition typed_metadata (sb : Superblock) (m : metadata) : Prop :=
  let '(a, inodes, entries) := m in allocator_of sb a /\ Forall inode_typed inodes /\ Forall entry_typed entries.

Section Contract.
Context (sb : Superblock) (v : list block) `{Target sb v T}.

(** The change can be built, and it fits the journal. *)
Definition room (m : T) : Prop := target_storable sb v m /\ fits_log sb (target_writes sb v m).

Context `{DeviceLaws D} (h : bool).
Implicit Types (d : D).

(** The disk is the one [m] asks for and needs no recovery. *)
Definition becomes (m : T) d : Prop :=
  exists s, at_state h d s s /\ settled sb (apply_writes (target_writes sb v m) v) s.

(** Recovery will get to the old disk or to the one [m] asks for. *)
Definition may_become (m : T) d : Prop :=
  exists s, crashed d s /\ recoverable sb v (target_writes sb v m) s.

Context {B : Type} (res : outcome io_error (B * T)).

Definition tx_done (b : B) d : Prop := exists m, res = Ok (b, m) /\ room m /\ becomes m d.

Definition tx_abort (e : io_error) d : Prop :=
  (crashed d v \/ exists b m, res = Ok (b, m) /\ target_storable sb v m /\ may_become m d) /\
  (h = true -> crashed d v /\ (res = Err e \/ exists b m, res = Ok (b, m) /\ ~ room m)).

(** [prog] does what [res] says, all or nothing. *)
Definition implements {A} (f : A -> B) (prog : M D A) : Prop :=
  forall d, at_state h d v v -> wp prog (fun r d' => tx_done (f r) d') tx_abort d.
End Contract.

(** The disk [v] holds the metadata [m] and has nothing left to recover. *)
Record disk_holds (sb : Superblock) (v : list block) (m : metadata) : Prop := {
  holds_geometry : geometry sb;
  holds_image : image_ok (total_blocks sb) v;
  holds_quiescent : quiescent sb v;
  holds_metadata : metadata_on_disk sb v = Ok m;
}.

Section Rules.
Context {sb : Superblock} {v : list block}.
Context {a : BlockAllocator} {inodes : list PersistedInode} {entries : list PersistedDirectoryEntry}.
Context (Hd : disk_holds sb v (a, inodes, entries)).
Let Hgeo := holds_geometry _ _ _ Hd.
Let Hv := holds_image _ _ _ Hd.
Let Hlen : zlen v = total_blocks sb := proj1 Hv.
Let Hq := holds_quiescent _ _ _ Hd.
Let Hm := holds_metadata _ _ _ Hd.
Context `{DeviceLaws D} (h : bool).
Implicit Types (d : D).

Lemma on_disk_parts : allocator_on_disk sb v = Ok a /\ table_on_disk inode_format sb v = Ok inodes /\
  table_on_disk directory_format sb v = Ok entries.
Proof. pose proof Hm as H'. unfold metadata_on_disk in H'. by inv_ok. Qed.

Lemma on_disk_storable : storable_metadata sb (a, inodes, entries).
Proof.
  destruct on_disk_parts as (Ha & Hi & He). split; [by eapply allocator_on_disk_of|].
  split; by eapply table_on_disk_storable.
Qed.

(** *** Loads and refusals, whatever the operation is after *)

Section Generic.
Context {T : Type} `{!Target sb v T} {B : Type} (res : outcome io_error (B * T)).

Lemma tx_refuse e d : res = Err e -> at_state h d v v -> tx_abort sb v h res e d.
Proof. intros Hr Hst. apply at_state_crashed in Hst. split; [by left|]. auto. Qed.

(** Nothing to do. *)
Lemma tx_nothing b m d : res = Ok (b, m) -> target_storable sb v m -> target_writes sb v m = [] ->
  at_state h d v v -> tx_done sb v h res b d.
Proof.
  intros Hr Hs Hnil Hst. exists m. split; [done|]. split; [split; [done|]|exists v; split; [done|]]; rewrite Hnil.
  - by intros [].
  - by split_and!.
Qed.

Lemma tx_device_error e d : crashed d v -> h = false -> tx_abort sb v h res e d.
Proof. intros Hc ->. by split; [left|]. Qed.

Lemma wp_load_allocator_step {A} (k : BlockAllocator -> M D A) Q d :
  at_state h d v v ->
  (forall d', at_state h d' v v -> wp (k a) Q (tx_abort sb v h res) d') ->
  wp (ibind (load_allocator sb) k) Q (tx_abort sb v h res) d.
Proof.
  intros Hst Hk. destruct on_disk_parts as (Ha & _). apply wp_bind.
  eapply wp_mono; [by apply wp_load_allocator|..]; simpl.
  - intros a' d' [Hst' Ha']. rewrite Ha in Ha'. simplify_eq. auto.
  - intros e d' [Hc%at_state_crashed Hh]. apply tx_device_error; [done|]. destruct h; [|done]. specialize (Hh eq_refl). congruence.
Qed.

Lemma wp_load_inodes_step {A} (k : list PersistedInode -> M D A) Q d :
  at_state h d v v ->
  (forall d', at_state h d' v v -> wp (k inodes) Q (tx_abort sb v h res) d') ->
  wp (ibind (load_inode_table sb) k) Q (tx_abort sb v h res) d.
Proof.
  intros Hst Hk. destruct on_disk_parts as (_ & Hi & _). apply wp_bind.
  change (load_inode_table sb) with (load_table (D:=D) inode_format sb).
  eapply wp_mono; [by apply (wp_load_table inode_format)|..]; simpl.
  - intros a' d' [Hst' Ha']. rewrite Hi in Ha'. simplify_eq. auto.
  - intros e d' [Hc%at_state_crashed Hh]. apply tx_device_error; [done|]. destruct h; [|done]. specialize (Hh eq_refl). congruence.
Qed.

Lemma wp_load_entries_step {A} (k : list PersistedDirectoryEntry -> M D A) Q d :
  at_state h d v v ->
  (forall d', at_state h d' v v -> wp (k entries) Q (tx_abort sb v h res) d') ->
  wp (ibind (load_directory_table sb) k) Q (tx_abort sb v h res) d.
Proof.
  intros Hst Hk. destruct on_disk_parts as (_ & _ & He). apply wp_bind.
  change (load_directory_table sb) with (load_table (D:=D) directory_format sb).
  eapply wp_mono; [by apply (wp_load_table directory_format)|..]; simpl.
  - intros a' d' [Hst' Ha']. rewrite He in Ha'. simplify_eq. auto.
  - intros e d' [Hc%at_state_crashed Hh]. apply tx_device_error; [done|]. destruct h; [|done]. specialize (Hh eq_refl). congruence.
Qed.

Lemma wp_lift_step {A X} (o : outcome io_error X) (k : X -> M D A) Q d :
  at_state h d v v -> o <> Panic -> (forall e, o = Err e -> res = Err e) ->
  (forall x, o = Ok x -> wp (k x) Q (tx_abort sb v h res) d) ->
  wp (ibind (ilift o) k) Q (tx_abort sb v h res) d.
Proof.
  intros Hst Hp He Hk. apply wp_bind, wp_lift. destruct o as [x|e|]; simpl; [by apply Hk| |done].
  apply tx_refuse; auto.
Qed.

(** The tail of a transaction, from what its store promises. *)
Lemma tx_store_failed b m valid e d :
  res = Ok (b, m) -> (valid -> target_storable sb v m) -> (target_storable sb v m -> valid) ->
  tx_failed sb v (target_writes sb v m) valid h d -> tx_abort sb v h res e d.
Proof.
  intros Hr Hval Hst [Hh (s & Hc & Hs & Heq)]. split.
  - destruct Heq as [->|[_ Hok]]; [by left|]. right. exists b, m. split; [done|]. split; [auto|].
    exists s. split; [done|]. by apply wal_state_recoverable.
  - intros Ht. destruct Heq as [->|[Hf _]]; [|congruence]. split; [done|]. right. exists b, m. split; [done|].
    intros [Hsto Hfit]. destruct (Hh Ht) as [Hn|[Hne Hn]]; [auto|]. by apply Hn, Hfit.
Qed.

(** A sound disk passes the check an operation starts with. *)
Lemma wp_check_step {A} (k : FsckReport -> M D A) Q d :
  superblock_on_disk v = Ok sb -> metadata_sound (a, inodes, entries) -> at_state h d v v ->
  (forall r d', at_state h d' v v -> wp (k r) Q (tx_abort sb v h res) d') ->
  wp (ibind check_device k) Q (tx_abort sb v h res) d.
Proof.
  intros Hsb [Ho Hn] Hst Hk. pose proof (geometry_bounds sb Hgeo). destruct Hq as (es & Hes & _).
  apply wp_bind. eapply wp_mono; [apply wp_check_device; [done|lia|rewrite Hlen; apply Hgeo]|..]; simpl.
  - intros r d' [Hst' _]. auto.
  - intros e d' [Hc%at_state_crashed Hh]. apply tx_device_error; [done|]. destruct h; [|done].
    destruct (Hh eq_refl sb a inodes entries es). by split.
Qed.

End Generic.

(** *** Stores of metadata *)

Section Stores.
Context {B : Type} (res : outcome io_error (B * metadata)).

Lemma tx_noop b d : res = Ok (b, (a, inodes, entries)) -> at_state h d v v -> tx_done sb v h res b d.
Proof.
  intros Hr Hst. apply (tx_nothing res b (a, inodes, entries)); [done|apply on_disk_storable| |done].
  by apply create_writes_same.
Qed.

Lemma wp_store_create_step b a' inodes' entries' d :
  res = Ok (b, (a', inodes', entries')) -> typed_metadata sb (a', inodes', entries') -> at_state h d v v ->
  wp (store_create_metadata_journaled sb a' inodes' entries') (fun _ d' => tx_done sb v h res b d')
    (tx_abort sb v h res) d.
Proof.
  intros Hr (Ha & Hi & He) Hst.
  eapply wp_mono; [by apply (wp_create sb Hgeo h v Hlen a' inodes' entries' d)|simpl..].
  - intros r d' (Hs & Hfit & _ & Hst'). exists (a', inodes', entries'). split; [done|]. split; [done|].
    eexists. split; [exact Hst'|]. destruct (create_writes_ok sb a' inodes' entries' v Hgeo Ha Hs) as [Hws _].
    by apply committed_settled.
  - intros e d' Hf. eapply tx_store_failed; [done| | |exact Hf]; [done|by intros []].
Qed.

(** An operation on the entries alone. *)
Lemma wp_store_directory_step b entries' d :
  res = Ok (b, (a, inodes, entries')) -> Forall entry_typed entries' -> at_state h d v v ->
  wp (store_directory_table_journaled sb entries') (fun _ d' => tx_done sb v h res b d')
    (tx_abort sb v h res) d.
Proof.
  intros Hr He Hst. destruct on_disk_parts as (Ha & Hi & _).
  destruct on_disk_storable as (Hof & Hsi & _).
  pose proof (create_writes_directory sb Hgeo v Hv a inodes entries' Ha Hi) as Hws.
  eapply wp_mono; [by apply (wp_store_directory_table_journaled sb Hgeo h v Hlen)|simpl..]; rewrite <- Hws.
  - intros r d' (Hs & Hfit & _ & Hst'). exists (a, inodes, entries'). split; [done|]. split; [done|].
    eexists. split; [exact Hst'|].
    destruct (create_writes_ok sb a inodes entries' v Hgeo Hof (conj Hsi Hs)) as [Hwok _].
    by apply retained_settled.
  - intros e d' Hf. eapply tx_store_failed; [done| | |exact Hf]; [done|by intros (_ & _ & ?)].
Qed.

(** The same, checkpointed. *)
Lemma wp_store_directory_checkpointed_step b entries' d :
  res = Ok (b, (a, inodes, entries')) -> Forall entry_typed entries' -> at_state h d v v ->
  wp (let! report := store_directory_table_journaled sb entries' in
      do! recover_journal_and_checkpoint sb in iret report) (fun _ d' => tx_done sb v h res b d')
    (tx_abort sb v h res) d.
Proof.
  intros Hr He Hst. apply wp_bind. eapply wp_mono; [by apply (wp_store_directory_step b)| |done].
  intros r d' (m & Hres & Hroom & s & Hst' & Hset). apply wp_bind.
  eapply wp_mono; [by eapply wp_recover_settled|..]; simpl.
  - intros _ d'' (s' & Hst'' & _ & Hset'). apply wp_ret. exists m. split; [done|]. split; [done|]. by exists s'.
  - intros e d'' [-> (s' & Hc & Hset')]. split; [|done]. right. exists b, m. split; [done|]. split; [apply Hroom|].
    exists s'. split; [done|]. by right; right.
Qed.
End Stores.
End Rules.
