(* ===== verification/LinkTx.v ===== *)
(** * Hard links: [hard_link_tx.rs] and [hard_unlink_tx.rs]

    Adding a second name to a file, and removing a name that is not the last.
    Each operation loads the tables, checks and edits them in memory, and
    stores the directory table in one checkpointed transaction. *)

From S2P Require Import Prelude Bytes Block CrashDevice Allocation Superblock Region AllocationDisk.
From S2P Require Import Journal JournalCodec JournalRegion Recovery TransactionImage.
From S2P Require Import TransactionPlan InodeCodec RecordTable InodeTable DirectoryCodec Inode.
From S2P Require Import DirectoryTable Atomicity CreateTx Format Namespace NamespaceEdit Fsck Transition.

(** [inodes.iter().find(|inode| inode.id == x)] *)
Definition find_inode (inodes : list PersistedInode) (x : Z) : option PersistedInode :=
  find (fun inode => id inode =? x) inodes.

(** [|entry| entry.parent == p && entry.name == n] *)
Definition entry_named (p : Z) (n : bytes) (entry : PersistedDirectoryEntry) : bool :=
  (parent entry =? p) && bool_decide (name entry = n).

(** [entries.iter().filter(|entry| entry.target == x).count()] *)
Definition reference_count (entries : list PersistedDirectoryEntry) (x : Z) : Z :=
  zlen (filter (fun entry => target entry = x) entries).

(** The checks of [hard_link_file_journaled] on the inode table. *)
Definition check_link (inodes : list PersistedInode) (p t : Z) : outcome io_error unit :=
  let? parent_inode := ok_or (find_inode inodes p) (invalid_input "hard-link parent inode is missing") in
  try? ensure (bool_decide (kind parent_inode = Directory))
         (invalid_input "hard-link parent must be a directory") in
  let? target_inode := ok_or (find_inode inodes t) (invalid_input "hard-link target inode is missing") in
  ensure (bool_decide (kind target_inode = File)) (invalid_input "hard-link target must be a regular file").

Definition add_link (entries : list PersistedDirectoryEntry) (p : Z) (n : bytes) (t : Z)
    : outcome io_error (list PersistedDirectoryEntry) :=
  try? ensure (negb (existsb (entry_named p n) entries)) (invalid_input "hard-link destination already exists") in
  Ok (entries ++ [mkPersistedDirectoryEntry p t n]).

(** The edit of [unlink_nonfinal_file_link_journaled]. *)
Definition remove_link (inodes : list PersistedInode) (entries : list PersistedDirectoryEntry) (p : Z) (n : bytes)
    : outcome io_error (list PersistedDirectoryEntry) :=
  let? index := ok_or (position (entry_named p n) entries) (invalid_input "hard-link entry is missing") in
  let? entry := index_at entries index in
  let? inode := ok_or (find_inode inodes (target entry)) (invalid_input "hard-link target inode is missing") in
  try? ensure (bool_decide (kind inode = File))
         (invalid_input "non-final hard-link unlink requires a regular file") in
  try? ensure (negb (reference_count entries (target entry) <? 2))
         (invalid_input "non-final hard-link unlink cannot remove the final reference") in
  Ok (remove_at entries index).

Section Ops.
Context `{BlockDevice D}.

Definition hard_link_file_journaled (superblock : Superblock) (p : Z) (n : bytes) (t : Z) : M D RecoveryReport :=
  let! inodes := load_inode_table superblock in
  do! ilift (check_link inodes p t) in
  let! entries := load_directory_table superblock in
  let! entries := ilift (add_link entries p n t) in
  let! report := store_directory_table_journaled superblock entries in
  do! recover_journal_and_checkpoint superblock in
  iret report.

Definition unlink_nonfinal_file_link_journaled (superblock : Superblock) (p : Z) (n : bytes) : M D RecoveryReport :=
  let! inodes := load_inode_table superblock in
  let! entries := load_directory_table superblock in
  let! entries := ilift (remove_link inodes entries p n) in
  let! report := store_directory_table_journaled superblock entries in
  do! recover_journal_and_checkpoint superblock in
  iret report.
End Ops.

(** ** As functions of the metadata *)

Definition hard_link (m : metadata) (p : Z) (n : bytes) (t : Z) : outcome io_error (unit * metadata) :=
  let '(a, inodes, entries) := m in
  try? check_link inodes p t in
  let? entries := add_link entries p n t in
  Ok (tt, (a, inodes, entries)).

Definition hard_unlink (m : metadata) (p : Z) (n : bytes) : outcome io_error (unit * metadata) :=
  let '(a, inodes, entries) := m in
  let? entries := remove_link inodes entries p n in
  Ok (tt, (a, inodes, entries)).

(** ** Lookups *)

Lemma find_inode_Some inodes x inode : find_inode inodes x = Some inode -> inode ∈ inodes /\ id inode = x.
Proof. intros [Hi Hx]%find_Some. split; [done|]. bool_facts. done. Qed.

Lemma find_inode_kind inodes x inode : find_inode inodes x = Some inode -> inode_of_kind inodes x (kind inode).
Proof. intros [Hi Hx]%find_inode_Some. by exists inode. Qed.

(** A [&str] argument. *)
Definition str_typed (n : bytes) : Prop := Forall is_byte n /\ utf8_valid n = true.

Lemma entry_named_eq p n e : entry_named p n e = true <-> parent e = p /\ name e = n.
Proof. unfold entry_named. by rewrite andb_true_iff, Z.eqb_eq, bool_decide_eq_true. Qed.

Lemma position_entry p n entries i : position (entry_named p n) entries = Some i ->
  exists e, entries !! Z.to_nat i = Some e /\ parent e = p /\ name e = n /\ 0 <= i < zlen entries /\
    index_at (E:=io_error) entries i = Ok e.
Proof.
  intros (Hi & (e & He & [? ?]%entry_named_eq) & _)%position_Some. exists e. split_and!; try done; try lia.
  by apply index_at_Ok; [lia|].
Qed.

(** A table lookup followed by a check of the kind. *)
Lemma find_kind_Ok {A} inodes x k e1 e2 (c : outcome io_error A) r :
  (let? inode := ok_or (find_inode inodes x) e1 in try? ensure (bool_decide (kind inode = k)) e2 in c) = Ok r ->
  inode_of_kind inodes x k /\ c = Ok r.
Proof.
  intros H. inv_ok. match goal with Hk : bool_decide _ = true |- _ => apply bool_decide_eq_true in Hk as <- end.
  split; [by apply find_inode_kind|done].
Qed.

Lemma check_link_Ok inodes p t u :
  check_link inodes p t = Ok u -> inode_of_kind inodes p Directory /\ inode_of_kind inodes t File.
Proof.
  intros [Hp H]%find_kind_Ok. split; [done|].
  apply obind_Ok in H as (inode & Hf & Hk). apply ok_or_Ok in Hf. apply ensure_Ok, bool_decide_eq_true in Hk as <-.
  by apply find_inode_kind.
Qed.

(** Removing one of at least two entries of a file leaves one. *)
Lemma reference_remains entries i e x : entries !! i = Some e -> 2 <= reference_count entries x ->
  exists e', others entries i e' /\ target e' = x.
Proof.
  intros Hi Hc. pose proof (take_drop_middle _ _ _ Hi) as Hsplit. unfold reference_count in Hc.
  rewrite <- Hsplit, filter_app, filter_cons in Hc.
  assert (Hrest : 1 <= zlen (filter (fun entry => target entry = x) (take i entries ++ drop (S i) entries))).
  { rewrite filter_app. destruct (decide (target e = x)); rewrite ?zlen_app, ?zlen_cons in *; lia. }
  destruct (filter _ (take i entries ++ drop (S i) entries)) as [|e' l] eqn:Hf; [rewrite zlen_nil in Hrest; lia|].
  exists e'. assert (Hin : e' ∈ filter (fun entry => target entry = x) (take i entries ++ drop (S i) entries))
    by (rewrite Hf; by left).
  apply list_elem_of_filter in Hin as [Ht Hin]. split; [by apply (elem_of_removed entries i)|done].
Qed.

(** The only entry of a file. *)
Lemma reference_single entries j k e0 e x : reference_count entries x = 1 ->
  entries !! j = Some e0 -> target e0 = x -> entries !! k = Some e -> target e = x -> k <> j -> False.
Proof.
  intros Hc Hj Ht0 Hk Ht Hne. pose proof (take_drop_middle _ _ _ Hj) as Hsplit. unfold reference_count in Hc.
  rewrite <- Hsplit, filter_app, filter_cons, decide_True, zlen_app, zlen_cons in Hc by done.
  assert (Hin : e ∈ filter (fun entry => target entry = x) (take j entries ++ drop (S j) entries)).
  { apply list_elem_of_filter. split; [done|]. apply elem_of_removed. by exists k. }
  rewrite filter_app in Hin. pose proof (zlen_nonneg (filter (fun entry => target entry = x) (take j entries))).
  pose proof (zlen_nonneg (filter (fun entry => target entry = x) (drop (S j) entries))).
  assert (Hnil : filter (fun entry => target entry = x) (take j entries) ++
    filter (fun entry => target entry = x) (drop (S j) entries) = []).
  { apply length_zero_iff_nil. rewrite length_app. unfold zlen in *. lia. }
  rewrite Hnil in Hin. by apply not_elem_of_nil in Hin.
Qed.

Lemma remove_link_Ok inodes entries p n entries' : remove_link inodes entries p n = Ok entries' ->
  exists i e, entries !! i = Some e /\ parent e = p /\ name e = n /\ inode_of_kind inodes (target e) File /\
    2 <= reference_count entries (target e) /\ entries' = take i entries ++ drop (S i) entries.
Proof.
  unfold remove_link. intros (i & Hi & H)%obind_Ok. apply ok_or_Ok, position_entry in Hi as (e & He & Hp & Hn & Hr & Hidx).
  rewrite Hidx in H. simpl in H. apply find_kind_Ok in H as [Hk H]. inv_ok. bool_facts.
  exists (Z.to_nat i), e. by split_and!.
Qed.

(** ** They keep the metadata sound *)

Lemma hard_link_sound m p n t b m' : NoDup (id <$> m.1.2) ->
  metadata_sound m -> hard_link m p n t = Ok (b, m') -> metadata_sound m'.
Proof.
  destruct m as [[a inodes] entries]. simpl. intros Hids [Ho Hn] Hl. unfold hard_link in Hl.
  apply obind_Ok in Hl as (u & [Hp Ht]%check_link_Ok & Hl). unfold add_link in Hl. inv_ok. simplify_eq.
  split; [done|]. apply namespace_ok_tree in Hn; [|done].
  apply namespace_tree_ok, (tree_file_edit inodes entries); [done|done|..].
  - intros e [He| ->%list_elem_of_singleton]%elem_of_app; [by left|by right].
  - intros e He. left. apply elem_of_app. by left.
  - intros x Hx. destruct (tree_files _ _ Hn x Hx) as (e & He & Htx). exists e. split; [|done].
    apply elem_of_app. by left.
Qed.

Lemma hard_unlink_sound m p n b m' : NoDup (id <$> m.1.2) ->
  metadata_sound m -> hard_unlink m p n = Ok (b, m') -> metadata_sound m'.
Proof.
  destruct m as [[a inodes] entries]. simpl. intros Hids [Ho Hn] Hl. unfold hard_unlink in Hl.
  apply obind_Ok in Hl as (es & (i & e0 & Hi & _ & _ & Hf & Hc & ->)%remove_link_Ok & Hl). simplify_eq.
  split; [done|]. apply namespace_ok_tree in Hn; [|done].
  apply namespace_tree_ok, (tree_file_edit inodes entries); [done|done|..].
  - intros e He. left. apply elem_of_removed in He as (j & _ & Hj). apply list_elem_of_lookup. eauto.
  - intros e He. apply (elem_of_others entries i e0 Hi) in He as [Ho'| ->]; [|by right].
    left. by apply elem_of_removed.
  - intros x Hx. destruct (decide (x = target e0)) as [->|Hne].
    + destruct (reference_remains _ _ _ _ Hi Hc) as (e & He & Ht). exists e. split; [by apply elem_of_removed|done].
    + destruct (tree_files _ _ Hn x Hx) as (e & He & Ht). exists e. split; [|done].
      apply (elem_of_others entries i e0 Hi) in He as [Ho'| ->]; [|done]. by apply elem_of_removed.
Qed.

(** ** Removing the new name undoes the link *)

Lemma find_inode_of_kind inodes x k : NoDup (id <$> inodes) -> inode_of_kind inodes x k ->
  exists inode, find_inode inodes x = Some inode /\ kind inode = k.
Proof.
  intros Hids (i & Hi & Hid & Hk). unfold find_inode. destruct (find _ inodes) as [j|] eqn:Hf.
  - exists j. split; [done|]. apply find_inode_kind in Hf. apply (inode_kind_unique inodes x); [done..|by exists i].
  - pose proof (find_None _ _ Hf i Hi) as Hne. simpl in Hne. bool_facts. done.
Qed.

Lemma reference_count_snoc entries e x :
  reference_count (entries ++ [e]) x = reference_count entries x + (if decide (target e = x) then 1 else 0).
Proof. unfold reference_count. rewrite filter_app, zlen_app, filter_cons. case_decide; done. Qed.

Lemma reference_count_pos entries e : e ∈ entries -> 1 <= reference_count entries (target e).
Proof.
  intros He. unfold reference_count.
  assert (Hin : e ∈ filter (fun entry => target entry = target e) entries) by (by apply list_elem_of_filter).
  destruct (filter _ entries); [by apply not_elem_of_nil in Hin|]. rewrite zlen_cons. pose proof (zlen_nonneg l). lia.
Qed.

(** A hard link can be taken back.  On sound metadata, when
    [hard_link_file_journaled]'s edit adds a name, the edit of
    [unlink_nonfinal_file_link_journaled] for that name succeeds and restores
    the metadata, entry order included. *)
Theorem hard_link_unlink m p n t b m' : NoDup (id <$> m.1.2) -> metadata_sound m ->
  hard_link m p n t = Ok (b, m') -> hard_unlink m' p n = Ok (tt, m).
Proof.
  destruct m as [[a inodes] entries]. simpl. intros Hids [_ Hn] H.
  apply obind_Ok in H as (u & [_ Ht]%check_link_Ok & H). unfold add_link in H. inv_ok. simplify_eq. bool_facts.
  set (e := mkPersistedDirectoryEntry p t n). unfold hard_unlink, remove_link.
  apply namespace_ok_tree in Hn; [|done]. destruct (tree_files _ _ Hn t Ht) as (e' & He' & Htgt).
  assert (Hlk : (entries ++ [e]) !! length entries = Some e) by (by apply list_lookup_middle).
  rewrite (position_only _ _ (length entries) e Hlk); [|by apply entry_named_eq|].
  2: { intros j y Hj Hy. apply lookup_app_Some in Hj as [Hj|[Hle Hj]].
       - exfalso. apply not_true_iff_false in E0. apply E0, existsb_exists. exists y.
         split; [apply list_elem_of_In; by eapply list_elem_of_lookup_2|done].
       - apply lookup_lt_Some in Hj. simpl in Hj. lia. }
  cbn [ok_or obind]. rewrite (index_at_Ok _ _ e) by (rewrite ?Nat2Z.id; done || lia). cbn [obind].
  destruct (find_inode_of_kind inodes t File Hids Ht) as (inode & Hf & Hk).
  change (target e) with t. rewrite Hf. cbn [ok_or obind]. rewrite bool_decide_eq_true_2 by done. cbn [ensure obind].
  rewrite reference_count_snoc, decide_True by done. pose proof (reference_count_pos entries e' He') as Hc.
  rewrite Htgt in Hc. rewrite (proj2 (Z.ltb_ge _ _)) by lia. cbn [negb ensure obind].
  unfold remove_at. rewrite Nat2Z.id, take_app_length, drop_ge, app_nil_r; [done|]. rewrite length_app. simpl. lia.
Qed.

(** ** The operations implement them *)

Section Implements.
Context {sb : Superblock} {v : list block}.
Context {a : BlockAllocator} {inodes : list PersistedInode} {entries : list PersistedDirectoryEntry}.
Context (Hd : disk_holds sb v (a, inodes, entries)).
Context `{DeviceLaws D} (h : bool).

Lemma on_disk_typed : Forall inode_typed inodes /\ Forall entry_typed entries.
Proof.
  destruct (on_disk_storable Hd) as (_ & Hi & He).
  split; [exact (storable_typed _ _ _ Hi)|exact (storable_typed _ _ _ He)].
Qed.

Lemma inode_id_typed x k : inode_of_kind inodes x k -> is_u64 x.
Proof.
  intros (i & Hi & <- & _). destruct on_disk_typed as [Ht _]. rewrite Forall_forall in Ht. by apply Ht.
Qed.

Lemma hard_link_implements p n t : str_typed n ->
  implements sb v h (hard_link (a, inodes, entries) p n t) (fun _ => tt)
    (hard_link_file_journaled (D:=D) sb p n t).
Proof.
  intros [Hb Hu] d Hst. unfold hard_link_file_journaled.
  apply (wp_load_inodes_step Hd); [done|]. clear d Hst. intros d Hst.
  apply (wp_lift_step h); [done|unfold check_link; no_panic|intros e He; pure_steps|].
  intros u Hc. apply (wp_load_entries_step Hd); [done|]. clear d Hst. intros d Hst.
  apply (wp_lift_step h); [done|unfold add_link; no_panic|intros e He; pure_steps|].
  intros es He. apply (wp_store_directory_checkpointed_step Hd).
  - simpl. rewrite Hc. simpl. by rewrite He.
  - apply check_link_Ok in Hc as [Hp Ht]. unfold add_link in He. inv_ok. apply Forall_app. split; [apply on_disk_typed|].
    apply Forall_singleton. split_and!; [by eapply inode_id_typed|by eapply inode_id_typed|done|done].
  - done.
Qed.

Lemma hard_unlink_implements p n :
  implements sb v h (hard_unlink (a, inodes, entries) p n) (fun _ => tt)
    (unlink_nonfinal_file_link_journaled (D:=D) sb p n).
Proof.
  intros d Hst. unfold unlink_nonfinal_file_link_journaled.
  apply (wp_load_inodes_step Hd); [done|]. clear d Hst. intros d Hst.
  apply (wp_load_entries_step Hd); [done|]. clear d Hst. intros d Hst.
  apply (wp_lift_step h); [done| |intros e He; pure_steps|].
  { unfold remove_link. destruct (position _ entries) as [i|] eqn:Hi; [|done].
    apply position_entry in Hi as (e & _ & _ & _ & _ & Hidx). simpl. rewrite Hidx. no_panic. }
  intros es He. apply (wp_store_directory_checkpointed_step Hd).
  - simpl. by rewrite He.
  - apply remove_link_Ok in He as (i & e & _ & _ & _ & _ & _ & ->). destruct on_disk_typed as [_ Ht].
    apply Forall_app. split; [by apply Forall_take|by apply Forall_drop].
  - done.
Qed.
End Implements.
