(* ===== verification/TruncateTx.v ===== *)
(** * Truncation: [truncate_tx.rs]

    A regular file gives up all its blocks, those behind a block count, or its
    last one; the allocator frees exactly these.  Allocation and inode table
    change in one transaction. *)

From S2P Require Import Prelude Bytes Block CrashDevice Allocation Superblock Region AllocationDisk.
From S2P Require Import Journal JournalCodec JournalRegion Recovery TransactionImage.
From S2P Require Import TransactionPlan InodeCodec RecordTable InodeTable DirectoryCodec Inode.
From S2P Require Import DirectoryTable Atomicity CreateTx Format Namespace NamespaceEdit Fsck.
From S2P Require Import Transition LinkTx.

(** [for block in released { allocator.free(block).map_err(..)?; }] *)
Definition release (f : AllocationError -> io_error) (allocator : BlockAllocator) (released : list Z)
    : outcome io_error BlockAllocator :=
  ofold (fun allocator block => let? (_, allocator) := map_err f (run_on (free block) allocator) in Ok allocator)
    allocator released.

(** [io::Error::new(io::ErrorKind::InvalidData, error)] *)
Definition release_error (error : AllocationError) : io_error := invalid_data (allocation_error_fmt error).

(** [inodes.iter_mut().find(|inode| inode.id == x)], the target written through
    the reference: its position and the inode. *)
Definition find_truncate_target (inodes : list PersistedInode) (x : Z) : outcome io_error (Z * PersistedInode) :=
  let? index := ok_or (position (fun inode => id inode =? x) inodes)
                  (invalid_input "truncate target inode is missing") in
  let? inode := index_at inodes index in
  try? ensure (bool_decide (kind inode = File)) (invalid_input "truncate target must be a regular file") in
  Ok (index, inode).

Definition set_blocks (inodes : list PersistedInode) (index : Z) (inode : PersistedInode) (bs : list Z)
    : outcome io_error (list PersistedInode) :=
  set_at inodes index (mkPersistedInode (id inode) (kind inode) bs).

(** The in-memory part of each operation: the metadata to store and the blocks
    it releases, or [None] when there is nothing to do. *)
Definition truncate_zero_edit (a : BlockAllocator) (inodes : list PersistedInode) (x : Z)
    : outcome io_error (option (BlockAllocator * list PersistedInode)) :=
  let? (index, inode) := find_truncate_target inodes x in
  if is_empty (blocks inode) then Ok None else
  let? a := release release_error a (blocks inode) in
  let? inodes := set_blocks inodes index inode [] in
  Ok (Some (a, inodes)).

Definition truncate_blocks_edit (a : BlockAllocator) (inodes : list PersistedInode) (x target_blocks : Z)
    : outcome io_error (option (BlockAllocator * list PersistedInode * list Z)) :=
  let? (index, inode) := find_truncate_target inodes x in
  try? ensure (negb (zlen (blocks inode) <? target_blocks))
         (invalid_input "truncate target block count exceeds current file blocks") in
  if target_blocks =? zlen (blocks inode) then Ok None else
  let released := drop (Z.to_nat target_blocks) (blocks inode) in
  let? a := release release_error a released in
  let? inodes := set_blocks inodes index inode (take (Z.to_nat target_blocks) (blocks inode)) in
  Ok (Some (a, inodes, released)).

Definition truncate_last_edit (a : BlockAllocator) (inodes : list PersistedInode) (x : Z)
    : outcome io_error (BlockAllocator * list PersistedInode * Z) :=
  let? (index, inode) := find_truncate_target inodes x in
  let? (block, rest) := ok_or (vec_pop (blocks inode)) (invalid_input "truncate target already has zero blocks") in
  let? (_, a) := map_err release_error (run_on (free block) a) in
  let? inodes := set_blocks inodes index inode rest in
  Ok (a, inodes, block).

Section Ops.
Context `{BlockDevice D}.

Definition truncate_file_to_zero_journaled (superblock : Superblock) (x : Z) : M D RecoveryReport :=
  let! allocator := load_allocator superblock in
  let! inodes := load_inode_table superblock in
  let! entries := load_directory_table superblock in
  let! edit := ilift (truncate_zero_edit allocator inodes x) in
  match edit with
  | None => iret report_default
  | Some (allocator, inodes) => store_create_metadata_journaled superblock allocator inodes entries
  end.

Definition truncate_file_to_blocks_journaled (superblock : Superblock) (x target_blocks : Z)
    : M D (list Z * RecoveryReport) :=
  let! allocator := load_allocator superblock in
  let! inodes := load_inode_table superblock in
  let! entries := load_directory_table superblock in
  let! edit := ilift (truncate_blocks_edit allocator inodes x target_blocks) in
  match edit with
  | None => iret ([], report_default)
  | Some (allocator, inodes, released) =>
      let! report := store_create_metadata_journaled superblock allocator inodes entries in
      iret (released, report)
  end.

Definition truncate_file_last_block_journaled (superblock : Superblock) (x : Z) : M D (Z * RecoveryReport) :=
  let! allocator := load_allocator superblock in
  let! inodes := load_inode_table superblock in
  let! entries := load_directory_table superblock in
  let! (allocator, inodes, block) := ilift (truncate_last_edit allocator inodes x) in
  let! report := store_create_metadata_journaled superblock allocator inodes entries in
  iret (block, report).
End Ops.

(** ** As functions of the metadata *)

Definition truncate_zero (m : metadata) (x : Z) : outcome io_error (unit * metadata) :=
  let '(a, inodes, entries) := m in
  let? edit := truncate_zero_edit a inodes x in
  match edit with None => Ok (tt, m) | Some (a, inodes) => Ok (tt, (a, inodes, entries)) end.

Definition truncate_blocks (m : metadata) (x n : Z) : outcome io_error (list Z * metadata) :=
  let '(a, inodes, entries) := m in
  let? edit := truncate_blocks_edit a inodes x n in
  match edit with None => Ok ([], m) | Some (a, inodes, released) => Ok (released, (a, inodes, entries)) end.

Definition truncate_last (m : metadata) (x : Z) : outcome io_error (Z * metadata) :=
  let '(a, inodes, entries) := m in
  let? (a, inodes, block) := truncate_last_edit a inodes x in
  Ok (block, (a, inodes, entries)).

(** ** Releasing blocks *)

Lemma release_spec f bs : forall a, alloc_ok a -> Forall (Z.le 0) bs ->
  owp (release f a bs)
    (fun a' => alloc_ok a' /\ Allocation.total_blocks a' = Allocation.total_blocks a /\
       Allocation.reserved_blocks a' = Allocation.reserved_blocks a /\ owned a' = owned a ∖ list_to_set bs)
    (fun _ => ~ (Forall (fun b => b ∈ owned a) bs /\ NoDup bs)).
Proof.
  induction bs as [|b bs IH]; intros a Hok Hpos; simpl.
  { split_and!; try done. set_solver. }
  apply Forall_cons in Hpos as [Hb Hpos]. apply owp_bind, owp_bind, owp_map_err.
  eapply owp_mono; [apply owp_run_on, (free_spec a b Hok Hb)|..]; simpl.
  - intros [[] a1] (Hok1 & Ht & Hr & Hin & Ho). simpl in *.
    eapply owp_mono; [apply (IH a1 Hok1 Hpos)|..]; simpl.
    + intros a2 (Hok2 & Ht2 & Hr2 & Ho2). split_and!; [done|congruence|congruence|]. rewrite Ho2, Ho. set_solver.
    + intros _ Hn [[_ Hall]%Forall_cons [Hnb Hnd]%NoDup_cons]. apply Hn. split; [|done].
      rewrite Forall_forall in Hall. apply Forall_forall. intros c Hc. rewrite Ho. set_solver.
  - intros e (s' & _ & Hn & _) [[Hin _]%Forall_cons _]. done.
Qed.

(** Blocks that leave both the tables and the allocator. *)
Lemma ownership_release a a' inodes inodes' released :
  inode_references inodes ≡ₚ inode_references inodes' ++ released ->
  owned a' = owned a ∖ list_to_set released ->
  ownership_sound a inodes -> ownership_sound a' inodes'.
Proof.
  intros Hperm Ho [Hall Hnd]. rewrite Hperm in Hall, Hnd.
  apply Forall_app in Hall as [Hall _]. apply NoDup_app in Hnd as (Hnd & Hdis & _). split; [|done].
  rewrite Forall_forall in Hall. apply Forall_forall. intros b Hb. rewrite Ho.
  apply elem_of_difference. split; [by apply Hall|]. rewrite elem_of_list_to_set. by apply Hdis.
Qed.

Lemma inode_references_app l1 l2 : inode_references (l1 ++ l2) = inode_references l1 ++ inode_references l2.
Proof. unfold inode_references. by rewrite fmap_app, join_app. Qed.
#[export] Instance inode_references_proper : Proper ((≡ₚ) ==> (≡ₚ)) inode_references.
Proof. intros l1 l2 Hl. unfold inode_references. by rewrite Hl. Qed.
Lemma inode_references_cons i l : inode_references (i :: l) = blocks i ++ inode_references l.
Proof. done. Qed.

(** ** What a truncation does *)

Definition truncated (a : BlockAllocator) (inodes : list PersistedInode) (x : Z) (released : list Z)
    (a' : BlockAllocator) (inodes' : list PersistedInode) : Prop :=
  exists i inode kept, inodes !! i = Some inode /\ id inode = x /\ kind inode = File /\
    blocks inode = kept ++ released /\ inodes' = <[i := mkPersistedInode (id inode) (kind inode) kept]> inodes /\
    alloc_ok a' /\ Allocation.total_blocks a' = Allocation.total_blocks a /\
    Allocation.reserved_blocks a' = Allocation.reserved_blocks a /\ owned a' = owned a ∖ list_to_set released.

Lemma find_truncate_target_Ok inodes x index inode :
  find_truncate_target inodes x = Ok (index, inode) ->
  0 <= index < zlen inodes /\ inodes !! Z.to_nat index = Some inode /\ id inode = x /\ kind inode = File.
Proof.
  unfold find_truncate_target. intros (i & Hi & H)%obind_Ok.
  apply ok_or_Ok, position_Some in Hi as (Hr & (n & Hn & Hid) & _).
  rewrite (index_at_Ok inodes i n) in H by (done || lia). simpl in H. inv_ok. simplify_eq. bool_facts. done.
Qed.

Lemma find_truncate_target_no_panic inodes x : find_truncate_target inodes x <> Panic.
Proof.
  unfold find_truncate_target. destruct (position _ inodes) as [i|] eqn:Hi; [|done].
  apply position_Some in Hi as (Hr & (n & Hn & _) & _). simpl.
  rewrite (index_at_Ok inodes i n) by (done || lia). simpl. no_panic.
Qed.

Lemma set_blocks_Ok inodes index inode bs : 0 <= index < zlen inodes ->
  set_blocks inodes index inode bs = Ok (<[Z.to_nat index := mkPersistedInode (id inode) (kind inode) bs]> inodes).
Proof. intros Hr. unfold set_blocks. by rewrite set_at_Ok. Qed.

Section Edit.
Context (a : BlockAllocator) (inodes : list PersistedInode) (Ha : alloc_ok a) (Ht : Forall inode_typed inodes).

Lemma inode_blocks_nonneg i inode : inodes !! i = Some inode -> Forall (Z.le 0) (blocks inode).
Proof.
  intros Hi. destruct (Forall_lookup_1 _ _ _ _ Ht Hi) as [_ Hb]. eapply Forall_impl; [exact Hb|].
  intros b Hb'. apply Hb'.
Qed.

(** The common part of the three edits. *)
Lemma release_set_blocks x index inode kept released :
  find_truncate_target inodes x = Ok (index, inode) -> blocks inode = kept ++ released ->
  owp (let? a' := release release_error a released in
       let? inodes' := set_blocks inodes index inode kept in Ok (a', inodes'))
    (fun r => truncated a inodes x released r.1 r.2) (fun _ => True).
Proof.
  intros Hf Hb. apply find_truncate_target_Ok in Hf as (Hr & Hi & Hid & Hk). apply owp_bind.
  pose proof (inode_blocks_nonneg _ _ Hi) as Hpos. rewrite Hb in Hpos. apply Forall_app in Hpos as [_ Hpos].
  eapply owp_mono; [by apply release_spec|..|done]; simpl.
  intros a' (Hok & Htot & Hres & Ho). rewrite set_blocks_Ok by done. simpl.
  exists (Z.to_nat index), inode, kept. by split_and!.
Qed.

Lemma truncate_zero_edit_spec x :
  owp (truncate_zero_edit a inodes x)
    (fun r => match r with
              | None => True
              | Some (a', inodes') => exists released, truncated a inodes x released a' inodes' end)
    (fun _ => True).
Proof.
  unfold truncate_zero_edit. pose proof (find_truncate_target_no_panic inodes x).
  destruct (find_truncate_target inodes x) as [[index inode]|e|] eqn:Hf; simpl; [|done..].
  destruct (is_empty (blocks inode)); [done|].
  pose proof (release_set_blocks x index inode [] (blocks inode) Hf eq_refl) as Hs. unfold obind, owp in *.
  destruct (release _ a _); [|done..]. destruct (set_blocks _ _ _ _); [|done..]. eauto.
Qed.

Lemma truncate_blocks_edit_spec x n : 0 <= n ->
  owp (truncate_blocks_edit a inodes x n)
    (fun r => match r with
              | None => True
              | Some (a', inodes', released) => truncated a inodes x released a' inodes' end)
    (fun _ => True).
Proof.
  intros Hn. unfold truncate_blocks_edit. pose proof (find_truncate_target_no_panic inodes x).
  destruct (find_truncate_target inodes x) as [[index inode]|e|] eqn:Hf; simpl; [|done..].
  destruct (negb _); simpl; [|done]. destruct (n =? _); [done|].
  pose proof (release_set_blocks x index inode _ _ Hf (eq_sym (take_drop (Z.to_nat n) (blocks inode)))) as Hs.
  unfold obind, owp in *. destruct (release _ a _); [|done..]. by destruct (set_blocks _ _ _ _).
Qed.

Lemma truncate_last_edit_spec x :
  owp (truncate_last_edit a inodes x)
    (fun '(a', inodes', b) => truncated a inodes x [b] a' inodes') (fun _ => True).
Proof.
  unfold truncate_last_edit. pose proof (find_truncate_target_no_panic inodes x).
  destruct (find_truncate_target inodes x) as [[index inode]|e|] eqn:Hf; simpl; [|done..].
  destruct (vec_pop (blocks inode)) as [[b rest]|] eqn:Hp; simpl; [|done]. apply vec_pop_Some in Hp.
  pose proof (release_set_blocks x index inode rest [b] Hf Hp) as Hs. unfold release in Hs. simpl in Hs.
  unfold obind, owp in *. destruct (map_err _ _) as [[[] a']|e|]; [|done..]. by destruct (set_blocks _ _ _ _).
Qed.
End Edit.

(** ** Inodes whose blocks change *)

Section SetBlocks.
Context {inodes : list PersistedInode} {i : nat} {inode : PersistedInode} (Hi : inodes !! i = Some inode).
Context (bs : list Z).
Let inode' := mkPersistedInode (id inode) (kind inode) bs.

Lemma set_blocks_kinds y k : inode_of_kind (<[i := inode']> inodes) y k <-> inode_of_kind inodes y k.
Proof.
  pose proof (lookup_lt_Some _ _ _ Hi) as Hlt. unfold inode_of_kind. split; intros (j & Hj & Hid & Hk).
  - apply list_elem_of_lookup in Hj as [n Hn]. destruct (decide (i = n)) as [<-|].
    + rewrite list_lookup_insert_eq in Hn by done. simplify_eq/=. exists inode. split; [|done].
      apply list_elem_of_lookup. eauto.
    + rewrite list_lookup_insert_ne in Hn by done. exists j. split; [|done]. apply list_elem_of_lookup. eauto.
  - apply list_elem_of_lookup in Hj as [n Hn]. destruct (decide (i = n)) as [<-|].
    + simplify_eq. exists inode'. split; [|done]. apply list_elem_of_lookup. exists i. by apply list_lookup_insert_eq.
    + exists j. split; [|done]. apply list_elem_of_lookup. exists n. by rewrite list_lookup_insert_ne.
Qed.

Lemma set_blocks_namespace entries : NoDup (id <$> inodes) ->
  namespace_ok inodes entries -> namespace_ok (<[i := inode']> inodes) entries.
Proof.
  intros Hids Hn. apply namespace_ok_tree in Hn as Htree; [|done]. apply namespace_tree_ok.
  apply (tree_edit inodes _ entries entries); [done|intros; apply set_blocks_kinds|done|..].
  - intros e He. split; [by apply (tree_parents _ _ Htree)|]. destruct (tree_targets _ _ Htree e He) as [k Hk].
    exists k. by apply set_blocks_kinds.
  - intros y Hy%set_blocks_kinds. by apply (tree_files _ _ Htree).
  - intros _ ->. done.
Qed.

Lemma set_blocks_references more less : blocks inode ++ more ≡ₚ bs ++ less ->
  inode_references inodes ++ more ≡ₚ inode_references (<[i := inode']> inodes) ++ less.
Proof.
  intros Hp. pose proof (lookup_lt_Some _ _ _ Hi) as Hlt. rewrite insert_take_drop by done.
  rewrite <- (take_drop_middle _ _ _ Hi) at 1.
  rewrite !inode_references_app, !inode_references_cons. simpl.
  rewrite <- !app_assoc. f_equiv.
  rewrite (Permutation_app_comm _ more), (Permutation_app_comm _ less), !app_assoc. by rewrite Hp.
Qed.
End SetBlocks.

(** ** Truncations keep the metadata sound *)

Section Sound.
Context {a a' : BlockAllocator} {inodes inodes' : list PersistedInode} {x : Z} {released : list Z}.
Context (Htr : truncated a inodes x released a' inodes').

Lemma truncated_references : inode_references inodes ≡ₚ inode_references inodes' ++ released.
Proof.
  destruct Htr as (i & inode & kept & Hi & _ & _ & Hb & -> & _).
  pose proof (set_blocks_references Hi kept [] released) as Hp. rewrite !app_nil_r in Hp. apply Hp. by rewrite Hb.
Qed.

Lemma truncated_sound entries : NoDup (id <$> inodes) ->
  metadata_sound (a, inodes, entries) -> metadata_sound (a', inodes', entries).
Proof.
  intros Hids [Ho Hn]. split.
  - destruct Htr as (i & inode & kept & _ & _ & _ & _ & _ & _ & _ & _ & How).
    by eapply ownership_release; [apply truncated_references|exact How|].
  - destruct Htr as (i & inode & kept & Hi & _ & _ & _ & -> & _). by apply set_blocks_namespace.
Qed.

Lemma truncated_typed sb entries :
  typed_metadata sb (a, inodes, entries) -> typed_metadata sb (a', inodes', entries).
Proof.
  destruct Htr as (i & inode & kept & Hi & _ & _ & Hb & -> & Hok & Ht & Hr & _). intros (Ha & Hti & He).
  split; [|split; [|done]].
  - destruct Ha as [_ Ht' Hr']. split; [done|congruence|congruence].
  - apply Forall_insert; [done|]. destruct (Forall_lookup_1 _ _ _ _ Hti Hi) as [Hid Hbl]. split; [done|]. simpl.
    rewrite Hb in Hbl. by apply Forall_app in Hbl as [? _].
Qed.
End Sound.

(** ** The operations implement the functions *)

Section PureSound.
Context (m : metadata) (Ha : alloc_ok m.1.1) (Hi : Forall inode_typed m.1.2) (Hids : NoDup (id <$> m.1.2)).
Context (Hm : metadata_sound m).

Lemma truncate_zero_sound x b m' : truncate_zero m x = Ok (b, m') -> metadata_sound m'.
Proof.
  destruct m as [[a inodes] entries]. simpl in *. pose proof (truncate_zero_edit_spec a inodes Ha Hi x) as Hs.
  destruct (truncate_zero_edit a inodes x) as [[[a' inodes']|]|e|]; simpl in *; intros; simplify_eq; [|done].
  destruct Hs as [released Htr]. by eapply truncated_sound.
Qed.

Lemma truncate_blocks_sound x n b m' : 0 <= n -> truncate_blocks m x n = Ok (b, m') -> metadata_sound m'.
Proof.
  intros Hn. destruct m as [[a inodes] entries]. simpl in *. pose proof (truncate_blocks_edit_spec a inodes Ha Hi x n Hn) as Hs.
  destruct (truncate_blocks_edit a inodes x n) as [[[[a' inodes'] released]|]|e|]; simpl in *; intros; simplify_eq; [|done].
  by eapply truncated_sound.
Qed.

Lemma truncate_last_sound x b m' : truncate_last m x = Ok (b, m') -> metadata_sound m'.
Proof.
  destruct m as [[a inodes] entries]. simpl in *. pose proof (truncate_last_edit_spec a inodes Ha Hi x) as Hs.
  destruct (truncate_last_edit a inodes x) as [[[a' inodes'] c]|e|]; simpl in *; intros; simplify_eq.
  by eapply truncated_sound.
Qed.
End PureSound.

Section Implements.
Context {sb : Superblock} {v : list block}.
Context {a : BlockAllocator} {inodes : list PersistedInode} {entries : list PersistedDirectoryEntry}.
Context (Hd : disk_holds sb v (a, inodes, entries)).
Context `{DeviceLaws D} (h : bool).

Lemma holds_typed : typed_metadata sb (a, inodes, entries).
Proof. destruct (on_disk_storable Hd) as (Ha & _). destruct (on_disk_typed Hd). done. Qed.

Lemma wp_load_all_step {A B} (res : outcome io_error (B * metadata))
    (k : BlockAllocator -> list PersistedInode -> list PersistedDirectoryEntry -> M D A) Q d :
  at_state h d v v -> (forall d', at_state h d' v v -> wp (k a inodes entries) Q (tx_abort sb v h res) d') ->
  wp (let! a := load_allocator sb in let! inodes := load_inode_table sb in
      let! entries := load_directory_table sb in k a inodes entries) Q (tx_abort sb v h res) d.
Proof.
  intros Hst Hk. apply (wp_load_allocator_step Hd); [done|]. intros d1 Hst1.
  apply (wp_load_inodes_step Hd); [done|]. intros d2 Hst2. by apply (wp_load_entries_step Hd).
Qed.

Lemma truncate_zero_implements x :
  implements sb v h (truncate_zero (a, inodes, entries) x) (fun _ => tt)
    (truncate_file_to_zero_journaled (D:=D) sb x).
Proof.
  intros d Hst. apply wp_load_all_step; [done|]. clear d Hst. intros d Hst.
  destruct holds_typed as (Ha & Hi & He).
  pose proof (truncate_zero_edit_spec a inodes (of_ok _ _ Ha) Hi x) as Hs.
  apply (wp_lift_step h); [done|by eapply owp_no_panic|by intros e Her; unfold truncate_zero, truncate_blocks, truncate_last; rewrite Her|].
  intros edit Hedit. rewrite Hedit in Hs. simpl in Hs. destruct edit as [[a' inodes']|].
  - destruct Hs as [released Htr]. apply (wp_store_create_step Hd); [by unfold truncate_zero, truncate_blocks; rewrite Hedit| |done].
    by eapply truncated_typed.
  - apply wp_ret, (tx_noop Hd); [by unfold truncate_zero, truncate_blocks; rewrite Hedit|done].
Qed.

Lemma truncate_blocks_implements x n : 0 <= n ->
  implements sb v h (truncate_blocks (a, inodes, entries) x n) fst
    (truncate_file_to_blocks_journaled (D:=D) sb x n).
Proof.
  intros Hn d Hst. apply wp_load_all_step; [done|]. clear d Hst. intros d Hst.
  destruct holds_typed as (Ha & Hi & He).
  pose proof (truncate_blocks_edit_spec a inodes (of_ok _ _ Ha) Hi x n Hn) as Hs.
  apply (wp_lift_step h); [done|by eapply owp_no_panic|by intros e Her; unfold truncate_zero, truncate_blocks, truncate_last; rewrite Her|].
  intros edit Hedit. rewrite Hedit in Hs. simpl in Hs. destruct edit as [[[a' inodes'] released]|].
  - apply wp_bind. eapply wp_mono;
      [apply (wp_store_create_step Hd h (truncate_blocks (a, inodes, entries) x n) released a' inodes' entries)|..].
    + unfold truncate_blocks. rewrite Hedit. simpl. done.
    + by eapply truncated_typed.
    + done.
    + intros r d' Hdone. by apply wp_ret.
    + done.
  - apply wp_ret, (tx_noop Hd); [by unfold truncate_zero, truncate_blocks; rewrite Hedit|done].
Qed.

Lemma truncate_last_implements x :
  implements sb v h (truncate_last (a, inodes, entries) x) fst
    (truncate_file_last_block_journaled (D:=D) sb x).
Proof.
  intros d Hst. apply wp_load_all_step; [done|]. clear d Hst. intros d Hst.
  destruct holds_typed as (Ha & Hi & He).
  pose proof (truncate_last_edit_spec a inodes (of_ok _ _ Ha) Hi x) as Hs.
  apply (wp_lift_step h); [done|by eapply owp_no_panic|by intros e Her; unfold truncate_zero, truncate_blocks, truncate_last; rewrite Her|].
  intros [[a' inodes'] b] Hedit. rewrite Hedit in Hs. simpl in Hs.
  apply wp_bind. eapply wp_mono;
    [apply (wp_store_create_step Hd h (truncate_last (a, inodes, entries) x) b a' inodes' entries)|..].
  - unfold truncate_last. rewrite Hedit. simpl. done.
  - by eapply truncated_typed.
  - done.
  - intros r d' Hdone. by apply wp_ret.
  - done.
Qed.
End Implements.
