(* ===== verification/RenameTx.v ===== *)
(** * Renames: [rename_tx.rs], [rename_exchange_tx.rs] and [rename_overwrite_tx.rs]

    Moving one entry, swapping two file entries, and moving a file entry over
    another file's.  A directory may not move below itself: the rename walks
    the entries under it first. *)

From S2P Require Import Prelude Bytes Block CrashDevice Allocation Superblock Region AllocationDisk.
From S2P Require Import Journal JournalCodec JournalRegion Recovery TransactionImage.
From S2P Require Import TransactionPlan InodeCodec RecordTable InodeTable DirectoryCodec Inode.
From S2P Require Import DirectoryTable Atomicity CreateTx Format Namespace NamespaceEdit Fsck.
From S2P Require Import Transition LinkTx TruncateTx.

(** [validate_directory_parent], [validate_parent]: the three copies. *)
Definition validate_directory_parent (inodes : list PersistedInode) (p : Z) (label : string)
    : outcome io_error unit :=
  let? inode := ok_or (find_inode inodes p) (invalid_input (label +:+ " inode does not exist")) in
  try? ensure (bool_decide (kind inode = Directory)) (invalid_input (label +:+ " inode is not a directory")) in
  Ok tt.

Definition validate_regular_file_target (inodes : list PersistedInode) (t : Z) (label : string)
    : outcome io_error unit :=
  let? inode := ok_or (find_inode inodes t) (invalid_input (label +:+ " inode does not exist")) in
  try? ensure (bool_decide (kind inode = File)) (invalid_input (label +:+ " inode is not a regular file")) in
  Ok tt.

(** ** Rename *)

(** The children of every directory, the moved entry left out. *)
Definition children_without (entries : list PersistedDirectoryEntry) (source_index : Z) : Adjacency :=
  foldl (fun children '(index, entry) =>
           if index =? source_index then children
           else <[parent entry := default [] (children !! parent entry) ++ [target entry]]> children)
    ∅ (enumerate entries).

Fixpoint cycle_search (fuel : nat) (children : Adjacency) (new_parent : Z) (seen : gset Z) (pending : list Z)
    : outcome io_error bool :=
  match vec_pop pending with
  | None => Ok false
  | Some (inode, pending) =>
      match fuel with
      | O => Panic
      | S fuel =>
          if bool_decide (inode ∈ seen) then cycle_search fuel children new_parent seen pending
          else if inode =? new_parent then Ok true
          else cycle_search fuel children new_parent ({[inode]} ∪ seen)
                 (pending ++ default [] (children !! inode))
      end
  end.

(** Every entry is pushed at most once. *)
Definition would_create_directory_cycle (entries : list PersistedDirectoryEntry) (source_index t new_parent : Z)
    : outcome io_error bool :=
  if t =? new_parent then Ok true else
  cycle_search (S (length entries)) (children_without entries source_index) new_parent ∅ [t].

(** The in-memory part of [rename_entry_journaled]; [None] for a rename onto
    itself. *)
Definition rename_edit (inodes : list PersistedInode) (entries : list PersistedDirectoryEntry)
    (old_parent : Z) (old_name : bytes) (new_parent : Z) (new_name : bytes)
    : outcome io_error (option (list PersistedDirectoryEntry)) :=
  let? source_index := ok_or (position (entry_named old_parent old_name) entries)
                         (invalid_input "rename source entry does not exist") in
  let? source := index_at entries source_index in
  let t := target source in
  try? ensure (negb (t =? 1)) (invalid_input "root inode cannot be renamed") in
  if (old_parent =? new_parent) && bool_decide (old_name = new_name) then Ok None else
  try? ensure (negb (existsb (fun '(index, entry) => negb (index =? source_index) && entry_named new_parent new_name entry)
                       (enumerate entries))) (invalid_input "rename destination already exists") in
  let candidate := mkPersistedDirectoryEntry new_parent t new_name in
  try? encode_directory_entry candidate in
  let? target_inode := ok_or (find_inode inodes t) (invalid_input "rename source targets a missing inode") in
  let? cycle := if bool_decide (kind target_inode = Directory)
                then would_create_directory_cycle entries source_index t new_parent else Ok false in
  try? ensure (negb cycle) (invalid_input "rename would create a directory cycle") in
  let? entries := set_at entries source_index candidate in
  Ok (Some entries).

(** ** Exchange *)

Definition exchange_edit (inodes : list PersistedInode) (entries : list PersistedDirectoryEntry)
    (first_parent : Z) (first_name : bytes) (second_parent : Z) (second_name : bytes)
    : outcome io_error (option (list PersistedDirectoryEntry)) :=
  let? first_index := ok_or (position (entry_named first_parent first_name) entries)
                        (invalid_input "first exchange entry does not exist") in
  let? second_index := ok_or (position (entry_named second_parent second_name) entries)
                         (invalid_input "second exchange entry does not exist") in
  let? first := index_at entries first_index in
  let? second := index_at entries second_index in
  try? validate_regular_file_target inodes (target first) "first exchange target" in
  try? validate_regular_file_target inodes (target second) "second exchange target" in
  if target first =? target second then Ok None else
  let first_replacement := mkPersistedDirectoryEntry first_parent (target second) first_name in
  let second_replacement := mkPersistedDirectoryEntry second_parent (target first) second_name in
  try? encode_directory_entry first_replacement in
  try? encode_directory_entry second_replacement in
  let? entries := set_at entries first_index first_replacement in
  let? entries := set_at entries second_index second_replacement in
  Ok (Some entries).

(** ** Overwrite *)

(** The loop that builds the new table. *)
Definition overwrite_entries (entries : list PersistedDirectoryEntry) (source_index destination_index : Z)
    (replacement : PersistedDirectoryEntry) : list PersistedDirectoryEntry :=
  foldl (fun desired '(index, entry) =>
           if index =? destination_index then desired
           else if index =? source_index then desired ++ [replacement]
           else desired ++ [entry]) [] (enumerate entries).

(** Up to the release of the blocks: the new entries, the overwritten inode and
    its blocks. *)
Definition overwrite_edit (inodes : list PersistedInode) (entries : list PersistedDirectoryEntry)
    (old_parent : Z) (old_name : bytes) (new_parent : Z) (new_name : bytes) (require_multiple_links : bool)
    : outcome io_error (option (list PersistedDirectoryEntry * Z * list Z)) :=
  try? validate_directory_parent inodes old_parent "rename-overwrite source parent" in
  try? validate_directory_parent inodes new_parent "rename-overwrite destination parent" in
  let? source_index := ok_or (position (entry_named old_parent old_name) entries)
                         (invalid_input "rename-overwrite source entry does not exist") in
  let? destination_index := ok_or (position (entry_named new_parent new_name) entries)
                              (invalid_input "rename-overwrite destination entry does not exist") in
  if source_index =? destination_index then Ok None else
  let? source := index_at entries source_index in
  let? destination := index_at entries destination_index in
  try? ensure (negb (target source =? target destination))
         (invalid_input "rename-overwrite source and destination may not alias the same inode") in
  let? source_inode := ok_or (find_inode inodes (target source))
                         (invalid_input "rename-overwrite source targets a missing inode") in
  try? ensure (bool_decide (kind source_inode = File))
         (invalid_input "rename-overwrite source must be a regular file") in
  let? destination_inode := ok_or (find_inode inodes (target destination))
                              (invalid_input "rename-overwrite destination targets a missing inode") in
  try? ensure (bool_decide (kind destination_inode = File))
         (invalid_input "rename-overwrite destination must be a regular file") in
  let references := reference_count entries (target destination) in
  try? (if require_multiple_links then
          ensure (negb (references <? 2))
            (invalid_input "linked rename-overwrite destination must have multiple namespace references")
        else ensure (references =? 1)
               (invalid_input "rename-overwrite destination must have exactly one namespace reference")) in
  let replacement := mkPersistedDirectoryEntry new_parent (target source) new_name in
  try? encode_directory_entry replacement in
  Ok (Some (overwrite_entries entries source_index destination_index replacement, target destination,
            blocks destination_inode)).

Definition overwrite_release_error (error : AllocationError) : io_error :=
  invalid_input ("rename-overwrite block release failed: " +:+ allocation_error_fmt error).

Definition overwrite_release (a : BlockAllocator) (inodes : list PersistedInode) (t : Z) (bs : list Z)
    : outcome io_error (BlockAllocator * list PersistedInode) :=
  let? a := release overwrite_release_error a bs in
  Ok (a, filter (fun inode => id inode <> t) inodes).

Section Ops.
Context `{BlockDevice D}.

Definition rename_entry_journaled (superblock : Superblock) (old_parent : Z) (old_name : bytes)
    (new_parent : Z) (new_name : bytes) : M D RecoveryReport :=
  let! inodes := load_inode_table superblock in
  do! ilift (validate_directory_parent inodes old_parent "rename source parent") in
  do! ilift (validate_directory_parent inodes new_parent "rename destination parent") in
  let! entries := load_directory_table superblock in
  let! edit := ilift (rename_edit inodes entries old_parent old_name new_parent new_name) in
  match edit with
  | None => iret report_default
  | Some entries => store_directory_table_journaled superblock entries
  end.

Definition rename_exchange_files_journaled (superblock : Superblock) (first_parent : Z) (first_name : bytes)
    (second_parent : Z) (second_name : bytes) : M D RecoveryReport :=
  do! check_device in
  let! inodes := load_inode_table superblock in
  do! ilift (validate_directory_parent inodes first_parent "first exchange parent") in
  do! ilift (validate_directory_parent inodes second_parent "second exchange parent") in
  if (first_parent =? second_parent) && bool_decide (first_name = second_name) then iret report_default else
  let! entries := load_directory_table superblock in
  let! edit := ilift (exchange_edit inodes entries first_parent first_name second_parent second_name) in
  match edit with
  | None => iret report_default
  | Some entries =>
      let! report := store_directory_table_journaled superblock entries in
      do! recover_journal_and_checkpoint superblock in
      iret report
  end.

Definition rename_overwrite_file_impl (superblock : Superblock) (old_parent : Z) (old_name : bytes)
    (new_parent : Z) (new_name : bytes) (require_multiple_links : bool) : M D RecoveryReport :=
  do! check_device in
  let! allocator := load_allocator superblock in
  let! inodes := load_inode_table superblock in
  let! entries := load_directory_table superblock in
  let! edit := ilift (overwrite_edit inodes entries old_parent old_name new_parent new_name require_multiple_links) in
  match edit with
  | None => iret report_default
  | Some (entries, t, bs) =>
      if require_multiple_links then
        let! report := store_directory_table_journaled superblock entries in
        do! recover_journal_and_checkpoint superblock in
        iret report
      else
        let! (allocator, inodes) := ilift (overwrite_release allocator inodes t bs) in
        store_create_metadata_journaled superblock allocator inodes entries
  end.

Definition rename_overwrite_file_journaled (superblock : Superblock) (old_parent : Z) (old_name : bytes)
    (new_parent : Z) (new_name : bytes) : M D RecoveryReport :=
  rename_overwrite_file_impl superblock old_parent old_name new_parent new_name false.

Definition rename_overwrite_linked_file_journaled (superblock : Superblock) (old_parent : Z) (old_name : bytes)
    (new_parent : Z) (new_name : bytes) : M D RecoveryReport :=
  rename_overwrite_file_impl superblock old_parent old_name new_parent new_name true.
End Ops.

(** ** As functions of the metadata *)

Definition rename (m : metadata) (op : Z) (on : bytes) (np : Z) (nn : bytes) : outcome io_error (unit * metadata) :=
  let '(a, inodes, entries) := m in
  try? validate_directory_parent inodes op "rename source parent" in
  try? validate_directory_parent inodes np "rename destination parent" in
  let? edit := rename_edit inodes entries op on np nn in
  match edit with None => Ok (tt, m) | Some entries => Ok (tt, (a, inodes, entries)) end.

Definition exchange (m : metadata) (p1 : Z) (n1 : bytes) (p2 : Z) (n2 : bytes) : outcome io_error (unit * metadata) :=
  let '(a, inodes, entries) := m in
  try? validate_directory_parent inodes p1 "first exchange parent" in
  try? validate_directory_parent inodes p2 "second exchange parent" in
  if (p1 =? p2) && bool_decide (n1 = n2) then Ok (tt, m) else
  let? edit := exchange_edit inodes entries p1 n1 p2 n2 in
  match edit with None => Ok (tt, m) | Some entries => Ok (tt, (a, inodes, entries)) end.

Definition overwrite (m : metadata) (op : Z) (on : bytes) (np : Z) (nn : bytes) (multiple : bool)
    : outcome io_error (unit * metadata) :=
  let '(a, inodes, entries) := m in
  let? edit := overwrite_edit inodes entries op on np nn multiple in
  match edit with
  | None => Ok (tt, m)
  | Some (entries, t, bs) =>
      if multiple then Ok (tt, (a, inodes, entries))
      else let? (a, inodes) := overwrite_release a inodes t bs in Ok (tt, (a, inodes, entries))
  end.

(** ** The cycle search *)

Lemma elem_of_enumerate {A} (l : list A) i x : (i, x) ∈ enumerate l <-> 0 <= i /\ l !! Z.to_nat i = Some x.
Proof.
  unfold enumerate. rewrite elem_of_lookup_imap. split.
  - intros (j & y & [= -> ->] & Hj). rewrite Nat2Z.id. split; [lia|done].
  - intros [H0 Hx]. exists (Z.to_nat i), x. by rewrite Z2Nat.id.
Qed.

(** The entries but the one at [i]. *)
Definition entries_without (entries : list PersistedDirectoryEntry) (i : Z) : list PersistedDirectoryEntry :=
  (filter (fun p => p.1 <> i) (enumerate entries)).*2.

Lemma elem_of_entries_without entries i e : 0 <= i ->
  e ∈ entries_without entries i <-> others entries (Z.to_nat i) e.
Proof.
  intros Hi. unfold entries_without, others. rewrite list_elem_of_fmap. split.
  - intros ([j e'] & -> & [Hne [H0 He]%elem_of_enumerate]%list_elem_of_filter). simpl in *.
    exists (Z.to_nat j). split; [lia|done].
  - intros (j & Hne & Hj). exists (Z.of_nat j, e). split; [done|]. apply list_elem_of_filter. simpl.
    split; [lia|]. apply elem_of_enumerate. rewrite Nat2Z.id. split; [lia|done].
Qed.

Lemma length_entries_without entries i : (length (entries_without entries i) <= length entries)%nat.
Proof.
  unfold entries_without. rewrite length_fmap. etrans; [apply length_filter|]. unfold enumerate. by rewrite length_imap.
Qed.

Lemma children_without_lookup entries i x :
  default [] (children_without entries i !! x) = targets_of (entries_without entries i) x.
Proof.
  unfold children_without, entries_without. induction (enumerate entries) as [|[j e] l IH] using rev_ind; [done|].
  rewrite foldl_app, filter_app, fmap_app. simpl. rewrite filter_cons, filter_nil. simpl.
  destruct (j =? i) eqn:Hj; bool_facts.
  - rewrite decide_False by naive_solver. simpl. by rewrite app_nil_r.
  - rewrite decide_True by done. simpl. rewrite targets_of_snoc. destruct (decide (parent e = x)) as [<-|].
    + by rewrite lookup_insert_eq, <- IH.
    + by rewrite lookup_insert_ne, app_nil_r, <- IH.
Qed.

Section Search.
Context (L : list PersistedDirectoryEntry) (children : Adjacency) (root new_parent : Z).
Context (Hchildren : forall x, default [] (children !! x) = targets_of L x).

Lemma cycle_search_spec fuel : forall R pending,
  reach_inv L root R pending -> new_parent ∉ R -> (length pending + unfollowed L R <= fuel)%nat ->
  exists b, cycle_search fuel children new_parent R pending = Ok b /\
    (b = true <-> rtc (link L) root new_parent).
Proof.
  assert (Hend : forall R, reach_inv L root R [] -> new_parent ∉ R -> ~ rtc (link L) root new_parent).
  { intros R Hinv Hn Hr. destruct (reach_loop_spec L children root Hchildren (unfollowed L R) R []) as (R' & HR & Hiff);
      [done|simpl; lia|].
    assert (R' = R) as -> by (destruct (unfollowed L R); unfold reach_loop in HR; simpl in HR; congruence). by apply Hn, Hiff. }
  induction fuel as [|fuel IH]; intros R pending Hinv Hn Hf; simpl.
  - destruct pending; [|simpl in Hf; lia]. exists false. split; [done|]. split; [done|]. by intros ?%(Hend R).
  - destruct (vec_pop pending) as [[x pend]|] eqn:Hp.
    + apply vec_pop_Some in Hp as ->. rewrite length_app in Hf. simpl in Hf. case_bool_decide as Hx.
      * apply IH; [by eapply reach_inv_pop|done|lia].
      * destruct (x =? new_parent) eqn:Hxn; bool_facts.
        -- exists true. split; [done|]. split; [|done]. intros _. subst x. apply Hinv. right.
           apply elem_of_app. right. by apply list_elem_of_singleton.
        -- rewrite Hchildren. apply IH; [by eapply reach_inv_push|set_solver|]. rewrite length_app.
           pose proof (unfollowed_insert L R x Hx). lia.
    + apply vec_pop_None in Hp as ->. exists false. split; [done|]. split; [done|]. by intros ?%(Hend R).
Qed.
End Search.

Lemma would_create_directory_cycle_spec entries i t np : 0 <= i ->
  exists b, would_create_directory_cycle entries i t np = Ok b /\
    (b = true <-> rtc (link_others entries (Z.to_nat i)) t np).
Proof.
  intros Hi. unfold would_create_directory_cycle.
  assert (Hlink : forall x y, link (entries_without entries i) x y <-> link_others entries (Z.to_nat i) x y).
  { intros x y. unfold link, link_others. by setoid_rewrite (elem_of_entries_without entries i _ Hi). }
  destruct (t =? np) eqn:Ht; bool_facts; [exists true; by subst|].
  destruct (cycle_search_spec (entries_without entries i) (children_without entries i) t np
    (children_without_lookup entries i) (S (length entries)) ∅ [t]) as (b & Hb & Hiff).
  - split; [|split]; [|set_solver..]. intros x [?| ->%list_elem_of_singleton]; [set_solver|done].
  - set_solver.
  - unfold unfollowed. simpl. apply le_n_S. etrans; [apply length_filter|apply length_entries_without].
  - exists b. split; [done|]. rewrite Hiff.
    split; apply (rtc_congruence (fun x : Z => x)); intros ? ? ?; by apply Hlink.
Qed.

(** ** Rename keeps the metadata sound *)

Lemma validate_directory_parent_Ok inodes p label u :
  validate_directory_parent inodes p label = Ok u -> inode_of_kind inodes p Directory.
Proof. by intros [Hp _]%find_kind_Ok. Qed.

Lemma validate_regular_file_target_Ok inodes t label u :
  validate_regular_file_target inodes t label = Ok u -> inode_of_kind inodes t File.
Proof. by intros [Hp _]%find_kind_Ok. Qed.

(** The rename's checks, and the one table it may store. *)
Lemma rename_edit_Ok inodes entries op on np nn es : NoDup (id <$> inodes) ->
  rename_edit inodes entries op on np nn = Ok (Some es) ->
  exists i e0, entries !! i = Some e0 /\ parent e0 = op /\ name e0 = on /\
    es = <[i := mkPersistedDirectoryEntry np (target e0) nn]> entries /\
    (inode_of_kind inodes (target e0) Directory -> ~ rtc (link_others entries i) (target e0) np).
Proof.
  intros Hids. unfold rename_edit. intros (i & Hi & H)%obind_Ok.
  apply ok_or_Ok, position_entry in Hi as (e & He & Hp & Hn & Hr & Hidx). rewrite Hidx in H. simpl in H.
  apply obind_Ok in H as (? & _ & H). destruct (_ && _); [done|]. apply obind_Ok in H as (? & _ & H).
  apply obind_Ok in H as (? & _ & H). apply obind_Ok in H as (inode & Hf & H). apply ok_or_Ok in Hf.
  destruct (would_create_directory_cycle_spec entries i (target e) np) as (b & Hb & Hiff); [lia|].
  apply obind_Ok in H as (cyc & Hcyc & H). apply obind_Ok in H as (? & Hno%ensure_Ok & H).
  rewrite set_at_Ok in H by done. simpl in H. simplify_eq. exists (Z.to_nat i), e. split_and!; try done.
  intros Hk Hcycle. apply find_inode_kind in Hf. pose proof (inode_kind_unique _ _ _ _ Hids Hf Hk) as Hkind.
  rewrite Hkind, bool_decide_eq_true_2, Hb in Hcyc by done. simplify_eq. apply Hiff in Hcycle as ->. done.
Qed.

Lemma rename_sound m op on np nn b m' : NoDup (id <$> m.1.2) ->
  metadata_sound m -> rename m op on np nn = Ok (b, m') -> metadata_sound m'.
Proof.
  destruct m as [[a inodes] entries]. simpl. intros Hids [Ho Hn] H. unfold rename in H.
  apply obind_Ok in H as (? & _ & H).
  apply obind_Ok in H as (? & Hnp%validate_directory_parent_Ok & H).
  apply obind_Ok in H as ([es|] & He & H); simplify_eq; [|done].
  apply rename_edit_Ok in He as (i & e0 & Hi & _ & _ & -> & Hno); [|done].
  split; [done|]. apply namespace_ok_tree in Hn; [|done].
  by apply namespace_tree_ok, (tree_move inodes entries i e0).
Qed.

(** ** Rename, exactly *)

Definition entry_slot (e : PersistedDirectoryEntry) : Z * bytes := (parent e, name e).

Lemma validate_directory_parent_of inodes p label : NoDup (id <$> inodes) ->
  inode_of_kind inodes p Directory -> validate_directory_parent inodes p label = Ok tt.
Proof.
  intros Hids Hp. destruct (find_inode_of_kind _ _ _ Hids Hp) as (inode & Hf & Hk).
  unfold validate_directory_parent. rewrite Hf. simpl. by rewrite bool_decide_eq_true_2.
Qed.

(** A path from the target of an entry need not use that entry. *)
Lemma link_others_path entries i e x : entries !! i = Some e ->
  rtc (link entries) (target e) x <-> rtc (link_others entries i) (target e) x.
Proof.
  intros Hi. split.
  - intros H. assert (Hp : rtc (fun x y => link_others entries i x y \/ x = parent e /\ y = target e) (target e) x).
    { eapply (rtc_congruence (fun x : Z => x)); [|exact H]. intros y z. apply (link_split entries i e Hi). }
    apply rtc_plus_edge in Hp. tauto.
  - apply (rtc_congruence (fun x : Z => x)). intros y z H. apply (link_split entries i e Hi). by left.
Qed.

(** The only entry in a slot. *)
Lemma slot_unique entries i j e e' : NoDup (entry_slot <$> entries) -> entries !! i = Some e ->
  entries !! j = Some e' -> parent e = parent e' -> name e = name e' -> i = j.
Proof.
  intros Hnd Hi Hj Hp Hn. eapply NoDup_lookup; [exact Hnd|by rewrite list_lookup_fmap, Hi|].
  rewrite list_lookup_fmap, Hj. simpl. unfold entry_slot. congruence.
Qed.

Section Exact.
Context (inodes : list PersistedInode) (entries : list PersistedDirectoryEntry).
Context (Hids : NoDup (id <$> inodes)) (Hslots : NoDup (entry_slot <$> entries)) (Htree : namespace_tree inodes entries).
Context (op : Z) (on : bytes) (np : Z) (nn : bytes) (Hnn : str_typed nn).
Context (Hids64 : forall x k, inode_of_kind inodes x k -> is_u64 x) (Hnp : inode_of_kind inodes np Directory).

(** The move of entry [i], [e], as the code decides about it. *)
Definition may_move (e : PersistedDirectoryEntry) : Prop :=
  (forall e', e' ∈ entries -> ~ (parent e' = np /\ name e' = nn)) /\
  entry_valid (mkPersistedDirectoryEntry np (target e) nn) /\ ~ rtc (link entries) (target e) np.

Lemma rename_edit_found i e : entries !! i = Some e -> parent e = op -> name e = on -> target e <> ROOT_INODE_ID ->
  (op, on) <> (np, nn) -> may_move e ->
  rename_edit inodes entries op on np nn = Ok (Some (<[i := mkPersistedDirectoryEntry np (target e) nn]> entries)).
Proof.
  intros Hi Hp Hn Hroot Hne (Hfree & Hval & Hcyc). pose proof (lookup_lt_Some _ _ _ Hi) as Hlt. unfold rename_edit.
  rewrite (position_only _ _ i e Hi); [|by apply entry_named_eq|].
  2: { intros j y Hj [? ?]%entry_named_eq. eapply slot_unique; [done|exact Hj|exact Hi|congruence..]. }
  cbn [ok_or obind]. rewrite (index_at_Ok _ _ e) by (rewrite ?Nat2Z.id; done || lia). cbn [obind].
  rewrite (proj2 (Z.eqb_neq _ _)) by done. cbn [negb ensure obind].
  replace ((op =? np) && bool_decide (on = nn)) with false.
  2: { symmetry. apply not_true_iff_false. intros H. bool_facts. congruence. }
  replace (existsb _ (enumerate entries)) with false.
  2: { symmetry. apply not_true_iff_false. intros ([k y] & Hin%list_elem_of_In & Hk)%existsb_exists.
       apply elem_of_enumerate in Hin as [_ Hin]. apply andb_true_iff in Hk as [_ Hk%entry_named_eq].
       apply (Hfree y); [by eapply list_elem_of_lookup_2|done]. }
  cbn [negb ensure obind]. destruct (tree_targets _ _ Htree e (list_elem_of_lookup_2 _ _ _ Hi)) as [k Hk].
  assert (Hty : entry_typed (mkPersistedDirectoryEntry np (target e) nn)).
  { destruct Hnn. split_and!; try done; simpl; by eapply Hids64. }
  pose proof (encode_directory_entry_spec _ Hty) as Henc. destruct (encode_directory_entry _) as [bs|er|]; simpl in Henc; [|done..].
  cbn [obind]. destruct (find_inode_of_kind _ _ _ Hids Hk) as (inode & Hf & Hkind). rewrite Hf. cbn [ok_or obind].
  assert (Hc : (if bool_decide (kind inode = Directory)
     then would_create_directory_cycle entries (Z.of_nat i) (target e) np else Ok false) = Ok false).
  { case_bool_decide; [|done].
    destruct (would_create_directory_cycle_spec entries (Z.of_nat i) (target e) np) as (b & -> & Hb); [lia|].
    f_equal. apply not_true_iff_false. intros Ht%Hb. apply Hcyc. rewrite Nat2Z.id in Ht. by apply (link_others_path _ i). }
  rewrite Hc. cbn [obind negb ensure]. rewrite set_at_Ok by (unfold zlen; lia). by rewrite Nat2Z.id.
Qed.

Lemma rename_edit_Some es : rename_edit inodes entries op on np nn = Ok (Some es) ->
  exists i e, entries !! i = Some e /\ parent e = op /\ name e = on /\ target e <> ROOT_INODE_ID /\
    (op, on) <> (np, nn) /\ may_move e /\ es = <[i := mkPersistedDirectoryEntry np (target e) nn]> entries.
Proof.
  unfold rename_edit. intros (i & Hi & H)%obind_Ok.
  apply ok_or_Ok, position_entry in Hi as (e & He & Hp & Hn & Hr & Hidx). rewrite Hidx in H. cbn [obind] in H.
  apply obind_Ok in H as (? & Hroot%ensure_Ok & H). destruct (_ && _) eqn:Hsame; [done|].
  apply obind_Ok in H as (? & Hfree%ensure_Ok & H). apply obind_Ok in H as (bs & Henc & H).
  apply obind_Ok in H as (inode & Hf & H). apply ok_or_Ok, find_inode_kind in Hf.
  apply obind_Ok in H as (cyc & Hcyc & H). apply obind_Ok in H as (? & Hno%ensure_Ok & H). bool_facts.
  rewrite set_at_Ok in H by done. cbn [obind] in H. simplify_eq.
  assert (Hne : (parent e, name e) <> (np, nn)).
  { intros [= Ha Hb]. by rewrite Ha, Hb, Z.eqb_refl, bool_decide_eq_true_2 in Hsame. }
  exists (Z.to_nat i), e. split_and!; [done..| |done]. split_and!.
  - intros e' He' [Hp' Hn']. apply not_true_iff_false in Hfree. apply Hfree.
    apply list_elem_of_lookup in He' as [k Hk]. apply existsb_exists. exists (Z.of_nat k, e').
    rewrite andb_true_iff, entry_named_eq, negb_true_iff, Z.eqb_neq, <- list_elem_of_In, elem_of_enumerate, Nat2Z.id.
    split_and!; [lia|done| |done..]. intros <-. rewrite Nat2Z.id in He. congruence.
  - assert (Hty : entry_typed (mkPersistedDirectoryEntry np (target e) nn)).
    { destruct Hnn. split_and!; try done; simpl; by eapply Hids64. }
    pose proof (encode_directory_entry_spec _ Hty) as Hs. rewrite Henc in Hs. apply Hs.
  - intros Hpath. case_bool_decide as Hk.
    + destruct (would_create_directory_cycle_spec entries i (target e) np) as (b & Hb & Hiff); [lia|].
      rewrite Hb in Hcyc. simplify_eq. assert (false = true); [|done]. apply Hiff. by apply (link_others_path _ _ e).
    + destruct (kind inode) eqn:Hkind; [|done]. apply rtc_inv in Hpath as [Heq|(z & (e' & He' & Hpar & _) & _)].
      * rewrite Heq in Hf. by pose proof (inode_kind_unique _ _ _ _ Hids Hf Hnp).
      * pose proof (tree_parents _ _ Htree e' He') as Hd. rewrite Hpar in Hd.
        by pose proof (inode_kind_unique _ _ _ _ Hids Hf Hd).
Qed.

Lemma rename_edit_None : rename_edit inodes entries op on np nn = Ok None ->
  (op, on) = (np, nn) /\ exists i e, entries !! i = Some e /\ parent e = op /\ name e = on /\ target e <> ROOT_INODE_ID.
Proof.
  unfold rename_edit. intros (i & Hi & H)%obind_Ok.
  apply ok_or_Ok, position_entry in Hi as (e & He & Hp & Hn & Hr & Hidx). rewrite Hidx in H. cbn [obind] in H.
  apply obind_Ok in H as (? & Hroot%ensure_Ok & H). destruct (_ && _) eqn:Hsame; [|by inv_ok].
  bool_facts. split; [congruence|]. by exists (Z.to_nat i), e.
Qed.

Lemma rename_edit_same i e : entries !! i = Some e -> parent e = op -> name e = on -> target e <> ROOT_INODE_ID ->
  (op, on) = (np, nn) -> rename_edit inodes entries op on np nn = Ok None.
Proof.
  intros Hi Hp Hn Hroot [= <- <-]. unfold rename_edit.
  destruct (position (entry_named op on) entries) as [k|] eqn:Hk.
  - apply position_entry in Hk as (e' & He' & Hp' & Hn' & Hr & Hidx).
    assert (i = Z.to_nat k) as -> by (eapply (slot_unique entries); [done..|congruence|congruence]).
    cbn [ok_or obind]. rewrite Hidx. cbn [obind]. simplify_eq. rewrite (proj2 (Z.eqb_neq _ _)) by done.
    cbn [negb ensure obind]. by rewrite Z.eqb_refl, bool_decide_eq_true_2.
  - pose proof (position_None _ _ Hk e (list_elem_of_lookup_2 _ _ _ Hi)) as Hf.
    rewrite (proj2 (entry_named_eq op on e)) in Hf; done.
Qed.
End Exact.

(** C17: [rename_entry_journaled]'s edit is exact.  On sound metadata it
    succeeds if and only if both parents are directories, the source entry
    exists and is not the root's, and the move is a no-op or goes to a free
    slot, gives a valid entry and does not put a directory at or below itself;
    and then exactly the moved entry changes, in place.  In particular the
    cycle search always ends and answers reachability in the namespace. *)
Theorem rename_exact a inodes entries op on np nn m' :
  NoDup (id <$> inodes) -> NoDup (entry_slot <$> entries) -> Forall inode_typed inodes ->
  namespace_ok inodes entries -> str_typed nn ->
  rename (a, inodes, entries) op on np nn = Ok (tt, m') <->
  inode_of_kind inodes op Directory /\ inode_of_kind inodes np Directory /\
  exists i e, entries !! i = Some e /\ parent e = op /\ name e = on /\ target e <> ROOT_INODE_ID /\
    ((op, on) = (np, nn) /\ m' = (a, inodes, entries) \/
     (op, on) <> (np, nn) /\ may_move entries np nn e /\
     m' = (a, inodes, <[i := mkPersistedDirectoryEntry np (target e) nn]> entries)).
Proof.
  intros Hids Hslots Hty Hn Hnn. apply namespace_ok_tree in Hn as Htree; [|done].
  assert (H64 : forall x k, inode_of_kind inodes x k -> is_u64 x).
  { intros x k (i & Hi & <- & _). rewrite Forall_forall in Hty. by apply Hty. }
  unfold rename. split.
  - intros (u & Hop%validate_directory_parent_Ok & H)%obind_Ok.
    apply obind_Ok in H as (u' & Hnp%validate_directory_parent_Ok & H). split; [done|]. split; [done|].
    apply obind_Ok in H as ([es|] & He & H); simplify_eq.
    + apply (rename_edit_Some inodes entries) in He as (i & e & ? & ? & ? & ? & ? & ? & ->); [|done..].
      exists i, e. split_and!; try done. by right.
    + apply rename_edit_None in He as (? & i & e & ? & ? & ? & ?). exists i, e. split_and!; try done. by left.
  - intros (Hop & Hnp & i & e & Hi & Hp & Hnm & Hroot & Hcase).
    rewrite !validate_directory_parent_of by done. cbn [obind]. destruct Hcase as [[Hsame ->]|(Hne & Hmv & ->)].
    + by erewrite rename_edit_same by eassumption.
    + by erewrite rename_edit_found by eassumption.
Qed.

(** ** Exchange keeps the metadata sound *)

Lemma exchange_edit_Ok inodes entries p1 n1 p2 n2 es :
  exchange_edit inodes entries p1 n1 p2 n2 = Ok (Some es) -> ~ (p1 = p2 /\ n1 = n2) ->
  exists i j e1 e2, i <> j /\ entries !! i = Some e1 /\ entries !! j = Some e2 /\
    parent e1 = p1 /\ name e1 = n1 /\ parent e2 = p2 /\ name e2 = n2 /\
    inode_of_kind inodes (target e1) File /\ inode_of_kind inodes (target e2) File /\
    es = <[j := mkPersistedDirectoryEntry p2 (target e1) n2]>
           (<[i := mkPersistedDirectoryEntry p1 (target e2) n1]> entries).
Proof.
  unfold exchange_edit. intros (i & Hi & H)%obind_Ok Hne. apply ok_or_Ok, position_entry in Hi as (e1 & He1 & Hp1 & Hn1 & Hr1 & Hx1).
  apply obind_Ok in H as (j & Hj & H). apply ok_or_Ok, position_entry in Hj as (e2 & He2 & Hp2 & Hn2 & Hr2 & Hx2).
  rewrite Hx1, Hx2 in H. simpl in H.
  apply obind_Ok in H as (? & Hf1%validate_regular_file_target_Ok & H).
  apply obind_Ok in H as (? & Hf2%validate_regular_file_target_Ok & H).
  destruct (_ =? _); [done|]. do 2 apply obind_Ok in H as (? & _ & H).
  rewrite set_at_Ok in H by done. simpl in H. rewrite set_at_Ok in H by (by rewrite zlen_insert). simpl in H.
  simplify_eq. exists (Z.to_nat i), (Z.to_nat j), e1, e2. split_and!; try done.
  intros Heq. apply Hne. rewrite Heq in He1. split; congruence.
Qed.

(** When both names lead to the same file there is nothing to do. *)
Lemma exchange_edit_None inodes entries p1 n1 p2 n2 :
  exchange_edit inodes entries p1 n1 p2 n2 = Ok None ->
  exists i j e1 e2, entries !! i = Some e1 /\ entries !! j = Some e2 /\
    parent e1 = p1 /\ name e1 = n1 /\ parent e2 = p2 /\ name e2 = n2 /\
    inode_of_kind inodes (target e1) File /\ target e1 = target e2.
Proof.
  unfold exchange_edit. intros (i & Hi & H)%obind_Ok. apply ok_or_Ok, position_entry in Hi as (e1 & He1 & Hp1 & Hn1 & Hr1 & Hx1).
  apply obind_Ok in H as (j & Hj & H). apply ok_or_Ok, position_entry in Hj as (e2 & He2 & Hp2 & Hn2 & Hr2 & Hx2).
  rewrite Hx1, Hx2 in H. simpl in H. apply obind_Ok in H as (? & Hf1%validate_regular_file_target_Ok & H).
  apply obind_Ok in H as (? & _ & H). destruct (_ =? _) eqn:Ht; [|by inv_ok]. bool_facts. eauto 15.
Qed.

(** An entry replaced by one for a file: the other entries stay. *)
Lemma elem_of_replaced_ne (entries : list PersistedDirectoryEntry) i e0 e1 e :
  entries !! i = Some e0 -> e ∈ entries -> e <> e0 -> e ∈ <[i := e1]> entries.
Proof.
  intros Hi He Hne. apply (elem_of_replaced entries i e0 e1 Hi). left.
  by apply (elem_of_others entries i e0 Hi) in He as [|].
Qed.

Lemma exchange_sound m p1 n1 p2 n2 b m' : NoDup (id <$> m.1.2) ->
  metadata_sound m -> exchange m p1 n1 p2 n2 = Ok (b, m') -> metadata_sound m'.
Proof.
  destruct m as [[a inodes] entries]. simpl. intros Hids [Ho Hn] H. unfold exchange in H.
  apply obind_Ok in H as (? & Hp1%validate_directory_parent_Ok & H).
  apply obind_Ok in H as (? & Hp2%validate_directory_parent_Ok & H).
  destruct ((p1 =? p2) && bool_decide (n1 = n2)) eqn:Hsame; [by simplify_eq|].
  assert (Hne : ~ (p1 = p2 /\ n1 = n2)).
  { intros [-> ->]. by rewrite Z.eqb_refl, bool_decide_eq_true_2 in Hsame. }
  apply obind_Ok in H as ([es|] & He & H); simplify_eq; [|done].
  apply exchange_edit_Ok in He as (i & j & e1 & e2 & Hij & He1 & He2 & Hpe1 & _ & Hpe2 & _ & Hf1 & Hf2 & ->); [|done].
  split; [done|]. apply namespace_ok_tree in Hn; [|done].
  set (r1 := mkPersistedDirectoryEntry p1 (target e2) n1). set (r2 := mkPersistedDirectoryEntry p2 (target e1) n2).
  assert (He2' : <[i := r1]> entries !! j = Some e2) by (by rewrite list_lookup_insert_ne).
  apply namespace_tree_ok, (tree_file_edit inodes entries); [done|done|..].
  - intros e [(k & Hk & Hek)| ->]%(elem_of_replaced _ j e2 r2 He2'); [|by right].
    assert (Hin : e ∈ <[i := r1]> entries) by (apply list_elem_of_lookup; eauto).
    apply (elem_of_replaced _ i e1 r1 He1) in Hin as [(k' & _ & Hk')| ->]; [|by right].
    left. apply list_elem_of_lookup. eauto.
  - intros e He. destruct (decide (e = e1)) as [->|]; [by right|]. destruct (decide (e = e2)) as [->|]; [by right|].
    left. eapply elem_of_replaced_ne; [done| |done]. by eapply elem_of_replaced_ne.
  - assert (Hr2 : r2 ∈ <[j := r2]> (<[i := r1]> entries)) by (apply (elem_of_replaced _ j e2 r2 He2'); by right).
    assert (Hr1 : r1 ∈ <[j := r2]> (<[i := r1]> entries)).
    { apply (elem_of_replaced _ j e2 r2 He2'). left. exists i. split; [done|].
      apply list_lookup_insert_eq. by eapply lookup_lt_Some. }
    intros y Hy. destruct (decide (y = target e1)) as [->|]; [by exists r2|].
    destruct (decide (y = target e2)) as [->|]; [by exists r1|].
    destruct (tree_files _ _ Hn y Hy) as (e & He & Ht). exists e. split; [|done].
    eapply elem_of_replaced_ne; [done| |by intros ->]. eapply elem_of_replaced_ne; [done|done|by intros ->].
Qed.

(** ** Overwrite keeps the metadata sound *)

Lemma elem_of_overwrite_entries entries i j r e : 0 <= i -> 0 <= j -> i <> j -> i < zlen entries ->
  e ∈ overwrite_entries entries i j r <->
    e = r \/ exists k, k <> Z.to_nat i /\ k <> Z.to_nat j /\ entries !! k = Some e.
Proof.
  intros Hi Hj Hij Hlt. unfold overwrite_entries.
  assert (Hgen : forall L, e ∈ foldl (fun desired '(index, entry) => if index =? j then desired
      else if index =? i then desired ++ [r] else desired ++ [entry]) [] L <->
    exists k e', (k, e') ∈ L /\ k <> j /\ (k = i /\ e = r \/ k <> i /\ e = e')).
  { induction L as [|[k e'] L IH] using rev_ind.
    { simpl. split; [by intros ?%not_elem_of_nil|]. by intros (? & ? & ?%not_elem_of_nil & _). }
    rewrite foldl_app. simpl. transitivity (e ∈ foldl (fun desired '(index, entry) => if index =? j then desired
      else if index =? i then desired ++ [r] else desired ++ [entry]) [] L \/
      k <> j /\ (k = i /\ e = r \/ k <> i /\ e = e')).
    { destruct (k =? j) eqn:Hkj; [|destruct (k =? i) eqn:Hki]; bool_facts; subst;
        rewrite ?elem_of_app, ?list_elem_of_singleton; tauto. }
    rewrite IH. split.
    - intros [(k0 & e0 & Hin & Hk0)|Hk0].
      + exists k0, e0. split; [apply elem_of_app; by left|done].
      + exists k, e'. split; [apply elem_of_app; right; by apply list_elem_of_singleton|done].
    - intros (k0 & e0 & [Hin|Heq]%elem_of_app & Hk0); [left; by exists k0, e0|].
      apply list_elem_of_singleton in Heq. simplify_eq. by right. }
  rewrite Hgen. split.
  - intros (k & e' & [H0 He]%elem_of_enumerate & Hkj & [[-> ->]|[Hki ->]]); [by left|right].
    exists (Z.to_nat k). split_and!; [lia|lia|done].
  - intros [->|(k & Hki & Hkj & He)].
    + destruct (lookup_lt_is_Some_2 entries (Z.to_nat i)) as [e' He']; [unfold zlen in Hlt; lia|].
      exists i, e'. rewrite elem_of_enumerate. auto.
    + exists (Z.of_nat k), e. rewrite elem_of_enumerate, Nat2Z.id. split_and!; [lia|done|lia|]. right. split; [lia|done].
Qed.

(** What an overwrite finds. *)
Record overwrite_found (inodes : list PersistedInode) (entries es : list PersistedDirectoryEntry) (np : Z) (nn : bytes)
    (t : Z) (bs : list Z) (i j : Z) (e1 e2 : PersistedDirectoryEntry) : Prop := {
  ow_source : entries !! Z.to_nat i = Some e1;
  ow_destination : entries !! Z.to_nat j = Some e2;
  ow_bounds : 0 <= i < zlen entries /\ 0 <= j /\ i <> j;
  ow_parent : inode_of_kind inodes np Directory;
  ow_target : target e2 = t /\ target e1 <> t;
  ow_source_file : inode_of_kind inodes (target e1) File;
  ow_destination_file : inode_of_kind inodes t File;
  ow_blocks : exists inode, inode ∈ inodes /\ id inode = t /\ bs = blocks inode;
  ow_entries : es = overwrite_entries entries i j (mkPersistedDirectoryEntry np (target e1) nn);
}.

Lemma overwrite_edit_Ok inodes entries op on np nn (multiple : bool) es t bs :
  overwrite_edit inodes entries op on np nn multiple = Ok (Some (es, t, bs)) ->
  (exists i j e1 e2, overwrite_found inodes entries es np nn t bs i j e1 e2) /\
  if multiple then 2 <= reference_count entries t else reference_count entries t = 1.
Proof.
  unfold overwrite_edit. intros (? & _ & H)%obind_Ok.
  apply obind_Ok in H as (? & Hnp%validate_directory_parent_Ok & H).
  apply obind_Ok in H as (i & Hi & H). apply ok_or_Ok, position_entry in Hi as (e1 & He1 & _ & _ & Hr1 & Hx1).
  apply obind_Ok in H as (j & Hj & H). apply ok_or_Ok, position_entry in Hj as (e2 & He2 & _ & _ & Hr2 & Hx2).
  destruct (i =? j) eqn:Hij; [done|]. rewrite Hx1, Hx2 in H. simpl in H.
  apply obind_Ok in H as (? & Hal%ensure_Ok & H). apply find_kind_Ok in H as [Hf1 H].
  apply obind_Ok in H as (n2 & Hn2%ok_or_Ok & H). apply obind_Ok in H as (? & Hk%ensure_Ok & H).
  apply obind_Ok in H as (? & Hrefs & H). apply obind_Ok in H as (? & _ & H). simplify_eq. bool_facts.
  pose proof (find_inode_kind _ _ _ Hn2) as Hf2. rewrite Hk in Hf2. apply find_inode_Some in Hn2 as [Hin Hid].
  split; [|destruct multiple; apply ensure_Ok in Hrefs; bool_facts; done].
  exists i, j, e1, e2. split; try done; [lia|by exists n2].
Qed.

Section Overwrite.
Context (inodes : list PersistedInode) (entries es : list PersistedDirectoryEntry) (np : Z) (nn : bytes) (t : Z) (bs : list Z).
Context (i j : Z) (e1 e2 : PersistedDirectoryEntry) (How : overwrite_found inodes entries es np nn t bs i j e1 e2).
Context (Hids : NoDup (id <$> inodes)) (Htree : namespace_tree inodes entries).

Let replacement := mkPersistedDirectoryEntry np (target e1) nn.

Lemma elem_of_desired e : e ∈ es <->
  e = replacement \/ exists k, k <> Z.to_nat i /\ k <> Z.to_nat j /\ entries !! k = Some e.
Proof.
  destruct How as [_ _ (Hi & Hj & Hij) _ _ _ _ _ ->]. apply elem_of_overwrite_entries; (done || lia).
Qed.

Lemma desired_new e : e ∈ es -> e ∈ entries \/
  inode_of_kind inodes (parent e) Directory /\ inode_of_kind inodes (target e) File.
Proof.
  intros [->|(k & _ & _ & He)]%elem_of_desired; [right; by destruct How|left]. apply list_elem_of_lookup. eauto.
Qed.

Lemma desired_old e : e ∈ entries -> e ∈ es \/ inode_of_kind inodes (target e) File.
Proof.
  intros [k He]%list_elem_of_lookup. destruct How as [Hs Hd _ _ [Ht _] Hf1 Hf2 _ _].
  destruct (decide (k = Z.to_nat i)) as [->|]; [right; by simplify_eq|].
  destruct (decide (k = Z.to_nat j)) as [->|]; [right; by simplify_eq|]. left. apply elem_of_desired. eauto.
Qed.

(** Every other file keeps an entry. *)
Lemma desired_files x : inode_of_kind inodes x File -> x <> t -> exists e, e ∈ es /\ target e = x.
Proof.
  intros Hx Hne. destruct (tree_files _ _ Htree x Hx) as (e & [k He]%list_elem_of_lookup & Ht).
  destruct How as [Hs Hd _ _ [Ht2 _] _ _ _ _]. destruct (decide (k = Z.to_nat i)) as [->|].
  { exists replacement. split; [apply elem_of_desired; by left|]. simplify_eq. done. }
  destruct (decide (k = Z.to_nat j)) as [->|]; [simplify_eq; congruence|].
  exists e. split; [|done]. apply elem_of_desired. eauto.
Qed.

Lemma overwrite_linked_tree : 2 <= reference_count entries t -> namespace_tree inodes es.
Proof.
  intros Hc. apply (tree_file_edit inodes entries); [done|done|apply desired_new|apply desired_old|].
  intros x Hx. destruct (decide (x = t)) as [->|]; [|by apply desired_files].
  destruct How as [Hs Hd _ _ [Ht2 Hne] _ _ _ _].
  destruct (reference_remains _ _ _ _ Hd Hc) as (e & (k & Hk & He) & Ht). exists e. split; [|done].
  apply elem_of_desired. right. exists k. split_and!; [|done|done]. intros ->. simplify_eq.
Qed.

(** The overwritten inode is a file, so every directory stays. *)
Lemma kept_inode x k : inode_of_kind (filter (fun inode => id inode <> t) inodes) x k <->
  inode_of_kind inodes x k /\ x <> t.
Proof.
  unfold inode_of_kind. setoid_rewrite list_elem_of_filter. naive_solver.
Qed.

Lemma kept_directory x :
  inode_of_kind (filter (fun inode => id inode <> t) inodes) x Directory <-> inode_of_kind inodes x Directory.
Proof.
  rewrite kept_inode. split; [tauto|]. intros Hx. split; [done|]. intros ->. destruct How as [_ _ _ _ _ _ Hf _ _].
  by pose proof (inode_kind_unique _ _ _ _ Hids Hf Hx).
Qed.

Lemma overwrite_tree : reference_count entries t = 1 ->
  namespace_tree (filter (fun inode => id inode <> t) inodes) es.
Proof.
  intros Hc. pose proof How as [Hs Hd _ Hnp [Ht2 Hne] Hf1 Hf2 _ _].
  assert (Hnd : forall x, inode_of_kind inodes x File -> ~ inode_of_kind inodes x Directory).
  { intros x H1 H2. by pose proof (inode_kind_unique _ _ _ _ Hids H1 H2). }
  apply (tree_edit inodes _ entries es); [done|apply kept_directory|..].
  - intros x y Hy. split; intros (e & He & Hp & <-).
    + destruct (desired_new e He) as [|[_ Hf]]; [by exists e|]. by destruct (Hnd _ Hf).
    + destruct (desired_old e He) as [|Hf]; [by exists e|]. by destruct (Hnd _ Hf).
  - intros e [->|(k & _ & Hkj & He)]%elem_of_desired.
    { split; [done|]. exists File. by apply kept_inode. }
    assert (Hin : e ∈ entries) by (apply list_elem_of_lookup; eauto).
    split; [by apply (tree_parents _ _ Htree)|]. destruct (tree_targets _ _ Htree e Hin) as [kd Hk]. exists kd.
    apply kept_inode. split; [done|]. intros Ht. by eapply (reference_single entries (Z.to_nat j) k e2 e t).
  - intros x [Hx Hxt]%kept_inode. by apply desired_files.
  - intros _ ->. destruct Hf1 as (n & Hn & _). set_solver.
Qed.
End Overwrite.

Lemma list_filter_all {A} (P : A -> Prop) `{!forall x, Decision (P x)} (l : list A) :
  (forall x, x ∈ l -> P x) -> filter P l = l.
Proof.
  induction l as [|x l IH]; intros HP; [done|]. rewrite filter_cons, decide_True by (apply HP; by left).
  f_equal. apply IH. intros y Hy. apply HP. by right.
Qed.

Lemma filter_inode_references inodes inode : NoDup (id <$> inodes) -> inode ∈ inodes ->
  inode_references inodes ≡ₚ inode_references (filter (fun n => id n <> id inode) inodes) ++ blocks inode.
Proof.
  intros Hids (l1 & l2 & ->)%list_elem_of_split. rewrite fmap_app, fmap_cons in Hids.
  apply NoDup_app in Hids as (_ & Hd1 & [Hd2 _]%NoDup_cons).
  assert (H1 : filter (fun n => id n <> id inode) l1 = l1).
  { apply list_filter_all. intros n Hn Heq. apply (Hd1 (id n)); [by apply list_elem_of_fmap_2|]. rewrite Heq. by left. }
  assert (H2 : filter (fun n => id n <> id inode) l2 = l2).
  { apply list_filter_all. intros n Hn Heq. apply Hd2. rewrite <- Heq. by apply list_elem_of_fmap_2. }
  rewrite filter_app, filter_cons, decide_False, H1, H2 by tauto.
  rewrite !inode_references_app, inode_references_cons, <- app_assoc. f_equiv. apply Permutation_app_comm.
Qed.

Lemma overwrite_release_spec a inodes t bs : alloc_ok a -> Forall (Z.le 0) bs ->
  owp (overwrite_release a inodes t bs)
    (fun r => r.2 = filter (fun inode => id inode <> t) inodes /\ alloc_ok r.1 /\
       Allocation.total_blocks r.1 = Allocation.total_blocks a /\
       Allocation.reserved_blocks r.1 = Allocation.reserved_blocks a /\ owned r.1 = owned a ∖ list_to_set bs)
    (fun _ => True).
Proof.
  intros Ha Hb. unfold overwrite_release. apply owp_bind. eapply owp_mono; [by apply release_spec|..|done].
  by intros a' (? & ? & ? & ?).
Qed.

Lemma overwrite_found_typed inodes entries es np nn t bs i j e1 e2 :
  overwrite_found inodes entries es np nn t bs i j e1 e2 -> Forall inode_typed inodes -> Forall entry_typed entries ->
  str_typed nn -> Forall entry_typed es /\ Forall (Z.le 0) bs.
Proof.
  intros How Hi He [Hb Hu]. rewrite !Forall_forall in *. split.
  - intros e [->|(k & _ & _ & Hk)]%(elem_of_desired _ _ _ _ _ _ _ _ _ _ _ How).
    + destruct How as [Hs _ _ (n & Hn & <- & _) _ _ _ _ _]. assert (He1 : e1 ∈ entries) by (apply list_elem_of_lookup; eauto).
      split_and!; [apply (Hi n Hn)|apply (He e1 He1)|by rewrite Forall_forall|done].
    + apply He, list_elem_of_lookup. eauto.
  - destruct How as [_ _ _ _ _ _ _ (n & Hn & _ & ->) _]. intros b Hb'. destruct (Hi n Hn) as [_ Hbl].
    rewrite Forall_forall in Hbl. by apply Hbl.
Qed.

Lemma overwrite_sound m op on np nn multiple b m' : NoDup (id <$> m.1.2) -> Forall inode_typed m.1.2 -> alloc_ok m.1.1 ->
  metadata_sound m -> overwrite m op on np nn multiple = Ok (b, m') -> metadata_sound m'.
Proof.
  destruct m as [[a inodes] entries]. simpl. intros Hids Hty Hal [Ho Hn] H. unfold overwrite in H.
  apply obind_Ok in H as ([[[es t] bs]|] & He & H); [|by simplify_eq].
  apply overwrite_edit_Ok in He as [(i & j & e1 & e2 & How) Hc]. apply namespace_ok_tree in Hn; [|done].
  destruct multiple; simplify_eq.
  - split; [done|]. by eapply namespace_tree_ok, overwrite_linked_tree.
  - apply obind_Ok in H as ([a' inodes'] & Hr & H). simplify_eq.
    pose proof (ow_blocks _ _ _ _ _ _ _ _ _ _ _ How) as (n & Hin & Hid & Hbs).
    assert (Hpos : Forall (Z.le 0) bs).
    { rewrite Forall_forall in Hty. destruct (Hty n Hin) as [_ Hbl]. rewrite Hbs. eapply Forall_impl; [exact Hbl|].
      intros ? Hx. apply Hx. }
    pose proof (overwrite_release_spec a inodes t bs Hal Hpos) as Hs. rewrite Hr in Hs. simpl in Hs.
    destruct Hs as (-> & _ & _ & _ & Hown). split.
    + eapply ownership_release; [|exact Hown|exact Ho]. rewrite Hbs, <- Hid. by apply filter_inode_references.
    + by eapply namespace_tree_ok, overwrite_tree.
Qed.

(** ** The operations implement the functions *)

Lemma rename_edit_no_panic inodes entries op on np nn :
  Forall entry_typed entries -> is_u64 np -> str_typed nn -> rename_edit inodes entries op on np nn <> Panic.
Proof.
  intros He Hnp [Hb Hu]. unfold rename_edit. destruct (position _ entries) as [i|] eqn:Hi; [|done].
  apply position_entry in Hi as (e & Hie & _ & _ & Hr & Hidx). simpl. rewrite Hidx. simpl.
  assert (Hty : entry_typed (mkPersistedDirectoryEntry np (target e) nn)).
  { split_and!; try done; apply (Forall_lookup_1 _ _ _ _ He Hie). }
  pose proof (owp_no_panic _ _ _ (encode_directory_entry_spec _ Hty)) as Henc.
  destruct (would_create_directory_cycle_spec entries i (target e) np) as (b & Hcyc & _); [lia|].
  rewrite Hcyc, set_at_Ok by done. no_panic_with ltac:(case_match; done) idtac.
Qed.

Lemma exchange_edit_no_panic inodes entries p1 n1 p2 n2 :
  Forall entry_typed entries -> is_u64 p1 -> is_u64 p2 -> str_typed n1 -> str_typed n2 ->
  exchange_edit inodes entries p1 n1 p2 n2 <> Panic.
Proof.
  intros He Hp1 Hp2 [Hb1 Hu1] [Hb2 Hu2]. unfold exchange_edit, validate_regular_file_target.
  destruct (position (entry_named p1 n1) entries) as [i|] eqn:Hi; [|done].
  apply position_entry in Hi as (e1 & Hi1 & _ & _ & Hr1 & Hx1). simpl.
  destruct (position (entry_named p2 n2) entries) as [j|] eqn:Hj; [|done].
  apply position_entry in Hj as (e2 & Hi2 & _ & _ & Hr2 & Hx2). simpl. rewrite Hx1, Hx2. simpl.
  assert (Ht1 : entry_typed (mkPersistedDirectoryEntry p1 (target e2) n1)).
  { split_and!; try done; apply (Forall_lookup_1 _ _ _ _ He Hi2). }
  assert (Ht2 : entry_typed (mkPersistedDirectoryEntry p2 (target e1) n2)).
  { split_and!; try done; apply (Forall_lookup_1 _ _ _ _ He Hi1). }
  pose proof (owp_no_panic _ _ _ (encode_directory_entry_spec _ Ht1)) as Henc1.
  pose proof (owp_no_panic _ _ _ (encode_directory_entry_spec _ Ht2)) as Henc2.
  rewrite set_at_Ok by done. cbn [obind]. rewrite set_at_Ok by (by rewrite zlen_insert).
  no_panic_with ltac:(no_panic) idtac.
Qed.

Lemma overwrite_edit_no_panic inodes entries op on np nn multiple :
  Forall inode_typed inodes -> Forall entry_typed entries -> str_typed nn ->
  overwrite_edit inodes entries op on np nn multiple <> Panic.
Proof.
  intros Hi He [Hb Hu]. unfold overwrite_edit. apply obind_no_panic; [unfold validate_directory_parent; no_panic|].
  intros ? _. apply obind_no_panic; [unfold validate_directory_parent; no_panic|].
  intros ? (n & Hn & <- & _)%validate_directory_parent_Ok.
  destruct (position (entry_named op on) entries) as [i|] eqn:Hpi; [|done].
  apply position_entry in Hpi as (e1 & Hi1 & _ & _ & Hr1 & Hx1). simpl.
  destruct (position (entry_named (id n) nn) entries) as [j|] eqn:Hpj; [|done].
  apply position_entry in Hpj as (e2 & Hi2 & _ & _ & Hr2 & Hx2). simpl. rewrite Hx1, Hx2. simpl.
  assert (Ht : entry_typed (mkPersistedDirectoryEntry (id n) (target e1) nn)).
  { rewrite Forall_forall in Hi. split_and!; try done; try apply (Hi n Hn). apply (Forall_lookup_1 _ _ _ _ He Hi1). }
  pose proof (owp_no_panic _ _ _ (encode_directory_entry_spec _ Ht)) as Henc.
  no_panic_with ltac:(case_match; no_panic) idtac.
Qed.

Section Implements.
Context {sb : Superblock} {v : list block}.
Context {a : BlockAllocator} {inodes : list PersistedInode} {entries : list PersistedDirectoryEntry}.
Context (Hd : disk_holds sb v (a, inodes, entries)).
Context `{DeviceLaws D} (h : bool).

Lemma on_disk_ids : NoDup (id <$> inodes).
Proof. destruct (on_disk_storable Hd) as (_ & [(_ & Hids & _) _] & _). exact Hids. Qed.

Lemma validate_directory_parent_no_panic p label : validate_directory_parent inodes p label <> Panic.
Proof. unfold validate_directory_parent. no_panic. Qed.

Lemma rename_implements op on np nn : str_typed nn ->
  implements sb v h (rename (a, inodes, entries) op on np nn) (fun _ => tt)
    (rename_entry_journaled (D:=D) sb op on np nn).
Proof.
  intros Hn d Hst. destruct (on_disk_typed Hd) as [Hti Hte]. unfold rename_entry_journaled.
  apply (wp_load_inodes_step Hd); [done|]. clear d Hst. intros d Hst.
  apply (wp_lift_step h); [done|apply validate_directory_parent_no_panic|intros e He; pure_steps|]. intros u1 H1.
  apply (wp_lift_step h); [done|apply validate_directory_parent_no_panic|intros e He; pure_steps|].
  intros u2 H2. apply validate_directory_parent_Ok in H2 as Hnp. pose proof (inode_id_typed Hd _ _ Hnp) as Hu.
  apply (wp_load_entries_step Hd); [done|]. clear d Hst. intros d Hst.
  apply (wp_lift_step h); [done|by apply rename_edit_no_panic|intros e He; pure_steps|].
  intros [es|] Hes.
  - apply (wp_store_directory_step Hd); [pure_steps| |done].
    apply rename_edit_Ok in Hes as (i & e0 & Hi & _ & _ & -> & _); [|apply on_disk_ids].
    apply Forall_insert; [done|]. destruct Hn. split_and!; try done. apply (Forall_lookup_1 _ _ _ _ Hte Hi).
  - apply wp_ret, (tx_noop Hd); [pure_steps|done].
Qed.

Context (Hsb : superblock_on_disk v = Ok sb) (Hsound : metadata_sound (a, inodes, entries)).

Lemma exchange_implements p1 n1 p2 n2 : str_typed n1 -> str_typed n2 ->
  implements sb v h (exchange (a, inodes, entries) p1 n1 p2 n2) (fun _ => tt)
    (rename_exchange_files_journaled (D:=D) sb p1 n1 p2 n2).
Proof.
  intros Hn1 Hn2 d Hst. destruct (on_disk_typed Hd) as [Hti Hte]. unfold rename_exchange_files_journaled.
  apply (wp_check_step Hd); [done..|]. clear d Hst. intros _ d Hst.
  apply (wp_load_inodes_step Hd); [done|]. clear d Hst. intros d Hst.
  apply (wp_lift_step h); [done|apply validate_directory_parent_no_panic|intros e He; pure_steps|]. intros u1 H1.
  apply (wp_lift_step h); [done|apply validate_directory_parent_no_panic|intros e He; pure_steps|].
  intros u2 H2. pose proof (inode_id_typed Hd _ _ (validate_directory_parent_Ok _ _ _ _ H1)) as Ht1.
  pose proof (inode_id_typed Hd _ _ (validate_directory_parent_Ok _ _ _ _ H2)) as Ht2.
  destruct ((p1 =? p2) && bool_decide (n1 = n2)) eqn:Hsame.
  { apply wp_ret, (tx_noop Hd); [pure_steps|done]. }
  apply (wp_load_entries_step Hd); [done|]. clear d Hst. intros d Hst.
  apply (wp_lift_step h); [done|by apply exchange_edit_no_panic
    |intros e He; pure_steps|].
  intros [es|] Hes.
  - apply (wp_store_directory_checkpointed_step Hd);
      [pure_steps| |done].
    apply exchange_edit_Ok in Hes as (i & j & e1 & e2 & _ & Hi & Hj & _ & _ & _ & _ & _ & _ & ->).
    2: { intros [-> ->]. by rewrite Z.eqb_refl, bool_decide_eq_true_2 in Hsame. }
    destruct Hn1, Hn2. apply Forall_insert; [apply Forall_insert; [done|]|]; split_and!; try done.
    + apply (Forall_lookup_1 _ _ _ _ Hte Hj).
    + apply (Forall_lookup_1 _ _ _ _ Hte Hi).
  - apply wp_ret, (tx_noop Hd); [pure_steps|done].
Qed.

Lemma overwrite_implements op on np nn multiple : str_typed nn ->
  implements sb v h (overwrite (a, inodes, entries) op on np nn multiple) (fun _ => tt)
    (rename_overwrite_file_impl (D:=D) sb op on np nn multiple).
Proof.
  intros Hn d Hst. destruct (on_disk_typed Hd) as [Hti Hte]. unfold rename_overwrite_file_impl.
  apply (wp_check_step Hd); [done..|]. clear d Hst. intros _ d Hst.
  apply (wp_load_all_step Hd); [done|]. clear d Hst. intros d Hst.
  apply (wp_lift_step h); [done|by apply overwrite_edit_no_panic|intros e He; pure_steps|].
  intros [[[es t] bs]|] Hes; [|apply wp_ret, (tx_noop Hd); [pure_steps|done]].
  destruct (overwrite_edit_Ok _ _ _ _ _ _ _ _ _ _ Hes) as [(i & j & e1 & e2 & How) _].
  destruct (overwrite_found_typed _ _ _ _ _ _ _ _ _ _ _ How Hti Hte Hn) as [Hes' Hbs].
  destruct multiple; [apply (wp_store_directory_checkpointed_step Hd); [pure_steps|done|done]|].
  destruct (holds_typed Hd) as (Ha & _). pose proof (overwrite_release_spec a inodes t bs (of_ok _ _ Ha) Hbs) as Hr.
  apply (wp_lift_step h); [done|by eapply owp_no_panic|intros e He; pure_steps|].
  intros [a' inodes'] Hrel. rewrite Hrel in Hr. simpl in Hr. destruct Hr as (-> & Hok & Ht & Hres & _).
  apply (wp_store_create_step Hd); [pure_steps| |done].
  destruct Ha as [_ Ht' Hr']. split; [split; [done|congruence|congruence]|]. split; [|done].
  rewrite Forall_forall in *. intros n [_ Hn']%list_elem_of_filter. auto.
Qed.
End Implements.
