(* ===== verification/UnlinkTx.v ===== *)
(** * Unlink: [unlink_tx.rs]

    The caller passes the metadata it wants; [validate_unlink_transition]
    accepts it only if it is the durable metadata less one name, its inode and
    exactly that inode's blocks. *)

From S2P Require Import Prelude Bytes BTree Block CrashDevice Allocation Superblock Region AllocationDisk.
From S2P Require Import Journal JournalCodec JournalRegion Recovery TransactionImage.
From S2P Require Import TransactionPlan InodeCodec RecordTable InodeTable DirectoryCodec Inode.
From S2P Require Import DirectoryTable Atomicity CreateTx Format Namespace NamespaceEdit Fsck.
From S2P Require Import Transition LinkTx TruncateTx RenameTx.

(** [inodes.iter().map(|inode| (inode.id, inode)).collect()] *)
Definition by_id (inodes : list PersistedInode) : gmap Z PersistedInode :=
  foldl (fun m inode => <[id inode := inode]> m) ∅ inodes.

Definition entry_key (entry : PersistedDirectoryEntry) : Z * bytes * Z := (parent entry, name entry, target entry).

Definition entry_set (entries : list PersistedDirectoryEntry) : gset (Z * bytes * Z) :=
  list_to_set (entry_key <$> entries).

(** One block of the allocator comparison. *)
Definition compare_block (current desired : BlockAllocator) (freed : gset Z) (b : Z) : outcome io_error (gset Z) :=
  let invalid error := invalid_input (allocation_error_fmt error) in
  let? current_owned := map_err invalid (is_owned current b) in
  let? desired_owned := map_err invalid (is_owned desired b) in
  match current_owned, desired_owned with
  | true, false => Ok ({[b]} ∪ freed)
  | false, true => Err (invalid_input "unlink may not allocate a data block")
  | _, _ => Ok freed
  end.

(** The inode part: the one inode that disappears. *)
Definition check_unlink_inodes (current desired : list PersistedInode) : outcome io_error PersistedInode :=
  let current_by_id := by_id current in
  let desired_by_id := by_id desired in
  try? ensure (negb (negb (Z.of_nat (size current_by_id) =? zlen current) ||
                     negb (Z.of_nat (size desired_by_id) =? zlen desired)))
         (invalid_input "unlink inode snapshot contains duplicate identifiers") in
  let removed_ids := filter (fun x => desired_by_id !! x = None) (btree_keys current_by_id) in
  try? ensure (zlen removed_ids =? 1) (invalid_input "unlink must remove exactly one inode") in
  try? ensure (negb (existsb (fun x => bool_decide (current_by_id !! x = None)) (btree_keys desired_by_id)))
         (invalid_input "unlink may not add an inode") in
  try? ofor (fun '(x, inode) =>
               match desired_by_id !! x with
               | Some inode' => ensure (bool_decide (inode = inode')) (invalid_input "unlink may not modify surviving inodes")
               | None => Ok tt
               end) (btree_iter current_by_id) in
  let? removed_id := index_at removed_ids 0 in
  try? ensure (negb (removed_id =? 1)) (invalid_input "unlink may not remove the root inode") in
  (* [current_by_id[&removed_id]] *)
  match current_by_id !! removed_id with Some inode => Ok inode | None => Panic end.

(** The namespace part; [BTreeSet] iteration order does not matter, since only
    a single removed entry passes. *)
Definition check_unlink_entries (removed : PersistedInode) (current desired : list PersistedDirectoryEntry)
    : outcome io_error unit :=
  let r := id removed in
  let current_set := entry_set current in
  let desired_set := entry_set desired in
  try? ensure (negb (negb (Z.of_nat (size current_set) =? zlen current) ||
                     negb (Z.of_nat (size desired_set) =? zlen desired)))
         (invalid_input "unlink namespace snapshot contains duplicate entries") in
  try? ensure (negb (existsb (fun k => bool_decide (k ∉ current_set)) (elements desired_set)))
         (invalid_input "unlink may not add or retarget a namespace entry") in
  let removed_entries := filter (fun k => k ∉ desired_set) (elements current_set) in
  try? ensure (zlen removed_entries =? 1) (invalid_input "unlink must remove exactly one namespace entry") in
  let? k := index_at removed_entries 0 in
  try? ensure (k.2 =? r) (invalid_input "removed namespace entry must target the removed inode") in
  try? ensure (reference_count current r =? 1)
         (invalid_input "unlink cannot remove an inode with another namespace reference") in
  try? ensure (negb (existsb (fun e => (target e =? r) || (parent e =? r)) desired))
         (invalid_input "unlink leaves a namespace reference to the removed inode") in
  ensure (negb (bool_decide (kind removed = Directory) && existsb (fun e => parent e =? r) current))
    (invalid_input "unlink cannot remove a non-empty directory").

(** The allocation part. *)
Definition check_unlink_blocks (removed : PersistedInode) (current desired : BlockAllocator) : outcome io_error unit :=
  let expected_freed : gset Z := list_to_set (blocks removed) in
  let? observed_freed := ofold (compare_block current desired) ∅
    (zrange (Allocation.reserved_blocks current) (Allocation.total_blocks current)) in
  ensure (bool_decide (observed_freed = expected_freed))
    (invalid_input "unlink must free exactly the removed inode's data blocks").

(** [validate_unlink_transition] after the loads. *)
Definition check_unlink (current desired : metadata) : outcome io_error unit :=
  let '(current_allocator, current_inodes, current_entries) := current in
  let '(desired_allocator, desired_inodes, desired_entries) := desired in
  try? ensure (negb (negb (Allocation.total_blocks current_allocator =? Allocation.total_blocks desired_allocator) ||
                     negb (Allocation.reserved_blocks current_allocator =? Allocation.reserved_blocks desired_allocator)))
         (invalid_input "unlink allocator geometry changed") in
  let? removed := check_unlink_inodes current_inodes desired_inodes in
  try? check_unlink_entries removed current_entries desired_entries in
  check_unlink_blocks removed current_allocator desired_allocator.

Section Ops.
Context `{BlockDevice D}.

Definition validate_unlink_transition (superblock : Superblock) (desired_allocator : BlockAllocator)
    (desired_inodes : list PersistedInode) (desired_entries : list PersistedDirectoryEntry) : M D unit :=
  let! current_allocator := load_allocator superblock in
  let! current_inodes := load_inode_table superblock in
  let! current_entries := load_directory_table superblock in
  ilift (check_unlink (current_allocator, current_inodes, current_entries)
           (desired_allocator, desired_inodes, desired_entries)).

Definition store_unlink_metadata_journaled (superblock : Superblock) (allocator : BlockAllocator)
    (inodes : list PersistedInode) (entries : list PersistedDirectoryEntry) : M D RecoveryReport :=
  do! validate_unlink_transition superblock allocator inodes entries in
  store_create_metadata_journaled superblock allocator inodes entries.
End Ops.

(** As a function of the metadata. *)
Definition unlink (m desired : metadata) : outcome io_error (unit * metadata) :=
  try? check_unlink m desired in Ok (tt, desired).

(** ** What the checks establish *)

Lemma by_id_snoc inodes i : by_id (inodes ++ [i]) = <[id i := i]> (by_id inodes).
Proof. unfold by_id. by rewrite foldl_app. Qed.

Lemma size_by_id inodes : (size (by_id inodes) <= length inodes)%nat /\
  (size (by_id inodes) = length inodes -> NoDup (id <$> inodes) /\
     forall x i, by_id inodes !! x = Some i <-> i ∈ inodes /\ id i = x).
Proof.
  induction inodes as [|i inodes [IHle IH]] using rev_ind.
  { split; [done|]. intros _. split; [constructor|]. intros x i. change (by_id []) with (∅ : gmap Z PersistedInode).
    rewrite lookup_empty. split; [done|]. by intros [?%not_elem_of_nil _]. }
  rewrite by_id_snoc, length_app, map_size_insert. simpl. destruct (by_id inodes !! id i) as [i'|] eqn:Hi; simpl.
  { split; [lia|]. intros H. exfalso. lia. }
  split; [lia|]. intros Hsz. destruct IH as [Hnd Hlk]; [lia|].
  assert (Hfresh : id i ∉ id <$> inodes).
  { intros (j & Hj & Hin)%list_elem_of_fmap. pose proof (proj2 (Hlk (id i) j) (conj Hin (eq_sym Hj))). congruence. }
  split.
  - rewrite fmap_app. apply NoDup_app. split; [done|]. split; [|apply NoDup_singleton].
    intros x Hx ->%list_elem_of_singleton. done.
  - intros x j. rewrite lookup_insert_Some, Hlk, elem_of_app, list_elem_of_singleton. split.
    + intros [[<- <-]|[_ [? ?]]]; auto.
    + intros [[Hj| ->] <-]; [right|by left]. split; [|done]. intros Heq. apply Hfresh. rewrite Heq.
      by apply list_elem_of_fmap_2.
Qed.

Lemma size_by_id_NoDup inodes : NoDup (id <$> inodes) -> size (by_id inodes) = length inodes.
Proof.
  induction inodes as [|i inodes IH] using rev_ind; [done|]. rewrite fmap_app, by_id_snoc, length_app.
  intros (Hnd & Hd & _)%NoDup_app. specialize (IH Hnd). destruct (size_by_id inodes) as [_ [_ Hlk]]; [done|].
  rewrite map_size_insert. destruct (by_id inodes !! id i) as [j|] eqn:Hj; simpl; [|lia].
  exfalso. apply Hlk in Hj as [Hj Hid]. apply (Hd (id j)); [by apply list_elem_of_fmap_2|].
  rewrite Hid. by apply list_elem_of_singleton.
Qed.

Lemma list_singleton {A} (l : list A) x : NoDup l -> (forall y, y ∈ l <-> y = x) -> l = [x].
Proof.
  intros Hnd Hl. apply Permutation_singleton_r, NoDup_Permutation; [done|apply NoDup_singleton|].
  intros y. by rewrite Hl, list_elem_of_singleton.
Qed.

Lemma singleton_list {A} (l : list A) x : zlen l = 1 -> index_at (E:=io_error) l 0 = Ok x -> l = [x].
Proof.
  destruct l as [|y [|z l]]; rewrite ?zlen_cons, ?zlen_nil; [done| |pose proof (zlen_nonneg l); lia].
  intros _ H. unfold index_at in H. simpl in H. change (Z.to_nat 0) with 0%nat in H. simpl in H. congruence.
Qed.

Lemma check_unlink_inodes_Ok current desired removed :
  check_unlink_inodes current desired = Ok removed ->
  NoDup (id <$> current) /\ NoDup (id <$> desired) /\ removed ∈ current /\ id removed <> ROOT_INODE_ID /\
  forall i, i ∈ desired <-> i ∈ current /\ id i <> id removed.
Proof.
  unfold check_unlink_inodes. intros (u1 & Hsz%ensure_Ok & H)%obind_Ok. bool_facts.
  destruct (size_by_id current) as [_ [Hnc Hlc]]; [unfold zlen in *; lia|].
  destruct (size_by_id desired) as [_ [Hnd Hld]]; [unfold zlen in *; lia|].
  apply obind_Ok in H as (u2 & Hone%ensure_Ok & H). apply obind_Ok in H as (u3 & Hadd%ensure_Ok & H).
  apply obind_Ok in H as (u4 & Hmod & H). apply obind_Ok in H as (r & Hr & H).
  apply obind_Ok in H as (u5 & Hroot%ensure_Ok & H). bool_facts.
  pose proof (singleton_list _ _ Hone Hr) as Hrem. clear Hone Hr.
  destruct (by_id current !! r) as [n|] eqn:Hn; simplify_eq. apply Hlc in Hn as [Hin <-].
  assert (Hgone : forall x, is_Some (by_id current !! x) /\ by_id desired !! x = None <-> x = id removed).
  { intros x. rewrite <- (list_elem_of_singleton x (id removed)), <- Hrem, list_elem_of_filter, elem_of_btree_keys. tauto. }
  assert (Hsame : forall x i j, by_id current !! x = Some i -> by_id desired !! x = Some j -> i = j).
  { intros x i j Hi Hj. pose proof (proj1 (ofor_Ok _ _ _) Hmod) as Hall.
    specialize (Hall (x, i) (proj2 (elem_of_btree_iter _ _ _) Hi)). simpl in Hall. rewrite Hj in Hall.
    apply ensure_Ok, bool_decide_eq_true in Hall. done. }
  do 4 (split; [done|]). intros i. split.
  - intros Hi. pose proof (proj2 (Hld (id i) i) (conj Hi eq_refl)) as Hdi.
    destruct (by_id current !! id i) as [j|] eqn:Hj.
    + pose proof (Hsame _ _ _ Hj Hdi) as ->. apply Hlc in Hj as [Hj _]. split; [done|]. intros Heq.
      apply Hgone in Heq as [_ Hnone]. congruence.
    + exfalso. apply not_true_iff_false in Hadd. apply Hadd, existsb_exists. exists (id i).
      split; [|by apply bool_decide_eq_true]. apply list_elem_of_In, elem_of_btree_keys. eauto.
  - intros [Hi Hne]. pose proof (proj2 (Hlc (id i) i) (conj Hi eq_refl)) as Hci.
    destruct (by_id desired !! id i) as [j|] eqn:Hj.
    + pose proof (Hsame _ _ _ Hci Hj) as ->. by apply Hld in Hj as [Hj _].
    + exfalso. apply Hne, Hgone. eauto.
Qed.

Lemma entry_key_inj e e' : entry_key e = entry_key e' -> e = e'.
Proof. destruct e, e'. unfold entry_key. simpl. congruence. Qed.

Lemma elem_of_entry_set e entries : entry_key e ∈ entry_set entries <-> e ∈ entries.
Proof.
  unfold entry_set. rewrite elem_of_list_to_set, list_elem_of_fmap. split.
  - by intros (e' & ->%entry_key_inj & He).
  - intros He. by exists e.
Qed.

Lemma entry_set_NoDup entries : size (entry_set entries) = length entries -> NoDup entries.
Proof.
  unfold entry_set. induction entries as [|e entries IH]; [constructor|]. rewrite fmap_cons, list_to_set_cons. cbn [length].
  assert (Hle : (size (list_to_set (entry_key <$> entries) : gset _) <= length entries)%nat).
  { clear. induction entries as [|e' entries IH]; simpl; [vm_compute; lia|].
    rewrite size_union_alt, size_singleton. apply le_n_S. etrans; [apply subseteq_size|exact IH]. set_solver. }
  destruct (decide (entry_key e ∈ (list_to_set (entry_key <$> entries) : gset _))) as [Hin|Hn].
  - rewrite (subseteq_union_1_L {[entry_key e]} _) by set_solver. intros Hs. lia.
  - rewrite size_union by (intros x ->%elem_of_singleton; done). rewrite size_singleton. intros Hs. constructor; [|apply IH; lia].
    intros He. by apply Hn, elem_of_entry_set.
Qed.

Lemma check_unlink_entries_Ok removed current desired u :
  check_unlink_entries removed current desired = Ok u ->
  NoDup desired /\ reference_count current (id removed) = 1 /\
  (forall e, e ∈ desired <-> e ∈ current /\ target e <> id removed) /\
  (kind removed = Directory -> forall e, e ∈ current -> parent e <> id removed).
Proof.
  unfold check_unlink_entries. intros (u1 & Hsz%ensure_Ok & H)%obind_Ok.
  apply obind_Ok in H as (u2 & Hsub%ensure_Ok & H). apply obind_Ok in H as (u3 & Hone%ensure_Ok & H).
  apply obind_Ok in H as (k & Hk & H). apply obind_Ok in H as (u4 & Hkt%ensure_Ok & H).
  apply obind_Ok in H as (u5 & Hcnt%ensure_Ok & H). apply obind_Ok in H as (u6 & Hleft%ensure_Ok & H). apply ensure_Ok in H. bool_facts.
  pose proof (singleton_list _ _ Hone Hk) as Hrem. clear Hone Hk.
  assert (Hno : forall e, e ∈ desired -> target e <> id removed /\ parent e <> id removed).
  { intros e He. apply not_true_iff_false in Hleft. split; intros Heq; apply Hleft, existsb_exists; exists e;
      (split; [by apply list_elem_of_In|]); apply orb_true_iff; rewrite !Z.eqb_eq; auto. }
  split; [apply entry_set_NoDup; unfold zlen in *; lia|]. split; [done|]. split.
  - intros e. split.
    + intros He. split; [|by apply Hno]. destruct (decide (e ∈ current)) as [|Hn]; [done|]. exfalso.
      apply not_true_iff_false in Hsub. apply Hsub, existsb_exists. exists (entry_key e).
      split; [apply list_elem_of_In, elem_of_elements; by apply elem_of_entry_set|].
      apply bool_decide_eq_true. by rewrite elem_of_entry_set.
    + intros [He Hne]. destruct (decide (e ∈ desired)) as [|Hn]; [done|]. exfalso. apply Hne.
      assert (Hin : entry_key e ∈ [k]).
      { rewrite <- Hrem. apply list_elem_of_filter. rewrite elem_of_elements, !elem_of_entry_set. done. }
      apply list_elem_of_singleton in Hin as <-. done.
  - intros Hd e He Heq. rewrite bool_decide_eq_true_2 in H by done. simpl in H. apply not_true_iff_false in H.
    apply H, existsb_exists. exists e. split; [by apply list_elem_of_In|]. by apply Z.eqb_eq.
Qed.

(** ** ... and the converses *)

Lemma check_unlink_inodes_accepts current desired removed :
  NoDup (id <$> current) -> NoDup (id <$> desired) -> removed ∈ current -> id removed <> ROOT_INODE_ID ->
  (forall i, i ∈ desired <-> i ∈ current /\ id i <> id removed) ->
  check_unlink_inodes current desired = Ok removed.
Proof.
  intros Hnc Hnd Hin Hroot Hi. pose proof (size_by_id_NoDup _ Hnc) as Hsc. pose proof (size_by_id_NoDup _ Hnd) as Hsd.
  destruct (size_by_id current) as [_ [_ Hlc]]; [done|]. destruct (size_by_id desired) as [_ [_ Hld]]; [done|].
  unfold check_unlink_inodes, zlen. rewrite Hsc, Hsd, !Z.eqb_refl. cbn [negb orb ensure obind].
  assert (Hone : filter (fun x => by_id desired !! x = None) (btree_keys (by_id current)) = [id removed]).
  { apply list_singleton; [apply NoDup_filter, NoDup_btree_keys|]. intros x.
    rewrite list_elem_of_filter, elem_of_btree_keys. split.
    - intros [Hn [i [Hic <-]%Hlc]]. destruct (decide (id i = id removed)) as [|Hne]; [done|]. exfalso.
      assert (by_id desired !! id i = Some i) by (apply Hld; split; [by apply Hi|done]). congruence.
    - intros ->. split; [|exists removed; by apply Hlc]. destruct (by_id desired !! id removed) as [j|] eqn:Hj; [|done].
      exfalso. apply Hld in Hj as [[_ Hne]%Hi Hid]. done. }
  rewrite Hone. cbn [length Z.of_nat Pos.of_succ_nat Z.eqb Pos.eqb ensure obind].
  replace (existsb _ (btree_keys (by_id desired))) with false.
  2: { symmetry. apply not_true_iff_false. intros (x & Hx%list_elem_of_In & Hn)%existsb_exists. bool_facts.
       apply elem_of_btree_keys in Hx as [i [Hid' <-]%Hld]. apply Hi in Hid' as [Hic _].
       pose proof (proj2 (Hlc (id i) i) (conj Hic eq_refl)). congruence. }
  cbn [negb ensure obind]. rewrite (proj2 (ofor_Ok _ _ tt)).
  2: { intros [x i] Hx. apply elem_of_btree_iter, Hlc in Hx as [Hic <-].
       destruct (by_id desired !! id i) as [j|] eqn:Hj; [|done]. apply Hld in Hj as [[Hjc _]%Hi Hij].
       apply ensure_Ok, bool_decide_eq_true. assert (by_id current !! id i = Some i) by (by apply Hlc).
       assert (by_id current !! id i = Some j) by (apply Hlc; auto). congruence. }
  cbn [obind]. change (index_at [id removed] 0) with (Ok (E:=io_error) (id removed)). cbn [obind].
  rewrite (proj2 (Z.eqb_neq (id removed) 1)) by exact Hroot. cbn [negb ensure obind].
  by rewrite (proj2 (Hlc (id removed) removed)).
Qed.

Lemma size_entry_set entries : NoDup entries -> size (entry_set entries) = length entries.
Proof.
  intros Hnd. unfold entry_set. rewrite size_list_to_set, length_fmap; [done|].
  apply NoDup_fmap_2_strong; [|done]. intros e e' _ _. apply entry_key_inj.
Qed.

Lemma check_unlink_entries_accepts removed current desired :
  NoDup current -> NoDup desired -> reference_count current (id removed) = 1 ->
  (forall e, e ∈ desired <-> e ∈ current /\ target e <> id removed) ->
  (forall e, e ∈ current -> parent e <> id removed) ->
  check_unlink_entries removed current desired = Ok tt.
Proof.
  intros Hnc Hnd Hc He Hp. unfold check_unlink_entries, zlen.
  rewrite !size_entry_set, !Z.eqb_refl by done. cbn [negb orb ensure obind].
  replace (existsb _ (elements (entry_set desired))) with false.
  2: { symmetry. apply not_true_iff_false. intros (k & Hk%list_elem_of_In & Hn)%existsb_exists. bool_facts.
       apply elem_of_elements, elem_of_list_to_set, list_elem_of_fmap in Hk as (e & -> & [Hk _]%He).
       by rewrite elem_of_entry_set in Hn. }
  cbn [negb ensure obind].
  assert (Hex : exists e0, e0 ∈ current /\ target e0 = id removed).
  { unfold reference_count in Hc. destruct (filter _ current) as [|e0 l] eqn:Hf; [by rewrite zlen_nil in Hc|].
    assert (Hin : e0 ∈ e0 :: l) by (by left). rewrite <- Hf in Hin.
    apply list_elem_of_filter in Hin as [? ?]. by exists e0. }
  destruct Hex as (e0 & He0 & Ht0).
  assert (Hone : filter (fun k => k ∉ entry_set desired) (elements (entry_set current)) = [entry_key e0]).
  { apply list_singleton; [apply NoDup_filter, NoDup_elements|]. intros k.
    rewrite list_elem_of_filter, elem_of_elements. split.
    - intros [Hn Hk]. apply elem_of_list_to_set, list_elem_of_fmap in Hk as (e & -> & Hk).
      rewrite elem_of_entry_set, He in Hn. assert (Ht : target e = id removed) by (destruct (decide (target e = id removed)); tauto).
      f_equal. destruct (decide (e = e0)) as [|Hne]; [done|]. exfalso.
      apply list_elem_of_lookup in He0 as [j Hj]. apply list_elem_of_lookup in Hk as [n Hk].
      apply (reference_single current j n e0 e (id removed)); try done. intros ->. congruence.
    - intros ->. rewrite !elem_of_entry_set, He. tauto. }
  rewrite Hone. cbn [length Z.of_nat Pos.of_succ_nat Z.eqb Pos.eqb ensure obind].
  change (index_at [entry_key e0] 0) with (Ok (E:=io_error) (entry_key e0)). cbn [obind entry_key snd].
  rewrite Ht0, Hc, !Z.eqb_refl. cbn [ensure obind].
  replace (existsb _ desired) with false.
  2: { symmetry. apply not_true_iff_false. intros (e & [Hec Het]%list_elem_of_In%He & Hb)%existsb_exists.
       apply orb_true_iff in Hb as [Hb|Hb]; bool_facts; [done|]. by apply (Hp e). }
  cbn [negb ensure obind]. replace (existsb _ current) with false; [by rewrite andb_false_r|].
  symmetry. apply not_true_iff_false. intros (e & Hec%list_elem_of_In & Hb)%existsb_exists. bool_facts. by apply (Hp e).
Qed.

Section Blocks.
Context (a a' : BlockAllocator) (Ha : alloc_ok a) (Ha' : alloc_ok a').
Context (Ht : Allocation.total_blocks a = Allocation.total_blocks a').
Context (Hr : Allocation.reserved_blocks a = Allocation.reserved_blocks a').

(** The comparison up to block [j]. *)
Definition compared (freed : gset Z) (j : Z) : Prop :=
  (forall b, b ∈ freed <-> Allocation.reserved_blocks a <= b < j /\ b ∈ owned a /\ b ∉ owned a') /\
  (forall b, Allocation.reserved_blocks a <= b < j -> b ∈ owned a' -> b ∈ owned a).

Lemma compare_block_spec freed j :
  Allocation.reserved_blocks a <= j < Allocation.total_blocks a -> compared freed j ->
  owp (compare_block a a' freed j) (fun freed' => compared freed' (j + 1)) (fun _ => ~ owned a' ⊆ owned a).
Proof.
  intros Hj [Hf Hsub]. pose proof (ok_reserved _ Ha). unfold compare_block.
  rewrite (is_owned_spec a j Ha), (is_owned_spec a' j Ha'), !decide_False by lia. simpl.
  assert (Hsplit : forall b, Allocation.reserved_blocks a <= b < j + 1 <->
    Allocation.reserved_blocks a <= b < j \/ b = j) by lia.
  case_bool_decide as Hown; case_bool_decide as Hown'; simpl;
    [split|split|intros Hs; apply Hown; right; apply Hs; destruct Hown'; [lia|done]|split].
  - intros b. rewrite Hf, Hsplit. split; [tauto|]. intros [[Hb| ->] Hbb]; [tauto|].
    destruct Hown' as [?|?]; [lia|]. tauto.
  - intros b [Hb| ->]%Hsplit Hb'; [by apply Hsub|]. destruct Hown; [lia|done].
  - intros b. rewrite elem_of_union, elem_of_singleton, Hf, Hsplit. split; [|tauto].
    intros [->|?]; [|tauto]. destruct Hown; [lia|]. tauto.
  - intros b [Hb| ->]%Hsplit Hb'; [by apply Hsub|]. destruct Hown; [lia|done].
  - intros b. rewrite Hf, Hsplit. split; [tauto|]. intros [[Hb| ->] Hbb]; [tauto|]. tauto.
  - intros b [Hb| ->]%Hsplit Hb'; [by apply Hsub|]. tauto.
Qed.

Lemma check_unlink_blocks_spec removed :
  owp (check_unlink_blocks removed a a')
    (fun _ => owned a' = owned a ∖ list_to_set (blocks removed))
    (fun _ => ~ (owned a' = owned a ∖ list_to_set (blocks removed) /\ Forall (fun b => b ∈ owned a) (blocks removed))).
Proof.
  unfold check_unlink_blocks. pose proof (ok_reserved _ Ha). apply owp_bind.
  assert (Hrange : forall b, b ∈ owned a \/ b ∈ owned a' -> Allocation.reserved_blocks a <= b < Allocation.total_blocks a).
  { intros c [Hc|Hc]; apply elem_of_owned in Hc as [Hc _]; lia. }
  eapply owp_mono; [apply (owp_fold_range _ compared (fun _ => ~ owned a' ⊆ owned a))|..]; simpl.
  - lia.
  - split; [|intros; lia]. intros b. split; [set_solver|lia].
  - intros j freed Hj Hcmp. by apply compare_block_spec.
  - intros freed [Hf Hsub]. case_bool_decide as Heq; simpl.
    + subst freed. apply set_eq. intros b. rewrite elem_of_difference, Hf. split.
      * intros Hb. split; [apply Hsub; [apply Hrange|]; auto|tauto].
      * intros [Hb Hn]. destruct (decide (b ∈ owned a')) as [|Hb']; [done|]. exfalso. apply Hn. auto.
    + intros [Ho Hall]. apply Heq, set_eq. intros b. rewrite Hf, elem_of_list_to_set. rewrite Forall_forall in Hall.
      rewrite Ho, elem_of_difference, elem_of_list_to_set. split.
      * intros (_ & Hb & Hn). destruct (decide (b ∈ blocks removed)); [done|]. by destruct Hn.
      * intros Hb. split; [apply Hrange; left|split; [|tauto]]; by apply Hall.
  - intros _ Hn [Ho _]. apply Hn. rewrite Ho. set_solver.
Qed.
End Blocks.

(** ** A validated unlink keeps the metadata sound *)

Lemma unlink_Ok m desired b m' : alloc_ok m.1.1 -> alloc_ok desired.1.1 -> unlink m desired = Ok (b, m') ->
  m' = desired /\ exists removed,
    NoDup (id <$> m.1.2) /\ NoDup (id <$> desired.1.2) /\ NoDup desired.2 /\
    reference_count m.2 (id removed) = 1 /\ removed ∈ m.1.2 /\ id removed <> ROOT_INODE_ID /\
    (forall i, i ∈ desired.1.2 <-> i ∈ m.1.2 /\ id i <> id removed) /\
    (forall e, e ∈ desired.2 <-> e ∈ m.2 /\ target e <> id removed) /\
    (kind removed = Directory -> forall e, e ∈ m.2 -> parent e <> id removed) /\
    Allocation.total_blocks m.1.1 = Allocation.total_blocks desired.1.1 /\
    Allocation.reserved_blocks m.1.1 = Allocation.reserved_blocks desired.1.1 /\
    owned desired.1.1 = owned m.1.1 ∖ list_to_set (blocks removed).
Proof.
  destruct m as [[a inodes] entries], desired as [[a' inodes'] entries']. unfold unlink. simpl. intros Ha Ha' H.
  apply obind_Ok in H as (u & Hc & H). simplify_eq. split; [done|]. unfold check_unlink in Hc.
  apply obind_Ok in Hc as (u1 & Hg%ensure_Ok & Hc). apply obind_Ok in Hc as (removed & Hi & Hc).
  apply obind_Ok in Hc as (u2 & He & Hb). bool_facts.
  apply check_unlink_inodes_Ok in Hi as (Hnc & Hnd & Hin & Hroot & Hi).
  apply check_unlink_entries_Ok in He as (Hnde & Hcnt & He & Hdir).
  pose proof (check_unlink_blocks_spec a a' Ha Ha' ltac:(lia) ltac:(lia) removed) as Hs. rewrite Hb in Hs.
  simpl in Hs. exists removed. by split_and!.
Qed.

Lemma unlink_sound m desired b m' : alloc_ok m.1.1 -> alloc_ok desired.1.1 ->
  unlink m desired = Ok (b, m') -> metadata_sound m -> metadata_sound m'.
Proof.
  intros Ha Ha' H Hs. apply unlink_Ok in H as (-> & r & Hnc & Hnd & _ & _ & Hin & Hroot & Hi & He & Hdir & _ & _ & How); [|done..].
  destruct m as [[a inodes] entries], desired as [[a' inodes'] entries']. destruct Hs as [Ho Hn]. simpl in *.
  apply namespace_ok_tree in Hn as Htree; [|done]. split.
  - eapply ownership_release; [|exact How|exact Ho]. rewrite (filter_inode_references inodes r Hnc Hin). f_equiv.
    assert (inodes' ≡ₚ filter (fun n => id n <> id r) inodes) as ->; [|done].
    apply NoDup_fmap_1 in Hnc, Hnd. apply NoDup_Permutation; [done|by apply NoDup_filter|]. intros i.
    rewrite list_elem_of_filter, Hi. tauto.
  - apply namespace_tree_ok. apply (tree_remove_leaf inodes inodes' entries entries' (id r)); try done.
    + intros e He' Heq. destruct (kind r) eqn:Hk; [|by apply (Hdir eq_refl e)].
      pose proof (tree_parents _ _ Htree e He') as Hp. rewrite Heq in Hp.
      pose proof (inode_kind_unique _ _ _ File Hnc Hp ltac:(by exists r)). done.
    + intros x k. split.
      * intros (i & [Hi' Hne]%Hi & <- & <-). split; [by exists i|done].
      * intros [(i & Hi' & <- & <-) Hne]. exists i. split; [by apply Hi|done].
    + intros _ ->. by apply not_elem_of_nil in Hin.
Qed.

Lemma index_singleton {A} (l : list A) : zlen l = 1 -> exists x, l = [x] /\ index_at (E:=io_error) l 0 = Ok x.
Proof.
  destruct l as [|y [|z l]]; rewrite ?zlen_cons, ?zlen_nil; [done| |pose proof (zlen_nonneg l); lia]. by exists y.
Qed.

Lemma check_unlink_inodes_no_panic current desired : check_unlink_inodes current desired <> Panic.
Proof.
  unfold check_unlink_inodes. destruct (negb _); simpl; [|done]. destruct (_ =? 1) eqn:Hone; simpl; [|done].
  apply Z.eqb_eq, index_singleton in Hone as (r & Hr & ->). destruct (negb _); simpl; [|done].
  apply obind_no_panic.
  - apply ofor_no_panic. intros [x i] _. destruct (_ !! x); no_panic.
  - intros _ _. simpl. destruct (negb _); simpl; [|done].
    assert (Hin : r ∈ [r]) by (by apply list_elem_of_singleton). rewrite <- Hr in Hin.
    apply list_elem_of_filter in Hin as [_ Hin]. apply elem_of_btree_keys in Hin as [i Hi]. by rewrite Hi.
Qed.

Lemma check_unlink_entries_no_panic removed current desired : check_unlink_entries removed current desired <> Panic.
Proof.
  unfold check_unlink_entries. destruct (negb _); simpl; [|done]. destruct (negb _); simpl; [|done].
  destruct (_ =? 1) eqn:Hone; simpl; [|done]. apply Z.eqb_eq, index_singleton in Hone as (k & _ & ->). no_panic.
Qed.

Lemma check_unlink_no_panic m desired : alloc_ok m.1.1 -> alloc_ok desired.1.1 -> check_unlink m desired <> Panic.
Proof.
  destruct m as [[a inodes] entries], desired as [[a' inodes'] entries']. simpl. intros Ha Ha'.
  destruct (negb _) eqn:Hg; simpl; [|done]. bool_facts.
  apply obind_no_panic; [apply check_unlink_inodes_no_panic|]. intros r _.
  apply obind_no_panic; [apply check_unlink_entries_no_panic|]. intros _ _.
  eapply owp_no_panic, check_unlink_blocks_spec; (done || lia).
Qed.

(** ** What a legal unlink is *)

Definition same_geometry (a a' : BlockAllocator) : Prop :=
  Allocation.total_blocks a = Allocation.total_blocks a' /\ Allocation.reserved_blocks a = Allocation.reserved_blocks a'.

(** An inode with exactly one name and nothing listed in it. *)
Definition can_unlink (m : metadata) (removed : PersistedInode) : Prop :=
  removed ∈ m.1.2 /\ id removed <> ROOT_INODE_ID /\ reference_count m.2 (id removed) = 1 /\
  forall e, e ∈ m.2 -> parent e <> id removed.

(** The metadata without it, in any order. *)
Definition unlinked (m : metadata) (removed : PersistedInode) (desired : metadata) : Prop :=
  same_geometry m.1.1 desired.1.1 /\ owned desired.1.1 = owned m.1.1 ∖ list_to_set (blocks removed) /\
  NoDup (id <$> desired.1.2) /\ (forall i, i ∈ desired.1.2 <-> i ∈ m.1.2 /\ id i <> id removed) /\
  NoDup desired.2 /\ (forall e, e ∈ desired.2 <-> e ∈ m.2 /\ target e <> id removed).

(** [validate_unlink_transition] is exact: on sound metadata it accepts the
    desired metadata if and only if it is the current metadata without one
    inode that has exactly one name and no children and is not the root,
    without that name, and with exactly that inode's blocks freed. *)
Theorem unlink_exact m desired :
  alloc_ok m.1.1 -> alloc_ok desired.1.1 -> NoDup (id <$> m.1.2) -> NoDup m.2 -> metadata_sound m ->
  check_unlink m desired = Ok tt <-> exists removed, can_unlink m removed /\ unlinked m removed desired.
Proof.
  intros Ha Ha' Hids Hents Hsound. split.
  - intros Hc. assert (Hu : unlink m desired = Ok (tt, desired)) by (unfold unlink; by rewrite Hc).
    apply unlink_Ok in Hu as (_ & r & _ & Hnd & Hnde & Hcnt & Hin & Hroot & Hi & He & Hdir & Ht & Hr & How); [|done..].
    exists r. split; [|by split_and!]. split_and!; try done. intros e He' Heq.
    destruct (kind r) eqn:Hk; [|by apply (Hdir eq_refl e)].
    destruct m as [[a inodes] entries], Hsound as [_ Hn]. apply namespace_ok_tree in Hn; [|done]. simpl in *.
    pose proof (tree_parents _ _ Hn e He') as Hp. rewrite Heq in Hp.
    by pose proof (inode_kind_unique _ _ _ File Hids Hp ltac:(by exists r)).
  - intros (r & (Hin & Hroot & Hcnt & Hp) & [Ht Hr] & How & Hnd & Hi & Hnde & He).
    destruct m as [[a inodes] entries], desired as [[a' inodes'] entries']. simpl in *. unfold check_unlink.
    rewrite Ht, Hr, !Z.eqb_refl. cbn [negb orb ensure obind].
    rewrite (check_unlink_inodes_accepts inodes inodes' r) by done. cbn [obind].
    rewrite (check_unlink_entries_accepts r entries entries') by done. cbn [obind].
    pose proof (check_unlink_blocks_spec a a' Ha Ha' Ht Hr r) as Hs.
    destruct (check_unlink_blocks r a a') as [[]|e|]; simpl in Hs; [done| |done]. destruct Hs. split; [done|].
    destruct Hsound as [[Hall _] _]. apply (Forall_app (fun b => b ∈ owned a) (inode_references (filter (fun n => id n <> id r) inodes))).
    by rewrite <- (filter_inode_references inodes r).
Qed.

Section Implements.
Context {sb : Superblock} {v : list block}.
Context {a : BlockAllocator} {inodes : list PersistedInode} {entries : list PersistedDirectoryEntry}.
Context (Hd : disk_holds sb v (a, inodes, entries)).
Context `{DeviceLaws D} (h : bool).

Lemma unlink_implements a' inodes' entries' : alloc_ok a' ->
  implements sb v h (unlink (a, inodes, entries) (a', inodes', entries')) (fun _ => tt)
    (store_unlink_metadata_journaled (D:=D) sb a' inodes' entries').
Proof.
  intros Ha' d Hst. destruct (holds_typed Hd) as (Ha & Hti & Hte). unfold store_unlink_metadata_journaled.
  apply wp_bind. unfold validate_unlink_transition.
  apply (wp_load_all_step Hd); [done|]. clear d Hst. intros d Hst. apply wp_lift.
  pose proof (check_unlink_no_panic (a, inodes, entries) (a', inodes', entries') (of_ok _ _ Ha) Ha') as Hnp.
  destruct (check_unlink _ _) as [[]|e|] eqn:Hc; simpl; [|apply (tx_refuse h); [|done]; unfold unlink; by rewrite Hc|done].
  assert (Hu : unlink (a, inodes, entries) (a', inodes', entries') = Ok (tt, (a', inodes', entries')))
    by (unfold unlink; by rewrite Hc).
  apply (wp_store_create_step Hd); [done| |done].
  destruct (unlink_Ok (a, inodes, entries) (a', inodes', entries') tt _ (of_ok _ _ Ha) Ha' Hu) as (_ & r & _ & _ & _ & _ & _ & _ & Hi & He & _ & Ht & Hr & _). simpl in *.
  destruct Ha as [_ Ht' Hr']. split; [split; [done|congruence|congruence]|].
  rewrite !Forall_forall in *. split; [intros i [Hi' _]%Hi; auto|intros e [He' _]%He; auto].
Qed.
End Implements.
