(* ===== verification/MetaEffects.v ===== *)
(** * What the metadata operations do

    A specification of the operations of [LinkTx], [UnlinkTx], [RenameTx] and
    [TruncateTx] that does not use their code: the entries, inodes and blocks
    after an operation in terms of those before it, and the conditions under
    which the operation is possible.  On sound metadata each edit succeeds
    exactly when its effect is possible, and then has that effect. *)

From S2P Require Import Prelude Bytes BTree Block CrashDevice Allocation Superblock Region AllocationDisk.
From S2P Require Import Journal JournalCodec JournalRegion Recovery TransactionImage.
From S2P Require Import TransactionPlan InodeCodec RecordTable InodeTable DirectoryCodec Inode.
From S2P Require Import DirectoryTable Atomicity CreateTx Format Namespace NamespaceEdit Fsck.
From S2P Require Import Transition LinkTx TruncateTx RenameTx UnlinkTx.

(** ** Effects *)

(** Entry [e], number [i] of the table, is the one named [n] in directory [p]. *)
Definition at_slot (entries : list PersistedDirectoryEntry) (p : Z) (n : bytes) (i : nat) (e : PersistedDirectoryEntry)
    : Prop := entries !! i = Some e /\ parent e = p /\ name e = n.

Definition is_directory (m : metadata) (x : Z) : Prop := inode_of_kind m.1.2 x Directory.
Definition is_file (m : metadata) (x : Z) : Prop := inode_of_kind m.1.2 x File.

(** Blocks [bs] go back to the allocator. *)
Definition blocks_released (a : BlockAllocator) (bs : list Z) (a' : BlockAllocator) : Prop :=
  alloc_ok a' /\ same_geometry a a' /\ owned a' = owned a ∖ list_to_set bs.

(** A second name for a file, in a free slot of a directory. *)
Definition link_effect (p : Z) (n : bytes) (t : Z) (m m' : metadata) : Prop :=
  is_directory m p /\ is_file m t /\ (forall i e, ~ at_slot m.2 p n i e) /\
  m' = (m.1, m.2 ++ [mkPersistedDirectoryEntry p t n]).

(** One name of a file that has another goes. *)
Definition drop_link_effect (p : Z) (n : bytes) (m m' : metadata) : Prop :=
  exists i e, at_slot m.2 p n i e /\ is_file m (target e) /\
    (exists j e', j <> i /\ m.2 !! j = Some e' /\ target e' = target e) /\ m' = (m.1, delete i m.2).

(** A file or an empty directory goes with its only name, and its blocks become free. *)
Definition unlink_effect (desired m m' : metadata) : Prop :=
  m' = desired /\ exists removed, can_unlink m removed /\ unlinked m removed desired.

(** An entry other than the root's moves to a free slot that is not at or below
    what it names, or stays where it is. *)
Definition rename_effect (op : Z) (on : bytes) (np : Z) (nn : bytes) (m m' : metadata) : Prop :=
  is_directory m op /\ is_directory m np /\
  exists i e, at_slot m.2 op on i e /\ target e <> ROOT_INODE_ID /\
    ((op, on) = (np, nn) /\ m' = m \/
     (op, on) <> (np, nn) /\ may_move m.2 np nn e /\
     m' = (m.1, <[i := mkPersistedDirectoryEntry np (target e) nn]> m.2)).

(** Two names of files trade their targets. *)
Definition exchange_effect (p1 : Z) (n1 : bytes) (p2 : Z) (n2 : bytes) (m m' : metadata) : Prop :=
  is_directory m p1 /\ is_directory m p2 /\
  ((p1, n1) = (p2, n2) /\ m' = m \/
   (p1, n1) <> (p2, n2) /\ exists i j e1 e2, at_slot m.2 p1 n1 i e1 /\ at_slot m.2 p2 n2 j e2 /\
     is_file m (target e1) /\ is_file m (target e2) /\
     m' = (m.1, <[j := mkPersistedDirectoryEntry p2 (target e1) n2]>
                  (<[i := mkPersistedDirectoryEntry p1 (target e2) n1]> m.2))).

(** A file takes over the name of another: the other loses this name, and when
    it has no further name it goes with its blocks. *)
Definition overwrite_effect (linked : bool) (op : Z) (on : bytes) (np : Z) (nn : bytes) (m m' : metadata) : Prop :=
  is_directory m op /\ is_directory m np /\
  exists i j e1 e2, at_slot m.2 op on i e1 /\ at_slot m.2 np nn j e2 /\
  (i = j /\ m' = m \/
   i <> j /\ target e1 <> target e2 /\ is_file m (target e1) /\ is_file m (target e2) /\
   m'.2 = delete j (<[i := mkPersistedDirectoryEntry np (target e1) nn]> m.2) /\
   if linked then
     (exists k e, k <> j /\ m.2 !! k = Some e /\ target e = target e2) /\ m'.1 = m.1
   else
     (forall k e, k <> j -> m.2 !! k = Some e -> target e <> target e2) /\
     exists inode, inode ∈ m.1.2 /\ id inode = target e2 /\
       m'.1.2 = filter (fun inode => id inode <> target e2) m.1.2 /\ blocks_released m.1.1 (blocks inode) m'.1.1).

(** File [x] keeps its first [n] blocks; the others are released, and returned. *)
Definition truncate_effect (x n : Z) (released : list Z) (m m' : metadata) : Prop :=
  exists i inode, m.1.2 !! i = Some inode /\ id inode = x /\ kind inode = File /\ 0 <= n <= zlen (blocks inode) /\
    released = drop (Z.to_nat n) (blocks inode) /\ m'.2 = m.2 /\
    m'.1.2 = <[i := mkPersistedInode x File (take (Z.to_nat n) (blocks inode))]> m.1.2 /\
    blocks_released m.1.1 released m'.1.1.

(** ** The edits have these effects *)

(** An outcome that is refused exactly when [P] has no solution. *)
Definition exact_for {A} (o : outcome io_error A) (P : A -> Prop) : Prop := owp o P (fun _ => ~ exists r, P r).

Lemma exact_for_intro {A} (o : outcome io_error A) (P : A -> Prop) :
  o <> Panic -> (forall r, o = Ok r -> P r) -> (forall r, P r -> is_ok o = true) -> exact_for o P.
Proof.
  intros Hp Hok Hall. destruct o as [r|e|]; simpl; [by apply Hok| |done]. intros [r Hr]. by specialize (Hall r Hr).
Qed.

(** Changes near the end of a list. *)
Section Snoc.
Context {A : Type} (l : list A) (x : A).

Lemma delete_last : delete (length l) (l ++ [x]) = l.
Proof. rewrite delete_take_drop, take_app_length, drop_ge; [by rewrite app_nil_r|rewrite length_app; simpl; lia]. Qed.

Lemma delete_snoc j : j <> length l -> delete j (l ++ [x]) = delete j l ++ [x].
Proof.
  intros Hj. destruct (decide (j < length l)%nat).
  - rewrite !delete_take_drop, take_app_le, drop_app_le by lia. by rewrite (assoc_L (++)).
  - rewrite !delete_take_drop, (take_ge l), (drop_ge l), take_ge, drop_ge by (rewrite ?length_app; simpl; lia).
    by rewrite !app_nil_r.
Qed.

Lemma insert_last r : <[length l := r]> (l ++ [x]) = l ++ [r].
Proof. by rewrite insert_app_r_alt, Nat.sub_diag by done. Qed.

Lemma insert_snoc i r : i <> length l -> <[i := r]> (l ++ [x]) = <[i := r]> l ++ [x].
Proof.
  intros Hi. destruct (decide (i < length l)%nat); [by apply insert_app_l|].
  rewrite !list_insert_ge; [done|lia|rewrite length_app; simpl; lia].
Qed.
End Snoc.

(** The loop of the overwrite replaces the source and leaves the destination out. *)
Lemma overwrite_entries_delete (l : list PersistedDirectoryEntry) i j r : i <> j ->
  overwrite_entries l (Z.of_nat i) (Z.of_nat j) r = delete j (<[i := r]> l).
Proof.
  intros Hij. unfold overwrite_entries. induction l as [|x l IH] using rev_ind; [done|].
  unfold enumerate in *. rewrite imap_app, foldl_app, IH. cbn [imap foldl]. rewrite Nat.add_0_r. clear IH.
  destruct (Z.eqb_spec (Z.of_nat (length l)) (Z.of_nat j)) as [<-%Nat2Z.inj|Hj].
  - rewrite insert_snoc by done. rewrite <- (length_insert l i r) at 2. rewrite delete_last.
    by rewrite delete_take_drop, take_ge, drop_ge, app_nil_r by (rewrite length_insert; lia).
  - destruct (Z.eqb_spec (Z.of_nat (length l)) (Z.of_nat i)) as [<-%Nat2Z.inj|Hi].
    + by rewrite insert_last, list_insert_ge, delete_snoc by lia.
    + rewrite insert_snoc by lia. by rewrite delete_snoc by (rewrite length_insert; lia).
Qed.

Section Slots.
Context (inodes : list PersistedInode) (entries : list PersistedDirectoryEntry).
Context (Hids : NoDup (id <$> inodes)) (Hslots : NoDup (entry_slot <$> entries)).

Lemma at_slot_unique p n i e j e' : at_slot entries p n i e -> at_slot entries p n j e' -> i = j /\ e = e'.
Proof.
  intros (Hi & Hp & Hn) (Hj & Hp' & Hn'). assert (i = j) as -> by (eapply (slot_unique entries); [done..|congruence|congruence]).
  by simplify_eq.
Qed.

Lemma position_slot p n i e : at_slot entries p n i e -> position (entry_named p n) entries = Some (Z.of_nat i).
Proof.
  intros Hs. pose proof Hs as (Hi & Hp & Hn). apply (position_only _ _ i e Hi); [by apply entry_named_eq|].
  intros j y Hj [? ?]%entry_named_eq. by eapply at_slot_unique.
Qed.

Lemma index_slot p n i e : at_slot entries p n i e -> index_at (E:=io_error) entries (Z.of_nat i) = Ok e.
Proof. intros (Hi & _). apply index_at_Ok; [lia|]. by rewrite Nat2Z.id. Qed.

Lemma slot_bound p n i e : at_slot entries p n i e -> 0 <= Z.of_nat i < zlen entries.
Proof. intros (Hi%lookup_lt_Some & _). unfold zlen. lia. Qed.

Lemma position_at_slot p n i : position (entry_named p n) entries = Some i ->
  exists e, at_slot entries p n (Z.to_nat i) e /\ index_at (E:=io_error) entries i = Ok e /\ 0 <= i < zlen entries.
Proof. intros (e & Hi & Hp & Hn & Hr & Hx)%position_entry. by exists e. Qed.

Lemma find_kind_run {A} x k e1 e2 (c : outcome io_error A) : inode_of_kind inodes x k ->
  (let? inode := ok_or (find_inode inodes x) e1 in try? ensure (bool_decide (kind inode = k)) e2 in c) = c.
Proof. intros Hk. destruct (find_inode_of_kind _ _ _ Hids Hk) as (inode & -> & <-). cbn. by rewrite bool_decide_eq_true_2. Qed.

Lemma check_link_run p t : inode_of_kind inodes p Directory -> inode_of_kind inodes t File -> check_link inodes p t = Ok tt.
Proof.
  intros Hp Ht. unfold check_link. rewrite find_kind_run by done.
  destruct (find_inode_of_kind _ _ _ Hids Ht) as (inode & -> & Hk). cbn. by rewrite bool_decide_eq_true_2.
Qed.

Lemma reference_count_two i e x : entries !! i = Some e -> target e = x ->
  (exists j e', j <> i /\ entries !! j = Some e' /\ target e' = x) <-> 2 <= reference_count entries x.
Proof.
  intros Hi Ht. split.
  - intros (j & e' & Hj & He' & Ht'). pose proof (reference_count_pos entries e (list_elem_of_lookup_2 _ _ _ Hi)) as Hc.
    rewrite Ht in Hc. destruct (decide (reference_count entries x = 1)) as [H1|]; [|lia].
    by destruct (reference_single entries i j e e' x H1 Hi Ht He' Ht' Hj).
  - intros Hc. destruct (reference_remains _ _ _ _ Hi Hc) as (e' & (j & Hj & He') & Ht'). by exists j, e'.
Qed.

Lemma reference_count_one i e x : entries !! i = Some e -> target e = x ->
  (forall j e', j <> i -> entries !! j = Some e' -> target e' <> x) <-> reference_count entries x = 1.
Proof.
  intros Hi Ht. split.
  - intros Hall. pose proof (reference_count_pos entries e (list_elem_of_lookup_2 _ _ _ Hi)) as Hc. rewrite Ht in Hc.
    destruct (decide (2 <= reference_count entries x)) as [H2|]; [|lia].
    apply (reference_count_two i e x Hi Ht) in H2 as (j & e' & Hj & He' & Ht'). by destruct (Hall j e').
  - intros Hc j e' Hj He' Ht'. by eapply (reference_single entries i j e e' x).
Qed.
End Slots.

(** Sound metadata of the types a disk can hold. *)
Record meta_facts (m : metadata) : Prop := {
  mf_alloc : alloc_ok m.1.1;
  mf_inodes : Forall inode_typed m.1.2;
  mf_ids : NoDup (id <$> m.1.2);
  mf_entries : Forall entry_valid m.2;
  mf_slots : NoDup (entry_slot <$> m.2);
  mf_sound : metadata_sound m;
}.

Lemma holds_facts sb v m : disk_holds sb v m -> metadata_sound m -> meta_facts m.
Proof.
  destruct m as [[a inodes] entries]. intros Hd Hm. destruct (holds_typed Hd) as (Ha & Hi & _).
  destruct (on_disk_storable Hd) as (_ & [(_ & Hids & _) _] & [(He & Hs & _) _]). split; try done. apply (of_ok _ _ Ha).
Qed.

Section Exact.
Context (a : BlockAllocator) (inodes : list PersistedInode) (entries : list PersistedDirectoryEntry).
Abbreviation m := (a, inodes, entries).
Context (Hm : meta_facts m).

Lemma facts_tree : namespace_tree inodes entries.
Proof using Hm. destruct Hm as [_ _ Hids _ _ [_ Hn]]. by apply namespace_ok_tree. Qed.
Lemma facts_typed : Forall entry_typed entries.
Proof using Hm. eapply Forall_impl; [apply (mf_entries _ Hm)|]. by intros e [? _]. Qed.
Lemma facts_id x k : inode_of_kind inodes x k -> is_u64 x.
Proof using Hm. intros (i & Hi & <- & _). pose proof (mf_inodes _ Hm) as Ht. rewrite Forall_forall in Ht. by apply Ht. Qed.
Lemma slot_in p n i e : at_slot entries p n i e -> e ∈ entries.
Proof using. intros (Hi & _). by eapply list_elem_of_lookup_2. Qed.

Lemma hard_link_exact p n t : exact_for (hard_link m p n t) (fun r => link_effect p n t m r.2).
Proof using Hm.
  pose proof (mf_ids _ Hm) as Hids. apply exact_for_intro.
  - unfold hard_link. apply obind_no_panic; [unfold check_link; no_panic|]. intros ? _.
    apply obind_no_panic; [unfold add_link; no_panic|]. done.
  - intros [u m'] H. unfold hard_link in H. apply obind_Ok in H as (? & [Hp Ht]%check_link_Ok & H). unfold add_link in H. inv_ok.
    simplify_eq. bool_facts. split_and!; try done. intros i e (Hi & He1 & He2). apply not_true_iff_false in E0. apply E0.
    apply existsb_exists. exists e. split; [apply list_elem_of_In; by eapply list_elem_of_lookup_2|by apply entry_named_eq].
  - intros r (Hp & Ht & Hfree & _). unfold hard_link. rewrite (check_link_run inodes Hids) by done. cbn [obind]. unfold add_link.
    replace (existsb _ entries) with false; [done|]. symmetry. apply not_true_iff_false.
    intros (e & [i Hi]%list_elem_of_In%list_elem_of_lookup & [? ?]%entry_named_eq)%existsb_exists. by apply (Hfree i e).
Qed.

Lemma hard_unlink_exact p n : exact_for (hard_unlink m p n) (fun r => drop_link_effect p n m r.2).
Proof using Hm.
  pose proof (mf_ids _ Hm) as Hids. pose proof (mf_slots _ Hm) as Hsl. apply exact_for_intro.
  - unfold hard_unlink, remove_link. destruct (position _ _) as [i|] eqn:Hi; [|done].
    apply position_at_slot in Hi as (e & _ & Hx & _). cbn [ok_or obind]. rewrite Hx. cbn [obind].
    apply obind_no_panic; [no_panic|done].
  - intros [u m'] H. unfold hard_unlink in H. apply obind_Ok in H as (es & (i & e & Hi & Hp & Hn & Hf & Hc & ->)%remove_link_Ok & H).
    simplify_eq. exists i, e. split_and!; try done; [by apply reference_count_two with (e:=e)|]. cbn. by rewrite delete_take_drop.
  - intros r (i & e & Hs & Hf & Hc & _). cbn [fst snd] in *. pose proof Hs as (Hi & _).
    apply (reference_count_two entries i e (target e) Hi eq_refl) in Hc. unfold hard_unlink, remove_link.
    rewrite (position_slot entries Hsl p n i e Hs). cbn [ok_or obind]. rewrite (index_slot entries p n i e Hs). cbn [obind].
    rewrite (find_kind_run inodes Hids) by done. by rewrite (proj2 (Z.ltb_ge _ _)) by lia.
Qed.

Lemma unlink_effect_exact desired : alloc_ok desired.1.1 -> exact_for (unlink m desired) (fun r => unlink_effect desired m r.2).
Proof using Hm.
  intros Ha'. pose proof (mf_alloc _ Hm) as Ha.
  assert (NoDup entries) as Hnd by (eapply NoDup_fmap_1, (mf_slots _ Hm)).
  pose proof (unlink_exact m desired Ha Ha' (mf_ids _ Hm) Hnd (mf_sound _ Hm)) as Hiff.
  apply exact_for_intro; unfold unlink.
  - pose proof (check_unlink_no_panic m desired Ha Ha'). no_panic.
  - intros [u m'] (? & Hc & H)%obind_Ok. simplify_eq. split; [done|]. destruct x. by apply Hiff.
  - intros r [_ Hex]. by rewrite (proj2 Hiff Hex).
Qed.

Lemma rename_effect_exact op on np nn : str_typed nn ->
  exact_for (rename m op on np nn) (fun r => rename_effect op on np nn m r.2).
Proof using Hm.
  intros Hnn. pose proof facts_tree as Htree. destruct Hm as [Ha Hty Hids Hval Hsl Hs]. apply exact_for_intro.
  - unfold rename. apply obind_no_panic; [unfold validate_directory_parent; no_panic|]. intros ? _.
    apply obind_no_panic; [unfold validate_directory_parent; no_panic|]. intros ? (i & Hi & <- & _)%validate_directory_parent_Ok.
    rewrite Forall_forall in Hty. pose proof (rename_edit_no_panic inodes entries op on (id i) nn facts_typed
      (proj1 (Hty i Hi)) Hnn) as Hnp. apply obind_no_panic; [done|]. by intros [] _.
  - intros [u m'] H. unfold rename in H. apply obind_Ok in H as (? & Hop%validate_directory_parent_Ok & H).
    apply obind_Ok in H as (? & Hnp%validate_directory_parent_Ok & H). split; [done|]. split; [done|].
    apply obind_Ok in H as ([es|] & He & H); simplify_eq.
    + apply (rename_edit_Some inodes entries Hids Htree op on np nn Hnn facts_id Hnp) in He
        as (i & e & ? & ? & ? & ? & ? & ? & ->). exists i, e. split_and!; try done. by right.
    + apply rename_edit_None in He as (? & i & e & ? & ? & ? & ?). exists i, e. split_and!; try done. by left.
  - intros r (Hop & Hnp & i & e & (Hi & Hp & Hn) & Hroot & Hcase). cbn [fst snd] in *. unfold rename.
    rewrite !validate_directory_parent_of by done. cbn [obind]. destruct Hcase as [[Hsame _]|(Hne & Hmv & _)].
    + by erewrite rename_edit_same by eassumption.
    + pose proof facts_id. by erewrite rename_edit_found by eassumption.
Qed.
(** An entry with the name of one entry and the target of another. *)
Lemma retarget_valid e1 e2 : e1 ∈ entries -> e2 ∈ entries ->
  entry_valid (mkPersistedDirectoryEntry (parent e1) (target e2) (name e1)).
Proof using Hm.
  pose proof (mf_entries _ Hm) as Hv. rewrite Forall_forall in Hv. intros H1%Hv H2%Hv.
  destruct H1 as ((? & ? & ? & ?) & ? & ? & ?), H2 as ((? & ? & ? & ?) & ? & ? & ?). by split_and!.
Qed.
Lemma encode_run e : entry_valid e -> exists bs, encode_directory_entry e = Ok bs.
Proof using.
  intros Hv. pose proof (encode_directory_entry_spec e (proj1 Hv)) as Hs. destruct (encode_directory_entry e) as [bs| |]; [by exists bs|done..].
Qed.

Lemma validate_file_run t label : inode_of_kind inodes t File -> validate_regular_file_target inodes t label = Ok tt.
Proof using Hm. intros Ht. unfold validate_regular_file_target. by rewrite (find_kind_run inodes (mf_ids _ Hm)) by done. Qed.

Lemma exchange_exact p1 n1 p2 n2 : str_typed n1 -> str_typed n2 ->
  exact_for (exchange m p1 n1 p2 n2) (fun r => exchange_effect p1 n1 p2 n2 m r.2).
Proof using Hm.
  intros Ht1 Ht2. pose proof (mf_ids _ Hm) as Hids. pose proof (mf_slots _ Hm) as Hsl.
  assert (Hsame : (p1 =? p2) && bool_decide (n1 = n2) = bool_decide ((p1, n1) = (p2, n2))).
  { apply eq_true_iff_eq. rewrite andb_true_iff, Z.eqb_eq, !bool_decide_eq_true. naive_solver. }
  apply exact_for_intro; unfold exchange.
  - apply obind_no_panic; [unfold validate_directory_parent; no_panic|]. intros ? Hp1%validate_directory_parent_Ok.
    apply obind_no_panic; [unfold validate_directory_parent; no_panic|]. intros ? Hp2%validate_directory_parent_Ok.
    case_match; [done|]. apply obind_no_panic; [|by intros []].
    apply exchange_edit_no_panic; [apply facts_typed|by eapply facts_id..|done|done].
  - intros [u m'] H. apply obind_Ok in H as (? & Hp1%validate_directory_parent_Ok & H).
    apply obind_Ok in H as (? & Hp2%validate_directory_parent_Ok & H). split; [done|]. split; [done|].
    rewrite Hsame in H. case_bool_decide as Heq; [left; by simplify_eq|right]. split; [done|].
    apply obind_Ok in H as ([es|] & He & H); simplify_eq.
    + apply exchange_edit_Ok in He as (i & j & e1 & e2 & Hij & He1 & He2 & Hpe1 & Hne1 & Hpe2 & Hne2 & Hf1 & Hf2 & ->).
      * by exists i, j, e1, e2.
      * intros [-> ->]. done.
    + apply exchange_edit_None in He as (i & j & e1 & e2 & He1 & He2 & Hpe1 & Hne1 & Hpe2 & Hne2 & Hf & Ht).
      exists i, j, e1, e2. split_and!; try done; [cbn; by rewrite <- Ht|]. cbn [fst snd]. subst p1 n1 p2 n2.
      rewrite (list_insert_id entries i) by (rewrite <- Ht; by destruct e1).
      rewrite (list_insert_id entries j) by (rewrite Ht; by destruct e2). done.
  - intros r (Hp1 & Hp2 & Hcase). rewrite !validate_directory_parent_of by done. cbn [obind]. rewrite Hsame.
    destruct Hcase as [[Heq _]|(Hne & i & j & e1 & e2 & Hs1 & Hs2 & Hf1 & Hf2 & _)]; [by rewrite bool_decide_eq_true_2|].
    rewrite bool_decide_eq_false_2 by done. unfold exchange_edit. cbn [fst snd] in *.
    rewrite (position_slot entries Hsl p1 n1 i e1), (position_slot entries Hsl p2 n2 j e2) by done. cbn [ok_or obind].
    rewrite (index_slot entries p1 n1 i e1), (index_slot entries p2 n2 j e2) by done. cbn [obind].
    rewrite !validate_file_run by done. cbn [obind]. case_match; [done|].
    pose proof (slot_in _ _ _ _ Hs1) as Hin1. pose proof (slot_in _ _ _ _ Hs2) as Hin2.
    pose proof (slot_bound _ _ _ _ _ Hs1). pose proof (slot_bound _ _ _ _ _ Hs2).
    destruct Hs1 as (_ & <- & <-), Hs2 as (_ & <- & <-).
    destruct (encode_run _ (retarget_valid e1 e2 Hin1 Hin2)) as [bs1 ->].
    destruct (encode_run _ (retarget_valid e2 e1 Hin2 Hin1)) as [bs2 ->]. cbn [obind].
    rewrite set_at_Ok by done. cbn [obind]. by rewrite set_at_Ok by (by rewrite zlen_insert).
Qed.

(** *** Releasing blocks *)

(** Blocks of an inode are allocated, so their release does not fail. *)
Lemma release_run f inode kept released : inode ∈ inodes -> blocks inode = kept ++ released ->
  exists a', release f a released = Ok a' /\ blocks_released a released a'.
Proof using Hm.
  intros Hin Hb. destruct Hm as [Ha Hty Hids _ _ [[Hown Hnd] _]]. cbn [fst snd] in *.
  pose proof (filter_inode_references inodes inode Hids Hin) as Hp. rewrite Hb in Hp.
  rewrite Hp in Hown, Hnd. apply Forall_app in Hown as [_ [_ Hown]%Forall_app].
  apply NoDup_app in Hnd as (_ & _ & (_ & _ & Hnd)%NoDup_app).
  assert (Forall (Z.le 0) released) as Hpos.
  { rewrite Forall_forall in Hty. destruct (Hty inode Hin) as [_ Hbl]. rewrite Hb in Hbl. apply Forall_app in Hbl as [_ Hbl].
    eapply Forall_impl; [exact Hbl|]. intros ? Hx. apply Hx. }
  pose proof (release_spec f released a Ha Hpos) as Hs. destruct (release f a released) as [a'|e|]; simpl in Hs; [|tauto|done].
  destruct Hs as (? & ? & ? & ?). exists a'. split; [done|]. by split_and!.
Qed.

Lemma released_none : blocks_released a [] a.
Proof using Hm. split; [apply (mf_alloc _ Hm)|]. split; [done|]. set_solver. Qed.

(** *** Truncation *)

Lemma id_unique i j n n' : inodes !! i = Some n -> inodes !! j = Some n' -> id n = id n' -> i = j.
Proof using Hm.
  intros Hi Hj Heq. apply (NoDup_lookup (id <$> inodes) i j (id n) (mf_ids _ Hm)); rewrite list_lookup_fmap; [by rewrite Hi|].
  rewrite Hj. cbn. by rewrite Heq.
Qed.

Lemma truncate_target_exact x : exact_for (find_truncate_target inodes x)
  (fun r => 0 <= r.1 < zlen inodes /\ inodes !! Z.to_nat r.1 = Some r.2 /\ id r.2 = x /\ kind r.2 = File).
Proof using Hm.
  apply exact_for_intro; [apply find_truncate_target_no_panic|intros []; apply find_truncate_target_Ok|].
  intros [i inode] (Hr & Hi & Hx & Hk). cbn [fst snd] in *. unfold find_truncate_target.
  rewrite (position_only _ _ _ inode Hi); [|by apply Z.eqb_eq|].
  - cbn [ok_or obind]. rewrite (index_at_Ok inodes _ inode) by (rewrite ?Z2Nat.id by lia; done || lia). cbn [obind].
    by rewrite bool_decide_eq_true_2.
  - intros j y Hj Hy%Z.eqb_eq. eapply id_unique; [done..|congruence].
Qed.

Lemma truncate_missing x e n released m' :
  find_truncate_target inodes x = Err e -> truncate_effect x n released m m' -> False.
Proof using Hm.
  intros Hf (i & inode & Hi & Hx & Hk & _). pose proof (truncate_target_exact x) as Hx'. rewrite Hf in Hx'. apply Hx'.
  cbn [fst snd] in Hi. exists (Z.of_nat i, inode). cbn [fst snd]. rewrite Nat2Z.id. pose proof (lookup_lt_Some _ _ _ Hi).
  unfold zlen. split_and!; done || lia.
Qed.

Section Truncate.
Context (x index : Z) (inode : PersistedInode) (Hf : find_truncate_target inodes x = Ok (index, inode)).

Lemma truncate_effect_found n released m' : truncate_effect x n released m m' ->
  0 <= n <= zlen (blocks inode) /\ released = drop (Z.to_nat n) (blocks inode).
Proof using Hf Hm.
  apply find_truncate_target_Ok in Hf as (Hr & Hi & Hid & Hk). intros (i & inode' & Hi' & Hx & Hk' & Hn & Hrel & _).
  cbn [fst snd] in *. assert (i = Z.to_nat index) as ->; [|by simplify_eq].
  eapply id_unique; [done..|congruence].
Qed.

Lemma truncate_release f n : 0 <= n <= zlen (blocks inode) ->
  let released := drop (Z.to_nat n) (blocks inode) in
  exists a' inodes', release f a released = Ok a' /\
    set_blocks inodes index inode (take (Z.to_nat n) (blocks inode)) = Ok inodes' /\
    truncate_effect x n released m (a', inodes', entries).
Proof using Hf Hm.
  apply find_truncate_target_Ok in Hf as (Hr & Hi & Hid & Hk). intros Hn.
  destruct (release_run f inode _ _ (list_elem_of_lookup_2 _ _ _ Hi) (eq_sym (take_drop (Z.to_nat n) (blocks inode))))
    as (a' & Hrel & Hb). eexists a', _. split; [done|]. split; [by apply set_blocks_Ok|].
  exists (Z.to_nat index), inode. cbn [fst snd]. rewrite Hid, Hk. split_and!; done || lia.
Qed.

Lemma truncate_none : truncate_effect x (zlen (blocks inode)) [] m m.
Proof using Hf Hm.
  apply find_truncate_target_Ok in Hf as (Hr & Hi & Hid & Hk). unfold zlen. exists (Z.to_nat index), inode.
  unfold zlen. rewrite Nat2Z.id, drop_all, firstn_all. split_and!; try (done || lia || apply released_none).
  cbn. rewrite list_insert_id; [done|]. by destruct inode; cbn in *; subst.
Qed.
End Truncate.

Lemma truncate_zero_exact x : exact_for (truncate_zero m x) (fun r => exists released, truncate_effect x 0 released m r.2).
Proof using Hm.
  unfold truncate_zero, truncate_zero_edit. unfold exact_for in *. pose proof (find_truncate_target_no_panic inodes x) as Hnp.
  destruct (find_truncate_target inodes x) as [[index inode]|e|] eqn:Hf; cbn [owp obind]; [|by intros (? & ? & He%(truncate_missing _ _ _ _ _ Hf))|done].
  pose proof (truncate_none x index inode Hf) as Hnone.
  destruct (blocks inode) as [|b bs] eqn:Hb; cbn [is_empty obind owp]; [by exists []|]. rewrite <- Hb.
  destruct (truncate_release x index inode Hf release_error 0) as (a' & inodes' & Hr & Hs & He); [unfold zlen; lia|].
  change (drop (Z.to_nat 0) (blocks inode)) with (blocks inode) in *. change (take (Z.to_nat 0) (blocks inode)) with (@nil Z) in Hs.
  rewrite Hr. cbn [obind]. rewrite Hs. cbn. by exists (blocks inode).
Qed.

Lemma truncate_blocks_exact x n : 0 <= n ->
  exact_for (truncate_blocks m x n) (fun r => truncate_effect x n r.1 m r.2).
Proof using Hm.
  intros Hn. unfold truncate_blocks, truncate_blocks_edit. unfold exact_for in *. pose proof (find_truncate_target_no_panic inodes x) as Hnp.
  destruct (find_truncate_target inodes x) as [[index inode]|e|] eqn:Hf; cbn [owp obind]; [|by intros (? & He%(truncate_missing _ _ _ _ _ Hf))|done].
  destruct (Z.ltb_spec (zlen (blocks inode)) n) as [Hlt|Hle]; cbn [negb ensure obind].
  { intros [r He]. apply (truncate_effect_found x index inode Hf) in He as [? _]. lia. }
  destruct (Z.eqb_spec n (zlen (blocks inode))) as [->|Hne]; cbn [obind]; [by apply (truncate_none x index inode Hf)|].
  destruct (truncate_release x index inode Hf release_error n) as (a' & inodes' & Hr & Hs & He); [lia|].
  rewrite Hr. cbn [obind]. by rewrite Hs.
Qed.

Lemma truncate_last_exact x : exact_for (truncate_last m x) (fun r => exists n, truncate_effect x n [r.1] m r.2).
Proof using Hm.
  unfold truncate_last, truncate_last_edit. unfold exact_for in *. pose proof (find_truncate_target_no_panic inodes x) as Hnp.
  destruct (find_truncate_target inodes x) as [[index inode]|e|] eqn:Hf; cbn [owp obind]; [|by intros (? & ? & He%(truncate_missing _ _ _ _ _ Hf))|done].
  destruct (vec_pop (blocks inode)) as [[b rest]|] eqn:Hp; cbn [ok_or obind].
  - apply vec_pop_Some in Hp.
    destruct (truncate_release x index inode Hf release_error (zlen rest)) as (a' & inodes' & Hr & Hs & He).
    { rewrite Hp. unfold zlen. rewrite length_app. simpl. lia. }
    unfold zlen in *. rewrite Nat2Z.id, Hp, drop_app_length, take_app_length in *. unfold release in Hr. cbn [ofold] in Hr.
    unfold obind in *. destruct (map_err _ _) as [[[] a'']|e|]; simplify_eq. rewrite Hs. cbn. by exists (Z.of_nat (length rest)).
  - apply vec_pop_None in Hp. intros [[b m'] (n & He)]. apply (truncate_effect_found x index inode Hf) in He as [_ Heq].
    by rewrite Hp, drop_nil in Heq.
Qed.

(** *** Overwriting *)

(** The condition on the other names of the overwritten file. *)
Definition other_names (linked : bool) (j : nat) (t : Z) : Prop :=
  if linked then exists k e, k <> j /\ entries !! k = Some e /\ target e = t
  else forall k e, k <> j -> entries !! k = Some e -> target e <> t.

Lemma other_names_count linked j e : entries !! j = Some e -> other_names linked j (target e) <->
  if linked then 2 <= reference_count entries (target e) else reference_count entries (target e) = 1.
Proof using. intros Hj. destruct linked; [by apply reference_count_two with (e:=e)|by apply reference_count_one with (e:=e)]. Qed.

Lemma overwrite_edit_slots linked op on np nn r : overwrite_edit inodes entries op on np nn linked = Ok r ->
  inode_of_kind inodes op Directory /\ inode_of_kind inodes np Directory /\
  exists i j e1 e2, at_slot entries op on i e1 /\ at_slot entries np nn j e2 /\
  match r with
  | None => i = j
  | Some (es, t, bs) => i <> j /\ target e1 <> t /\ t = target e2 /\ inode_of_kind inodes (target e1) File /\
      es = delete j (<[i := mkPersistedDirectoryEntry np (target e1) nn]> entries) /\ other_names linked j t /\
      exists inode, inode ∈ inodes /\ id inode = t /\ kind inode = File /\ bs = blocks inode
  end.
Proof using.
  unfold overwrite_edit. intros (? & Hop%validate_directory_parent_Ok & H)%obind_Ok.
  apply obind_Ok in H as (? & Hnp%validate_directory_parent_Ok & H). split; [done|]. split; [done|].
  apply obind_Ok in H as (i & (e1 & Hs1 & Hx1 & Hr1)%ok_or_Ok%position_at_slot & H).
  apply obind_Ok in H as (j & (e2 & Hs2 & Hx2 & Hr2)%ok_or_Ok%position_at_slot & H).
  exists (Z.to_nat i), (Z.to_nat j), e1, e2. split; [done|]. split; [done|].
  destruct (i =? j) eqn:Hij; bool_facts; [by simplify_eq|]. rewrite Hx1, Hx2 in H. cbn [obind] in H.
  apply obind_Ok in H as (? & Hal%ensure_Ok & H). apply find_kind_Ok in H as [Hf1 H].
  apply obind_Ok in H as (n2 & (Hin & Hid)%ok_or_Ok%find_inode_Some & H). apply obind_Ok in H as (? & Hk%ensure_Ok & H).
  apply obind_Ok in H as (? & Hrefs & H). apply obind_Ok in H as (? & _ & H). simplify_eq. bool_facts.
  rewrite <- (Z2Nat.id i), <- (Z2Nat.id j), overwrite_entries_delete, !Nat2Z.id by lia.
  split_and!; try (done || lia); [|by exists n2]. apply other_names_count; [apply Hs2|].
  destruct linked; apply ensure_Ok in Hrefs; bool_facts; congruence.
Qed.

Lemma overwrite_edit_run linked op on np nn i j e1 e2 : str_typed nn ->
  inode_of_kind inodes op Directory -> inode_of_kind inodes np Directory ->
  at_slot entries op on i e1 -> at_slot entries np nn j e2 ->
  i = j \/ target e1 <> target e2 /\ inode_of_kind inodes (target e1) File /\ inode_of_kind inodes (target e2) File /\
    other_names linked j (target e2) ->
  is_ok (overwrite_edit inodes entries op on np nn linked) = true.
Proof using Hm.
  intros Hnn Hop Hnp Hs1 Hs2 Hcase. pose proof (mf_ids _ Hm) as Hids. pose proof (mf_slots _ Hm) as Hsl.
  cbn [fst snd] in *. unfold overwrite_edit. rewrite !validate_directory_parent_of by done. cbn [obind].
  rewrite (position_slot entries Hsl op on i e1), (position_slot entries Hsl np nn j e2) by done. cbn [ok_or obind].
  destruct Hcase as [->|(Hne & Hf1 & Hf2 & Ho)]; [by rewrite Z.eqb_refl|].
  destruct (_ =? _); [done|]. rewrite (index_slot entries op on i e1), (index_slot entries np nn j e2) by done. cbn [obind].
  rewrite (proj2 (Z.eqb_neq _ _)) by done. cbn [negb ensure obind]. rewrite (find_kind_run inodes Hids) by done.
  destruct (find_inode_of_kind _ _ _ Hids Hf2) as (inode & -> & Hk). cbn [ok_or obind]. rewrite bool_decide_eq_true_2 by done.
  cbn [ensure obind]. apply other_names_count in Ho; [|apply Hs2].
  assert ((if linked then ensure (negb (reference_count entries (target e2) <? 2))
            (invalid_input "linked rename-overwrite destination must have multiple namespace references")
        else ensure (reference_count entries (target e2) =? 1)
               (invalid_input "rename-overwrite destination must have exactly one namespace reference")) = Ok tt) as ->.
  { destruct linked; [by rewrite (proj2 (Z.ltb_ge _ _)) by lia|by rewrite Ho]. }
  cbn [obind]. pose proof (retarget_valid e2 e1 (slot_in _ _ _ _ Hs2) (slot_in _ _ _ _ Hs1)) as Hv.
  destruct Hs2 as (_ & <- & <-). by destruct (encode_run _ Hv) as [bs ->].
Qed.

Lemma overwrite_exact linked op on np nn : str_typed nn ->
  exact_for (overwrite m op on np nn linked) (fun r => overwrite_effect linked op on np nn m r.2).
Proof using Hm.
  intros Hnn. pose proof (mf_ids _ Hm) as Hids. apply exact_for_intro; unfold overwrite.
  - apply obind_no_panic; [by apply overwrite_edit_no_panic, Hnn; [apply (mf_inodes _ Hm)|apply facts_typed]|].
    intros [[[es t] bs]|] He; [|done]. destruct linked; [done|].
    apply overwrite_edit_slots in He as (_ & _ & i & j & e1 & e2 & _ & _ & _ & _ & _ & _ & _ & _ & inode & Hin & _ & _ & ->).
    destruct (release_run overwrite_release_error inode [] (blocks inode) Hin eq_refl) as (a' & Hr & _).
    unfold overwrite_release. by rewrite Hr.
  - intros [u m'] (edit & He & H)%obind_Ok.
    apply overwrite_edit_slots in He as (Hop & Hnp & i & j & e1 & e2 & Hs1 & Hs2 & He). split; [done|]. split; [done|].
    exists i, j, e1, e2. split; [done|]. split; [done|]. destruct edit as [[[es t] bs]|]; [right|left; by simplify_eq].
    destruct He as (Hij & Hne & -> & Hf1 & -> & Ho & inode & Hin & Hid & Hk & ->). split; [done|]. split; [done|]. split; [done|].
    split; [by exists inode|]. destruct linked; [by simplify_eq|].
    destruct (release_run overwrite_release_error inode [] (blocks inode) Hin eq_refl) as (a' & Hr & Hb).
    unfold overwrite_release in H. rewrite Hr in H. simplify_eq/=. split; [done|]. split; [done|]. by exists inode.
  - intros r (Hop & Hnp & i & j & e1 & e2 & Hs1 & Hs2 & Hcase). cbn [fst snd] in *.
    assert (is_ok (overwrite_edit inodes entries op on np nn linked) = true) as Hok.
    { apply (overwrite_edit_run linked op on np nn i j e1 e2); try done. destruct Hcase as [[-> _]|(_ & Hne & Hf1 & Hf2 & _ & Ho)];
        [by left|right]. split_and!; try done. by destruct linked, Ho. }
    destruct (overwrite_edit _ _ _ _ _ _ _) as [edit| |] eqn:He; [|done..]. cbn [obind]. destruct edit as [[[es t] bs]|]; [|done].
    destruct linked; [done|].
    apply overwrite_edit_slots in He as (_ & _ & ? & ? & ? & ? & _ & _ & _ & _ & _ & _ & _ & _ & inode & Hin & _ & _ & ->).
    destruct (release_run overwrite_release_error inode [] (blocks inode) Hin eq_refl) as (a' & Hr & _).
    unfold overwrite_release. by rewrite Hr.
Qed.
End Exact.
