(* ===== verification/FileState.v ===== *)
(** * Metadata and file contents together

    The state the file operations work on: the metadata and the data area of
    the disk.  [fs_change] is what an operation may ask for, new metadata and
    data blocks to write.  [reads] is the logic of the read-only beginnings of
    the operations: a program that loads and computes without writing agrees
    with a pure function of the disk. *)

From S2P Require Import Prelude Bytes Block CrashDevice Allocation Superblock Region AllocationDisk.
From S2P Require Import Journal JournalCodec JournalRegion Recovery TransactionImage.
From S2P Require Import TransactionPlan InodeCodec RecordTable InodeTable DirectoryCodec Inode.
From S2P Require Import DirectoryTable Atomicity CreateTx Format Namespace NamespaceEdit Fsck.
From S2P Require Import Transition LinkTx TruncateTx.

(** ** The data area *)

Definition data_area (sb : Superblock) (v : list block) : list block := drop (Z.to_nat (reserved sb)) v.

(** Block [b] of the disk, from the data area alone. *)
Definition data_lookup (sb : Superblock) (data : list block) (b : Z) : option block :=
  if reserved sb <=? b then data !! Z.to_nat (b - reserved sb) else None.

Definition data_block (sb : Superblock) (data : list block) (b : Z) : outcome io_error block :=
  match data_lookup sb data b with Some x => Ok x | None => Panic end.

Definition write_data (sb : Superblock) (ws : list (Z * block)) (data : list block) : list block :=
  foldl (fun data w => <[Z.to_nat (w.1 - reserved sb) := w.2]> data) data ws.

Definition data_write (sb : Superblock) (w : Z * block) : Prop :=
  reserved sb <= w.1 < total_blocks sb /\ block_ok w.2.

Record file_system : Type := mkFs { fs_meta : metadata; fs_data : list block }.

(** New metadata and data blocks to write. *)
Record fs_change : Type := mkChange { ch_meta : metadata; ch_data : list (Z * block) }.

Definition fs_apply (sb : Superblock) (fs : file_system) (c : fs_change) : file_system :=
  mkFs (ch_meta c) (write_data sb (ch_data c) (fs_data fs)).

#[global] Instance fs_target sb v : Target sb v fs_change := {|
  target_writes c := new_writes sb v (ch_meta c) ++ ch_data c;
  target_storable c := storable_metadata sb (ch_meta c) /\ Forall (data_write sb) (ch_data c);
|}.

(** ** Lemmas on the data area *)

Section Data.
Context (sb : Superblock) (Hgeo : geometry sb).

Lemma data_lookup_area v b x : data_lookup sb (data_area sb v) b = Some x <-> reserved sb <= b /\ v !! Z.to_nat b = Some x.
Proof.
  pose proof (geometry_bounds sb Hgeo). unfold data_lookup, data_area. destruct (reserved sb <=? b) eqn:Hb; bool_facts.
  - rewrite lookup_drop. replace (Z.to_nat (reserved sb) + Z.to_nat (b - reserved sb))%nat with (Z.to_nat b)
      by (unfold reserved in *; lia). naive_solver.
  - split; [done|]. intros [? _]. lia.
Qed.

Lemma data_area_apply ws v : Forall (fun w => reserved sb <= w.1) ws ->
  data_area sb (apply_writes ws v) = write_data sb ws (data_area sb v).
Proof.
  pose proof (geometry_bounds sb Hgeo). induction ws as [|[b x] ws IH] using rev_ind; intros Hws; [done|].
  apply Forall_app in Hws as [Hws [Hb _]%Forall_cons]. rewrite apply_writes_snoc. unfold write_data in *.
  rewrite foldl_app. simpl in *. rewrite <- IH by done. unfold data_area.
  rewrite drop_insert_ge by (unfold reserved in *; lia). f_equal. unfold reserved in *. lia.
Qed.

Lemma data_area_below ws v : Forall (fun w => 0 <= w.1 < reserved sb) ws ->
  data_area sb (apply_writes ws v) = data_area sb v.
Proof.
  induction ws as [|[b x] ws IH] using rev_ind; intros Hws; [done|].
  apply Forall_app in Hws as [Hws [Hb _]%Forall_cons]. rewrite apply_writes_snoc. unfold data_area in *. simpl in *.
  rewrite drop_insert_lt by lia. auto.
Qed.

Lemma data_area_home v s : same_home sb v s -> data_area sb v = data_area sb s.
Proof.
  pose proof (geometry_bounds sb Hgeo). intros [Hl Hb]. unfold data_area. apply list_eq. intros i.
  rewrite !lookup_drop. specialize (Hb (reserved sb + Z.of_nat i)).
  replace (Z.to_nat (reserved sb + Z.of_nat i)) with (Z.to_nat (reserved sb) + i)%nat in Hb by (unfold reserved; lia).
  apply Hb; unfold reserved in *; lia.
Qed.

(** What a change does to the data area. *)
Lemma data_area_change v (c : fs_change) :
  target_storable sb v c ->
  data_area sb (apply_writes (target_writes sb v c) v) = write_data sb (ch_data c) (data_area sb v).
Proof.
  destruct c as [[[a inodes] entries] ws]. simpl. intros [[Ha Hs] Hws]. rewrite apply_writes_app, data_area_apply.
  - by rewrite data_area_below by (by destruct (create_writes_ok sb a inodes entries v Hgeo Ha Hs)).
  - eapply Forall_impl; [exact Hws|]. intros w [? _]. lia.
Qed.

Lemma metadata_data_writes ws v : Forall (fun w => reserved sb <= w.1) ws ->
  metadata_on_disk sb (apply_writes ws v) = metadata_on_disk sb v.
Proof.
  intros Hws. pose proof (geometry_bounds sb Hgeo). unfold metadata_on_disk, allocator_on_disk, table_on_disk.
  rewrite !disk_region_outside; try done; try (simpl; lia);
    (eapply Forall_impl; [exact Hws|intros w Hw; simpl in *; unfold reserved in *; lia]).
Qed.

(** What a change does to the metadata. *)
Lemma metadata_change v (c : fs_change) : image_ok (total_blocks sb) v -> target_storable sb v c ->
  metadata_on_disk sb (apply_writes (target_writes sb v c) v) = Ok (ch_meta c).
Proof.
  destruct c as [[[a inodes] entries] ws]. simpl. intros Hv [[Ha Hs] Hws]. rewrite apply_writes_app, metadata_data_writes.
  - by apply create_metadata.
  - eapply Forall_impl; [exact Hws|]. intros w [? _]. lia.
Qed.

Lemma data_home ws : Forall (data_write sb) ws -> home_writes_ok sb ws.
Proof.
  intros Hws. pose proof (geometry_bounds sb Hgeo). eapply Forall_impl; [exact Hws|]. intros w [Hr Hb].
  split; [|done]. unfold home_block, reserved in *. lia.
Qed.

Lemma change_home v (c : fs_change) : target_storable sb v c -> home_writes_ok sb (target_writes sb v c).
Proof.
  destruct c as [[[a inodes] entries] ws]. simpl. intros [[Ha Hs] Hws]. apply Forall_app. split; [|by apply data_home].
  by destruct (create_writes_ok sb a inodes entries v Hgeo Ha Hs).
Qed.
End Data.

(** ** Programs that only read *)

Section Reads.
Context {sb : Superblock} {v : list block}.
Context {a : BlockAllocator} {inodes : list PersistedInode} {entries : list PersistedDirectoryEntry}.
Context (Hd : disk_holds sb v (a, inodes, entries)).
Context `{DeviceLaws D} (h : bool).
Implicit Types (d : D).

(** [prog] leaves the device alone and returns what [o] says, if that is not a
    panic. *)
Definition reads {A} (prog : M D A) (o : outcome io_error A) : Prop :=
  o <> Panic -> forall d, at_state h d v v ->
  wp prog (fun r d' => o = Ok r /\ at_state h d' v v) (fun e d' => crashed d' v /\ (h = true -> o = Err e)) d.

Lemma reads_lift {A} (o : outcome io_error A) : reads (ilift o) o.
Proof.
  intros Hp d Hst. apply wp_lift. destruct o as [x|e|]; simpl; [done| |done].
  split; [by eapply at_state_crashed|done].
Qed.

Lemma reads_ret {A} (x : A) : reads (iret x) (Ok x).
Proof. intros _ d Hst. by apply wp_ret. Qed.

Lemma reads_bind {A B} (m : M D A) (k : A -> M D B) o (ko : A -> outcome io_error B) :
  reads m o -> (forall x, o = Ok x -> reads (k x) (ko x)) -> reads (ibind m k) (obind o ko).
Proof.
  intros Hm Hk Hp d Hst. apply wp_bind. assert (Ho : o <> Panic) by (by destruct o).
  eapply wp_mono; [by apply Hm|..]; simpl.
  - intros x d' [-> Hst']. by apply Hk.
  - intros e d' [Hc Hh]. split; [done|]. intros Ht. by rewrite (Hh Ht).
Qed.

Lemma reads_fold {A B} (f : B -> A -> M D B) (fo : B -> A -> outcome io_error B) l :
  (forall acc x, x ∈ l -> reads (f acc x) (fo acc x)) -> forall acc, reads (ifold f acc l) (ofold fo acc l).
Proof.
  induction l as [|x l IH]; intros Hf acc; simpl; [apply reads_ret|].
  apply reads_bind; [apply Hf; by left|]. intros acc' _. apply IH. intros. apply Hf. by right.
Qed.

Lemma reads_if {A} (b : bool) (m1 m2 : M D A) o1 o2 :
  reads m1 o1 -> reads m2 o2 -> reads (if b then m1 else m2) (if b then o1 else o2).
Proof. by destruct b. Qed.

Lemma reads_allocator : reads (load_allocator sb) (Ok a).
Proof.
  intros _ d Hst. destruct (on_disk_parts Hd) as (Ha & _).
  eapply wp_mono; [apply wp_load_allocator; [apply Hd|done|apply (holds_image _ _ _ Hd)]|..]; simpl.
  - intros a' d' [Hst' Ha']. split; [congruence|done].
  - intros e d' [Hc%at_state_crashed Hh]. split; [done|]. intros Ht. specialize (Hh Ht). congruence.
Qed.

Lemma reads_inodes : reads (load_inode_table sb) (Ok inodes).
Proof.
  intros _ d Hst. destruct (on_disk_parts Hd) as (_ & Hi & _).
  change (load_inode_table sb) with (load_table (D:=D) inode_format sb).
  eapply wp_mono; [apply (wp_load_table inode_format); [apply Hd|done|apply (holds_image _ _ _ Hd)]|..]; simpl.
  - intros a' d' [Hst' Ha']. split; [congruence|done].
  - intros e d' [Hc%at_state_crashed Hh]. split; [done|]. intros Ht. specialize (Hh Ht). congruence.
Qed.

Lemma reads_with_allocator {A} (k : BlockAllocator -> M D A) o :
  reads (k a) o -> reads (ibind (load_allocator sb) k) o.
Proof.
  intros Hk. change o with (let? _ := Ok a in o). apply reads_bind; [apply reads_allocator|]. by intros ? [= <-].
Qed.

Lemma reads_with_inodes {A} (k : list PersistedInode -> M D A) o :
  reads (k inodes) o -> reads (ibind (load_inode_table sb) k) o.
Proof.
  intros Hk. change o with (let? _ := Ok inodes in o). apply reads_bind; [apply reads_inodes|]. by intros ? [= <-].
Qed.

Lemma reads_block b : reads (read_block b) (data_block sb (data_area sb v) b).
Proof.
  intros Hp d Hst. destruct (data_block sb (data_area sb v) b) as [x|e|] eqn:Hb; [| |done].
  - unfold data_block in Hb. destruct (data_lookup _ _ b) as [y|] eqn:Hl; simplify_eq.
    pose proof (geometry_bounds sb (holds_geometry _ _ _ Hd)).
    apply (data_lookup_area sb (holds_geometry _ _ _ Hd)) in Hl as [Hr Hx].
    assert (0 <= b < zlen v).
    { apply lookup_lt_Some in Hx. unfold zlen, reserved in *. lia. }
    eapply wp_mono; [apply (wp_read h d v v b Hst); lia|..]; simpl.
    + intros y d' [Hy Hst']. split; [congruence|done].
    + intros e d' [Hc%at_state_crashed Hh]. split; [done|]. intros ->. specialize (Hh ltac:(lia)). done.
  - unfold data_block in Hb. by destruct (data_lookup _ _ b).
Qed.

(** A read-only beginning of an operation. *)
Lemma wp_reads_step {T A X B} `{!Target sb v T} (res : outcome io_error (B * T)) (m : M D X) o (k : X -> M D A) Q d :
  reads m o -> at_state h d v v -> o <> Panic -> (forall e, o = Err e -> res = Err e) ->
  (forall x d', o = Ok x -> at_state h d' v v -> wp (k x) Q (tx_abort sb v h res) d') ->
  wp (ibind m k) Q (tx_abort sb v h res) d.
Proof.
  intros Hm Hst Hp He Hk. apply wp_bind. eapply wp_mono; [by apply Hm|..]; simpl.
  - intros x d' [Hx Hst']. by apply Hk.
  - intros e d' [Hc Hh]. split; [by left|]. intros Ht. split; [done|]. left. auto.
Qed.
End Reads.
