(* ===== verification/FileData.v ===== *)
(** * File contents: [file_data.rs], [file_overwrite_batch.rs], [file_range_read.rs],
      [file_copy_range.rs] and [file_zero_range.rs]

    Reading and overwriting the existing blocks of a file.  The byte-range
    operations work block by block; a whole range is committed in one
    transaction. *)

From S2P Require Import Prelude Bytes Block CrashDevice Allocation Superblock Region AllocationDisk.
From S2P Require Import Journal JournalCodec JournalRegion Recovery TransactionImage.
From S2P Require Import TransactionPlan InodeCodec RecordTable InodeTable DirectoryCodec Inode.
From S2P Require Import DirectoryTable Atomicity CreateTx Format Namespace NamespaceEdit Fsck.
From S2P Require Import Transition LinkTx TruncateTx RenameTx FileState.

(** The inode lookup and the kind check. *)
Definition find_file (inodes : list PersistedInode) (x : Z) : outcome io_error PersistedInode :=
  let? inode := ok_or (find_inode inodes x) (invalid_input "file-data target inode is missing") in
  try? ensure (bool_decide (kind inode = File)) (invalid_input "file-data target must be a regular file") in
  Ok inode.

(** [*inode.blocks.get(i).ok_or_else(..)?] *)
Definition logical_block (inode : PersistedInode) (i : Z) : outcome io_error Z :=
  ok_or (blocks inode !! Z.to_nat i) (invalid_input "file-data logical block index is out of range").

Definition check_owned (allocator : BlockAllocator) (b : Z) : outcome io_error unit :=
  let? owned := map_err (fun error => invalid_data (allocation_error_fmt error)) (is_owned allocator b) in
  ensure owned (invalid_data "file-data inode references an unowned block").

(** [size_of::<(usize, [u8; BLOCK_SIZE])>()] *)
Definition write_size : Z := 8 + BLOCK_SIZE.

Section Ops.
Context `{BlockDevice D}.

Definition resolve_owned_file_block (superblock : Superblock) (inode_id file_block_index : Z) : M D Z :=
  let! inodes := load_inode_table superblock in
  let! inode := ilift (find_file inodes inode_id) in
  let! block := ilift (logical_block inode file_block_index) in
  let! allocator := load_allocator superblock in
  do! ilift (check_owned allocator block) in
  iret block.

Definition read_file_block (superblock : Superblock) (inode_id file_block_index : Z) : M D block :=
  let! block := resolve_owned_file_block superblock inode_id file_block_index in
  read_block block.

(** Log, commit, replay and checkpoint one transaction, and check the report. *)
Definition commit_data (superblock : Superblock) (changed : list (Z * block)) (msg : string) : M D RecoveryReport :=
  let! es := ilift (single_transaction_log changed) in
  let! report := commit_checkpointed superblock es in
  ilift (check_report report (zlen changed) msg).

Definition journal_block_image (superblock : Superblock) (b : Z) (data : block) : M D RecoveryReport :=
  let! current := read_block b in
  if bool_decide (current = data) then iret report_default else
  commit_data superblock [(b, data)] "file-data transaction recovery report is inconsistent".

Definition write_file_block_journaled (superblock : Superblock) (inode_id file_block_index : Z) (data : block)
    : M D RecoveryReport :=
  let! b := resolve_owned_file_block superblock inode_id file_block_index in
  journal_block_image superblock b data.

Definition write_file_block_range_journaled (superblock : Superblock) (inode_id file_block_index offset : Z)
    (data : bytes) : M D RecoveryReport :=
  do! ilift (ensure (negb (is_empty data || (BLOCK_SIZE <=? offset) || (BLOCK_SIZE - offset <? zlen data)))
               (invalid_input "partial file-data write must be non-empty and stay within one block")) in
  let! b := resolve_owned_file_block superblock inode_id file_block_index in
  let! image := read_block b in
  let! image := ilift (copy_range image offset (offset + zlen data) data) in
  journal_block_image superblock b image.

(** *** [write_file_blocks_journaled] *)

Definition overwrite_step (inode : PersistedInode) (allocator : BlockAllocator)
    (acc : gset Z * list (Z * block)) (w : Z * block) : M D (gset Z * list (Z * block)) :=
  let '(seen, changed) := acc in
  let '(logical_index, image) := w in
  do! ilift (ensure (bool_decide (logical_index ∉ seen))
               (invalid_input "file-data overwrite batch contains a duplicate logical block index")) in
  let! b := ilift (logical_block inode logical_index) in
  do! ilift (check_owned allocator b) in
  let! current := read_block b in
  iret ({[logical_index]} ∪ seen, if bool_decide (current = image) then changed else changed ++ [(b, image)]).

(** Up to the end of the loop: the blocks that change. *)
Definition changed_blocks (superblock : Superblock) (inode_id : Z) (writes : list (Z * block))
    : M D (list (Z * block)) :=
  do! ilift (ensure (negb (is_empty writes)) (invalid_input "file-data overwrite batch must not be empty")) in
  let! inodes := load_inode_table superblock in
  let! inode := ilift (find_file inodes inode_id) in
  let! allocator := load_allocator superblock in
  let! (_, changed) := ifold (overwrite_step inode allocator) (∅, []) writes in
  iret changed.

Definition write_file_blocks_journaled (superblock : Superblock) (inode_id : Z) (writes : list (Z * block))
    : M D RecoveryReport :=
  let! changed := changed_blocks superblock inode_id writes in
  if is_empty changed then iret report_default else
  commit_data superblock changed "multi-block file-data transaction recovery report is inconsistent".

(** *** [write_file_range_journaled] *)

Definition write_range_step (superblock : Superblock) (inode_id first_block_index start_offset : Z) (data : bytes)
    (acc : Z * list (Z * block)) (relative_index : Z) : M D (Z * list (Z * block)) :=
  let '(consumed, writes) := acc in
  let! logical_index := ilift (ok_or (checked_add first_block_index relative_index)
                                 (invalid_input "file-data logical index overflow")) in
  let! image := read_file_block superblock inode_id logical_index in
  let begin := if relative_index =? 0 then start_offset else 0 in
  let! available := ilift (sub_u64 BLOCK_SIZE begin) in
  let! rest := ilift (sub_u64 (zlen data) consumed) in
  let take := Z.min available rest in
  let! piece := ilift (slice data consumed (consumed + take)) in
  let! image := ilift (copy_range image begin (begin + take) piece) in
  iret (consumed + take, writes ++ [(logical_index, image)]).

(** Up to the end of the loop: the block images to write. *)
Definition range_writes (superblock : Superblock) (inode_id first_block_index start_offset : Z)
    (data : bytes) : M D (list (Z * block)) :=
  do! ilift (ensure (negb (is_empty data || (BLOCK_SIZE <=? start_offset)))
               (invalid_input "file-data range must be non-empty and start within a block")) in
  let! last_byte := ilift (ok_or (checked_add start_offset (zlen data))
                             (invalid_input "file-data range length overflow")) in
  let block_count := div_ceil last_byte BLOCK_SIZE in
  do! ilift (with_capacity write_size block_count) in
  let! (_, writes) := ifold (write_range_step superblock inode_id first_block_index start_offset data)
                        (0, []) (zrange 0 block_count) in
  iret writes.

Definition write_file_range_journaled (superblock : Superblock) (inode_id first_block_index start_offset : Z)
    (data : bytes) : M D RecoveryReport :=
  let! writes := range_writes superblock inode_id first_block_index start_offset data in
  write_file_blocks_journaled superblock inode_id writes.

(** *** [read_file_range], [copy_file_range_journaled] and [zero_file_range_journaled] *)

Definition read_range_step (superblock : Superblock) (inode_id first_block_index start_offset : Z)
    (acc : bytes * Z) (relative_index : Z) : M D (bytes * Z) :=
  let '(output, remaining) := acc in
  let! logical_index := ilift (ok_or (checked_add first_block_index relative_index)
                                 (invalid_input "file-data logical index overflow")) in
  let! image := read_file_block superblock inode_id logical_index in
  let begin := if relative_index =? 0 then start_offset else 0 in
  let! available := ilift (sub_u64 BLOCK_SIZE begin) in
  let take := Z.min available remaining in
  let! piece := ilift (slice image begin (begin + take)) in
  let! remaining := ilift (sub_u64 remaining take) in
  iret (output ++ piece, remaining).

Definition read_file_range (superblock : Superblock) (inode_id first_block_index start_offset len : Z) : M D bytes :=
  do! ilift (ensure (negb ((len =? 0) || (BLOCK_SIZE <=? start_offset)))
               (invalid_input "file-data read range must be non-empty and start within a block")) in
  let! last_byte := ilift (ok_or (checked_add start_offset len)
                             (invalid_input "file-data read range length overflow")) in
  let block_count := div_ceil last_byte BLOCK_SIZE in
  do! ilift (with_capacity 1 len) in
  let! (output, remaining) := ifold (read_range_step superblock inode_id first_block_index start_offset)
                                ([], len) (zrange 0 block_count) in
  (* [debug_assert_eq!(remaining, 0)] *)
  do! ilift (if remaining =? 0 then Ok tt else Panic) in
  iret output.
End Ops.

Record FileRangeEndpoint : Type := mkEndpoint { ep_inode : Z; ep_first_block : Z; ep_offset : Z }.

Section Ops2.
Context `{BlockDevice D}.

Definition copy_file_range_journaled (superblock : Superblock) (source destination : FileRangeEndpoint) (len : Z)
    : M D RecoveryReport :=
  let! snapshot := read_file_range superblock (ep_inode source) (ep_first_block source) (ep_offset source) len in
  write_file_range_journaled superblock (ep_inode destination) (ep_first_block destination) (ep_offset destination)
    snapshot.

Definition zero_file_range_journaled (superblock : Superblock) (inode_id first_block offset len : Z)
    : M D RecoveryReport :=
  do! ilift (ensure (negb (len =? 0)) (invalid_input "zero-range requires at least one byte")) in
  do! ilift (with_capacity 1 len) in
  write_file_range_journaled superblock inode_id first_block offset (zeros len).
End Ops2.

(** ** As functions of the file system *)

Section Pure.
Context (sb : Superblock) (fs : file_system).
Let a := (fs_meta fs).1.1.
Let inodes := (fs_meta fs).1.2.
Let data_at := data_block sb (fs_data fs).

Definition resolve_of (x i : Z) : outcome io_error Z :=
  let? inode := find_file inodes x in
  let? b := logical_block inode i in
  try? check_owned a b in
  Ok b.

Definition read_of (x i : Z) : outcome io_error block :=
  let? b := resolve_of x i in data_at b.

(** Overwriting one block: nothing is written if nothing changes. *)
Definition image_of (b : Z) (data : block) : outcome io_error (list (Z * block)) :=
  let? current := data_at b in
  Ok (if bool_decide (current = data) then [] else [(b, data)]).

Definition write_block_of (x i : Z) (data : block) : outcome io_error (unit * fs_change) :=
  let? b := resolve_of x i in
  let? ws := image_of b data in
  Ok (tt, mkChange (fs_meta fs) ws).

Definition write_block_range_of (x i offset : Z) (data : bytes) : outcome io_error (unit * fs_change) :=
  try? ensure (negb (is_empty data || (BLOCK_SIZE <=? offset) || (BLOCK_SIZE - offset <? zlen data)))
         (invalid_input "partial file-data write must be non-empty and stay within one block") in
  let? b := resolve_of x i in
  let? image := data_at b in
  let? image := copy_range image offset (offset + zlen data) data in
  let? ws := image_of b image in
  Ok (tt, mkChange (fs_meta fs) ws).

Definition overwrite_step_of (inode : PersistedInode) (acc : gset Z * list (Z * block)) (w : Z * block)
    : outcome io_error (gset Z * list (Z * block)) :=
  let '(seen, changed) := acc in
  let '(logical_index, image) := w in
  try? ensure (bool_decide (logical_index ∉ seen))
         (invalid_input "file-data overwrite batch contains a duplicate logical block index") in
  let? b := logical_block inode logical_index in
  try? check_owned a b in
  let? current := data_at b in
  Ok ({[logical_index]} ∪ seen, if bool_decide (current = image) then changed else changed ++ [(b, image)]).

Definition changed_of (x : Z) (writes : list (Z * block)) : outcome io_error (list (Z * block)) :=
  try? ensure (negb (is_empty writes)) (invalid_input "file-data overwrite batch must not be empty") in
  let? inode := find_file inodes x in
  let? (_, changed) := ofold (overwrite_step_of inode) (∅, []) writes in
  Ok changed.

Definition write_blocks_of (x : Z) (writes : list (Z * block)) : outcome io_error (unit * fs_change) :=
  let? changed := changed_of x writes in
  Ok (tt, mkChange (fs_meta fs) changed).

Definition write_range_step_of (x first start : Z) (data : bytes) (acc : Z * list (Z * block)) (relative_index : Z)
    : outcome io_error (Z * list (Z * block)) :=
  let '(consumed, writes) := acc in
  let? logical_index := ok_or (checked_add first relative_index) (invalid_input "file-data logical index overflow") in
  let? image := read_of x logical_index in
  let begin := if relative_index =? 0 then start else 0 in
  let? available := sub_u64 BLOCK_SIZE begin in
  let? rest := sub_u64 (zlen data) consumed in
  let take := Z.min available rest in
  let? piece := slice data consumed (consumed + take) in
  let? image := copy_range image begin (begin + take) piece in
  Ok (consumed + take, writes ++ [(logical_index, image)]).

Definition range_writes_of (x first start : Z) (data : bytes) : outcome io_error (list (Z * block)) :=
  try? ensure (negb (is_empty data || (BLOCK_SIZE <=? start)))
         (invalid_input "file-data range must be non-empty and start within a block") in
  let? last_byte := ok_or (checked_add start (zlen data)) (invalid_input "file-data range length overflow") in
  let block_count := div_ceil last_byte BLOCK_SIZE in
  try? with_capacity write_size block_count in
  let? (_, writes) := ofold (write_range_step_of x first start data) (0, []) (zrange 0 block_count) in
  Ok writes.

Definition write_range_of (x first start : Z) (data : bytes) : outcome io_error (unit * fs_change) :=
  let? writes := range_writes_of x first start data in
  write_blocks_of x writes.

Definition read_range_step_of (x first start : Z) (acc : bytes * Z) (relative_index : Z)
    : outcome io_error (bytes * Z) :=
  let '(output, remaining) := acc in
  let? logical_index := ok_or (checked_add first relative_index) (invalid_input "file-data logical index overflow") in
  let? image := read_of x logical_index in
  let begin := if relative_index =? 0 then start else 0 in
  let? available := sub_u64 BLOCK_SIZE begin in
  let take := Z.min available remaining in
  let? piece := slice image begin (begin + take) in
  let? remaining := sub_u64 remaining take in
  Ok (output ++ piece, remaining).

Definition read_range_of (x first start len : Z) : outcome io_error bytes :=
  try? ensure (negb ((len =? 0) || (BLOCK_SIZE <=? start)))
         (invalid_input "file-data read range must be non-empty and start within a block") in
  let? last_byte := ok_or (checked_add start len) (invalid_input "file-data read range length overflow") in
  let block_count := div_ceil last_byte BLOCK_SIZE in
  try? with_capacity 1 len in
  let? (output, remaining) := ofold (read_range_step_of x first start) ([], len) (zrange 0 block_count) in
  try? (if remaining =? 0 then Ok tt else Panic) in
  Ok output.

Definition copy_range_of (source destination : FileRangeEndpoint) (len : Z) : outcome io_error (unit * fs_change) :=
  let? snapshot := read_range_of (ep_inode source) (ep_first_block source) (ep_offset source) len in
  write_range_of (ep_inode destination) (ep_first_block destination) (ep_offset destination) snapshot.

Definition zero_range_of (x first offset len : Z) : outcome io_error (unit * fs_change) :=
  try? ensure (negb (len =? 0)) (invalid_input "zero-range requires at least one byte") in
  try? with_capacity 1 len in
  write_range_of x first offset (zeros len).
End Pure.

(** ** The programs read what the functions say *)

Section Reads.
Context {sb : Superblock} {v : list block}.
Context {a : BlockAllocator} {inodes : list PersistedInode} {entries : list PersistedDirectoryEntry}.
Context (Hd : disk_holds sb v (a, inodes, entries)).
Context `{DeviceLaws D} (h : bool).
Let fs := mkFs (a, inodes, entries) (data_area sb v).

Ltac read_steps := repeat first
  [ apply reads_ret | apply reads_lift | eapply reads_block; eassumption
  | apply (reads_with_inodes Hd) | apply (reads_with_allocator Hd)
  | apply reads_bind; [|intros ? _]
  | match goal with |- reads _ (match ?p with pair _ _ => _ end) _ => destruct p end ].

Lemma reads_resolve x i : reads (v:=v) h (resolve_owned_file_block (D:=D) sb x i) (resolve_of fs x i).
Proof. unfold resolve_owned_file_block, resolve_of. simpl. read_steps. Qed.

Lemma reads_file_block x i : reads (v:=v) h (read_file_block (D:=D) sb x i) (read_of sb fs x i).
Proof. apply reads_bind; [apply reads_resolve|]. intros b _. by apply (reads_block Hd). Qed.

Lemma reads_range x first start len :
  reads (v:=v) h (read_file_range (D:=D) sb x first start len) (read_range_of sb fs x first start len).
Proof.
  unfold read_file_range, read_range_of. read_steps.
  apply reads_fold. intros [output remaining] k _. unfold read_range_step, read_range_step_of. read_steps.
Qed.

Lemma reads_range_writes x first start data :
  reads (v:=v) h (range_writes (D:=D) sb x first start data) (range_writes_of sb fs x first start data).
Proof.
  unfold range_writes, range_writes_of. read_steps.
  apply reads_fold. intros [consumed writes] k _. unfold write_range_step, write_range_step_of. read_steps.
Qed.

Lemma reads_changed x writes :
  reads (v:=v) h (changed_blocks (D:=D) sb x writes) (changed_of sb fs x writes).
Proof.
  unfold changed_blocks, changed_of. simpl. read_steps.
  apply reads_fold. intros [seen changed] [i image] _. unfold overwrite_step, overwrite_step_of. read_steps.
Qed.
End Reads.

(** ** Files and their contents *)

Definition inode_contents (sb : Superblock) (data : list block) (inode : PersistedInode) : list block :=
  default [] (mapM (data_lookup sb data) (blocks inode)).

(** The contents of file [x], as a list of blocks. *)
Definition file_of (sb : Superblock) (fs : file_system) (x : Z) : outcome io_error (list block) :=
  let? inode := find_file (fs_meta fs).1.2 x in Ok (inode_contents sb (fs_data fs) inode).

Record fs_wf (sb : Superblock) (fs : file_system) : Prop := {
  wf_allocator : allocator_of sb (fs_meta fs).1.1;
  wf_inodes : Forall inode_typed (fs_meta fs).1.2;
  wf_entries : Forall entry_typed (fs_meta fs).2;
  wf_ids : NoDup (id <$> (fs_meta fs).1.2);
  wf_sound : metadata_sound (fs_meta fs);
  wf_size : zlen (fs_data fs) = total_blocks sb - reserved sb;
  wf_data : Forall block_ok (fs_data fs);
}.

Lemma holds_wf sb v m : disk_holds sb v m -> metadata_sound m -> fs_wf sb (mkFs m (data_area sb v)).
Proof.
  intros Hd Hm. destruct m as [[a inodes] entries]. destruct (holds_typed Hd) as (Ha & Hi & He).
  pose proof (geometry_bounds sb (holds_geometry _ _ _ Hd)). destruct (holds_image _ _ _ Hd) as (Hl & Hb & _).
  split; simpl; try done.
  - apply (on_disk_ids Hd).
  - unfold data_area, zlen in *. rewrite length_drop. unfold reserved in *. lia.
  - by apply Forall_drop.
Qed.

Section Wf.
Context {sb : Superblock} {fs : file_system} (Hgeo : geometry sb) (Hwf : fs_wf sb fs).
Let inodes := (fs_meta fs).1.2.

(** The blocks of an inode are in the data area, and owned. *)
Lemma inode_block_data inode b : inode ∈ inodes -> b ∈ blocks inode ->
  reserved sb <= b < total_blocks sb /\ check_owned (fs_meta fs).1.1 b = Ok tt /\
  exists y, data_lookup sb (fs_data fs) b = Some y /\ block_ok y.
Proof.
  intros Hi Hb. destruct Hwf as [[Haok Ht Hr] _ _ _ Hs Hsize Hdata]. destruct (fs_meta fs) as [[a ins] entries] eqn:Hm.
  destruct Hs as [[Hall _] _]. simpl in *. assert (Hown : b ∈ owned a).
  { rewrite Forall_forall in Hall. apply Hall. unfold inode_references. apply list_elem_of_join.
    exists (blocks inode). split; [done|]. by apply list_elem_of_fmap_2. }
  pose proof Hown as Hrange. apply elem_of_owned in Hrange as [Hrange _]. pose proof (geometry_bounds sb Hgeo).
  rewrite Ht, Hr in Hrange. split; [lia|]. split.
  - unfold check_owned. rewrite is_owned_spec by (done || unfold reserved in *; lia). rewrite decide_False by lia.
    simpl. by rewrite bool_decide_eq_true_2 by auto.
  - unfold data_lookup. rewrite (proj2 (Z.leb_le _ _)) by lia.
    destruct (fs_data fs !! Z.to_nat (b - reserved sb)) as [y|] eqn:Hy.
    + exists y. split; [done|]. exact (Forall_lookup_1 _ _ _ _ Hdata Hy).
    + apply lookup_ge_None in Hy. unfold zlen in Hsize. lia.
Qed.

Lemma inode_contents_spec inode : inode ∈ inodes ->
  Forall2 (fun b y => data_lookup sb (fs_data fs) b = Some y) (blocks inode) (inode_contents sb (fs_data fs) inode) /\
  Forall block_ok (inode_contents sb (fs_data fs) inode).
Proof.
  intros Hi. assert (Hall : forall b, b ∈ blocks inode -> exists y, data_lookup sb (fs_data fs) b = Some y /\ block_ok y).
  { intros b Hb. by destruct (inode_block_data inode b Hi Hb) as (_ & _ & ?). }
  unfold inode_contents. induction (blocks inode) as [|b bs IH]; simpl; [by split|].
  destruct (Hall b) as (y & Hy & Hok); [by left|]. rewrite Hy. simpl.
  destruct IH as [IH1 IH2]; [intros c Hc; apply Hall; by right|].
  destruct (mapM _ bs) as [ys|] eqn:Hm; simpl in *.
  - split; by constructor.
  - exfalso. apply mapM_None in Hm. apply Exists_exists in Hm as (c & Hc & Hn).
    destruct (Hall c) as (z & Hz & _); [by right|]. congruence.
Qed.

Lemma find_file_Ok x inode : find_file inodes x = Ok inode -> inode ∈ inodes /\ id inode = x /\ kind inode = File.
Proof.
  unfold find_file. intros H. inv_ok. bool_facts. destruct (find_inode_Some _ _ _ E). done.
Qed.

(** Reading block [i] of a file is reading the list of its blocks. *)
Lemma read_of_file x i : 0 <= i ->
  read_of sb fs x i = (let? bs := file_of sb fs x in
    ok_or (bs !! Z.to_nat i) (invalid_input "file-data logical block index is out of range")).
Proof.
  intros H0. unfold read_of, resolve_of, file_of. fold inodes. destruct (find_file inodes x) as [inode|e|] eqn:Hf; [|done..].
  apply find_file_Ok in Hf as (Hin & _). destruct (inode_contents_spec inode Hin) as [Hc _]. simpl. unfold logical_block.
  destruct (blocks inode !! Z.to_nat i) as [b|] eqn:Hb; simpl.
  - destruct (inode_block_data inode b Hin (list_elem_of_lookup_2 _ _ _ Hb)) as (_ & -> & _). simpl.
    destruct (Forall2_lookup_l _ _ _ _ _ Hc Hb) as (y & -> & Hy). unfold data_block. by rewrite Hy.
  - apply lookup_ge_None in Hb. rewrite (proj2 (lookup_ge_None _ _)); [done|]. by rewrite <- (Forall2_length _ _ _ Hc).
Qed.

Lemma file_of_blocks x bs : file_of sb fs x = Ok bs -> Forall block_ok bs.
Proof.
  unfold file_of. intros (inode & Hf & H)%obind_Ok. simplify_eq. apply find_file_Ok in Hf as (Hin & _).
  by destruct (inode_contents_spec inode Hin).
Qed.

Lemma find_file_no_panic (l : list PersistedInode) x : find_file l x <> Panic.
Proof. unfold find_file. no_panic. Qed.

Lemma file_of_no_panic x : file_of sb fs x <> Panic.
Proof. unfold file_of. pose proof (find_file_no_panic (fs_meta fs).1.2 x). by destruct (find_file _ x). Qed.
End Wf.

(** ** Lengths beyond [isize::MAX] *)

(** C16: An over-long request panics instead of being refused.
    [zero_file_range_journaled] builds a vector of the requested length before
    it looks at anything else, so every length above [isize::MAX] is a capacity
    overflow; [read_file_range], and with it [copy_file_range_journaled], first
    refuses a start outside the block and an end above [u64::MAX], and then
    panics the same way for every other such length.  This holds on every
    device and whatever the file is; a refusal was due in each case, since no
    file is that long. *)
Theorem range_length_overflow `{BlockDevice D} sb x first start len dst (d : D) : isize_max < len ->
  (zero_file_range_journaled sb x first start len d).1 = Panic /\
  if (start <? BLOCK_SIZE) && (start + len <=? u64_max) then
    (read_file_range sb x first start len d).1 = Panic /\
    (copy_file_range_journaled sb (mkEndpoint x first start) dst len d).1 = Panic
  else exists e, err_kind e = InvalidInput /\
    read_file_range sb x first start len d = (Err e, d) /\
    copy_file_range_journaled sb (mkEndpoint x first start) dst len d = (Err e, d).
Proof.
  intros Hbig. unfold copy_file_range_journaled, read_file_range, zero_file_range_journaled, with_capacity, checked_add.
  cbn [ep_inode ep_first_block ep_offset]. unfold isize_max in Hbig. rewrite (proj2 (Z.eqb_neq len 0)) by lia.
  rewrite (proj2 (Z.leb_gt (1 * len) isize_max)) by (unfold isize_max; lia). split; [done|].
  destruct (start <? BLOCK_SIZE) eqn:Hs; bool_facts.
  - rewrite (proj2 (Z.leb_gt BLOCK_SIZE start)) by lia. destruct (start + len <=? u64_max); [by split|].
    eexists (IoError InvalidInput _). by split_and!.
  - rewrite (proj2 (Z.leb_le BLOCK_SIZE start)) by lia. eexists (IoError InvalidInput _). by split_and!.
Qed.
