(* ===== verification/FileRange.v ===== *)
(** * Byte ranges of files

    The contents of a file as one string of bytes.  The block-by-block loops
    of [read_file_range] and [write_file_range_journaled] read a substring and
    overwrite a substring of it. *)

From S2P Require Import Prelude Bytes Block CrashDevice Allocation Superblock Region AllocationDisk.
From S2P Require Import Journal JournalCodec JournalRegion Recovery TransactionImage.
From S2P Require Import TransactionPlan InodeCodec RecordTable InodeTable DirectoryCodec Inode.
From S2P Require Import DirectoryTable Atomicity CreateTx Format Namespace NamespaceEdit Fsck.
From S2P Require Import Transition LinkTx TruncateTx RenameTx FileState FileData.

(** The bytes of a file. *)
Definition file_bytes (sb : Superblock) (fs : file_system) (x : Z) : outcome io_error bytes :=
  let? bs := file_of sb fs x in Ok (mjoin bs).

(** ** One block of a string *)

Lemma sub_block (bs : list block) i blk o n : Forall block_ok bs -> 0 <= i -> bs !! Z.to_nat i = Some blk ->
  0 <= o -> 0 <= n -> o + n <= BLOCK_SIZE -> sub blk o n = sub (mjoin bs) (i * BLOCK_SIZE + o) n.
Proof.
  intros Hbs Hi Hb Ho Hn Hle. pose proof (lookup_lt_Some _ _ _ Hb).
  rewrite (sub_mjoin bs i Hbs) in Hb by (unfold zlen; lia). simplify_eq. rewrite sub_sub by ulia. done.
Qed.

Lemma div_ceil_bounds n : 0 < n ->
  let k := div_ceil n BLOCK_SIZE in 1 <= k /\ (k - 1) * BLOCK_SIZE < n <= k * BLOCK_SIZE.
Proof.
  intros Hn. simpl. unfold div_ceil. pose proof (Z.div_mod (n + BLOCK_SIZE - 1) BLOCK_SIZE ltac:(ulia)) as Hdm.
  pose proof (Z.mod_pos_bound (n + BLOCK_SIZE - 1) BLOCK_SIZE ltac:(ulia)). unfold BLOCK_SIZE in *. nia.
Qed.

Section Range.
Context {sb : Superblock} {fs : file_system} (Hgeo : geometry sb) (Hwf : fs_wf sb fs).
Context {x : Z} {bs : list block} (Hfile : file_of sb fs x = Ok bs).
Context (first start : Z) (Hfirst : 0 <= first) (Hstart : 0 <= start < BLOCK_SIZE).
Let flat := mjoin bs.
Let pos := first * BLOCK_SIZE + start.

Lemma file_length : zlen bs <= total_blocks sb.
Proof.
  pose proof Hfile as Hf. unfold file_of in Hf. apply obind_Ok in Hf as (inode & Hf & H). simplify_eq.
  apply find_file_Ok in Hf as (Hin & _). destruct (inode_contents_spec Hgeo Hwf inode Hin) as [Hc _].
  unfold zlen. rewrite <- (Forall2_length _ _ _ Hc). fold (zlen (blocks inode)).
  pose proof (wf_sound _ _ Hwf) as Hs. pose proof (wf_ids _ _ Hwf) as Hids. pose proof (wf_allocator _ _ Hwf) as Ha.
  destruct (fs_meta fs) as [[a inodes] entries]. destruct Hs as [Hs _]. simpl in *.
  apply (claims_bound sb Hgeo a Ha). unfold claims_ok. destruct Hs as [Hall Hnd].
  pose proof (filter_inode_references inodes inode Hids Hin) as Hp. rewrite Hp in Hall, Hnd.
  apply Forall_app in Hall as [_ ?]. by apply NoDup_app in Hnd as (_ & _ & ?).
Qed.

Lemma bs_ok : Forall block_ok bs.
Proof. by eapply file_of_blocks. Qed.

Lemma zlen_flat : zlen flat = zlen bs * BLOCK_SIZE.
Proof. apply zlen_mjoin_blocks, bs_ok. Qed.

(** How many of [len] bytes the first [k] blocks hold. *)
Definition consumed (len k : Z) : Z := if k =? 0 then 0 else Z.min len (k * BLOCK_SIZE - start).

Lemma consumed_step len k : 0 <= k -> 0 < len -> (k - 1) * BLOCK_SIZE < start + len ->
  let begin := if k =? 0 then start else 0 in
  consumed len (k + 1) = consumed len k + Z.min (BLOCK_SIZE - begin) (len - consumed len k) /\
  0 <= consumed len k <= len /\ (k * BLOCK_SIZE < start + len -> consumed len k = k * BLOCK_SIZE + begin - start).
Proof.
  intros Hk Hlen Hle. unfold consumed. simpl. rewrite (proj2 (Z.eqb_neq (k + 1) 0)) by lia.
  destruct (k =? 0) eqn:E; bool_facts; [subst k; split_and!; ulia|]. split_and!; unfold BLOCK_SIZE in *; nia.
Qed.

(** The next block: it exists, or the range does not fit the file. *)
Lemma next_block k : 0 <= k ->
  owp (let? i := ok_or (checked_add first k) (invalid_input "file-data logical index overflow") in
       let? image := read_of sb fs x i in Ok (i, image))
    (fun r => r.1 = first + k /\ bs !! Z.to_nat (first + k) = Some r.2 /\ (first + k + 1) * BLOCK_SIZE <= zlen flat)
    (fun _ => zlen flat <= (first + k) * BLOCK_SIZE).
Proof.
  intros Hk. pose proof file_length. pose proof (geometry_bounds sb Hgeo). destruct Hgeo as [Hw _]. pose proof (wf_total _ Hw).
  rewrite zlen_flat. unfold checked_add. destruct (_ <=? u64_max) eqn:E; bool_facts; simpl.
  - rewrite (read_of_file Hgeo Hwf) by lia. rewrite Hfile. simpl.
    destruct (bs !! Z.to_nat (first + k)) as [blk|] eqn:Hb; simpl.
    + split; [done|]. split; [done|]. apply lookup_lt_Some in Hb. unfold zlen. ulia.
    + apply lookup_ge_None in Hb. unfold zlen. ulia.
  - unfold is_u64 in *. ulia.
Qed.

Lemma read_range_loop len : 0 < len ->
  owp (ofold (read_range_step_of sb fs x first start) ([], len) (zrange 0 (div_ceil (start + len) BLOCK_SIZE)))
    (fun r => r = (sub flat pos len, 0) /\ pos + len <= zlen flat) (fun _ => zlen flat < pos + len).
Proof.
  intros Hlen. destruct (div_ceil_bounds (start + len)) as (Hbc & Hlo & Hhi); [lia|].
  set (bc := div_ceil _ _) in *.
  eapply owp_mono; [apply (owp_fold_range _ (fun r k => r = (sub flat pos (consumed len k), len - consumed len k) /\
    (k = 0 \/ (first + k) * BLOCK_SIZE <= zlen flat)) (fun _ => zlen flat < pos + len))|..]; simpl; [lia| | | |done].
  - unfold consumed. simpl. rewrite sub_nil, Z.sub_0_r. auto.
  - intros k acc Hk [-> Hfit]. unfold read_range_step_of.
    assert (Hstep : (k - 1) * BLOCK_SIZE < start + len) by (unfold BLOCK_SIZE in *; nia).
    destruct (consumed_step len k ltac:(lia) Hlen Hstep) as (Hnext & Hc & Hat).
    specialize (Hat ltac:(unfold BLOCK_SIZE in *; nia)). set (begin := if k =? 0 then start else 0) in *.
    assert (Hbegin : 0 <= begin < BLOCK_SIZE) by (unfold begin; destruct (k =? 0); ulia).
    pose proof (next_block k ltac:(lia)) as Hb. unfold obind, owp in Hb. unfold obind.
    destruct (ok_or _ _) as [i|e|]; [|unfold pos; simpl; unfold BLOCK_SIZE in *; nia|done].
    destruct (read_of sb fs x i) as [image|e|]; [|unfold pos; simpl; unfold BLOCK_SIZE in *; nia|done].
    simpl in Hb. destruct Hb as (-> & Hb & Hin). unfold sub_u64. rewrite (proj2 (Z.leb_le begin _)) by lia.
    set (take := Z.min _ _) in *. assert (0 <= take) by lia.
    pose proof (proj1 (Forall_lookup_1 _ _ _ _ bs_ok Hb)) as Himg.
    rewrite (slice_n image begin _ take) by lia. rewrite (proj2 (Z.leb_le take _)) by lia. simpl. split.
    + rewrite Hnext, sub_split by (unfold pos; ulia). f_equal; [|lia]. f_equal.
      rewrite (sub_block bs (first + k) image begin take bs_ok) by (done || lia). fold flat. f_equal. unfold pos. lia.
    + right. lia.
  - intros r [-> Hfit]. assert (Hall : consumed len bc = len).
    { unfold consumed. rewrite (proj2 (Z.eqb_neq bc 0)) by lia. lia. }
    rewrite Hall, Z.sub_diag. split; [done|]. unfold pos, BLOCK_SIZE in *. nia.
Qed.
End Range.

(** ** Reading a range *)

(** The [len] bytes at [pos] of file [x] exist. *)
Definition range_in_file (sb : Superblock) (fs : file_system) (x pos len : Z) (flat : bytes) : Prop :=
  file_bytes sb fs x = Ok flat /\ 0 < len /\ pos + len <= zlen flat.

Section Files.
Context {sb : Superblock} {fs : file_system} (Hgeo : geometry sb) (Hwf : fs_wf sb fs) (x : Z).

(** Files are smaller than the device. *)
Lemma file_bytes_bound flat : file_bytes sb fs x = Ok flat -> zlen flat <= u64_max.
Proof.
  unfold file_bytes. intros (bs & Hf & H)%obind_Ok. simplify_eq.
  rewrite zlen_mjoin_blocks by by eapply file_of_blocks. pose proof (file_length Hgeo Hwf Hf).
  pose proof (geo_bytes _ Hgeo). ulia.
Qed.

Lemma file_bytes_of bs : file_of sb fs x = Ok bs -> file_bytes sb fs x = Ok (mjoin bs).
Proof. unfold file_bytes. by intros ->. Qed.

(** A loop over the blocks of something that is not a file. *)
Lemma no_file_loop {B} (f : B -> Z -> outcome io_error B) acc n e :
  0 < n -> (f acc 0 = Err e) -> ofold f acc (zrange 0 n) = Err e.
Proof. intros Hn Hf. rewrite zrange_cons by lia. simpl. by rewrite Hf. Qed.

Lemma read_of_no_file i e : 0 <= i -> file_of sb fs x = Err e -> read_of sb fs x i = Err e.
Proof. intros Hi Hf. by rewrite (read_of_file Hgeo Hwf), Hf. Qed.

End Files.

Lemma first_index_Ok first e : first <= u64_max -> ok_or (checked_add first 0) e = Ok (E:=io_error) first.
Proof. intros Hle. unfold checked_add. rewrite Z.add_0_r. by rewrite (proj2 (Z.leb_le _ _)). Qed.

Section Spec.
Context {sb : Superblock} {fs : file_system} (Hgeo : geometry sb) (Hwf : fs_wf sb fs).
Context (x first start : Z) (Hfirst : 0 <= first) (Hstart : 0 <= start).
Let pos := first * BLOCK_SIZE + start.

Lemma read_range_of_spec len : first <= u64_max -> 0 <= len <= isize_max ->
  owp (read_range_of sb fs x first start len)
    (fun out => start < BLOCK_SIZE /\ exists flat, range_in_file sb fs x pos len flat /\ out = sub flat pos len)
    (fun _ => ~ (start < BLOCK_SIZE /\ exists flat, range_in_file sb fs x pos len flat)).
Proof.
  intros H64 Hlen. unfold read_range_of.
  destruct (_ || _) eqn:Hbad; simpl.
  { intros [Hs (flat & _ & Hl & _)]. apply orb_true_iff in Hbad as [?|?]; bool_facts; lia. }
  bool_facts. apply owp_bind. unfold checked_add at 1. destruct (_ <=? u64_max) eqn:Hov; bool_facts; simpl.
  2: { intros [_ (flat & Hf & _ & Hin)]. pose proof (file_bytes_bound Hgeo Hwf x flat Hf). unfold pos in Hin. ulia. }
  unfold with_capacity. rewrite (proj2 (Z.leb_le _ _)) by lia. simpl. apply owp_bind.
  pose proof (file_of_no_panic (sb:=sb) (fs:=fs) x) as Hnp.
  destruct (file_of sb fs x) as [bs|e|] eqn:Hf; [| |done].
  - eapply owp_mono; [apply (read_range_loop Hgeo Hwf Hf first start Hfirst ltac:(lia) len); lia|..]; simpl.
    + intros [out rem] [[= -> ->] Hin]. simpl. split; [lia|]. exists (mjoin bs).
      split; [split; [by apply file_bytes_of|unfold pos; lia]|done].
    + intros _ Hlt [_ (flat & Hfl & _ & Hin)]. rewrite (file_bytes_of x bs Hf) in Hfl. simplify_eq. unfold pos in Hin. lia.
  - destruct (div_ceil_bounds (start + len)) as (Hbc & _); [lia|].
    rewrite (no_file_loop _ _ _ e) by (try lia; unfold read_range_step_of; rewrite first_index_Ok by done; simpl;
      by rewrite (read_of_no_file Hgeo Hwf x first e)). simpl.
    intros [_ (flat & Hfl & _)]. unfold file_bytes in Hfl. by rewrite Hf in Hfl.
Qed.
End Spec.

(** ** Overwriting blocks *)

Lemma write_data_snoc sb ws b y data :
  write_data sb (ws ++ [(b, y)]) data = <[Z.to_nat (b - reserved sb) := y]> (write_data sb ws data).
Proof. unfold write_data. by rewrite foldl_app. Qed.

Lemma length_write_data sb ws data : length (write_data sb ws data) = length data.
Proof.
  induction ws as [|[b y] ws IH] using rev_ind; [done|]. by rewrite write_data_snoc, length_insert.
Qed.

Lemma data_lookup_write sb ws b y c data : reserved sb <= b < reserved sb + zlen data ->
  data_lookup sb (write_data sb (ws ++ [(b, y)]) data) c =
    if decide (c = b) then Some y else data_lookup sb (write_data sb ws data) c.
Proof.
  intros Hb. rewrite write_data_snoc. unfold data_lookup. case_decide as Hc.
  - subst c. rewrite (proj2 (Z.leb_le _ _)) by lia. apply list_lookup_insert_eq.
    rewrite length_write_data. unfold zlen in Hb. lia.
  - destruct (_ <=? c) eqn:E; [|done]. bool_facts. by rewrite list_lookup_insert_ne by lia.
Qed.

Definition put_blocks (bs : list block) (writes : list (Z * block)) : list block :=
  foldl (fun bs w => <[Z.to_nat w.1 := w.2]> bs) bs writes.

Lemma put_blocks_snoc bs ws i y : put_blocks bs (ws ++ [(i, y)]) = <[Z.to_nat i := y]> (put_blocks bs ws).
Proof. unfold put_blocks. by rewrite foldl_app. Qed.

Lemma length_put_blocks bs ws : length (put_blocks bs ws) = length bs.
Proof. induction ws as [|[i y] ws IH] using rev_ind; [done|]. by rewrite put_blocks_snoc, length_insert. Qed.

Lemma put_blocks_other bs ws i : 0 <= i -> Forall (fun w => 0 <= w.1) ws -> i ∉ ws.*1 ->
  put_blocks bs ws !! Z.to_nat i = bs !! Z.to_nat i.
Proof.
  intros Hi. induction ws as [|[j y] ws IH] using rev_ind; [done|]. intros [Hws [Hj _]%Forall_cons]%Forall_app Hn.
  rewrite fmap_app, elem_of_app in Hn. simpl in *. rewrite list_elem_of_singleton in Hn. rewrite put_blocks_snoc, list_lookup_insert_ne; [|lia].
  apply IH; [done|tauto].
Qed.

Section Overwrite.
Context {sb : Superblock} {fs : file_system} (Hgeo : geometry sb) (Hwf : fs_wf sb fs).
Context (inode : PersistedInode) (Hin : inode ∈ (fs_meta fs).1.2).
Let data := fs_data fs.
Let bs := inode_contents sb data inode.

Lemma references_split :
  NoDup (blocks inode) /\ forall other, other ∈ (fs_meta fs).1.2 -> id other <> id inode ->
    forall b, b ∈ blocks other -> b ∉ blocks inode.
Proof.
  pose proof (wf_sound _ _ Hwf) as Hs. pose proof (wf_ids _ _ Hwf) as Hids.
  destruct (fs_meta fs) as [[a inodes] entries]. destruct Hs as [[_ Hnd] _]. simpl in *.
  rewrite (filter_inode_references inodes inode Hids Hin) in Hnd. apply NoDup_app in Hnd as (_ & Hdis & Hnd).
  split; [done|]. intros other Ho Hne b Hb. apply Hdis. unfold inode_references. apply list_elem_of_join.
  exists (blocks other). split; [done|]. apply list_elem_of_fmap_2, list_elem_of_filter. done.
Qed.

(** The contents of an inode after data blocks were written. *)
Lemma contents_after data' l : length l = length (blocks inode) ->
  (forall i b, blocks inode !! i = Some b -> data_lookup sb data' b = l !! i) ->
  inode_contents sb data' inode = l.
Proof.
  intros Hl Hlk. unfold inode_contents. rewrite (proj2 (mapM_Some _ _ l)); [done|].
  apply Forall2_same_length_lookup. split; [done|]. intros i b y Hb Hy. by rewrite (Hlk i b Hb).
Qed.

Lemma length_bs : length bs = length (blocks inode).
Proof. destruct (inode_contents_spec Hgeo Hwf inode Hin) as [Hc _]. symmetry. apply (Forall2_length _ _ _ Hc). Qed.

(** The loop state after the writes [P]. *)
Record overwritten (P : list (Z * block)) (changed : list (Z * block)) : Prop := {
  ow_writes : Forall (data_write sb) changed;
  ow_mine : Forall (fun w => w.1 ∈ blocks inode) changed;
  ow_lookup i b : blocks inode !! i = Some b -> data_lookup sb (write_data sb changed data) b = put_blocks bs P !! i;
}.

Lemma overwritten_nil : overwritten [] [].
Proof.
  split; [constructor..|]. intros i b Hb. destruct (inode_contents_spec Hgeo Hwf inode Hin) as [Hc _].
  destruct (Forall2_lookup_l _ _ _ _ _ Hc Hb) as (y & Hy & Hb'). etrans; [exact Hb'|symmetry; exact Hy].
Qed.

(** A block that already has the contents needs no write. *)
Lemma overwritten_same P changed i y : 0 <= i -> Forall (fun w => 0 <= w.1) P -> i ∉ P.*1 ->
  bs !! Z.to_nat i = Some y -> overwritten P changed -> overwritten (P ++ [(i, y)]) changed.
Proof.
  intros H0 HP Hi Hy [Hw Hm Hlk]. split; [done..|]. intros j b Hb. rewrite put_blocks_snoc, list_insert_id; [by apply Hlk|].
  by rewrite put_blocks_other.
Qed.

Lemma overwritten_write P changed i b y : 0 <= i -> blocks inode !! Z.to_nat i = Some b -> block_ok y ->
  overwritten P changed -> overwritten (P ++ [(i, y)]) (changed ++ [(b, y)]).
Proof.
  intros H0 Hb Hy [Hw Hm Hlk]. pose proof (list_elem_of_lookup_2 _ _ _ Hb) as Hbin.
  destruct (inode_block_data Hgeo Hwf inode b Hin Hbin) as (Hrange & _). destruct references_split as [Hnd _].
  split; [apply Forall_app; split; [done|by apply Forall_singleton]..|].
  intros j c Hc. rewrite data_lookup_write by (pose proof (wf_size _ _ Hwf); unfold data; lia). rewrite put_blocks_snoc. case_decide as Hcb.
  - subst c. rewrite (NoDup_lookup _ _ _ _ Hnd Hc Hb), list_lookup_insert_eq; [done|].
    rewrite length_put_blocks, length_bs. by eapply lookup_lt_Some.
  - rewrite list_lookup_insert_ne; [by apply Hlk|]. intros <-. congruence.
Qed.

(** What the batch has to satisfy. *)
Definition batch_ok (writes : list (Z * block)) : Prop :=
  NoDup writes.*1 /\ Forall (fun w => w.1 < zlen bs) writes.

Lemma overwrite_loop ws : forall P changed,
  Forall (fun w => 0 <= w.1 /\ block_ok w.2) ws -> Forall (fun w => 0 <= w.1) P ->
  batch_ok P -> overwritten P changed ->
  owp (ofold (overwrite_step_of sb fs inode) (list_to_set P.*1, changed) ws)
    (fun r => batch_ok (P ++ ws) /\ overwritten (P ++ ws) r.2) (fun _ => ~ batch_ok (P ++ ws)).
Proof.
  induction ws as [|[i y] ws IH]; intros P changed Hws HP Hok Hov.
  { rewrite app_nil_r. done. }
  apply Forall_cons in Hws as [[Hi Hy] Hws]. simpl in Hi, Hy. simpl. apply owp_bind.
  assert (Hsnoc : P ++ (i, y) :: ws = (P ++ [(i, y)]) ++ ws) by (by rewrite <- app_assoc).
  assert (Hbad : (i ∈ P.*1 \/ zlen bs <= i) -> ~ batch_ok (P ++ (i, y) :: ws)).
  { intros Hb [Hnd Hall]. rewrite fmap_app in Hnd. apply NoDup_app in Hnd as (_ & Hdis & _).
    apply Forall_app in Hall as [_ [Hlt _]%Forall_cons]. simpl in *. destruct Hb as [Hb|Hb]; [|lia].
    apply (Hdis i Hb). by left. }
  case_bool_decide as Hnew; simpl; [|apply Hbad; left; set_solver]. unfold logical_block.
  assert (Hlen : zlen bs = Z.of_nat (length (blocks inode))) by (unfold zlen; by rewrite length_bs).
  destruct (blocks inode !! Z.to_nat i) as [b|] eqn:Hb; simpl.
  2: { apply Hbad. right. apply lookup_ge_None in Hb. lia. }
  destruct (inode_block_data Hgeo Hwf inode b Hin (list_elem_of_lookup_2 _ _ _ Hb)) as (_ & -> & y0 & Hy0 & _).
  simpl. unfold data_block. rewrite Hy0. simpl.
  assert (Hset : ({[i]} ∪ list_to_set P.*1 : gset Z) = list_to_set (P ++ [(i, y)]).*1).
  { rewrite fmap_app, list_to_set_app_L. simpl. set_solver. }
  assert (Hb0 : bs !! Z.to_nat i = Some y0).
  { etrans; [symmetry; exact (ow_lookup _ _ overwritten_nil _ _ Hb)|exact Hy0]. }
  assert (Hok' : batch_ok (P ++ [(i, y)])).
  { destruct Hok as [Hnd Hall]. split.
    - rewrite fmap_app. apply NoDup_app. split; [done|]. split; [|apply NoDup_singleton].
      intros j Hj ->%list_elem_of_singleton. simpl in Hj. set_solver.
    - apply Forall_app. split; [done|]. apply Forall_singleton. simpl. apply lookup_lt_Some in Hb. lia. }
  rewrite Hset, Hsnoc. apply IH; [done|apply Forall_app; split; [done|by apply Forall_singleton]|done|].
  case_bool_decide as Hsame.
  - subst y0. apply overwritten_same; try done. set_solver.
  - by apply overwritten_write.
Qed.
End Overwrite.

Lemma data_lookup_untouched sb ws c data : Forall (fun w => reserved sb <= w.1 /\ w.1 <> c) ws ->
  data_lookup sb (write_data sb ws data) c = data_lookup sb data c.
Proof.
  induction ws as [|[b y] ws IH] using rev_ind; [done|]. intros [Hws [[Hb Hne] _]%Forall_cons]%Forall_app.
  rewrite <- (IH Hws), write_data_snoc. unfold data_lookup. destruct (_ <=? c) eqn:E; [|done]. bool_facts. simpl in *.
  by rewrite list_lookup_insert_ne by lia.
Qed.

Lemma inode_contents_untouched sb ws data inode :
  Forall (fun w => reserved sb <= w.1 /\ w.1 ∉ blocks inode) ws ->
  inode_contents sb (write_data sb ws data) inode = inode_contents sb data inode.
Proof.
  intros Hws. unfold inode_contents. f_equal. induction (blocks inode) as [|b l IH]; [done|]. simpl.
  rewrite data_lookup_untouched.
  - rewrite IH; [done|]. eapply Forall_impl; [exact Hws|]. intros w [? Hn]. rewrite not_elem_of_cons in Hn. tauto.
  - eapply Forall_impl; [exact Hws|]. intros w [? Hn]. rewrite not_elem_of_cons in Hn. tauto.
Qed.

(** What a write to a file does: file [x] has the new contents, the other
    files theirs, and the metadata is as before. *)
Record file_written (sb : Superblock) (fs : file_system) (x : Z) (new : list block) (c : fs_change) : Prop := {
  fw_meta : ch_meta c = fs_meta fs;
  fw_data : Forall (data_write sb) (ch_data c);
  fw_file : file_of sb (fs_apply sb fs c) x = Ok new;
  fw_others y : y <> x -> file_of sb (fs_apply sb fs c) y = file_of sb fs y;
}.

Section Changed.
Context {sb : Superblock} {fs : file_system} (Hgeo : geometry sb) (Hwf : fs_wf sb fs).

Lemma overwritten_file inode x writes changed :
  find_file (fs_meta fs).1.2 x = Ok inode -> overwritten (sb:=sb) (fs:=fs) inode writes changed ->
  file_written sb fs x (put_blocks (inode_contents sb (fs_data fs) inode) writes) (mkChange (fs_meta fs) changed).
Proof.
  intros Hf [Hw Hm Hlk]. destruct (find_file_Ok (fs:=fs) x inode Hf) as (Hin & Hid & _).
  destruct (references_split Hwf inode Hin) as [_ Hdis]. split; [done|done|..]; unfold file_of; simpl.
  - rewrite Hf. simpl. f_equal. apply contents_after; [by rewrite length_put_blocks, (length_bs Hgeo Hwf)|done].
  - intros y Hy. destruct (find_file (fs_meta fs).1.2 y) as [other|e|] eqn:Ho; [|done..]. simpl. f_equal.
    destruct (find_file_Ok (fs:=fs) y other Ho) as (Hoin & Hoid & _).
    apply inode_contents_untouched. rewrite Forall_forall in Hw, Hm. apply Forall_forall. intros w Hw'.
    destruct (Hw w Hw') as [? _]. split; [lia|]. intros Hb. apply (Hdis other Hoin ltac:(congruence) _ Hb), Hm, Hw'.
Qed.

Lemma changed_of_spec x writes : Forall (fun w => 0 <= w.1 /\ block_ok w.2) writes ->
  owp (changed_of sb fs x writes)
    (fun changed => writes <> [] /\ exists bs, file_of sb fs x = Ok bs /\ NoDup writes.*1 /\
       Forall (fun w => w.1 < zlen bs) writes /\
       file_written sb fs x (put_blocks bs writes) (mkChange (fs_meta fs) changed))
    (fun _ => ~ (writes <> [] /\ exists bs, file_of sb fs x = Ok bs /\ NoDup writes.*1 /\
       Forall (fun w => w.1 < zlen bs) writes)).
Proof.
  intros Hws. unfold changed_of. destruct (decide (writes = [])) as [->|Hne]; [simpl; tauto|].
  replace (is_empty writes) with false by (by destruct writes). cbn [negb ensure obind].
  unfold file_of. pose proof (find_file_no_panic (fs_meta fs).1.2 x) as Hnp.
  destruct (find_file (fs_meta fs).1.2 x) as [inode|e|] eqn:Hf; simpl; [| |done].
  2: { intros [_ (bs & Hbs & _)]. done. }
  destruct (find_file_Ok (fs:=fs) x inode Hf) as (Hin & _). apply owp_bind.
  change (∅ : gset Z) with (list_to_set (@nil (Z * block)).*1 : gset Z).
  eapply owp_mono; [apply (overwrite_loop Hgeo Hwf inode Hin writes [] [])|..]; simpl.
  - done.
  - constructor.
  - split; constructor.
  - by apply overwritten_nil.
  - intros [seen changed] [[Hnd Hall] Hov]. simpl. split; [done|]. eexists. split; [done|].
    split; [done|]. split; [done|]. apply (overwritten_file _ _ _ _ Hf Hov).
  - intros _ Hn [_ (bs & [= <-] & Hnd & Hall)]. apply Hn. by split.
Qed.
End Changed.

(** ** Overwriting a range *)

Lemma put_blocks_ok bs ws : Forall block_ok bs -> Forall (fun w => block_ok w.2) ws -> Forall block_ok (put_blocks bs ws).
Proof.
  intros Hbs. induction ws as [|[i y] ws IH] using rev_ind; [done|]. intros [Hws [Hy _]%Forall_cons]%Forall_app.
  rewrite put_blocks_snoc. by apply Forall_insert; [apply IH|].
Qed.

(** Overwriting inside one block is overwriting inside the string. *)
Lemma mjoin_put (bs : list block) i blk o piece : Forall block_ok bs -> 0 <= i -> bs !! Z.to_nat i = Some blk ->
  0 <= o -> o + zlen piece <= BLOCK_SIZE ->
  mjoin (<[Z.to_nat i := put blk o piece]> bs) = put (mjoin bs) (i * BLOCK_SIZE + o) piece.
Proof.
  intros Hbs Hi Hb Ho Hle. pose proof (lookup_lt_Some _ _ _ Hb) as Hlt. rewrite insert_take_drop by done.
  rewrite <- (take_drop_middle _ _ _ Hb) at 3. rewrite !join_app.
  change (mjoin (?b :: ?l)) with (b ++ mjoin l).
  assert (Hz : zlen (mjoin (take (Z.to_nat i) bs)) = i * BLOCK_SIZE).
  { rewrite zlen_mjoin_blocks by (by apply Forall_take). unfold zlen. rewrite length_take. f_equal. lia. }
  pose proof (Forall_lookup_1 _ _ _ _ Hbs Hb) as [Hblk _].
  rewrite put_app_r by lia. rewrite Hz. replace (i * BLOCK_SIZE + o - i * BLOCK_SIZE) with o by lia.
  by rewrite put_app_l by lia.
Qed.

Section WriteRange.
Context {sb : Superblock} {fs : file_system} (Hgeo : geometry sb) (Hwf : fs_wf sb fs).
Context {x : Z} {bs : list block} (Hfile : file_of sb fs x = Ok bs).
Context (first start : Z) (Hfirst : 0 <= first) (Hstart : 0 <= start < BLOCK_SIZE).
Context (data : bytes) (Hdata : Forall is_byte data) (Hlen : 0 < zlen data).
Let flat := mjoin bs.
Let pos := first * BLOCK_SIZE + start.
Let c := consumed start (zlen data).

(** The images built for the first [k] blocks. *)
Record range_images (k : Z) (ws : list (Z * block)) : Prop := {
  ri_indices : ws.*1 = zrange first (first + k);
  ri_images : Forall (fun w => 0 <= w.1 < zlen bs /\ block_ok w.2) ws;
  ri_flat : mjoin (put_blocks bs ws) = put flat pos (sub data 0 (c k));
}.

Lemma range_images_nil : range_images 0 [].
Proof.
  split; [by rewrite zrange_nil by lia|constructor|]. unfold c, consumed. simpl. by rewrite sub_nil, put_nil.
Qed.

Lemma range_images_snoc k ws blk piece begin take :
  0 <= k -> range_images k ws -> bs !! Z.to_nat (first + k) = Some blk -> 0 <= begin -> 0 <= take ->
  begin + take <= BLOCK_SIZE -> (first + k) * BLOCK_SIZE + begin = pos + c k -> 0 <= c k ->
  c (k + 1) = c k + take -> c k + take <= zlen data -> piece = sub data (c k) take ->
  range_images (k + 1) (ws ++ [(first + k, put blk begin piece)]).
Proof.
  intros Hk [Hidx Himg Hflat] Hb Hbegin Htake Hle Hpos Hck Hnext Hfit ->.
  pose proof (lookup_lt_Some _ _ _ Hb) as Hlt. pose proof (file_of_blocks Hgeo Hwf x bs Hfile) as Hbs.
  pose proof (Forall_lookup_1 _ _ _ _ Hbs Hb) as [Hblk Hbytes].
  assert (Hz : zlen (sub data (c k) take) = take) by (apply zlen_sub; lia).
  split.
  - rewrite fmap_app, Hidx. simpl. rewrite Z.add_assoc, zrange_snoc by lia. done.
  - apply Forall_app. split; [done|]. apply Forall_singleton. simpl. split; [unfold zlen; lia|].
    split; [rewrite zlen_put; lia|]. apply Forall_put; [done|]. by apply Forall_sub.
  - rewrite put_blocks_snoc.
    assert (Hcur : put_blocks bs ws !! Z.to_nat (first + k) = Some blk).
    { rewrite put_blocks_other; [done|lia|eapply Forall_impl; [exact Himg|]; intros w [? _]; lia|].
      rewrite Hidx, elem_of_zrange. lia. }
    assert (Hok : Forall block_ok (put_blocks bs ws)).
    { apply put_blocks_ok; [done|]. eapply Forall_impl; [exact Himg|]. by intros w [_ ?]. }
    rewrite (mjoin_put _ _ blk) by (done || lia). rewrite Hflat, Hpos.
    rewrite Hnext, sub_split by lia. rewrite Z.add_0_l.
    assert (Hz0 : zlen (sub data 0 (c k)) = c k) by (apply zlen_sub; lia).
    rewrite <- Hz0 at 2. apply put_put_next; [unfold pos; ulia|].
    rewrite Hz0, Hz. unfold flat. rewrite zlen_mjoin_blocks by done. unfold zlen, BLOCK_SIZE in *. nia.
Qed.

Lemma write_range_loop :
  owp (ofold (write_range_step_of sb fs x first start data) (0, [])
         (zrange 0 (div_ceil (start + zlen data) BLOCK_SIZE)))
    (fun r => pos + zlen data <= zlen flat /\ range_images (div_ceil (start + zlen data) BLOCK_SIZE) r.2)
    (fun _ => zlen flat < pos + zlen data).
Proof.
  destruct (div_ceil_bounds (start + zlen data)) as (Hbc & Hlo & Hhi); [lia|]. set (bc := div_ceil _ _) in *.
  eapply owp_mono; [apply (owp_fold_range _ (fun r k => r.1 = c k /\ range_images k r.2 /\
    (k = 0 \/ (first + k) * BLOCK_SIZE <= zlen flat)) (fun _ => zlen flat < pos + zlen data))|..]; simpl; [lia| | | |done].
  - split; [done|]. split; [apply range_images_nil|by left].
  - intros k [n ws] Hk (Hn & Hri & Hfit). simpl in Hn, Hri. subst n. unfold write_range_step_of.
    assert (Hstep : (k - 1) * BLOCK_SIZE < start + zlen data) by (unfold BLOCK_SIZE in *; nia).
    destruct (consumed_step first start Hstart (zlen data) k ltac:(lia) Hlen Hstep) as (Hnext & Hc & Hat). fold c in Hnext, Hc, Hat.
    specialize (Hat ltac:(unfold BLOCK_SIZE in *; nia)). set (begin := if k =? 0 then start else 0) in *.
    assert (Hbegin : 0 <= begin < BLOCK_SIZE) by (unfold begin; destruct (k =? 0); ulia).
    pose proof (next_block Hgeo Hwf Hfile first start Hfirst k ltac:(lia)) as Hb. unfold obind, owp in Hb. unfold obind.
    destruct (ok_or _ _) as [i|e|]; [|unfold pos; simpl; fold flat in Hb; unfold BLOCK_SIZE in *; nia|done].
    destruct (read_of sb fs x i) as [image|e|]; [|unfold pos; simpl; fold flat in Hb; unfold BLOCK_SIZE in *; nia|done].
    simpl in Hb. destruct Hb as (-> & Hb & Hin). unfold sub_u64. rewrite (proj2 (Z.leb_le begin _)) by lia.
    rewrite (proj2 (Z.leb_le (c k) _)) by lia. set (take := Z.min _ _) in *. assert (0 <= take) by lia.
    pose proof (Forall_lookup_1 _ _ _ _ (file_of_blocks Hgeo Hwf x bs Hfile) Hb) as [Himg _].
    rewrite (slice_n data (c k) _ take) by lia. rewrite copy_range_Ok by (rewrite ?zlen_sub; lia).
    simpl. split; [lia|]. split; [|right; fold flat in Hin; lia].
    apply (range_images_snoc k ws image _ begin take); try (done || lia).
  - intros r (_ & Hri & Hfit). split; [|done]. unfold pos, BLOCK_SIZE in *. nia.
Qed.
End WriteRange.

Section WriteSpec.
Context {sb : Superblock} {fs : file_system} (Hgeo : geometry sb) (Hwf : fs_wf sb fs).
Context (x first start : Z) (Hfirst : 0 <= first <= u64_max) (Hstart : 0 <= start).
Let pos := first * BLOCK_SIZE + start.

(** A slice in memory is far from the allocation limit. *)
Lemma range_capacity {E} n : 0 < n -> 2 * n <= isize_max -> start < BLOCK_SIZE ->
  @with_capacity E write_size (div_ceil (start + n) BLOCK_SIZE) = Ok tt.
Proof.
  intros Hn Hcap Hs. destruct (div_ceil_bounds (start + n)) as (_ & Hlo & _); [lia|].
  unfold with_capacity. rewrite (proj2 (Z.leb_le _ _)); [done|]. unfold write_size, isize_max, BLOCK_SIZE in *. lia.
Qed.

Lemma range_writes_of_spec data : Forall is_byte data -> 2 * zlen data <= isize_max ->
  owp (range_writes_of sb fs x first start data)
    (fun ws => start < BLOCK_SIZE /\ exists bs, file_of sb fs x = Ok bs /\
       range_in_file sb fs x pos (zlen data) (mjoin bs) /\ ws <> [] /\ NoDup ws.*1 /\
       Forall (fun w => 0 <= w.1 < zlen bs /\ block_ok w.2) ws /\ mjoin (put_blocks bs ws) = put (mjoin bs) pos data)
    (fun _ => ~ (start < BLOCK_SIZE /\ exists flat, range_in_file sb fs x pos (zlen data) flat)).
Proof.
  intros Hdata Hcap. unfold range_writes_of. pose proof (zlen_nonneg data).
  destruct (_ || _) eqn:Hbad; simpl.
  { intros [Hs (flat & _ & Hl & _)]. apply orb_true_iff in Hbad as [Hb|?]; [|bool_facts; lia].
    destruct data; [unfold zlen in Hl; simpl in Hl; lia|done]. }
  apply orb_false_iff in Hbad as [Hb Hs]. bool_facts.
  assert (Hlen : 0 < zlen data) by (destruct data; [done|rewrite zlen_cons; pose proof (zlen_nonneg data); lia]).
  apply owp_bind. unfold checked_add at 1. destruct (_ <=? u64_max) eqn:Hov; bool_facts; simpl.
  2: { intros [_ (flat & Hf & _ & Hin)]. pose proof (file_bytes_bound Hgeo Hwf x flat Hf). unfold pos in Hin. ulia. }
  rewrite range_capacity by done. simpl. apply owp_bind.
  pose proof (file_of_no_panic (sb:=sb) (fs:=fs) x) as Hnp.
  destruct (div_ceil_bounds (start + zlen data)) as (Hbc & Hlo & Hhi); [lia|].
  destruct (file_of sb fs x) as [bs|e|] eqn:Hf; [| |done].
  - eapply owp_mono; [apply (write_range_loop Hgeo Hwf Hf first start ltac:(lia) ltac:(lia) data Hdata Hlen)|..]; simpl.
    + intros [n ws] [Hin [Hidx Himg Hflat]]. simpl in *. split; [lia|]. exists bs. split; [done|].
      split; [split; [by apply file_bytes_of|unfold pos; lia]|].
      split; [intros ->; simpl in Hidx; symmetry in Hidx; rewrite zrange_cons in Hidx by lia; done|].
      split; [rewrite Hidx; apply NoDup_seqZ|]. split; [done|]. unfold pos. rewrite Hflat. f_equal.
      apply sub_all. unfold consumed. rewrite (proj2 (Z.eqb_neq (div_ceil _ _) 0)) by lia. lia.
    + intros _ Hlt [_ (flat & Hfl & _ & Hin)]. rewrite (file_bytes_of x bs Hf) in Hfl. simplify_eq. unfold pos in Hin. lia.
  - rewrite (no_file_loop _ _ _ e) by (try lia; unfold write_range_step_of; rewrite first_index_Ok by lia; simpl;
      by rewrite (read_of_no_file Hgeo Hwf x first e) by (done || lia)). simpl.
    intros [_ (flat & Hfl & _)]. unfold file_bytes in Hfl. by rewrite Hf in Hfl.
Qed.

Lemma write_range_of_spec data : Forall is_byte data -> 2 * zlen data <= isize_max ->
  owp (write_range_of sb fs x first start data)
    (fun r => start < BLOCK_SIZE /\ exists flat new, range_in_file sb fs x pos (zlen data) flat /\
       file_written sb fs x new r.2 /\ mjoin new = put flat pos data)
    (fun _ => ~ (start < BLOCK_SIZE /\ exists flat, range_in_file sb fs x pos (zlen data) flat)).
Proof.
  intros Hdata Hcap. unfold write_range_of, write_blocks_of. apply owp_bind.
  eapply owp_mono; [by apply range_writes_of_spec|..|done]; simpl.
  intros ws (Hs & bs & Hf & Hin & Hne & Hnd & Himg & Hflat). apply owp_bind.
  eapply owp_mono; [apply (changed_of_spec Hgeo Hwf x ws)|..]; simpl.
  - eapply Forall_impl; [exact Himg|]. intros w [? ?]. split; [lia|done].
  - intros changed (_ & bs' & Hf' & _ & _ & Hfw). rewrite Hf in Hf'. simplify_eq. split; [done|].
    by exists (mjoin bs'), (put_blocks bs' ws).
  - intros _ Hn _. apply Hn. split; [done|]. exists bs. split; [done|]. split; [done|].
    eapply Forall_impl; [exact Himg|]. intros w [? _]. lia.
Qed.
End WriteSpec.

(** ** One block *)

Section OneBlock.
Context {sb : Superblock} {fs : file_system} (Hgeo : geometry sb) (Hwf : fs_wf sb fs).
Context (x i : Z) (Hi : 0 <= i).

Lemma resolve_of_spec :
  owp (resolve_of fs x i)
    (fun b => exists inode, find_file (fs_meta fs).1.2 x = Ok inode /\ blocks inode !! Z.to_nat i = Some b /\
       reserved sb <= b < total_blocks sb /\
       exists y, data_block sb (fs_data fs) b = Ok y /\ inode_contents sb (fs_data fs) inode !! Z.to_nat i = Some y /\ block_ok y)
    (fun _ => ~ exists bs, file_of sb fs x = Ok bs /\ i < zlen bs).
Proof.
  unfold resolve_of, file_of. pose proof (find_file_no_panic (fs_meta fs).1.2 x) as Hnp.
  destruct (find_file (fs_meta fs).1.2 x) as [inode|e|] eqn:Hf; simpl; [|naive_solver|done].
  destruct (find_file_Ok (fs:=fs) x inode Hf) as (Hin & _). unfold logical_block.
  destruct (blocks inode !! Z.to_nat i) as [b|] eqn:Hb; simpl.
  - destruct (inode_block_data Hgeo Hwf inode b Hin (list_elem_of_lookup_2 _ _ _ Hb)) as (Hr & -> & y & Hy & Hok).
    simpl. exists inode. split; [done|]. split; [done|]. split; [done|]. exists y. unfold data_block. rewrite Hy.
    split; [done|]. split; [|done]. destruct (inode_contents_spec Hgeo Hwf inode Hin) as [Hc _].
    destruct (Forall2_lookup_l _ _ _ _ _ Hc Hb) as (y' & Hy' & Hl). congruence.
  - intros (bs & [= <-] & Hlt). apply lookup_ge_None in Hb. unfold zlen in Hlt. rewrite (length_bs Hgeo Hwf inode Hin) in Hlt. lia.
Qed.

(** Storing image [y] as block [i] of the file. *)
Lemma image_of_spec inode b y :
  find_file (fs_meta fs).1.2 x = Ok inode -> blocks inode !! Z.to_nat i = Some b -> block_ok y ->
  owp (image_of sb fs b y)
    (fun ws => file_written sb fs x (<[Z.to_nat i := y]> (inode_contents sb (fs_data fs) inode)) (mkChange (fs_meta fs) ws))
    (fun _ => False).
Proof.
  intros Hf Hb Hy. destruct (find_file_Ok (fs:=fs) x inode Hf) as (Hin & _). unfold image_of.
  destruct (inode_block_data Hgeo Hwf inode b Hin (list_elem_of_lookup_2 _ _ _ Hb)) as (_ & _ & y0 & Hy0 & _).
  unfold data_block. rewrite Hy0. simpl. pose proof (overwritten_nil Hgeo Hwf inode Hin) as Hnil.
  assert (Hb0 : inode_contents sb (fs_data fs) inode !! Z.to_nat i = Some y0).
  { rewrite <- Hy0. symmetry. exact (ow_lookup _ _ _ Hnil _ _ Hb). }
  apply (overwritten_file Hgeo Hwf inode x [(i, y)]); [done|]. case_bool_decide as Hsame.
  - subst y0. apply (overwritten_same inode [] []); try done. apply not_elem_of_nil.
  - by apply (overwritten_write Hgeo Hwf inode Hin [] [] i b y).
Qed.

(** [write_file_block_journaled] replaces one block. *)
Lemma write_block_of_spec y : block_ok y ->
  owp (write_block_of sb fs x i y)
    (fun r => exists bs, file_of sb fs x = Ok bs /\ i < zlen bs /\ file_written sb fs x (<[Z.to_nat i := y]> bs) r.2)
    (fun _ => ~ exists bs, file_of sb fs x = Ok bs /\ i < zlen bs).
Proof.
  intros Hy. unfold write_block_of. apply owp_bind. eapply owp_mono; [apply resolve_of_spec|..|done]; simpl.
  intros b (inode & Hf & Hb & _ & y0 & _ & Hc & _). apply owp_bind.
  eapply owp_mono; [by apply (image_of_spec inode b y)|..|done]; simpl. intros ws Hfw.
  exists (inode_contents sb (fs_data fs) inode). unfold file_of. rewrite Hf. split; [done|]. split; [|done].
  apply lookup_lt_Some in Hc. unfold zlen. lia.
Qed.

(** [write_file_block_range_journaled] replaces bytes of one block. *)
Lemma write_block_range_of_spec offset data : 0 <= offset -> Forall is_byte data ->
  owp (write_block_range_of sb fs x i offset data)
    (fun r => exists flat new, range_in_file sb fs x (i * BLOCK_SIZE + offset) (zlen data) flat /\
       offset + zlen data <= BLOCK_SIZE /\ file_written sb fs x new r.2 /\
       mjoin new = put flat (i * BLOCK_SIZE + offset) data)
    (fun _ => ~ (offset + zlen data <= BLOCK_SIZE /\
       exists flat, range_in_file sb fs x (i * BLOCK_SIZE + offset) (zlen data) flat)).
Proof.
  intros Ho Hdata. unfold write_block_range_of. destruct (_ || _) eqn:Hbad; simpl.
  { intros [Hle (flat & _ & Hlen & _)]. apply orb_true_iff in Hbad as [Hb|Hb]; [|bool_facts; lia].
    apply orb_true_iff in Hb as [Hb|Hb]; [destruct data; [unfold zlen in Hlen; simpl in Hlen; lia|done]|bool_facts; lia]. }
  apply orb_false_iff in Hbad as [Hbad Hfit]. apply orb_false_iff in Hbad as [Hne Hoff]. bool_facts.
  assert (Hlen : 0 < zlen data) by (destruct data; [done|rewrite zlen_cons; pose proof (zlen_nonneg data); lia]).
  apply owp_bind. eapply owp_mono; [apply resolve_of_spec|..]; simpl.
  - intros b (inode & Hf & Hb & _ & y0 & Hy0 & Hc & [Hz Hbytes]). rewrite Hy0. simpl.
    rewrite copy_range_Ok by lia. simpl. apply owp_bind.
    assert (Hok : block_ok (put y0 offset data)).
    { split; [rewrite zlen_put; lia|by apply Forall_put]. }
    eapply owp_mono; [by apply (image_of_spec inode b (put y0 offset data))|..|done]; simpl. intros ws Hfw.
    assert (Hfile : file_of sb fs x = Ok (inode_contents sb (fs_data fs) inode)) by (unfold file_of; by rewrite Hf).
    pose proof (file_of_blocks Hgeo Hwf x _ Hfile) as Hbs. eexists _, _.
    split; [split; [by apply file_bytes_of|split; [done|]]|split; [lia|split; [done|]]].
    + rewrite zlen_mjoin_blocks by done. apply lookup_lt_Some in Hc. unfold zlen, BLOCK_SIZE in *. nia.
    + by apply (mjoin_put _ i y0); (done || lia).
  - intros _ Hn [_ (flat & Hfb & _ & Hin)]. apply Hn. unfold file_bytes in Hfb.
    apply obind_Ok in Hfb as (bs & Hf & [= <-]). exists bs. split; [done|].
    rewrite zlen_mjoin_blocks in Hin by (by eapply file_of_blocks). unfold BLOCK_SIZE in *. nia.
Qed.
End OneBlock.

(** ** Copying and zeroing *)

Section Copy.
Context {sb : Superblock} {fs : file_system} (Hgeo : geometry sb) (Hwf : fs_wf sb fs).

Definition endpoint_ok (e : FileRangeEndpoint) : Prop := 0 <= ep_first_block e <= u64_max /\ 0 <= ep_offset e.
Definition endpoint_pos (e : FileRangeEndpoint) : Z := ep_first_block e * BLOCK_SIZE + ep_offset e.

(** The bytes of both ranges exist. *)
Definition endpoint_range (e : FileRangeEndpoint) (len : Z) (flat : bytes) : Prop :=
  ep_offset e < BLOCK_SIZE /\ range_in_file sb fs (ep_inode e) (endpoint_pos e) len flat.

(** The copied bytes are those of the source before the copy, also when the
    ranges overlap. *)
Lemma copy_range_of_spec src dst len : endpoint_ok src -> endpoint_ok dst -> 0 <= len -> 2 * len <= isize_max ->
  owp (copy_range_of sb fs src dst len)
    (fun r => exists from to new, endpoint_range src len from /\ endpoint_range dst len to /\
       file_written sb fs (ep_inode dst) new r.2 /\
       mjoin new = put to (endpoint_pos dst) (sub from (endpoint_pos src) len))
    (fun _ => ~ exists from to, endpoint_range src len from /\ endpoint_range dst len to).
Proof.
  intros [Hsf Hso] [Hdf Hdo] H0 Hlen. unfold copy_range_of. apply owp_bind.
  eapply owp_mono; [apply (read_range_of_spec Hgeo Hwf); try lia|..]; simpl.
  - intros out (Hs & from & Hin & ->). pose proof Hin as (Hfb & Hpos & Hle).
    assert (Hbytes : Forall is_byte from).
    { unfold file_bytes in Hfb. apply obind_Ok in Hfb as (bs & Hf & [= <-]).
      by eapply Forall_mjoin_blocks, file_of_blocks. }
    assert (Hz : zlen (sub from (endpoint_pos src) len) = len)
      by (unfold endpoint_pos; apply zlen_sub; ulia).
    eapply owp_mono; [apply (write_range_of_spec Hgeo Hwf); [lia|lia|by apply Forall_sub|fold (endpoint_pos src); lia]|..]; simpl;
      fold (endpoint_pos src); rewrite Hz.
    + intros r (Hd & to & new & Hto & Hfw & Hnew). exists from, to, new. by split_and!.
    + intros _ Hn (from' & to & _ & [Hd Hto]). apply Hn. split; [done|]. by exists to.
  - intros _ Hn (from & to & [Hs Hfrom] & _). apply Hn. split; [done|]. by exists from.
Qed.

Lemma zero_range_of_spec x first start len : 0 <= first <= u64_max -> 0 <= start -> 0 <= len -> 2 * len <= isize_max ->
  owp (zero_range_of sb fs x first start len)
    (fun r => start < BLOCK_SIZE /\ exists flat new, range_in_file sb fs x (first * BLOCK_SIZE + start) len flat /\
       file_written sb fs x new r.2 /\ mjoin new = put flat (first * BLOCK_SIZE + start) (zeros len))
    (fun _ => ~ (start < BLOCK_SIZE /\ exists flat, range_in_file sb fs x (first * BLOCK_SIZE + start) len flat)).
Proof.
  intros Hf Hs H0 Hlen. unfold zero_range_of. destruct (len =? 0) eqn:Hz; bool_facts; simpl.
  { intros [_ (flat & _ & Hl & _)]. lia. }
  unfold with_capacity. rewrite (proj2 (Z.leb_le _ _)) by lia. simpl.
  pose proof (write_range_of_spec Hgeo Hwf x first start Hf Hs (zeros len) (Forall_zeros len)) as Hw.
  rewrite zlen_zeros in Hw by lia. by apply Hw.
Qed.
End Copy.
