(* ===== verification/FileOps.v ===== *)
(** * The file operations on a device

    Each operation of [FileData] does what its function says, all or nothing,
    and keeps the file system sound. *)

From S2P Require Import Prelude Bytes Block CrashDevice Allocation Superblock Region AllocationDisk.
From S2P Require Import Journal JournalCodec JournalRegion Recovery TransactionImage.
From S2P Require Import TransactionPlan InodeCodec RecordTable InodeTable DirectoryCodec Inode.
From S2P Require Import DirectoryTable Atomicity CreateTx Format Namespace NamespaceEdit Fsck.
From S2P Require Import Transition LinkTx TruncateTx RenameTx FileState FileData FileRange.

Section Implements.
Context {sb : Superblock} {v : list block}.
Context {a : BlockAllocator} {inodes : list PersistedInode} {entries : list PersistedDirectoryEntry}.
Context (Hd : disk_holds sb v (a, inodes, entries)) (Hm : metadata_sound (a, inodes, entries)).
Context `{DeviceLaws D} (h : bool).
Let m : metadata := (a, inodes, entries).
Let fs := mkFs m (data_area sb v).
Let Hgeo := holds_geometry _ _ _ Hd.
Let Hwf : fs_wf sb fs := holds_wf sb v m Hd Hm.

(** Data blocks alone. *)
Lemma data_target ws : target_writes sb v (mkChange m ws) = ws /\
  (Forall (data_write sb) ws -> target_storable sb v (mkChange m ws)).
Proof.
  simpl. split; [|intros Hws; split; [apply (on_disk_storable Hd)|done]].
  by rewrite (create_writes_same sb Hgeo v (holds_image _ _ _ Hd) a inodes entries (holds_metadata _ _ _ Hd)).
Qed.

Lemma wp_commit_data_step {B} (res : outcome io_error (B * fs_change)) b ws msg d :
  res = Ok (b, mkChange m ws) -> Forall (data_write sb) ws -> ws <> [] -> at_state h d v v ->
  wp (commit_data (D:=D) sb ws msg) (fun _ d' => tx_done sb v h res b d') (tx_abort sb v h res) d.
Proof.
  intros Hres Hws Hne Hst. destruct (data_target ws) as [Htw Hts]. specialize (Hts Hws).
  pose proof (holds_image _ _ _ Hd) as Hv. pose proof (data_home sb Hgeo ws Hws) as Hhome.
  unfold commit_data. apply wp_bind, wp_lift. rewrite single_transaction_log_Ok. simpl. apply wp_bind.
  eapply wp_mono; [by apply (wp_commit_checkpointed sb Hgeo v Hv ws Hhome)|..]; simpl.
  - intros r d' (Hfit & -> & Hst'). apply wp_lift. rewrite check_report_Ok. simpl.
    exists (mkChange m ws). split; [done|]. split.
    + split; [done|]. rewrite Htw. by intros _.
    + eexists. split; [exact Hst'|]. rewrite Htw. apply settled_clear; [done| |done]. by eapply image_ok_home.
  - intros e d' [Hh (s & Hc & Hs)]. eapply (tx_store_failed Hd h res b (mkChange m ws) True); [done|done|done|].
    rewrite Htw. eapply tx_failed_late; [done| |done|done]. intros Ht. split; [done|auto].
Qed.

(** Data blocks, or nothing if none changes. *)
Lemma tx_nothing_data {B} (res : outcome io_error (B * fs_change)) b d :
  res = Ok (b, mkChange m []) -> at_state h d v v -> tx_done sb v h res b d.
Proof.
  intros Hres Hst. destruct (data_target []) as [Htw Hts]. apply (tx_nothing Hd h res b (mkChange m [])); auto.
Qed.

Lemma wp_image_step {B} (res : outcome io_error (B * fs_change)) b c y d :
  (forall ws, image_of sb fs c y = Ok ws -> Forall (data_write sb) ws /\ res = Ok (b, mkChange m ws)) ->
  image_of sb fs c y <> Panic -> at_state h d v v ->
  wp (journal_block_image (D:=D) sb c y) (fun _ d' => tx_done sb v h res b d') (tx_abort sb v h res) d.
Proof.
  intros Hres Hnp Hst. unfold journal_block_image. unfold image_of in *.
  apply (wp_reads_step h res _ (data_block sb (fs_data fs) c)); [by apply (reads_block Hd)|done| | |].
  - by destruct (data_block _ _ c).
  - intros e He. unfold data_block in He. by destruct (data_lookup _ _ c).
  - intros cur d' Hcur Hst'. rewrite Hcur in Hres. simpl in Hres. destruct (Hres _ eq_refl) as [Hw Hr].
    case_bool_decide; [by apply wp_ret, tx_nothing_data|]. by apply wp_commit_data_step.
Qed.

Lemma write_block_implements x i y : 0 <= i -> block_ok y ->
  implements sb v h (write_block_of sb fs x i y) (fun _ => tt) (write_file_block_journaled (D:=D) sb x i y).
Proof.
  intros Hi Hy d Hst. pose proof (resolve_of_spec Hgeo Hwf x i Hi) as Hr.
  apply (wp_reads_step h _ _ (resolve_of fs x i)); [by apply (reads_resolve Hd)|done|by eapply owp_no_panic| |].
  - intros e He. unfold write_block_of. by rewrite He.
  - intros b d' Hb Hst'. rewrite Hb in Hr. destruct Hr as (inode & Hf & Hl & _).
    pose proof (image_of_spec Hgeo Hwf x i Hi inode b y Hf Hl Hy) as Himg.
    apply wp_image_step; [|by eapply owp_no_panic|done]. intros ws Hws. rewrite Hws in Himg. simpl in Himg.
    split; [apply (fw_data _ _ _ _ _ Himg)|]. unfold write_block_of. rewrite Hb. simpl. by rewrite Hws.
Qed.

Lemma write_block_range_implements x i offset data : 0 <= i -> 0 <= offset -> Forall is_byte data ->
  implements sb v h (write_block_range_of sb fs x i offset data) (fun _ => tt)
    (write_file_block_range_journaled (D:=D) sb x i offset data).
Proof.
  intros Hi Ho Hdata d Hst. pose proof (write_block_range_of_spec Hgeo Hwf x i Hi offset data Ho Hdata) as Hsp.
  pose proof (owp_no_panic _ _ _ Hsp) as Hnp. unfold write_file_block_range_journaled, write_block_range_of in *.
  apply (wp_lift_step h); [done|apply ensure_no_panic|intros e He; by rewrite He|]. intros [] He.
  rewrite He in *. cbn [obind] in *.
  apply (wp_reads_step h _ _ (resolve_of fs x i)); [by apply (reads_resolve Hd)|done|by destruct (resolve_of fs x i)| |].
  { intros e Her. by rewrite Her. }
  intros b d1 Hb Hst1. rewrite Hb in *. cbn [obind] in *.
  apply (wp_reads_step h _ _ (data_block sb (fs_data fs) b)); [by apply (reads_block Hd)|done| | |].
  { by destruct (data_block _ _ b). }
  { intros e Her. by rewrite Her. }
  intros image d2 Himage Hst2. rewrite Himage in *. cbn [obind] in *.
  apply (wp_lift_step h); [done|by destruct (copy_range _ _ _ _)|intros e Her; by rewrite Her|].
  intros image' Hcopy. rewrite Hcopy in *. cbn [obind] in *.
  apply wp_image_step; [|by destruct (image_of _ _ _ _)|done]. intros ws Hws. rewrite Hws in *. simpl in Hsp.
  destruct Hsp as (flat & new & _ & _ & Hfw & _). split; [apply (fw_data _ _ _ _ _ Hfw)|done].
Qed.

Lemma write_blocks_implements x writes : Forall (fun w => 0 <= w.1 /\ block_ok w.2) writes ->
  implements sb v h (write_blocks_of sb fs x writes) (fun _ => tt) (write_file_blocks_journaled (D:=D) sb x writes).
Proof.
  intros Hws d Hst. pose proof (changed_of_spec Hgeo Hwf x writes Hws) as Hsp.
  apply (wp_reads_step h _ _ (changed_of sb fs x writes)); [by apply (reads_changed Hd)|done|by eapply owp_no_panic| |].
  { intros e He. unfold write_blocks_of. by rewrite He. }
  intros changed d' Hc Hst'. rewrite Hc in Hsp. simpl in Hsp. destruct Hsp as (_ & bs & _ & _ & _ & Hfw).
  assert (Hres : write_blocks_of sb fs x writes = Ok (tt, mkChange m changed)) by (unfold write_blocks_of; by rewrite Hc).
  destruct (is_empty changed) eqn:He.
  - destruct changed; [|done]. by apply wp_ret, tx_nothing_data.
  - apply wp_commit_data_step; [done|apply (fw_data _ _ _ _ _ Hfw)|by intros ->|done].
Qed.

(** An operation that continues with a result of its reads. *)
Lemma implements_reads {X} (prog : M D X) o (k : X -> M D RecoveryReport) (ko : X -> outcome io_error (unit * fs_change)) :
  reads (v:=v) h prog o -> o <> Panic ->
  (forall y, o = Ok y -> implements sb v h (ko y) (fun _ => tt) (k y)) ->
  implements sb v h (let? y := o in ko y) (fun _ => tt) (let! y := prog in k y).
Proof.
  intros Hp Hnp Hk d Hst. apply (wp_reads_step h _ _ o); [done|done|done|by intros e ->|].
  intros y d' -> Hst'. by apply Hk.
Qed.

(** An operation that only reads. *)
Lemma implements_read {X B} (prog : M D X) o (f : X -> B) :
  reads (v:=v) h prog o -> o <> Panic ->
  implements sb v h (let? y := o in Ok (f y, mkChange m [])) f prog.
Proof.
  intros Hp Hnp d Hst. eapply wp_mono; [by apply Hp|..]; simpl.
  - intros y d' [-> Hst']. by apply tx_nothing_data.
  - intros e d' [Hc Hh]. split; [by left|]. intros Ht. split; [done|]. left. by rewrite (Hh Ht).
Qed.

Lemma write_range_implements x first start data :
  0 <= first <= u64_max -> 0 <= start -> Forall is_byte data -> 2 * zlen data <= isize_max ->
  implements sb v h (write_range_of sb fs x first start data) (fun _ => tt)
    (write_file_range_journaled (D:=D) sb x first start data).
Proof.
  intros Hf Hs Hdata Hcap. pose proof (range_writes_of_spec Hgeo Hwf x first start Hf Hs data Hdata Hcap) as Hsp.
  apply implements_reads; [by apply (reads_range_writes Hd)|by eapply owp_no_panic|].
  intros ws Hws. rewrite Hws in Hsp. destruct Hsp as (_ & bs & _ & _ & _ & _ & Himg & _).
  apply write_blocks_implements. eapply Forall_impl; [exact Himg|]. intros w [? ?]. split; [lia|done].
Qed.

Lemma copy_range_implements src dst len : endpoint_ok src -> endpoint_ok dst -> 0 <= len -> 2 * len <= isize_max ->
  implements sb v h (copy_range_of sb fs src dst len) (fun _ => tt) (copy_file_range_journaled (D:=D) sb src dst len).
Proof.
  intros [Hsf Hso] [Hdf Hdo] H0 Hlen.
  pose proof (read_range_of_spec Hgeo Hwf (ep_inode src) (ep_first_block src) (ep_offset src) (proj1 Hsf) Hso len
    (proj2 Hsf) ltac:(lia)) as Hsp.
  apply implements_reads; [by apply (reads_range Hd)|by eapply owp_no_panic|].
  intros out Hout. rewrite Hout in Hsp. destruct Hsp as (_ & flat & (Hfb & _ & Hle) & ->).
  assert (Hbytes : Forall is_byte flat).
  { unfold file_bytes in Hfb. apply obind_Ok in Hfb as (bs & Hf & [= <-]). by eapply Forall_mjoin_blocks, file_of_blocks. }
  apply write_range_implements; [done|done|by apply Forall_sub|]. rewrite zlen_sub; ulia.
Qed.

Lemma zero_range_implements x first start len :
  0 <= first <= u64_max -> 0 <= start -> 0 <= len -> 2 * len <= isize_max ->
  implements sb v h (zero_range_of sb fs x first start len) (fun _ => tt)
    (zero_file_range_journaled (D:=D) sb x first start len).
Proof.
  intros Hf Hs H0 Hlen. apply implements_reads; [apply reads_lift|apply ensure_no_panic|]. intros _ _.
  apply implements_reads; [apply reads_lift|unfold with_capacity; by rewrite (proj2 (Z.leb_le _ _)) by lia|]. intros _ _.
  apply write_range_implements; [done|done|apply Forall_zeros|]. rewrite zlen_zeros; lia.
Qed.
End Implements.
