(* ===== verification/FileGrow.v ===== *)
(** * Growing files: [append_file_block_journaled] of [file_data.rs], [file_append_batch.rs]
      and [file_insert.rs]

    New blocks are allocated, entered in the inode and written, in one
    transaction over the allocation region, the inode table and the data
    blocks. *)

From S2P Require Import Prelude Bytes Block CrashDevice Allocation Superblock Region AllocationDisk.
From S2P Require Import Journal JournalCodec JournalRegion Recovery TransactionImage.
From S2P Require Import TransactionPlan InodeCodec RecordTable InodeTable DirectoryCodec Inode.
From S2P Require Import DirectoryTable Atomicity CreateTx Format Namespace NamespaceEdit Fsck.
From S2P Require Import Transition LinkTx TruncateTx RenameTx FileState FileData FileRange FileOps.

(** [inodes.iter_mut().find(..)] and the kind check: the position and the inode. *)
Definition find_grow_target (missing wrong : string) (inodes : list PersistedInode) (x : Z)
    : outcome io_error (Z * PersistedInode) :=
  let? index := ok_or (position (fun inode => id inode =? x) inodes) (invalid_input missing) in
  let? inode := index_at inodes index in
  try? ensure (bool_decide (kind inode = File)) (invalid_input wrong) in
  Ok (index, inode).

Definition find_append_target : list PersistedInode -> Z -> outcome io_error (Z * PersistedInode) :=
  find_grow_target "file-data target inode is missing" "file-data target must be a regular file".
Definition find_insert_target : list PersistedInode -> Z -> outcome io_error (Z * PersistedInode) :=
  find_grow_target "file insert target inode is missing" "file insert target must be a regular file".

(** [allocator.allocate().map_err(..)?] *)
Definition allocate_block (allocator : BlockAllocator) : outcome io_error (Z * BlockAllocator) :=
  map_err (fun error => invalid_input (allocation_error_fmt error)) (run_on allocate allocator).

Definition append_edit (allocator : BlockAllocator) (inodes : list PersistedInode) (x : Z)
    : outcome io_error (BlockAllocator * list PersistedInode * Z) :=
  let? (index, inode) := find_append_target inodes x in
  let? (b, allocator) := allocate_block allocator in
  let? inodes := set_blocks inodes index inode (blocks inode ++ [b]) in
  Ok (allocator, inodes, b).

(** The loop of the batch: the allocator, [inode.blocks] and the new blocks. *)
Definition allocate_step (acc : BlockAllocator * list Z * list Z) (_ : block)
    : outcome io_error (BlockAllocator * list Z * list Z) :=
  let '(allocator, inode_blocks, bs) := acc in
  let? (b, allocator) := allocate_block allocator in
  Ok (allocator, inode_blocks ++ [b], bs ++ [b]).

Definition append_batch_edit (allocator : BlockAllocator) (inodes : list PersistedInode) (x : Z)
    (data_blocks : list block) : outcome io_error (BlockAllocator * list PersistedInode * list Z) :=
  let? (index, inode) := find_append_target inodes x in
  let? (allocator, inode_blocks, bs) := ofold allocate_step (allocator, blocks inode, []) data_blocks in
  let? inodes := set_blocks inodes index inode inode_blocks in
  Ok (allocator, inodes, bs).

(** [v.insert(i, x)], for [i <= v.len()]. *)
Definition insert_at {A} (l : list A) (i : Z) (x : A) : list A := take (Z.to_nat i) l ++ x :: drop (Z.to_nat i) l.

Definition insert_edit (allocator : BlockAllocator) (inodes : list PersistedInode) (x insert_index : Z)
    : outcome io_error (BlockAllocator * list PersistedInode * Z) :=
  let? (index, inode) := find_insert_target inodes x in
  try? ensure (negb (zlen (blocks inode) <? insert_index)) (invalid_input "file insert logical index is beyond the end") in
  let? (b, allocator) := allocate_block allocator in
  let? inodes := set_blocks inodes index inode (insert_at (blocks inode) insert_index b) in
  Ok (allocator, inodes, b).

(** The messages of the three operations. *)
Record grow_messages := mkMessages { gm_allocation : string; gm_inode : string; gm_outside : string; gm_report : string }.
Definition append_messages : grow_messages := mkMessages
  "file append image did not render every allocation metadata block"
  "file append image did not render every inode metadata block"
  "file append image rendered outside allocation and inode regions"
  "file append recovery report is inconsistent".
Definition append_batch_messages : grow_messages := mkMessages
  "multi-block append image did not render every allocation metadata block"
  "multi-block append image did not render every inode metadata block"
  "multi-block append image rendered outside allocation and inode regions"
  "multi-block append recovery report is inconsistent".
Definition insert_messages : grow_messages := mkMessages
  "file insert image did not render every allocation metadata block"
  "file insert image did not render every inode metadata block"
  "file insert image rendered outside allocation and inode regions"
  "file insert recovery report is inconsistent".

Section Ops.
Context `{BlockDevice D}.

(** From the capture device to the report, as all three do it. *)
Definition commit_grown (superblock : Superblock) (msgs : grow_messages) (allocator : BlockAllocator)
    (inodes : list PersistedInode) (data : list (Z * block)) : M D RecoveryReport :=
  let capture := capture_new (total_blocks superblock) in
  let! (_, capture) := ilift (run_on (store_allocator superblock allocator) capture) in
  let! (_, capture) := ilift (run_on (store_inode_table superblock inodes) capture) in
  let! arange := ilift (allocation_range superblock) in
  let! (capture, changed) := collect_changed_range capture arange (gm_allocation msgs) [] in
  let! irange := ilift (inode_range superblock) in
  let! (capture, changed) := collect_changed_range capture irange (gm_inode msgs) changed in
  do! ilift (ensure_empty capture (gm_outside msgs)) in
  commit_data superblock (changed ++ data) (gm_report msgs).

Definition append_file_block_journaled (superblock : Superblock) (inode_id : Z) (data : block) : M D (Z * RecoveryReport) :=
  let! allocator := load_allocator superblock in
  let! inodes := load_inode_table superblock in
  let! (allocator, inodes, b) := ilift (append_edit allocator inodes inode_id) in
  let! report := commit_grown superblock append_messages allocator inodes [(b, data)] in
  iret (b, report).

Definition append_file_blocks_journaled (superblock : Superblock) (inode_id : Z) (data_blocks : list block)
    : M D (list Z * RecoveryReport) :=
  do! ilift (ensure (negb (is_empty data_blocks)) (invalid_input "multi-block append requires at least one data block")) in
  let! allocator := load_allocator superblock in
  let! inodes := load_inode_table superblock in
  let! (allocator, inodes, bs) := ilift (append_batch_edit allocator inodes inode_id data_blocks) in
  let! report := commit_grown superblock append_batch_messages allocator inodes (zip bs data_blocks) in
  iret (bs, report).

Definition insert_file_block_journaled (superblock : Superblock) (inode_id insert_index : Z) (data : block)
    : M D (Z * RecoveryReport) :=
  let! allocator := load_allocator superblock in
  let! inodes := load_inode_table superblock in
  let! (allocator, inodes, b) := ilift (insert_edit allocator inodes inode_id insert_index) in
  let! report := commit_grown superblock insert_messages allocator inodes [(b, data)] in
  iret (b, report).
End Ops.

(** ** As functions of the file system *)

Definition append_of (fs : file_system) (x : Z) (y : block) : outcome io_error (Z * fs_change) :=
  let '(a, inodes, entries) := fs_meta fs in
  let? (a, inodes, b) := append_edit a inodes x in
  Ok (b, mkChange (a, inodes, entries) [(b, y)]).

Definition append_batch_of (fs : file_system) (x : Z) (ys : list block) : outcome io_error (list Z * fs_change) :=
  let '(a, inodes, entries) := fs_meta fs in
  try? ensure (negb (is_empty ys)) (invalid_input "multi-block append requires at least one data block") in
  let? (a, inodes, bs) := append_batch_edit a inodes x ys in
  Ok (bs, mkChange (a, inodes, entries) (zip bs ys)).

Definition insert_of (fs : file_system) (x i : Z) (y : block) : outcome io_error (Z * fs_change) :=
  let '(a, inodes, entries) := fs_meta fs in
  let? (a, inodes, b) := insert_edit a inodes x i in
  Ok (b, mkChange (a, inodes, entries) [(b, y)]).

(** ** The transaction *)

Section Commit.
Context {sb : Superblock} {v : list block}.
Context {a : BlockAllocator} {inodes : list PersistedInode} {entries : list PersistedDirectoryEntry}.
Context (Hd : disk_holds sb v (a, inodes, entries)).
Let Hgeo := holds_geometry _ _ _ Hd.
Let Hv := holds_image _ _ _ Hd.
Let Hlen : zlen v = total_blocks sb := proj1 Hv.
Context `{DeviceLaws D} (h : bool).

Lemma grown_writes a' inodes' :
  new_writes sb v (a', inodes', entries) =
    [] ++ changed_writes v (writes_of (allocation_region sb a')) ++ changed_writes v (writes_of (table_region inode_format sb inodes')).
Proof.
  destruct (on_disk_parts Hd) as (_ & _ & He). simpl. unfold create_writes, create_plan.
  rewrite !plan_writes_cons, !changed_writes_app. by rewrite (table_unchanged sb Hgeo v Hv directory_format), !app_nil_r.
Qed.

Lemma wp_commit_grown_step {B} (res : outcome io_error (B * fs_change)) b a' inodes' data msgs d :
  res = Ok (b, mkChange (a', inodes', entries) data) -> allocator_of sb a' -> Forall inode_typed inodes' ->
  Forall (data_write sb) data -> data <> [] -> at_state h d v v ->
  wp (commit_grown (D:=D) sb msgs a' inodes' data) (fun _ d' => tx_done sb v h res b d') (tx_abort sb v h res) d.
Proof.
  intros Hres Ha Hi Hdata Hne Hst. pose proof (geometry_bounds sb Hgeo). set (c := mkChange (a', inodes', entries) data) in *.
  assert (Hws : target_writes sb v c = ([] ++ changed_writes v (writes_of (allocation_region sb a'))) ++
    changed_writes v (writes_of (table_region inode_format sb inodes')) ++ data).
  { change (target_writes sb v c) with (new_writes sb v (a', inodes', entries) ++ data). rewrite grown_writes.
    by rewrite <- !app_assoc. }
  assert (Hst' : storable inode_format sb inodes' -> target_storable sb v c).
  { intros Hs. split; [|done]. destruct (on_disk_storable Hd) as (_ & _ & He). by split_and!. }
  eapply wp_mono; [|intros r d'; exact (fun H => H)|
    intros e d' Hf; eapply (tx_store_failed Hd h res b c (storable inode_format sb inodes')); [done|done| |exact Hf]].
  2: { by intros [(_ & ? & _) _]. }
  unfold commit_grown.
  apply wp_bind, wp_lift. eapply owp_mono; [apply (owp_render_allocator sb Hgeo _ [] a' (allocation_start sb));
    [apply captured_new|done|simpl; lia|done]|simpl|done].
  intros [[] cap] [Hcap Hc]. pose proof (allocation_region_ok sb Hgeo a' Ha) as Hra.
  eapply (wp_render_table sb Hgeo h v inode_format); [done|done|done| |done|done|].
  { simpl. split; [|split; [done|]]; [reflexivity|simpl; lia]. }
  intros [[] cap2] Hsi Hcap2 Hc2. pose proof (table_region_ok sb Hgeo inode_format inodes' Hsi) as Hri.
  assert (Hp : plan_ok (allocation_start sb) [allocation_region sb a'; table_region inode_format sb inodes'] (directory_start sb)).
  { split; [simpl; lia|]. split; [done|]. split; [simpl; lia|]. split; [done|]. simpl. lia. }
  pose proof Hp as (_ & _ & Hp1).
  apply wp_bind, wp_lift. rewrite (allocation_range_wf _ (geo_wf _ Hgeo)). ostep.
  eapply (wp_collect_next sb h v Hlen cap2 (allocation_region sb a')); [done|exact Hcap2| |exact Hp|lia|]; [lia|].
  intros cap4 d4 Hst4 Hcap4. apply wp_bind, wp_lift. rewrite (inode_range_wf _ (geo_wf _ Hgeo)). ostep.
  eapply (wp_collect_next sb h v Hlen cap4 (table_region inode_format sb inodes')); [done|exact Hcap4| |exact Hp1|lia|]; [simpl; lia|].
  intros cap5 d5 Hst5 Hcap5. apply wp_bind, wp_lift. rewrite (captured_nil _ _ Hcap5). cbn [owp].
  rewrite <- app_assoc, <- Hws. specialize (Hst' Hsi).
  assert (Hhome : home_writes_ok sb (target_writes sb v c)).
  { destruct Hst' as [[Ho Hs] _]. apply Forall_app. split; [|by apply data_home].
    by destruct (create_writes_ok sb a' inodes' entries v Hgeo Ho Hs). }
  assert (Hnil : target_writes sb v c <> []) by (simpl; intros [_ ?]%app_eq_nil; done).
  unfold commit_data. apply wp_bind, wp_lift. rewrite single_transaction_log_Ok. simpl owp. apply wp_bind.
  eapply wp_mono; [by apply (wp_commit_checkpointed sb Hgeo v Hv _ Hhome)|..].
  - intros r d' (Hfit & -> & Hst6). apply wp_lift. rewrite check_report_Ok. exists c. split; [done|].
    split; [split; [done|by intros _]|]. eexists. split; [exact Hst6|].
    apply settled_clear; [done| |done]. by eapply image_ok_home.
  - intros e d' [Hh (s & Hcr & Hs)]. eapply tx_failed_late; [done| |done|done]. auto.
Qed.
End Commit.

(** ** Allocating the new blocks *)

(** [bs] are new blocks that the allocator took. *)
Record fresh (a : BlockAllocator) (bs : list Z) (a' : BlockAllocator) : Prop := {
  fr_ok : alloc_ok a';
  fr_total : Allocation.total_blocks a' = Allocation.total_blocks a;
  fr_reserved : Allocation.reserved_blocks a' = Allocation.reserved_blocks a;
  fr_nodup : NoDup bs;
  fr_new : Forall (fun b => b ∈ data_blocks a /\ b ∉ owned a) bs;
  fr_owned : owned a' = owned a ∪ list_to_set bs;
}.

Definition free_blocks (a : BlockAllocator) : gset Z := data_blocks a ∖ owned a.

Lemma fresh_nil a : alloc_ok a -> fresh a [] a.
Proof. intros Ha. split; try done; [constructor|set_solver]. Qed.

Lemma fresh_size a bs a' : fresh a bs a' -> zlen bs <= Z.of_nat (size (free_blocks a)).
Proof.
  intros [_ _ _ Hnd Hnew _]. rewrite Forall_forall in Hnew. unfold zlen. rewrite <- (size_list_to_set (C:=gset Z) bs) by done.
  apply inj_le, subseteq_size. intros b Hb%elem_of_list_to_set. apply elem_of_difference. by apply Hnew.
Qed.

Lemma fresh_snoc a bs a1 : fresh a bs a1 ->
  owp (allocate_block a1) (fun r => fresh a (bs ++ [r.1]) r.2)
    (fun e => e = invalid_input (allocation_error_fmt Exhausted) /\ zlen bs = Z.of_nat (size (free_blocks a))).
Proof.
  intros [Hok Ht Hr Hnd Hnew Ho]. apply owp_map_err. eapply owp_mono; [apply owp_run_on, (allocate_spec a1 Hok)|..]; simpl.
  - intros [b a2] (Hok2 & Ht2 & Hr2 & Hb & Hn & _ & Ho2). simpl in *.
    assert (Hdata : data_blocks a1 = data_blocks a) by (unfold data_blocks; by rewrite Ht, Hr).
    rewrite Ho in Hn. rewrite Hdata in Hb. split; [done|congruence..| | |].
    + apply NoDup_app. split; [done|]. split; [|apply NoDup_singleton]. intros c Hc ->%list_elem_of_singleton. set_solver.
    + apply Forall_app. split; [done|]. apply Forall_singleton. set_solver.
    + rewrite Ho2, Ho, list_to_set_app_L. set_solver.
  - intros e (s & -> & -> & Hfull). split; [done|]. unfold zlen.
    rewrite <- (size_list_to_set (C:=gset Z) bs) by done. f_equal. f_equal. rewrite Forall_forall in Hnew.
    assert (Hdata : data_blocks a1 = data_blocks a) by (unfold data_blocks; by rewrite Ht, Hr). rewrite Ho, Hdata in Hfull.
    apply set_eq. intros b. unfold free_blocks. rewrite elem_of_list_to_set, <- Hfull. split; [|set_solver].
    intros Hb. destruct (Hnew b Hb). set_solver.
Qed.

Lemma allocate_loop a ys : forall bs a1 inode_blocks, fresh a bs a1 ->
  owp (ofold allocate_step (a1, inode_blocks, bs) ys)
    (fun '(a2, l, bs2) => exists more, bs2 = bs ++ more /\ l = inode_blocks ++ more /\ length more = length ys /\ fresh a bs2 a2)
    (fun e => e = invalid_input (allocation_error_fmt Exhausted) /\ Z.of_nat (size (free_blocks a)) < zlen bs + zlen ys).
Proof.
  induction ys as [|y ys IH]; intros bs a1 inode_blocks Hf; simpl.
  { exists []. by rewrite !app_nil_r. }
  apply owp_bind, owp_bind. eapply owp_mono; [by apply fresh_snoc|..]; simpl.
  - intros [b a2] Hf2. simpl in *. eapply owp_mono; [by apply IH|..]; simpl.
    + intros [[a3 l] bs3] (more & -> & -> & Hlen & Hf3). exists (b :: more). rewrite <- !app_assoc in *. simpl in *. by split_and!; [..|f_equal|].
    + intros e [-> Hlt]. split; [done|]. rewrite zlen_app, !zlen_cons, zlen_nil in *. lia.
  - intros e [-> Heq]. split; [done|]. rewrite zlen_cons. pose proof (zlen_nonneg ys). lia.
Qed.

(** ** The target *)

Lemma find_inode_elem inodes n : NoDup (id <$> inodes) -> n ∈ inodes -> find_inode inodes (id n) = Some n.
Proof.
  intros Hids Hn. unfold find_inode. induction inodes as [|m l IH]; [by apply not_elem_of_nil in Hn|].
  simpl in *. apply NoDup_cons in Hids as [Hm Hids]. destruct (id m =? id n) eqn:E; bool_facts.
  - apply elem_of_cons in Hn as [->|Hn]; [done|]. exfalso. apply Hm. rewrite E. by apply list_elem_of_fmap_2.
  - apply elem_of_cons in Hn as [->|Hn]; [done|]. auto.
Qed.

Lemma find_grow_target_spec missing wrong inodes x : NoDup (id <$> inodes) ->
  owp (find_grow_target missing wrong inodes x)
    (fun '(index, inode) => 0 <= index < zlen inodes /\ inodes !! Z.to_nat index = Some inode /\ find_file inodes x = Ok inode)
    (fun _ => forall inode, find_file inodes x <> Ok inode).
Proof.
  intros Hids. unfold find_grow_target. destruct (position _ inodes) as [i|] eqn:Hp; simpl.
  - apply position_Some in Hp as (Hr & (n & Hn & Hid) & _). bool_facts. rewrite (index_at_Ok inodes i n) by (done || lia). simpl.
    pose proof (find_inode_elem inodes n Hids (list_elem_of_lookup_2 _ _ _ Hn)) as Hf. rewrite Hid in Hf.
    unfold find_file. rewrite Hf. simpl. case_bool_decide; simpl; [done|naive_solver].
  - intros inode Hf. pose proof (position_None _ _ Hp) as Hnone.
    unfold find_file in Hf. inv_ok. apply find_inode_Some in E as [Hin Hid].
    specialize (Hnone inode Hin). simpl in Hnone. bool_facts. done.
Qed.

Lemma find_inode_insert inodes i inode inode' y :
  NoDup (id <$> inodes) -> inodes !! i = Some inode -> id inode' = id inode ->
  find_inode (<[i := inode']> inodes) y = if decide (y = id inode) then Some inode' else find_inode inodes y.
Proof.
  intros Hids Hi Hid. unfold find_inode. revert i Hi. induction inodes as [|n l IH]; intros i Hi; [done|].
  simpl in Hids. apply NoDup_cons in Hids as [Hn Hids]. destruct i as [|i]; simpl in *.
  - simplify_eq. rewrite Hid. case_decide as Hy; destruct (id inode =? y) eqn:E; bool_facts; (done || congruence).
  - specialize (IH Hids i Hi). destruct (id n =? y) eqn:E; bool_facts; [|done]. rewrite decide_False; [done|].
    intros ->. apply Hn. rewrite E. apply list_elem_of_fmap_2. by eapply list_elem_of_lookup_2.
Qed.

(** ** The grown file *)

(** File [x] has the contents [new], in the old blocks and the new blocks [bs];
    the other files have theirs, and the namespace is as before. *)
Record file_grown (sb : Superblock) (fs : file_system) (x : Z) (new : list block) (bs : list Z) (c : fs_change) : Prop := {
  fg_typed : typed_metadata sb (ch_meta c);
  fg_sound : metadata_sound (ch_meta c);
  fg_fresh : fresh (fs_meta fs).1.1 bs (ch_meta c).1.1;
  fg_inodes : exists i inode l, (fs_meta fs).1.2 !! i = Some inode /\ id inode = x /\ kind inode = File /\
    l ≡ₚ blocks inode ++ bs /\ (ch_meta c).1.2 = <[i := mkPersistedInode x File l]> (fs_meta fs).1.2;
  fg_entries : (ch_meta c).2 = (fs_meta fs).2;
  fg_data : Forall (data_write sb) (ch_data c);
  fg_file : file_of sb (fs_apply sb fs c) x = Ok new;
  fg_others y : y <> x -> file_of sb (fs_apply sb fs c) y = file_of sb fs y;
}.

Lemma write_data_zip sb bs : forall ys data, length bs = length ys -> NoDup bs ->
  Forall (fun b => reserved sb <= b < reserved sb + zlen data) bs ->
  Forall2 (fun b y => data_lookup sb (write_data sb (zip bs ys) data) b = Some y) bs ys.
Proof.
  induction bs as [|b bs IH]; intros [|y ys] data Hlen Hnd Hr; try done.
  apply NoDup_cons in Hnd as [Hb Hnd]. apply Forall_cons in Hr as [Hrb Hr]. simpl in Hlen.
  change (write_data sb (zip (b :: bs) (y :: ys)) data) with (write_data sb (zip bs ys) (<[Z.to_nat (b - reserved sb) := y]> data)).
  constructor.
  - rewrite data_lookup_untouched.
    + unfold data_lookup. rewrite (proj2 (Z.leb_le _ _)) by lia. apply list_lookup_insert_eq. unfold zlen in Hrb. lia.
    + apply Forall_forall. intros [c z] Hc. apply elem_of_zip_l in Hc. rewrite Forall_forall in Hr. simpl.
      split; [by apply Hr|congruence].
  - apply IH; [lia|done|]. unfold zlen. by rewrite length_insert.
Qed.

Section Grow.
Context {sb : Superblock} {a : BlockAllocator} {inodes : list PersistedInode}.
Context {entries : list PersistedDirectoryEntry} {data : list block}.
Let fs := mkFs (a, inodes, entries) data.
Context (Hgeo : geometry sb) (Hwf : fs_wf sb fs).
Context {x : Z} {i : nat} {inode : PersistedInode} (Hi : inodes !! i = Some inode) (Hf : find_file inodes x = Ok inode).
Context {bs : list Z} {a' : BlockAllocator} (Hfresh : fresh a bs a').
Context (ys : list block) (Hlen : length bs = length ys) (Hys : Forall block_ok ys).
Context (l : list Z) (Hl : l ≡ₚ blocks inode ++ bs).
Let inode' := mkPersistedInode (id inode) (kind inode) l.
Let inodes' := <[i := inode']> inodes.
Let ws := zip bs ys.

Lemma fresh_range : Forall (fun b => reserved sb <= b < total_blocks sb) bs.
Proof.
  destruct (wf_allocator _ _ Hwf) as [_ Ht Hr]. eapply Forall_impl; [apply (fr_new _ _ _ Hfresh)|].
  intros b [Hb%elem_of_data_blocks _]. simpl in *. lia.
Qed.

Lemma grown_data_writes : Forall (data_write sb) ws.
Proof.
  apply Forall_forall. intros [b y] Hby. pose proof fresh_range as Hr. rewrite Forall_forall in Hr. pose proof Hys as Hys'. rewrite Forall_forall in Hys'.
  split; [apply Hr; by eapply elem_of_zip_l|apply Hys'; by eapply elem_of_zip_r].
Qed.

Lemma fresh_not_referenced b : b ∈ bs -> b ∉ inode_references inodes.
Proof.
  intros Hb Href. destruct (wf_sound _ _ Hwf) as [[Hall _] _]. rewrite Forall_forall in Hall.
  pose proof (fr_new _ _ _ Hfresh) as Hn. rewrite Forall_forall in Hn. destruct (Hn b Hb) as [_ Hno]. by apply Hno, Hall.
Qed.

Lemma not_referenced b n : n ∈ inodes -> b ∉ inode_references inodes -> b ∉ blocks n.
Proof.
  intros Hn Hr Hb. apply Hr. unfold inode_references. apply list_elem_of_join.
  exists (blocks n). split; [done|]. by apply list_elem_of_fmap_2.
Qed.

Lemma grown_untouched n : n ∈ inodes -> inode_contents sb (write_data sb ws data) n = inode_contents sb data n.
Proof.
  intros Hn. apply inode_contents_untouched. pose proof grown_data_writes as Hw. rewrite Forall_forall in Hw.
  apply Forall_forall. intros w Hin. split; [by apply Hw|]. apply (not_referenced _ n Hn), fresh_not_referenced.
  destruct w. by eapply elem_of_zip_l.
Qed.

Lemma grown_typed : typed_metadata sb (a', inodes', entries).
Proof.
  destruct Hwf as [[_ Ht Hr] Hti Hte _ _ _ _]. pose proof (geometry_bounds sb Hgeo). simpl in *. split; [|split; [|done]].
  - destruct Hfresh. split; [done|congruence..].
  - apply Forall_insert; [done|]. destruct (Forall_lookup_1 _ _ _ _ Hti Hi) as [Hid Hbl]. split; [done|]. simpl.
    rewrite Hl. apply Forall_app. split; [done|]. eapply Forall_impl; [apply fresh_range|]. intros b Hb. unfold reserved, is_u64 in *. lia.
Qed.

Lemma grown_sound : metadata_sound (a', inodes', entries).
Proof.
  pose proof (wf_sound _ _ Hwf) as [[Hall Hnd] Hn]. split.
  - assert (Hp : inode_references inodes ++ bs ≡ₚ inode_references inodes' ++ []).
    { apply (set_blocks_references Hi). by rewrite app_nil_r, Hl. }
    rewrite app_nil_r in Hp. destruct Hfresh as [_ _ _ Hndb Hnew Ho]. split; rewrite <- Hp.
    + rewrite Forall_forall in Hall, Hnew. apply Forall_forall. intros b Hb. rewrite Ho.
      apply elem_of_app in Hb as [Hb|Hb]; [specialize (Hall b Hb)|]; set_solver.
    + apply NoDup_app. split; [done|]. split; [|done]. intros b Hb Hbs. by apply (fresh_not_referenced b).
  - apply set_blocks_namespace; [done|apply (wf_ids _ _ Hwf)|done].
Qed.

Lemma grown_file new :
  Forall2 (fun b y => data_lookup sb (write_data sb ws data) b = Some y) l new ->
  file_grown sb fs x new bs (mkChange (a', inodes', entries) ws).
Proof.
  intros Hnew. destruct (find_file_Ok (fs:=fs) x inode Hf) as (Hin & Hid & Hk).
  split; simpl; [apply grown_typed|apply grown_sound|done| |done|apply grown_data_writes|..].
  - exists i, inode, l. rewrite <- Hid, <- Hk. by split_and!.
  - unfold file_of, find_file, inodes'. simpl. rewrite (find_inode_insert _ _ inode); [|apply (wf_ids _ _ Hwf)|done|done].
    rewrite decide_True by done. simpl. rewrite Hk. simpl. unfold inode_contents. simpl.
    by rewrite (proj2 (mapM_Some _ _ _) Hnew).
  - intros y Hy. unfold file_of, find_file, inodes'. simpl. rewrite (find_inode_insert _ _ inode); [|apply (wf_ids _ _ Hwf)|done|done].
    rewrite decide_False by congruence. destruct (find_inode inodes y) as [n|] eqn:Hn; [|done]. simpl.
    apply find_inode_Some in Hn as [Hn _]. destruct (bool_decide _); [|done]. simpl. by rewrite grown_untouched.
Qed.

(** The parts the new contents are made of. *)
Lemma grown_old : Forall2 (fun b y => data_lookup sb (write_data sb ws data) b = Some y)
  (blocks inode) (inode_contents sb data inode).
Proof.
  destruct (find_file_Ok (fs:=fs) x inode Hf) as (Hin & _).
  destruct (inode_contents_spec Hgeo Hwf inode Hin) as [Hc _].
  apply Forall2_same_length_lookup. split; [apply (Forall2_length _ _ _ Hc)|]. intros j b y Hb Hy.
  rewrite data_lookup_untouched.
  - destruct (Forall2_lookup_l _ _ _ _ _ Hc Hb) as (y' & Hy' & Hl'). simpl in *. congruence.
  - pose proof grown_data_writes as Hw. rewrite Forall_forall in Hw. apply Forall_forall. intros [c z] Hcz.
    split; [by apply Hw|]. simpl. intros ->. apply (not_referenced b inode Hin); [|by eapply list_elem_of_lookup_2].
    by apply fresh_not_referenced; eapply elem_of_zip_l.
Qed.

Lemma grown_new : Forall2 (fun b y => data_lookup sb (write_data sb ws data) b = Some y) bs ys.
Proof.
  apply write_data_zip; [done|apply (fr_nodup _ _ _ Hfresh)|]. pose proof (wf_size _ _ Hwf) as Hs. simpl in Hs.
  eapply Forall_impl; [apply fresh_range|]. intros b Hb. simpl in *. lia.
Qed.
End Grow.

(** ** What the operations do *)

Section Specs.
Context {sb : Superblock} {a : BlockAllocator} {inodes : list PersistedInode}.
Context {entries : list PersistedDirectoryEntry} {data : list block}.
Let fs := mkFs (a, inodes, entries) data.
Context (Hgeo : geometry sb) (Hwf : fs_wf sb fs).
Let Hids : NoDup (id <$> inodes) := wf_ids _ _ Hwf.
Let Ha : alloc_ok a := of_ok _ _ (wf_allocator _ _ Hwf).

Lemma file_of_found x inode : find_file inodes x = Ok inode -> file_of sb fs x = Ok (inode_contents sb data inode).
Proof. intros Hf. unfold file_of. simpl. by rewrite Hf. Qed.

Lemma no_file x bs : (forall inode, find_file inodes x <> Ok inode) -> file_of sb fs x <> Ok bs.
Proof. intros Hn (inode & Hf & _)%obind_Ok. by eapply Hn. Qed.

(** [append_file_blocks_journaled] puts the blocks at the end of the file; it
    fails without blocks, without the file or when the disk is full. *)
Lemma append_batch_of_spec x ys : Forall block_ok ys ->
  owp (append_batch_of fs x ys)
    (fun r => exists old, file_of sb fs x = Ok old /\ ys <> [] /\ length r.1 = length ys /\
       file_grown sb fs x (old ++ ys) r.1 r.2)
    (fun _ => ~ (ys <> [] /\ (exists old, file_of sb fs x = Ok old) /\ zlen ys <= Z.of_nat (size (free_blocks a)))).
Proof.
  intros Hys. unfold append_batch_of. simpl. destruct ys as [|y0 ys0] eqn:Heq; [simpl; tauto|]. simpl is_empty. cbn [negb ensure obind].
  rewrite <- Heq in *. apply owp_bind. unfold append_batch_edit. apply owp_bind.
  eapply owp_mono; [by apply find_grow_target_spec|..]; simpl.
  2: { intros _ Hn (_ & [old Hold] & _). by eapply no_file. }
  intros [index inode] (Hr & Hi & Hf). apply owp_bind.
  eapply owp_mono; [apply (allocate_loop a ys [] a), fresh_nil, Ha|..]; simpl.
  2: { intros e [_ Hlt] (_ & _ & Hle). rewrite zlen_nil in Hlt. lia. }
  intros [[a' l] bs] (more & -> & -> & Hlen & Hfresh). simpl in *. rewrite set_blocks_Ok by done. simpl.
  exists (inode_contents sb data inode). split; [by apply file_of_found|]. split; [by subst|]. split; [done|].
  apply (grown_file Hgeo Hwf Hi Hf Hfresh ys Hlen Hys); [done|]. apply Forall2_app.
  - by apply (grown_old Hgeo Hwf Hf Hfresh).
  - by apply (grown_new Hwf Hfresh).
Qed.

Lemma append_of_spec x y : block_ok y ->
  owp (append_of fs x y)
    (fun r => exists old, file_of sb fs x = Ok old /\ file_grown sb fs x (old ++ [y]) [r.1] r.2)
    (fun _ => ~ ((exists old, file_of sb fs x = Ok old) /\ free_blocks a <> ∅)).
Proof.
  intros Hy. unfold append_of. simpl. apply owp_bind. unfold append_edit. apply owp_bind.
  eapply owp_mono; [by apply find_grow_target_spec|..]; simpl.
  2: { intros _ Hn ([old Hold] & _). by eapply no_file. }
  intros [index inode] (Hr & Hi & Hf). apply owp_bind.
  eapply owp_mono; [apply (fresh_snoc a [] a), fresh_nil, Ha|..]; simpl.
  2: { intros e [_ Hz] (_ & Hne). rewrite zlen_nil in Hz. apply Hne, leibniz_equiv, size_empty_inv. lia. }
  intros [b a'] Hfresh. simpl in *. rewrite set_blocks_Ok by done. simpl.
  exists (inode_contents sb data inode). split; [by apply file_of_found|].
  assert (Hys : Forall block_ok [y]) by (by constructor).
  apply (grown_file Hgeo Hwf Hi Hf Hfresh [y] eq_refl Hys); [done|]. apply Forall2_app.
  - by apply (grown_old Hgeo Hwf Hf Hfresh [y]).
  - by apply (grown_new Hwf Hfresh [y]).
Qed.

Lemma insert_of_spec x i y : 0 <= i -> block_ok y ->
  owp (insert_of fs x i y)
    (fun r => exists old, file_of sb fs x = Ok old /\ i <= zlen old /\ file_grown sb fs x (insert_at old i y) [r.1] r.2)
    (fun _ => ~ ((exists old, file_of sb fs x = Ok old /\ i <= zlen old) /\ free_blocks a <> ∅)).
Proof.
  intros H0 Hy. unfold insert_of. simpl. apply owp_bind. unfold insert_edit. apply owp_bind.
  eapply owp_mono; [by apply find_grow_target_spec|..]; simpl.
  2: { intros _ Hn ([old [Hold _]] & _). by eapply no_file. }
  intros [index inode] (Hr & Hi & Hf). destruct (find_file_Ok (fs:=fs) x inode Hf) as (Hin & _).
  assert (Hz : zlen (inode_contents sb data inode) = zlen (blocks inode)).
  { unfold zlen. f_equal. apply (length_bs Hgeo Hwf inode Hin). }
  destruct (_ <? i) eqn:Hlt; bool_facts; simpl.
  { intros ((old & Hold & Hle) & _). rewrite (file_of_found x inode Hf) in Hold. simplify_eq. lia. }
  apply owp_bind. eapply owp_mono; [apply (fresh_snoc a [] a), fresh_nil, Ha|..]; simpl.
  2: { intros e [_ Hz0] (_ & Hne). rewrite zlen_nil in Hz0. apply Hne, leibniz_equiv, size_empty_inv. lia. }
  intros [b a'] Hfresh. simpl in *. rewrite set_blocks_Ok by done. simpl.
  exists (inode_contents sb data inode). split; [by apply file_of_found|]. split; [lia|].
  assert (Hys : Forall block_ok [y]) by (by constructor). pose proof (grown_old Hgeo Hwf Hf Hfresh [y] eq_refl Hys) as Hold.
  pose proof (grown_new Hwf Hfresh [y] eq_refl) as Hnew. apply Forall2_cons in Hnew as [Hnew _].
  apply (grown_file Hgeo Hwf Hi Hf Hfresh [y] eq_refl Hys).
  - unfold insert_at. rewrite <- Permutation_middle, take_drop. by rewrite Permutation_app_comm.
  - unfold insert_at. apply Forall2_app; [by apply Forall2_take|]. constructor; [done|by apply Forall2_drop].
Qed.
End Specs.

(** ** The operations implement the functions *)

Section Implements.
Context {sb : Superblock} {v : list block}.
Context {a : BlockAllocator} {inodes : list PersistedInode} {entries : list PersistedDirectoryEntry}.
Context (Hd : disk_holds sb v (a, inodes, entries)) (Hm : metadata_sound (a, inodes, entries)).
Context `{DeviceLaws D} (h : bool).
Let fs := mkFs (a, inodes, entries) (data_area sb v).
Let Hgeo := holds_geometry _ _ _ Hd.
Let Hwf : fs_wf sb fs := holds_wf sb v (a, inodes, entries) Hd Hm.

(** Load, edit, commit. *)
Lemma grow_implements {X B} (edit : outcome io_error (BlockAllocator * list PersistedInode * X))
    (data : X -> list (Z * block)) (f : X -> B) msgs x (P : B -> list block -> list Z -> Prop) R :
  let res := (let? (a', inodes', r) := edit in Ok (f r, mkChange (a', inodes', entries) (data r))) in
  owp res (fun r => exists new bs, P r.1 new bs /\ file_grown sb fs x new bs r.2) R ->
  (forall r new bs, P (f r) new bs -> data r <> []) ->
  forall d : D, at_state h d v v ->
  wp (let! (a', inodes', r) := ilift edit in
      let! report := commit_grown sb msgs a' inodes' (data r) in iret (f r, report))
    (fun r d' => tx_done sb v h res r.1 d') (tx_abort sb v h res) d.
Proof.
  intros res Hsp Hne d Hst. apply (wp_lift_step h); [done| |by unfold res; intros e ->|].
  { unfold res in Hsp. by destruct edit. }
  intros [[a' inodes'] r] Hedit. unfold res in Hsp. rewrite Hedit in Hsp.
  destruct Hsp as (new & bs & HP & [(Ha & Hi & _) _ _ _ _ Hdata _ _]). apply wp_bind.
  eapply wp_mono; [apply (wp_commit_grown_step Hd h res (f r) a' inodes' (data r) msgs d)|intros report d' Hdone; by apply wp_ret|done];
    [unfold res; by rewrite Hedit|done..|by eapply Hne|done].
Qed.

Lemma append_implements x y : block_ok y ->
  implements sb v h (append_of fs x y) fst (append_file_block_journaled (D:=D) sb x y).
Proof.
  intros Hy d Hst. apply (wp_load_allocator_step Hd); [done|]. intros d1 Hst1.
  apply (wp_load_inodes_step Hd); [done|]. intros d2 Hst2.
  eapply (grow_implements _ (fun b => [(b, y)]) (fun b => b) append_messages x (fun _ _ _ => True)); [|done|done].
  eapply owp_mono; [exact (append_of_spec Hgeo Hwf x y Hy)| |intros e He; exact He].
  intros r (old & _ & Hg). by eexists _, _.
Qed.

Lemma insert_implements x i y : 0 <= i -> block_ok y ->
  implements sb v h (insert_of fs x i y) fst (insert_file_block_journaled (D:=D) sb x i y).
Proof.
  intros Hi Hy d Hst. apply (wp_load_allocator_step Hd); [done|]. intros d1 Hst1.
  apply (wp_load_inodes_step Hd); [done|]. intros d2 Hst2.
  eapply (grow_implements _ (fun b => [(b, y)]) (fun b => b) insert_messages x (fun _ _ _ => True)); [|done|done].
  eapply owp_mono; [exact (insert_of_spec Hgeo Hwf x i y Hi Hy)| |intros e He; exact He].
  intros r (old & _ & _ & Hg). by eexists _, _.
Qed.

Lemma append_batch_implements x ys : Forall block_ok ys ->
  implements sb v h (append_batch_of fs x ys) fst (append_file_blocks_journaled (D:=D) sb x ys).
Proof.
  intros Hys d Hst. pose proof (append_batch_of_spec Hgeo Hwf x ys Hys) as Hsp. unfold append_batch_of in *. simpl in *.
  apply (wp_lift_step h); [done|apply ensure_no_panic|by intros e ->|]. intros [] He. rewrite He in *. simpl in *.
  apply (wp_load_allocator_step Hd); [done|]. intros d1 Hst1.
  apply (wp_load_inodes_step Hd); [done|]. intros d2 Hst2.
  eapply (grow_implements _ (fun bs => zip bs ys) (fun bs => bs) append_batch_messages x
    (fun bs _ _ => length bs = length ys)); [| |done].
  - eapply owp_mono; [exact Hsp| |intros e Her; exact Her].
    intros r (old & _ & _ & Hlen & Hg). by eexists _, _.
  - intros bs _ _ Hlen. apply ensure_Ok in He. by destruct ys, bs.
Qed.
End Implements.

(** C6: Appending blocks.  On a well-formed file system
    [append_file_blocks_journaled] succeeds in its edit exactly when it is given
    blocks, the file exists and the allocator has as many free blocks.  Then the
    file is its old blocks followed by the given ones, in order; the blocks it
    allocated were free, data blocks and distinct, and are all the allocator
    newly owns; every other file and the namespace are as before, and the
    metadata is sound and typed.  There is no panic. *)
Theorem append_blocks_exact sb fs x ys : geometry sb -> fs_wf sb fs -> Forall block_ok ys ->
  match append_batch_of fs x ys with
  | Ok (bs, c) => exists old, file_of sb fs x = Ok old /\ ys <> [] /\ length bs = length ys /\
      file_grown sb fs x (old ++ ys) bs c
  | Err _ => ~ (ys <> [] /\ (exists old, file_of sb fs x = Ok old) /\
      zlen ys <= Z.of_nat (size (free_blocks (fs_meta fs).1.1)))
  | Panic => False
  end.
Proof.
  intros Hgeo Hwf Hys. destruct fs as [[[a inodes] entries] data].
  pose proof (append_batch_of_spec Hgeo Hwf x ys Hys) as Hsp. by destruct (append_batch_of _ x ys) as [[bs c]|e|].
Qed.

(** Inserting a block.  On a well-formed file system
    [insert_file_block_journaled] succeeds in its edit exactly when the file
    exists, the position is at most its number of blocks and the allocator has
    a free block.  Then the file has the given block at this position, the
    blocks behind it moved by one; one free data block was allocated; every
    other file and the namespace are as before, and the metadata is sound and
    typed.  There is no panic. *)
Theorem insert_block_exact sb fs x i y : geometry sb -> fs_wf sb fs -> 0 <= i -> block_ok y ->
  match insert_of fs x i y with
  | Ok (b, c) => exists old, file_of sb fs x = Ok old /\ i <= zlen old /\
      file_grown sb fs x (take (Z.to_nat i) old ++ [y] ++ drop (Z.to_nat i) old) [b] c
  | Err _ => ~ ((exists old, file_of sb fs x = Ok old /\ i <= zlen old) /\ free_blocks (fs_meta fs).1.1 <> ∅)
  | Panic => False
  end.
Proof.
  intros Hgeo Hwf Hi Hy. destruct fs as [[[a inodes] entries] data].
  pose proof (insert_of_spec Hgeo Hwf x i y Hi Hy) as Hsp. by destruct (insert_of _ x i y) as [[b c]|e|].
Qed.
