(* ===== verification/Operations.v ===== *)
(** * The operations of the file system

    The operations of the preceding files as one language: [meta_op] for those
    on the metadata, [fs_op] for all.  [op_spec] is what an operation means to
    do, [run_op] what the code does; every operation implements its
    specification, all or nothing, and keeps the file system sound;
    [healthy_outcome] says what this means on a device that does not fail. *)

From S2P Require Import Prelude Bytes BTree Block CrashDevice Allocation Superblock Region AllocationDisk.
From S2P Require Import Journal JournalCodec JournalRegion Recovery TransactionImage.
From S2P Require Import TransactionPlan InodeCodec RecordTable InodeTable DirectoryCodec Inode.
From S2P Require Import DirectoryTable Atomicity CreateTx Format Namespace NamespaceEdit Fsck.
From S2P Require Import Transition LinkTx TruncateTx RenameTx UnlinkTx.
From S2P Require Import FileState FileData FileRange FileOps FileGrow.

(** ** Operations *)

(** The operations on the metadata. *)
Inductive meta_op :=
  | Create (desired : metadata)
  | HardLink (p : Z) (n : bytes) (t : Z)
  | HardUnlink (p : Z) (n : bytes)
  | Unlink (desired : metadata)
  | Rename (op : Z) (on : bytes) (np : Z) (nn : bytes)
  | Exchange (p1 : Z) (n1 : bytes) (p2 : Z) (n2 : bytes)
  | Overwrite (op : Z) (on : bytes) (np : Z) (nn : bytes)
  | OverwriteLinked (op : Z) (on : bytes) (np : Z) (nn : bytes)
  | TruncateZero (x : Z)
  | TruncateBlocks (x n : Z)
  | TruncateLast (x : Z).

(** What an operation returns: block numbers, or the bytes it read. *)
Definition op_result : Type := list Z.

(** What it means to do. *)
Definition meta_spec (o : meta_op) (m : metadata) : outcome io_error (op_result * metadata) :=
  let quiet (r : outcome io_error (unit * metadata)) := let? (_, m) := r in Ok ([], m) in
  match o with
  | Create desired => Ok ([], desired)
  | HardLink p n t => quiet (hard_link m p n t)
  | HardUnlink p n => quiet (hard_unlink m p n)
  | Unlink desired => quiet (unlink m desired)
  | Rename op on np nn => quiet (rename m op on np nn)
  | Exchange p1 n1 p2 n2 => quiet (exchange m p1 n1 p2 n2)
  | Overwrite op on np nn => quiet (overwrite m op on np nn false)
  | OverwriteLinked op on np nn => quiet (overwrite m op on np nn true)
  | TruncateZero x => quiet (truncate_zero m x)
  | TruncateBlocks x n => let? (released, m) := truncate_blocks m x n in Ok (released, m)
  | TruncateLast x => let? (b, m) := truncate_last m x in Ok ([b], m)
  end.

(** What the code does. *)
Definition run_meta `{BlockDevice D} (sb : Superblock) (o : meta_op) : M D op_result :=
  let quiet (prog : M D RecoveryReport) := let! _ := prog in iret [] in
  match o with
  | Create (a, inodes, entries) => quiet (store_create_metadata_journaled sb a inodes entries)
  | HardLink p n t => quiet (hard_link_file_journaled sb p n t)
  | HardUnlink p n => quiet (unlink_nonfinal_file_link_journaled sb p n)
  | Unlink (a, inodes, entries) => quiet (store_unlink_metadata_journaled sb a inodes entries)
  | Rename op on np nn => quiet (rename_entry_journaled sb op on np nn)
  | Exchange p1 n1 p2 n2 => quiet (rename_exchange_files_journaled sb p1 n1 p2 n2)
  | Overwrite op on np nn => quiet (rename_overwrite_file_journaled sb op on np nn)
  | OverwriteLinked op on np nn => quiet (rename_overwrite_linked_file_journaled sb op on np nn)
  | TruncateZero x => quiet (truncate_file_to_zero_journaled sb x)
  | TruncateBlocks x n => let! (released, _) := truncate_file_to_blocks_journaled sb x n in iret released
  | TruncateLast x => let! (b, _) := truncate_file_last_block_journaled sb x in iret [b]
  end.

(** The arguments have their Rust types; [store_create_metadata_journaled] does
    not check the metadata it is given, so its caller has to. *)
Definition meta_ok (sb : Superblock) (o : meta_op) : Prop :=
  match o with
  | Create desired => typed_metadata sb desired /\ metadata_sound desired
  | Unlink (a, _, _) => alloc_ok a
  | HardLink _ n _ => str_typed n
  | Exchange _ n1 _ n2 => str_typed n1 /\ str_typed n2
  | Rename _ _ _ n | Overwrite _ _ _ n | OverwriteLinked _ _ _ n => str_typed n
  | TruncateBlocks _ n => 0 <= n
  | HardUnlink _ _ | TruncateZero _ | TruncateLast _ => True
  end.


(** The operations on metadata and on file contents. *)
Inductive fs_op :=
  | Meta (o : meta_op)
  | ReadBlock (x i : Z)
  | ReadRange (x first start len : Z)
  | WriteBlock (x i : Z) (y : block)
  | WriteBlockRange (x i offset : Z) (data : bytes)
  | WriteBlocks (x : Z) (writes : list (Z * block))
  | WriteRange (x first start : Z) (data : bytes)
  | CopyRange (src dst : FileRangeEndpoint) (len : Z)
  | ZeroRange (x first start len : Z)
  | AppendBlock (x : Z) (y : block)
  | AppendBlocks (x : Z) (ys : list block)
  | InsertBlock (x i : Z) (y : block).

Definition op_spec (sb : Superblock) (o : fs_op) (fs : file_system) : outcome io_error (op_result * fs_change) :=
  let quiet (r : outcome io_error (unit * fs_change)) := let? (_, c) := r in Ok ([], c) in
  let value (r : outcome io_error (list Z)) := let? v := r in Ok (v, mkChange (fs_meta fs) []) in
  match o with
  | Meta o => let? (r, m) := meta_spec o (fs_meta fs) in Ok (r, mkChange m [])
  | ReadBlock x i => value (read_of sb fs x i)
  | ReadRange x first start len => value (read_range_of sb fs x first start len)
  | WriteBlock x i y => quiet (write_block_of sb fs x i y)
  | WriteBlockRange x i offset data => quiet (write_block_range_of sb fs x i offset data)
  | WriteBlocks x writes => quiet (write_blocks_of sb fs x writes)
  | WriteRange x first start data => quiet (write_range_of sb fs x first start data)
  | CopyRange src dst len => quiet (copy_range_of sb fs src dst len)
  | ZeroRange x first start len => quiet (zero_range_of sb fs x first start len)
  | AppendBlock x y => let? (b, c) := append_of fs x y in Ok ([b], c)
  | AppendBlocks x ys => let? (bs, c) := append_batch_of fs x ys in Ok (bs, c)
  | InsertBlock x i y => let? (b, c) := insert_of fs x i y in Ok ([b], c)
  end.

Definition run_op `{BlockDevice D} (sb : Superblock) (o : fs_op) : M D op_result :=
  let quiet (prog : M D RecoveryReport) := let! _ := prog in iret [] in
  match o with
  | Meta o => run_meta sb o
  | ReadBlock x i => read_file_block sb x i
  | ReadRange x first start len => read_file_range sb x first start len
  | WriteBlock x i y => quiet (write_file_block_journaled sb x i y)
  | WriteBlockRange x i offset data => quiet (write_file_block_range_journaled sb x i offset data)
  | WriteBlocks x writes => quiet (write_file_blocks_journaled sb x writes)
  | WriteRange x first start data => quiet (write_file_range_journaled sb x first start data)
  | CopyRange src dst len => quiet (copy_file_range_journaled sb src dst len)
  | ZeroRange x first start len => quiet (zero_file_range_journaled sb x first start len)
  | AppendBlock x y => let! (b, _) := append_file_block_journaled sb x y in iret [b]
  | AppendBlocks x ys => let! (bs, _) := append_file_blocks_journaled sb x ys in iret bs
  | InsertBlock x i y => let! (b, _) := insert_file_block_journaled sb x i y in iret [b]
  end.

(** The arguments have their Rust types, and the lengths are such that no
    [Vec] gets a capacity of more than [isize::MAX] bytes. *)
Definition op_ok (sb : Superblock) (o : fs_op) : Prop :=
  match o with
  | Meta o => meta_ok sb o
  | ReadBlock _ i => 0 <= i
  | ReadRange _ first start len => 0 <= first <= u64_max /\ 0 <= start /\ 0 <= len <= isize_max
  | WriteBlock _ i y => 0 <= i /\ block_ok y
  | WriteBlockRange _ i offset data => 0 <= i /\ 0 <= offset /\ Forall is_byte data
  | WriteBlocks _ writes => Forall (fun w => 0 <= w.1 /\ block_ok w.2) writes
  | WriteRange _ first start data =>
      0 <= first <= u64_max /\ 0 <= start /\ Forall is_byte data /\ 2 * zlen data <= isize_max
  | CopyRange src dst len => endpoint_ok src /\ endpoint_ok dst /\ 0 <= len /\ 2 * len <= isize_max
  | ZeroRange _ first start len => 0 <= first <= u64_max /\ 0 <= start /\ 0 <= len /\ 2 * len <= isize_max
  | AppendBlock _ y => block_ok y
  | AppendBlocks _ ys => Forall block_ok ys
  | InsertBlock _ i y => 0 <= i /\ block_ok y
  end.

(** The disk holds the file system, is sound and has nothing left to recover. *)
Record fs_sound (sb : Superblock) (v : list block) (fs : file_system) : Prop := {
  fs_holds : disk_holds sb v (fs_meta fs);
  fs_contents : fs_data fs = data_area sb v;
  fs_superblock : superblock_on_disk v = Ok sb;
  fs_metadata : metadata_sound (fs_meta fs);
}.

(** ** Every operation implements its specification *)

Section Implements.
Context {sb : Superblock} {v : list block} `{DeviceLaws D} (h : bool).

Lemma implements_bind {T A B C} `{!Target sb v T} (res : outcome io_error (B * T)) (f : A -> B) (g : B -> C)
    (prog : M D A) (k : A -> M D C) :
  (forall x, k x = iret (g (f x))) -> implements sb v h res f prog ->
  implements sb v h (let? (b, m) := res in Ok (g b, m)) (fun c => c) (let! x := prog in k x).
Proof.
  intros Hk Hi d Hst. apply wp_bind. eapply wp_mono; [by apply Hi|..]; simpl.
  - intros x d' (m & -> & Hr & Hb). rewrite Hk. apply wp_ret. by exists m.
  - intros e d' [Hc Hh]. split.
    + destruct Hc as [Hc|(b & m & -> & Hs & Hm)]; [by left|right]. exists (g b), m. done.
    + intros Ht. destruct (Hh Ht) as [Hc' [->|(b & m & -> & Hn)]]; (split; [done|]); [by left|right].
      exists (g b), m. done.
Qed.

(** An operation on the metadata leaves the data area alone. *)
Lemma implements_lift {A B} (res : outcome io_error (B * metadata)) (f : A -> B) (prog : M D A) :
  implements sb v h res f prog ->
  implements sb v h (let? (b, m) := res in Ok (b, mkChange m [])) f prog.
Proof.
  assert (Hw : forall m, target_writes sb v (mkChange m []) = target_writes sb v m) by (intros; apply app_nil_r).
  assert (Hs : forall m, target_storable sb v m <-> target_storable sb v (mkChange m [])) by (intros; simpl; intuition).
  intros Hi d Hst. eapply wp_mono; [by apply Hi|..]; simpl.
  - intros x d' (m & -> & [Hr Hfit] & Hb). exists (mkChange m []). split; [done|]. unfold room, becomes. rewrite Hw.
    split; [|done]. split; [by apply Hs|done].
  - intros e d' [Hc Hh]. split.
    + destruct Hc as [Hc|(b & m & -> & Hsto & Hm)]; [by left|right]. exists b, (mkChange m []). split; [done|].
      split; [by apply Hs|]. unfold may_become. by rewrite Hw.
    + intros Ht. destruct (Hh Ht) as [Hc' [->|(b & m & -> & Hn)]]; (split; [done|]); [by left|right].
      exists b, (mkChange m []). split; [done|]. unfold room. by rewrite Hw, <- Hs.
Qed.
End Implements.

Lemma relabel_Ok {T B C} (res : outcome io_error (B * T)) (g : B -> C) c m' :
  (let? (b, m) := res in Ok (g b, m)) = Ok (c, m') -> exists b, res = Ok (b, m').
Proof. destruct res as [[b m]|e|]; simpl; intros; simplify_eq. by exists b. Qed.

Section MetaOp.
Context {sb : Superblock} {v : list block} {m : metadata}.
Context (Hd : disk_holds sb v m) (Hsb : superblock_on_disk v = Ok sb) (Hm : metadata_sound m).
Context (o : meta_op) (Hok : meta_ok sb o).

Lemma meta_implements `{DeviceLaws D} h : implements sb v h (meta_spec o m) (fun r => r) (run_meta (D:=D) sb o).
Proof.
  destruct m as [[a inodes] entries].
  destruct o; simpl in *; unfold rename_overwrite_file_journaled, rename_overwrite_linked_file_journaled.
  - destruct desired as [[a' inodes'] entries'].
    refine (implements_bind h (Ok (tt, _)) (fun _ => tt) (fun _ => []) _ _ _ _); [done|].
    intros d Hst. by apply (wp_store_create_step Hd); [|apply Hok|].
  - eapply implements_bind; [|by apply (hard_link_implements Hd)]. done.
  - eapply implements_bind; [|by apply (hard_unlink_implements Hd)]. done.
  - destruct desired as [[a' inodes'] entries']. eapply implements_bind; [|by apply (unlink_implements Hd)]. done.
  - eapply implements_bind; [|by apply (rename_implements Hd)]. done.
  - destruct Hok. eapply implements_bind; [|by apply (exchange_implements Hd)]. done.
  - eapply implements_bind; [|by apply (overwrite_implements Hd)]. done.
  - eapply implements_bind; [|by apply (overwrite_implements Hd)]. done.
  - eapply implements_bind; [|by apply (truncate_zero_implements Hd)]. done.
  - eapply (implements_bind h (truncate_blocks (a, inodes, entries) x n) fst (fun r => r));
      [|by apply (truncate_blocks_implements Hd)]. by intros [].
  - eapply (implements_bind h (truncate_last (a, inodes, entries) x) fst (fun b => [b]));
      [|by apply (truncate_last_implements Hd)]. by intros [].
Qed.

(** Soundness is preserved. *)
Lemma meta_sound r m' : meta_spec o m = Ok (r, m') -> metadata_sound m'.
Proof.
  destruct m as [[a inodes] entries]. destruct (holds_typed Hd) as (Ha & Hi & _).
  pose proof (on_disk_ids Hd) as Hids. pose proof (of_ok _ _ Ha) as Haok.
  destruct o; cbn [meta_spec meta_ok] in *; intros Hr;
    try (apply relabel_Ok in Hr as [b Hr]).
  - simplify_eq. by destruct Hok.
  - by eapply (hard_link_sound (a, inodes, entries)).
  - by eapply (hard_unlink_sound (a, inodes, entries)).
  - destruct desired as [[a' inodes'] entries']. by eapply (unlink_sound (a, inodes, entries) (a', inodes', entries')).
  - by eapply (rename_sound (a, inodes, entries)).
  - by eapply (exchange_sound (a, inodes, entries)).
  - by eapply (overwrite_sound (a, inodes, entries)).
  - by eapply (overwrite_sound (a, inodes, entries)).
  - by eapply (truncate_zero_sound (a, inodes, entries)).
  - by eapply (truncate_blocks_sound (a, inodes, entries)).
  - by eapply (truncate_last_sound (a, inodes, entries)).
Qed.
End MetaOp.

(** The writes to existing blocks leave the metadata alone. *)
Section Same.
Context (sb : Superblock) (fs : file_system).

Lemma write_blocks_meta x writes u c : write_blocks_of sb fs x writes = Ok (u, c) -> ch_meta c = fs_meta fs.
Proof. unfold write_blocks_of. intros. by inv_ok. Qed.

Lemma write_block_meta x i y u c : write_block_of sb fs x i y = Ok (u, c) -> ch_meta c = fs_meta fs.
Proof. unfold write_block_of. intros. by inv_ok. Qed.

Lemma write_block_range_meta x i offset data u c :
  write_block_range_of sb fs x i offset data = Ok (u, c) -> ch_meta c = fs_meta fs.
Proof. unfold write_block_range_of. intros. by inv_ok. Qed.

Lemma write_range_meta x first start data u c :
  write_range_of sb fs x first start data = Ok (u, c) -> ch_meta c = fs_meta fs.
Proof. intros (ws & _ & H)%obind_Ok. by eapply write_blocks_meta. Qed.

Lemma copy_range_meta src dst len u c : copy_range_of sb fs src dst len = Ok (u, c) -> ch_meta c = fs_meta fs.
Proof. intros (out & _ & H)%obind_Ok. by eapply write_range_meta. Qed.

Lemma zero_range_meta x first start len u c :
  zero_range_of sb fs x first start len = Ok (u, c) -> ch_meta c = fs_meta fs.
Proof. intros (? & _ & (? & _ & H)%obind_Ok)%obind_Ok. by eapply write_range_meta. Qed.
End Same.

Section Op.
Context {sb : Superblock} {v : list block} {fs : file_system} (Hfs : fs_sound sb v fs).
Context (o : fs_op) (Hok : op_ok sb o).

Lemma sound_wf : fs_wf sb fs.
Proof. destruct Hfs as [Hd Hc _ Hm]. destruct fs as [m data]. simpl in *. subst data. by apply holds_wf. Qed.

Lemma op_implements `{DeviceLaws D} h : implements sb v h (op_spec sb o fs) (fun r => r) (run_op (D:=D) sb o).
Proof.
  destruct Hfs as [Hd Hc Hsb Hm]. pose proof sound_wf as Hwf. pose proof (holds_geometry _ _ _ Hd) as Hgeo.
  destruct fs as [[[a inodes] entries] data]. simpl in Hd, Hc, Hm. subst data.
  destruct o; cbn [op_spec run_op op_ok] in *.
  - by apply implements_lift, meta_implements.
  - apply (implements_read Hd h _ _ (fun r => r)); [by apply reads_file_block|].
    rewrite (read_of_file Hgeo Hwf) by done. pose proof (file_of_no_panic (sb:=sb) (fs:=mkFs (a, inodes, entries) (data_area sb v)) x).
    destruct (file_of _ _ x) as [bs|e|]; simpl; [|done..]. by destruct (bs !! _).
  - apply (implements_read Hd h _ _ (fun r => r)); [by apply reads_range|].
    eapply owp_no_panic, (read_range_of_spec Hgeo Hwf); lia.
  - destruct Hok. eapply implements_bind; [|by apply (write_block_implements Hd)]. done.
  - destruct Hok as (? & ? & ?). eapply implements_bind; [|by apply (write_block_range_implements Hd)]. done.
  - eapply implements_bind; [|by apply (write_blocks_implements Hd)]. done.
  - destruct Hok as (? & ? & ? & ?). eapply implements_bind; [|by apply (write_range_implements Hd)]. done.
  - destruct Hok as (? & ? & ? & ?). eapply implements_bind; [|by apply (copy_range_implements Hd)]. done.
  - destruct Hok as (? & ? & ? & ?). eapply implements_bind; [|by apply (zero_range_implements Hd)]. done.
  - eapply (implements_bind h (append_of _ x y) fst (fun b => [b])); [|by apply (append_implements Hd)]. by intros [].
  - eapply (implements_bind h (append_batch_of _ x ys) fst (fun b => b)); [|by apply (append_batch_implements Hd)]. by intros [].
  - destruct Hok. eapply (implements_bind h (insert_of _ x i y) fst (fun b => [b])); [|by apply (insert_implements Hd)]. by intros [].
Qed.

(** Soundness is preserved. *)
Lemma op_sound r c : op_spec sb o fs = Ok (r, c) -> metadata_sound (ch_meta c).
Proof.
  destruct Hfs as [Hd Hc Hsb Hm]. pose proof sound_wf as Hwf. pose proof (holds_geometry _ _ _ Hd) as Hgeo.
  destruct fs as [[[a inodes] entries] data]. simpl in Hd, Hc, Hm. subst data.
  destruct o; cbn [op_spec op_ok] in *; intros Hr;
    try (apply relabel_Ok in Hr as [b Hr]).
  - destruct (meta_spec _ _) as [[b m']|e|] eqn:Hms; simplify_eq/=. by eapply meta_sound.
  - apply obind_Ok in Hr as (y & _ & [= _ <-]). done.
  - apply obind_Ok in Hr as (y & _ & [= _ <-]). done.
  - by rewrite (write_block_meta _ _ _ _ _ _ _ Hr).
  - by rewrite (write_block_range_meta _ _ _ _ _ _ _ _ Hr).
  - by rewrite (write_blocks_meta _ _ _ _ _ _ Hr).
  - by rewrite (write_range_meta _ _ _ _ _ _ _ _ Hr).
  - by rewrite (copy_range_meta _ _ _ _ _ _ _ Hr).
  - by rewrite (zero_range_meta _ _ _ _ _ _ _ _ Hr).
  - pose proof (append_of_spec Hgeo Hwf x y Hok) as Hsp. rewrite Hr in Hsp. destruct Hsp as (old & _ & Hg). apply (fg_sound _ _ _ _ _ _ Hg).
  - pose proof (append_batch_of_spec Hgeo Hwf x ys Hok) as Hsp. rewrite Hr in Hsp. destruct Hsp as (old & _ & _ & _ & Hg). apply (fg_sound _ _ _ _ _ _ Hg).
  - pose proof (insert_of_spec Hgeo Hwf x i y (proj1 Hok) (proj2 Hok)) as Hsp. rewrite Hr in Hsp. destruct Hsp as (old & _ & _ & Hg). apply (fg_sound _ _ _ _ _ _ Hg).
Qed.
End Op.

(** ** Sound disks *)

Section Sound.
Context {sb : Superblock} {v : list block} {fs : file_system} (Hfs : fs_sound sb v fs).

Lemma fs_sound_same s : settled sb v s -> fs_sound sb s fs.
Proof.
  destruct Hfs as [[Hgeo Hv _ Hm] Hc Hsb Hs]. intros (Him & Hq & Hh).
  split; [split; [exact Hgeo|exact Him|exact Hq|]| | |exact Hs].
  - by rewrite <- (metadata_on_disk_proper sb Hgeo _ _ Hh).
  - rewrite Hc. by apply data_area_home.
  - by rewrite <- (superblock_on_disk_proper sb Hgeo _ _ Hh).
Qed.

Lemma fs_sound_changed c s : target_storable sb v c -> metadata_sound (ch_meta c) ->
  settled sb (apply_writes (target_writes sb v c) v) s -> fs_sound sb s (fs_apply sb fs c).
Proof.
  intros Hst Hs' (Him & Hq & Hh). destruct Hfs as [[Hgeo Hv _ Hm] Hc Hsb Hs].
  pose proof (change_home sb Hgeo v c Hst) as Hws. split; [split; [exact Hgeo|exact Him|exact Hq|]| | |exact Hs'].
  - rewrite <- (metadata_on_disk_proper sb Hgeo _ _ Hh). by apply metadata_change.
  - rewrite <- (data_area_home sb Hgeo _ _ Hh), data_area_change by done. simpl. by rewrite Hc.
  - rewrite <- (superblock_on_disk_proper sb Hgeo _ _ Hh). by rewrite (superblock_home_writes sb).
Qed.
End Sound.

(** ** One operation on a device that does not fail *)

Lemma healthy_outcome `{DeviceLaws D} {sb v fs} (Hfs : fs_sound sb v fs)
    {A B} (res : outcome io_error (B * fs_change)) (f : A -> B) (prog : M D A) d :
  implements sb v true res f prog -> (forall b c, res = Ok (b, c) -> metadata_sound (ch_meta c)) ->
  at_state true d v v ->
  wp prog
    (fun r d' => exists c, res = Ok (f r, c) /\ room sb v c /\ fs_sound sb (durable d') (fs_apply sb fs c))
    (fun e d' => durable d' = v /\ (res = Err e \/ exists b c, res = Ok (b, c) /\ ~ room sb v c)) d.
Proof.
  intros Himp Hsound Hst. eapply wp_mono; [by apply Himp|..]; simpl.
  - intros r d' (c & Hres & Hroom & s & Hst' & Hset). exists c. split; [done|]. split; [done|].
    apply at_state_crashed in Hst' as [_ ->]. eapply (fs_sound_changed Hfs); [apply Hroom|by eapply Hsound|done].
  - intros e d' [_ Hh]. by destruct (Hh eq_refl) as [[_ ->] Hwhy].
Qed.
