(* ===== verification/OperationOutcome.v ===== *)
(** * What every operation does

    [op_effect] describes the operations of [Operations] without their code:
    the metadata, the files and the result after an operation in terms of those
    before it.  On a sound disk an operation returns exactly when its effect is
    possible and its change fits into the journal, and then has the effect. *)

From S2P Require Import Prelude Bytes BTree Block CrashDevice Allocation Superblock Region AllocationDisk.
From S2P Require Import Journal JournalCodec JournalRegion Recovery TransactionImage.
From S2P Require Import TransactionPlan InodeCodec RecordTable InodeTable DirectoryCodec Inode.
From S2P Require Import DirectoryTable Atomicity CreateTx Format Namespace NamespaceEdit Fsck.
From S2P Require Import Transition LinkTx TruncateTx RenameTx UnlinkTx MetaEffects.
From S2P Require Import FileState FileData FileRange FileOps FileGrow Operations.

(** ** Effects *)

(** The metadata after an operation on it, and what the operation returns. *)
Definition meta_effect (o : meta_op) (m : metadata) (r : op_result) (m' : metadata) : Prop :=
  match o with
  | Create desired => r = [] /\ m' = desired
  | HardLink p n t => r = [] /\ link_effect p n t m m'
  | HardUnlink p n => r = [] /\ drop_link_effect p n m m'
  | Unlink desired => r = [] /\ unlink_effect desired m m'
  | Rename op on np nn => r = [] /\ rename_effect op on np nn m m'
  | Exchange p1 n1 p2 n2 => r = [] /\ exchange_effect p1 n1 p2 n2 m m'
  | Overwrite op on np nn => r = [] /\ overwrite_effect false op on np nn m m'
  | OverwriteLinked op on np nn => r = [] /\ overwrite_effect true op on np nn m m'
  | TruncateZero x => r = [] /\ exists released, truncate_effect x 0 released m m'
  | TruncateBlocks x n => truncate_effect x n r m m'
  | TruncateLast x => exists b n, r = [b] /\ truncate_effect x n [b] m m'
  end.

Section Effect.
Context (sb : Superblock) (fs : file_system).

(** File [x] has the blocks [new]; the other files and the metadata are as before. *)
Definition rewritten (x : Z) (new : list block) (fs' : file_system) : Prop :=
  fs_meta fs' = fs_meta fs /\ file_of sb fs' x = Ok new /\ forall y, y <> x -> file_of sb fs' y = file_of sb fs y.

(** The bytes [data] replace those at position [pos] of file [x]. *)
Definition bytes_replaced (x pos : Z) (flat data : bytes) (fs' : file_system) : Prop :=
  exists new, rewritten x new fs' /\ mjoin new = put flat pos data.

(** File [x] has the blocks [new], for which the free blocks [bs] were
    allocated; the other files, inodes and all entries are as before. *)
Definition grown (x : Z) (new : list block) (bs : list Z) (fs' : file_system) : Prop :=
  fresh (fs_meta fs).1.1 bs (fs_meta fs').1.1 /\
  (exists i inode l, (fs_meta fs).1.2 !! i = Some inode /\ id inode = x /\ kind inode = File /\
     l ≡ₚ blocks inode ++ bs /\ (fs_meta fs').1.2 = <[i := mkPersistedInode x File l]> (fs_meta fs).1.2) /\
  (fs_meta fs').2 = (fs_meta fs).2 /\
  file_of sb fs' x = Ok new /\ forall y, y <> x -> file_of sb fs' y = file_of sb fs y.

(** The [len] bytes from byte [start] of block [first] of a file on exist. *)
Definition names_range (x first start len : Z) (flat : bytes) : Prop :=
  start < BLOCK_SIZE /\ range_in_file sb fs x (first * BLOCK_SIZE + start) len flat.

(** The file system after an operation, and what the operation returns. *)
Definition op_effect (o : fs_op) (r : op_result) (fs' : file_system) : Prop :=
  match o with
  | Meta o => meta_effect o (fs_meta fs) r (fs_meta fs') /\ fs_data fs' = fs_data fs
  | ReadBlock x i => fs' = fs /\ exists bs, file_of sb fs x = Ok bs /\ bs !! Z.to_nat i = Some r
  | ReadRange x first start len => fs' = fs /\
      exists flat, names_range x first start len flat /\ r = sub flat (first * BLOCK_SIZE + start) len
  | WriteBlock x i y => r = [] /\
      exists bs, file_of sb fs x = Ok bs /\ i < zlen bs /\ rewritten x (<[Z.to_nat i := y]> bs) fs'
  | WriteBlockRange x i offset data => r = [] /\ offset + zlen data <= BLOCK_SIZE /\
      exists flat, range_in_file sb fs x (i * BLOCK_SIZE + offset) (zlen data) flat /\
        bytes_replaced x (i * BLOCK_SIZE + offset) flat data fs'
  | WriteBlocks x writes => r = [] /\ writes <> [] /\
      exists bs, file_of sb fs x = Ok bs /\ NoDup writes.*1 /\ Forall (fun w => w.1 < zlen bs) writes /\
        rewritten x (put_blocks bs writes) fs'
  | WriteRange x first start data => r = [] /\
      exists flat, names_range x first start (zlen data) flat /\
        bytes_replaced x (first * BLOCK_SIZE + start) flat data fs'
  | CopyRange src dst len => r = [] /\
      exists from to, names_range (ep_inode src) (ep_first_block src) (ep_offset src) len from /\
        names_range (ep_inode dst) (ep_first_block dst) (ep_offset dst) len to /\
        bytes_replaced (ep_inode dst) (endpoint_pos dst) to (sub from (endpoint_pos src) len) fs'
  | ZeroRange x first start len => r = [] /\
      exists flat, names_range x first start len flat /\
        bytes_replaced x (first * BLOCK_SIZE + start) flat (zeros len) fs'
  | AppendBlock x y => exists old b, file_of sb fs x = Ok old /\ r = [b] /\ grown x (old ++ [y]) [b] fs'
  | AppendBlocks x ys => ys <> [] /\ length r = length ys /\
      exists old, file_of sb fs x = Ok old /\ grown x (old ++ ys) r fs'
  | InsertBlock x i y => exists old b, file_of sb fs x = Ok old /\ i <= zlen old /\ r = [b] /\
      grown x (take (Z.to_nat i) old ++ [y] ++ drop (Z.to_nat i) old) [b] fs'
  end.
End Effect.

(** ** The specifications have these effects *)

Section Quiet.
Context {X : Type} (res : outcome io_error (unit * X)) (P : X -> Prop).

Lemma exact_quiet : exact_for res (fun r => P r.2) ->
  exact_for (let? (_, x) := res in Ok ([] : op_result, x)) (fun r => r.1 = [] /\ P r.2).
Proof. unfold exact_for. destruct res as [[u x]|e|]; simpl; [done| |done]. intros Hn [[r x] [_ Hx]]. apply Hn. by exists (tt, x). Qed.
End Quiet.

Lemma meta_spec_exact sb o m : meta_facts m -> meta_ok sb o -> exact_for (meta_spec o m) (fun r => meta_effect o m r.1 r.2).
Proof.
  destruct m as [[a inodes] entries]. intros Hm Hok. destruct o; cbn [meta_spec meta_effect meta_ok] in *.
  - done.
  - by apply (exact_quiet (hard_link _ p n t) (link_effect p n t _)), hard_link_exact.
  - by apply (exact_quiet (hard_unlink _ p n) (drop_link_effect p n _)), hard_unlink_exact.
  - apply (exact_quiet (unlink _ desired) (unlink_effect desired _)), unlink_effect_exact; [done|].
    by destruct desired as [[] ].
  - by apply (exact_quiet (rename _ op on np nn) (rename_effect op on np nn _)), rename_effect_exact.
  - destruct Hok. by apply (exact_quiet (exchange _ p1 n1 p2 n2) (exchange_effect p1 n1 p2 n2 _)), exchange_exact.
  - by apply (exact_quiet (overwrite _ op on np nn false) (overwrite_effect false op on np nn _)), overwrite_exact.
  - by apply (exact_quiet (overwrite _ op on np nn true) (overwrite_effect true op on np nn _)), overwrite_exact.
  - by apply (exact_quiet (truncate_zero _ x) (fun m' => exists released, truncate_effect x 0 released _ m')), truncate_zero_exact.
  - pose proof (truncate_blocks_exact a inodes entries Hm x n Hok) as Hx. unfold exact_for in *.
    by destruct (truncate_blocks _ x n) as [[]|e|].
  - pose proof (truncate_last_exact a inodes entries Hm x) as Hx. unfold exact_for in *.
    destruct (truncate_last _ x) as [[b m']|e|]; simpl in *; [|intros ([r m'] & b & n & _ & He); apply Hx; by exists (b, m'), n|done].
    destruct Hx as [n Hx]. by exists b, n.
Qed.

Lemma written_rewritten sb fs x new c : file_written sb fs x new c -> rewritten sb fs x new (fs_apply sb fs c).
Proof. by intros [? _ ? ?]. Qed.

Lemma grown_change sb fs x new bs c : file_grown sb fs x new bs c -> grown sb fs x new bs (fs_apply sb fs c).
Proof. by intros [_ _ ? ? ? _ ? ?]. Qed.

(** An effect that allocates needs free blocks. *)
Lemma grown_free sb fs x new bs fs' : grown sb fs x new bs fs' -> zlen bs <= Z.of_nat (size (free_blocks (fs_meta fs).1.1)).
Proof. intros (Hf & _). by eapply fresh_size. Qed.

Lemma grown_free_one sb fs x new b fs' : grown sb fs x new [b] fs' -> free_blocks (fs_meta fs).1.1 <> ∅.
Proof. intros Hg%grown_free Heq. by rewrite Heq, size_empty in Hg. Qed.

(** A specification is refused exactly when the operation has no effect. *)
Definition spec_exact (sb : Superblock) (fs : file_system) (o : fs_op) (res : outcome io_error (op_result * fs_change)) : Prop :=
  owp res (fun r => op_effect sb fs o r.1 (fs_apply sb fs r.2)) (fun _ => ~ exists r fs', op_effect sb fs o r fs').

Lemma spec_exact_quiet sb fs o (res : outcome io_error (unit * fs_change)) :
  owp res (fun r => op_effect sb fs o [] (fs_apply sb fs r.2)) (fun _ => ~ exists r fs', op_effect sb fs o r fs') ->
  spec_exact sb fs o (let? (_, c) := res in Ok ([], c)).
Proof. unfold spec_exact. by destruct res as [[[] c]|e|]. Qed.

Lemma fs_apply_nothing sb fs : fs_apply sb fs (mkChange (fs_meta fs) []) = fs.
Proof. by destruct fs. Qed.

Section Exact.
Context (sb : Superblock) (fs : file_system) (Hgeo : geometry sb) (Hwf : fs_wf sb fs).

Lemma read_block_effect x i : 0 <= i -> spec_exact sb fs (ReadBlock x i) (op_spec sb (ReadBlock x i) fs).
Proof using Hgeo Hwf.
  intros Hi. cbn [op_spec]. rewrite (read_of_file Hgeo Hwf) by done. pose proof (file_of_no_panic (sb:=sb) (fs:=fs) x) as Hp.
  unfold spec_exact. cbn [op_effect]. destruct (file_of sb fs x) as [bs|e|]; simpl; [|naive_solver|done].
  destruct (bs !! Z.to_nat i) as [y|] eqn:Hy; simpl.
  - rewrite fs_apply_nothing. split; [done|]. by exists bs.
  - intros (r & fs' & _ & bs' & [= <-] & Hr). by pose proof (eq_trans (eq_sym Hy) Hr).
Qed.

Lemma read_range_effect x first start len : 0 <= first <= u64_max -> 0 <= start -> 0 <= len <= isize_max ->
  spec_exact sb fs (ReadRange x first start len) (op_spec sb (ReadRange x first start len) fs).
Proof using Hgeo Hwf.
  intros [Hf0 Hf] Hs Hl. cbn [op_spec]. unfold spec_exact. apply owp_bind.
  eapply owp_mono; [by apply (read_range_of_spec Hgeo Hwf)|..]; cbn [op_effect owp fst snd].
  - intros out (Hlt & flat & Hin & ->). rewrite fs_apply_nothing. split; [done|]. by exists flat.
  - intros _ Hn (r & fs' & _ & flat & [Hlt Hin] & _). apply Hn. split; [done|]. by exists flat.
Qed.

Lemma write_block_effect x i y : 0 <= i -> block_ok y ->
  spec_exact sb fs (WriteBlock x i y) (op_spec sb (WriteBlock x i y) fs).
Proof using Hgeo Hwf.
  intros Hi Hy. apply spec_exact_quiet. eapply owp_mono; [by apply (write_block_of_spec Hgeo Hwf)|..]; cbn [op_effect].
  - intros r (bs & Hbs & Hlt & Hw). split; [done|]. exists bs. split_and!; try done. by apply written_rewritten.
  - intros _ Hn (r & fs' & _ & bs & Hbs & Hlt & _). apply Hn. by exists bs.
Qed.

Lemma write_block_range_effect x i offset data : 0 <= i -> 0 <= offset -> Forall is_byte data ->
  spec_exact sb fs (WriteBlockRange x i offset data) (op_spec sb (WriteBlockRange x i offset data) fs).
Proof using Hgeo Hwf.
  intros Hi Ho Hd. apply spec_exact_quiet. eapply owp_mono; [by apply (write_block_range_of_spec Hgeo Hwf)|..]; cbn [op_effect].
  - intros r (flat & new & Hin & Hle & Hw & Hnew). split_and!; try done. exists flat. split; [done|]. exists new.
    split; [by apply written_rewritten|done].
  - intros _ Hn (r & fs' & _ & Hle & flat & Hin & _). apply Hn. split; [done|]. by exists flat.
Qed.

Lemma write_blocks_effect x writes : Forall (fun w => 0 <= w.1 /\ block_ok w.2) writes ->
  spec_exact sb fs (WriteBlocks x writes) (op_spec sb (WriteBlocks x writes) fs).
Proof using Hgeo Hwf.
  intros Hws. apply spec_exact_quiet. apply owp_bind.
  eapply owp_mono; [by apply (changed_of_spec Hgeo Hwf)|..]; cbn [op_effect owp snd].
  - intros changed (Hne & bs & Hbs & Hnd & Hall & Hw). split_and!; try done. exists bs. split_and!; try done.
    by apply written_rewritten.
  - intros _ Hn (r & fs' & _ & Hne & bs & Hbs & Hnd & Hall & _). apply Hn. split; [done|]. by exists bs.
Qed.

Lemma write_range_effect x first start data :
  0 <= first <= u64_max -> 0 <= start -> Forall is_byte data -> 2 * zlen data <= isize_max ->
  spec_exact sb fs (WriteRange x first start data) (op_spec sb (WriteRange x first start data) fs).
Proof using Hgeo Hwf.
  intros Hf Hs Hd Hc. apply spec_exact_quiet. eapply owp_mono; [by apply (write_range_of_spec Hgeo Hwf)|..]; cbn [op_effect].
  - intros r (Hlt & flat & new & Hin & Hw & Hnew). split; [done|]. exists flat. split; [done|]. exists new.
    split; [by apply written_rewritten|done].
  - intros _ Hn (r & fs' & _ & flat & [Hlt Hin] & _). apply Hn. split; [done|]. by exists flat.
Qed.

Lemma copy_range_effect src dst len : endpoint_ok src -> endpoint_ok dst -> 0 <= len -> 2 * len <= isize_max ->
  spec_exact sb fs (CopyRange src dst len) (op_spec sb (CopyRange src dst len) fs).
Proof using Hgeo Hwf.
  intros Hs Hd H0 Hl. apply spec_exact_quiet. eapply owp_mono; [by apply (copy_range_of_spec Hgeo Hwf)|..]; cbn [op_effect].
  - intros r (from & to & new & Hfrom & Hto & Hw & Hnew). split; [done|]. exists from, to. split; [done|]. split; [done|].
    exists new. split; [by apply written_rewritten|done].
  - intros _ Hn (r & fs' & _ & from & to & Hfrom & Hto & _). apply Hn. by exists from, to.
Qed.

Lemma zero_range_effect x first start len : 0 <= first <= u64_max -> 0 <= start -> 0 <= len -> 2 * len <= isize_max ->
  spec_exact sb fs (ZeroRange x first start len) (op_spec sb (ZeroRange x first start len) fs).
Proof using Hgeo Hwf.
  intros Hf Hs H0 Hl. apply spec_exact_quiet. eapply owp_mono; [by apply (zero_range_of_spec Hgeo Hwf)|..]; cbn [op_effect].
  - intros r (Hlt & flat & new & Hin & Hw & Hnew). split; [done|]. exists flat. split; [done|]. exists new.
    split; [by apply written_rewritten|done].
  - intros _ Hn (r & fs' & _ & flat & [Hlt Hin] & _). apply Hn. split; [done|]. by exists flat.
Qed.

Lemma append_effect x y : block_ok y -> spec_exact sb fs (AppendBlock x y) (op_spec sb (AppendBlock x y) fs).
Proof using Hgeo Hwf.
  intros Hy. pose proof Hwf as Hwf'. destruct fs as [[[a inodes] entries] data]. cbn [op_spec]. unfold spec_exact. apply owp_bind.
  eapply owp_mono; [by apply (append_of_spec Hgeo Hwf' x y)|..]; cbn [op_effect].
  - intros [b c] (old & Hold & Hg). cbn [owp fst snd] in *. exists old, b. split_and!; try done. by apply grown_change.
  - intros _ Hn (r & fs' & old & b & Hold & _ & Hg). apply Hn. split; [by exists old|]. apply (grown_free_one _ _ _ _ _ _ Hg).
Qed.

Lemma append_batch_effect x ys : Forall block_ok ys -> spec_exact sb fs (AppendBlocks x ys) (op_spec sb (AppendBlocks x ys) fs).
Proof using Hgeo Hwf.
  intros Hys. pose proof Hwf as Hwf'. destruct fs as [[[a inodes] entries] data]. cbn [op_spec]. unfold spec_exact. apply owp_bind.
  eapply owp_mono; [by apply (append_batch_of_spec Hgeo Hwf' x ys)|..]; cbn [op_effect].
  - intros [bs c] (old & Hold & Hne & Hlen & Hg). cbn [owp fst snd] in *. split_and!; try done. exists old.
    split; [done|]. by apply grown_change.
  - intros _ Hn (r & fs' & Hne & Hlen & old & Hold & Hg). apply Hn. split_and!; [done|by exists old|].
    apply grown_free in Hg. unfold zlen in *. rewrite Hlen in Hg. done.
Qed.

Lemma insert_effect x i y : 0 <= i -> block_ok y -> spec_exact sb fs (InsertBlock x i y) (op_spec sb (InsertBlock x i y) fs).
Proof using Hgeo Hwf.
  intros Hi Hy. pose proof Hwf as Hwf'. destruct fs as [[[a inodes] entries] data]. cbn [op_spec]. unfold spec_exact. apply owp_bind.
  eapply owp_mono; [by apply (insert_of_spec Hgeo Hwf' x i y)|..]; cbn [op_effect].
  - intros [b c] (old & Hold & Hle & Hg). cbn [owp fst snd] in *. exists old, b. split_and!; try done. by apply grown_change.
  - intros _ Hn (r & fs' & old & b & Hold & Hle & _ & Hg). apply Hn. split; [by exists old|]. apply (grown_free_one _ _ _ _ _ _ Hg).
Qed.
End Exact.

Lemma op_spec_exact sb v fs o : fs_sound sb v fs -> op_ok sb o -> spec_exact sb fs o (op_spec sb o fs).
Proof.
  intros Hfs Hok. pose proof (sound_wf Hfs) as Hwf. destruct Hfs as [Hd _ _ Hm]. pose proof (holds_geometry _ _ _ Hd) as Hgeo.
  destruct o; cbn [op_ok] in Hok; destruct_and?;
    [|by first [apply read_block_effect|apply read_range_effect|apply write_block_effect|apply write_block_range_effect
      |apply write_blocks_effect|apply write_range_effect|apply copy_range_effect|apply zero_range_effect
      |apply append_effect|apply append_batch_effect|apply insert_effect]..].
  pose proof (meta_spec_exact sb o (fs_meta fs) (holds_facts sb v _ Hd Hm) Hok) as Hx. unfold exact_for, spec_exact in *.
  cbn [op_spec op_effect]. destruct (meta_spec o (fs_meta fs)) as [[r m']|e|]; cbn [obind owp fst snd] in *; [done| |done].
  intros (r & fs' & He & _). apply Hx. by exists (r, fs_meta fs').
Qed.

(** ** One operation on a device that does not fail *)

(** C2: On a sound disk whose device does not fail, every operation has exactly
    its effect.  It returns if and only if the effect is possible and the change
    can be encoded and logged; then the durable disk is sound and holds the
    metadata and the file contents after the effect, and the result is the
    effect's.  Otherwise it fails, and the durable disk is unchanged: either
    nothing has the effect, and the error is the specification's, or the change
    has no room.  The arguments have their Rust types; the metadata given to
    [Create] is sound, which [store_create_metadata_journaled] does not check;
    and a range that is read has at most [isize::MAX] bytes, one that is
    written, copied or zeroed at most half of that.  Under these limits no
    operation panics; [range_length_overflow] shows what happens beyond them. *)
Theorem operation_outcome `{DeviceLaws D} sb v fs o (d : D) :
  fs_sound sb v fs -> op_ok sb o -> at_state true d v v ->
  match (run_op sb o d).1 with
  | Ok r => exists c, op_spec sb o fs = Ok (r, c) /\ room sb v c /\
      op_effect sb fs o r (fs_apply sb fs c) /\ fs_sound sb (durable (run_op sb o d).2) (fs_apply sb fs c)
  | Err e => durable (run_op sb o d).2 = v /\
      (op_spec sb o fs = Err e /\ (~ exists r fs', op_effect sb fs o r fs') \/
       exists r c, op_spec sb o fs = Ok (r, c) /\ op_effect sb fs o r (fs_apply sb fs c) /\ ~ room sb v c)
  | Panic => False
  end.
Proof.
  intros Hfs Hok Hst. pose proof (op_spec_exact sb v fs o Hfs Hok) as Hx. unfold spec_exact in Hx.
  pose proof (healthy_outcome Hfs _ _ _ d (op_implements Hfs o Hok true) (op_sound Hfs o Hok) Hst) as Hwp.
  unfold wp in Hwp. destruct (run_op sb o d) as [[r|e|] d']; simpl in *; [| |done].
  - destruct Hwp as (c & Hs & Hr & Hf). rewrite Hs in Hx. exists c. by split_and!.
  - destruct Hwp as [Hv [Hs|(r & c & Hs & Hn)]]; (split; [done|]); rewrite Hs in Hx; [by left|right]. by exists r, c.
Qed.
