(* ===== verification/Lifecycle.v ===== *)
(** * The life of a file system

    The operations of [Operations] run on the crashing device of
    [tests/support/crash_device.rs]: each may be interrupted anywhere, recovery
    may be interrupted any number of times, and then the next operation starts.
    Metadata and file contents follow the pure functions of the operations, and
    [check_device] passes after every recovery. *)

From S2P Require Import Prelude Bytes BTree Block CrashDevice Allocation Superblock Region AllocationDisk.
From S2P Require Import Journal JournalCodec JournalRegion Recovery TransactionImage.
From S2P Require Import TransactionPlan InodeCodec RecordTable InodeTable DirectoryCodec Inode.
From S2P Require Import DirectoryTable Atomicity CreateTx Format Namespace NamespaceEdit Fsck.
From S2P Require Import Transition FileState FileData Operations.

(** ** Checking a sound disk *)

(** What [check_device] reports of a disk with an empty journal. *)
Definition metadata_report (sb : Superblock) (m : metadata) : FsckReport :=
  let '(a, inodes, entries) := m in fsck_report sb a inodes entries [].

Section Check.
Context {sb : Superblock} {v : list block} {fs : file_system} (Hfs : fs_sound sb v fs).

Lemma fs_sound_check d : at_state true d v v -> journal_on_disk sb v = Ok [] ->
  (check_device d).1 = Ok (metadata_report sb (fs_meta fs)).
Proof.
  destruct Hfs as [[Hgeo Hv _ Hm] _ Hsb Hs], (fs_meta fs) as [[a inodes] entries], Hs. intros Hst Hj.
  eapply (check_settled sb Hgeo); try done; apply Hv.
Qed.
End Check.

(** ** One interrupted operation *)

Section Interrupted.
Context {sb : Superblock} {v : list block} {fs : file_system} (Hfs : fs_sound sb v fs).
Context {A B : Type} (res : outcome io_error (B * fs_change)) (f : A -> B) (prog : M CrashDevice A).
Context (Himp : implements sb v false res f prog).
Context (Hsound : forall b c, res = Ok (b, c) -> metadata_sound (ch_meta c)).

(** What recovery finds once [prog] has replied with [reply]. *)
Definition resolved (reply : outcome io_error A) (fs' : file_system) : Prop :=
  match reply with
  | Ok x => exists c, res = Ok (f x, c) /\ fs' = fs_apply sb fs c
  | Err _ => fs' = fs \/ exists b c, res = Ok (b, c) /\ fs' = fs_apply sb fs c
  | Panic => False
  end.

Lemma recovered_to reply c arms d s :
  target_storable sb v c -> metadata_sound (ch_meta c) -> crashed d s -> recoverable sb v (target_writes sb v c) s ->
  resolved reply (fs_apply sb fs c) -> resolved reply fs ->
  exists rep d', recover_journal_and_checkpoint sb (reboot (restarts sb arms d)) = (Ok rep, d') /\
    exists s fs', at_state true d' s s /\ journal_on_disk sb s = Ok [] /\ fs_sound sb s fs' /\ resolved reply fs'.
Proof.
  intros Hsto Hm' Hc Hr H1 H2. destruct (fs_holds _ _ _ Hfs) as [Hgeo Hv _ _].
  destruct (recover_after_restarts sb Hgeo v _ arms d s Hv (change_home sb Hgeo v c Hsto) Hc Hr)
    as (rep & d' & Hrec & s' & Hst & Hj & [Hset|Hset]); exists rep, d'; (split; [exact Hrec|]).
  - exists s', fs. split; [done|]. split; [done|]. split; [by apply (fs_sound_same Hfs)|done].
  - exists s', (fs_apply sb fs c). split; [done|]. split; [done|]. split; [by apply (fs_sound_changed Hfs)|done].
Qed.

(** Recovery from a state that is already settled. *)
Lemma recovered_settled (s : list block) fs' arms (d : CrashDevice) :
  fs_sound sb s fs' -> crashed d s ->
  exists rep d', recover_journal_and_checkpoint sb (reboot (restarts sb arms d)) = (Ok rep, d') /\
    exists s', at_state true d' s' s' /\ journal_on_disk sb s' = Ok [] /\ fs_sound sb s' fs'.
Proof.
  intros Hs Hc. destruct (fs_holds _ _ _ Hs) as [Hgeo Hv Hq _].
  destruct (recover_after_restarts sb Hgeo s [] arms d s Hv ltac:(constructor) Hc)
    as (rep & d' & Hrec & s' & Hst & Hj & Hset); [by left|].
  exists rep, d'. split; [exact Hrec|]. exists s'. split; [done|]. split; [done|].
  apply (fs_sound_same Hs). by destruct Hset.
Qed.

Lemma interrupted arms d : at_state false d v v ->
  exists rep d', recover_journal_and_checkpoint sb (reboot (restarts sb arms (prog d).2)) = (Ok rep, d') /\
    exists s fs', at_state true d' s s /\ journal_on_disk sb s = Ok [] /\ fs_sound sb s fs' /\ resolved (prog d).1 fs'.
Proof.
  intros Hst. pose proof (Himp d Hst) as Hwp. unfold wp in Hwp.
  destruct (prog d) as [[x|e|] d1]; simpl in *; [| |done].
  - destruct Hwp as (c & Hres & [Hsto _] & s & Hst' & Hset).
    pose proof (fs_sound_changed Hfs c s Hsto (Hsound _ _ Hres) Hset) as Hfs'.
    destruct (recovered_settled s _ arms d1 Hfs' (at_state_crashed _ _ _ _ Hst'))
      as (rep & d' & Hrec & s' & Hst'' & Hj & Hs'). exists rep, d'. split; [exact Hrec|].
    exists s', (fs_apply sb fs c). eauto 10.
  - destruct Hwp as [[Hc|(b & c & Hres & Hsto & s & Hc & Hr)] _].
    + destruct (recovered_settled v fs arms d1 Hfs Hc) as (rep & d' & Hrec & s' & Hst'' & Hj & Hs').
      exists rep, d'. split; [exact Hrec|]. exists s', fs. auto.
    + apply (recovered_to (Err e) c arms d1 s Hsto (Hsound _ _ Hres) Hc Hr); [right; by exists b, c|by left].
Qed.
End Interrupted.

(** ** A life: operations, crashes and recoveries *)

Record attempt := mkAttempt {
  at_op : fs_op;
  at_crash : option Z;           (* the device operation the power fails at *)
  at_restarts : list (option Z); (* where the recoveries that follow are interrupted *)
}.

(** What the caller of one attempt sees. *)
Record reply := mkReply {
  re_op : fs_op;
  re_result : outcome io_error op_result;
  re_recovery : outcome io_error RecoveryReport;
}.

Definition session (sb : Superblock) (t : attempt) (d : CrashDevice) : reply * CrashDevice :=
  let '(r, d1) := run_op sb (at_op t) (arm (at_crash t) d) in
  let '(rec, d2) := recover_journal_and_checkpoint sb (reboot (restarts sb (at_restarts t) d1)) in
  (mkReply (at_op t) r rec, d2).

Fixpoint life (sb : Superblock) (ts : list attempt) (d : CrashDevice) : list reply * CrashDevice :=
  match ts with
  | [] => ([], d)
  | t :: ts =>
      let '(r, d1) := session sb t d in
      let '(rs, d2) := life sb ts d1 in
      (r :: rs, d2)
  end.

(** How the file system may develop: an operation that returned was done; one
    that failed was done or not done. *)
Inductive follows (sb : Superblock) : file_system -> list reply -> file_system -> Prop :=
  | follows_nil fs : follows sb fs [] fs
  | follows_done fs o r rep c rs fs' :
      op_spec sb o fs = Ok (r, c) -> follows sb (fs_apply sb fs c) rs fs' ->
      follows sb fs (mkReply o (Ok r) (Ok rep) :: rs) fs'
  | follows_committed fs o r e rep c rs fs' :
      op_spec sb o fs = Ok (r, c) -> follows sb (fs_apply sb fs c) rs fs' ->
      follows sb fs (mkReply o (Err e) (Ok rep) :: rs) fs'
  | follows_aborted fs o e rep rs fs' :
      follows sb fs rs fs' -> follows sb fs (mkReply o (Err e) (Ok rep) :: rs) fs'.

Lemma follows_step sb fs o result rep fs1 rs fs2 :
  resolved (sb:=sb) (fs:=fs) (op_spec sb o fs) (fun r => r) result fs1 -> follows sb fs1 rs fs2 ->
  follows sb fs (mkReply o result (Ok rep) :: rs) fs2.
Proof.
  destruct result as [r|e|]; simpl; [| |done].
  - intros (c & Hr & ->) Hf. by eapply follows_done.
  - intros [->|(b & c & Hb & ->)] Hf; [by apply follows_aborted|by eapply follows_committed].
Qed.

Lemma session_step sb v fs t d :
  fs_sound sb v fs -> at_state true d v v -> op_ok sb (at_op t) ->
  exists result rep d', session sb t d = (mkReply (at_op t) result (Ok rep), d') /\
    exists s fs', at_state true d' s s /\ journal_on_disk sb s = Ok [] /\ fs_sound sb s fs' /\
      resolved (sb:=sb) (fs:=fs) (op_spec sb (at_op t) fs) (fun r => r) result fs'.
Proof.
  intros Hfs Hst Hok. apply (arm_state (at_crash t)) in Hst.
  destruct (interrupted Hfs _ _ _ (op_implements Hfs (at_op t) Hok false) (op_sound Hfs (at_op t) Hok)
    (at_restarts t) _ Hst) as (rep & d' & Hrec & Hrest). unfold session.
  destruct (run_op sb (at_op t) (arm (at_crash t) d)) as [r d1]. simpl in *. rewrite Hrec.
  by exists r, rep, d'.
Qed.

(** C1: Crash safety of the whole life of a file system.  Start from a sound
    disk with nothing left to recover and run any sequence of operations:
    create, link, unlink, rename, exchange, overwrite and truncate, and reads,
    writes, copies, appends and inserts of file contents, each interrupted at
    any device operation or not at all, each followed by any number of
    interrupted recoveries and one that is not.  The metadata given to a create
    has to be sound, which [store_create_metadata_journaled] does not check, and
    byte ranges have at most half of [isize::MAX] bytes.  No step panics and every
    uninterrupted recovery succeeds; metadata and file contents on the disk are
    what the operations' specifications give when every operation that returned
    is done, with the value it returned, and every operation that failed is
    done or not done; the disk is sound again, and [check_device] passes and
    reports exactly this metadata and an empty journal. *)
Theorem lifecycle_crash_safe sb v fs ts d :
  fs_sound sb v fs -> at_state true d v v -> Forall (fun t => op_ok sb (at_op t)) ts ->
  exists fs' s, follows sb fs (life sb ts d).1 fs' /\ at_state true (life sb ts d).2 s s /\ fs_sound sb s fs' /\
    (ts <> [] -> (check_device (life sb ts d).2).1 = Ok (metadata_report sb (fs_meta fs'))).
Proof.
  intros Hfs Hst Hts. revert v fs d Hfs Hst. induction Hts as [|t ts Hok Hts IH]; intros v fs d Hfs Hst.
  { exists fs, v. split; [constructor|]. by split_and!. }
  destruct (session_step sb v fs t d Hfs Hst Hok) as (result & rep & d1 & Hses & s & fs1 & Hst1 & Hj & Hfs1 & Hres).
  destruct (IH s fs1 d1 Hfs1 Hst1) as (fs' & s' & Hf & Hst' & Hfs' & Hchk). simpl. rewrite Hses.
  destruct (life sb ts d1) as [rs d2] eqn:Hlife. simpl in *. exists fs', s'.
  split; [by eapply follows_step|]. split; [done|]. split; [done|]. intros _.
  destruct ts as [|t' ts]; [|by apply Hchk]. simpl in Hlife. simplify_eq.
  inversion Hf; subst. by apply (fs_sound_check Hfs1).
Qed.
