(* ===== verification/FileContents.v ===== *)
(** * File contents on the disk

    What the byte-range operations do to the files of a disk image, seen
    through the image alone: [file_on_disk] decodes the metadata regions and
    collects the data blocks of a file. *)

From S2P Require Import Prelude Bytes Block CrashDevice Allocation Superblock Region AllocationDisk.
From S2P Require Import Journal JournalCodec JournalRegion Recovery TransactionImage.
From S2P Require Import TransactionPlan InodeCodec RecordTable InodeTable DirectoryCodec Inode.
From S2P Require Import DirectoryTable Atomicity CreateTx Format Namespace NamespaceEdit Fsck.
From S2P Require Import Transition FileState FileData FileRange FileOps Operations Lifecycle.

(** The bytes of file [x] on the disk [v]. *)
Definition file_on_disk (sb : Superblock) (v : list block) (x : Z) : outcome io_error bytes :=
  let? m := metadata_on_disk sb v in file_bytes sb (mkFs m (data_area sb v)) x.

(** A sound disk, with nothing left to recover. *)
Definition sound_disk (sb : Superblock) (v : list block) : Prop := exists fs, fs_sound sb v fs.

(** The operation names [len] bytes of file [x], from byte [start] of its block
    [first] on, which exist. *)
Definition range_on_disk (sb : Superblock) (v : list block) (x first start len : Z) (flat : bytes) : Prop :=
  file_on_disk sb v x = Ok flat /\ start < BLOCK_SIZE /\ 0 < len /\ first * BLOCK_SIZE + start + len <= zlen flat.

(** The journal cannot take the [n] blocks that a range of [len] bytes spans. *)
Definition spans_too_much (sb : Superblock) (start len : Z) : Prop :=
  journal_blocks sb * BLOCK_SIZE < 96 + 4128 * div_ceil (start + len) BLOCK_SIZE.

Section Contents.
Context {sb : Superblock} {v : list block} {fs : file_system} (Hfs : fs_sound sb v fs).

Lemma file_on_disk_sound x : file_on_disk sb v x = file_bytes sb fs x.
Proof.
  destruct Hfs as [[_ _ _ Hm] Hc _ _], fs as [m data]. simpl in *. subst data. unfold file_on_disk. by rewrite Hm.
Qed.

Lemma range_on_disk_sound x first start len flat :
  range_on_disk sb v x first start len flat <->
  start < BLOCK_SIZE /\ range_in_file sb fs x (first * BLOCK_SIZE + start) len flat.
Proof. unfold range_on_disk, range_in_file. rewrite file_on_disk_sound. tauto. Qed.
End Contents.

(** ** How many blocks a range write changes *)

Lemma ofold_length {E A B} (f : B -> A -> outcome E B) (size : B -> Z) (k : Z) l : forall acc r,
  (forall acc x acc', x ∈ l -> f acc x = Ok acc' -> size acc' <= size acc + k) ->
  ofold f acc l = Ok r -> size r <= size acc + k * zlen l.
Proof.
  induction l as [|x l IH]; intros acc r Hf Hr; simpl in Hr.
  { simplify_eq. rewrite zlen_nil. lia. }
  apply obind_Ok in Hr as (acc' & Hx & Hr). apply IH in Hr; [|intros; eapply Hf; [by right|done]].
  specialize (Hf acc x acc' ltac:(by left) Hx). rewrite zlen_cons. lia.
Qed.

Lemma changed_of_length sb fs x writes changed : changed_of sb fs x writes = Ok changed -> zlen changed <= zlen writes.
Proof.
  unfold changed_of. intros H. inv_ok.
  match goal with E : ofold _ _ writes = Ok _ |- _ => apply (ofold_length _ (fun r => zlen r.2) 1) in E end.
  - case_match. simplify_eq/=. rewrite zlen_nil in *. lia.
  - intros [seen ch] [i y] [seen' ch'] _ Hs. unfold overwrite_step_of in Hs. inv_ok. simplify_eq/=.
    destruct (bool_decide (_ = y)); rewrite ?zlen_app, ?zlen_cons, ?zlen_nil; lia.
Qed.

Lemma range_writes_length sb fs x first start data ws : 0 <= start ->
  range_writes_of sb fs x first start data = Ok ws -> zlen ws <= div_ceil (start + zlen data) BLOCK_SIZE.
Proof.
  unfold range_writes_of. intros Hs H. inv_ok.
  match goal with E : checked_add _ _ = Some _ |- _ => apply checked_add_Some in E as [-> _] end.
  match goal with E : ofold _ _ _ = Ok _ |- _ => apply (ofold_length _ (fun r => zlen r.2) 1) in E end.
  - case_match. simplify_eq/=. pose proof (zlen_nonneg data). rewrite zlen_nil, zlen_zrange in *; [lia|].
    unfold div_ceil. apply Z.div_pos; ulia.
  - intros [n ch] k [n' ch'] _ Hstep. unfold write_range_step_of in Hstep. inv_ok. simplify_eq/=.
    rewrite zlen_app, zlen_cons, zlen_nil. lia.
Qed.

(** ** The range operations on a disk *)

Lemma data_room sb v m ws : disk_holds sb v m -> Forall (data_write sb) ws ->
  96 + 4128 * zlen ws <= journal_blocks sb * BLOCK_SIZE -> room sb v (mkChange m ws).
Proof.
  intros Hd Hws Hfit. destruct m as [[a inodes] entries]. destruct (data_target Hd ws) as [Htw Hts].
  split; [by apply Hts|]. intros _. rewrite Htw. apply journal_fits_tx; [|lia].
  eapply Forall_impl; [exact Hws|]. by intros w [_ ?].
Qed.

Section Implements.
Context `{DeviceLaws D} {sb : Superblock} {v : list block} {fs : file_system} (Hfs : fs_sound sb v fs) (h : bool).

Lemma write_range_on_disk x first start data :
  0 <= first <= u64_max -> 0 <= start -> Forall is_byte data -> 2 * zlen data <= isize_max ->
  implements sb v h (write_range_of sb fs x first start data) (fun _ => tt)
    (write_file_range_journaled (D:=D) sb x first start data).
Proof.
  destruct Hfs as [Hd Hc _ Hm], fs as [[[a inodes] entries] area]. simpl in Hd, Hc, Hm. subst area.
  by apply (write_range_implements Hd).
Qed.

Lemma copy_range_on_disk src dst len : endpoint_ok src -> endpoint_ok dst -> 0 <= len -> 2 * len <= isize_max ->
  implements sb v h (copy_range_of sb fs src dst len) (fun _ => tt) (copy_file_range_journaled (D:=D) sb src dst len).
Proof.
  destruct Hfs as [Hd Hc _ Hm], fs as [[[a inodes] entries] area]. simpl in Hd, Hc, Hm. subst area.
  by apply (copy_range_implements Hd).
Qed.
End Implements.

Section Device.
Context `{DeviceLaws D} {sb : Superblock} {v : list block} {fs : file_system} (Hfs : fs_sound sb v fs).
Let Hd := fs_holds _ _ _ Hfs.
Let Hgeo := holds_geometry _ _ _ Hd.
Let Hwf := sound_wf Hfs.

Lemma write_range_room x first start data c : 0 <= first <= u64_max -> 0 <= start -> Forall is_byte data ->
  2 * zlen data <= isize_max -> write_range_of sb fs x first start data = Ok (tt, c) ->
  ~ room sb v c -> spans_too_much sb start (zlen data).
Proof.
  intros Hf Hs Hdata Hcap Hw Hn. pose proof (write_range_of_spec Hgeo Hwf x first start Hf Hs data Hdata Hcap) as Hsp.
  rewrite Hw in Hsp. destruct Hsp as (_ & flat & new & _ & Hfw & _). simpl in Hfw.
  apply obind_Ok in Hw as (ws & Hws & Hw). apply range_writes_length in Hws; [|done].
  apply obind_Ok in Hw as (changed & Hch & [= <-]). apply changed_of_length in Hch.
  apply Z.nle_gt. intros Hfit. apply Hn. pose proof (fw_data _ _ _ _ _ Hfw) as Hdw. simpl in Hdw.
  apply data_room; [done..|lia].
Qed.

Lemma copy_range_room src dst len c : endpoint_ok src -> endpoint_ok dst -> 0 <= len -> 2 * len <= isize_max ->
  copy_range_of sb fs src dst len = Ok (tt, c) -> ~ room sb v c -> spans_too_much sb (ep_offset dst) len.
Proof.
  intros [Hsf Hso] [Hdf Hdo] H0 Hlen (out & Hr & Hw)%obind_Ok Hn.
  pose proof (read_range_of_spec Hgeo Hwf (ep_inode src) (ep_first_block src) (ep_offset src) (proj1 Hsf) Hso len
    (proj2 Hsf) ltac:(lia)) as Hsp. rewrite Hr in Hsp. destruct Hsp as (_ & flat & (Hfb & Hpos & Hle) & ->).
  rewrite <- (zlen_sub flat (ep_first_block src * BLOCK_SIZE + ep_offset src) len) by ulia.
  eapply write_range_room; [done|done| | |exact Hw|done]; [|rewrite zlen_sub; ulia].
  apply Forall_sub. unfold file_bytes in Hfb. apply obind_Ok in Hfb as (bs & Hf & [= <-]).
  by eapply Forall_mjoin_blocks, file_of_blocks.
Qed.

(** What the disk holds after a write to file [x]. *)
Lemma file_written_on_disk x new c (v' : list block) :
  file_written sb fs x new c -> fs_sound sb v' (fs_apply sb fs c) ->
  metadata_on_disk sb v' = metadata_on_disk sb v /\ file_on_disk sb v' x = Ok (mjoin new) /\
  forall y, y <> x -> file_on_disk sb v' y = file_on_disk sb v y.
Proof.
  intros [Hm _ Hf Ho] Hfs'. split.
  - rewrite (holds_metadata _ _ _ (fs_holds _ _ _ Hfs')), (holds_metadata _ _ _ Hd). simpl. by rewrite Hm.
  - split; [|intros y Hy]; rewrite (file_on_disk_sound Hfs'); unfold file_bytes.
    + by rewrite Hf.
    + rewrite (file_on_disk_sound Hfs). unfold file_bytes. by rewrite Ho.
Qed.

(** A write by [res] to file [x], on a device that does not fail. *)
Lemma written_outcome {A} (res : outcome io_error (unit * fs_change)) (prog : M D A) x
    (good : bytes -> bytes -> Prop) (too_long : Prop) d :
  implements sb v true res (fun _ => tt) prog -> at_state true d v v ->
  owp res
    (fun r => exists flat new, good flat (mjoin new) /\ file_bytes sb fs x = Ok flat /\ file_written sb fs x new r.2)
    (fun _ => ~ exists flat after, good flat after /\ file_bytes sb fs x = Ok flat) ->
  (forall c, res = Ok (tt, c) -> ~ room sb v c -> too_long) ->
  wp prog
    (fun _ d' => exists flat after, good flat after /\ file_on_disk sb v x = Ok flat /\ sound_disk sb (durable d') /\
       metadata_on_disk sb (durable d') = metadata_on_disk sb v /\ file_on_disk sb (durable d') x = Ok after /\
       forall y, y <> x -> file_on_disk sb (durable d') y = file_on_disk sb v y)
    (fun _ d' => durable d' = v /\
       ((~ exists flat after, good flat after /\ file_on_disk sb v x = Ok flat) \/ too_long)) d.
Proof.
  intros Himp Hst Hsp Hroom. pose proof (file_on_disk_sound Hfs x) as Hx.
  assert (Hsound : forall b c, res = Ok (b, c) -> metadata_sound (ch_meta c)).
  { intros b c Hres. rewrite Hres in Hsp. destruct Hsp as (flat & new & _ & _ & Hfw). simpl in Hfw.
    rewrite (fw_meta _ _ _ _ _ Hfw). apply (fs_metadata _ _ _ Hfs). }
  eapply wp_mono; [by apply (healthy_outcome Hfs res _ prog d Himp Hsound Hst)|..]; simpl; rewrite Hx.
  - intros r d' (c & Hres & _ & Hfs'). rewrite Hres in Hsp. destruct Hsp as (flat & new & Hg & Hfb & Hfw). simpl in Hfw.
    exists flat, (mjoin new). split; [done|]. split; [done|]. split; [by eexists|].
    by apply (file_written_on_disk x new c).
  - intros e d' [Hv Hwhy]. split; [done|]. destruct Hwhy as [Hres|([] & c & Hres & Hn)].
    + rewrite Hres in Hsp. by left.
    + right. by eapply Hroom.
Qed.
End Device.

(** C5: Reading a byte range returns exactly these bytes.  On a sound disk over
    a device that does not fail, [read_file_range] returns if and only if the
    file exists and has the range, and then the bytes of the file at this
    position; the device's durable image does not change, and for lengths up to
    [isize::MAX] there is no panic. *)
Theorem read_file_range_exact `{DeviceLaws D} sb v x first start len (d : D) :
  sound_disk sb v -> at_state true d v v -> 0 <= first <= u64_max -> 0 <= start -> 0 <= len <= isize_max ->
  match read_file_range sb x first start len d with
  | (Ok out, d') => durable d' = v /\ exists flat, range_on_disk sb v x first start len flat /\
      out = sub flat (first * BLOCK_SIZE + start) len
  | (Err _, d') => durable d' = v /\ ~ exists flat, range_on_disk sb v x first start len flat
  | (Panic, _) => False
  end.
Proof.
  intros [fs Hfs] Hst Hf Hs Hl. pose proof (range_on_disk_sound Hfs x first start len) as Hrange.
  pose proof (read_range_of_spec (holds_geometry _ _ _ (fs_holds _ _ _ Hfs)) (sound_wf Hfs) x first start
    (proj1 Hf) Hs len (proj2 Hf) Hl) as Hsp.
  destruct Hfs as [Hd Hc _ _], fs as [[[a inodes] entries] data]. simpl in Hd, Hc. subst data.
  pose proof (reads_range Hd true x first start len (owp_no_panic _ _ _ Hsp) d Hst) as Hwp. unfold wp in Hwp.
  destruct (read_file_range sb x first start len d) as [[out|e|] d']; [| |done].
  - destruct Hwp as [Ho Hst']. rewrite Ho in Hsp. destruct Hsp as (Hlt & flat & Hin & ->).
    apply at_state_crashed in Hst' as [_ Hv']. split; [done|]. exists flat. split; [|done]. by apply Hrange.
  - destruct Hwp as [[_ Hv'] Hh]. rewrite (Hh eq_refl) in Hsp. split; [done|]. intros [flat [Hlt Hr]%Hrange].
    apply Hsp. split; [done|]. by exists flat.
Qed.

(** C3: Writing a byte range changes exactly these bytes.  On a sound disk over
    a device that does not fail, [write_file_range_journaled] either returns,
    and then the durable disk is sound, file [x] has the new bytes in the range
    and its old bytes elsewhere, every other file and all metadata are as
    before; or it fails with the durable disk unchanged, and then the file or
    the range does not exist or the range spans more blocks than one
    transaction can log.  Data of up to half of [isize::MAX] bytes, the limit of
    the vector of block images, causes no panic. *)
Theorem write_file_range_exact `{DeviceLaws D} sb v x first start data (d : D) :
  sound_disk sb v -> at_state true d v v -> 0 <= first <= u64_max -> 0 <= start ->
  Forall is_byte data -> 2 * zlen data <= isize_max ->
  match write_file_range_journaled sb x first start data d with
  | (Ok _, d') => exists flat, range_on_disk sb v x first start (zlen data) flat /\ sound_disk sb (durable d') /\
      metadata_on_disk sb (durable d') = metadata_on_disk sb v /\
      file_on_disk sb (durable d') x = Ok (put flat (first * BLOCK_SIZE + start) data) /\
      forall y, y <> x -> file_on_disk sb (durable d') y = file_on_disk sb v y
  | (Err _, d') => durable d' = v /\
      ((~ exists flat, range_on_disk sb v x first start (zlen data) flat) \/ spans_too_much sb start (zlen data))
  | (Panic, _) => False
  end.
Proof.
  intros [fs Hfs] Hst Hf Hs Hdata Hcap. pose proof (range_on_disk_sound Hfs x first start (zlen data)) as Hrange.
  pose (good flat after := start < BLOCK_SIZE /\ range_in_file sb fs x (first * BLOCK_SIZE + start) (zlen data) flat /\
    after = put flat (first * BLOCK_SIZE + start) data).
  refine (wp_mono _ _ _ _ _ _ (written_outcome Hfs (write_range_of sb fs x first start data) _ x good
    (spans_too_much sb start (zlen data)) d (write_range_on_disk Hfs true x first start data Hf Hs Hdata Hcap) Hst _
    (fun c => write_range_room Hfs x first start data c Hf Hs Hdata Hcap)) _ _).
  - eapply owp_mono; [apply (write_range_of_spec (holds_geometry _ _ _ (fs_holds _ _ _ Hfs)) (sound_wf Hfs) x first start
      Hf Hs data Hdata Hcap)|..]; simpl.
    + intros r (Hlt & flat & new & Hin & Hfw & Hnew). exists flat, new. by destruct Hin.
    + intros _ Hn (flat & after & (Hlt & Hin & _) & _). apply Hn. split; [done|]. by exists flat.
  - intros _ d' (flat & after & (Hlt & Hin & ->) & _ & Hrest). exists flat. split; [by apply Hrange|done].
  - intros _ d' [Hv [Hn|Hlong]]; (split; [done|]); [left|by right]. intros [flat Hr%Hrange]. apply Hn.
    destruct Hr as [Hlt Hin]. exists flat. eexists. rewrite (file_on_disk_sound Hfs). split; [done|apply Hin].
Qed.

(** The range an endpoint names. *)
Definition endpoint_on_disk (sb : Superblock) (v : list block) (e : FileRangeEndpoint) (len : Z) (flat : bytes) : Prop :=
  range_on_disk sb v (ep_inode e) (ep_first_block e) (ep_offset e) len flat.

(** C4: Copying a byte range copies the bytes the source had before the copy,
    also when source and destination are overlapping ranges of one file.  On a
    sound disk over a device that does not fail, [copy_file_range_journaled]
    either returns, and then the durable disk is sound, the destination has
    these bytes in its range and its old bytes elsewhere, every other file and
    all metadata are as before; or it fails with the durable disk unchanged, and
    then one of the ranges does not exist or the destination range spans more
    blocks than one transaction can log.  Lengths up to half of [isize::MAX]
    cause no panic; for those above [isize::MAX] see [range_length_overflow]. *)
Theorem copy_file_range_exact `{DeviceLaws D} sb v src dst len (d : D) :
  sound_disk sb v -> at_state true d v v -> endpoint_ok src -> endpoint_ok dst -> 0 <= len -> 2 * len <= isize_max ->
  match copy_file_range_journaled sb src dst len d with
  | (Ok _, d') => exists from to, endpoint_on_disk sb v src len from /\ endpoint_on_disk sb v dst len to /\
      sound_disk sb (durable d') /\ metadata_on_disk sb (durable d') = metadata_on_disk sb v /\
      file_on_disk sb (durable d') (ep_inode dst) = Ok (put to (endpoint_pos dst) (sub from (endpoint_pos src) len)) /\
      forall y, y <> ep_inode dst -> file_on_disk sb (durable d') y = file_on_disk sb v y
  | (Err _, d') => durable d' = v /\
      ((~ exists from to, endpoint_on_disk sb v src len from /\ endpoint_on_disk sb v dst len to) \/
       spans_too_much sb (ep_offset dst) len)
  | (Panic, _) => False
  end.
Proof.
  intros [fs Hfs] Hst Hsrc Hdst H0 Hlen.
  assert (Hrange : forall e flat, endpoint_on_disk sb v e len flat <-> endpoint_range (sb:=sb) (fs:=fs) e len flat)
    by (intros; apply (range_on_disk_sound Hfs)).
  pose (good to after := exists from, endpoint_range (sb:=sb) (fs:=fs) src len from /\
    endpoint_range (sb:=sb) (fs:=fs) dst len to /\ after = put to (endpoint_pos dst) (sub from (endpoint_pos src) len)).
  refine (wp_mono _ _ _ _ _ _ (written_outcome Hfs (copy_range_of sb fs src dst len) _ (ep_inode dst) good
    (spans_too_much sb (ep_offset dst) len) d (copy_range_on_disk Hfs true src dst len Hsrc Hdst H0 Hlen) Hst _
    (fun c => copy_range_room Hfs src dst len c Hsrc Hdst H0 Hlen)) _ _).
  - eapply owp_mono; [apply (copy_range_of_spec (holds_geometry _ _ _ (fs_holds _ _ _ Hfs)) (sound_wf Hfs) src dst len
      Hsrc Hdst H0 Hlen)|..]; simpl.
    + intros r (from & to & new & Hfrom & Hto & Hfw & Hnew). exists to, new. split; [by exists from|].
      split; [apply Hto|done].
    + intros _ Hn (to & after & (from & Hfrom & Hto & _) & _). apply Hn. by exists from, to.
  - intros _ d' (to & after & (from & Hfrom & Hto & ->) & _ & Hrest). exists from, to. by rewrite !Hrange.
  - intros _ d' [Hv [Hn|Hlong]]; (split; [done|]); [left|by right].
    intros (from & to & Hfrom%Hrange & Hto%Hrange). apply Hn. exists to. eexists.
    split; [by exists from|]. rewrite (file_on_disk_sound Hfs). apply Hto.
Qed.
