(* ===== verification/NetBytes.v ===== *)
(** * Network byte order and wrapping arithmetic

    What the modules of [userspace-tcpip-stack] share: [to_be_bytes] and
    [from_be_bytes], the narrowing casts [as u16] / [as u32], and the
    [wrapping_*] and [saturating_*] operations they use. *)

From S2P Require Import Prelude Bytes.

(** [x as u8], [x as u16] and [x as u32] on an unsigned [x] *)
Definition as_u8 (x : Z) : Z := x mod 2 ^ 8.
Definition as_u16 (x : Z) : Z := x mod 2 ^ 16.
Definition as_u32 (x : Z) : Z := x mod 2 ^ 32.
(** [x as i32] on a [u32] *)
Definition as_i32 (x : Z) : Z := if x <? 2 ^ 31 then x else x - 2 ^ 32.

Definition wrapping_add_u32 (a b : Z) : Z := (a + b) mod 2 ^ 32.
(** [usize] / [u64] saturation *)
Definition saturating_add (a b : Z) : Z := Z.min (a + b) u64_max.
Definition saturating_sub (a b : Z) : Z := Z.max (a - b) 0.

(** Plain [+] and [*] on [u32], which panic on overflow, and [u32] saturation *)
Definition add_u32 {E} (a b : Z) : outcome E Z := if a + b <=? u32_max then Ok (a + b) else Panic.
Definition mul_u32 {E} (a b : Z) : outcome E Z := if a * b <=? u32_max then Ok (a * b) else Panic.
Definition saturating_add_u32 (a b : Z) : Z := Z.min (a + b) u32_max.

(** [x.to_be_bytes()] for an [n]-byte unsigned integer, and [from_be_bytes] *)
Definition be_bytes (n : nat) (x : Z) : bytes := reverse (le_bytes n x).
Definition from_be_bytes (bs : bytes) : Z := from_le_bytes (reverse bs).
Definition u16_be (x : Z) : bytes := be_bytes 2 x.
Definition u32_be (x : Z) : bytes := be_bytes 4 x.

(** [uN::from_be_bytes([bs[a], bs[a + 1], ..])] *)
Definition read_be {E} (n : Z) (bs : bytes) (a : Z) : outcome E Z :=
  let? field := slice bs a (a + n) in Ok (from_be_bytes field).

Definition is_u8 (x : Z) : Prop := 0 <= x <= u8_max.
Definition is_u16 (x : Z) : Prop := 0 <= x <= u16_max.
Definition is_u32 (x : Z) : Prop := 0 <= x <= u32_max.
#[global] Instance is_u8_dec x : Decision (is_u8 x) := ltac:(unfold is_u8; apply _).
#[global] Instance is_u16_dec x : Decision (is_u16 x) := ltac:(unfold is_u16; apply _).
#[global] Instance is_u32_dec x : Decision (is_u32 x) := ltac:(unfold is_u32; apply _).
#[export] Hint Unfold is_u8 is_u16 is_u32 is_byte as_u8 as_u16 as_u32 : consts.

(** ** Lemmas *)

Lemma saturating_add_eq a b : saturating_add a b = Z.min (a + b) u64_max. Proof. done. Qed.
Lemma saturating_sub_eq a b : saturating_sub a b = Z.max (a - b) 0. Proof. done. Qed.

Lemma zlen_be_bytes n x : zlen (be_bytes n x) = Z.of_nat n.
Proof. unfold be_bytes. rewrite zlen_reverse. apply zlen_le_bytes. Qed.
Lemma zlen_u16_be x : zlen (u16_be x) = 2. Proof. apply zlen_be_bytes. Qed.
Lemma zlen_u32_be x : zlen (u32_be x) = 4. Proof. apply zlen_be_bytes. Qed.
#[export] Hint Rewrite zlen_u16_be zlen_u32_be : zlen.

Lemma Forall_be_bytes n x : Forall is_byte (be_bytes n x).
Proof. unfold be_bytes. apply Forall_reverse, Forall_le_bytes. Qed.
Lemma Forall_u16_be x : Forall is_byte (u16_be x). Proof. apply Forall_be_bytes. Qed.
Lemma Forall_u32_be x : Forall is_byte (u32_be x). Proof. apply Forall_be_bytes. Qed.
#[export] Hint Resolve Forall_u16_be Forall_u32_be : bytes.

Lemma from_be_bytes_be_bytes n x : 0 <= x < 256 ^ Z.of_nat n -> from_be_bytes (be_bytes n x) = x.
Proof. intros. unfold from_be_bytes, be_bytes. rewrite reverse_involutive. by apply from_le_bytes_le_bytes. Qed.
Lemma from_u16_be x : is_u16 x -> from_be_bytes (u16_be x) = x.
Proof. intros. apply from_be_bytes_be_bytes. simpl. ulia. Qed.
Lemma from_u32_be x : is_u32 x -> from_be_bytes (u32_be x) = x.
Proof. intros. apply from_be_bytes_be_bytes. simpl. ulia. Qed.

Lemma be_bytes_from bs n : Forall is_byte bs -> length bs = n -> be_bytes n (from_be_bytes bs) = bs.
Proof.
  intros Hb Hn. unfold from_be_bytes, be_bytes.
  rewrite <- Hn, <- (length_reverse bs), le_bytes_from_le_bytes by (by apply Forall_reverse).
  apply reverse_involutive.
Qed.
Lemma u16_be_from bs : Forall is_byte bs -> zlen bs = 2 -> u16_be (from_be_bytes bs) = bs.
Proof. intros ? Hn. apply be_bytes_from; [done|]. unfold zlen in Hn. lia. Qed.
Lemma u32_be_from bs : Forall is_byte bs -> zlen bs = 4 -> u32_be (from_be_bytes bs) = bs.
Proof. intros ? Hn. apply be_bytes_from; [done|]. unfold zlen in Hn. lia. Qed.

Lemma from_be_bytes_bound bs : Forall is_byte bs -> 0 <= from_be_bytes bs < 256 ^ zlen bs.
Proof.
  intros Hb. unfold from_be_bytes. rewrite <- (zlen_reverse bs). apply from_le_bytes_bound.
  by apply Forall_reverse.
Qed.

Lemma u16_be_cells x : is_u16 x -> u16_be x = [x / 256; x mod 256].
Proof.
  intros Hx. unfold u16_be, be_bytes, le_bytes. unfold reverse. simpl.
  do 2 f_equal. rewrite Z.mod_small; [done|]. split; [apply Z.div_pos; ulia|apply Z.div_lt_upper_bound; ulia].
Qed.

Lemma from_be_cells a b : from_be_bytes [a; b] = 256 * a + b.
Proof. unfold from_be_bytes, reverse, from_le_bytes. simpl. lia. Qed.

(** ** Reads *)

Lemma read_be_Ok {E} n bs a :
  0 <= a -> 0 <= n -> a + n <= zlen bs -> @read_be E n bs a = Ok (from_be_bytes (sub bs a n)).
Proof.
  intros. unfold read_be. rewrite slice_Ok by lia. simpl. do 3 f_equal. lia.
Qed.

Lemma read_be_no_panic {E} n bs a : 0 <= a -> 0 <= n -> a + n <= zlen bs -> @read_be E n bs a <> Panic.
Proof. intros. by rewrite read_be_Ok. Qed.

(** The byte at an index: [0] out of range, where the code would panic. *)
Definition byte_at (bs : bytes) (i : Z) : Z := default 0 (bs !! Z.to_nat i).

Lemma index_at_byte {E} bs i : 0 <= i < zlen bs -> @index_at E Z bs i = Ok (byte_at bs i).
Proof.
  intros Hi. apply index_at_Ok; [lia|]. unfold byte_at.
  destruct (lookup_lt_is_Some_2 bs (Z.to_nat i)) as [x Hx]; [unfold zlen in Hi; lia|].
  by rewrite Hx.
Qed.

Lemma byte_at_bound bs i : Forall is_byte bs -> is_byte (byte_at bs i).
Proof.
  intros Hb. unfold byte_at. destruct (bs !! _) as [x|] eqn:Hx; simpl; [|ulia].
  by eapply Forall_lookup_1 in Hb.
Qed.

Lemma field_bound bs a n :
  Forall is_byte bs -> 0 <= a -> 0 <= n -> a + n <= zlen bs -> 0 <= from_be_bytes (sub bs a n) < 256 ^ n.
Proof.
  intros Hb ? ? ?. pose proof (from_be_bytes_bound (sub bs a n) ltac:(by apply Forall_sub)) as Hbd.
  by rewrite zlen_sub in Hbd by lia.
Qed.

Lemma field_u16_bound bs a : Forall is_byte bs -> 0 <= a -> a + 2 <= zlen bs -> is_u16 (from_be_bytes (sub bs a 2)).
Proof. intros Hb ? ?. pose proof (field_bound bs a 2 Hb ltac:(lia) ltac:(lia) ltac:(lia)). ulia. Qed.

Lemma field_u32_bound bs a : Forall is_byte bs -> 0 <= a -> a + 4 <= zlen bs -> is_u32 (from_be_bytes (sub bs a 4)).
Proof. intros Hb ? ?. pose proof (field_bound bs a 4 Hb ltac:(lia) ltac:(lia) ltac:(lia)). ulia. Qed.

#[global] Arguments be_bytes : simpl never.
#[global] Arguments from_be_bytes : simpl never.
#[global] Arguments u16_be : simpl never.
#[global] Arguments u32_be : simpl never.

(** ** Bytes of concatenations and updates *)

Lemma byte_at_cons_0 b bs : byte_at (b :: bs) 0 = b.
Proof. done. Qed.

Lemma byte_at_app_r l1 l2 i : zlen l1 <= i -> byte_at (l1 ++ l2) i = byte_at l2 (i - zlen l1).
Proof.
  unfold byte_at, zlen. intros. rewrite lookup_app_r by lia. do 2 f_equal. lia.
Qed.

Lemma byte_at_app_l l1 l2 i : 0 <= i < zlen l1 -> byte_at (l1 ++ l2) i = byte_at l1 i.
Proof. unfold byte_at, zlen. intros. by rewrite lookup_app_l by lia. Qed.

Lemma byte_at_sub bs a n i : 0 <= a -> 0 <= i < n -> byte_at (sub bs a n) i = byte_at bs (a + i).
Proof.
  unfold byte_at, sub. intros. rewrite lookup_take_lt, lookup_drop by lia. do 2 f_equal. lia.
Qed.

Lemma byte_at_put_outside bs a src i :
  0 <= a -> a + zlen src <= zlen bs -> 0 <= i -> (i < a \/ a + zlen src <= i) ->
  byte_at (put bs a src) i = byte_at bs i.
Proof. intros. unfold byte_at. by rewrite lookup_put_outside. Qed.

Lemma byte_at_put_inside bs a src i :
  0 <= a -> a + zlen src <= zlen bs -> a <= i < a + zlen src ->
  byte_at (put bs a src) i = byte_at src (i - a).
Proof.
  intros. replace i with (a + (i - a)) at 1 by lia.
  rewrite <- (byte_at_sub _ a (zlen src)) by lia. by rewrite sub_put_same.
Qed.

(** [bs[i] = b] overwrites one byte. *)
Lemma set_at_put {E} bs i (b : Z) : 0 <= i < zlen bs -> @set_at E Z bs i b = Ok (put bs i [b]).
Proof.
  intros Hi. unfold set_at. rewrite (proj2 (Z.leb_le _ _)), (proj2 (Z.ltb_lt _ _)) by lia. cbn [andb]. f_equal.
  unfold put. unfold zlen in Hi. rewrite insert_take_drop by lia. do 3 f_equal. simpl. lia.
Qed.

(** Splitting a buffer around the field that is overwritten. *)
Lemma put_split {A} (bs : list A) a src : 0 <= a -> a + zlen src <= zlen bs ->
  put bs a src = sub bs 0 a ++ src ++ sub bs (a + zlen src) (zlen bs - a - zlen src).
Proof.
  intros Ha Hl. unfold put, sub, zlen in *. do 2 f_equal.
  rewrite take_ge by (rewrite length_drop; lia). f_equal. lia.
Qed.

(** [buf[a..].copy_from_slice] inside a prefix of the buffer. *)
Lemma sub_put_prefix {A} (bs : list A) a src n :
  0 <= a -> a + zlen src <= n -> n <= zlen bs -> sub (put bs a src) 0 n = put (sub bs 0 n) a src.
Proof.
  intros Ha Hn Hl. pose proof (zlen_nonneg src) as Hs.
  replace bs with (sub bs 0 n ++ sub bs n (zlen bs - n)) at 1.
  2:{ rewrite <- (Z.add_0_l n) at 2. rewrite <- sub_split by lia. rewrite sub_all; [done|lia]. }
  rewrite put_app_l by (rewrite ?zlen_sub; lia).
  apply sub_prefix. rewrite zlen_put; rewrite ?zlen_sub; lia.
Qed.

Ltac net_consts := autounfold with consts in *.

(** Resolve the reads of a parser whose bounds are known. *)
Ltac be_reads :=
  repeat (first [rewrite read_be_Ok by zside | rewrite index_at_byte by zside
                |rewrite slice_Ok by zside | rewrite slice_from_Ok by zside]; ostep).

(** Read a byte or a field of a concatenation. *)
Ltac byte_field :=
  repeat (rewrite byte_at_app_r by zside); rewrite ?byte_at_app_l by zside.

(** ** Bit fields *)

(** [x & (1 << k) == 0] *)
Lemma land_bit_test x k : 0 <= k -> (Z.land x (2 ^ k) =? 0) = negb (Z.testbit x k).
Proof.
  intros Hk. assert (Z.land x (2 ^ k) = if Z.testbit x k then 2 ^ k else 0) as ->.
  { apply Z.bits_inj'. intros n Hn. rewrite Z.land_spec. destruct (decide (n = k)) as [->|Hne].
    - rewrite Z.pow2_bits_true by done. destruct (Z.testbit x k) eqn:Hb; simpl.
      + by rewrite Z.pow2_bits_true.
      + by rewrite Z.bits_0.
    - rewrite Z.pow2_bits_false by done. rewrite andb_false_r.
      destruct (Z.testbit x k); by rewrite ?Z.pow2_bits_false, ?Z.bits_0. }
  destruct (Z.testbit x k); simpl; [|done]. apply Z.eqb_neq. pose proof (Z.pow_pos_nonneg 2 k). lia.
Qed.

Lemma land_mask x k : 0 <= k -> Z.land x (Z.ones k) = x mod 2 ^ k.
Proof. apply Z.land_ones. Qed.

(** [low | (1 << k)] for [low < 1 << k] *)
Lemma lor_bit low k : 0 <= k -> 0 <= low < 2 ^ k -> Z.lor low (2 ^ k) = low + 2 ^ k.
Proof.
  intros Hk Hl. rewrite <- Z.lxor_lor.
  - rewrite <- Z.add_nocarry_lxor; [done|]. rewrite Z.land_comm. 
    apply Z.eqb_eq. rewrite Z.land_comm, land_bit_test by done.
    rewrite (proj1 (Z.bounded_iff_bits_nonneg' k low ltac:(lia) ltac:(lia)) ltac:(lia) k) by lia. done.
  - apply Z.eqb_eq. rewrite land_bit_test by done.
    rewrite (proj1 (Z.bounded_iff_bits_nonneg' k low ltac:(lia) ltac:(lia)) ltac:(lia) k) by lia. done.
Qed.

Lemma testbit_small x k : 0 <= x < 2 ^ k -> 0 <= k -> Z.testbit x k = false.
Proof. intros Hx Hk. apply (proj1 (Z.bounded_iff_bits_nonneg' k x ltac:(lia) ltac:(lia)) ltac:(lia) k). lia. Qed.

Lemma testbit_add_pow2 low k : 0 <= k -> 0 <= low < 2 ^ k -> Z.testbit (low + 2 ^ k) k = true.
Proof.
  intros Hk Hl. apply Z.testbit_true; [done|].
  replace (low + 2 ^ k) with (low + 1 * 2 ^ k) by lia.
  rewrite Z.div_add by lia. rewrite Z.div_small by lia. done.
Qed.

Lemma nibble_high b : Z.shiftr b 4 = b / 16. Proof. by rewrite Z.shiftr_div_pow2 by lia. Qed.
Lemma nibble_low b : Z.land b 0x0F = b mod 16. Proof. by apply (Z.land_ones b 4). Qed.

(** Store the result of a fallible update of the state. *)
Definition iupd {E D} (f : D -> outcome E D) : ST E D unit :=
  fun d => match f d with Ok d' => (Ok tt, d') | Err e => (Err e, d) | Panic => (Panic, d) end.
