(* ===== verification/TcpSeq.v ===== *)
(** * TCP sequence numbers ([tcp_seq.rs])

    The serial-number comparisons of RFC 1982 on [u32], and their exact
    meaning: they order two sequence numbers by their position in a stream
    whenever the positions are less than [2^31] apart. *)

From S2P Require Import Prelude Bytes NetBytes.

Definition seq_lt (s1 s2 : Z) : bool := as_i32 (wrapping_sub_u32 s1 s2) <? 0.
Definition seq_le (s1 s2 : Z) : bool := as_i32 (wrapping_sub_u32 s1 s2) <=? 0.
Definition seq_gt (s1 s2 : Z) : bool := 0 <? as_i32 (wrapping_sub_u32 s1 s2).
Definition seq_ge (s1 s2 : Z) : bool := 0 <=? as_i32 (wrapping_sub_u32 s1 s2).
Definition seq_diff (s2 s1 : Z) : Z := wrapping_sub_u32 s2 s1.

(** The sequence number of position [x] of an unbounded stream. *)
Definition seq_of (x : Z) : Z := x mod 2 ^ 32.

Lemma seq_of_bound x : is_u32 (seq_of x).
Proof. unfold seq_of, is_u32. pose proof (Z.mod_pos_bound x (2 ^ 32)). ulia. Qed.

Lemma seq_of_small x : is_u32 x -> seq_of x = x.
Proof. intros. unfold seq_of. apply Z.mod_small. ulia. Qed.

Lemma seq_of_wrapping_add x y : wrapping_add_u32 (seq_of x) (seq_of y) = seq_of (x + y).
Proof. unfold wrapping_add_u32, seq_of. by rewrite <- Zplus_mod. Qed.

Lemma seq_of_add x y : wrapping_add_u32 (seq_of x) y = seq_of (x + y).
Proof. unfold wrapping_add_u32, seq_of. by rewrite Zplus_mod_idemp_l. Qed.

Lemma seq_of_wrapping_sub x y : wrapping_sub_u32 (seq_of x) (seq_of y) = seq_of (x - y).
Proof. unfold wrapping_sub_u32, seq_of. by rewrite <- Zminus_mod. Qed.

(** The difference read as [i32] is the distance, when it fits. *)
Lemma as_i32_seq_of d : - 2 ^ 31 <= d < 2 ^ 31 -> as_i32 (seq_of d) = d.
Proof.
  intros Hd. unfold as_i32, seq_of. destruct (decide (0 <= d)).
  - rewrite Z.mod_small by lia. rewrite (proj2 (Z.ltb_lt _ _)) by lia. done.
  - rewrite <- (Z.mod_add d 1) by lia. rewrite Z.mod_small by lia.
    rewrite (proj2 (Z.ltb_ge _ _)) by lia. lia.
Qed.

Section Near.
Context (x y : Z) (Hnear : - 2 ^ 31 <= x - y < 2 ^ 31).

Lemma seq_lt_near : seq_lt (seq_of x) (seq_of y) = (x <? y).
Proof. unfold seq_lt. rewrite seq_of_wrapping_sub, as_i32_seq_of by done. lia. Qed.
Lemma seq_le_near : seq_le (seq_of x) (seq_of y) = (x <=? y).
Proof. unfold seq_le. rewrite seq_of_wrapping_sub, as_i32_seq_of by done. lia. Qed.
Lemma seq_gt_near : seq_gt (seq_of x) (seq_of y) = (y <? x).
Proof. unfold seq_gt. rewrite seq_of_wrapping_sub, as_i32_seq_of by done. lia. Qed.
Lemma seq_ge_near : seq_ge (seq_of x) (seq_of y) = (y <=? x).
Proof. unfold seq_ge. rewrite seq_of_wrapping_sub, as_i32_seq_of by done. lia. Qed.
Lemma seq_diff_near : y <= x -> seq_diff (seq_of x) (seq_of y) = x - y.
Proof. intros. unfold seq_diff. rewrite seq_of_wrapping_sub. apply Z.mod_small. lia. Qed.
End Near.

(** C33: the four comparisons and the distance of [tcp_seq.rs], on the sequence
    numbers of two stream positions, decide the order of the positions and
    measure their distance whenever they are less than [2^31] apart, however
    often the 32-bit counter has wrapped; at exactly [2^31] each of the two is
    reported to be before the other. *)
Theorem seq_compare_exact x y :
  (- 2 ^ 31 < x - y < 2 ^ 31 ->
   seq_lt (seq_of x) (seq_of y) = (x <? y) /\ seq_le (seq_of x) (seq_of y) = (x <=? y) /\
   seq_gt (seq_of x) (seq_of y) = (y <? x) /\ seq_ge (seq_of x) (seq_of y) = (y <=? x) /\
   (y <= x -> seq_diff (seq_of x) (seq_of y) = x - y)) /\
  (x - y = 2 ^ 31 ->
   seq_lt (seq_of x) (seq_of y) = true /\ seq_lt (seq_of y) (seq_of x) = true).
Proof.
  split; intros Hd.
  - rewrite seq_lt_near, seq_le_near, seq_gt_near, seq_ge_near by lia.
    repeat split. intros. apply seq_diff_near; lia.
  - rewrite (seq_lt_near y x) by lia. split; [|lia].
    unfold seq_lt. by rewrite seq_of_wrapping_sub, Hd.
Qed.

Lemma seq_compare_exact_witness :
  seq_lt (seq_of (2 ^ 32 - 2)) (seq_of (2 ^ 32 + 5)) = true /\
  seq_diff (seq_of (2 ^ 32 + 5)) (seq_of (2 ^ 32 - 2)) = 7.
Proof.
  split.
  - destruct (proj1 (seq_compare_exact (2 ^ 32 - 2) (2 ^ 32 + 5)) ltac:(lia)) as [-> _]. reflexivity.
  - destruct (proj1 (seq_compare_exact (2 ^ 32 + 5) (2 ^ 32 - 2)) ltac:(lia)) as (_ & _ & _ & _ & ->); [reflexivity|lia].
Defined.
