(* ===== verification/Checksum.v ===== *)
(** * The Internet checksum ([checksum.rs])

    [raw_checksum] accumulates the big-endian 16-bit words of a buffer in a
    [u32]; the carry-folding loop brings the sum down to 16 bits. The
    reference is RFC 1071's one's complement sum. *)

From S2P Require Import Prelude Bytes NetBytes.

(** The loop over [chunks_exact(2)] and its remainder. *)
Fixpoint raw_words (sum : Z) (data : bytes) : Z :=
  match data with
  | a :: b :: rest => raw_words (wrapping_add_u32 sum (from_be_bytes [a; b])) rest
  | [a] => wrapping_add_u32 sum (as_u16 (Z.shiftl a 8))
  | [] => sum
  end.

Definition raw_checksum (data : bytes) : Z := raw_words 0 data.

(** [while (sum >> 16) != 0 { sum = (sum & 0xFFFF) + (sum >> 16) }], at most
    [fuel] times. *)
Fixpoint fold_carries (fuel : nat) (sum : Z) : Z :=
  match fuel with
  | O => sum
  | S fuel' =>
      if Z.shiftr sum 16 =? 0 then sum
      else fold_carries fuel' (Z.land sum 0xFFFF + Z.shiftr sum 16)
  end.
(** Two rounds bring any [u32] to 16 bits ([fold_carries_done]). *)
Definition fold_fuel : nat := 2.
Definition fold_sum (sum : Z) : Z := fold_carries fold_fuel sum.

(** [!x] on a [u16] *)
Definition not_u16 (x : Z) : Z := Z.lxor x u16_max.

Definition finalize_checksum (sum : Z) : Z := not_u16 (as_u16 (fold_sum sum)).
Definition compute_checksum (data : bytes) : Z := finalize_checksum (raw_checksum data).
Definition verify_checksum (data : bytes) : bool :=
  let sum := fold_sum (raw_checksum data) in (sum =? 0xFFFF) || (sum =? 0x0000).

(** The pseudo-header sum both transport functions start from: addresses of
    four bytes, the protocol and the segment's length [as u16]. *)
Definition pseudo_sum {E} (src_ip dst_ip : bytes) (protocol : Z) (transport_segment : bytes) : outcome E Z :=
  let? s0 := read_be 2 src_ip 0 in
  let sum := wrapping_add_u32 0 s0 in
  let? s1 := read_be 2 src_ip 2 in
  let sum := wrapping_add_u32 sum s1 in
  let? d0 := read_be 2 dst_ip 0 in
  let sum := wrapping_add_u32 sum d0 in
  let? d1 := read_be 2 dst_ip 2 in
  let sum := wrapping_add_u32 sum d1 in
  let sum := wrapping_add_u32 sum protocol in
  let transport_len := as_u16 (zlen transport_segment) in
  let sum := wrapping_add_u32 sum transport_len in
  Ok (wrapping_add_u32 sum (raw_checksum transport_segment)).

Definition compute_ipv4_transport_checksum {E} (src_ip dst_ip : bytes) (protocol : Z)
    (transport_segment : bytes) : outcome E Z :=
  let? sum := pseudo_sum src_ip dst_ip protocol transport_segment in
  let result := finalize_checksum sum in
  Ok (if (protocol =? 17) && (result =? 0) then 0xFFFF else result).

Definition verify_ipv4_transport_checksum {E} (src_ip dst_ip : bytes) (protocol : Z)
    (transport_segment : bytes) : outcome E bool :=
  let? sum := pseudo_sum src_ip dst_ip protocol transport_segment in
  let sum := fold_sum sum in
  Ok ((sum =? 0xFFFF) || (sum =? 0x0000)).

(** ** The reference: RFC 1071's one's complement sum *)

Fixpoint words (data : bytes) : list Z :=
  match data with
  | a :: b :: rest => (256 * a + b) :: words rest
  | [a] => [256 * a]
  | [] => []
  end.

(** End-around-carry addition on 16 bits. *)
Definition ones_add (a b : Z) : Z := if a + b <=? u16_max then a + b else a + b - u16_max.
Definition ones_sum (ws : list Z) : Z := foldl ones_add 0 ws.

Definition word_sum (data : bytes) : Z := foldr Z.add 0 (words data).

(** ** Folding *)

Lemma fold_step_eq sum :
  0 <= sum -> Z.land sum 0xFFFF + Z.shiftr sum 16 = sum mod 65536 + sum / 65536.
Proof.
  intros. change 0xFFFF with (Z.ones 16). rewrite Z.land_ones by lia. by rewrite Z.shiftr_div_pow2 by lia.
Qed.

Lemma fold_test sum : 0 <= sum -> (Z.shiftr sum 16 =? 0) = (sum <? 65536).
Proof.
  intros. rewrite Z.shiftr_div_pow2 by lia. change (2 ^ 16) with 65536.
  destruct (Z.ltb_spec sum 65536).
  - rewrite Z.div_small by lia. done.
  - apply Z.eqb_neq. pose proof (Z.div_str_pos sum 65536). lia.
Qed.

Lemma fold_step_bounds sum : 0 <= sum ->
  let next := sum mod 65536 + sum / 65536 in
  0 <= next /\ next mod 65535 = sum mod 65535 /\ (next = 0 <-> sum = 0) /\
  (sum < 2 ^ 32 -> next < 131071) /\ (sum < 131071 -> next < 65536).
Proof.
  intros Hs next. subst next. pose proof (Z.div_mod sum 65536 ltac:(lia)) as Hd.
  pose proof (Z.mod_pos_bound sum 65536 ltac:(lia)) as Hm.
  pose proof (Z.div_pos sum 65536 ltac:(lia) ltac:(lia)) as Hp.
  repeat split; try lia.
  symmetry. replace sum with (sum mod 65536 + sum / 65536 + (sum / 65536) * 65535) at 1 by lia.
  by rewrite Z_mod_plus_full.
Qed.

(** What the loop keeps: the residue modulo [2^16 - 1] and being zero. *)
Lemma fold_carries_keeps fuel sum : 0 <= sum ->
  let r := fold_carries fuel sum in
  0 <= r /\ r mod 65535 = sum mod 65535 /\ (r = 0 <-> sum = 0).
Proof.
  revert sum. induction fuel as [|fuel IH]; intros sum Hs; cbn [fold_carries]; [done|].
  rewrite fold_test by done. destruct (Z.ltb_spec sum 65536); [done|].
  rewrite fold_step_eq by done.
  destruct (fold_step_bounds sum Hs) as (Hn & Hr & Hz & _). specialize (IH _ Hn). cbv zeta in IH.
  rewrite Hr, Hz in IH. done.
Qed.

(** The loop ends: after two rounds its condition is false, for every [u32]. *)
Lemma fold_sum_small sum : is_u32 sum -> 0 <= fold_sum sum <= u16_max.
Proof.
  intros Hs. unfold fold_sum, fold_fuel. cbn [fold_carries].
  rewrite fold_test by ulia. destruct (Z.ltb_spec sum 65536); [ulia|].
  rewrite fold_step_eq by ulia.
  destruct (fold_step_bounds sum) as (Hn & _ & _ & H1 & _); [ulia|].
  rewrite fold_test by done. case_match; bool_facts; [ulia|].
  rewrite fold_step_eq by done.
  destruct (fold_step_bounds _ Hn) as (? & _ & _ & _ & H2). ulia.
Qed.

Lemma fold_carries_more fuel sum : is_u32 sum -> fold_carries (fold_fuel + fuel) sum = fold_sum sum.
Proof.
  intros Hs. pose proof (fold_sum_small sum Hs) as Hb. unfold fold_sum, fold_fuel in *. cbn [Nat.add fold_carries] in *.
  case_match; [done|]. case_match; [done|].
  destruct fuel; cbn [fold_carries]; [done|]. rewrite fold_test by ulia. by rewrite (proj2 (Z.ltb_lt _ _)) by ulia.
Qed.

(** The folded sum, from its residue. *)
Lemma fold_sum_residue sum : is_u32 sum ->
  fold_sum sum = if sum =? 0 then 0 else if sum mod 65535 =? 0 then 65535 else sum mod 65535.
Proof.
  intros Hs. destruct (fold_carries_keeps fold_fuel sum ltac:(ulia)) as (H0 & Hr & Hz).
  fold (fold_sum sum) in *. pose proof (fold_sum_small sum Hs) as Hb. unfold u16_max in Hb.
  destruct (Z.eqb_spec sum 0) as [->|Hne]; [by apply Hz|].
  assert (fold_sum sum <> 0) by tauto. rewrite <- Hr.
  destruct (decide (fold_sum sum = 65535)) as [->|]; [done|].
  rewrite Z.mod_small by lia. by rewrite (proj2 (Z.eqb_neq _ _)).
Qed.

Lemma verify_residue sum : is_u32 sum ->
  (fold_sum sum =? 0xFFFF) || (fold_sum sum =? 0x0000) = (sum mod 65535 =? 0).
Proof.
  intros Hs. rewrite fold_sum_residue by done. destruct (Z.eqb_spec sum 0) as [->|]; [done|].
  destruct (Z.eqb_spec (sum mod 65535) 0); [done|].
  pose proof (Z.mod_pos_bound sum 65535). lia.
Qed.

Lemma not_u16_sub x : 0 <= x <= u16_max -> not_u16 x = u16_max - x.
Proof.
  intros Hx. unfold not_u16. assert (0 <= x < 2 ^ 16) by ulia. change u16_max with (Z.ones 16) in *.
  assert (Z.land x (Z.lxor x (Z.ones 16)) = 0) as Hl.
  { apply Z.bits_inj'. intros n Hn. rewrite Z.land_spec, Z.lxor_spec, Z.bits_0.
    destruct (decide (n < 16)).
    - rewrite Z.ones_spec_low by lia. by destruct (Z.testbit x n).
    - rewrite (proj1 (Z.bounded_iff_bits_nonneg' 16 x ltac:(lia) ltac:(lia)) ltac:(lia) n) by lia. done. }
  pose proof (Z.add_nocarry_lxor _ _ Hl) as Ha.
  rewrite <- Z.lxor_assoc, Z.lxor_nilpotent, Z.lxor_0_l in Ha. lia.
Qed.

Lemma finalize_bound sum : is_u32 sum -> is_u16 (finalize_checksum sum).
Proof.
  intros Hs. pose proof (fold_sum_small sum Hs). unfold finalize_checksum, as_u16.
  rewrite Z.mod_small, not_u16_sub by ulia. ulia.
Qed.

(** ** The sum of words *)

(** Induction two bytes at a time. *)
Lemma bytes_pair_ind (P : bytes -> Prop) :
  P [] -> (forall a, P [a]) -> (forall a b l, P l -> P (a :: b :: l)) -> forall l, P l.
Proof.
  intros H0 H1 H2. fix F 1. intros [|a [|b l]]; [done|apply H1|apply H2, F].
Qed.

Lemma word_sum_cons2 a b l : word_sum (a :: b :: l) = 256 * a + b + word_sum l.
Proof. done. Qed.

Lemma word_sum_bound data : Forall is_byte data -> 0 <= word_sum data <= u16_max * div_ceil (zlen data) 2.
Proof.
  induction data as [|a|a b l IH] using bytes_pair_ind; intros Hb.
  - done.
  - decompose_Forall. change (div_ceil (zlen [a]) 2) with 1. change (word_sum [a]) with (256 * a + 0). ulia.
  - rewrite !Forall_cons in Hb. destruct Hb as (? & ? & Hl). specialize (IH Hl).
    rewrite word_sum_cons2. unfold div_ceil in *. rewrite !zlen_cons.
    replace (1 + (1 + zlen l) + 2 - 1) with (zlen l + 2 - 1 + 1 * 2) by lia.
    rewrite Z.div_add by lia. ulia.
Qed.

Lemma raw_words_eq data : forall sum, Forall is_byte data -> is_u32 sum ->
  raw_words sum data = (sum + word_sum data) mod 2 ^ 32.
Proof.
  induction data as [|a|a b l IH] using bytes_pair_ind; intros sum Hb Hs; cbn [raw_words].
  - change (word_sum []) with 0. rewrite Z.add_0_r, Z.mod_small by ulia. done.
  - decompose_Forall. unfold wrapping_add_u32, as_u16, word_sum. cbn [words foldr].
    rewrite Z.shiftl_mul_pow2 by lia. rewrite (Z.mod_small (a * _)) by ulia. f_equal. lia.
  - rewrite !Forall_cons in Hb. destruct Hb as (? & ? & Hl).
    rewrite IH; [|done|]; unfold wrapping_add_u32.
    + rewrite Zplus_mod_idemp_l, word_sum_cons2, from_be_cells. f_equal. lia.
    + pose proof (Z.mod_pos_bound (sum + from_be_bytes [a; b]) (2 ^ 32)). ulia.
Qed.

Lemma raw_checksum_eq data : Forall is_byte data -> raw_checksum data = word_sum data mod 2 ^ 32.
Proof. intros. unfold raw_checksum. by rewrite raw_words_eq by (done || ulia). Qed.

(** Up to 131074 bytes the accumulator cannot wrap. *)
Definition checksum_capacity : Z := 131074.

Lemma word_sum_u32 data : Forall is_byte data -> zlen data <= checksum_capacity -> is_u32 (word_sum data).
Proof.
  intros Hb Hl. pose proof (word_sum_bound data Hb) as Hw.
  assert (div_ceil (zlen data) 2 <= 65537); [|ulia].
  unfold div_ceil, checksum_capacity in *. apply Z.lt_succ_r, Z.div_lt_upper_bound; lia.
Qed.

Lemma raw_checksum_small data :
  Forall is_byte data -> zlen data <= checksum_capacity -> raw_checksum data = word_sum data.
Proof.
  intros Hb Hl. rewrite raw_checksum_eq by done. pose proof (word_sum_u32 data Hb Hl).
  apply Z.mod_small. ulia.
Qed.

Lemma raw_checksum_u32 data : Forall is_byte data -> is_u32 (raw_checksum data).
Proof. intros. rewrite raw_checksum_eq by done. pose proof (Z.mod_pos_bound (word_sum data) (2 ^ 32)). ulia. Qed.

Lemma word_sum_app l1 l2 : zlen l1 mod 2 = 0 -> word_sum (l1 ++ l2) = word_sum l1 + word_sum l2.
Proof.
  induction l1 as [|a|a b l IH] using bytes_pair_ind; intros He.
  - done.
  - done.
  - cbn [app]. rewrite !word_sum_cons2, IH; [lia|].
    rewrite !zlen_cons in He. replace (1 + (1 + zlen l)) with (zlen l + 1 * 2) in He by lia.
    by rewrite Z.mod_add in He by lia.
Qed.

Lemma word_sum_u16_be x : is_u16 x -> word_sum (u16_be x) = x.
Proof. intros. rewrite u16_be_cells by done. unfold word_sum. cbn [words foldr]. pose proof (Z.div_mod x 256). lia. Qed.

Lemma word_sum_pair field : zlen field = 2 -> word_sum field = from_be_bytes field.
Proof.
  intros Hl. destruct field as [|a [|b [|c l]]]; rewrite ?zlen_cons in Hl; change (zlen []) with 0 in Hl.
  1,2: lia. 2: pose proof (zlen_nonneg l); lia.
  unfold word_sum. cbn [words foldr]. rewrite from_be_cells. lia.
Qed.

(** Replacing the 16-bit field at an even offset moves the sum by the
    difference of the two values. *)
Lemma word_sum_field pre old new post :
  zlen pre mod 2 = 0 -> zlen old = 2 -> zlen new = 2 ->
  word_sum (pre ++ new ++ post) = word_sum (pre ++ old ++ post) + (from_be_bytes new - from_be_bytes old).
Proof.
  intros He Ho Hn. rewrite !(word_sum_app pre) by done.
  rewrite (word_sum_app new), (word_sum_app old) by (rewrite ?Ho, ?Hn; done).
  rewrite (word_sum_pair old), (word_sum_pair new) by done. lia.
Qed.

(** ** Equivalence with the reference *)

Lemma ones_add_residue a b : 0 <= a <= u16_max -> 0 <= b <= u16_max ->
  let r := ones_add a b in
  0 <= r <= u16_max /\ r mod 65535 = (a + b) mod 65535 /\ (r = 0 <-> a + b = 0).
Proof.
  intros Ha Hb r. subst r. unfold ones_add. destruct (Z.leb_spec (a + b) u16_max); [by split; [ulia|]|].
  split; [ulia|]. split; [|ulia].
  rewrite <- (Z.mod_add (a + b - u16_max) 1) by lia. f_equal. ulia.
Qed.

Lemma ones_sum_residue ws : forall acc, 0 <= acc <= u16_max -> Forall is_u16 ws ->
  let r := foldl ones_add acc ws in let t := acc + foldr Z.add 0 ws in
  0 <= r <= u16_max /\ r mod 65535 = t mod 65535 /\ (r = 0 <-> t = 0).
Proof.
  induction ws as [|w ws IH]; intros acc Ha Hw; cbn [foldl foldr].
  - rewrite Z.add_0_r. done.
  - apply Forall_cons in Hw as [Hw Hws]. destruct (ones_add_residue acc w Ha Hw) as (Hb & Hr & Hz).
    destruct (IH _ Hb Hws) as (Hb' & Hr' & Hz'). split; [done|].
    assert (forall l, Forall is_u16 l -> 0 <= foldr Z.add 0 l) as Hnn.
    { intros l. induction 1; simpl; ulia. }
    specialize (Hnn ws Hws). split; [|ulia]. rewrite Hr'.
    rewrite <- Zplus_mod_idemp_l, Hr, Zplus_mod_idemp_l. f_equal. lia.
Qed.

Lemma words_u16 data : Forall is_byte data -> Forall is_u16 (words data).
Proof.
  induction data as [|a|a b l IH] using bytes_pair_ind; intros Hb; cbn [words].
  - constructor.
  - decompose_Forall. repeat constructor; ulia.
  - rewrite !Forall_cons in Hb. destruct Hb as (? & ? & ?). constructor; [ulia|auto].
Qed.

Lemma fold_sum_ones data : Forall is_byte data -> zlen data <= checksum_capacity ->
  fold_sum (raw_checksum data) = ones_sum (words data).
Proof.
  intros Hb Hl. pose proof (word_sum_u32 data Hb Hl) as Hu.
  rewrite raw_checksum_small, fold_sum_residue by done.
  destruct (ones_sum_residue (words data) 0 ltac:(ulia) (words_u16 _ Hb)) as (Ho & Hr & Hz).
  rewrite Z.add_0_l in Hr, Hz. fold (word_sum data) in *. fold (ones_sum (words data)) in *.
  destruct (Z.eqb_spec (word_sum data) 0); [by symmetry; apply Hz|].
  assert (ones_sum (words data) <> 0) by tauto. rewrite <- Hr.
  destruct (decide (ones_sum (words data) = 65535)) as [->|]; [done|].
  rewrite Z.mod_small by ulia. by rewrite (proj2 (Z.eqb_neq _ _)).
Qed.

(** C34: the checksum of a buffer of at most 131074 bytes is the complement of
    RFC 1071's one's complement sum of its big-endian 16-bit words (an odd last
    byte padded with zero), and a buffer verifies exactly when that sum is
    minus or plus zero: the 32-bit accumulator, its wrapping additions and the
    carry-folding loop, which ends after at most two rounds, lose nothing. *)
Theorem checksum_is_ones_complement data :
  Forall is_byte data -> zlen data <= checksum_capacity ->
  compute_checksum data = 0xFFFF - ones_sum (words data) /\
  verify_checksum data = bool_decide (ones_sum (words data) ∈ [0xFFFF; 0]) /\
  forall fuel, fold_carries (2 + fuel) (raw_checksum data) = ones_sum (words data).
Proof.
  intros Hb Hl. pose proof (fold_sum_ones data Hb Hl) as Hf.
  pose proof (fold_sum_small _ (raw_checksum_u32 data Hb)) as Hs.
  unfold compute_checksum, finalize_checksum, verify_checksum, as_u16. rewrite Hf in *. split; [|split].
  - by rewrite Z.mod_small, not_u16_sub by ulia.
  - cbv zeta. symmetry. destruct (Z.eqb_spec (ones_sum (words data)) 0xFFFF) as [->|]; [done|].
    destruct (Z.eqb_spec (ones_sum (words data)) 0) as [->|]; [done|].
    apply bool_decide_eq_false. set_solver.
  - intros fuel. rewrite <- Hf. apply (fold_carries_more fuel). by apply raw_checksum_u32.
Qed.

Lemma checksum_is_ones_complement_witness :
  compute_checksum [0x00; 0x01; 0xf2; 0x03; 0xf4; 0xf5; 0xf6; 0xf7] = 0x220d.
Proof.
  destruct (checksum_is_ones_complement [0x00; 0x01; 0xf2; 0x03; 0xf4; 0xf5; 0xf6; 0xf7]) as [-> _];
    [by apply (bool_decide_eq_true_1 _)|done|reflexivity].
Defined.

(** ** Filling in and checking a checksum field *)

Lemma finalize_residue sum : is_u32 sum -> (sum + finalize_checksum sum) mod 65535 = 0.
Proof.
  intros Hs. pose proof (fold_sum_small sum Hs) as Hb. unfold finalize_checksum, as_u16.
  rewrite (Z.mod_small (fold_sum sum)), not_u16_sub by ulia.
  destruct (fold_carries_keeps fold_fuel sum ltac:(ulia)) as (_ & Hr & _).
  fold (fold_sum sum) in Hr. rewrite <- Zplus_mod_idemp_l, <- Hr, Zplus_mod_idemp_l.
  replace (_ + _) with u16_max by ulia. done.
Qed.

Lemma verify_checksum_residue data : Forall is_byte data -> zlen data <= checksum_capacity ->
  verify_checksum data = (word_sum data mod 65535 =? 0).
Proof.
  intros Hb Hl. unfold verify_checksum. cbv zeta. rewrite verify_residue by (by apply raw_checksum_u32).
  by rewrite raw_checksum_small.
Qed.

(** The header with its checksum field zeroed, then filled, verifies. *)
Lemma verify_filled pre post :
  let buf := pre ++ [0; 0] ++ post in
  Forall is_byte buf -> zlen buf <= checksum_capacity -> zlen pre mod 2 = 0 ->
  verify_checksum (pre ++ u16_be (compute_checksum buf) ++ post) = true.
Proof.
  intros buf Hb Hl He. subst buf.
  pose proof (finalize_bound _ (raw_checksum_u32 _ Hb)) as Hc. fold (compute_checksum (pre ++ [0; 0] ++ post)) in Hc.
  rewrite !Forall_app in Hb. rewrite !zlen_app in Hl.
  rewrite verify_checksum_residue.
  - rewrite (word_sum_field pre [0; 0]) by (done || apply zlen_u16_be).
    rewrite from_u16_be by done. change (from_be_bytes [0; 0]) with 0. rewrite Z.sub_0_r.
    apply Z.eqb_eq. unfold compute_checksum. rewrite <- raw_checksum_small.
    + apply finalize_residue, raw_checksum_u32. rewrite !Forall_app. tauto.
    + rewrite !Forall_app. tauto.
    + rewrite !zlen_app. done.
  - rewrite !Forall_app. split_and!; [tauto|apply Forall_u16_be|tauto].
  - rewrite !zlen_app, zlen_u16_be. done.
Qed.

(** Changing one byte moves the sum by its change, in the high or low half of
    its word. *)
Lemma word_sum_insert data : forall (i : nat) b old, data !! i = Some old ->
  word_sum (<[i:=b]> data) = word_sum data + (b - old) * (if Nat.even i then 256 else 1).
Proof.
  induction data as [|a|a c l IH] using bytes_pair_ind; intros i b old Hi; [done|..].
  - destruct i; [|done]. injection Hi as ->. unfold word_sum. simpl. lia.
  - destruct i as [|[|i]]; simpl in Hi; simplify_eq.
    + change (<[0%nat:=b]> (old :: c :: l)) with (b :: c :: l). rewrite !word_sum_cons2. cbn [Nat.even]. lia.
    + change (<[1%nat:=b]> (a :: old :: l)) with (a :: b :: l). rewrite !word_sum_cons2. cbn [Nat.even]. lia.
    + change (<[S (S i):=b]> (a :: c :: l)) with (a :: c :: <[i:=b]> l).
      rewrite !word_sum_cons2, (IH i b old Hi). cbn [Nat.even]. lia.
Qed.

Lemma byte_change_residue d k : - u8_max <= d <= u8_max -> d <> 0 -> k = 256 \/ k = 1 -> (d * k) mod 65535 <> 0.
Proof.
  intros Hd Hn Hk Hm. apply Z.mod_divide in Hm as [q Hq]; [|lia].
  destruct Hk as [-> | ->]; unfold u8_max in *; [|nia].
  assert (q = 0) by nia. lia.
Qed.

(** The checksum detects every corruption of a single byte: if a buffer of
    at most 131074 bytes verifies, then the buffer with any one of its bytes
    replaced by a different value does not. *)
Theorem checksum_detects_byte_change data i b :
  Forall is_byte data -> zlen data <= checksum_capacity -> is_byte b -> 0 <= i < zlen data ->
  byte_at data i <> b -> verify_checksum data = true ->
  verify_checksum (<[Z.to_nat i:=b]> data) = false.
Proof.
  intros Hb Hl Hbb Hi Hne. rewrite verify_checksum_residue by done. rewrite Z.eqb_eq. intros Hv.
  pose proof (byte_at_bound data i Hb) as Ho. unfold byte_at in *.
  destruct (lookup_lt_is_Some_2 data (Z.to_nat i)) as [old Hold]; [unfold zlen in Hi; lia|].
  rewrite Hold in *. simpl in *.
  rewrite verify_checksum_residue; [|by apply Forall_insert|by rewrite zlen_insert].
  rewrite (word_sum_insert _ _ _ old) by done. apply Z.eqb_neq. rewrite <- Zplus_mod_idemp_l, Hv, Z.add_0_l.
  apply byte_change_residue; [ulia|lia|]. by destruct (Nat.even _); auto.
Qed.

Lemma checksum_detects_byte_change_witness :
  verify_checksum [0x00; 0x01; 0xf2; 0x03; 0xf4; 0xf5; 0xf6; 0xf6; 0x22; 0x0d] = false.
Proof.
  apply (checksum_detects_byte_change [0x00; 0x01; 0xf2; 0x03; 0xf4; 0xf5; 0xf6; 0xf7; 0x22; 0x0d] 7 0xf6);
    [by apply (bool_decide_eq_true_1 _)|done|by apply (bool_decide_eq_true_1 _)|done|done|reflexivity].
Defined.

(** ** Transport checksums *)

(** The longest segment whose sum, pseudo-header included, cannot wrap. *)
Definition transport_capacity : Z := 131062.

Definition pseudo_part (src dst : bytes) (protocol len : Z) : Z :=
  from_be_bytes (sub src 0 2) + from_be_bytes (sub src 2 2) +
  from_be_bytes (sub dst 0 2) + from_be_bytes (sub dst 2 2) + protocol + as_u16 len.

Section Transport.
Context (src dst : bytes) (protocol : Z).
Context (Hsrc : Forall is_byte src) (Hdst : Forall is_byte dst).
Context (Lsrc : zlen src = 4) (Ldst : zlen dst = 4) (Hp : is_u8 protocol).

Lemma pseudo_part_bound len : 0 <= pseudo_part src dst protocol len <= 327930.
Proof using Hsrc Hdst Lsrc Ldst Hp.
  unfold pseudo_part. pose proof (field_u16_bound src 0 Hsrc). pose proof (field_u16_bound src 2 Hsrc).
  pose proof (field_u16_bound dst 0 Hdst). pose proof (field_u16_bound dst 2 Hdst).
  pose proof (Z.mod_pos_bound len (2 ^ 16)). ulia.
Qed.

Lemma wrap_add x y : wrapping_add_u32 (x mod 2 ^ 32) y = (x + y) mod 2 ^ 32.
Proof. apply Zplus_mod_idemp_l. Qed.

Lemma pseudo_sum_Ok {E} seg : Forall is_byte seg ->
  @pseudo_sum E src dst protocol seg =
  Ok ((pseudo_part src dst protocol (zlen seg) + word_sum seg) mod 2 ^ 32).
Proof using Lsrc Ldst.
  intros Hb. unfold pseudo_sum. rewrite !read_be_Ok by (rewrite ?Lsrc, ?Ldst; lia). cbn [obind].
  rewrite raw_checksum_eq by done. unfold pseudo_part. f_equal.
  change (wrapping_add_u32 0 ?x) with ((0 + x) mod 2 ^ 32). rewrite !wrap_add.
  rewrite Zplus_mod_idemp_r. reflexivity.
Qed.

Lemma pseudo_sum_small seg : Forall is_byte seg -> zlen seg <= transport_capacity ->
  is_u32 (pseudo_part src dst protocol (zlen seg) + word_sum seg).
Proof using Hsrc Hdst Lsrc Ldst Hp.
  intros Hb Hl. pose proof (word_sum_bound seg Hb) as Hw. pose proof (pseudo_part_bound (zlen seg)).
  assert (div_ceil (zlen seg) 2 <= 65531); [|ulia].
  unfold div_ceil, transport_capacity in *. apply Z.lt_succ_r, Z.div_lt_upper_bound; lia.
Qed.

Lemma transport_sum_u32 x : is_u32 (x mod 2 ^ 32).
Proof. pose proof (Z.mod_pos_bound x (2 ^ 32)). ulia. Qed.

Lemma transport_checksum_total {E} seg : Forall is_byte seg ->
  exists c, @compute_ipv4_transport_checksum E src dst protocol seg = Ok c /\ is_u16 c /\
    (c = 0 -> protocol <> 17) /\
    ((pseudo_part src dst protocol (zlen seg) + word_sum seg) mod 2 ^ 32 + c) mod 65535 = 0.
Proof using Lsrc Ldst.
  intros Hb. unfold compute_ipv4_transport_checksum. rewrite pseudo_sum_Ok by done. cbn [obind].
  set (t := _ mod 2 ^ 32). pose proof (transport_sum_u32 (pseudo_part src dst protocol (zlen seg) + word_sum seg)) as Ht.
  fold t in Ht. pose proof (finalize_bound t Ht). pose proof (finalize_residue t Ht) as Hr.
  eexists. split; [reflexivity|].
  destruct (Z.eqb_spec protocol 17), (Z.eqb_spec (finalize_checksum t) 0) as [Hz|]; cbn [andb];
    split_and!; try ulia; try done.
  rewrite Hz, Z.add_0_r in Hr. rewrite Zplus_mod, Hr. reflexivity.
Qed.

Lemma verify_transport_residue {E} seg : Forall is_byte seg -> zlen seg <= transport_capacity ->
  @verify_ipv4_transport_checksum E src dst protocol seg =
  Ok ((pseudo_part src dst protocol (zlen seg) + word_sum seg) mod 65535 =? 0).
Proof using Hsrc Hdst Lsrc Ldst Hp.
  intros Hb Hl. unfold verify_ipv4_transport_checksum. rewrite pseudo_sum_Ok by done. cbn [obind].
  pose proof (pseudo_sum_small seg Hb Hl) as Hs. rewrite Z.mod_small by ulia.
  by rewrite verify_residue.
Qed.

(** The segment with its checksum field zeroed, then filled, verifies. *)
Lemma verify_transport_filled {E E'} pre post :
  let buf := pre ++ [0; 0] ++ post in
  Forall is_byte buf -> zlen buf <= transport_capacity -> zlen pre mod 2 = 0 ->
  exists c, @compute_ipv4_transport_checksum E src dst protocol buf = Ok c /\ is_u16 c /\
    (c = 0 -> protocol <> 17) /\
    @verify_ipv4_transport_checksum E' src dst protocol (pre ++ u16_be c ++ post) = Ok true.
Proof using Hsrc Hdst Lsrc Ldst Hp.
  intros buf Hb Hl He. destruct (@transport_checksum_total E buf Hb) as (c & Hc & Hu & H0 & Hr).
  exists c. split_and!; [done..|]. subst buf.
  pose proof (pseudo_sum_small _ Hb Hl) as Hs. rewrite (Z.mod_small (_ + word_sum _) (2 ^ 32)) in Hr by ulia.
  rewrite !Forall_app in Hb. rewrite !zlen_app in Hl.
  rewrite verify_transport_residue.
  - rewrite (word_sum_field pre [0; 0]) by (done || apply zlen_u16_be).
    rewrite from_u16_be by done. change (from_be_bytes [0; 0]) with 0.
    replace (zlen (pre ++ u16_be c ++ post)) with (zlen (pre ++ [0; 0] ++ post))
      by (rewrite !zlen_app, zlen_u16_be; done).
    do 2 f_equal. rewrite Z.sub_0_r, Z.add_assoc, Hr. done.
  - rewrite !Forall_app. split_and!; [tauto|apply Forall_u16_be|tauto].
  - rewrite !zlen_app, zlen_u16_be. done.
Qed.
End Transport.

#[global] Arguments compute_checksum : simpl never.
#[global] Arguments verify_checksum : simpl never.
