(* ===== verification/Ethernet.v ===== *)
(** * Ethernet II frames ([ethernet.rs]) *)

From S2P Require Import Prelude Bytes NetBytes.

Definition ETHER_ADDR_LEN : Z := 6.
Definition ETHER_HEADER_LEN : Z := 14.
Definition ETHERTYPE_IPV4 : Z := 0x0800.
Definition ETHERTYPE_ARP : Z := 0x0806.
Definition ETHERTYPE_IPV6 : Z := 0x86DD.
Definition ETHERTYPE_VLAN : Z := 0x8100.
Definition ETHERTYPE_MPLS : Z := 0x8847.

(** [MacAddress(pub [u8; 6])] *)
Record MacAddress : Type := Mac { mac_bytes : bytes }.
#[global] Instance MacAddress_eq_dec : EqDecision MacAddress.
Proof. solve_decision. Defined.

Definition mac_wf (m : MacAddress) : Prop := Forall is_byte (mac_bytes m) /\ zlen (mac_bytes m) = 6.

Definition BROADCAST : MacAddress := Mac [0xFF; 0xFF; 0xFF; 0xFF; 0xFF; 0xFF].
Definition ZERO : MacAddress := Mac [0x00; 0x00; 0x00; 0x00; 0x00; 0x00].

Definition mac_is_broadcast (m : MacAddress) : bool :=
  bytes_eqb (mac_bytes m) [0xFF; 0xFF; 0xFF; 0xFF; 0xFF; 0xFF].
Definition mac_is_multicast {E} (m : MacAddress) : outcome E bool :=
  let? b := index_at (mac_bytes m) 0 in
  Ok (negb (Z.land b 0x01 =? 0) && negb (mac_is_broadcast m)).
Definition mac_is_unicast {E} (m : MacAddress) : outcome E bool :=
  let? mc := mac_is_multicast m in Ok (negb mc && negb (mac_is_broadcast m)).

Inductive EtherType : Type := ET_IPv4 | ET_Arp | ET_IPv6 | ET_Vlan | ET_Mpls | ET_Unknown (val : Z).
#[global] Instance EtherType_eq_dec : EqDecision EtherType.
Proof. solve_decision. Defined.

Definition ethertype_from_u16 (val : Z) : EtherType :=
  if val =? ETHERTYPE_IPV4 then ET_IPv4
  else if val =? ETHERTYPE_ARP then ET_Arp
  else if val =? ETHERTYPE_IPV6 then ET_IPv6
  else if val =? ETHERTYPE_VLAN then ET_Vlan
  else if val =? ETHERTYPE_MPLS then ET_Mpls
  else ET_Unknown val.

Definition ethertype_to_u16 (t : EtherType) : Z :=
  match t with
  | ET_IPv4 => ETHERTYPE_IPV4
  | ET_Arp => ETHERTYPE_ARP
  | ET_IPv6 => ETHERTYPE_IPV6
  | ET_Vlan => ETHERTYPE_VLAN
  | ET_Mpls => ETHERTYPE_MPLS
  | ET_Unknown val => val
  end.

Record EthernetFrame : Type := {
  dst_mac : MacAddress;
  src_mac : MacAddress;
  ethertype : EtherType;
  eth_payload : bytes;
}.
#[global] Instance EthernetFrame_eq_dec : EqDecision EthernetFrame.
Proof. solve_decision. Defined.

Inductive EthernetError : Type := FrameTooShort (len : Z) | InvalidLength.
#[global] Instance EthernetError_eq_dec : EqDecision EthernetError.
Proof. solve_decision. Defined.

Definition ethernet_parse (data : bytes) : outcome EthernetError EthernetFrame :=
  try? ensure (negb (zlen data <? ETHER_HEADER_LEN)) (FrameTooShort (zlen data)) in
  let? dst := slice data 0 6 in
  let? src := slice data 6 12 in
  let? ethertype_raw := read_be 2 data 12 in
  let? payload := slice_from data ETHER_HEADER_LEN in
  Ok {| dst_mac := Mac dst; src_mac := Mac src;
        ethertype := ethertype_from_u16 ethertype_raw; eth_payload := payload |}.

Definition ethernet_serialize (dst src : MacAddress) (ethertype : Z) (payload : bytes) : bytes :=
  mac_bytes dst ++ mac_bytes src ++ u16_be ethertype ++ payload.

(** ** Theorems *)

#[export] Hint Unfold ETHER_HEADER_LEN : consts.

Lemma ethertype_to_from val : ethertype_to_u16 (ethertype_from_u16 val) = val.
Proof. unfold ethertype_from_u16. repeat (case_match; bool_facts); subst; done. Qed.

Lemma ethertype_from_to t :
  (forall val, t = ET_Unknown val -> ethertype_from_u16 val = ET_Unknown val) ->
  ethertype_from_u16 (ethertype_to_u16 t) = t.
Proof. destruct t; simpl; auto. Qed.

(** What a frame of at least fourteen bytes parses to. *)
Lemma ethernet_parse_eq data : 14 <= zlen data ->
  ethernet_parse data =
  Ok {| dst_mac := Mac (sub data 0 6); src_mac := Mac (sub data 6 6);
        ethertype := ethertype_from_u16 (from_be_bytes (sub data 12 2));
        eth_payload := sub data 14 (zlen data - 14) |}.
Proof.
  intros Hl. unfold ethernet_parse. rewrite (proj2 (Z.ltb_ge _ _)) by ulia. ostep. be_reads. done.
Qed.

(** C39: Ethernet frames survive the wire. A serialized frame parses back to the
    same addresses, EtherType and payload; a buffer is rejected exactly when it
    is shorter than the header; and every accepted buffer is the serialization
    of the frame it parses to. No input makes the parser panic. *)
Theorem ethernet_roundtrip dst src ty payload data :
  mac_wf dst -> mac_wf src -> is_u16 ty -> Forall is_byte data ->
  ethernet_parse (ethernet_serialize dst src ty payload) =
    Ok {| dst_mac := dst; src_mac := src; ethertype := ethertype_from_u16 ty; eth_payload := payload |} /\
  match ethernet_parse data with
  | Ok f => 14 <= zlen data /\
      ethernet_serialize (dst_mac f) (src_mac f) (ethertype_to_u16 (ethertype f)) (eth_payload f) = data
  | Err e => zlen data < 14 /\ e = FrameTooShort (zlen data)
  | Panic => False
  end.
Proof.
  intros [_ Hd] [_ Hs] Ht Hb. split.
  - unfold ethernet_serialize. rewrite ethernet_parse_eq by (rewrite !zlen_app, zlen_u16_be; pose proof (zlen_nonneg payload); lia).
    destruct dst as [dst], src as [src]; cbn [mac_bytes] in *.
    rewrite (sub_at dst) by done. rewrite !(sub_app_r dst) by lia. rewrite (sub_at src) by lia.
    rewrite !(sub_app_r src) by lia. rewrite (sub_at (u16_be ty)) by zside. rewrite from_u16_be by done.
    rewrite (sub_app_r (u16_be ty)) by zside. replace (14 - _ - _ - _) with 0 by zside.
    rewrite (sub_all payload) by zside. done.
  - destruct (decide (14 <= zlen data)).
    + rewrite ethernet_parse_eq by done. split; [done|]. unfold ethernet_serialize. cbn [dst_mac src_mac mac_bytes ethertype eth_payload].
      rewrite ethertype_to_from, u16_be_from by (first [by apply Forall_sub|zside]).
      rewrite <- (sub_split data 12) by lia. rewrite <- (sub_split data 6) by lia.
      rewrite <- (sub_split data 0) by lia. apply sub_all. lia.
    + unfold ethernet_parse. rewrite (proj2 (Z.ltb_lt _ _)) by ulia. simpl. split; [lia|done].
Qed.

Lemma ethernet_roundtrip_witness :
  ethernet_parse (ethernet_serialize BROADCAST ZERO ETHERTYPE_ARP [1; 2; 3]) =
  Ok {| dst_mac := BROADCAST; src_mac := ZERO; ethertype := ET_Arp; eth_payload := [1; 2; 3] |}.
Proof.
  apply (ethernet_roundtrip BROADCAST ZERO ETHERTYPE_ARP [1; 2; 3] []);
    by apply (bool_decide_eq_true_1 _).
Defined.
