(* ===== verification/Ipv4.v ===== *)
(** * IPv4 packets ([ipv4.rs])

    Addresses, the header parser with its checks in the code's order, the
    serializer, and the in-place TTL decrement a router does. *)

From S2P Require Import Prelude Bytes NetBytes Checksum.

Definition IPV4_MIN_HEADER_LEN : Z := 20.
Definition IP_PROTO_ICMP : Z := 1.
Definition IP_PROTO_TCP : Z := 6.
Definition IP_PROTO_UDP : Z := 17.
#[export] Hint Unfold IPV4_MIN_HEADER_LEN : consts.

(** [Ipv4Address(pub [u8; 4])] *)
Record Ipv4Address : Type := Ip { ip_octets : bytes }.
#[global] Instance Ipv4Address_eq_dec : EqDecision Ipv4Address.
Proof. solve_decision. Defined.
#[global] Instance Ipv4Address_countable : Countable Ipv4Address.
Proof. by refine (inj_countable' ip_octets Ip _); intros []. Defined.

Definition ip_wf (a : Ipv4Address) : Prop := Forall is_byte (ip_octets a) /\ zlen (ip_octets a) = 4.

Definition IP_BROADCAST : Ipv4Address := Ip [255; 255; 255; 255].
Definition LOCALHOST : Ipv4Address := Ip [127; 0; 0; 1].
Definition UNSPECIFIED : Ipv4Address := Ip [0; 0; 0; 0].
Definition ip_new (a b c d : Z) : Ipv4Address := Ip [a; b; c; d].

Definition ip_to_u32 (a : Ipv4Address) : Z := from_be_bytes (ip_octets a).
Definition ip_from_u32 (val : Z) : Ipv4Address := Ip (u32_be val).

(** [!x] on a [u32] is [not_u32] of [Bytes.v]; [1u32 << (32 - prefix_len)] is in
    range because [prefix_len] is between 1 and 31 there. *)
Definition ip_mask (a : Ipv4Address) (prefix_len : Z) : Ipv4Address :=
  if prefix_len =? 0 then UNSPECIFIED
  else if 32 <=? prefix_len then a
  else
    let netmask := not_u32 (Z.shiftl 1 (32 - prefix_len) - 1) in
    ip_from_u32 (Z.land (ip_to_u32 a) netmask).

Definition ip_is_loopback {E} (a : Ipv4Address) : outcome E bool :=
  let? b := index_at (ip_octets a) 0 in Ok (b =? 127).
Definition ip_is_multicast {E} (a : Ipv4Address) : outcome E bool :=
  let? b := index_at (ip_octets a) 0 in Ok ((224 <=? b) && (b <=? 239)).
Definition ip_is_broadcast (a : Ipv4Address) : bool := bytes_eqb (ip_octets a) [255; 255; 255; 255].
Definition ip_is_unspecified (a : Ipv4Address) : bool := bytes_eqb (ip_octets a) [0; 0; 0; 0].

Inductive IpProtocol : Type := Proto_Icmp | Proto_Tcp | Proto_Udp | Proto_Other (v : Z).
#[global] Instance IpProtocol_eq_dec : EqDecision IpProtocol.
Proof. solve_decision. Defined.

Definition protocol_from_u8 (val : Z) : IpProtocol :=
  if val =? IP_PROTO_ICMP then Proto_Icmp
  else if val =? IP_PROTO_TCP then Proto_Tcp
  else if val =? IP_PROTO_UDP then Proto_Udp
  else Proto_Other val.
Definition protocol_to_u8 (p : IpProtocol) : Z :=
  match p with
  | Proto_Icmp => IP_PROTO_ICMP
  | Proto_Tcp => IP_PROTO_TCP
  | Proto_Udp => IP_PROTO_UDP
  | Proto_Other v => v
  end.

Record Ipv4Header : Type := {
  version : Z;
  ihl : Z;
  dscp_ecn : Z;
  total_length : Z;
  identification : Z;
  dont_fragment : bool;
  more_fragments : bool;
  fragment_offset : Z;
  ttl : Z;
  protocol : IpProtocol;
  ip_checksum : Z;
  src_ip : Ipv4Address;
  dst_ip : Ipv4Address;
}.
#[global] Instance Ipv4Header_eq_dec : EqDecision Ipv4Header.
Proof. solve_decision. Defined.

Definition header_len_bytes (h : Ipv4Header) : Z := ihl h * 4.

Record Ipv4Packet : Type := { header : Ipv4Header; ip_payload : bytes }.
#[global] Instance Ipv4Packet_eq_dec : EqDecision Ipv4Packet.
Proof. solve_decision. Defined.

Inductive Ipv4Error : Type :=
| PacketTooShort (len : Z)
| InvalidVersion (v : Z)
| InvalidIhl (i : Z)
| TotalLengthMismatch (declared available : Z)
| TotalLengthSmallerThanHeader (total_len header_length : Z)
| ReservedFragmentFlagSet
| NonFinalFragmentLengthNotMultipleOfEight (payload_length : Z)
| InvalidChecksum (computed found : Z).
#[global] Instance Ipv4Error_eq_dec : EqDecision Ipv4Error.
Proof. solve_decision. Defined.

Definition ipv4_parse (data : bytes) (check_checksum : bool) : outcome Ipv4Error Ipv4Packet :=
  try? ensure (negb (zlen data <? IPV4_MIN_HEADER_LEN)) (PacketTooShort (zlen data)) in
  let? ver_ihl := index_at data 0 in
  let version := Z.shiftr ver_ihl 4 in
  let ihl := Z.land ver_ihl 0x0F in
  try? ensure (version =? 4) (InvalidVersion version) in
  try? ensure (negb (ihl <? 5)) (InvalidIhl ihl) in
  let header_len := ihl * 4 in
  try? ensure (negb (zlen data <? header_len)) (PacketTooShort (zlen data)) in
  let? dscp_ecn := index_at data 1 in
  let? total_length := read_be 2 data 2 in
  try? ensure (negb (total_length <? header_len)) (TotalLengthSmallerThanHeader total_length header_len) in
  try? ensure (negb (zlen data <? total_length)) (TotalLengthMismatch total_length (zlen data)) in
  let? identification := read_be 2 data 4 in
  let? flags_frag := read_be 2 data 6 in
  try? ensure (Z.land flags_frag 0x8000 =? 0) ReservedFragmentFlagSet in
  let dont_fragment := negb (Z.land flags_frag 0x4000 =? 0) in
  let more_fragments := negb (Z.land flags_frag 0x2000 =? 0) in
  let fragment_offset := Z.land flags_frag 0x1FFF in
  let? payload_length := sub_u64 total_length header_len in
  try? ensure (negb (more_fragments && negb (payload_length mod 8 =? 0)))
         (NonFinalFragmentLengthNotMultipleOfEight payload_length) in
  let? ttl := index_at data 8 in
  let? protocol_raw := index_at data 9 in
  let protocol := protocol_from_u8 protocol_raw in
  let? checksum := read_be 2 data 10 in
  let? head := slice data 0 header_len in
  try? ensure (negb (check_checksum && negb (verify_checksum head)))
         (InvalidChecksum (compute_checksum head) checksum) in
  let? src := slice data 12 16 in
  let? dst := slice data 16 20 in
  let? payload := slice data header_len total_length in
  Ok {| header := {| version := version; ihl := ihl; dscp_ecn := dscp_ecn;
                     total_length := total_length; identification := identification;
                     dont_fragment := dont_fragment; more_fragments := more_fragments;
                     fragment_offset := fragment_offset; ttl := ttl; protocol := protocol;
                     ip_checksum := checksum; src_ip := Ip src; dst_ip := Ip dst |};
        ip_payload := payload |}.

(** [data] is the state: it is mutated in place. *)
Definition decrement_ttl_in_place : ST Ipv4Error bytes bool :=
  let! data := iget id in
  let! parsed := ilift (ipv4_parse data true) in
  let header_len := header_len_bytes (header parsed) in
  let ttl := ttl (header parsed) in
  if ttl <=? 1 then iret false
  else
    do! iupd (fun data => set_at data 8 (ttl - 1)) in
    do! iupd (fun data => copy_range data 10 12 [0; 0]) in
    let! data := iget id in
    let! head := ilift (slice data 0 header_len) in
    let checksum := compute_checksum head in
    do! iupd (fun data => copy_range data 10 12 (u16_be checksum)) in
    iret true.

Definition ipv4_serialize {E} (src_ip dst_ip : Ipv4Address) (protocol identification ttl : Z)
    (payload : bytes) : outcome E bytes :=
  let total_length := as_u16 (IPV4_MIN_HEADER_LEN + zlen payload) in
  let buf := [0x45] ++ [0x00] ++ u16_be total_length ++ u16_be identification ++ u16_be 0x4000
             ++ [ttl] ++ [protocol] ++ [0x00; 0x00] ++ ip_octets src_ip ++ ip_octets dst_ip in
  let? head := slice buf 0 IPV4_MIN_HEADER_LEN in
  let csum := compute_checksum head in
  let? buf := copy_range buf 10 12 (u16_be csum) in
  Ok (buf ++ payload).

(** ** What the parser accepts, and what it returns *)

Definition head_len (data : bytes) : Z := byte_at data 0 mod 16 * 4.
Definition total_len (data : bytes) : Z := from_be_bytes (sub data 2 2).
Definition flags_frag (data : bytes) : Z := from_be_bytes (sub data 6 2).

(** The conditions on an IPv4 datagram (RFC 791), as one predicate. *)
Definition ipv4_accepts (data : bytes) (check_checksum : bool) : bool :=
  (20 <=? zlen data) && (byte_at data 0 / 16 =? 4) && (20 <=? head_len data) &&
  (head_len data <=? total_len data) && (total_len data <=? zlen data) &&
  negb (Z.testbit (flags_frag data) 15) &&
  (negb (Z.testbit (flags_frag data) 13) || ((total_len data - head_len data) mod 8 =? 0)) &&
  (negb check_checksum || verify_checksum (sub data 0 (head_len data))).

(** The fields at their RFC 791 offsets. *)
Definition ipv4_view (data : bytes) : Ipv4Packet :=
  {| header := {| version := byte_at data 0 / 16; ihl := byte_at data 0 mod 16;
                  dscp_ecn := byte_at data 1; total_length := total_len data;
                  identification := from_be_bytes (sub data 4 2);
                  dont_fragment := Z.testbit (flags_frag data) 14;
                  more_fragments := Z.testbit (flags_frag data) 13;
                  fragment_offset := flags_frag data mod 2 ^ 13;
                  ttl := byte_at data 8; protocol := protocol_from_u8 (byte_at data 9);
                  ip_checksum := from_be_bytes (sub data 10 2);
                  src_ip := Ip (sub data 12 4); dst_ip := Ip (sub data 16 4) |};
     ip_payload := sub data (head_len data) (total_len data - head_len data) |}.

Lemma head_len_bound data : 0 <= head_len data <= 60.
Proof. unfold head_len. pose proof (Z.mod_pos_bound (byte_at data 0) 16). lia. Qed.

(** The guards of the parser, without the reads. *)
Definition ipv4_guards (data : bytes) (check_checksum : bool) : outcome Ipv4Error unit :=
  try? ensure (byte_at data 0 / 16 =? 4) (InvalidVersion (byte_at data 0 / 16)) in
  try? ensure (negb (byte_at data 0 mod 16 <? 5)) (InvalidIhl (byte_at data 0 mod 16)) in
  try? ensure (negb (zlen data <? head_len data)) (PacketTooShort (zlen data)) in
  try? ensure (negb (total_len data <? head_len data)) (TotalLengthSmallerThanHeader (total_len data) (head_len data)) in
  try? ensure (negb (zlen data <? total_len data)) (TotalLengthMismatch (total_len data) (zlen data)) in
  try? ensure (negb (Z.testbit (flags_frag data) 15)) ReservedFragmentFlagSet in
  try? ensure (negb (Z.testbit (flags_frag data) 13 && negb ((total_len data - head_len data) mod 8 =? 0)))
         (NonFinalFragmentLengthNotMultipleOfEight (total_len data - head_len data)) in
  ensure (negb (check_checksum && negb (verify_checksum (sub data 0 (head_len data)))))
         (InvalidChecksum (compute_checksum (sub data 0 (head_len data))) (from_be_bytes (sub data 10 2))).

Lemma obind_ensure_ext {E A} b (e : E) (k1 k2 : unit -> outcome E A) :
  (b = true -> k1 tt = k2 tt) -> obind (ensure b e) k1 = obind (ensure b e) k2.
Proof. destruct b; simpl; auto. Qed.

Lemma ipv4_parse_guards data chk : 20 <= zlen data ->
  ipv4_parse data chk = try? ipv4_guards data chk in Ok (ipv4_view data).
Proof.
  intros Hl. unfold ipv4_parse, ipv4_guards. rewrite (proj2 (Z.ltb_ge _ _)) by ulia. ostep. be_reads.
  rewrite nibble_high, nibble_low. fold (head_len data) (total_len data) (flags_frag data).
  change 0x8000 with (2 ^ 15). change 0x4000 with (2 ^ 14). change 0x2000 with (2 ^ 13).
  change 0x1FFF with (Z.ones 13). rewrite !land_bit_test, land_mask, !negb_involutive by lia.
  pose proof (head_len_bound data).
  repeat match goal with
  | |- obind (ensure ?b ?e) _ = obind (obind (ensure ?b ?e) _) _ =>
      destruct b eqn:?; ostep; [bool_facts|done]
  end.
  rewrite sub_u64_le by lia. ostep.
  repeat match goal with
  | |- obind (ensure ?b ?e) _ = obind (obind (ensure ?b ?e) _) _ =>
      destruct b eqn:?; ostep; [bool_facts|done]
  end.
  be_reads. rewrite !Z.sub_0_r. apply obind_ensure_ext. intros _. be_reads. done.
Qed.

Lemma ipv4_guards_accept data chk : 20 <= zlen data ->
  match ipv4_guards data chk with
  | Ok _ => ipv4_accepts data chk = true
  | Err _ => ipv4_accepts data chk = false
  | Panic => False
  end.
Proof.
  intros Hl. unfold ipv4_guards, ipv4_accepts. rewrite (proj2 (Z.leb_le 20 (zlen data))) by done.
  replace (20 <=? head_len data) with (negb (byte_at data 0 mod 16 <? 5)) by (unfold head_len; lia).
  rewrite (Z.leb_antisym (total_len data) (head_len data)), (Z.leb_antisym (zlen data) (total_len data)).
  destruct (byte_at data 0 / 16 =? 4); ostep; [|done].
  destruct (byte_at data 0 mod 16 <? 5); ostep; [done|].
  destruct (Z.ltb_spec (zlen data) (head_len data)); ostep.
  { destruct (Z.ltb_spec (total_len data) (head_len data)); [done|].
    by rewrite (proj2 (Z.ltb_lt (zlen data) (total_len data))) by lia. }
  destruct (total_len data <? head_len data); ostep; [done|].
  destruct (zlen data <? total_len data); ostep; [done|].
  destruct (Z.testbit (flags_frag data) 15); ostep; [done|].
  destruct (Z.testbit (flags_frag data) 13), ((total_len data - head_len data) mod 8 =? 0); ostep; try done;
    destruct chk, (verify_checksum (sub data 0 (head_len data))); done.
Qed.

(** C35: the IPv4 parser accepts exactly the datagrams that satisfy every check
    of RFC 791's header layout (version 4, header of 20 to 60 bytes inside the
    total length, total length inside the buffer, reserved flag clear, non-final
    fragments a multiple of eight bytes, and the header checksum when asked) and
    returns the fields at their offsets with the payload cut to the total
    length; everything else is an error, and no buffer makes it panic. *)
Theorem ipv4_parse_exact data check_checksum :
  match ipv4_parse data check_checksum with
  | Ok p => ipv4_accepts data check_checksum = true /\ p = ipv4_view data
  | Err _ => ipv4_accepts data check_checksum = false
  | Panic => False
  end.
Proof.
  destruct (decide (20 <= zlen data)) as [Hl|Hl].
  2:{ unfold ipv4_parse, ipv4_accepts. rewrite (proj2 (Z.ltb_lt _ _)) by ulia. ostep.
      by rewrite (proj2 (Z.leb_gt _ _)) by lia. }
  rewrite ipv4_parse_guards by done. pose proof (ipv4_guards_accept data check_checksum Hl).
  by destruct (ipv4_guards data check_checksum).
Qed.

Lemma ipv4_parse_Ok data chk :
  ipv4_accepts data chk = true -> ipv4_parse data chk = Ok (ipv4_view data).
Proof.
  intros Ha. assert (20 <= zlen data) as Hl.
  { unfold ipv4_accepts in Ha. bool_facts. lia. }
  rewrite ipv4_parse_guards by done. pose proof (ipv4_guards_accept data chk Hl) as H.
  destruct (ipv4_guards data chk); [done|congruence|done].
Qed.

Lemma ipv4_parse_inv data chk p :
  ipv4_parse data chk = Ok p -> ipv4_accepts data chk = true /\ p = ipv4_view data.
Proof.
  intros Hp. destruct (decide (20 <= zlen data)) as [Hl|Hl].
  - rewrite ipv4_parse_guards in Hp by done. pose proof (ipv4_guards_accept data chk Hl) as H.
    destruct (ipv4_guards data chk); simplify_eq/=; done.
  - unfold ipv4_parse in Hp. by rewrite (proj2 (Z.ltb_lt _ _)) in Hp by ulia.
Qed.

Lemma ipv4_parse_no_panic data chk : ipv4_parse data chk <> Panic.
Proof.
  destruct (decide (20 <= zlen data)) as [Hl|Hl].
  - rewrite ipv4_parse_guards by done. pose proof (ipv4_guards_accept data chk Hl) as H.
    by destruct (ipv4_guards data chk).
  - unfold ipv4_parse. by rewrite (proj2 (Z.ltb_lt _ _)) by ulia.
Qed.

(** ** Serialized headers *)

(** A 20-byte header with its checksum field [c]. *)
Definition header_bytes (total id flags ttl proto c : Z) (src dst : bytes) : bytes :=
  [0x45; 0x00] ++ u16_be total ++ u16_be id ++ u16_be flags ++ [ttl; proto] ++ u16_be c ++ src ++ dst.

Definition header_checksum (total id flags ttl proto : Z) (src dst : bytes) : Z :=
  compute_checksum (header_bytes total id flags ttl proto 0 src dst).

Section HeaderBytes.
Context (total id flags ttl proto c : Z) (src dst : Ipv4Address) (payload : bytes).
Context (Hsrc : ip_wf src) (Hdst : ip_wf dst) (Hid : is_u16 id) (Hfl : is_u16 flags)
        (Httl : is_u8 ttl) (Hproto : is_u8 proto).
Abbreviation raw := (header_bytes total id flags ttl proto c (ip_octets src) (ip_octets dst) ++ payload).

Lemma zlen_header_bytes : zlen (header_bytes total id flags ttl proto c (ip_octets src) (ip_octets dst)) = 20.
Proof using Hsrc Hdst. unfold header_bytes. destruct Hsrc as [_ ?], Hdst as [_ ?]. zside. Qed.

Lemma Forall_header_bytes :
  Forall is_byte (header_bytes total id flags ttl proto c (ip_octets src) (ip_octets dst)).
Proof using Hsrc Hdst Httl Hproto.
  unfold header_bytes. destruct Hsrc, Hdst. rewrite !Forall_app, !Forall_cons, !Forall_nil.
  split_and!; auto with bytes; ulia.
Qed.

(** The fields of such a header, as the parser reads them. *)
Lemma header_bytes_view : is_u16 total -> total = 20 + zlen payload -> is_u16 c ->
  ipv4_view raw =
  {| header := {| version := 4; ihl := 5; dscp_ecn := 0; total_length := total; identification := id;
                  dont_fragment := Z.testbit flags 14; more_fragments := Z.testbit flags 13;
                  fragment_offset := flags mod 2 ^ 13; Ipv4.ttl := ttl; protocol := protocol_from_u8 proto;
                  ip_checksum := c; src_ip := src; dst_ip := dst |};
     ip_payload := payload |}.
Proof using Hsrc Hdst Hid Hfl.
  intros Ht Hp Hc. destruct Hsrc as [_ Ls], Hdst as [_ Ld]. 
  assert (flags_frag raw = flags) as Hf.
  { unfold flags_frag, header_bytes. rewrite <- !app_assoc. field_at. by apply from_u16_be. }
  assert (total_len raw = total) as Htl.
  { unfold total_len, header_bytes. rewrite <- !app_assoc. field_at. by apply from_u16_be. }
  assert (head_len raw = 20) as Hh by done.
  unfold ipv4_view. rewrite Hf, Htl, Hh. f_equal; [f_equal|].
  all: try reflexivity.
  5:{ rewrite sub_app_r by (rewrite zlen_header_bytes; lia). rewrite zlen_header_bytes. apply sub_all. lia. }
  all: unfold header_bytes; rewrite <- ?app_assoc; field_at.
  1,2: by apply from_u16_be.
  all: by destruct src, dst.
Qed.

Lemma header_bytes_accepts chk :
  is_u16 total -> total = 20 + zlen payload -> 
  Z.testbit flags 15 = false -> (Z.testbit flags 13 = true -> zlen payload mod 8 = 0) ->
  c = header_checksum total id flags ttl proto (ip_octets src) (ip_octets dst) ->
  ipv4_accepts raw chk = true.
Proof using Hsrc Hdst Hid Hfl Httl Hproto.
  intros Ht Hp H15 H13 Hc. pose proof zlen_header_bytes as Hz. destruct Hsrc as [Bs Ls], Hdst as [Bd Ld].
  assert (flags_frag raw = flags) as Hf.
  { unfold flags_frag, header_bytes. rewrite <- !app_assoc. field_at. by apply from_u16_be. }
  assert (total_len raw = total) as Htl.
  { unfold total_len, header_bytes. rewrite <- !app_assoc. field_at. by apply from_u16_be. }
  assert (head_len raw = 20) as Hh by done.
  assert (verify_checksum (sub raw 0 20) = true) as Hv.
  { rewrite sub_app_l, sub_all by (rewrite ?zlen_header_bytes; lia).
    rewrite Hc. unfold header_checksum, header_bytes.
    set (pre := [0x45; 0x00] ++ u16_be total ++ u16_be id ++ u16_be flags ++ [ttl; proto]).
    pose proof (verify_filled pre (ip_octets src ++ ip_octets dst)) as Hfill.
    subst pre. rewrite <- !app_assoc in Hfill. change [0; 0] with (u16_be 0) in Hfill. apply Hfill.
    - rewrite !Forall_app, !Forall_cons, !Forall_nil. split_and!; auto with bytes; ulia.
    - unfold checksum_capacity. zside.
    - by autorewrite with zlen. }
  unfold ipv4_accepts. rewrite Hf, Htl, Hh, H15, Hv, zlen_app, Hz.
  pose proof (zlen_nonneg payload).
  rewrite !(proj2 (Z.leb_le _ _)) by lia.
  replace (total - 20) with (zlen payload) by lia.
  change (byte_at raw 0 / 16 =? 4) with true.
  destruct (Z.testbit flags 13); [rewrite H13 by done|]; by rewrite ?orb_true_r.
Qed.
End HeaderBytes.

(** Filling in the checksum of a header built with a zero field. *)
Lemma fill_header {E} total id flags ttl proto src dst : ip_wf src -> ip_wf dst ->
  let buf := header_bytes total id flags ttl proto 0 (ip_octets src) (ip_octets dst) in
  (let? head := slice buf 0 IPV4_MIN_HEADER_LEN in
   copy_range buf 10 12 (u16_be (compute_checksum head))) =
  @Ok E _ (header_bytes total id flags ttl proto
     (header_checksum total id flags ttl proto (ip_octets src) (ip_octets dst)) (ip_octets src) (ip_octets dst)).
Proof.
  intros Hs Hd buf. pose proof (zlen_header_bytes total id flags ttl proto 0 src dst Hs Hd) as Hz.
  fold buf in Hz. rewrite slice_Ok by (rewrite ?Hz; ulia). ostep.
  rewrite sub_all by (rewrite Hz; done). rewrite copy_range_Ok by (rewrite ?zlen_u16_be, ?Hz; lia).
  reflexivity.
Qed.

(** The packet [serialize] produces parses to. *)
Definition serialized_packet (src dst : Ipv4Address) (proto id ttl0 : Z) (payload : bytes) : Ipv4Packet :=
  {| header := {| version := 4; ihl := 5; dscp_ecn := 0; total_length := 20 + zlen payload;
                  identification := id; dont_fragment := true; more_fragments := false; fragment_offset := 0;
                  ttl := ttl0; protocol := protocol_from_u8 proto;
                  ip_checksum := header_checksum (20 + zlen payload) id 0x4000 ttl0 proto (ip_octets src) (ip_octets dst);
                  src_ip := src; dst_ip := dst |};
     ip_payload := payload |}.

Lemma ipv4_serialize_eq {E} src dst proto id ttl0 payload : ip_wf src -> ip_wf dst ->
  let total := as_u16 (20 + zlen payload) in
  @ipv4_serialize E src dst proto id ttl0 payload =
  Ok (header_bytes total id 0x4000 ttl0 proto
        (header_checksum total id 0x4000 ttl0 proto (ip_octets src) (ip_octets dst))
        (ip_octets src) (ip_octets dst) ++ payload).
Proof.
  intros Hs Hd total. unfold ipv4_serialize. change (as_u16 (IPV4_MIN_HEADER_LEN + zlen payload)) with total.
  pose proof (@fill_header E total id 0x4000 ttl0 proto src dst Hs Hd) as Hf. cbv zeta in Hf.
  change (header_bytes total id 0x4000 ttl0 proto 0 (ip_octets src) (ip_octets dst)) with
    ([0x45] ++ [0x00] ++ u16_be total ++ u16_be id ++ u16_be 0x4000 ++ [ttl0] ++ [proto] ++ [0; 0]
     ++ ip_octets src ++ ip_octets dst) in Hf.
  destruct (slice _ 0 IPV4_MIN_HEADER_LEN); simplify_eq/=. cbn [obind] in Hf. by rewrite Hf.
Qed.

Lemma header_checksum_u16 total id flags ttl0 proto src dst :
  ip_wf src -> ip_wf dst -> is_u8 ttl0 -> is_u8 proto ->
  is_u16 (header_checksum total id flags ttl0 proto (ip_octets src) (ip_octets dst)).
Proof.
  intros. unfold header_checksum, compute_checksum. by apply finalize_bound, raw_checksum_u32, Forall_header_bytes.
Qed.

(** An IPv4 datagram of at most 65535 bytes survives the wire: serializing
    returns its 20-byte header and payload, and the parser, checksum
    verification included, recovers every field and the payload. *)
Theorem ipv4_roundtrip src dst proto id ttl0 payload :
  ip_wf src -> ip_wf dst -> is_u8 proto -> is_u16 id -> is_u8 ttl0 -> zlen payload <= 65515 ->
  exists raw, @ipv4_serialize Ipv4Error src dst proto id ttl0 payload = Ok raw /\
    zlen raw = 20 + zlen payload /\
    ipv4_parse raw true = Ok (serialized_packet src dst proto id ttl0 payload).
Proof.
  intros Hs Hd Hp Hi Ht Hl. pose proof (zlen_nonneg payload).
  rewrite ipv4_serialize_eq by done. cbv zeta. unfold as_u16. rewrite Z.mod_small by lia.
  eexists. split; [reflexivity|]. split; [by rewrite zlen_app, zlen_header_bytes|].
  rewrite ipv4_parse_Ok.
  - rewrite header_bytes_view by (first [done|by apply header_checksum_u16|ulia]). done.
  - apply header_bytes_accepts; done || ulia.
Qed.

Lemma ipv4_roundtrip_witness :
  ipv4_parse [0x45; 0; 0; 22; 0x13; 0x37; 0x40; 0; 64; 17; 85; 132; 192; 168; 1; 100; 8; 8; 8; 8; 1; 2] true =
  Ok (serialized_packet (Ip [192; 168; 1; 100]) (Ip [8; 8; 8; 8]) 17 0x1337 64 [1; 2]).
Proof.
  destruct (ipv4_roundtrip (Ip [192; 168; 1; 100]) (Ip [8; 8; 8; 8]) 17 0x1337 64 [1; 2])
    as (raw & Hs & _ & <-); [by apply (bool_decide_eq_true_1 _)..|].
  vm_compute in Hs. simplify_eq. reflexivity.
Defined.

(** ** Forwarding *)

Lemma verify_put buf a : Forall is_byte buf -> zlen buf <= checksum_capacity -> 0 <= a -> a mod 2 = 0 ->
  a + 2 <= zlen buf ->
  verify_checksum (put buf a (u16_be (compute_checksum (put buf a [0; 0])))) = true.
Proof.
  intros Hb Hl Ha He Hf. rewrite !put_split by (rewrite ?zlen_u16_be; done).
  rewrite zlen_u16_be. change (zlen [0; 0]) with 2. apply verify_filled.
  - rewrite !Forall_app. split_and!; [by apply Forall_sub| |by apply Forall_sub]. repeat constructor; ulia.
  - rewrite !zlen_app, !zlen_sub by lia. change (zlen [0; 0]) with 2. lia.
  - by rewrite zlen_sub by lia.
Qed.

(** The bytes a forwarding step leaves: TTL and checksum replaced. *)
Definition forwarded (data : bytes) : bytes :=
  let d1 := put data 8 [byte_at data 8 - 1] in
  put d1 10 (u16_be (compute_checksum (put (sub d1 0 (head_len data)) 10 [0; 0]))).

(** The same packet with another TTL and checksum. *)
Definition with_ttl (p : Ipv4Packet) (ttl0 c : Z) : Ipv4Packet :=
  let h := header p in
  {| header := {| version := version h; ihl := ihl h; dscp_ecn := dscp_ecn h; total_length := total_length h;
                  identification := identification h; dont_fragment := dont_fragment h;
                  more_fragments := more_fragments h; fragment_offset := fragment_offset h;
                  ttl := ttl0; protocol := protocol h; ip_checksum := c;
                  src_ip := src_ip h; dst_ip := dst_ip h |};
     ip_payload := ip_payload p |}.

Section Forward.
Context (data : bytes) (Hb : Forall is_byte data) (Hacc : ipv4_accepts data true = true).

Lemma accepts_len : 20 <= zlen data /\ 20 <= head_len data <= zlen data.
Proof using Hacc. unfold ipv4_accepts in Hacc. bool_facts. lia. Qed.

Lemma ttl_written b : zlen (put data 8 [b]) = zlen data.
Proof using Hacc. pose proof accepts_len. rewrite zlen_put; change (zlen [b]) with 1; lia. Qed.

Lemma zlen_forwarded : zlen (forwarded data) = zlen data.
Proof using Hacc.
  pose proof accepts_len. unfold forwarded. rewrite zlen_put; rewrite ?zlen_u16_be, ?ttl_written; lia.
Qed.

Lemma forwarded_byte i : 0 <= i -> i <> 8 -> i <> 10 -> i <> 11 -> byte_at (forwarded data) i = byte_at data i.
Proof using Hacc.
  intros. pose proof accepts_len. unfold forwarded.
  rewrite byte_at_put_outside by (rewrite ?zlen_u16_be, ?ttl_written; lia).
  rewrite byte_at_put_outside; change (zlen [_]) with 1; lia.
Qed.

Lemma forwarded_sub a n : 0 <= a -> 0 <= n ->
  (a + n <= 8 \/ 9 <= a /\ a + n <= 10 \/ 12 <= a) -> sub (forwarded data) a n = sub data a n.
Proof using Hacc.
  intros Ha Hn Hr. pose proof accepts_len. unfold forwarded. set (d1 := put data 8 _).
  assert (zlen d1 = zlen data) as Hd1 by apply ttl_written.
  transitivity (sub d1 a n).
  - destruct Hr as [?|[?|?]]; [apply sub_put_before|apply sub_put_before|apply sub_put_after];
      rewrite ?zlen_u16_be; lia.
  - subst d1. destruct Hr as [?|[?|?]]; [apply sub_put_before|apply sub_put_after|apply sub_put_after];
      change (zlen [_]) with 1; lia.
Qed.

Lemma forwarded_head_len : head_len (forwarded data) = head_len data.
Proof using Hacc. unfold head_len. by rewrite forwarded_byte by lia. Qed.
Lemma forwarded_total_len : total_len (forwarded data) = total_len data.
Proof using Hacc. unfold total_len. by rewrite forwarded_sub by lia. Qed.
Lemma forwarded_flags : flags_frag (forwarded data) = flags_frag data.
Proof using Hacc. unfold flags_frag. by rewrite forwarded_sub by lia. Qed.

Lemma forwarded_verifies : 1 < byte_at data 8 -> verify_checksum (sub (forwarded data) 0 (head_len data)) = true.
Proof using Hacc Hb.
  intros Ht. pose proof accepts_len. pose proof (head_len_bound data). pose proof (byte_at_bound data 8 Hb).
  unfold forwarded. set (d1 := put data 8 _).
  assert (zlen d1 = zlen data) as Hd1 by apply ttl_written.
  rewrite sub_put_prefix by (rewrite ?zlen_u16_be; lia). apply verify_put.
  - apply Forall_sub, Forall_put; [done|]. repeat constructor; ulia.
  - unfold checksum_capacity. rewrite zlen_sub by lia. lia.
  - lia.
  - done.
  - rewrite zlen_sub by lia. lia.
Qed.

Lemma forwarded_accepts : 1 < byte_at data 8 -> ipv4_accepts (forwarded data) true = true.
Proof using Hacc Hb.
  intros Ht. pose proof (forwarded_verifies Ht) as Hv. pose proof Hacc as Ha. unfold ipv4_accepts in *.
  rewrite zlen_forwarded, forwarded_head_len, forwarded_total_len, forwarded_flags, Hv.
  rewrite forwarded_byte by lia. rewrite !andb_true_iff in *. cbn [negb orb]. tauto.
Qed.

Lemma forwarded_view : ipv4_view (forwarded data) =
  with_ttl (ipv4_view data) (byte_at data 8 - 1) (from_be_bytes (sub (forwarded data) 10 2)).
Proof using Hacc.
  pose proof accepts_len. unfold ipv4_view, with_ttl. cbn [header ip_payload version ihl dscp_ecn total_length
    identification dont_fragment more_fragments fragment_offset ttl protocol ip_checksum src_ip dst_ip].
  rewrite forwarded_head_len, forwarded_total_len, forwarded_flags.
  rewrite !(forwarded_byte 0), (forwarded_byte 1), (forwarded_byte 9) by lia.
  rewrite (forwarded_sub 4), (forwarded_sub 12), (forwarded_sub 16) by lia.
  rewrite (forwarded_sub (head_len data)).
  - do 2 f_equal. unfold forwarded.
    rewrite byte_at_put_outside by (rewrite ?zlen_u16_be, ?ttl_written; lia).
    rewrite byte_at_put_inside by (change (zlen [_]) with 1; lia). done.
  - lia.
  - unfold ipv4_accepts in Hacc. bool_facts. lia.
  - lia.
Qed.
End Forward.

Lemma decrement_ttl_runs data p : ipv4_parse data true = Ok p ->
  decrement_ttl_in_place data =
  if ttl (header p) <=? 1 then (Ok false, data) else (Ok true, forwarded data).
Proof.
  intros Hp. pose proof (ipv4_parse_inv _ _ _ Hp) as [Ha ->]. pose proof (accepts_len data Ha) as [? ?].
  unfold decrement_ttl_in_place, ibind, iget, ilift, iupd, iret, id. rewrite Hp.
  change (header_len_bytes (header (ipv4_view data))) with (head_len data).
  change (ttl (header (ipv4_view data))) with (byte_at data 8).
  case_match; [done|]. rewrite set_at_put by lia.
  assert (zlen (put data 8 [byte_at data 8 - 1]) = zlen data) as Hz by (by apply ttl_written).
  set (d1 := put data 8 _) in *. assert (zlen (put d1 10 [0; 0]) = zlen data) as Hz2
    by (rewrite zlen_put; change (zlen [0; 0]) with 2; lia).
  rewrite copy_range_Ok by (change (zlen [0; 0]) with 2; lia).
  rewrite slice_Ok, Z.sub_0_r by lia. rewrite copy_range_Ok by (rewrite ?zlen_u16_be; lia).
  unfold forwarded. rewrite put_put_same by (rewrite ?zlen_u16_be; done || (change (zlen [0; 0]) with 2; lia)).
  by rewrite sub_put_prefix by (change (zlen [0; 0]) with 2; lia).
Qed.

(** C36: forwarding a datagram in place is exact. A buffer the parser rejects is
    left alone and its error returned; a TTL of 0 or 1 leaves the buffer alone
    and returns [false]; otherwise the buffer keeps its length and every byte but
    the TTL and the checksum, and the result is again a valid datagram, with the
    same header fields, options and payload and the TTL one less. *)
Theorem decrement_ttl_exact data :
  Forall is_byte data ->
  match decrement_ttl_in_place data with
  | (Ok true, data') => exists p c,
      ipv4_parse data true = Ok p /\ 1 < ttl (header p) /\
      ipv4_parse data' true = Ok (with_ttl p (ttl (header p) - 1) c) /\ zlen data' = zlen data /\
      forall i, 0 <= i -> i ∉ [8; 10; 11] -> byte_at data' i = byte_at data i
  | (Ok false, data') => data' = data /\ exists p, ipv4_parse data true = Ok p /\ ttl (header p) <= 1
  | (Err e, data') => data' = data /\ ipv4_parse data true = Err e
  | (Panic, _) => False
  end.
Proof.
  intros Hb. destruct (ipv4_parse data true) as [p|e|] eqn:Hp.
  - rewrite (decrement_ttl_runs data p Hp). pose proof (ipv4_parse_inv _ _ _ Hp) as [Ha ->].
    destruct (Z.leb_spec (ttl (header (ipv4_view data))) 1); [by eauto|]. eexists _, _. split; [done|]. split; [done|]. split.
    + rewrite ipv4_parse_Ok by (by apply forwarded_accepts). by rewrite forwarded_view.
    + split; [by apply zlen_forwarded|]. intros i Hi Hni.
      apply forwarded_byte; [done..|set_solver|set_solver|set_solver].
  - unfold decrement_ttl_in_place, ibind, iget, ilift, id. by rewrite Hp.
  - by apply ipv4_parse_no_panic in Hp.
Qed.

Lemma decrement_ttl_exact_witness :
  let data := [0x46; 0; 0; 24; 0; 0; 0; 0; 2; 17; 0xc9; 0x9e; 192; 0; 2; 1; 198; 51; 100; 1; 1; 1; 1; 0] in
  exists data' p c, decrement_ttl_in_place data = (Ok true, data') /\
    ipv4_parse data' true = Ok (with_ttl p 1 c) /\ zlen data' = 24.
Proof.
  intros data. pose proof (decrement_ttl_exact data ltac:(by apply (bool_decide_eq_true_1 _))) as H.
  destruct (decrement_ttl_in_place data) as [[[]|e|] data'] eqn:Hd; vm_compute in Hd; simplify_eq.
  destruct H as (p & c & Hp & _ & Hp' & Hz & _). vm_compute in Hp. simplify_eq.
  eexists _, _, c. split; [reflexivity|]. split; [exact Hp'|exact Hz].
Defined.
