(* ===== verification/Icmp.v ===== *)
(** * ICMP messages ([icmp.rs], and the error builders of [diagnostics.rs]) *)

From S2P Require Import Prelude Bytes NetBytes Checksum Ipv4.

Definition ICMP_TYPE_ECHO_REPLY : Z := 0.
Definition ICMP_TYPE_DEST_UNREACHABLE : Z := 3.
Definition ICMP_TYPE_ECHO_REQUEST : Z := 8.
Definition ICMP_TYPE_TIME_EXCEEDED : Z := 11.
Definition ICMP_HEADER_LEN : Z := 8.
#[export] Hint Unfold ICMP_HEADER_LEN : consts.

Inductive IcmpType : Type := EchoReply | EchoRequest | DestinationUnreachable | TimeExceeded | IcmpOther (val : Z).
#[global] Instance IcmpType_eq_dec : EqDecision IcmpType.
Proof. solve_decision. Defined.

Definition icmp_type_from_u8 (val : Z) : IcmpType :=
  if val =? ICMP_TYPE_ECHO_REPLY then EchoReply
  else if val =? ICMP_TYPE_ECHO_REQUEST then EchoRequest
  else if val =? ICMP_TYPE_DEST_UNREACHABLE then DestinationUnreachable
  else if val =? ICMP_TYPE_TIME_EXCEEDED then TimeExceeded
  else IcmpOther val.
Definition icmp_type_to_u8 (t : IcmpType) : Z :=
  match t with
  | EchoReply => ICMP_TYPE_ECHO_REPLY
  | EchoRequest => ICMP_TYPE_ECHO_REQUEST
  | DestinationUnreachable => ICMP_TYPE_DEST_UNREACHABLE
  | TimeExceeded => ICMP_TYPE_TIME_EXCEEDED
  | IcmpOther val => val
  end.

Record IcmpPacket : Type := {
  icmp_type : IcmpType;
  icmp_code : Z;
  icmp_checksum : Z;
  identifier : Z;
  sequence_number : Z;
  icmp_payload : bytes;
}.
#[global] Instance IcmpPacket_eq_dec : EqDecision IcmpPacket.
Proof. solve_decision. Defined.

Inductive IcmpError : Type := IcmpTooShort (len : Z) | IcmpBadChecksum (computed found : Z).
#[global] Instance IcmpError_eq_dec : EqDecision IcmpError.
Proof. solve_decision. Defined.

(** How much of the offending datagram an error message quotes. *)
Definition ipv4_error_quote_len (orig_datagram : bytes) : Z :=
  let fallback := Z.min (zlen orig_datagram) 28 in
  match orig_datagram with
  | version_ihl :: _ =>
      let version := Z.shiftr version_ihl 4 in
      let ihl_words := Z.land version_ihl 0x0f in
      let header_len := Z.min (ihl_words * 4) u64_max in
      if (version =? 4) && (5 <=? ihl_words) && (header_len <=? zlen orig_datagram)
      then Z.min (zlen orig_datagram) (saturating_add header_len 8)
      else fallback
  | [] => fallback
  end.

Definition icmp_parse (data : bytes) (check_checksum : bool) : outcome IcmpError IcmpPacket :=
  try? ensure (negb (zlen data <? ICMP_HEADER_LEN)) (IcmpTooShort (zlen data)) in
  try? (if check_checksum && negb (verify_checksum data) then
          let actual := compute_checksum data in
          let? found := read_be 2 data 2 in
          Err (IcmpBadChecksum actual found)
        else Ok tt) in
  let? ty := index_at data 0 in
  let? code := index_at data 1 in
  let? checksum := read_be 2 data 2 in
  let? identifier := read_be 2 data 4 in
  let? sequence_number := read_be 2 data 6 in
  let? payload := slice_from data ICMP_HEADER_LEN in
  Ok {| icmp_type := icmp_type_from_u8 ty; icmp_code := code; icmp_checksum := checksum;
        identifier := identifier; sequence_number := sequence_number; icmp_payload := payload |}.

Definition icmp_serialize {E} (ty code identifier sequence_number : Z) (payload : bytes) : outcome E bytes :=
  let buf := [ty] ++ [code] ++ [0x00; 0x00] ++ u16_be identifier ++ u16_be sequence_number ++ payload in
  let csum := compute_checksum buf in
  copy_range buf 2 4 (u16_be csum).

Definition build_echo_reply {E} (req : IcmpPacket) : outcome E bytes :=
  icmp_serialize ICMP_TYPE_ECHO_REPLY 0 (identifier req) (sequence_number req) (icmp_payload req).
Definition build_echo_request {E} (identifier sequence_number : Z) (payload : bytes) : outcome E bytes :=
  icmp_serialize ICMP_TYPE_ECHO_REQUEST 0 identifier sequence_number payload.

Definition build_time_exceeded {E} (code : Z) (orig_datagram : bytes) : outcome E bytes :=
  let copy_len := ipv4_error_quote_len orig_datagram in
  let payload := [0; 0; 0; 0] in
  let? quote := slice orig_datagram 0 copy_len in
  icmp_serialize ICMP_TYPE_TIME_EXCEEDED code 0 0 (payload ++ quote).

Definition build_destination_unreachable {E} (code next_hop_mtu : Z) (orig_datagram : bytes) : outcome E bytes :=
  let copy_len := ipv4_error_quote_len orig_datagram in
  let payload := if code =? 4 then [0; 0] ++ u16_be next_hop_mtu else [0; 0; 0; 0] in
  let? quote := slice orig_datagram 0 copy_len in
  icmp_serialize ICMP_TYPE_DEST_UNREACHABLE code 0 0 (payload ++ quote).

(** ** [diagnostics.rs] *)

Definition ICMP_CODE_FRAG_NEEDED : Z := 4.
Definition ICMP_CODE_TTL_EXPIRED : Z := 0.
#[export] Hint Unfold ICMP_TYPE_DEST_UNREACHABLE ICMP_TYPE_TIME_EXCEEDED ICMP_CODE_FRAG_NEEDED ICMP_CODE_TTL_EXPIRED : consts.

Definition build_icmp_time_exceeded {E} (original_ip_packet : bytes) : outcome E bytes :=
  let payload_slice_len := Z.min (zlen original_ip_packet) 28 in
  let? quote := slice original_ip_packet 0 payload_slice_len in
  let buf := [ICMP_TYPE_TIME_EXCEEDED] ++ [ICMP_CODE_TTL_EXPIRED] ++ [0; 0] ++ [0; 0; 0; 0] ++ quote in
  let csum := compute_checksum buf in
  let? buf := set_at buf 2 (as_u8 (Z.shiftr csum 8)) in
  set_at buf 3 (as_u8 (Z.land csum 0xFF)).

Definition build_icmp_frag_needed {E} (next_hop_mtu : Z) (original_ip_packet : bytes) : outcome E bytes :=
  let payload_slice_len := Z.min (zlen original_ip_packet) 28 in
  let? quote := slice original_ip_packet 0 payload_slice_len in
  let buf := [ICMP_TYPE_DEST_UNREACHABLE] ++ [ICMP_CODE_FRAG_NEEDED] ++ [0; 0] ++ [0; 0]
             ++ u16_be next_hop_mtu ++ quote in
  let csum := compute_checksum buf in
  let? buf := set_at buf 2 (as_u8 (Z.shiftr csum 8)) in
  set_at buf 3 (as_u8 (Z.land csum 0xFF)).

Definition parse_pmtud_next_hop_mtu {E} (icmp_data : bytes) : outcome E (option Z) :=
  if negb (8 <=? zlen icmp_data) then Ok None else
  let? ty := index_at icmp_data 0 in
  if negb (ty =? ICMP_TYPE_DEST_UNREACHABLE) then Ok None else
  let? code := index_at icmp_data 1 in
  if negb (code =? ICMP_CODE_FRAG_NEEDED) then Ok None else
  let? mtu := read_be 2 icmp_data 6 in
  Ok (Some mtu).

(** ** Theorems *)

Lemma icmp_type_to_from val : icmp_type_to_u8 (icmp_type_from_u8 val) = val.
Proof. unfold icmp_type_from_u8. repeat (case_match; bool_facts); subst; done. Qed.

(** A message with its checksum field [c]. *)
Definition icmp_bytes (ty code c id seq : Z) (payload : bytes) : bytes :=
  [ty; code] ++ u16_be c ++ u16_be id ++ u16_be seq ++ payload.
Definition icmp_sum (ty code id seq : Z) (payload : bytes) : Z := compute_checksum (icmp_bytes ty code 0 id seq payload).

Lemma icmp_serialize_eq {E} ty code id seq payload :
  @icmp_serialize E ty code id seq payload =
  Ok (icmp_bytes ty code (icmp_sum ty code id seq payload) id seq payload).
Proof.
  unfold icmp_serialize. rewrite copy_range_Ok; [reflexivity|lia|by rewrite zlen_u16_be|].
  pose proof (zlen_nonneg payload). zside.
Qed.

Lemma zlen_icmp_bytes ty code c id seq payload : zlen (icmp_bytes ty code c id seq payload) = 8 + zlen payload.
Proof. unfold icmp_bytes. autorewrite with zlen. lia. Qed.

(** What the parser returns for a message it accepts. *)
Lemma icmp_parse_eq data chk : 8 <= zlen data ->
  icmp_parse data chk =
  if chk && negb (verify_checksum data)
  then Err (IcmpBadChecksum (compute_checksum data) (from_be_bytes (sub data 2 2)))
  else Ok {| icmp_type := icmp_type_from_u8 (byte_at data 0); icmp_code := byte_at data 1;
             icmp_checksum := from_be_bytes (sub data 2 2); identifier := from_be_bytes (sub data 4 2);
             sequence_number := from_be_bytes (sub data 6 2); icmp_payload := sub data 8 (zlen data - 8) |}.
Proof.
  intros Hl. unfold icmp_parse. rewrite (proj2 (Z.ltb_ge _ _)) by ulia. ostep.
  destruct (chk && negb (verify_checksum data)); be_reads; done.
Qed.

Section Message.
Context (ty code id seq : Z) (payload : bytes).
Context (Hty : is_u8 ty) (Hcode : is_u8 code) (Hid : is_u16 id) (Hseq : is_u16 seq)
        (Hb : Forall is_byte payload) (Hl : zlen payload <= 131066).

Lemma Forall_icmp_bytes c : Forall is_byte (icmp_bytes ty code c id seq payload).
Proof using Hty Hcode Hb.
  unfold icmp_bytes. rewrite !Forall_app, !Forall_cons, !Forall_nil. split_and!; auto with bytes.
Qed.

Lemma icmp_sum_u16 : is_u16 (icmp_sum ty code id seq payload).
Proof using Hty Hcode Hb. unfold icmp_sum, compute_checksum. apply finalize_bound, raw_checksum_u32, Forall_icmp_bytes. Qed.

Lemma icmp_bytes_verify :
  verify_checksum (icmp_bytes ty code (icmp_sum ty code id seq payload) id seq payload) = true.
Proof using Hty Hcode Hb Hl.
  unfold icmp_sum. unfold icmp_bytes at 1.
  pose proof (verify_filled [ty; code] (u16_be id ++ u16_be seq ++ payload)) as Hf. apply Hf.
  - apply (Forall_icmp_bytes 0).
  - change ([ty; code] ++ [0; 0] ++ u16_be id ++ u16_be seq ++ payload) with (icmp_bytes ty code 0 id seq payload).
    rewrite zlen_icmp_bytes. unfold checksum_capacity. lia.
  - done.
Qed.

Lemma icmp_message_parses chk :
  icmp_parse (icmp_bytes ty code (icmp_sum ty code id seq payload) id seq payload) chk =
  Ok {| icmp_type := icmp_type_from_u8 ty; icmp_code := code;
        icmp_checksum := icmp_sum ty code id seq payload;
        identifier := id; sequence_number := seq; icmp_payload := payload |}.
Proof using Hty Hcode Hid Hseq Hb Hl.
  rewrite icmp_parse_eq by (rewrite zlen_icmp_bytes; pose proof (zlen_nonneg payload); lia).
  rewrite icmp_bytes_verify, andb_false_r. do 2 f_equal.
  - unfold icmp_bytes. field_at. apply from_u16_be, icmp_sum_u16.
  - unfold icmp_bytes. field_at. by apply from_u16_be.
  - unfold icmp_bytes. field_at. by apply from_u16_be.
  - rewrite zlen_icmp_bytes. unfold icmp_bytes. repeat (rewrite sub_app_r by zside).
    rewrite !zlen_u16_be. change (zlen [ty; code]) with 2. apply sub_all. lia.
Qed.
End Message.

Lemma icmp_parse_fields data chk p : Forall is_byte data -> icmp_parse data chk = Ok p ->
  8 <= zlen data /\ is_u8 (icmp_type_to_u8 (icmp_type p)) /\ is_u8 (icmp_code p) /\ is_u16 (identifier p) /\
  is_u16 (sequence_number p) /\ Forall is_byte (icmp_payload p) /\ zlen (icmp_payload p) = zlen data - 8.
Proof.
  intros Hb Hp. destruct (decide (8 <= zlen data)) as [Hl|Hl].
  - rewrite icmp_parse_eq in Hp by done. case_match; [done|]. simplify_eq. cbn [icmp_type icmp_code identifier
      sequence_number icmp_payload]. rewrite icmp_type_to_from. split_and!; [done|by apply byte_at_bound..| | | |].
    + apply field_u16_bound; (done || lia).
    + apply field_u16_bound; (done || lia).
    + by apply Forall_sub.
    + rewrite zlen_sub; lia.
  - unfold icmp_parse in Hp. by rewrite (proj2 (Z.ltb_lt _ _)) in Hp by ulia.
Qed.

(** The ping exchange. A request built for any identifier, sequence number
    and payload parses, checksum included, as an echo request with those fields,
    and the reply built from any message the parser accepts parses as an echo
    reply with the request's identifier, sequence number and payload. *)
Theorem icmp_echo_exchange id seq payload data req :
  is_u16 id -> is_u16 seq -> Forall is_byte payload -> zlen payload <= 131066 ->
  Forall is_byte data -> zlen data <= 131074 -> icmp_parse data true = Ok req ->
  (exists raw p, @build_echo_request IcmpError id seq payload = Ok raw /\ icmp_parse raw true = Ok p /\
     icmp_type p = EchoRequest /\ identifier p = id /\ sequence_number p = seq /\ icmp_payload p = payload) /\
  (exists raw p, @build_echo_reply IcmpError req = Ok raw /\ icmp_parse raw true = Ok p /\
     icmp_type p = EchoReply /\ icmp_code p = 0 /\ identifier p = identifier req /\
     sequence_number p = sequence_number req /\ icmp_payload p = icmp_payload req).
Proof.
  intros Hid Hseq Hb Hl Hd Hdl Hreq.
  apply icmp_parse_fields in Hreq as (? & _ & _ & ? & ? & ? & ?); [|done].
  unfold build_echo_request, build_echo_reply. rewrite !icmp_serialize_eq.
  split; (eexists _, _; split; [done|]; split; [apply icmp_message_parses; (done || ulia)|done]).
Qed.

Lemma icmp_echo_exchange_witness :
  exists raw p, @build_echo_reply IcmpError
    {| icmp_type := EchoRequest; icmp_code := 0; icmp_checksum := 0xc3f9; identifier := 0x1234;
       sequence_number := 1; icmp_payload := [0x21; 0xd1] |} = Ok raw /\
    icmp_parse raw true = Ok p /\ icmp_type p = EchoReply /\ icmp_payload p = [0x21; 0xd1].
Proof.
  destruct (icmp_echo_exchange 1 1 [] [8; 0; 0xc3; 0xf9; 0x12; 0x34; 0; 1; 0x21; 0xd1]
    {| icmp_type := EchoRequest; icmp_code := 0; icmp_checksum := 0xc3f9; identifier := 0x1234;
       sequence_number := 1; icmp_payload := [0x21; 0xd1] |}) as [_ (raw & p & Hr & Hp & Ht & _ & _ & _ & Hpl)];
    [by apply (bool_decide_eq_true_1 _)..|reflexivity|].
  exists raw, p. auto.
Defined.

(** ** Error messages *)

Lemma quote_len_bounds orig : 0 <= ipv4_error_quote_len orig <= zlen orig /\ ipv4_error_quote_len orig <= 68.
Proof.
  pose proof (zlen_nonneg orig). unfold ipv4_error_quote_len. destruct orig as [|b orig]; [ulia|].
  rewrite nibble_low. pose proof (Z.mod_pos_bound b 16). rewrite saturating_add_eq. case_match; ulia.
Qed.

(** For a datagram the parser accepts, the quote is the whole header, options
    included, and up to eight bytes of its payload. *)
Lemma quote_len_accepted orig : ipv4_accepts orig false = true ->
  ipv4_error_quote_len orig = Z.min (zlen orig) (head_len orig + 8).
Proof.
  intros Ha. unfold ipv4_accepts in Ha. bool_facts. pose proof (head_len_bound orig).
  destruct orig as [|b orig]; [done|]. unfold ipv4_error_quote_len, head_len in *. rewrite byte_at_cons_0 in *.
  rewrite nibble_high, nibble_low. rewrite Z.min_l by ulia.
  rewrite (proj2 (Z.eqb_eq (b / 16) 4)), !(proj2 (Z.leb_le _ _)) by lia. cbn [andb]. rewrite saturating_add_eq. f_equal. ulia.
Qed.

Lemma time_exceeded_eq {E} code orig :
  @build_time_exceeded E code orig =
  icmp_serialize 11 code 0 0 ([0; 0; 0; 0] ++ sub orig 0 (ipv4_error_quote_len orig)).
Proof.
  unfold build_time_exceeded. pose proof (quote_len_bounds orig). rewrite slice_Ok by lia. ostep.
  by rewrite Z.sub_0_r.
Qed.

Lemma destination_unreachable_eq {E} code mtu orig :
  @build_destination_unreachable E code mtu orig =
  icmp_serialize 3 code 0 0
    ((if code =? 4 then [0; 0] ++ u16_be mtu else [0; 0; 0; 0]) ++ sub orig 0 (ipv4_error_quote_len orig)).
Proof.
  unfold build_destination_unreachable. pose proof (quote_len_bounds orig). rewrite slice_Ok by lia. ostep.
  by rewrite Z.sub_0_r.
Qed.

(** An ICMP error raised for a datagram carries, behind four bytes of its
    payload, exactly the datagram's header with its options and the first eight
    bytes after it (RFC 792's quote), whatever the header length, and its
    receiver's checksum verification accepts it. *)
Theorem icmp_error_quotes orig code :
  Forall is_byte orig -> is_u8 code -> code <> 4 -> ipv4_accepts orig false = true ->
  exists quote, quote = sub orig 0 (Z.min (zlen orig) (head_len orig + 8)) /\
  (exists raw p, @build_time_exceeded IcmpError code orig = Ok raw /\ icmp_parse raw true = Ok p /\
     icmp_type p = TimeExceeded /\ icmp_code p = code /\ icmp_payload p = [0; 0; 0; 0] ++ quote) /\
  (forall mtu, exists raw p, @build_destination_unreachable IcmpError code mtu orig = Ok raw /\
     icmp_parse raw true = Ok p /\ icmp_type p = DestinationUnreachable /\ icmp_code p = code /\
     icmp_payload p = [0; 0; 0; 0] ++ quote).
Proof.
  intros Hb Hc H4 Ha. eexists. split; [reflexivity|]. rewrite <- (quote_len_accepted orig Ha).
  pose proof (quote_len_bounds orig).
  assert (Forall is_byte ([0; 0; 0; 0] ++ sub orig 0 (ipv4_error_quote_len orig))) as Hq.
  { apply Forall_app_2; [repeat constructor; ulia|by apply Forall_sub]. }
  assert (zlen ([0; 0; 0; 0] ++ sub orig 0 (ipv4_error_quote_len orig)) <= 131066) as Hz.
  { rewrite zlen_app, zlen_sub by lia. change (zlen [0; 0; 0; 0]) with 4. lia. }
  split; [|intros mtu]; rewrite ?time_exceeded_eq, ?destination_unreachable_eq, ?(proj2 (Z.eqb_neq code 4) H4);
    rewrite icmp_serialize_eq; (eexists _, _; split; [done|]; split; [apply icmp_message_parses; (done || ulia)|done]).
Qed.

Lemma icmp_error_quotes_witness :
  exists raw p, @build_time_exceeded IcmpError 0
    [0x45; 0; 0; 20; 0; 0; 0; 0; 1; 17; 0; 0; 10; 0; 0; 1; 10; 0; 0; 2] = Ok raw /\
    icmp_parse raw true = Ok p /\ zlen (icmp_payload p) = 24.
Proof.
  destruct (icmp_error_quotes [0x45; 0; 0; 20; 0; 0; 0; 0; 1; 17; 0; 0; 10; 0; 0; 1; 10; 0; 0; 2] 0)
    as (q & -> & (raw & p & Hr & Hp & _ & _ & Hq) & _);
    [by apply (bool_decide_eq_true_1 _)|by apply (bool_decide_eq_true_1 _)|done|reflexivity|].
  exists raw, p. rewrite Hq. split; [done|]. split; [done|reflexivity].
Defined.

(** ** The next-hop MTU of a Fragmentation Needed message *)

Lemma set_checksum_Ok {E} b0 b1 rest c : is_u16 c ->
  (let? buf := set_at ([b0] ++ [b1] ++ [0; 0] ++ rest) 2 (as_u8 (Z.shiftr c 8)) in
   @set_at E Z buf 3 (as_u8 (Z.land c 0xFF))) = Ok ([b0; b1] ++ u16_be c ++ rest).
Proof.
  intros Hc. pose proof (zlen_nonneg rest). rewrite set_at_put by zside. ostep.
  rewrite set_at_put by (rewrite zlen_put by zside; zside).
  unfold as_u8. rewrite Z.shiftr_div_pow2 by lia. change 0xFF with (Z.ones 8). rewrite Z.land_ones, Z.mod_mod by lia.
  reflexivity.
Qed.

(** C37: the path-MTU message of [diagnostics.rs] carries the next-hop MTU to
    [parse_pmtud_next_hop_mtu], which reads the last two bytes of the ICMP
    header; the message [icmp.rs] builds for the same code 4 puts the MTU four
    bytes further on, behind the header, so the same reader gets 0 from it,
    whatever the MTU was. *)
Theorem next_hop_mtu_position mtu orig :
  is_u16 mtu -> Forall is_byte orig ->
  (exists raw, @build_icmp_frag_needed IcmpError mtu orig = Ok raw /\
     @parse_pmtud_next_hop_mtu IcmpError raw = Ok (Some mtu)) /\
  (exists raw, @build_destination_unreachable IcmpError 4 mtu orig = Ok raw /\
     @parse_pmtud_next_hop_mtu IcmpError raw = Ok (Some 0)).
Proof.
  intros Hm Hb. split.
  - unfold build_icmp_frag_needed. pose proof (zlen_nonneg orig). rewrite slice_Ok by lia. ostep.
    set (q := sub orig 0 _). set (c := compute_checksum _).
    rewrite set_checksum_Ok.
    2:{ subst c. unfold compute_checksum. apply finalize_bound, raw_checksum_u32.
        rewrite !Forall_app. split_and!; first [by apply Forall_sub|by apply Forall_u16_be|repeat constructor; ulia]. }
    eexists. split; [done|]. unfold parse_pmtud_next_hop_mtu. pose proof (zlen_nonneg q).
    rewrite (proj2 (Z.leb_le _ _)) by zside. cbn [negb]. be_reads.
    change (byte_at ([ICMP_TYPE_DEST_UNREACHABLE; ICMP_CODE_FRAG_NEEDED] ++ _) 0) with 3.
    change (byte_at ([ICMP_TYPE_DEST_UNREACHABLE; ICMP_CODE_FRAG_NEEDED] ++ _) 1) with 4.
    cbn [Z.eqb Pos.eqb negb ICMP_TYPE_DEST_UNREACHABLE ICMP_CODE_FRAG_NEEDED].
    do 2 f_equal. field_at. by apply from_u16_be.
  - rewrite destination_unreachable_eq, icmp_serialize_eq. cbn [Z.eqb Pos.eqb].
    set (q := sub orig 0 _). eexists. split; [done|]. unfold parse_pmtud_next_hop_mtu.
    rewrite zlen_icmp_bytes, zlen_app. pose proof (zlen_nonneg q). rewrite (proj2 (Z.leb_le _ _)) by zside.
    cbn [negb]. rewrite !index_at_byte by (rewrite zlen_icmp_bytes; zside). ostep. unfold icmp_bytes.
    change (byte_at ([3; 4] ++ _) 0) with 3. change (byte_at ([3; 4] ++ _) 1) with 4.
    cbn [Z.eqb Pos.eqb negb ICMP_TYPE_DEST_UNREACHABLE ICMP_CODE_FRAG_NEEDED].
    rewrite read_be_Ok by zside. ostep. reflexivity.
Qed.

Lemma next_hop_mtu_position_witness :
  exists raw, @build_destination_unreachable IcmpError 4 1400 [0x45; 0; 0; 20] = Ok raw /\
    @parse_pmtud_next_hop_mtu IcmpError raw = Ok (Some 0).
Proof. apply (next_hop_mtu_position 1400 [0x45; 0; 0; 20]); by apply (bool_decide_eq_true_1 _). Defined.
