(* ===== verification/Udp.v ===== *)
(** * UDP datagrams and the socket table ([udp.rs]) *)

From S2P Require Import Prelude Bytes NetBytes Checksum Ipv4.

Definition UDP_HEADER_LEN : Z := 8.
#[export] Hint Unfold UDP_HEADER_LEN : consts.

Record UdpDatagram : Type := {
  udp_src_port : Z;
  udp_dst_port : Z;
  udp_length : Z;
  udp_checksum : Z;
  udp_payload : bytes;
}.
#[global] Instance UdpDatagram_eq_dec : EqDecision UdpDatagram.
Proof. solve_decision. Defined.

Inductive UdpError : Type :=
| DatagramTooShort (len : Z)
| LengthTooShort (declared : Z)
| LengthMismatch (declared available : Z)
| UdpInvalidChecksum (found : Z).
#[global] Instance UdpError_eq_dec : EqDecision UdpError.
Proof. solve_decision. Defined.

Definition udp_parse (src_ip dst_ip : Ipv4Address) (data : bytes) (check_checksum : bool)
    : outcome UdpError UdpDatagram :=
  try? ensure (negb (zlen data <? UDP_HEADER_LEN)) (DatagramTooShort (zlen data)) in
  let? src_port := read_be 2 data 0 in
  let? dst_port := read_be 2 data 2 in
  let? length := read_be 2 data 4 in
  let? checksum := read_be 2 data 6 in
  try? ensure (negb (length <? UDP_HEADER_LEN)) (LengthTooShort length) in
  try? ensure (negb (zlen data <? length)) (LengthMismatch length (zlen data)) in
  let? segment := slice data 0 length in
  let? ok := (if check_checksum && negb (checksum =? 0)
              then verify_ipv4_transport_checksum (ip_octets src_ip) (ip_octets dst_ip) 17 segment
              else Ok true) in
  try? ensure ok (UdpInvalidChecksum checksum) in
  let? payload := slice data UDP_HEADER_LEN length in
  Ok {| udp_src_port := src_port; udp_dst_port := dst_port; udp_length := length;
        udp_checksum := checksum; udp_payload := payload |}.

Definition udp_serialize {E} (src_ip dst_ip : Ipv4Address) (src_port dst_port : Z) (payload : bytes)
    : outcome E bytes :=
  let length := as_u16 (UDP_HEADER_LEN + zlen payload) in
  let buf := u16_be src_port ++ u16_be dst_port ++ u16_be length ++ [0x00; 0x00] ++ payload in
  let? csum := compute_ipv4_transport_checksum (ip_octets src_ip) (ip_octets dst_ip) 17 buf in
  copy_range buf 6 8 (u16_be csum).

(** A registered [UdpHandler], and the table of listeners by port. *)
Definition UdpHandler : Type := Ipv4Address -> Z -> bytes -> option bytes.
Record UdpSocketTable : Type := { listeners : gmap Z UdpHandler }.
Definition socket_table_new : UdpSocketTable := {| listeners := ∅ |}.
Definition udp_bind (t : UdpSocketTable) (port : Z) (handler : UdpHandler) : UdpSocketTable :=
  {| listeners := <[port := handler]> (listeners t) |}.
Definition udp_unbind (t : UdpSocketTable) (port : Z) : UdpSocketTable :=
  {| listeners := delete port (listeners t) |}.
Definition udp_dispatch (t : UdpSocketTable) (src_ip : Ipv4Address) (src_port dst_port : Z) (payload : bytes)
    : option bytes :=
  match listeners t !! dst_port with
  | Some handler => handler src_ip src_port payload
  | None => None
  end.

(** ** The parser *)

Definition udp_len (data : bytes) : Z := from_be_bytes (sub data 4 2).
Definition udp_sum (data : bytes) : Z := from_be_bytes (sub data 6 2).
Definition udp_view (data : bytes) : UdpDatagram :=
  {| udp_src_port := from_be_bytes (sub data 0 2); udp_dst_port := from_be_bytes (sub data 2 2);
     udp_length := udp_len data; udp_checksum := udp_sum data; udp_payload := sub data 8 (udp_len data - 8) |}.

Lemma udp_parse_eq src dst data chk : 8 <= zlen data ->
  udp_parse src dst data chk =
  try? ensure (negb (udp_len data <? 8)) (LengthTooShort (udp_len data)) in
  try? ensure (negb (zlen data <? udp_len data)) (LengthMismatch (udp_len data) (zlen data)) in
  let? ok := (if chk && negb (udp_sum data =? 0)
              then verify_ipv4_transport_checksum (ip_octets src) (ip_octets dst) 17 (sub data 0 (udp_len data))
              else Ok true) in
  try? ensure ok (UdpInvalidChecksum (udp_sum data)) in
  Ok (udp_view data).
Proof.
  intros Hl. unfold udp_parse. rewrite (proj2 (Z.ltb_ge _ _)) by ulia. ostep. be_reads.
  fold (udp_len data) (udp_sum data). change UDP_HEADER_LEN with 8.
  destruct (Z.ltb_spec (udp_len data) 8); ostep; [done|].
  destruct (Z.ltb_spec (zlen data) (udp_len data)); ostep; [done|].
  rewrite slice_Ok by lia. ostep. rewrite Z.sub_0_r. destruct (if _ : bool then _ else _) as [ok|e|]; ostep; [|done..].
  destruct ok; ostep; [|done]. rewrite slice_Ok by lia. done.
Qed.

Lemma verify_transport_total {E} src dst seg :
  ip_wf src -> ip_wf dst -> Forall is_byte seg ->
  exists b, @verify_ipv4_transport_checksum E (ip_octets src) (ip_octets dst) 17 seg = Ok b.
Proof.
  intros [_ Ls] [_ Ld] Hb. unfold verify_ipv4_transport_checksum. rewrite pseudo_sum_Ok by done. by eexists.
Qed.

(** C38: the UDP parser is total and exact: it never panics, accepts only a
    buffer that holds the declared length of at least the header, verifies the
    pseudo-header checksum of exactly the declared bytes if the caller asks for
    it and the sender sent one, and returns the ports and the payload cut to the declared length. *)
Theorem udp_parse_exact src dst data chk :
  ip_wf src -> ip_wf dst -> Forall is_byte data ->
  match udp_parse src dst data chk with
  | Ok d => d = udp_view data /\ 8 <= udp_len data <= zlen data /\
      (chk = true -> udp_sum data <> 0 ->
       @verify_ipv4_transport_checksum UdpError (ip_octets src) (ip_octets dst) 17 (sub data 0 (udp_len data)) = Ok true)
  | Err (DatagramTooShort n) => n = zlen data /\ n < 8
  | Err (LengthTooShort n) => n = udp_len data /\ n < 8
  | Err (LengthMismatch n m) => n = udp_len data /\ m = zlen data /\ m < n
  | Err (UdpInvalidChecksum c) => c = udp_sum data /\ c <> 0 /\ chk = true /\
      @verify_ipv4_transport_checksum UdpError (ip_octets src) (ip_octets dst) 17 (sub data 0 (udp_len data)) = Ok false
  | Panic => False
  end.
Proof.
  intros Hs Hd Hb. destruct (decide (8 <= zlen data)) as [Hl|Hl].
  2:{ unfold udp_parse. rewrite (proj2 (Z.ltb_lt _ _)) by ulia. simpl. split; [done|lia]. }
  rewrite udp_parse_eq by done.
  destruct (Z.ltb_spec (udp_len data) 8); ostep; [done|].
  destruct (Z.ltb_spec (zlen data) (udp_len data)); ostep; [done|].
  destruct (@verify_transport_total UdpError src dst (sub data 0 (udp_len data)) Hs Hd) as [b Hv]; [by apply Forall_sub|].
  rewrite Hv. destruct chk; ostep; [|by split_and!].
  destruct (Z.eqb_spec (udp_sum data) 0); ostep; [by split_and!|]. destruct b; by split_and!.
Qed.

Lemma udp_parse_exact_witness :
  exists d, udp_parse (Ip [10; 0; 0; 1]) (Ip [10; 0; 0; 2]) [0; 7; 0; 9; 0; 10; 0; 0; 1; 2; 3] true = Ok d /\
    udp_payload d = [1; 2].
Proof.
  pose proof (udp_parse_exact (Ip [10; 0; 0; 1]) (Ip [10; 0; 0; 2]) [0; 7; 0; 9; 0; 10; 0; 0; 1; 2; 3] true
    ltac:(by apply (bool_decide_eq_true_1 _)) ltac:(by apply (bool_decide_eq_true_1 _))
    ltac:(by apply (bool_decide_eq_true_1 _))) as H.
  destruct (udp_parse _ _ _ _) as [d|e|] eqn:Hp; vm_compute in Hp; simplify_eq.
  destruct H as [-> _]. eexists. split; [reflexivity|reflexivity].
Defined.

(** ** Round trip *)

(** A datagram with its checksum field [c]. *)
Definition udp_bytes (sp dp len c : Z) (payload : bytes) : bytes :=
  u16_be sp ++ u16_be dp ++ u16_be len ++ u16_be c ++ payload.

Lemma zlen_udp_bytes sp dp len c payload : zlen (udp_bytes sp dp len c payload) = 8 + zlen payload.
Proof. unfold udp_bytes. autorewrite with zlen. lia. Qed.

(** A UDP datagram of at most 65535 bytes survives the wire between any two
    addresses: serializing computes a nonzero pseudo-header checksum, and the
    parser with verification on recovers the ports, the length and the payload. *)
Theorem udp_roundtrip src dst sp dp payload :
  ip_wf src -> ip_wf dst -> is_u16 sp -> is_u16 dp -> Forall is_byte payload -> zlen payload <= 65527 ->
  exists raw c, @udp_serialize UdpError src dst sp dp payload = Ok raw /\ c <> 0 /\
    zlen raw = 8 + zlen payload /\
    udp_parse src dst raw true =
    Ok {| udp_src_port := sp; udp_dst_port := dp; udp_length := 8 + zlen payload; udp_checksum := c;
          udp_payload := payload |}.
Proof.
  intros [Bs Ls] [Bd Ld] Hsp Hdp Hb Hl. pose proof (zlen_nonneg payload).
  unfold udp_serialize, as_u16. rewrite Z.mod_small by ulia. change UDP_HEADER_LEN with 8.
  set (len := 8 + zlen payload). set (pre := u16_be sp ++ u16_be dp ++ u16_be len).
  destruct (@verify_transport_filled (ip_octets src) (ip_octets dst) 17 Bs Bd Ls Ld ltac:(ulia) UdpError UdpError pre payload)
    as (c & Hc & Hu & H0 & Hv).
  { subst pre. rewrite !Forall_app. split_and!; auto with bytes. repeat constructor; ulia. }
  { subst pre. unfold transport_capacity. zside. }
  { subst pre. by autorewrite with zlen. }
  assert (u16_be sp ++ u16_be dp ++ u16_be len ++ [0; 0] ++ payload = pre ++ [0; 0] ++ payload) as -> by done.
  rewrite Hc. ostep. rewrite copy_range_Ok by (subst pre; zside).
  rewrite put_mid by (subst pre; autorewrite with zlen; done).
  assert (pre ++ u16_be c ++ payload = udp_bytes sp dp len c payload) as Hraw by done. rewrite Hraw in *.
  exists (udp_bytes sp dp len c payload), c. split; [done|]. split; [ulia|]. split; [apply zlen_udp_bytes|].
  assert (udp_len (udp_bytes sp dp len c payload) = len) as Hlen.
  { unfold udp_len, udp_bytes. field_at. apply from_u16_be. ulia. }
  assert (udp_sum (udp_bytes sp dp len c payload) = c) as Hsum.
  { unfold udp_sum, udp_bytes. field_at. by apply from_u16_be. }
  rewrite udp_parse_eq by (rewrite zlen_udp_bytes; lia). unfold udp_view. rewrite Hlen, Hsum.
  rewrite sub_all by (rewrite zlen_udp_bytes; done). rewrite zlen_udp_bytes, Hv.
  rewrite !(proj2 (Z.ltb_ge _ _)) by lia. ostep.
  destruct (Z.eqb_spec c 0); ostep; [ulia|]. do 2 f_equal.
  - unfold udp_bytes. field_at. by apply from_u16_be.
  - unfold udp_bytes. field_at. by apply from_u16_be.
  - unfold udp_bytes. repeat (rewrite sub_app_r by zside). rewrite !zlen_u16_be. apply sub_all. lia.
Qed.

Lemma udp_roundtrip_witness :
  exists raw c, @udp_serialize UdpError (Ip [10; 0; 0; 1]) (Ip [10; 0; 0; 2]) 12345 53 [1; 2; 3] = Ok raw /\ c <> 0 /\
    zlen raw = 11 /\ udp_parse (Ip [10; 0; 0; 1]) (Ip [10; 0; 0; 2]) raw true =
    Ok {| udp_src_port := 12345; udp_dst_port := 53; udp_length := 11; udp_checksum := c; udp_payload := [1; 2; 3] |}.
Proof.
  apply (udp_roundtrip (Ip [10; 0; 0; 1]) (Ip [10; 0; 0; 2]) 12345 53 [1; 2; 3]); by apply (bool_decide_eq_true_1 _).
Defined.

(** Dispatch goes to the handler last bound to the port and to no other. *)
Lemma udp_dispatch_bind t port handler src sp dp payload :
  udp_dispatch (udp_bind t port handler) src sp dp payload =
  if decide (dp = port) then handler src sp payload else udp_dispatch t src sp dp payload.
Proof.
  unfold udp_dispatch, udp_bind. cbn [listeners]. case_decide; subst.
  - by rewrite lookup_insert_eq.
  - by rewrite lookup_insert_ne.
Qed.

Lemma udp_dispatch_unbind t port src sp dp payload :
  udp_dispatch (udp_unbind t port) src sp dp payload =
  if decide (dp = port) then None else udp_dispatch t src sp dp payload.
Proof.
  unfold udp_dispatch, udp_unbind. cbn [listeners]. case_decide; subst.
  - by rewrite lookup_delete_eq.
  - by rewrite lookup_delete_ne.
Qed.
