(* ===== verification/Reassembly.v ===== *)
(** * IPv4 reassembly ([fragment.rs], [IpReassemblyBuffer])

    The reassembly buffer with its accounting, its eviction and expiry, and
    [add_fragment] with every early return. [Instant] is a number of
    nanoseconds. A [HashMap] iterates in an unspecified order: the order is the
    class [HashOrder], and every theorem holds for every order. *)

From S2P Require Import Prelude Bytes NetBytes Ipv4.

Definition IPV4_MAX_PAYLOAD_LEN : Z := u16_max - IPV4_MIN_HEADER_LEN.
Definition MAX_REASSEMBLY_DATAGRAMS : Z := 1024.
Definition MAX_REASSEMBLY_BYTES : Z := 4 * 1024 * 1024.
Definition REASSEMBLY_TIMEOUT : Z := 60 * 10 ^ 9.
#[export] Hint Unfold IPV4_MAX_PAYLOAD_LEN MAX_REASSEMBLY_DATAGRAMS MAX_REASSEMBLY_BYTES : consts.

Record FragmentKey : Type := {
  fk_src_ip : Ipv4Address;
  fk_dst_ip : Ipv4Address;
  fk_protocol : Z;
  fk_identification : Z;
}.
#[global] Instance FragmentKey_eq_dec : EqDecision FragmentKey.
Proof. solve_decision. Defined.
#[global] Instance FragmentKey_countable : Countable FragmentKey.
Proof.
  refine (inj_countable'
    (fun k => (fk_src_ip k, fk_dst_ip k, fk_protocol k, fk_identification k))
    (fun '(s, d, p, i) => {| fk_src_ip := s; fk_dst_ip := d; fk_protocol := p; fk_identification := i |}) _).
  by intros [].
Defined.

Record FragmentEntry : Type := { fe_offset : Z; fe_data : bytes; fe_more_fragments : bool }.
Record FragmentSet : Type := { fs_entries : list FragmentEntry; fs_last_used : Z; fs_updated_at : Z }.
Record IpReassemblyBuffer : Type := {
  buffers : gmap FragmentKey FragmentSet;
  buffered_bytes : Z;
  sequence : Z;
}.

Definition reassembly_new : IpReassemblyBuffer := {| buffers := ∅; buffered_bytes := 0; sequence := 0 |}.

(** The order in which [HashMap::iter] yields the entries of a map. *)
Class HashOrder : Type := {
  hash_iter : gmap FragmentKey FragmentSet -> list (FragmentKey * FragmentSet);
  hash_iter_perm m : hash_iter m ≡ₚ map_to_list m;
}.

(** None of these calls returns an error. *)
Abbreviation RM := (ST Empty_set IpReassemblyBuffer).

Definition set_buffers (r : IpReassemblyBuffer) bs : IpReassemblyBuffer :=
  {| buffers := bs; buffered_bytes := buffered_bytes r; sequence := sequence r |}.
Definition set_bytes (r : IpReassemblyBuffer) n : IpReassemblyBuffer :=
  {| buffers := buffers r; buffered_bytes := n; sequence := sequence r |}.

Definition next_sequence : RM Z := fun r =>
  let s := saturating_add (sequence r) 1 in
  (Ok s, {| buffers := buffers r; buffered_bytes := buffered_bytes r; sequence := s |}).

(** [.map(|entry| entry.data.len()).sum()] *)
Definition entries_bytes (entries : list FragmentEntry) : Z :=
  foldl (fun n e => n + zlen (fe_data e)) 0 entries.

Definition remove_buffer (key : FragmentKey) (r : IpReassemblyBuffer) : IpReassemblyBuffer :=
  match buffers r !! key with
  | Some set =>
      let removed_bytes := entries_bytes (fs_entries set) in
      {| buffers := delete key (buffers r);
         buffered_bytes := saturating_sub (buffered_bytes r) removed_bytes; sequence := sequence r |}
  | None => r
  end.

(** [.min_by_key(f)]: the first of the smallest elements. *)
Fixpoint min_by_key {A} (f : A -> Z) (best : option A) (l : list A) : option A :=
  match l with
  | [] => best
  | x :: l' =>
      let best' := match best with Some b => if f x <? f b then Some x else Some b | None => Some x end in
      min_by_key f best' l'
  end.

Section Reassembly.
Context `{HashOrder}.

Definition expire_stale_at (now : Z) (r : IpReassemblyBuffer) : Z * IpReassemblyBuffer :=
  let expired := fst <$> filter (fun kv => REASSEMBLY_TIMEOUT <= saturating_sub now (fs_updated_at kv.2))
                                (hash_iter (buffers r)) in
  (zlen expired, foldl (fun r key => remove_buffer key r) r expired).

(** [now] is the [Instant::now()] the call reads. *)
Definition expire_stale (now : Z) : IpReassemblyBuffer -> Z * IpReassemblyBuffer := expire_stale_at now.

Definition evict_oldest_except (protected : option FragmentKey) (r : IpReassemblyBuffer) : bool * IpReassemblyBuffer :=
  let oldest := fst <$> min_by_key (fun kv => fs_last_used kv.2) None
                          (filter (fun kv => protected <> Some kv.1) (hash_iter (buffers r))) in
  match oldest with
  | Some key => (true, remove_buffer key r)
  | None => (false, r)
  end.

(** [while cond { if !evict { fail } }], with at most [fuel] evictions: one per
    buffered datagram is enough ([evict_while_total]). *)
Fixpoint evict_while (fuel : nat) (cond : IpReassemblyBuffer -> bool) (protected : option FragmentKey)
    (r : IpReassemblyBuffer) : outcome Empty_set bool * IpReassemblyBuffer :=
  if cond r then
    match evict_oldest_except protected r with
    | (true, r') => match fuel with O => (Panic, r') | S fuel' => evict_while fuel' cond protected r' end
    | (false, r') => (Ok false, r')
    end
  else (Ok true, r).

(** The [if !contains_key { while .. }] of [make_room_for]. *)
Definition room_for_datagram (key : FragmentKey) : RM bool := fun r =>
  if bool_decide (is_Some (buffers r !! key)) then (Ok true, r)
  else evict_while (size (buffers r)) (fun r => MAX_REASSEMBLY_DATAGRAMS <=? Z.of_nat (size (buffers r))) None r.

(** Its second [while]. *)
Definition room_for_bytes (key : FragmentKey) (additional_bytes : Z) : RM bool := fun r =>
  evict_while (size (buffers r))
    (fun r => MAX_REASSEMBLY_BYTES <? saturating_add (buffered_bytes r) additional_bytes) (Some key) r.

Definition make_room_for (key : FragmentKey) (additional_bytes : Z) : RM bool :=
  if MAX_REASSEMBLY_BYTES <? additional_bytes then do! iset (remove_buffer key) in iret false else
  let! room := room_for_datagram key in
  if negb room then iret false else
  let! fits := room_for_bytes key additional_bytes in
  if negb fits then do! iset (remove_buffer key) in iret false else
  iret true.

Definition entry_end {E} (e : FragmentEntry) : outcome E Z := add_u64 (fe_offset e) (zlen (fe_data e)).

(** [.any(|entry| entry.offset + entry.data.len() > fragment_end)] *)
Fixpoint any_beyond {E} (fragment_end : Z) (entries : list FragmentEntry) : outcome E bool :=
  match entries with
  | [] => Ok false
  | e :: rest =>
      let? x := entry_end e in
      if fragment_end <? x then Ok true else any_beyond fragment_end rest
  end.

(** The loop that looks for an overlap whose bytes differ. *)
Fixpoint any_conflict {E} (offset_bytes fragment_end : Z) (payload : bytes) (entries : list FragmentEntry)
    : outcome E bool :=
  match entries with
  | [] => Ok false
  | e :: rest =>
      let? entry_end := entry_end e in
      let overlap_start := Z.max offset_bytes (fe_offset e) in
      let overlap_end := Z.min fragment_end entry_end in
      if overlap_start <? overlap_end then
        let incoming_start := overlap_start - offset_bytes in
        let existing_start := overlap_start - fe_offset e in
        let overlap_len := overlap_end - overlap_start in
        let? a := slice payload incoming_start (incoming_start + overlap_len) in
        let? b := slice (fe_data e) existing_start (existing_start + overlap_len) in
        if negb (bytes_eqb a b) then Ok true else any_conflict offset_bytes fragment_end payload rest
      else any_conflict offset_bytes fragment_end payload rest
  end.

(** The closure computing [invalid] for the entries already buffered. *)
Definition fragment_invalid {E} (offset_bytes fragment_end : Z) (more_fragments : bool) (payload : bytes)
    (entries : list FragmentEntry) : outcome E bool :=
  let? existing_terminal_end :=
    match find (fun e => negb (fe_more_fragments e)) entries with
    | Some e => let? x := entry_end e in Ok (Some x)
    | None => Ok None
    end in
  let invalid :=
    match existing_terminal_end with
    | Some terminal_end =>
        (terminal_end <? fragment_end) || (negb more_fragments && negb (fragment_end =? terminal_end))
    | None => false
    end in
  let? beyond := if negb more_fragments then any_beyond fragment_end entries else Ok false in
  let? conflict := any_conflict offset_bytes fragment_end payload entries in
  Ok (invalid || beyond || conflict).

(** [entries.sort_by_key(|entry| entry.offset)], a stable sort. *)
Fixpoint insert_by_offset (e : FragmentEntry) (l : list FragmentEntry) : list FragmentEntry :=
  match l with
  | [] => [e]
  | x :: l' => if fe_offset e <? fe_offset x then e :: l else x :: insert_by_offset e l'
  end.
Definition sort_by_offset (l : list FragmentEntry) : list FragmentEntry :=
  foldl (fun acc e => insert_by_offset e acc) [] l.

(** The scan over the sorted entries: [None] is the early return at a gap. *)
Fixpoint scan_entries {E} (entries : list FragmentEntry) (current_end : Z) (has_last : bool) (total_len : Z)
    : outcome E (option (Z * bool * Z)) :=
  match entries with
  | [] => Ok (Some (current_end, has_last, total_len))
  | e :: rest =>
      if current_end <? fe_offset e then Ok None
      else
        let? x := entry_end e in
        let current_end := if current_end <? x then x else current_end in
        let '(has_last, total_len) := if negb (fe_more_fragments e) then (true, x) else (has_last, total_len) in
        scan_entries rest current_end has_last total_len
  end.

Definition copy_entries {E} (total_len : Z) (entries : list FragmentEntry) : outcome E bytes :=
  ofold (fun full e => let? x := entry_end e in copy_range full (fe_offset e) x (fe_data e))
        (zeros total_len) entries.

(** [assembled], or [None] also for the early return. *)
Definition assemble {E} (entries : list FragmentEntry) : outcome E (option bytes) :=
  match entries with
  | e0 :: _ =>
      if fe_offset e0 =? 0 then
        let? r := scan_entries entries 0 false 0 in
        match r with
        | None => Ok None
        | Some (current_end, has_last, total_len) =>
            if has_last && (current_end =? total_len)
            then let? full := copy_entries total_len entries in Ok (Some full)
            else Ok None
        end
      else Ok None
  | [] => Ok None
  end.

(** The last part of [add_fragment]: push, account, sort, assemble. *)
Definition push_fragment (key : FragmentKey) (entry : FragmentEntry) (now : Z) : RM (option bytes) :=
  let! last_used := next_sequence in
  let! set := iget (fun r => default {| fs_entries := []; fs_last_used := last_used; fs_updated_at := now |}
                                     (buffers r !! key)) in
  let entries := fs_entries set ++ [entry] in
  let! bytes := (fun r => ilift (add_u64 (buffered_bytes r) (zlen (fe_data entry))) r) in
  do! iset (fun r => set_bytes r bytes) in
  let set := {| fs_entries := sort_by_offset entries; fs_last_used := last_used; fs_updated_at := now |} in
  do! iset (fun r => set_buffers r (<[key := set]> (buffers r))) in
  let! assembled := ilift (assemble (fs_entries set)) in
  do! (if assembled then iset (remove_buffer key) else iret tt) in
  iret assembled.

Definition add_fragment (now : Z) (src_ip dst_ip : Ipv4Address) (protocol identification : Z)
    (fragment_offset_blocks : Z) (more_fragments : bool) (payload : bytes) : RM (option bytes) :=
  do! iset (fun r => (expire_stale_at now r).2) in
  let offset_bytes := fragment_offset_blocks * 8 in
  match checked_add offset_bytes (zlen payload) with
  | None => iret None
  | Some fragment_end =>
      if IPV4_MAX_PAYLOAD_LEN <? fragment_end then iret None else
      let key := {| fk_src_ip := src_ip; fk_dst_ip := dst_ip; fk_protocol := protocol;
                    fk_identification := identification |} in
      let! invalid := (fun r => ilift match buffers r !! key with
                                | Some set => fragment_invalid offset_bytes fragment_end more_fragments payload (fs_entries set)
                                | None => Ok false
                                end r) in
      if invalid then do! iset (remove_buffer key) in iret None else
      let! room := make_room_for key (zlen payload) in
      if negb room then iret None else
      push_fragment key {| fe_offset := offset_bytes; fe_data := payload; fe_more_fragments := more_fragments |} now
  end.
End Reassembly.
