(* ===== verification/ReassemblyEntries.v ===== *)
(** * Reassembling one datagram

    The entries of one [FragmentSet]: what the consistency test of
    [add_fragment] keeps true of them, and that assembling them yields exactly
    their union. *)

From S2P Require Import Prelude Bytes NetBytes Ipv4 Reassembly.

(** ** Pieces of a datagram *)

Definition fend (e : FragmentEntry) : Z := fe_offset e + zlen (fe_data e).
Definition covers (e : FragmentEntry) (i : Z) : Prop := fe_offset e <= i < fend e.
(** The byte an entry gives position [i]. *)
Definition at_pos (e : FragmentEntry) (i : Z) : Z := byte_at (fe_data e) (i - fe_offset e).

Definition entry_wf (e : FragmentEntry) : Prop := 0 <= fe_offset e /\ fend e <= IPV4_MAX_PAYLOAD_LEN.

(** Two entries of one datagram agree where they overlap, and a final one ends
    no earlier than the other. *)
Definition compatible (e1 e2 : FragmentEntry) : Prop :=
  (forall i, covers e1 i -> covers e2 i -> at_pos e1 i = at_pos e2 i) /\
  (fe_more_fragments e1 = false -> fend e2 <= fend e1) /\
  (fe_more_fragments e2 = false -> fend e1 <= fend e2).

Definition entries_wf (l : list FragmentEntry) : Prop :=
  Forall entry_wf l /\ forall e1 e2, e1 ∈ l -> e2 ∈ l -> compatible e1 e2.

(** The datagram [p] holds the bytes of the entry. *)
Definition agrees (p : bytes) (e : FragmentEntry) : Prop :=
  fend e <= zlen p /\ forall i, covers e i -> byte_at p i = at_pos e i.

(** [l] holds every byte of a datagram of [n] bytes, the final fragment too. *)
Definition complete (n : Z) (l : list FragmentEntry) : Prop :=
  (forall i, 0 <= i < n -> exists e, e ∈ l /\ covers e i) /\
  exists e, e ∈ l /\ fe_more_fragments e = false /\ fend e = n.

#[export] Hint Unfold fend : consts.

Lemma compatible_sym e1 e2 : compatible e1 e2 -> compatible e2 e1.
Proof. unfold compatible. intros (Hv & ? & ?). split_and!; [intros; symmetry; auto|done..]. Qed.

Lemma compatible_refl e : compatible e e.
Proof. by unfold compatible. Qed.

Lemma entries_wf_perm l1 l2 : l1 ≡ₚ l2 -> entries_wf l1 -> entries_wf l2.
Proof.
  intros Hp [Hw Hc]. split; [by rewrite <- Hp|]. intros e1 e2. rewrite <- !Hp. apply Hc.
Qed.

Lemma entries_wf_snoc l e : entries_wf l -> entry_wf e -> (forall x, x ∈ l -> compatible e x) -> entries_wf (l ++ [e]).
Proof.
  intros [Hw Hc] He Hx. split.
  - apply Forall_app_2; [done|]. by apply Forall_singleton.
  - intros e1 e2. rewrite !elem_of_app, !list_elem_of_singleton. intros [?| ->] [?| ->].
    + by apply Hc.
    + by apply compatible_sym, Hx.
    + by apply Hx.
    + apply compatible_refl.
Qed.

Lemma entry_end_Ok {E} e : entry_wf e -> @entry_end E e = Ok (fend e).
Proof. intros [? ?]. unfold entry_end. by rewrite add_u64_le by ulia. Qed.

(** ** The consistency test *)

Lemma any_beyond_spec {E} n l : Forall entry_wf l ->
  exists b, @any_beyond E n l = Ok b /\ (b = false <-> forall x, x ∈ l -> fend x <= n).
Proof.
  induction 1 as [|e l He Hl (b & Hb & Hi)]; simpl.
  - exists false. split; [done|]. split; [set_solver|done].
  - rewrite entry_end_Ok by done. ostep. destruct (Z.ltb_spec n (fend e)).
    + exists true. split; [done|]. split; [done|]. intros Hx. specialize (Hx e ltac:(left)). lia.
    + exists b. split; [done|]. rewrite Hi. set_solver by lia.
Qed.

Lemma length_sub {A} (bs : list A) a n : 0 <= a -> 0 <= n -> a + n <= zlen bs -> length (sub bs a n) = Z.to_nat n.
Proof. intros. pose proof (zlen_sub bs a n) as Hz. unfold zlen in *. lia. Qed.

(** Comparing the two slices compares the bytes position by position. *)
Lemma slices_agree e x : entry_wf e -> entry_wf x ->
  Z.max (fe_offset e) (fe_offset x) < Z.min (fend e) (fend x) ->
  let s := Z.max (fe_offset e) (fe_offset x) in
  let n := Z.min (fend e) (fend x) - s in
  (sub (fe_data e) (s - fe_offset e) n = sub (fe_data x) (s - fe_offset x) n <->
   forall i, covers e i -> covers x i -> at_pos e i = at_pos x i).
Proof.
  intros [? ?] [? ?] Hlt s n. unfold covers, at_pos. split.
  - intros Heq i He Hx.
    replace (i - fe_offset e) with ((s - fe_offset e) + (i - s)) by lia.
    replace (i - fe_offset x) with ((s - fe_offset x) + (i - s)) by lia.
    rewrite <- (byte_at_sub (fe_data e) _ n), <- (byte_at_sub (fe_data x) _ n) by ulia. by rewrite Heq.
  - intros Hi. apply list_eq_same_length with (n := Z.to_nat n).
    + apply length_sub; ulia.
    + apply length_sub; ulia.
    + intros k a b Hk Ha Hb. specialize (Hi (s + Z.of_nat k)).
      assert (byte_at (sub (fe_data e) (s - fe_offset e) n) (Z.of_nat k) = a) as Ha'
        by (unfold byte_at; by rewrite Nat2Z.id, Ha).
      assert (byte_at (sub (fe_data x) (s - fe_offset x) n) (Z.of_nat k) = b) as Hb'
        by (unfold byte_at; by rewrite Nat2Z.id, Hb).
      rewrite byte_at_sub in Ha', Hb' by ulia.
      rewrite <- Ha', <- Hb'.
      replace (s - fe_offset e + Z.of_nat k) with (s + Z.of_nat k - fe_offset e) by lia.
      replace (s - fe_offset x + Z.of_nat k) with (s + Z.of_nat k - fe_offset x) by lia.
      apply Hi; ulia.
Qed.

Lemma any_conflict_spec {E} e l : entry_wf e -> Forall entry_wf l ->
  exists b, @any_conflict E (fe_offset e) (fend e) (fe_data e) l = Ok b /\
    (b = false <-> forall x, x ∈ l -> forall i, covers e i -> covers x i -> at_pos e i = at_pos x i).
Proof.
  intros He. induction 1 as [|x l Hx Hl (b & Hb & Hi)]; cbn [any_conflict].
  - exists false. split; [done|]. split; [set_solver|done].
  - rewrite entry_end_Ok by done. ostep. pose proof He as [? ?]. pose proof Hx as [? ?].
    destruct (Z.ltb_spec (Z.max (fe_offset e) (fe_offset x)) (Z.min (fend e) (fend x))) as [Hlt|Hge].
    + rewrite !slice_n with (n := Z.min (fend e) (fend x) - Z.max (fe_offset e) (fe_offset x)) by ulia. ostep.
      pose proof (slices_agree e x He Hx Hlt) as Hs. cbv zeta in Hs.
      destruct (bytes_eqb _ _) eqn:Heq; ostep.
      * apply bytes_eqb_eq in Heq. pose proof (proj1 Hs Heq). exists b. split; [done|]. rewrite Hi. set_solver.
      * exists true. split; [done|]. split; [done|]. intros Hall. exfalso.
        assert (forall i, covers e i -> covers x i -> at_pos e i = at_pos x i) as Hx' by (apply Hall; left).
        pose proof (proj2 Hs Hx') as Hx''. apply bytes_eqb_eq in Hx''. congruence.
    + exists b. split; [done|]. rewrite Hi. split; [|set_solver].
      intros Hall y [->|Hy]%elem_of_cons i; [unfold covers; ulia|by apply Hall].
Qed.

Lemma fragment_invalid_spec {E} e l : entry_wf e -> entries_wf l ->
  exists b, @fragment_invalid E (fe_offset e) (fend e) (fe_more_fragments e) (fe_data e) l = Ok b /\
    (b = false <-> forall x, x ∈ l -> compatible e x).
Proof.
  intros He [Hw Hc]. unfold fragment_invalid.
  destruct (any_conflict_spec (E := E) e l He Hw) as (bc & Hbc & Hic).
  destruct (any_beyond_spec (E := E) (fend e) l Hw) as (bb & Hbb & Hib).
  rewrite Hbc, Hbb.
  assert (exists t, match find (fun e => negb (fe_more_fragments e)) l with
                    | Some e => let? x := @entry_end E e in Ok (Some x) | None => Ok None end = Ok t /\
            (match t with Some n => forall x, x ∈ l -> fe_more_fragments x = false -> fend x = n
                        | None => forall x, x ∈ l -> fe_more_fragments x = true end) /\
            (forall n, t = Some n -> exists x, x ∈ l /\ fe_more_fragments x = false /\ fend x = n)) as (t & -> & Ht & Hex).
  { destruct (find _ l) as [y|] eqn:Hf.
    - apply find_Some in Hf as [Hy Hm]. apply negb_true_iff in Hm.
      rewrite entry_end_Ok by (by eapply Forall_forall in Hw). ostep. eexists. split; [done|]. split.
      + intros x Hx Hmx. destruct (Hc x y Hx Hy) as (_ & H1 & H2). specialize (H1 Hmx). specialize (H2 Hm). lia.
      + intros n [= <-]. eauto.
    - eexists. split; [done|]. split; [|done]. intros x Hx.
      pose proof (find_None _ _ Hf x Hx) as Hn. by apply negb_false_iff in Hn. }
  ostep. exists ((match t with
       | Some n => (n <? fend e) || (negb (fe_more_fragments e) && negb (fend e =? n))
       | None => false end) || (if negb (fe_more_fragments e) then bb else false) || bc).
  split; [by destruct (fe_more_fragments e)|].
  rewrite !orb_false_iff, Hic. unfold compatible. destruct (fe_more_fragments e) eqn:Hme; cbn [negb andb].
  - destruct t as [n|].
    + rewrite orb_false_r, Z.ltb_ge. destruct (Hex n eq_refl) as (y & Hy & Hmy & Hn). split.
      * intros [[? _] Hv] x Hx. split_and!; [by apply Hv|done|]. intros Hmx. rewrite (Ht x Hx Hmx). lia.
      * intros Hall. split; [|intros x Hx; apply Hall, Hx]. split; [|done].
        destruct (Hall y Hy) as (_ & _ & Hl). rewrite <- Hn. by apply Hl.
    + split.
      * intros [_ Hv] x Hx. split_and!; [by apply Hv|done|]. intros Hmx. by rewrite (Ht x Hx) in Hmx.
      * intros Hall. split; [done|]. intros x Hx; apply Hall, Hx.
  - rewrite Hib. destruct t as [n|].
    + rewrite orb_false_iff, Z.ltb_ge, negb_false_iff, Z.eqb_eq. destruct (Hex n eq_refl) as (y & Hy & Hmy & Hn). split.
      * intros [[[? ?] Hbe] Hv] x Hx. split_and!; [by apply Hv|intros; by apply Hbe|].
        intros Hmx. rewrite (Ht x Hx Hmx). lia.
      * intros Hall. destruct (Hall y Hy) as (_ & H1 & H2). specialize (H1 eq_refl). specialize (H2 Hmy).
        split; [|intros x Hx; apply Hall, Hx]. split; [lia|]. intros x Hx. by apply Hall.
    + split.
      * intros [[_ Hbe] Hv] x Hx. split_and!; [by apply Hv|intros; by apply Hbe|].
        intros Hmx. by rewrite (Ht x Hx) in Hmx.
      * intros Hall. split; [|intros x Hx; apply Hall, Hx]. split; [done|]. intros x Hx. by apply Hall.
Qed.

(** ** Sorting *)

Definition offset_le (a b : FragmentEntry) : Prop := fe_offset a <= fe_offset b.

Lemma insert_by_offset_perm e l : insert_by_offset e l ≡ₚ e :: l.
Proof.
  induction l as [|x l IH]; simpl; [done|]. case_match; [done|]. rewrite IH. apply Permutation_swap.
Qed.

Lemma insert_by_offset_sorted e l : StronglySorted offset_le l -> StronglySorted offset_le (insert_by_offset e l).
Proof.
  induction 1 as [|x l Hl IH Hx]; simpl; [by repeat constructor|].
  destruct (Z.ltb_spec (fe_offset e) (fe_offset x)).
  - constructor; [by constructor|]. constructor; [unfold offset_le; lia|].
    eapply Forall_impl; [exact Hx|]. unfold offset_le. intros; simpl in *. lia.
  - constructor; [done|]. rewrite insert_by_offset_perm. constructor; [done|done].
Qed.

Lemma sort_by_offset_spec l : sort_by_offset l ≡ₚ l /\ StronglySorted offset_le (sort_by_offset l).
Proof.
  unfold sort_by_offset. assert (forall acc, StronglySorted offset_le acc ->
    foldl (fun acc e => insert_by_offset e acc) acc l ≡ₚ acc ++ l /\
    StronglySorted offset_le (foldl (fun acc e => insert_by_offset e acc) acc l)) as H.
  { induction l as [|e l IH]; intros acc Ha; simpl; [by rewrite app_nil_r|].
    destruct (IH _ (insert_by_offset_sorted e acc Ha)) as [Hp Hs]. split; [|done].
    rewrite Hp, insert_by_offset_perm. simpl. apply Permutation_middle. }
  apply (H []). constructor.
Qed.

(** ** The scan *)

(** What the scan knows when it has gone through [l] from [ce]. *)
Definition scan_result (l : list FragmentEntry) (ce : Z) (hl : bool) (tl : Z) (r : option (Z * bool * Z)) : Prop :=
  match r with
  | None => exists i, ce <= i /\ (forall e, e ∈ l -> ~ covers e i) /\ exists e, e ∈ l /\ i < fe_offset e
  | Some (ce', hl', tl') =>
      ce <= ce' /\ (forall i, ce <= i < ce' -> exists e, e ∈ l /\ covers e i) /\
      (forall e, e ∈ l -> fend e <= ce') /\ (ce' = ce \/ exists e, e ∈ l /\ fend e = ce') /\
      (hl' = hl /\ tl' = tl /\ (forall e, e ∈ l -> fe_more_fragments e = true) \/
       hl' = true /\ exists e, e ∈ l /\ fe_more_fragments e = false /\ fend e = tl')
  end.

Lemma scan_result_cons e l ce hl tl r :
  fe_offset e <= ce -> Forall (offset_le e) l ->
  scan_result l (Z.max ce (fend e)) (if fe_more_fragments e then hl else true)
    (if fe_more_fragments e then tl else fend e) r ->
  scan_result (e :: l) ce hl tl r.
Proof.
  intros He Hs. destruct r as [[[ce' hl'] tl']|]; simpl.
  - intros (H1 & H2 & H3 & H4 & H5). split_and!.
    + lia.
    + intros i Hi. destruct (decide (i < fend e)).
      * exists e. split; [left|]. unfold covers. lia.
      * destruct (H2 i ltac:(lia)) as (x & ? & ?). exists x. split; [by right|done].
    + intros x [->|Hx]%elem_of_cons; [lia|by apply H3].
    + destruct H4 as [->|(x & ? & ?)]; [|right; exists x; split; [by right|done]].
      destruct (Z.max_spec ce (fend e)) as [[_ ->]|[_ ->]]; [right; exists e; split; [left|done]|by left].
    + destruct H5 as [(-> & -> & Hm)|(-> & x & Hx & ? & ?)].
      * destruct (fe_more_fragments e) eqn:Hme.
        -- left. split_and!; [done..|]. intros x [->|Hx]%elem_of_cons; [done|by apply Hm].
        -- right. split; [done|]. exists e. split; [left|done].
      * right. split; [done|]. exists x. split; [by right|done].
  - intros (i & Hi & Hn & x & Hx & Hlt). exists i. split_and!.
    + lia.
    + intros y [->|Hy]%elem_of_cons; [unfold covers; lia|by apply Hn].
    + exists x. split; [by right|done].
Qed.

Lemma scan_entries_spec {E} l : forall ce hl tl, Forall entry_wf l -> StronglySorted offset_le l ->
  exists r, @scan_entries E l ce hl tl = Ok r /\ scan_result l ce hl tl r.
Proof.
  induction l as [|e l IH]; intros ce hl tl Hw Hs; cbn [scan_entries].
  - eexists. split; [done|]. simpl. split_and!; [lia|intros; lia|set_solver|by left|].
    left. split_and!; [done..|set_solver].
  - apply Forall_cons in Hw as [He Hw]. apply StronglySorted_inv in Hs as [Hs Hle].
    destruct (Z.ltb_spec ce (fe_offset e)).
    + eexists. split; [done|]. exists ce. split_and!; [lia| |exists e; split; [left|done]].
      intros x [->|Hx]%elem_of_cons; unfold covers; [lia|].
      eapply Forall_forall in Hle; [|done]. unfold offset_le in Hle. lia.
    + rewrite entry_end_Ok by done. ostep.
      replace (if ce <? fend e then fend e else ce) with (Z.max ce (fend e)) by (destruct (Z.ltb_spec ce (fend e)); lia).
      destruct (IH (Z.max ce (fend e)) (if fe_more_fragments e then hl else true)
                 (if fe_more_fragments e then tl else fend e) Hw Hs) as (r & Hr & Hsr).
      exists r. split; [|by eapply scan_result_cons].
      destruct (fe_more_fragments e); simpl; exact Hr.
Qed.

(** ** Copying the entries *)

Lemma agrees_put acc e x : agrees acc x -> entry_wf e -> entry_wf x -> compatible e x -> fend e <= zlen acc ->
  agrees (put acc (fe_offset e) (fe_data e)) x.
Proof.
  intros [Hl Hv] [? ?] [? ?] [Hc _] He. unfold fend in *. split; [by rewrite zlen_put|]. intros i Hi.
  destruct (decide (covers e i)) as [Hei|Hei].
  - rewrite byte_at_put_inside by (unfold covers, fend in *; lia). rewrite <- (Hc i Hei Hi). done.
  - rewrite byte_at_put_outside by (unfold covers, fend in *; lia). by apply Hv.
Qed.

Lemma agrees_put_same acc e : entry_wf e -> fend e <= zlen acc -> agrees (put acc (fe_offset e) (fe_data e)) e.
Proof.
  intros [? ?] He. unfold fend in *. split; [by rewrite zlen_put|]. intros i Hi.
  by rewrite byte_at_put_inside by (unfold covers, fend in *; lia).
Qed.

Lemma copy_entries_spec {E} n l : 0 <= n -> entries_wf l -> (forall e, e ∈ l -> fend e <= n) ->
  exists p, @copy_entries E n l = Ok p /\ zlen p = n /\ Forall (agrees p) l.
Proof.
  intros Hn [Hw Hc] He. unfold copy_entries.
  assert (forall rest done acc, done ++ rest = l -> zlen acc = n -> Forall (agrees acc) done ->
    exists p, ofold (fun full e => let? x := @entry_end E e in copy_range full (fe_offset e) x (fe_data e)) acc rest = Ok p /\
      zlen p = n /\ Forall (agrees p) l) as Hloop.
  { induction rest as [|e rest IH]; intros dn acc Hl Hz Hd; cbn [ofold].
    - rewrite app_nil_r in Hl. subst. eauto.
    - assert (e ∈ l) as Hin by (subst l; set_solver).
      assert (entry_wf e) as Hwe by (by eapply Forall_forall in Hw). specialize (He e Hin) as Hee.
      pose proof Hwe as [? _]. rewrite entry_end_Ok by done. ostep.
      rewrite copy_range_Ok by (unfold fend in *; lia). ostep.
      apply (IH (dn ++ [e])); [by rewrite <- app_assoc|unfold fend in *; by rewrite zlen_put by lia|].
      apply Forall_app_2; [|apply Forall_singleton, agrees_put_same; (done || lia)].
      apply Forall_forall. intros x Hx. assert (x ∈ l) by (subst l; set_solver).
      apply agrees_put; [by eapply Forall_forall in Hd|done|by eapply Forall_forall in Hw|by apply Hc|lia]. }
  apply (Hloop l [] (zeros n)); [done|by rewrite zlen_zeros|constructor].
Qed.

(** ** Assembly *)

(** Assembling sorted entries returns their union when, and only when, they
    hold a whole datagram. *)
Lemma assemble_spec {E} l : entries_wf l -> StronglySorted offset_le l ->
  exists r, @assemble E l = Ok r /\
  match r with
  | Some p => complete (zlen p) l /\ Forall (agrees p) l
  | None => forall n, ~ complete n l
  end.
Proof.
  intros Hwf Hs. pose proof Hwf as [Hw Hc]. unfold assemble. destruct l as [|e0 l'].
  { eexists. split; [done|]. intros n [_ (e & He & _)]. set_solver. }
  set (l := e0 :: l') in *.
  assert (forall e, e ∈ l -> fe_offset e0 <= fe_offset e) as Hfirst.
  { subst l. apply StronglySorted_inv in Hs as [_ Hle]. intros e [->|He]%elem_of_cons; [lia|].
    by eapply Forall_forall in Hle. }
  assert (forall n, complete n l -> forall e, e ∈ l -> fend e <= n) as Hbound.
  { intros n [_ (x & Hx & Hm & <-)] e He. destruct (Hc x e Hx He) as (_ & H & _). by apply H. }
  pose proof (Forall_inv Hw) as [H0 _].
  destruct (Z.eqb_spec (fe_offset e0) 0) as [Hz|Hz].
  2:{ eexists. split; [done|]. intros n Hcn. pose proof (Hbound n Hcn) as Hb. destruct Hcn as [Hcov (x & Hx & _ & Hn)].
      pose proof (Hfirst x Hx). pose proof (zlen_nonneg (fe_data x)). unfold fend in Hn.
      destruct (Hcov 0 ltac:(lia)) as (y & Hy & Hy0). pose proof (Hfirst y Hy). unfold covers in Hy0. lia. }
  destruct (scan_entries_spec (E := E) l 0 false 0 Hw Hs) as (r & -> & Hr). ostep.
  destruct r as [[[ce hl] tl]|].
  - destruct Hr as (H1 & H2 & H3 & _ & H5). destruct H5 as [(-> & -> & Hm)|(-> & x & Hx & Hm & Htl)]; cbn [andb].
    + eexists. split; [done|]. intros n [_ (x & Hx & Hmx & _)]. by rewrite (Hm x Hx) in Hmx.
    + destruct (Z.eqb_spec ce tl) as [->|Hne].
      * destruct (copy_entries_spec (E := E) tl l H1 Hwf H3) as (p & -> & Hp & Ha). ostep.
        eexists. split; [done|]. cbv beta iota. rewrite Hp. split; [|done]. split; [done|]. eauto.
      * eexists. split; [done|]. intros n Hcn. apply Hne. pose proof (H3 x Hx).
        destruct (Z.lt_trichotomy ce tl) as [?|[?|?]]; [lia|done|]. exfalso.
        destruct (H2 tl) as (y & Hy & Hcy); [pose proof (Forall_forall entry_wf l) as [Hf _];
          destruct (Hf Hw x Hx); pose proof (zlen_nonneg (fe_data x)); unfold fend in *; lia|].
        destruct (Hc x y Hx Hy) as (_ & Hxy & _). specialize (Hxy Hm). unfold covers in Hcy. lia.
  - eexists. split; [done|]. intros n Hcn. destruct Hr as (i & Hi & Hn & x & Hx & Hlt).
    pose proof (Hbound n Hcn x Hx). pose proof (zlen_nonneg (fe_data x)). destruct Hcn as [Hcov _].
    destruct (Hcov i) as (y & Hy & Hcy); [unfold fend in *; lia|]. by apply (Hn y Hy).
Qed.

(** A datagram that agrees with entries holding all of it is determined. *)
Lemma agrees_unique n l p q :
  complete n l -> zlen p = n -> zlen q = n -> Forall (agrees p) l -> Forall (agrees q) l -> p = q.
Proof.
  intros [Hcov _] Hp Hq Ap Aq. apply list_eq_same_length with (n := length q); [done|unfold zlen in *; lia|].
  intros i a b Hi Ha Hb. destruct (Hcov (Z.of_nat i)) as (e & He & Hc); [unfold zlen in *; lia|].
  apply Forall_forall with (x := e) in Ap as [_ Ap]; [|done]. apply Forall_forall with (x := e) in Aq as [_ Aq]; [|done].
  specialize (Ap _ Hc). specialize (Aq _ Hc). unfold byte_at in Ap, Aq. rewrite Nat2Z.id in Ap, Aq.
  rewrite Ha in Ap. rewrite Hb in Aq. simpl in *. congruence.
Qed.
