(* ===== verification/ReassemblyState.v ===== *)
(** * The reassembly buffer: invariant, bounds and behaviour

    Every call keeps the byte accounting exact and both limits respected,
    never panics, and treats the fragments of one datagram as
    [ReassemblyEntries] describes whatever else is buffered. *)

From S2P Require Import Prelude Bytes NetBytes Ipv4 Reassembly ReassemblyEntries.

(** The bytes held by every buffered datagram. *)
Definition total_bytes (m : gmap FragmentKey FragmentSet) : Z :=
  map_fold (fun _ set n => entries_bytes (fs_entries set) + n) 0 m.

Definition set_wf (s : FragmentSet) : Prop :=
  fs_entries s <> [] /\ entries_wf (fs_entries s) /\ StronglySorted offset_le (fs_entries s).

Record buffer_inv (r : IpReassemblyBuffer) : Prop := {
  inv_bytes : buffered_bytes r = total_bytes (buffers r);
  inv_limit : buffered_bytes r <= MAX_REASSEMBLY_BYTES;
  inv_datagrams : Z.of_nat (size (buffers r)) <= MAX_REASSEMBLY_DATAGRAMS;
  inv_sets : map_Forall (fun _ => set_wf) (buffers r);
}.

(** The entries buffered for a key. *)
Definition entries_of (r : IpReassemblyBuffer) (key : FragmentKey) : list FragmentEntry :=
  default [] (fs_entries <$> buffers r !! key).

(** ** Accounting *)

Lemma entries_bytes_eq l : entries_bytes l = foldr (fun e n => zlen (fe_data e) + n) 0 l.
Proof.
  unfold entries_bytes. assert (forall acc, foldl (fun n e => n + zlen (fe_data e)) acc l =
    acc + foldr (fun e n => zlen (fe_data e) + n) 0 l) as H; [|rewrite H; lia].
  induction l as [|e l IH]; intros acc; simpl; [lia|]. rewrite IH. lia.
Qed.

Lemma entries_bytes_nonneg l : 0 <= entries_bytes l.
Proof. rewrite entries_bytes_eq. induction l as [|e l IH]; simpl; [lia|]. pose proof (zlen_nonneg (fe_data e)). lia. Qed.

Lemma entries_bytes_snoc l e : entries_bytes (l ++ [e]) = entries_bytes l + zlen (fe_data e).
Proof. unfold entries_bytes. by rewrite foldl_app. Qed.

Lemma entries_bytes_app l1 l2 : entries_bytes (l1 ++ l2) = entries_bytes l1 + entries_bytes l2.
Proof. rewrite !entries_bytes_eq. induction l1 as [|e l IH]; simpl; [lia|]. rewrite IH. lia. Qed.

Lemma entries_bytes_perm l1 l2 : l1 ≡ₚ l2 -> entries_bytes l1 = entries_bytes l2.
Proof. rewrite !entries_bytes_eq. induction 1; simpl; lia. Qed.

Lemma total_bytes_insert m k s : m !! k = None -> total_bytes (<[k:=s]> m) = entries_bytes (fs_entries s) + total_bytes m.
Proof. intros Hk. unfold total_bytes. rewrite map_fold_insert_L; [done| |done]. intros. lia. Qed.

Lemma total_bytes_delete m k s : m !! k = Some s -> total_bytes m = entries_bytes (fs_entries s) + total_bytes (delete k m).
Proof. intros Hk. rewrite <- (total_bytes_insert (delete k m) k s) by apply lookup_delete_eq. by rewrite insert_delete_id. Qed.

Lemma total_bytes_nonneg m : 0 <= total_bytes m.
Proof.
  induction m as [|k s m Hk IH] using map_ind; [done|]. rewrite total_bytes_insert by done.
  pose proof (entries_bytes_nonneg (fs_entries s)). lia.
Qed.

(** ** Removal, expiry and eviction *)

Lemma remove_buffer_buffers k r : buffers (remove_buffer k r) = delete k (buffers r).
Proof. unfold remove_buffer. destruct (buffers r !! k) eqn:Hk; [done|]. symmetry. by apply delete_id. Qed.

Lemma remove_buffer_inv k r : buffer_inv r -> buffer_inv (remove_buffer k r).
Proof.
  intros [Hb Hl Hd Hs]. destruct (buffers r !! k) as [s|] eqn:Hk.
  - pose proof (total_bytes_delete _ _ _ Hk) as Ht. pose proof (total_bytes_nonneg (delete k (buffers r))).
    pose proof (entries_bytes_nonneg (fs_entries s)).
    unfold remove_buffer. rewrite Hk. split; cbn [buffers buffered_bytes]; rewrite ?saturating_sub_eq.
    + ulia.
    + ulia.
    + rewrite map_size_delete_Some by (by eexists). lia.
    + by apply map_Forall_delete.
  - unfold remove_buffer. by rewrite Hk.
Qed.

(** Iterating in the map's own order is one possible order. *)
Definition map_order : HashOrder := {| hash_iter := map_to_list; hash_iter_perm m := Permutation_refl (map_to_list m) |}.

Section State.
Context `{HashOrder}.

Lemma elem_of_hash_iter m k s : (k, s) ∈ hash_iter m <-> m !! k = Some s.
Proof. rewrite hash_iter_perm. apply elem_of_map_to_list. Qed.

Lemma remove_all_lookup ks : forall r k,
  buffers (foldl (fun r key => remove_buffer key r) r ks) !! k =
  if decide (k ∈ ks) then None else buffers r !! k.
Proof.
  induction ks as [|k0 ks IH]; intros r k; cbn [foldl].
  - by rewrite decide_False by set_solver.
  - rewrite IH, remove_buffer_buffers. destruct (decide (k = k0)) as [->|Hne].
    + rewrite lookup_delete_eq. rewrite (decide_True (P := k0 ∈ k0 :: ks)) by set_solver. by case_decide.
    + rewrite lookup_delete_ne by done. destruct (decide (k ∈ ks)).
      * by rewrite decide_True by set_solver.
      * by rewrite decide_False by set_solver.
Qed.

Definition stale (now : Z) (s : FragmentSet) : Prop := REASSEMBLY_TIMEOUT <= saturating_sub now (fs_updated_at s).
#[global] Instance stale_dec now s : Decision (stale now s) := ltac:(unfold stale; apply _).

(** Expiry removes the stale datagrams and nothing else. *)
Lemma expire_lookup now r k :
  buffers (expire_stale_at now r).2 !! k =
  match buffers r !! k with Some s => if decide (stale now s) then None else Some s | None => None end.
Proof.
  unfold expire_stale_at. cbn [snd]. rewrite remove_all_lookup.
  destruct (buffers r !! k) as [s|] eqn:Hk; [|by case_decide].
  destruct (decide (stale now s)) as [Hst|Hst].
  - rewrite decide_True; [done|]. apply list_elem_of_fmap. exists (k, s). split; [done|].
    apply list_elem_of_filter. split; [done|]. by apply elem_of_hash_iter.
  - rewrite decide_False; [done|]. intros ([k' s'] & -> & Hin)%list_elem_of_fmap.
    apply list_elem_of_filter in Hin as [Hs' Hin]. apply elem_of_hash_iter in Hin. simpl in *. by simplify_eq.
Qed.

Lemma expire_inv now r : buffer_inv r -> buffer_inv (expire_stale_at now r).2.
Proof.
  unfold expire_stale_at. cbn [snd]. set (ks := fst <$> _). clearbody ks. revert r.
  induction ks as [|k ks IH]; intros r Hr; simpl; [done|]. by apply IH, remove_buffer_inv.
Qed.

Lemma min_by_key_spec {A} (f : A -> Z) l : forall best,
  match min_by_key f best l with
  | Some x => (best = Some x \/ x ∈ l) /\ forall y, best = Some y \/ y ∈ l -> f x <= f y
  | None => best = None /\ l = []
  end.
Proof.
  induction l as [|x l IH]; intros best; simpl.
  - destruct best as [b|]; [|done]. split; [by left|]. intros y [[= ->]|Hy]; [done|set_solver].
  - set (best' := match best with Some b => _ | None => _ end). specialize (IH best').
    destruct (min_by_key f best' l) as [z|]; [|by subst best'; destruct best as [b|]; try case_match; destruct IH].
    destruct IH as [Hz Hmin]. subst best'. destruct best as [b|].
    + destruct (Z.ltb_spec (f x) (f b)).
      * split; [destruct Hz as [[= ->]|Hz]; right; set_solver|].
        pose proof (Hmin x (or_introl eq_refl)). intros y [[= ->]|[->|Hy]%elem_of_cons]; [lia|done|by apply Hmin; right].
      * split; [destruct Hz as [Hz|Hz]; [by left|right; set_solver]|].
        pose proof (Hmin b (or_introl eq_refl)). intros y [[= ->]|[->|Hy]%elem_of_cons]; [done|lia|by apply Hmin; right].
    + split; [destruct Hz as [[= ->]|Hz]; right; set_solver|].
      intros y [?|[->|Hy]%elem_of_cons]; [done|by apply Hmin; left|by apply Hmin; right].
Qed.

(** Eviction removes the least recently used datagram that is not protected. *)
Lemma evict_oldest_spec protected r :
  match evict_oldest_except protected r with
  | (true, r') => exists k s, buffers r !! k = Some s /\ protected <> Some k /\ r' = remove_buffer k r /\
      forall k' s', buffers r !! k' = Some s' -> protected <> Some k' -> fs_last_used s <= fs_last_used s'
  | (false, r') => r' = r /\ forall k s, buffers r !! k = Some s -> protected = Some k
  end.
Proof.
  unfold evict_oldest_except. set (cand := filter _ _).
  assert (forall k s, (k, s) ∈ cand <-> protected <> Some k /\ buffers r !! k = Some s) as Hc.
  { intros k s. subst cand. rewrite list_elem_of_filter, elem_of_hash_iter. done. }
  pose proof (min_by_key_spec (fun kv => fs_last_used kv.2) cand None) as Hm.
  destruct (min_by_key _ None cand) as [[k s]|]; simpl.
  - destruct Hm as [[?|Hin] Hmin]; [done|]. apply Hc in Hin as [Hp Hk]. exists k, s. split_and!; [done..|].
    intros k' s' Hk' Hp'. apply (Hmin (k', s')). right. by apply Hc.
  - destruct Hm as [_ Hnil]. split; [done|]. intros k s Hk. destruct (decide (protected = Some k)) as [|Hp]; [done|].
    assert ((k, s) ∈ cand) as Hin by (by apply Hc). rewrite Hnil in Hin. set_solver.
Qed.

(** The eviction loop ends: it runs at most once per buffered datagram. *)
Lemma evict_while_spec cond protected : forall fuel r,
  (size (buffers r) <= fuel)%nat -> buffer_inv r ->
  exists b r', evict_while fuel cond protected r = (Ok b, r') /\ buffer_inv r' /\
    buffers r' ⊆ buffers r /\ cond r' = negb b /\
    (forall k, protected = Some k -> buffers r' !! k = buffers r !! k) /\
    (b = false -> forall k s, buffers r' !! k = Some s -> protected = Some k).
Proof.
  induction fuel as [|fuel IH]; intros r Hf Hr; cbn [evict_while]; destruct (cond r) eqn:Hc.
  2,4: exists true, r; by split_and!.
  all: pose proof (evict_oldest_spec protected r) as He; destruct (evict_oldest_except protected r) as [[] r'].
  2,4: destruct He as [-> Hp]; exists false, r; by split_and!.
  - destruct He as (k & s & Hk & _). assert (size (buffers r) = 0%nat) as H0 by lia.
    apply map_size_empty_inv in H0. by rewrite H0, lookup_empty in Hk.
  - destruct He as (k & s & Hk & Hp & -> & _).
    destruct (IH (remove_buffer k r)) as (b & r' & Hrun & Hinv & Hsub & Hcond & Hprot & Hfail).
    { rewrite remove_buffer_buffers, map_size_delete_Some by (by eexists). lia. }
    { by apply remove_buffer_inv. }
    rewrite remove_buffer_buffers in *. exists b, r'. split_and!; [done..| |done| |done].
    + etrans; [exact Hsub|]. apply delete_subseteq.
    + intros k' ->. rewrite Hprot by done. apply lookup_delete_ne. congruence.
Qed.

Lemma total_bytes_only m key : (forall k s, m !! k = Some s -> k = key) ->
  total_bytes m = entries_bytes (default [] (fs_entries <$> m !! key)).
Proof.
  intros Honly. destruct (m !! key) as [s|] eqn:Hk; simpl.
  - rewrite (total_bytes_delete m key s Hk). replace (delete key m) with (∅ : gmap FragmentKey FragmentSet).
    { unfold total_bytes. rewrite map_fold_empty. lia. }
    symmetry. apply map_empty. intros k. destruct (decide (k = key)) as [->|Hne]; [apply lookup_delete_eq|].
    rewrite lookup_delete_ne by done. destruct (m !! k) eqn:Hk'; [|done]. by apply Honly in Hk'.
  - replace m with (∅ : gmap FragmentKey FragmentSet); [done|]. symmetry. apply map_empty. intros k.
    destruct (m !! k) eqn:Hk'; [|done]. pose proof (Honly _ _ Hk'). congruence.
Qed.

(** A slot for the datagram [key]. *)
Lemma room_for_datagram_spec key r : buffer_inv r ->
  exists r1, room_for_datagram key r = (Ok true, r1) /\ buffer_inv r1 /\ buffers r1 ⊆ buffers r /\
    buffers r1 !! key = buffers r !! key /\
    (is_Some (buffers r1 !! key) \/ Z.of_nat (size (buffers r1)) < MAX_REASSEMBLY_DATAGRAMS).
Proof.
  intros Hr. unfold room_for_datagram. case_bool_decide as Hk; [exists r; split_and!; (done || by left)|].
  apply eq_None_not_Some in Hk.
  destruct (evict_while_spec (fun r => MAX_REASSEMBLY_DATAGRAMS <=? Z.of_nat (size (buffers r))) None
              (size (buffers r)) r ltac:(lia) Hr) as (b & r1 & Hrun & Hr1 & Hs1 & Hc & _ & Hfail).
  destruct b; cbn [negb] in Hc.
  - exists r1. apply Z.leb_gt in Hc. split_and!; [exact Hrun|done|done| |by right].
    rewrite Hk. by eapply lookup_weaken_None.
  - exfalso. specialize (Hfail eq_refl). apply Z.leb_le in Hc. assert (buffers r1 = ∅) as He.
    { apply map_empty. intros k. destruct (buffers r1 !! k) eqn:Hl; [|done]. by apply Hfail in Hl. }
    rewrite He, map_size_empty in Hc. clear - Hc. ulia.
Qed.

(** Bytes for a fragment of the datagram [key]. *)
Lemma room_for_bytes_spec key n r : buffer_inv r -> 0 <= n ->
  exists b r', room_for_bytes key n r = (Ok b, r') /\ buffer_inv r' /\ buffers r' ⊆ buffers r /\ buffers r' !! key = buffers r !! key /\
    if b then buffered_bytes r' + n <= MAX_REASSEMBLY_BYTES
    else MAX_REASSEMBLY_BYTES < entries_bytes (entries_of r key) + n.
Proof.
  intros Hr Hn.
  destruct (evict_while_spec (fun r => MAX_REASSEMBLY_BYTES <? saturating_add (buffered_bytes r) n) (Some key)
              (size (buffers r)) r ltac:(lia) Hr) as (b & r2 & Hrun & Hr2 & Hs2 & Hc & Hprot & Hfail).
  specialize (Hprot key eq_refl). exists b, r2. split_and!; [exact Hrun|done..|].
  pose proof (inv_limit _ Hr2) as Hlim. destruct b; cbn [negb] in Hc.
  - apply Z.ltb_ge in Hc. rewrite saturating_add_eq in Hc. ulia.
  - apply Z.ltb_lt in Hc. pose proof (total_bytes_only (buffers r2) key) as Ht. rewrite <- (inv_bytes _ Hr2) in Ht.
    rewrite Hprot in Ht. fold (entries_of r key) in Ht. rewrite <- Ht; [rewrite saturating_add_eq in Hc; lia|].
    intros k s Hk. specialize (Hfail eq_refl k s Hk). congruence.
Qed.

(** Making room keeps the datagram being extended, unless it alone would
    exceed the limit; then it is dropped. *)
Lemma make_room_spec key n r : buffer_inv r -> 0 <= n ->
  exists b r', make_room_for key n r = (Ok b, r') /\ buffer_inv r' /\ buffers r' ⊆ buffers r /\
    if b then buffered_bytes r' + n <= MAX_REASSEMBLY_BYTES /\ buffers r' !! key = buffers r !! key /\
       (is_Some (buffers r' !! key) \/ Z.of_nat (size (buffers r')) < MAX_REASSEMBLY_DATAGRAMS)
    else buffers r' !! key = None /\ MAX_REASSEMBLY_BYTES < entries_bytes (entries_of r key) + n.
Proof.
  intros Hr Hn. pose proof (entries_bytes_nonneg (entries_of r key)) as Hnn.
  unfold make_room_for, ibind, iget, iset, iret.
  destruct (Z.ltb_spec MAX_REASSEMBLY_BYTES n) as [Hbig|Hbig].
  { exists false, (remove_buffer key r). split; [done|]. split; [by apply remove_buffer_inv|].
    rewrite remove_buffer_buffers, lookup_delete_eq. split; [apply delete_subseteq|]. split; [done|lia]. }
  destruct (room_for_datagram_spec key r Hr) as (r1 & -> & Hr1 & Hs1 & Hk1 & Hd1).
  cbn [negb]. destruct (room_for_bytes_spec key n r1 Hr1 Hn) as (b & r2 & -> & Hr2 & Hs2 & Hk2 & Hb).
  destruct b; cbn [negb].
  - exists true, r2. split; [done|]. split; [done|]. split; [by etrans|]. split; [done|]. split; [congruence|].
    destruct Hd1 as [?|?]; [left; by rewrite Hk2|right]. pose proof (map_subseteq_size _ _ Hs2). lia.
  - exists false, (remove_buffer key r2). split; [done|]. split; [by apply remove_buffer_inv|].
    rewrite remove_buffer_buffers, lookup_delete_eq.
    split; [etrans; [apply delete_subseteq|by etrans]|]. split; [done|].
    unfold entries_of in *. by rewrite <- Hk1.
Qed.

Lemma complete_perm n l1 l2 : l1 ≡ₚ l2 -> complete n l1 -> complete n l2.
Proof.
  intros Hp [Hc (e & He & ?)]. split.
  - intros i Hi. destruct (Hc i Hi) as (x & Hx & ?). exists x. by rewrite <- Hp.
  - exists e. by rewrite <- Hp.
Qed.

(** What becomes of the entries of the datagram a fragment belongs to. *)
Definition pushed (now : Z) (l : list FragmentEntry) (set : option FragmentSet) (res : option bytes) : Prop :=
  match res with
  | Some p => set = None /\ complete (zlen p) l /\ Forall (agrees p) l
  | None => (exists s, set = Some s /\ fs_entries s ≡ₚ l /\ fs_updated_at s = now) /\ forall n, ~ complete n l
  end.

Lemma entries_of_wf r key : buffer_inv r -> entries_wf (entries_of r key).
Proof.
  intros Hr. unfold entries_of. destruct (buffers r !! key) as [s|] eqn:Hk; simpl.
  - by apply (inv_sets _ Hr key s Hk).
  - split; [constructor|set_solver].
Qed.

Lemma push_fragment_spec key e now r :
  buffer_inv r -> entry_wf e -> (forall x, x ∈ entries_of r key -> compatible e x) ->
  buffered_bytes r + zlen (fe_data e) <= MAX_REASSEMBLY_BYTES ->
  (is_Some (buffers r !! key) \/ Z.of_nat (size (buffers r)) < MAX_REASSEMBLY_DATAGRAMS) ->
  exists res r', push_fragment key e now r = (Ok res, r') /\ buffer_inv r' /\
    (forall k, k <> key -> buffers r' !! k = buffers r !! k) /\
    pushed now (entries_of r key ++ [e]) (buffers r' !! key) res.
Proof.
  intros Hr He Hcomp Hroom Hslot. unfold push_fragment, ibind, iget, iset, iret, ilift, next_sequence. cbn [buffers buffered_bytes].
  set (dflt := {| fs_entries := []; fs_last_used := _; fs_updated_at := now |}).
  assert (fs_entries (default dflt (buffers r !! key)) = entries_of r key) as Hent.
  { unfold entries_of. by destruct (buffers r !! key). }
  rewrite Hent. rewrite add_u64_le by ulia.
  set (l := entries_of r key ++ [e]) in *. destruct (sort_by_offset_spec l) as [Hperm Hsorted].
  assert (entries_wf (sort_by_offset l)) as Hwf.
  { apply (entries_wf_perm l); [by symmetry|]. apply entries_wf_snoc; [by apply entries_of_wf|done..]. }
  destruct (assemble_spec (E := Empty_set) _ Hwf Hsorted) as (res & Hres & Hspec).
  unfold set_bytes, set_buffers. cbn [buffers buffered_bytes sequence fs_entries]. rewrite Hres.
  set (s := {| fs_entries := sort_by_offset l; fs_last_used := _; fs_updated_at := now |}) in *.
  set (r1 := {| buffers := <[key:=s]> (buffers r); buffered_bytes := _; sequence := _ |}).
  assert (buffer_inv r1) as Hr1.
  { destruct Hr as [Hb Hl Hd Hs]. subst r1. split; cbn [buffers buffered_bytes].
    - rewrite <- insert_delete_eq, total_bytes_insert by apply lookup_delete_eq. subst s. cbn [fs_entries].
      rewrite (entries_bytes_perm _ _ Hperm). subst l. rewrite entries_bytes_snoc, Hb. unfold entries_of.
      destruct (buffers r !! key) as [s0|] eqn:Hk; simpl.
      + rewrite (total_bytes_delete _ _ _ Hk). lia.
      + rewrite delete_id by done. unfold entries_bytes. simpl. lia.
    - done.
    - rewrite map_size_insert. destruct Hslot as [[s0 Hs0]|Hlt]; [by rewrite Hs0|].
      destruct (buffers r !! key); simpl; lia.
    - apply map_Forall_insert_2; [|done]. subst s. split_and!; [|done..]. cbn [fs_entries]. intros Hnil.
      rewrite Hnil in Hperm. apply Permutation_nil in Hperm. subst l. by destruct (entries_of r key). }
  destruct res as [p|]; eexists _, _; (split; [reflexivity|]); cbn [pushed].
  - split; [by apply remove_buffer_inv|]. rewrite remove_buffer_buffers, lookup_delete_eq. split.
    + intros k Hk. rewrite lookup_delete_ne by done. subst r1. cbn [buffers]. by rewrite lookup_insert_ne.
    + destruct Hspec as [Hc Ha]. split_and!; [done|by eapply complete_perm|by rewrite <- Hperm].
  - split; [done|]. subst r1. cbn [buffers]. split; [intros k Hk; by rewrite lookup_insert_ne|]. split.
    + exists s. rewrite lookup_insert_eq. by split_and!.
    + intros n Hc. apply (Hspec n). by eapply complete_perm.
Qed.

(** ** [add_fragment] *)

(** The fragment as an entry. *)
Definition frag_entry (blocks : Z) (mf : bool) (payload : bytes) : FragmentEntry :=
  {| fe_offset := blocks * 8; fe_data := payload; fe_more_fragments := mf |}.

(** The state [add_fragment] works on, once the stale datagrams are gone. *)
Definition expired (now : Z) (r : IpReassemblyBuffer) : IpReassemblyBuffer := (expire_stale_at now r).2.

Definition fragment_key (src dst : Ipv4Address) (proto id : Z) : FragmentKey :=
  {| fk_src_ip := src; fk_dst_ip := dst; fk_protocol := proto; fk_identification := id |}.

(** The outcome of one fragment for its own datagram, whose entries were [own]. *)
Inductive fragment_outcome (now : Z) (own : list FragmentEntry) (e : FragmentEntry) :
    option FragmentSet -> option FragmentSet -> option bytes -> Prop :=
| outcome_too_long set :
    IPV4_MAX_PAYLOAD_LEN < fend e -> fragment_outcome now own e set set None
| outcome_rejected set :
    entry_wf e -> ~ (forall x, x ∈ own -> compatible e x) -> fragment_outcome now own e set None None
| outcome_no_room set :
    entry_wf e -> (forall x, x ∈ own -> compatible e x) ->
    MAX_REASSEMBLY_BYTES < entries_bytes own + zlen (fe_data e) -> fragment_outcome now own e set None None
| outcome_pushed set set' res :
    entry_wf e -> (forall x, x ∈ own -> compatible e x) ->
    pushed now (own ++ [e]) set' res -> fragment_outcome now own e set set' res.

Lemma add_fragment_runs now src dst proto id blocks mf payload r :
  buffer_inv r -> 0 <= blocks <= u16_max -> zlen payload <= isize_max ->
  let key := fragment_key src dst proto id in
  let r0 := expired now r in
  exists res r', add_fragment now src dst proto id blocks mf payload r = (Ok res, r') /\ buffer_inv r' /\
    (forall k, k <> key -> forall s, buffers r' !! k = Some s -> buffers r0 !! k = Some s) /\
    fragment_outcome now (entries_of r0 key) (frag_entry blocks mf payload)
      (buffers r0 !! key) (buffers r' !! key) res.
Proof.
  intros Hr Hb Hl key r0. pose proof (expire_inv now r Hr) as Hr0. fold (expired now r) in Hr0. fold r0 in Hr0.
  pose proof (zlen_nonneg payload).
  unfold add_fragment, ibind, iset, iret, ilift. fold (expired now r) (fragment_key src dst proto id) key. fold r0.
  set (e := frag_entry blocks mf payload).
  rewrite checked_add_le by (unfold isize_max in Hl; ulia).
  change (blocks * 8 + zlen payload) with (fend e).
  destruct (Z.ltb_spec IPV4_MAX_PAYLOAD_LEN (fend e)).
  { eexists _, r0. split_and!; [done..|]. by apply outcome_too_long. }
  assert (entry_wf e) as He by (split; [simpl; lia|done]).
  assert (exists b, match buffers r0 !! key with
      | Some set => @fragment_invalid Empty_set (blocks * 8) (fend e) mf payload (fs_entries set) | None => Ok false end = Ok b /\
      (b = false <-> forall x, x ∈ entries_of r0 key -> compatible e x)) as (b & -> & Hbi).
  { unfold entries_of. pose proof (entries_of_wf r0 key Hr0) as Hw. unfold entries_of in Hw.
    destruct (buffers r0 !! key) as [s|]; simpl in *.
    - exact (fragment_invalid_spec e (fs_entries s) He Hw).
    - exists false. split; [done|]. split; [set_solver|done]. }
  destruct b.
  { eexists _, (remove_buffer key r0). split; [done|]. split; [by apply remove_buffer_inv|].
    rewrite remove_buffer_buffers, lookup_delete_eq. split.
    - intros k Hk s. by rewrite lookup_delete_ne.
    - apply outcome_rejected; [done|]. intros Hall. by apply Hbi in Hall. }
  pose proof (proj1 Hbi eq_refl) as Hcomp.
  destruct (make_room_spec key (zlen payload) r0 Hr0 ltac:(lia)) as (b & r1 & -> & Hr1 & Hsub & Hroom).
  destruct b; cbn [negb].
  - destruct Hroom as (Hbytes & Hkey & Hslot).
    destruct (push_fragment_spec key e now r1) as (res & r2 & Hpush & Hr2 & Hother & Hres); [done|done| |done|done|].
    { unfold entries_of in *. by rewrite Hkey. }
    exists res, r2. split; [exact Hpush|]. split; [done|]. split.
    + intros k Hk s. rewrite Hother by done. intros Hs. by eapply lookup_weaken.
    + apply outcome_pushed; [done|done|]. unfold entries_of in *. by rewrite <- Hkey.
  - destruct Hroom as [Hnone Hbig]. eexists _, r1. split; [done|]. split; [done|]. split.
    + intros k Hk s Hs. by eapply lookup_weaken.
    + rewrite Hnone. by apply outcome_no_room.
Qed.

(** ** Reachable states *)

(** A reassembly buffer in use: fragments of any kind arrive at any time, and
    stale datagrams are expired. *)
Inductive reachable : IpReassemblyBuffer -> Prop :=
| reach_new : reachable reassembly_new
| reach_expire r now : reachable r -> reachable (expire_stale_at now r).2
| reach_add r now src dst proto id blocks mf payload :
    reachable r -> 0 <= blocks <= u16_max -> zlen payload <= isize_max ->
    reachable (add_fragment now src dst proto id blocks mf payload r).2.

Lemma reachable_inv r : reachable r -> buffer_inv r.
Proof.
  induction 1 as [|r now _ IH|r now src dst proto id blocks mf payload _ IH Hb Hl].
  - split; cbn [buffers buffered_bytes reassembly_new]; [done|done|done|apply map_Forall_empty].
  - by apply expire_inv.
  - destruct (add_fragment_runs now src dst proto id blocks mf payload r IH Hb Hl) as (res & r' & -> & Hr' & _). done.
Qed.

(** C29: the payload that IPv4 reassembly holds is bounded under any traffic.
    However fragments arrive, overlap, repeat, lie about their length or stall,
    in every state the buffer reaches [buffered_bytes] is exactly the number of
    payload bytes held, at most 4 MiB of them in at most 1024 datagrams, each
    datagram's fragments are sorted, in range and agree where they overlap, and
    the next fragment is processed without a panic. The number of fragments
    without payload is not bounded: see [empty_fragments_unbounded]. *)
Theorem reassembly_bounded r now src dst proto id blocks mf payload :
  reachable r -> 0 <= blocks <= u16_max -> zlen payload <= isize_max ->
  buffered_bytes r = total_bytes (buffers r) /\ buffered_bytes r <= MAX_REASSEMBLY_BYTES /\
  Z.of_nat (size (buffers r)) <= MAX_REASSEMBLY_DATAGRAMS /\ map_Forall (fun _ => set_wf) (buffers r) /\
  exists res r', add_fragment now src dst proto id blocks mf payload r = (Ok res, r') /\ reachable r'.
Proof.
  intros Hr Hb Hl. pose proof (reachable_inv r Hr) as Hinv. destruct Hinv as [H1 H2 H3 H4] eqn:Heq. split_and!; [done..|].
  destruct (add_fragment_runs now src dst proto id blocks mf payload r Hinv Hb Hl) as (res & r' & Hrun & _ & _).
  exists res, r'. split; [exact Hrun|]. replace r' with (add_fragment now src dst proto id blocks mf payload r).2 by (by rewrite Hrun).
  by apply reach_add.
Qed.

(** C28: what one fragment does. In every reachable state it touches no other
    datagram except to expire or evict it, and for its own datagram there are
    four cases and no more: beyond the largest IPv4 payload it is ignored; in
    conflict with the fragments held (different bytes in an overlap, or two
    different ends) it destroys the datagram; when the datagram alone would
    exceed the memory limit it is dropped; otherwise it is added, and the call
    returns the datagram exactly when its fragments now hold every byte, in
    which case the result is their union and the datagram leaves the buffer. *)
Theorem add_fragment_exact r now src dst proto id blocks mf payload :
  reachable r -> 0 <= blocks <= u16_max -> zlen payload <= isize_max ->
  let key := fragment_key src dst proto id in
  let r0 := expired now r in
  exists res r', add_fragment now src dst proto id blocks mf payload r = (Ok res, r') /\
    (forall k, k <> key -> forall s, buffers r' !! k = Some s -> buffers r0 !! k = Some s) /\
    fragment_outcome now (entries_of r0 key) (frag_entry blocks mf payload)
      (buffers r0 !! key) (buffers r' !! key) res.
Proof.
  intros Hr Hb Hl key r0.
  destruct (add_fragment_runs now src dst proto id blocks mf payload r (reachable_inv r Hr) Hb Hl)
    as (res & r' & Hrun & _ & Hother & Hout). by exists res, r'.
Qed.

(** ** Delivering the pieces of one datagram *)

(** [e] is a piece of the datagram [p]. *)
Definition piece_of (p : bytes) (e : FragmentEntry) : Prop :=
  entry_wf e /\ agrees p e /\ (fe_more_fragments e = false -> fend e = zlen p).

Lemma pieces_compatible p e1 e2 : piece_of p e1 -> piece_of p e2 -> compatible e1 e2.
Proof.
  intros (_ & [Hl1 Hv1] & Hm1) (_ & [Hl2 Hv2] & Hm2). split_and!.
  - intros i H1 H2. by rewrite <- Hv1, <- Hv2.
  - intros Hm. rewrite Hm1 by done. done.
  - intros Hm. rewrite Hm2 by done. done.
Qed.

(** A fragment as it arrives: when, at which offset, whether more follow, and its data. *)
Record arrival : Type := { arr_now : Z; arr_blocks : Z; arr_mf : bool; arr_data : bytes }.
Definition arr_entry (a : arrival) : FragmentEntry := frag_entry (arr_blocks a) (arr_mf a) (arr_data a).

Fixpoint deliver (src dst : Ipv4Address) (proto id : Z) (l : list arrival) : RM (list (option bytes)) :=
  match l with
  | [] => iret []
  | a :: l' =>
      let! x := add_fragment (arr_now a) src dst proto id (arr_blocks a) (arr_mf a) (arr_data a) in
      let! xs := deliver src dst proto id l' in
      iret (x :: xs)
  end.

Section Delivery.
Context (src dst : Ipv4Address) (proto id : Z) (p : bytes) (t : Z).
Let key := fragment_key src dst proto id.

(** Pieces of [p] that arrive within one reassembly timeout. *)
Definition arrives (a : arrival) : Prop :=
  piece_of p (arr_entry a) /\ 0 <= arr_blocks a <= u16_max /\ t <= arr_now a < t + REASSEMBLY_TIMEOUT.

(** The buffer holds exactly the pieces [held], refreshed in the window. *)
Definition holds (r : IpReassemblyBuffer) (held : list FragmentEntry) : Prop :=
  buffer_inv r /\
  match buffers r !! key with
  | Some s => fs_entries s ≡ₚ held /\ t <= fs_updated_at s
  | None => held = []
  end.

Lemma holds_expired r held a : holds r held -> arrives a ->
  buffer_inv (expired (arr_now a) r) /\ entries_of (expired (arr_now a) r) key ≡ₚ held.
Proof.
  intros [Hr Hk] (_ & _ & Ht). split; [by apply expire_inv|]. unfold entries_of, expired. rewrite expire_lookup.
  destruct (buffers r !! key) as [s|]; simpl; [|by subst]. destruct Hk as [Hp Hu].
  rewrite decide_False; [done|]. unfold stale. rewrite saturating_sub_eq. unfold REASSEMBLY_TIMEOUT in *. lia.
Qed.

Lemma arrives_fits a : arrives a -> zlen (arr_data a) <= isize_max.
Proof.
  intros (([H1 H2] & _) & _ & _). unfold isize_max. unfold fend, arr_entry, frag_entry in *. cbn [fe_offset fe_data] in *. ulia.
Qed.

(** One more piece: the datagram when it completes it, nothing otherwise. *)
Lemma deliver_one r held a :
  holds r held -> Forall (piece_of p) held -> arrives a ->
  entries_bytes (held ++ [arr_entry a]) <= MAX_REASSEMBLY_BYTES ->
  exists res r', add_fragment (arr_now a) src dst proto id (arr_blocks a) (arr_mf a) (arr_data a) r = (Ok res, r') /\
    ((res = Some p /\ complete (zlen p) (held ++ [arr_entry a]) /\ buffers r' !! key = None) \/
     (res = None /\ (forall n, ~ complete n (held ++ [arr_entry a])) /\ holds r' (held ++ [arr_entry a]))).
Proof.
  intros Hh Hheld Ha Hbytes. destruct (holds_expired r held a Hh Ha) as [Hr0 Hent].
  pose proof (arrives_fits a Ha) as Hfit. pose proof Ha as (Hpiece & Hblk & Htime). pose proof Hpiece as (Hwf & Hag & Hfin).
  destruct (add_fragment_runs (arr_now a) src dst proto id (arr_blocks a) (arr_mf a) (arr_data a) r (proj1 Hh) Hblk Hfit)
    as (res & r' & Hrun & Hr' & _ & Hout).
  fold key (arr_entry a) in Hout. exists res, r'. split; [exact Hrun|].
  assert (forall x, x ∈ entries_of (expired (arr_now a) r) key -> compatible (arr_entry a) x) as Hcomp.
  { intros x Hx. rewrite Hent in Hx. apply (pieces_compatible p); [done|]. by eapply Forall_forall in Hheld. }
  assert (entries_of (expired (arr_now a) r) key ++ [arr_entry a] ≡ₚ held ++ [arr_entry a]) as Hperm by (by rewrite Hent).
  unfold holds. destruct Hout as [set Hlong|set _ Hbad|set _ _ Hbig|set set' res _ _ Hpushed].
  - destruct Hwf. lia.
  - by destruct Hbad.
  - rewrite <- (entries_bytes_perm _ _ Hperm), entries_bytes_snoc in Hbytes. lia.
  - destruct res as [q|]; simpl in Hpushed.
    + left. destruct Hpushed as (-> & Hc & Hq). rewrite Hperm in Hq. apply (complete_perm _ _ _ Hperm) in Hc.
      assert (zlen q = zlen p) as Hz.
      { destruct Hc as [_ (x & Hx & Hm & <-)].
        assert (piece_of p x) as (_ & _ & Hf); [|by apply Hf].
        apply elem_of_app in Hx as [Hx| ->%list_elem_of_singleton]; [by eapply Forall_forall in Hheld|done]. }
      assert (q = p) as ->; [|done]. eapply agrees_unique; [exact Hc|done|done|done|].
      apply Forall_app_2; [|by apply Forall_singleton]. eapply Forall_impl; [exact Hheld|]. intros x Hx. by destruct Hx as (_ & ? & _).
    + right. destruct Hpushed as [(s & Hs & Hp & Hu) Hno]. split; [done|]. split.
      * intros n Hc. apply (Hno n). apply (complete_perm n (held ++ [arr_entry a])); [by symmetry|done].
      * split; [done|]. rewrite Hs. split; [by rewrite Hp|]. lia.
Qed.

Lemma deliver_incomplete l : forall r held,
  holds r held -> Forall (piece_of p) held -> Forall arrives l ->
  entries_bytes (held ++ (arr_entry <$> l)) <= MAX_REASSEMBLY_BYTES ->
  (forall l1 l2, l = l1 ++ l2 -> ~ complete (zlen p) (held ++ (arr_entry <$> l1))) ->
  exists r', deliver src dst proto id l r = (Ok (replicate (length l) None), r') /\
    holds r' (held ++ (arr_entry <$> l)).
Proof.
  induction l as [|a l IH]; intros r held Hh Hheld Hl Hb Hno; cbn [deliver].
  { exists r. rewrite app_nil_r. done. }
  apply Forall_cons in Hl as [Ha Hl]. rewrite fmap_cons, cons_middle, app_assoc in Hb.
  assert (0 <= entries_bytes (held ++ [arr_entry a]) <= MAX_REASSEMBLY_BYTES) as Hb1.
  { rewrite (entries_bytes_app (held ++ [arr_entry a])) in Hb. pose proof (entries_bytes_nonneg (held ++ [arr_entry a])).
    pose proof (entries_bytes_nonneg (arr_entry <$> l)). lia. }
  destruct (deliver_one r held a Hh Hheld Ha ltac:(lia)) as (res & r1 & Hrun & [(-> & Hc & _)|(-> & _ & Hh1)]).
  { exfalso. apply (Hno [a] l); done. }
  destruct (IH r1 (held ++ [arr_entry a])) as (r' & Hd & Hh'); [done| |done|done| |].
  - apply Forall_app_2; [done|]. apply Forall_singleton. apply Ha.
  - intros l1 l2 ->. specialize (Hno (a :: l1) l2 eq_refl). by rewrite fmap_cons, cons_middle, app_assoc in Hno.
  - exists r'. unfold ibind. rewrite Hrun, Hd. split; [done|]. by rewrite fmap_cons, cons_middle, app_assoc.
Qed.
End Delivery.
End State.

Lemma reassembly_bounded_witness :
  let r := (@add_fragment map_order 0 (Ip [1; 2; 3; 4]) (Ip [5; 6; 7; 8]) 17 1 0 true [1; 2; 3; 4; 5; 6; 7; 8] reassembly_new).2 in
  buffered_bytes r = 8 /\ exists res r',
    @add_fragment map_order 1 (Ip [1; 2; 3; 4]) (Ip [5; 6; 7; 8]) 17 1 1 false [9] r = (Ok res, r').
Proof.
  intros r. destruct (@reassembly_bounded map_order r 1 (Ip [1; 2; 3; 4]) (Ip [5; 6; 7; 8]) 17 1 1 false [9])
    as (_ & _ & _ & _ & res & r' & Hrun & _).
  - apply reach_add; [apply reach_new|done|done].
  - done.
  - done.
  - split; [reflexivity|]. by exists res, r'.
Defined.

Lemma add_fragment_exact_witness :
  let key := fragment_key (Ip [1; 2; 3; 4]) (Ip [5; 6; 7; 8]) 17 1 in
  exists res r', @add_fragment map_order 0 (Ip [1; 2; 3; 4]) (Ip [5; 6; 7; 8]) 17 1 0 false [7; 8] reassembly_new = (Ok res, r') /\
    fragment_outcome 0 [] (frag_entry 0 false [7; 8]) None (buffers r' !! key) res.
Proof.
  intros key. destruct (@add_fragment_exact map_order reassembly_new 0 (Ip [1; 2; 3; 4]) (Ip [5; 6; 7; 8]) 17 1 0 false [7; 8])
    as (res & r' & Hrun & _ & Hout); [apply reach_new|done|done|]. exists res, r'. split; [done|exact Hout].
Defined.

(** ** Empty fragments *)

Section Empty.
Context `{HashOrder} (src dst : Ipv4Address) (proto id : Z).
Let key := fragment_key src dst proto id.
Let e := frag_entry 0 true [].

(** [n] empty fragments of one datagram are held, and nothing else. *)
Definition empties (n : nat) (r : IpReassemblyBuffer) : Prop :=
  reachable r /\ (forall k s, buffers r !! k = Some s -> k = key) /\
  match buffers r !! key with
  | Some s => fs_entries s ≡ₚ replicate n e /\ fs_updated_at s = 0
  | None => n = O
  end.

Lemma empties_bytes n : entries_bytes (replicate n e) = 0.
Proof.
  induction n as [|n IH]; [done|]. change (replicate (S n) e) with ([e] ++ replicate n e). by rewrite entries_bytes_app, IH.
Qed.

Lemma empties_step n r : empties n r -> exists r', empties (S n) r'.
Proof.
  intros (Hr & Honly & Hk). pose proof (reachable_inv r Hr) as Hinv.
  destruct (add_fragment_runs 0 src dst proto id 0 true [] r Hinv ltac:(ulia) ltac:(done)) as (res & r' & Hrun & _ & Hother & Hout).
  fold key in Hother, Hout. fold e in Hout. exists r'.
  assert (reachable r') as Hr'.
  { replace r' with (add_fragment 0 src dst proto id 0 true [] r).2 by (by rewrite Hrun). apply reach_add; [done|ulia|done]. }
  assert (entries_of (expired 0 r) key ≡ₚ replicate n e) as Hent.
  { unfold entries_of, expired. rewrite expire_lookup. destruct (buffers r !! key) as [s|]; simpl; [|by subst].
    destruct Hk as [Hp Hu]. rewrite decide_False; [done|]. unfold stale. rewrite Hu. by vm_compute. }
  assert (forall x, x ∈ entries_of (expired 0 r) key -> x = e) as Hall.
  { intros x. rewrite Hent. intros Hx. by apply elem_of_replicate in Hx as [-> _]. }
  unfold empties. split; [done|]. split.
  { intros k s Hs. destruct (decide (k = key)) as [|Hne]; [done|]. apply Hother in Hs; [|done].
    unfold expired in Hs. rewrite expire_lookup in Hs. destruct (buffers r !! k) eqn:Hkk; [|done]. by apply Honly in Hkk. }
  destruct Hout as [set Hlong|set _ Hbad|set _ _ Hbig|set set' res _ _ Hpushed].
  - by vm_compute in Hlong.
  - destruct Hbad. intros x Hx. rewrite (Hall x Hx). apply compatible_refl.
  - exfalso. assert (entries_bytes (entries_of (expired 0 r) key) = 0) as Hz.
    { rewrite (entries_bytes_perm _ _ Hent). apply empties_bytes. }
    rewrite Hz in Hbig. by vm_compute in Hbig.
  - destruct res as [p|]; simpl in Hpushed.
    + destruct Hpushed as (_ & [_ (x & Hx & Hm & _)] & _). exfalso.
      apply elem_of_app in Hx as [Hx| ->%list_elem_of_singleton]; [rewrite (Hall x Hx) in Hm; done|done].
    + destruct Hpushed as [(s & -> & Hp & Hu) _]. split; [|done]. rewrite Hp, Hent.
      change (replicate (S n) e) with ([e] ++ replicate n e). apply Permutation_app_comm.
Qed.

Lemma empties_reachable n : exists r, empties n r.
Proof.
  induction n as [|n [r IH]]; [|by eapply empties_step]. exists reassembly_new.
  split; [constructor|]. split; [done|done].
Qed.

(** C30: the two limits do not bound the number of fragments: for every [n] a
    sequence of [add_fragment] calls without data leads to a
    buffer that holds [n] entries for one datagram while [buffered_bytes] is 0,
    so that no limit ever applies to them. *)
Theorem empty_fragments_unbounded n :
  exists r, reachable r /\ buffered_bytes r = 0 /\ length (entries_of r key) = n.
Proof.
  destruct (empties_reachable n) as (r & Hr & Honly & Hk). exists r. split; [done|].
  assert (entries_of r key ≡ₚ replicate n e) as Hent.
  { unfold entries_of. destruct (buffers r !! key) as [s|]; simpl; [by destruct Hk|by subst]. }
  split.
  - rewrite (inv_bytes _ (reachable_inv r Hr)), (total_bytes_only _ key Honly). fold (entries_of r key).
    rewrite (entries_bytes_perm _ _ Hent). apply empties_bytes.
  - by rewrite Hent, length_replicate.
Qed.
End Empty.
