(* ===== verification/Fragment.v ===== *)
(** * IPv4 fragmentation ([fragment.rs], [fragment_payload])

    The fragmenting loop, and the end-to-end theorem: the fragments of a
    payload, parsed by the receiver and delivered in any order, come out of the
    reassembly buffer as the payload. *)

From S2P Require Import Prelude Bytes NetBytes Checksum Ipv4 Reassembly ReassemblyEntries ReassemblyState.

Section FragmentPayload.
Context {E : Type} (src_ip dst_ip : Ipv4Address) (protocol identification ttl : Z) (payload : bytes).

(** The body of the loop: the fragment at [offset] with [chunk_len] bytes. *)
Definition fragment_at (offset chunk_len : Z) : outcome E bytes :=
  let more_fragments := offset + chunk_len <? zlen payload in
  let frag_offset_blocks := as_u16 (offset / 8) in
  let total_length := as_u16 (IPV4_MIN_HEADER_LEN + chunk_len) in
  let flags_offset := Z.land frag_offset_blocks 0x1FFF in
  let flags_offset := if more_fragments then Z.lor flags_offset 0x2000 else flags_offset in
  let buf := [0x45] ++ [0x00] ++ u16_be total_length ++ u16_be identification ++ u16_be flags_offset
             ++ [ttl] ++ [protocol] ++ [0x00; 0x00] ++ ip_octets src_ip ++ ip_octets dst_ip in
  let? head := slice buf 0 IPV4_MIN_HEADER_LEN in
  let csum := compute_checksum head in
  let? buf := copy_range buf 10 12 (u16_be csum) in
  let? chunk := slice payload offset (offset + chunk_len) in
  Ok (buf ++ chunk).

(** [while offset < payload.len()], at most [fuel] times. *)
Fixpoint fragment_loop (fuel : nat) (max_payload offset : Z) : outcome E (list bytes) :=
  if offset <? zlen payload then
    match fuel with
    | O => Panic
    | S fuel' =>
        let remaining := zlen payload - offset in
        let chunk_len := Z.min remaining max_payload in
        let? frag := fragment_at offset chunk_len in
        let? rest := fragment_loop fuel' max_payload (offset + chunk_len) in
        Ok (frag :: rest)
    end
  else Ok [].

(** Every round advances by at least a byte. *)
Definition fragment_payload (mtu : Z) : outcome E (list bytes) :=
  let max_header := IPV4_MIN_HEADER_LEN in
  if mtu <=? max_header then Ok [] else
  let max_payload := (mtu - max_header) / 8 * 8 in
  if max_payload =? 0 then Ok [] else
  fragment_loop (length payload) max_payload 0.
End FragmentPayload.

(** ** The pieces a payload is cut into *)

Fixpoint chunk_pieces (fuel : nat) (max_payload : Z) (payload : bytes) (offset : Z) : list FragmentEntry :=
  if offset <? zlen payload then
    match fuel with
    | O => []
    | S fuel' =>
        let n := Z.min (zlen payload - offset) max_payload in
        {| fe_offset := offset; fe_data := sub payload offset n; fe_more_fragments := offset + n <? zlen payload |}
        :: chunk_pieces fuel' max_payload payload (offset + n)
    end
  else [].

Section Pieces.
Context (mx : Z) (payload : bytes) (Hmx : 8 <= mx) (Hmx8 : mx mod 8 = 0).

Abbreviation len := (zlen payload).
Abbreviation pieces := (fun fuel => chunk_pieces fuel mx payload).

(** What is known of a piece cut at or after [off]. *)
Definition good_piece (off : Z) (e : FragmentEntry) : Prop :=
  off <= fe_offset e < len /\ fe_offset e mod 8 = 0 /\ fend e <= len /\ 0 < zlen (fe_data e) <= mx /\
  fe_data e = sub payload (fe_offset e) (zlen (fe_data e)) /\ fe_more_fragments e = (fend e <? len) /\
  (fe_more_fragments e = true -> zlen (fe_data e) mod 8 = 0).

(** The end of the payload, or a next offset on an 8-byte boundary. *)
Lemma chunk_pieces_end fuel off : len <= off -> pieces fuel off = [].
Proof. intros. destruct fuel; cbn [chunk_pieces]; by rewrite (proj2 (Z.ltb_ge _ _)) by lia. Qed.

Lemma next_offset off : off mod 8 = 0 -> off < len ->
  let n := Z.min (len - off) mx in len <= off + n \/ (n = mx /\ (off + n) mod 8 = 0).
Proof using Hmx8.
  intros H8 Hlt n. destruct (decide (off + n < len)); [right|left; lia].
  assert (n = mx) as -> by lia. split; [done|]. by rewrite Zplus_mod, H8, Hmx8.
Qed.

(** Induction over the pieces. *)
Lemma chunk_pieces_ind (P : nat -> Z -> list FragmentEntry -> Prop) :
  (forall fuel off, len <= off -> P fuel off []) ->
  (forall fuel off, 0 <= off < len -> off mod 8 = 0 ->
     let n := Z.min (len - off) mx in
     let e := {| fe_offset := off; fe_data := sub payload off n; fe_more_fragments := off + n <? len |} in
     zlen (fe_data e) = n -> 0 < n -> good_piece off e -> len - (off + n) <= Z.of_nat fuel ->
     P fuel (off + n) (pieces fuel (off + n)) -> P (S fuel) off (e :: pieces fuel (off + n))) ->
  forall fuel off, 0 <= off -> off mod 8 = 0 -> len - off <= Z.of_nat fuel -> P fuel off (pieces fuel off).
Proof using Hmx Hmx8.
  intros Hend Hstep fuel. induction fuel as [|fuel IH]; intros off Ho H8 Hf.
  { rewrite chunk_pieces_end by lia. apply Hend. lia. }
  destruct (decide (off < len)) as [Hlt|Hge]; [|rewrite chunk_pieces_end by lia; apply Hend; lia].
  cbn [chunk_pieces]. rewrite (proj2 (Z.ltb_lt _ _)) by done.
  set (n := Z.min (len - off) mx). assert (zlen (sub payload off n) = n) as Hn by (apply zlen_sub; lia).
  pose proof (next_offset off H8 Hlt) as Hno. cbv zeta in Hno. fold n in Hno.
  apply Hstep; fold n; [lia|done|done|lia| |lia|].
  - unfold good_piece, fend. cbn [fe_offset fe_data fe_more_fragments]. rewrite Hn. split_and!; try done; try lia.
    intros Hm. apply Z.ltb_lt in Hm. destruct Hno as [?|[Hmxn _]]; [lia|]. by rewrite Hmxn.
  - destruct Hno as [?|[_ ?]]; [rewrite chunk_pieces_end by lia; apply Hend; lia|].
    apply IH; lia.
Qed.

Section From.
Context (fuel : nat) (off : Z) (Ho : 0 <= off) (H8 : off mod 8 = 0) (Hf : len - off <= Z.of_nat fuel).

Lemma chunk_pieces_good : Forall (good_piece off) (pieces fuel off).
Proof using All.
  apply (chunk_pieces_ind (fun _ off l => Forall (good_piece off) l)); [constructor| |done..].
  intros fuel' o ? ? n e _ ? He _ IH. constructor; [done|]. eapply Forall_impl; [exact IH|].
  intros x (? & ?). split; [lia|done].
Qed.

Lemma chunk_pieces_disjoint e1 e2 i :
  e1 ∈ pieces fuel off -> e2 ∈ pieces fuel off -> covers e1 i -> covers e2 i -> e1 = e2.
Proof using All.
  revert e1 e2 i. enough (Forall (fun e => off <= fe_offset e) (pieces fuel off) /\
    forall e1 e2 i, e1 ∈ pieces fuel off -> e2 ∈ pieces fuel off -> covers e1 i -> covers e2 i -> e1 = e2) as [_ ?] by done.
  apply (chunk_pieces_ind (fun _ off l => Forall (fun e => off <= fe_offset e) l /\
    forall e1 e2 i, e1 ∈ l -> e2 ∈ l -> covers e1 i -> covers e2 i -> e1 = e2)); [|  |done..].
  { intros _ o _. split; [constructor|set_solver]. }
  intros fuel' o ? ? n e Hn Hpos _ _ [Hlow IH]. split.
  - constructor; [done|]. eapply Forall_impl; [exact Hlow|]. simpl. lia.
  - rewrite Forall_forall in Hlow. assert (fend e = o + n) as Hfe by (unfold fend; by rewrite Hn).
    intros e1 e2 i [->|H1]%elem_of_cons [->|H2]%elem_of_cons; [done|..|by apply IH].
    + specialize (Hlow _ H2). unfold covers. lia.
    + specialize (Hlow _ H1). unfold covers. lia.
Qed.

Lemma chunk_pieces_nodup : NoDup (pieces fuel off).
Proof using All.
  enough (Forall (fun e => off <= fe_offset e) (pieces fuel off) /\ NoDup (pieces fuel off)) as [_ ?] by done.
  apply (chunk_pieces_ind (fun _ off l => Forall (fun e => off <= fe_offset e) l /\ NoDup l)); [by repeat constructor| |done..].
  intros fuel' o ? ? n e Hn Hpos _ _ [Hlow IH]. split.
  - constructor; [done|]. eapply Forall_impl; [exact Hlow|]. simpl. lia.
  - constructor; [|done]. intros He. rewrite Forall_forall in Hlow. specialize (Hlow _ He). subst e. simpl in Hlow. lia.
Qed.

Lemma chunk_pieces_covers i : off <= i < len -> exists e, e ∈ pieces fuel off /\ covers e i.
Proof using All.
  revert i. apply (chunk_pieces_ind (fun _ off l => forall i, off <= i < len -> exists e, e ∈ l /\ covers e i));
    [intros; lia| |done..].
  intros fuel' o ? ? n e Hn Hpos _ _ IH i Hi. destruct (decide (i < o + n)).
  - exists e. split; [left|]. unfold covers, fend. rewrite Hn. simpl. lia.
  - destruct (IH i ltac:(lia)) as (x & ? & ?). exists x. split; [by right|done].
Qed.

Lemma chunk_pieces_bytes : entries_bytes (pieces fuel off) = Z.max (len - off) 0.
Proof using All.
  apply (chunk_pieces_ind (fun _ off l => entries_bytes l = Z.max (len - off) 0)); [|  |done..].
  - intros. change (entries_bytes []) with 0. lia.
  - intros fuel' o ? ? n e Hn Hpos _ _ IH. rewrite entries_bytes_eq in *. cbn [foldr]. rewrite IH, Hn. lia.
Qed.
End From.
End Pieces.

(** ** The fragments on the wire *)

Section Wire.
Context (src dst : Ipv4Address) (proto id ttl0 : Z).
Context (Hsrc : ip_wf src) (Hdst : ip_wf dst) (Hproto : is_u8 proto) (Hid : is_u16 id) (Httl : is_u8 ttl0).

Definition wire_flags (e : FragmentEntry) : Z := fe_offset e / 8 + (if fe_more_fragments e then 2 ^ 13 else 0).

(** The datagram that carries a piece. *)
Definition wire (e : FragmentEntry) : bytes :=
  let total := 20 + zlen (fe_data e) in
  header_bytes total id (wire_flags e) ttl0 proto
    (header_checksum total id (wire_flags e) ttl0 proto (ip_octets src) (ip_octets dst)) (ip_octets src) (ip_octets dst)
  ++ fe_data e.

Context (mx : Z) (payload : bytes) (Hmx : 8 <= mx) (Hmx8 : mx mod 8 = 0) (Hlen : zlen payload <= IPV4_MAX_PAYLOAD_LEN).

Lemma good_piece_blocks off e : 0 <= off -> good_piece mx payload off e ->
  0 <= fe_offset e / 8 < 2 ^ 13 /\ fe_offset e / 8 * 8 = fe_offset e.
Proof using Hlen.
  intros Ho (Hr & H8 & _). pose proof (Z.div_mod (fe_offset e) 8). split; [|lia].
  split; [apply Z.div_pos; lia|apply Z.div_lt_upper_bound; ulia].
Qed.

Lemma fragment_at_wire {E} off e : 0 <= off -> good_piece mx payload off e ->
  @fragment_at E src dst proto id ttl0 payload (fe_offset e) (zlen (fe_data e)) = Ok (wire e).
Proof using Hsrc Hdst Hlen.
  intros Ho He. destruct (good_piece_blocks off e Ho He) as [Hblk Hblk8].
  destruct He as (Hr & _ & Hend & Hz & Hdata & Hmore & _). unfold fend in *.
  unfold fragment_at. rewrite <- Hmore. unfold as_u16. rewrite !Z.mod_small by ulia.
  change 0x1FFF with (Z.ones 13). rewrite Z.land_ones, Z.mod_small by lia.
  assert ((if fe_more_fragments e then Z.lor (fe_offset e / 8) 0x2000 else fe_offset e / 8) = wire_flags e) as ->.
  { unfold wire_flags. destruct (fe_more_fragments e); [|lia]. by apply (lor_bit _ 13). }
  pose proof (@fill_header E (20 + zlen (fe_data e)) id (wire_flags e) ttl0 proto src dst Hsrc Hdst) as Hf. cbv zeta in Hf.
  change (header_bytes (20 + zlen (fe_data e)) id (wire_flags e) ttl0 proto 0 (ip_octets src) (ip_octets dst)) with
    ([0x45] ++ [0x00] ++ u16_be (IPV4_MIN_HEADER_LEN + zlen (fe_data e)) ++ u16_be id ++ u16_be (wire_flags e)
     ++ [ttl0] ++ [proto] ++ [0; 0] ++ ip_octets src ++ ip_octets dst) in Hf.
  destruct (slice _ 0 IPV4_MIN_HEADER_LEN); simplify_eq/=. cbn [obind] in Hf. rewrite Hf. ostep.
  rewrite slice_n with (n := zlen (fe_data e)) by lia. ostep. unfold wire. by rewrite <- Hdata.
Qed.

(** The loop ends with the fragments of the pieces. *)
Lemma fragment_loop_wire {E} fuel off : 0 <= off -> off mod 8 = 0 -> zlen payload - off <= Z.of_nat fuel ->
  @fragment_loop E src dst proto id ttl0 payload fuel mx off = Ok (wire <$> chunk_pieces fuel mx payload off).
Proof using Hsrc Hdst Hmx Hmx8 Hlen.
  apply (chunk_pieces_ind mx payload Hmx Hmx8 (fun fuel off l =>
    @fragment_loop E src dst proto id ttl0 payload fuel mx off = Ok (wire <$> l))).
  - intros f o Ho. destruct f; cbn [fragment_loop]; by rewrite (proj2 (Z.ltb_ge _ _)) by lia.
  - intros f o Ho H8 n e Hn Hpos He _ IH. cbn [fragment_loop]. rewrite (proj2 (Z.ltb_lt _ _)) by lia.
    fold n. pose proof (@fragment_at_wire E o e ltac:(lia) He) as Hat. rewrite Hn in Hat. simpl in Hat.
    rewrite Hat. ostep. rewrite IH. done.
Qed.

(** What the receiver's parser makes of it. *)
Definition wire_packet (e : FragmentEntry) : Ipv4Packet :=
  {| header := {| version := 4; ihl := 5; dscp_ecn := 0; total_length := 20 + zlen (fe_data e); identification := id;
                  dont_fragment := false; more_fragments := fe_more_fragments e; fragment_offset := fe_offset e / 8;
                  ttl := ttl0; protocol := protocol_from_u8 proto;
                  ip_checksum := header_checksum (20 + zlen (fe_data e)) id (wire_flags e) ttl0 proto (ip_octets src) (ip_octets dst);
                  src_ip := src; dst_ip := dst |};
     ip_payload := fe_data e |}.

Lemma wire_flags_bits blk (more : bool) : 0 <= blk < 2 ^ 13 ->
  let f := blk + (if more then 2 ^ 13 else 0) in
  is_u16 f /\ Z.testbit f 15 = false /\ Z.testbit f 14 = false /\ Z.testbit f 13 = more /\ f mod 2 ^ 13 = blk.
Proof.
  intros Hb f. assert (0 <= f < 2 ^ 14) as Hf by (subst f; destruct more; lia). split_and!.
  - ulia.
  - apply testbit_small; [|lia]. change (2 ^ 15) with (2 * 2 ^ 14). lia.
  - apply testbit_small; lia.
  - subst f. destruct more; [by apply testbit_add_pow2|]. rewrite Z.add_0_r. apply testbit_small; lia.
  - subst f. destruct more.
    + replace (blk + 2 ^ 13) with (blk + 1 * 2 ^ 13) by lia. rewrite Z.mod_add by lia. by apply Z.mod_small.
    + rewrite Z.add_0_r. by apply Z.mod_small.
Qed.

Lemma wire_parses off e : 0 <= off -> good_piece mx payload off e -> ipv4_parse (wire e) true = Ok (wire_packet e).
Proof using Hsrc Hdst Hproto Hid Httl Hlen.
  intros Ho He. destruct (good_piece_blocks off e Ho He) as [Hblk _].
  destruct (wire_flags_bits _ (fe_more_fragments e) Hblk) as (Hu & H15 & H14 & H13 & Hmod). fold (wire_flags e) in *.
  destruct He as (Hr & _ & Hend & Hz & _ & _ & Hm8). unfold fend in *.
  unfold wire. rewrite ipv4_parse_Ok.
  - rewrite header_bytes_view by (first [done|by apply header_checksum_u16|ulia]).
    rewrite H14, H13, Hmod. done.
  - apply header_bytes_accepts; [done..|ulia|done|done|by rewrite H13|done].
Qed.

Lemma good_piece_of off e : 0 <= off -> good_piece mx payload off e -> piece_of payload e.
Proof using Hlen.
  intros Ho (Hr & H8 & Hend & Hz & Hdata & Hmore & _). split_and!.
  - split; [lia|]. ulia.
  - split; [done|]. intros i Hi. unfold covers, fend in Hi. unfold at_pos. rewrite Hdata. rewrite byte_at_sub by lia.
    f_equal. lia.
  - intros Hm. rewrite Hmore in Hm. apply Z.ltb_ge in Hm. lia.
Qed.
End Wire.

(** ** The receiver *)

Section Receive.
Context `{HashOrder}.

(** Parse a datagram and hand its fragment to the reassembly buffer. *)
Definition receive_fragment (now : Z) (raw : bytes) : ST Empty_set IpReassemblyBuffer (option bytes) :=
  match ipv4_parse raw true with
  | Ok pkt => add_fragment now (src_ip (header pkt)) (dst_ip (header pkt)) (protocol_to_u8 (protocol (header pkt)))
                (identification (header pkt)) (fragment_offset (header pkt)) (more_fragments (header pkt)) (ip_payload pkt)
  | _ => iret None
  end.

Fixpoint receive_all (l : list (Z * bytes)) : ST Empty_set IpReassemblyBuffer (list (option bytes)) :=
  match l with
  | [] => iret []
  | (now, raw) :: l' =>
      let! x := receive_fragment now raw in
      let! xs := receive_all l' in
      iret (x :: xs)
  end.

Lemma protocol_to_from val : protocol_to_u8 (protocol_from_u8 val) = val.
Proof. unfold protocol_from_u8. repeat (case_match; bool_facts); subst; done. Qed.

Lemma deliver_app src dst proto id l1 l2 r xs r1 :
  deliver src dst proto id l1 r = (Ok xs, r1) ->
  deliver src dst proto id (l1 ++ l2) r =
  match deliver src dst proto id l2 r1 with
  | (Ok ys, r2) => (Ok (xs ++ ys), r2)
  | (Err e, r2) => (Err e, r2)
  | (Panic, r2) => (Panic, r2)
  end.
Proof.
  revert r xs. induction l1 as [|a l1 IH]; intros r xs; cbn [deliver app]; unfold ibind, iret.
  - intros [= <- <-]. by destruct (deliver src dst proto id l2 r) as [[] ?].
  - destruct (add_fragment _ _ _ _ _ _ _ _ _) as [[x|e|] r']; [|done..].
    destruct (deliver src dst proto id l1 r') as [[ys|e|] r''] eqn:Hd; [|done..]. intros [= <- <-].
    rewrite (IH _ _ Hd). by destruct (deliver src dst proto id l2 r'') as [[] ?].
Qed.

Section EndToEnd.
Context (src dst : Ipv4Address) (proto id ttl0 mx : Z) (payload : bytes).
Context (Hsrc : ip_wf src) (Hdst : ip_wf dst) (Hproto : is_u8 proto) (Hid : is_u16 id) (Httl : is_u8 ttl0)
        (Hmx : 8 <= mx) (Hmx8 : mx mod 8 = 0) (Hlen : 0 < zlen payload <= IPV4_MAX_PAYLOAD_LEN).
Let Hlen' : zlen payload <= IPV4_MAX_PAYLOAD_LEN := proj2 Hlen.

Definition piece_arrival (now : Z) (e : FragmentEntry) : arrival :=
  {| arr_now := now; arr_blocks := fe_offset e / 8; arr_mf := fe_more_fragments e; arr_data := fe_data e |}.

Abbreviation all_pieces := (chunk_pieces (length payload) mx payload 0).

Lemma all_good : Forall (good_piece mx payload 0) all_pieces.
Proof using All. apply chunk_pieces_good; [done..|unfold zlen; lia]. Qed.

Lemma arr_entry_piece now e : good_piece mx payload 0 e -> arr_entry (piece_arrival now e) = e.
Proof using All.
  intros He. destruct (good_piece_blocks mx payload Hlen' 0 e ltac:(lia) He) as [_ H8].
  destruct e. unfold arr_entry, frag_entry, piece_arrival. simpl in *. by rewrite H8.
Qed.

Lemma arr_entries es : forall nows, Forall (good_piece mx payload 0) es -> length nows = length es ->
  arr_entry <$> zip_with piece_arrival nows es = es.
Proof using All.
  induction es as [|e es IH]; intros [|now nows] Hg Hl; simplify_eq/=; [done|].
  apply Forall_cons in Hg as [He Hg]. by rewrite arr_entry_piece, IH.
Qed.

Lemma receive_all_deliver es : forall l r, Forall (good_piece mx payload 0) es ->
  l.*2 = wire src dst proto id ttl0 <$> es ->
  receive_all l r = deliver src dst proto id (zip_with piece_arrival l.*1 es) r.
Proof using All.
  induction es as [|e es IH]; intros [|[now raw] l] r Hg Hl; simplify_eq/=; [done|].
  apply Forall_cons in Hg as [He Hg]. unfold ibind, receive_fragment.
  rewrite (wire_parses src dst proto id ttl0 Hsrc Hdst Hproto Hid Httl mx payload Hlen' 0 e ltac:(lia) He).
  cbn [wire_packet header ip_payload src_ip dst_ip protocol identification fragment_offset more_fragments].
  rewrite protocol_to_from. destruct (add_fragment _ _ _ _ _ _ _ _ _) as [[x|?|] r']; [|done..]. by rewrite IH.
Qed.

Lemma missing_piece l1 l2 e :
  l1 ++ l2 ++ [e] ≡ₚ all_pieces -> ~ complete (zlen payload) l1.
Proof using All.
  intros Hp [Hcov _]. pose proof all_good as Hg. rewrite Forall_forall in Hg.
  assert (e ∈ all_pieces) as He by (rewrite <- Hp; set_solver).
  destruct (Hg e He) as (Hr & _ & Hend & Hz & _).
  destruct (Hcov (fe_offset e)) as (x & Hx & Hcx); [lia|].
  assert (x = e) as ->.
  { apply (chunk_pieces_disjoint mx payload Hmx Hmx8 (length payload) 0 ltac:(lia) ltac:(done) ltac:(unfold zlen; lia) x e (fe_offset e));
      [rewrite <- Hp; set_solver|done|done|]. unfold covers, fend. lia. }
  assert (NoDup (l1 ++ l2 ++ [e])) as Hnd.
  { rewrite Hp. apply chunk_pieces_nodup; [done..|unfold zlen; lia]. }
  apply NoDup_app in Hnd as (_ & Hdis & _). apply (Hdis e Hx). set_solver.
Qed.

Lemma all_pieces_complete : complete (zlen payload) all_pieces.
Proof using All.
  split.
  - intros i Hi. apply chunk_pieces_covers; [done..|unfold zlen; lia|lia].
  - destruct (chunk_pieces_covers mx payload Hmx Hmx8 (length payload) 0 ltac:(lia) ltac:(done) ltac:(unfold zlen; lia)
      (zlen payload - 1) ltac:(lia)) as (e & He & Hc).
    exists e. split; [done|]. pose proof all_good as Hg. rewrite Forall_forall in Hg.
    destruct (Hg e He) as (_ & _ & Hend & _ & _ & Hm & _). unfold covers in Hc. split; [|lia].
    rewrite Hm. apply Z.ltb_ge. lia.
Qed.

Lemma pieces_reassemble es nows t r :
  es ≡ₚ all_pieces -> length nows = length es -> Forall (fun now => t <= now < t + REASSEMBLY_TIMEOUT) nows ->
  buffer_inv r -> buffers r !! fragment_key src dst proto id = None ->
  exists r', deliver src dst proto id (zip_with piece_arrival nows es) r =
      (Ok (replicate (length es - 1) None ++ [Some payload]), r') /\
    buffers r' !! fragment_key src dst proto id = None.
Proof using All.
  intros Hes Hn Ht Hr Hk.
  assert (Forall (good_piece mx payload 0) es) as Hg by (rewrite Hes; apply all_good).
  pose proof (arr_entries es nows Hg Hn) as Hent.
  assert (Forall (arrives payload t) (zip_with piece_arrival nows es)) as Harr.
  { clear Hes Hent. revert nows Hn Ht. induction Hg as [|e es He Hg IH]; intros [|now nows] Hn Ht; simplify_eq/=; constructor.
    - apply Forall_cons in Ht as [Ht _]. unfold arrives. rewrite arr_entry_piece by done.
      split; [by apply (good_piece_of mx payload Hlen' 0)|]. split; [|done].
      destruct (good_piece_blocks mx payload Hlen' 0 e ltac:(lia) He) as [? _]. simpl. ulia.
    - apply Forall_cons in Ht as [_ Ht]. by apply IH. }
  assert (entries_bytes es <= MAX_REASSEMBLY_BYTES) as Hbytes.
  { rewrite (entries_bytes_perm _ _ Hes), chunk_pieces_bytes by (first [done|unfold zlen; lia]). ulia. }
  set (arrs := zip_with piece_arrival nows es) in *. clearbody arrs. clear Ht Hn nows.
  destruct arrs as [|a arrs] using rev_ind.
  { exfalso. simpl in Hent. subst es. apply Permutation_nil in Hes.
    pose proof all_pieces_complete as [Hc _]. destruct (Hc 0 ltac:(lia)) as (e & He & _). rewrite Hes in He. set_solver. }
  clear IHarrs. apply Forall_app in Harr as [Harr Ha]. rewrite Forall_singleton in Ha.
  rewrite fmap_app in Hent. simpl in Hent.
  destruct (deliver_incomplete src dst proto id payload t arrs r []) as (r1 & Hd1 & Hh1).
  - split; [done|]. by rewrite Hk.
  - constructor.
  - done.
  - rewrite app_nil_l. rewrite <- Hent, entries_bytes_app in Hbytes. pose proof (entries_bytes_nonneg [arr_entry a]). lia.
  - intros l1 l2 ->. rewrite app_nil_l. rewrite fmap_app, <- app_assoc in Hent.
    eapply missing_piece. by rewrite Hent.
  - rewrite app_nil_l in Hh1.
    destruct (deliver_one src dst proto id payload t r1 (arr_entry <$> arrs) a Hh1) as (res & r2 & Hrun & Hres);
      [|done|by rewrite Hent|].
    { rewrite <- Hent in Hg. apply Forall_app in Hg as [Hg _]. eapply Forall_impl; [exact Hg|].
      intros e He. by apply (good_piece_of mx payload Hlen' 0). }
    destruct Hres as [(-> & _ & Hnone)|(_ & Hno & _)].
    + exists r2. split; [|exact Hnone]. rewrite (deliver_app _ _ _ _ _ _ _ _ _ Hd1). cbn [deliver]. unfold ibind, iret.
      rewrite Hrun. rewrite <- Hent, length_app, length_fmap. simpl. by rewrite Nat.add_sub.
    + exfalso. apply (Hno (zlen payload)). rewrite Hent. eapply complete_perm; [by symmetry|]. apply all_pieces_complete.
Qed.
End EndToEnd.
End Receive.

Lemma fragment_payload_runs {E} src dst proto id ttl0 mtu payload :
  ip_wf src -> ip_wf dst -> 28 <= mtu -> zlen payload <= IPV4_MAX_PAYLOAD_LEN ->
  let mx := (mtu - 20) / 8 * 8 in
  8 <= mx <= mtu - 20 /\ mx mod 8 = 0 /\
  @fragment_payload E src dst proto id ttl0 payload mtu =
    Ok (wire src dst proto id ttl0 <$> chunk_pieces (length payload) mx payload 0).
Proof.
  intros Hs Hd Hm Hl mx.
  assert (8 <= mx <= mtu - 20) as Hmx.
  { subst mx. pose proof (Z.div_mod (mtu - 20) 8 ltac:(lia)). pose proof (Z.mod_pos_bound (mtu - 20) 8 ltac:(lia)).
    assert (1 <= (mtu - 20) / 8); [|lia]. apply Z.div_le_lower_bound; lia. }
  assert (mx mod 8 = 0) as H8 by (by apply Z.mod_mul). split; [done|]. split; [done|].
  unfold fragment_payload. rewrite (proj2 (Z.leb_gt _ _)) by ulia. change (mtu - IPV4_MIN_HEADER_LEN) with (mtu - 20).
  fold mx. rewrite (proj2 (Z.eqb_neq mx 0)) by lia.
  apply fragment_loop_wire; (done || lia || (unfold zlen; lia)).
Qed.

(** [pieces] is [data], which starts at [off], cut in order: each piece at its
    offset, on an 8-byte boundary, and marked unless nothing follows it. *)
Fixpoint cut_from (off : Z) (data : bytes) (pieces : list FragmentEntry) : Prop :=
  match pieces with
  | [] => data = []
  | e :: rest =>
      fe_offset e = off /\ off mod 8 = 0 /\ fe_data e <> [] /\
      exists tail, data = fe_data e ++ tail /\ fe_more_fragments e = negb (is_empty tail) /\
        cut_from (off + zlen (fe_data e)) tail rest
  end.

Lemma chunk_pieces_cut mx payload fuel off :
  8 <= mx -> mx mod 8 = 0 -> 0 <= off -> off mod 8 = 0 -> zlen payload - off <= Z.of_nat fuel ->
  cut_from off (sub payload off (zlen payload - off)) (chunk_pieces fuel mx payload off).
Proof.
  intros Hmx H8. apply (chunk_pieces_ind mx payload Hmx H8 (fun _ off l => cut_from off (sub payload off (zlen payload - off)) l)).
  - intros _ o Ho. unfold sub. by rewrite Z2Nat.nonpos, take_0 by lia.
  - intros f o Ho Ho8 n e Hn Hpos He _ IH. cbn [cut_from]. split; [done|]. split; [done|]. split.
    { intros Hnil. rewrite Hnil in Hn. change (zlen []) with 0 in Hn. lia. }
    exists (sub payload (o + n) (zlen payload - (o + n))). split_and!.
    + subst e. cbn [fe_data]. rewrite <- sub_split by lia. f_equal. lia.
    + destruct He as (_ & _ & _ & _ & _ & Hm & _). rewrite Hm. unfold fend. rewrite Hn. change (fe_offset e) with o.
      destruct (Z.ltb_spec (o + n) (zlen payload)).
      * assert (zlen (sub payload (o + n) (zlen payload - (o + n))) = zlen payload - (o + n)) as Hz by (apply zlen_sub; lia).
        destruct (sub payload (o + n) _); [rewrite zlen_nil in Hz; lia|done].
      * unfold sub. by rewrite (Z2Nat.nonpos (zlen payload - (o + n))), take_0 by lia.
    + rewrite Hn. exact IH.
Qed.

Lemma zlen_wire src dst proto id ttl0 e : ip_wf src -> ip_wf dst -> zlen (wire src dst proto id ttl0 e) = 20 + zlen (fe_data e).
Proof. intros. unfold wire. by rewrite zlen_app, zlen_header_bytes. Qed.

(** C40: fragmenting is exact and terminates. For an MTU of at least 28 bytes
    and a payload of at most 65515, every fragment fits the MTU and parses,
    checksum included, with the addresses, protocol, identification and TTL
    given; the fragments' data, each at eight times its offset field and with
    the more-fragments flag on all but the last, are the payload cut in order.
    A smaller MTU yields no fragment. *)
Theorem fragment_payload_exact src dst proto id ttl0 mtu payload :
  ip_wf src -> ip_wf dst -> is_u8 proto -> is_u16 id -> is_u8 ttl0 -> zlen payload <= 65515 ->
  (mtu < 28 -> @fragment_payload Ipv4Error src dst proto id ttl0 payload mtu = Ok []) /\
  (28 <= mtu -> exists frags pieces,
    @fragment_payload Ipv4Error src dst proto id ttl0 payload mtu = Ok frags /\
    Forall2 (fun raw e => ipv4_parse raw true = Ok (wire_packet src dst proto id ttl0 e) /\ zlen raw <= mtu) frags pieces /\
    cut_from 0 payload pieces).
Proof.
  intros Hs Hd Hp Hi Ht Hl. split.
  - intros Hm. unfold fragment_payload. destruct (Z.leb_spec mtu IPV4_MIN_HEADER_LEN); [done|].
    rewrite Z.div_small; [done|]. ulia.
  - intros Hm. destruct (@fragment_payload_runs Ipv4Error src dst proto id ttl0 mtu payload Hs Hd Hm ltac:(ulia)) as (Hmx & H8 & Hrun).
    eexists _, _. split; [exact Hrun|]. split.
    + apply Forall2_fmap_l, Forall_Forall2_diag, Forall_forall. intros e He.
      assert (good_piece ((mtu - 20) / 8 * 8) payload 0 e) as Hg.
      { assert (Forall (good_piece ((mtu - 20) / 8 * 8) payload 0) (chunk_pieces (length payload) ((mtu - 20) / 8 * 8) payload 0)) as Hf
          by (apply chunk_pieces_good; [lia|done|lia|done|unfold zlen; lia]).
        rewrite Forall_forall in Hf. by apply Hf. }
      split; [eapply wire_parses; try done; ulia|]. rewrite zlen_wire by done. destruct Hg as (_ & _ & _ & ? & _). lia.
    + pose proof (chunk_pieces_cut ((mtu - 20) / 8 * 8) payload (length payload) 0) as Hc.
      rewrite Z.sub_0_r, sub_all in Hc by done. apply Hc; [lia|done|lia|done|unfold zlen; lia].
Qed.

Lemma fragment_payload_exact_witness :
  exists frags pieces,
    @fragment_payload Ipv4Error (Ip [192; 0; 2; 1]) (Ip [198; 51; 100; 1]) 17 0x1234 64 (zeros 20) 28 = Ok frags /\
    length frags = 3%nat /\ cut_from 0 (zeros 20) pieces.
Proof.
  destruct (fragment_payload_exact (Ip [192; 0; 2; 1]) (Ip [198; 51; 100; 1]) 17 0x1234 64 28 (zeros 20)) as [_ H];
    [by apply (bool_decide_eq_true_1 _)..|].
  destruct (H ltac:(lia)) as (frags & pieces & Hrun & _ & Hcut). exists frags, pieces. split; [done|]. split; [|done].
  vm_compute in Hrun. by simplify_eq.
Defined.

(** C27: fragmentation and reassembly are inverse over any network order. When
    the fragments of a non-empty payload reach the receiver in any order, each
    once, within one reassembly timeout of each other, in any reachable state of
    its buffer that holds nothing for that datagram, every fragment but the last
    to arrive yields nothing and the last yields exactly the payload, after
    which the buffer holds nothing for the datagram again. *)
Theorem fragments_reassemble `{HashOrder} src dst proto id ttl0 mtu payload frags (l : list (Z * bytes)) t r :
  ip_wf src -> ip_wf dst -> is_u8 proto -> is_u16 id -> is_u8 ttl0 -> 28 <= mtu -> 0 < zlen payload <= 65515 ->
  @fragment_payload Ipv4Error src dst proto id ttl0 payload mtu = Ok frags ->
  l.*2 ≡ₚ frags -> Forall (fun now => t <= now < t + REASSEMBLY_TIMEOUT) l.*1 ->
  reachable r -> buffers r !! fragment_key src dst proto id = None ->
  exists r', receive_all l r = (Ok (replicate (length l - 1) None ++ [Some payload]), r') /\
    buffers r' !! fragment_key src dst proto id = None.
Proof.
  intros Hs Hd Hp Hi Ht Hm Hl Hfr Hperm Htime Hr Hk. pose proof (reachable_inv r Hr) as Hinv.
  destruct (@fragment_payload_runs Ipv4Error src dst proto id ttl0 mtu payload Hs Hd Hm ltac:(ulia)) as (Hmx & H8 & Hrun).
  rewrite Hrun in Hfr. injection Hfr as <-. apply Permutation_map_inv in Hperm as (es & Hes & Hpe).
  assert (Forall (good_piece ((mtu - 20) / 8 * 8) payload 0) es) as Hg.
  { rewrite <- Hpe. apply chunk_pieces_good; [lia|done|lia|done|unfold zlen; lia]. }
  assert (length l = length es) as Hlen by (rewrite <- (length_fmap snd l); change (length l.*2 = length es); rewrite Hes; apply length_fmap).
  assert (length l.*1 = length es) as Hlen1 by (by rewrite length_fmap).
  destruct (pieces_reassemble src dst proto id ttl0 ((mtu - 20) / 8 * 8) payload Hs Hd Hp Hi Ht ltac:(lia) H8 ltac:(ulia)
    es l.*1 t r ltac:(by symmetry) Hlen1 Htime Hinv Hk) as (r' & Hdel & Hnone).
  exists r'. split; [|done]. rewrite Hlen. rewrite <- Hdel.
  by apply (receive_all_deliver src dst proto id ttl0 ((mtu - 20) / 8 * 8) payload Hs Hd Hp Hi Ht ltac:(lia) H8 ltac:(ulia)).
Qed.

Lemma fragments_reassemble_witness :
  exists frags r', @fragment_payload Ipv4Error (Ip [192; 0; 2; 1]) (Ip [198; 51; 100; 1]) 17 0x1234 64 (zeros 20) 28 = Ok frags /\
    @receive_all map_order ((fun raw => (0, raw)) <$> reverse frags) reassembly_new = (Ok [None; None; Some (zeros 20)], r').
Proof.
  destruct (@fragment_payload Ipv4Error (Ip [192; 0; 2; 1]) (Ip [198; 51; 100; 1]) 17 0x1234 64 (zeros 20) 28) as [frags|e|] eqn:Hf;
    [|vm_compute in Hf; done..].
  destruct (@fragments_reassemble map_order (Ip [192; 0; 2; 1]) (Ip [198; 51; 100; 1]) 17 0x1234 64 28 (zeros 20) frags
    ((fun raw => (0, raw)) <$> reverse frags) 0 reassembly_new) as (r' & Hr & _);
    [by apply (bool_decide_eq_true_1 _)..|done|done|exact Hf| | |apply reach_new|done|].
  - rewrite <- list_fmap_compose. change (snd ∘ _) with (@id bytes). rewrite list_fmap_id. apply reverse_Permutation.
  - vm_compute in Hf. injection Hf as <-. by apply (bool_decide_eq_true_1 _).
  - exists frags, r'. split; [done|]. vm_compute in Hf. injection Hf as <-. exact Hr.
Defined.
