(* ===== verification/TcpSegment.v ===== *)
(** * TCP segments ([tcp.rs], [TcpSegment])

    Flags, options with their kinds and lengths, the parser with its option
    loop, and the serializers. *)

From S2P Require Import Prelude Bytes NetBytes Checksum Ipv4.

Definition TCP_MIN_HEADER_LEN : Z := 20.
Definition TCP_MAX_OPTIONS_LEN : Z := 40.
Definition TCP_FLAG_FIN : Z := 0x01.
Definition TCP_FLAG_SYN : Z := 0x02.
Definition TCP_FLAG_RST : Z := 0x04.
Definition TCP_FLAG_PSH : Z := 0x08.
Definition TCP_FLAG_ACK : Z := 0x10.
Definition TCP_FLAG_URG : Z := 0x20.
Definition TCP_OPT_EOL : Z := 0.
Definition TCP_OPT_NOP : Z := 1.
Definition TCP_OPT_MSS : Z := 2.
Definition TCP_OPT_WSCALE : Z := 3.
Definition TCP_OPT_SACK_PERMITTED : Z := 4.
Definition TCP_OPT_SACK : Z := 5.
Definition TCP_OPT_TIMESTAMP : Z := 8.
#[export] Hint Unfold TCP_MIN_HEADER_LEN TCP_MAX_OPTIONS_LEN TCP_OPT_EOL TCP_OPT_NOP TCP_OPT_MSS TCP_OPT_WSCALE
  TCP_OPT_SACK_PERMITTED TCP_OPT_SACK TCP_OPT_TIMESTAMP : consts.

Inductive TcpOption : Type :=
| EndOfOptions
| Nop
| Mss (mss : Z)
| WindowScale (scale : Z)
| SackPermitted
| Sack (blocks : list (Z * Z))
| Timestamp (val ecr : Z)
| Unknown (kind : Z) (data : bytes).
#[global] Instance TcpOption_eq_dec : EqDecision TcpOption.
Proof. solve_decision. Defined.

Record TcpFlags : Type := { fin : bool; syn : bool; rst : bool; psh : bool; ack : bool; urg : bool }.
#[global] Instance TcpFlags_eq_dec : EqDecision TcpFlags.
Proof. solve_decision. Defined.

Definition flags_from_u8 (val : Z) : TcpFlags :=
  {| fin := negb (Z.land val TCP_FLAG_FIN =? 0); syn := negb (Z.land val TCP_FLAG_SYN =? 0);
     rst := negb (Z.land val TCP_FLAG_RST =? 0); psh := negb (Z.land val TCP_FLAG_PSH =? 0);
     ack := negb (Z.land val TCP_FLAG_ACK =? 0); urg := negb (Z.land val TCP_FLAG_URG =? 0) |}.

Definition flags_to_u8 (f : TcpFlags) : Z :=
  let val := 0 in
  let val := if fin f then Z.lor val TCP_FLAG_FIN else val in
  let val := if syn f then Z.lor val TCP_FLAG_SYN else val in
  let val := if rst f then Z.lor val TCP_FLAG_RST else val in
  let val := if psh f then Z.lor val TCP_FLAG_PSH else val in
  let val := if ack f then Z.lor val TCP_FLAG_ACK else val in
  if urg f then Z.lor val TCP_FLAG_URG else val.

Definition flags_default : TcpFlags := {| fin := false; syn := false; rst := false; psh := false; ack := false; urg := false |}.
Definition flags_syn_ack : TcpFlags := {| fin := false; syn := true; rst := false; psh := false; ack := true; urg := false |}.
Definition flags_ack : TcpFlags := {| fin := false; syn := false; rst := false; psh := false; ack := true; urg := false |}.
Definition flags_syn : TcpFlags := {| fin := false; syn := true; rst := false; psh := false; ack := false; urg := false |}.
Definition flags_fin_ack : TcpFlags := {| fin := true; syn := false; rst := false; psh := false; ack := true; urg := false |}.
Definition flags_rst : TcpFlags := {| fin := false; syn := false; rst := true; psh := false; ack := false; urg := false |}.

Record TcpSegment : Type := {
  src_port : Z;
  dst_port : Z;
  seq_num : Z;
  ack_num : Z;
  data_offset : Z;
  flags : TcpFlags;
  window_size : Z;
  tcp_checksum : Z;
  urgent_ptr : Z;
  options : list TcpOption;
  tcp_payload : bytes;
}.
#[global] Instance TcpSegment_eq_dec : EqDecision TcpSegment.
Proof. solve_decision. Defined.

Inductive TcpError : Type :=
| SegmentTooShort (len : Z)
| InvalidDataOffset (d : Z)
| DataOffsetExceedsLength (offset_bytes available : Z)
| TruncatedOption (offset kind : Z)
| InvalidOptionLength (offset kind length : Z)
| OptionLengthExceedsHeader (offset kind length remaining : Z)
| TcpInvalidChecksum (found : Z).
#[global] Instance TcpError_eq_dec : EqDecision TcpError.
Proof. solve_decision. Defined.

Inductive TcpSerializeError : Type :=
| OptionLengthTooLarge (kind length : Z)
| OptionsTooLong (length max : Z).
#[global] Instance TcpSerializeError_eq_dec : EqDecision TcpSerializeError.
Proof. solve_decision. Defined.

(** ** Parsing *)

(** One SACK block at [b_off]. *)
Definition parse_block (data : bytes) (b_off : Z) : outcome TcpError (Z * Z) :=
  let? l := read_be 4 data b_off in
  let? r := read_be 4 data (b_off + 4) in
  Ok (l, r).

(** The [match kind] of the option loop, for a kind other than 0 and 1 whose
    length [len] fits the header. *)
Definition parse_option (data : bytes) (opt_offset kind len : Z) : outcome TcpError TcpOption :=
  if kind =? TCP_OPT_MSS then
    if negb (len =? 4) then Err (InvalidOptionLength opt_offset kind len)
    else let? mss := read_be 2 data (opt_offset + 2) in Ok (Mss mss)
  else if kind =? TCP_OPT_WSCALE then
    if negb (len =? 3) then Err (InvalidOptionLength opt_offset kind len)
    else let? scale := index_at data (opt_offset + 2) in Ok (WindowScale scale)
  else if (kind =? TCP_OPT_SACK_PERMITTED) && (len =? 2) then Ok SackPermitted
  else if (kind =? TCP_OPT_SACK) && (10 <=? len) && ((len - 2) mod 8 =? 0) then
    let num_blocks := (len - 2) / 8 in
    let? blocks := ofold (fun blocks i =>
                            let? b := parse_block data (opt_offset + 2 + i * 8) in Ok (blocks ++ [b]))
                         [] (zrange 0 num_blocks) in
    Ok (Sack blocks)
  else if (kind =? TCP_OPT_TIMESTAMP) && (len =? 10) then
    let? val := read_be 4 data (opt_offset + 2) in
    let? ecr := read_be 4 data (opt_offset + 6) in
    Ok (Timestamp val ecr)
  else
    let? opt_data := slice data (opt_offset + 2) (opt_offset + len) in
    Ok (Unknown kind opt_data).

(** [while opt_offset < offset_bytes], at most [fuel] rounds: each advances. *)
Fixpoint parse_options (fuel : nat) (data : bytes) (offset_bytes opt_offset : Z) : outcome TcpError (list TcpOption) :=
  if negb (opt_offset <? offset_bytes) then Ok [] else
  match fuel with
  | O => Panic
  | S fuel' =>
      let? kind := index_at data opt_offset in
      if kind =? TCP_OPT_EOL then Ok [EndOfOptions]
      else if kind =? TCP_OPT_NOP then
        let? rest := parse_options fuel' data offset_bytes (opt_offset + 1) in Ok (Nop :: rest)
      else
        try? ensure (negb (offset_bytes <=? opt_offset + 1)) (TruncatedOption opt_offset kind) in
        let? len := index_at data (opt_offset + 1) in
        try? ensure (negb (len <? 2)) (InvalidOptionLength opt_offset kind len) in
        let remaining := offset_bytes - opt_offset in
        try? ensure (negb (remaining <? len)) (OptionLengthExceedsHeader opt_offset kind len remaining) in
        let? opt := parse_option data opt_offset kind len in
        let? rest := parse_options fuel' data offset_bytes (opt_offset + len) in
        Ok (opt :: rest)
  end.

(** The option area is at most 40 bytes. *)
Definition option_fuel : nat := 40.

Definition tcp_parse (src_ip dst_ip : Ipv4Address) (data : bytes) (check_checksum : bool) : outcome TcpError TcpSegment :=
  try? ensure (negb (zlen data <? TCP_MIN_HEADER_LEN)) (SegmentTooShort (zlen data)) in
  let? src_port := read_be 2 data 0 in
  let? dst_port := read_be 2 data 2 in
  let? seq_num := read_be 4 data 4 in
  let? ack_num := read_be 4 data 8 in
  let? off_byte := index_at data 12 in
  let data_offset := Z.shiftr off_byte 4 in
  try? ensure (negb (data_offset <? 5)) (InvalidDataOffset data_offset) in
  let offset_bytes := data_offset * 4 in
  try? ensure (negb (zlen data <? offset_bytes)) (DataOffsetExceedsLength offset_bytes (zlen data)) in
  let? flags_raw := index_at data 13 in
  let flags := flags_from_u8 flags_raw in
  let? window_size := read_be 2 data 14 in
  let? checksum := read_be 2 data 16 in
  let? urgent_ptr := read_be 2 data 18 in
  let? ok := (if check_checksum then verify_ipv4_transport_checksum (ip_octets src_ip) (ip_octets dst_ip) 6 data else Ok true) in
  try? ensure ok (TcpInvalidChecksum checksum) in
  let? options := parse_options option_fuel data offset_bytes TCP_MIN_HEADER_LEN in
  let? payload := slice_from data offset_bytes in
  Ok {| src_port := src_port; dst_port := dst_port; seq_num := seq_num; ack_num := ack_num;
        data_offset := data_offset; flags := flags; window_size := window_size; tcp_checksum := checksum;
        urgent_ptr := urgent_ptr; options := options; tcp_payload := payload |}.

(** ** Serializing *)

Definition encode_option (opt_bytes : bytes) (opt : TcpOption) : outcome TcpSerializeError bytes :=
  match opt with
  | EndOfOptions => Ok (opt_bytes ++ [TCP_OPT_EOL])
  | Nop => Ok (opt_bytes ++ [TCP_OPT_NOP])
  | Mss mss => Ok (opt_bytes ++ [TCP_OPT_MSS] ++ [4] ++ u16_be mss)
  | WindowScale scale => Ok (opt_bytes ++ [TCP_OPT_WSCALE] ++ [3] ++ [scale])
  | SackPermitted => Ok (opt_bytes ++ [TCP_OPT_SACK_PERMITTED] ++ [2])
  | Sack blocks =>
      let count := Z.min (zlen blocks) 4 in
      let len := 2 + count * 8 in
      let? shown := slice blocks 0 count in
      Ok (opt_bytes ++ [TCP_OPT_SACK] ++ [as_u8 len] ++ mjoin ((fun '(l, r) => u32_be l ++ u32_be r) <$> shown))
  | Timestamp val ecr => Ok (opt_bytes ++ [TCP_OPT_TIMESTAMP] ++ [10] ++ u32_be val ++ u32_be ecr)
  | Unknown kind data =>
      let option_len := default u64_max (checked_add (zlen data) 2) in
      try? ensure (negb (u8_max <? option_len)) (OptionLengthTooLarge kind option_len) in
      Ok (opt_bytes ++ [kind] ++ [as_u8 option_len] ++ data)
  end.

(** The body of [for opt in options]. *)
Definition push_option (opt_bytes : bytes) (opt : TcpOption) : outcome TcpSerializeError bytes :=
  let? opt_bytes := encode_option opt_bytes opt in
  try? ensure (negb (TCP_MAX_OPTIONS_LEN <? zlen opt_bytes)) (OptionsTooLong (zlen opt_bytes) TCP_MAX_OPTIONS_LEN) in
  Ok opt_bytes.

(** [while opt_bytes.len() % 4 != 0 { push(NOP) }]: three rounds are enough. *)
Fixpoint pad_options (fuel : nat) (opt_bytes : bytes) : bytes :=
  match fuel with
  | O => opt_bytes
  | S fuel' => if zlen opt_bytes mod 4 =? 0 then opt_bytes else pad_options fuel' (opt_bytes ++ [TCP_OPT_NOP])
  end.

Definition try_serialize_with_options (src_ip dst_ip : Ipv4Address) (src_port dst_port seq_num ack_num : Z)
    (flags : TcpFlags) (window_size : Z) (options : list TcpOption) (payload : bytes)
    : outcome TcpSerializeError bytes :=
  let? opt_bytes := ofold push_option [] options in
  let opt_bytes := pad_options 3 opt_bytes in
  try? ensure (negb (TCP_MAX_OPTIONS_LEN <? zlen opt_bytes)) (OptionsTooLong (zlen opt_bytes) TCP_MAX_OPTIONS_LEN) in
  let header_len := TCP_MIN_HEADER_LEN + zlen opt_bytes in
  let data_offset := as_u8 (header_len / 4) in
  let buf := u16_be src_port ++ u16_be dst_port ++ u32_be seq_num ++ u32_be ack_num
             ++ [Z.land (as_u8 (Z.shiftl data_offset 4)) 0xF0] ++ [flags_to_u8 flags]
             ++ u16_be window_size ++ [0x00; 0x00] ++ u16_be 0 ++ opt_bytes ++ payload in
  let? csum := compute_ipv4_transport_checksum (ip_octets src_ip) (ip_octets dst_ip) 6 buf in
  copy_range buf 16 18 (u16_be csum).

(** [.expect(..)] *)
Definition serialize_with_options {E} (src_ip dst_ip : Ipv4Address) (src_port dst_port seq_num ack_num : Z)
    (flags : TcpFlags) (window_size : Z) (options : list TcpOption) (payload : bytes) : outcome E bytes :=
  match try_serialize_with_options src_ip dst_ip src_port dst_port seq_num ack_num flags window_size options payload with
  | Ok buf => Ok buf
  | _ => Panic
  end.

Definition tcp_serialize {E} (src_ip dst_ip : Ipv4Address) (src_port dst_port seq_num ack_num : Z)
    (flags : TcpFlags) (window_size : Z) (payload : bytes) : outcome E bytes :=
  serialize_with_options src_ip dst_ip src_port dst_port seq_num ack_num flags window_size [] payload.

(** ** Flags *)

Lemma flags_from_to f : flags_from_u8 (flags_to_u8 f) = f.
Proof. by destruct f as [[] [] [] [] [] []]. Qed.

Lemma flags_to_u8_bound f : is_u8 (flags_to_u8 f).
Proof. by destruct f as [[] [] [] [] [] []]; vm_compute. Qed.

(** ** Reading behind a prefix *)

Lemma read_be_at {E} n (pre f post : bytes) a : a = zlen pre -> n = zlen f ->
  @read_be E n (pre ++ f ++ post) a = Ok (from_be_bytes f).
Proof.
  intros -> ->. pose proof (zlen_nonneg pre). pose proof (zlen_nonneg f). pose proof (zlen_nonneg post).
  rewrite read_be_Ok by (rewrite ?zlen_app; lia). rewrite sub_app_r by lia. by rewrite sub_at by lia.
Qed.

Lemma index_at_at {E} (pre : bytes) b post a : a = zlen pre -> @index_at E Z (pre ++ b :: post) a = Ok b.
Proof.
  intros ->. apply index_at_Ok; [apply zlen_nonneg|]. unfold zlen. rewrite Nat2Z.id. by apply list_lookup_middle.
Qed.

Lemma slice_at {E} (pre f post : bytes) a b : a = zlen pre -> b = a + zlen f ->
  @slice E Z (pre ++ f ++ post) a b = Ok f.
Proof.
  intros -> ->. pose proof (zlen_nonneg pre). pose proof (zlen_nonneg f). pose proof (zlen_nonneg post).
  rewrite slice_n with (n := zlen f) by (rewrite ?zlen_app; lia). rewrite sub_app_r by lia. by rewrite sub_at by lia.
Qed.

(** ** The wire form of an option *)

Definition block_bytes (b : Z * Z) : bytes := u32_be b.1 ++ u32_be b.2.

Definition option_bytes (o : TcpOption) : bytes :=
  match o with
  | EndOfOptions => [0]
  | Nop => [1]
  | Mss mss => [2; 4] ++ u16_be mss
  | WindowScale scale => [3; 3; scale]
  | SackPermitted => [4; 2]
  | Sack blocks => [5; 2 + 8 * zlen blocks] ++ mjoin (block_bytes <$> blocks)
  | Timestamp val ecr => [8; 10] ++ u32_be val ++ u32_be ecr
  | Unknown kind data => [kind; 2 + zlen data] ++ data
  end.

(** Options that mean what they say on the wire: every value in range, a SACK
    option of one to four blocks, and an unknown option whose kind and length
    are not those of a known one. *)
Definition canonical (o : TcpOption) : Prop :=
  match o with
  | EndOfOptions => False
  | Nop | SackPermitted => True
  | Mss mss => is_u16 mss
  | WindowScale scale => is_u8 scale
  | Sack blocks => 1 <= zlen blocks <= 4 /\ Forall (fun b => is_u32 b.1 /\ is_u32 b.2) blocks
  | Timestamp val ecr => is_u32 val /\ is_u32 ecr
  | Unknown kind data =>
      is_u8 kind /\ Forall is_byte data /\ zlen data <= 253 /\ kind <> 0 /\ kind <> 1 /\ kind <> 2 /\ kind <> 3 /\
      ~ (kind = 4 /\ zlen data = 0) /\ ~ (kind = 5 /\ 8 <= zlen data /\ zlen data mod 8 = 0) /\
      ~ (kind = 8 /\ zlen data = 8)
  end.

Lemma blocks_cons b blocks : mjoin (block_bytes <$> b :: blocks) = block_bytes b ++ mjoin (block_bytes <$> blocks).
Proof. done. Qed.

Lemma zlen_blocks blocks : zlen (mjoin (block_bytes <$> blocks)) = 8 * zlen blocks.
Proof.
  induction blocks as [|b blocks IH]; [done|]. rewrite blocks_cons.
  rewrite zlen_app, IH, zlen_cons. unfold block_bytes. rewrite zlen_app, !zlen_u32_be. lia.
Qed.

Lemma option_bytes_pos o : 0 < zlen (option_bytes o).
Proof.
  destruct o; cbn [option_bytes]; rewrite ?zlen_app, ?zlen_cons, ?zlen_nil;
    repeat match goal with |- context [zlen ?l] => lazymatch goal with H : 0 <= zlen l |- _ => fail | _ => pose proof (zlen_nonneg l) end end; lia.
Qed.

Lemma Forall_blocks blocks : Forall is_byte (mjoin (block_bytes <$> blocks)).
Proof.
  induction blocks as [|b blocks IH]; [constructor|]. rewrite blocks_cons.
  apply Forall_app_2; [|done]. apply Forall_app_2; auto with bytes.
Qed.

Lemma Forall_option_bytes o : canonical o -> Forall is_byte (option_bytes o).
Proof.
  destruct o; cbn [option_bytes canonical]; intros Hc; try done;
    rewrite ?Forall_app, ?Forall_cons, ?Forall_nil; split_and!; auto using Forall_blocks with bytes; try ulia.
  - pose proof (zlen_nonneg data). destruct Hc as (_ & _ & ? & _). ulia.
  - by destruct Hc as (_ & ? & _).
Qed.

(** Serializing appends the wire form. *)
Lemma encode_option_canonical acc o : canonical o -> encode_option acc o = Ok (acc ++ option_bytes o).
Proof.
  destruct o; cbn [canonical encode_option option_bytes]; intros Hc; try done.
  - destruct Hc as [Hl _]. rewrite Z.min_l by lia. rewrite slice_Ok by lia. ostep. rewrite Z.sub_0_r, sub_all by done.
    unfold as_u8. rewrite Z.mod_small by lia. replace (2 + zlen blocks * 8) with (2 + 8 * zlen blocks) by lia.
    do 2 f_equal. cbn [app]. do 3 f_equal. apply list_fmap_ext. by intros _ [l r] _.
  - destruct Hc as (_ & _ & Hl & _). pose proof (zlen_nonneg data). rewrite checked_add_le by ulia. cbn [from_option]. change (id ?x) with x.
    rewrite (proj2 (Z.ltb_ge _ _)) by ulia. ostep. unfold as_u8. rewrite Z.mod_small by lia.
    by rewrite (Z.add_comm (zlen data)).
Qed.

(** ** The parser reads back the wire form *)

Lemma parse_blocks_at pre blocks post :
  Forall (fun b => is_u32 b.1 /\ is_u32 b.2) blocks ->
  ofold (fun acc i => let? b := parse_block (pre ++ mjoin (block_bytes <$> blocks) ++ post) (zlen pre + i * 8) in Ok (acc ++ [b]))
        [] (zrange 0 (zlen blocks)) = Ok blocks.
Proof.
  intros Hb. set (data := pre ++ _ ++ post).
  assert (forall n, 0 <= n <= zlen blocks ->
    ofold (fun acc i => let? b := parse_block data (zlen pre + i * 8) in Ok (acc ++ [b])) [] (zrange 0 n)
    = Ok (take (Z.to_nat n) blocks)) as Hn.
  2:{ rewrite Hn by (pose proof (zlen_nonneg blocks); lia). unfold zlen. by rewrite Nat2Z.id, firstn_all. }
  intros n Hn. destruct Hn as [Hn0 Hn]. revert Hn. pattern n. apply natlike_ind; [done| |done].
  clear n Hn0. intros n Hn IH Hlt. rewrite <- Z.add_1_r, zrange_snoc by lia. rewrite ofold_app, IH by lia. cbn [ofold obind].
  destruct (lookup_lt_is_Some_2 blocks (Z.to_nat n)) as [[l r] Hl]; [unfold zlen in Hlt; lia|].
  destruct (Forall_lookup_1 _ _ _ _ Hb Hl) as [Hul Hur]. cbn [fst snd] in *.
  assert (exists p2 q2, data = p2 ++ u32_be l ++ u32_be r ++ q2 /\ zlen p2 = zlen pre + n * 8) as (p2 & q2 & Hd & Hz).
  { apply take_drop_middle in Hl. exists (pre ++ mjoin (block_bytes <$> take (Z.to_nat n) blocks)),
      (mjoin (block_bytes <$> drop (S (Z.to_nat n)) blocks) ++ post). split.
    - subst data. rewrite <- Hl at 1. rewrite fmap_app, fmap_cons, join_app.
      change (mjoin (block_bytes (l, r) :: ?x)) with (block_bytes (l, r) ++ mjoin x). unfold block_bytes at 2. cbn [fst snd].
      by rewrite <- !app_assoc.
    - rewrite zlen_app, zlen_blocks, zlen_take by lia. lia. }
  unfold parse_block. rewrite Hd. rewrite (read_be_at 4 p2 (u32_be l)) by (rewrite ?zlen_u32_be; lia). ostep.
  rewrite (app_assoc p2). rewrite (read_be_at 4 (p2 ++ u32_be l) (u32_be r)) by (rewrite ?zlen_app, ?zlen_u32_be; lia). ostep.
  rewrite !from_u32_be by done. f_equal. replace (Z.to_nat (n + 1)) with (S (Z.to_nat n)) by lia.
  by rewrite (take_S_r _ _ _ Hl).
Qed.

(** One round of the loop on an option's wire form. *)
Lemma parse_option_at pre o post : canonical o -> o <> Nop ->
  exists kind len body, option_bytes o = kind :: len :: body /\ kind <> 0 /\ kind <> 1 /\ len = 2 + zlen body /\
    parse_option (pre ++ option_bytes o ++ post) (zlen pre) kind len = Ok o.
Proof.
  intros Hc Hn. pose proof (zlen_nonneg pre).
  destruct o as [| |mss|scale| |blocks|val ecr|kind data]; try done; cbn [canonical option_bytes] in *.
  - exists 2, 4, (u16_be mss). split_and!; [done..|]. unfold parse_option. ostep. cbn [Z.eqb Pos.eqb TCP_OPT_MSS negb].
    rewrite <- (app_assoc [2; 4]), (app_assoc pre). rewrite (read_be_at 2 (pre ++ [2; 4])) by zside. ostep.
    by rewrite from_u16_be.
  - exists 3, 3, [scale]. split_and!; [done..|]. unfold parse_option. cbn [Z.eqb Pos.eqb TCP_OPT_MSS TCP_OPT_WSCALE negb].
    change (pre ++ [3; 3; scale] ++ post) with (pre ++ [3; 3] ++ scale :: post). rewrite (app_assoc pre).
    rewrite index_at_at by zside. done.
  - exists 4, 2, []. by split_and!.
  - destruct Hc as [Hl Hb]. exists 5, (2 + 8 * zlen blocks), (mjoin (block_bytes <$> blocks)).
    split_and!; [done..|by rewrite zlen_blocks|]. unfold parse_option.
    cbn [Z.eqb Pos.eqb TCP_OPT_MSS TCP_OPT_WSCALE TCP_OPT_SACK_PERMITTED TCP_OPT_SACK negb andb].
    rewrite (proj2 (Z.leb_le _ _)) by lia.
    replace (2 + 8 * zlen blocks - 2) with (zlen blocks * 8) by lia. rewrite Z.mod_mul, Z.div_mul by lia. cbn [Z.eqb andb].
    pose proof (parse_blocks_at (pre ++ [5; 2 + 8 * zlen blocks]) blocks post Hb) as Hp.
    rewrite <- !app_assoc in Hp. rewrite <- (app_assoc [5; 2 + 8 * zlen blocks]).
    rewrite zlen_app in Hp. change (zlen [5; 2 + 8 * zlen blocks]) with 2 in Hp. by rewrite Hp.
  - destruct Hc as [Hv He]. exists 8, 10, (u32_be val ++ u32_be ecr). split_and!; [done..|]. unfold parse_option.
    cbn [Z.eqb Pos.eqb TCP_OPT_MSS TCP_OPT_WSCALE TCP_OPT_SACK_PERMITTED TCP_OPT_SACK TCP_OPT_TIMESTAMP negb andb].
    rewrite <- !(app_assoc [8; 10]), (app_assoc pre), <- (app_assoc (u32_be val)).
    rewrite (read_be_at 4 (pre ++ [8; 10])) by zside. ostep.
    rewrite (app_assoc (pre ++ [8; 10])). rewrite (read_be_at 4 ((pre ++ [8; 10]) ++ u32_be val)) by zside. ostep.
    by rewrite !from_u32_be.
  - destruct Hc as (Hk & Hd & Hl & H0 & H1 & H2 & H3 & H4 & H5 & H8). pose proof (zlen_nonneg data).
    exists kind, (2 + zlen data), data. split_and!; [done..|]. unfold parse_option.
    rewrite (proj2 (Z.eqb_neq kind TCP_OPT_MSS)), (proj2 (Z.eqb_neq kind TCP_OPT_WSCALE)) by done.
    replace ((kind =? TCP_OPT_SACK_PERMITTED) && (2 + zlen data =? 2)) with false
      by (symmetry; apply not_true_is_false; rewrite andb_true_iff, !Z.eqb_eq; ulia).
    replace ((kind =? TCP_OPT_SACK) && (10 <=? 2 + zlen data) && ((2 + zlen data - 2) mod 8 =? 0)) with false.
    2:{ symmetry. apply not_true_is_false. rewrite !andb_true_iff, !Z.eqb_eq, Z.leb_le.
        replace (2 + zlen data - 2) with (zlen data) by lia. intros [[? ?] ?]. apply H5. ulia. }
    replace ((kind =? TCP_OPT_TIMESTAMP) && (2 + zlen data =? 10)) with false
      by (symmetry; apply not_true_is_false; rewrite andb_true_iff, !Z.eqb_eq; ulia).
    rewrite <- (app_assoc [kind; 2 + zlen data]), (app_assoc pre).
    rewrite slice_at by zside. done.
Qed.

Definition options_bytes (os : list TcpOption) : bytes := mjoin (option_bytes <$> os).

Lemma options_bytes_cons o os : options_bytes (o :: os) = option_bytes o ++ options_bytes os.
Proof. done. Qed.

(** The padding is read as no-operation options. *)
Lemma parse_padding pad : forall fuel pre post, (pad <= fuel)%nat ->
  parse_options fuel (pre ++ replicate pad 1 ++ post) (zlen pre + Z.of_nat pad) (zlen pre) = Ok (replicate pad Nop).
Proof.
  induction pad as [|pad IH]; intros fuel pre post Hf.
  - destruct fuel; cbn [parse_options]; rewrite (proj2 (Z.ltb_ge _ _)) by lia; done.
  - destruct fuel as [|fuel]; [lia|]. cbn [parse_options]. rewrite (proj2 (Z.ltb_lt _ _)) by lia. cbn [negb].
    change (replicate (S pad) 1 ++ post) with (1 :: replicate pad 1 ++ post).
    rewrite index_at_at by done. ostep. cbn [Z.eqb Pos.eqb TCP_OPT_EOL TCP_OPT_NOP].
    specialize (IH fuel (pre ++ [1]) post ltac:(lia)).
    rewrite <- app_assoc, zlen_app in IH. change (zlen [1]) with 1 in IH. cbn [app] in IH.
    replace (zlen pre + 1 + Z.of_nat pad) with (zlen pre + Z.of_nat (S pad)) in IH by lia. by rewrite IH.
Qed.

Lemma parse_options_at os : forall fuel pre pad post, Forall canonical os ->
  zlen (options_bytes os) + Z.of_nat pad <= Z.of_nat fuel ->
  parse_options fuel (pre ++ options_bytes os ++ replicate pad 1 ++ post)
    (zlen pre + zlen (options_bytes os) + Z.of_nat pad) (zlen pre) = Ok (os ++ replicate pad Nop).
Proof.
  induction os as [|o os IH]; intros fuel pre pad post Hc Hf.
  { change (options_bytes []) with ([] : bytes). rewrite app_nil_l, zlen_nil, Z.add_0_r. apply parse_padding.
    change (zlen (options_bytes [])) with 0 in Hf. lia. }
  apply Forall_cons in Hc as [Ho Hc]. rewrite options_bytes_cons in *. rewrite zlen_app in *.
  pose proof (option_bytes_pos o) as Hpos. pose proof (zlen_nonneg (options_bytes os)) as Hnn.
  destruct fuel as [|fuel]; [lia|]. cbn [parse_options]. rewrite (proj2 (Z.ltb_lt _ _)) by lia. cbn [negb].
  assert (parse_options fuel (pre ++ option_bytes o ++ options_bytes os ++ replicate pad 1 ++ post)
    (zlen pre + (zlen (option_bytes o) + zlen (options_bytes os)) + Z.of_nat pad) (zlen pre + zlen (option_bytes o))
    = Ok (os ++ replicate pad Nop)) as Hrest.
  { specialize (IH fuel (pre ++ option_bytes o) pad post Hc ltac:(lia)). rewrite zlen_app, <- app_assoc in IH.
    by rewrite <- IH, !Z.add_assoc. }
  rewrite <- (app_assoc (option_bytes o)). destruct (decide (o = Nop)) as [->|Hn].
  - cbn [option_bytes app] in *. change (zlen [1]) with 1 in *. rewrite index_at_at by done. ostep.
    cbn [Z.eqb Pos.eqb TCP_OPT_EOL TCP_OPT_NOP]. by rewrite Hrest.
  - destruct (parse_option_at pre o (options_bytes os ++ replicate pad 1 ++ post) Ho Hn)
      as (kind & len & body & Heq & H0 & H1 & Hlen & Hp).
    rewrite Heq in *. cbn [app] in *. rewrite !zlen_cons in *. pose proof (zlen_nonneg body).
    rewrite index_at_at by done. ostep.
    rewrite (proj2 (Z.eqb_neq kind TCP_OPT_EOL)), (proj2 (Z.eqb_neq kind TCP_OPT_NOP)) by done.
    rewrite (proj2 (Z.leb_gt _ _)) by lia. ostep.
    change (pre ++ kind :: len :: ?x) with (pre ++ [kind] ++ len :: x). rewrite (app_assoc pre [kind]).
    rewrite index_at_at by zside. ostep. rewrite <- (app_assoc pre [kind]). cbn [app].
    rewrite (proj2 (Z.ltb_ge len 2)), (proj2 (Z.ltb_ge _ len)) by lia. ostep. rewrite Hp. ostep.
    replace (zlen pre + len) with (zlen pre + (1 + (1 + zlen body))) by lia. by rewrite Hrest.
Qed.

(** ** Padding *)

Lemma pad_options_eq bs : exists pad, pad_options 3 bs = bs ++ replicate pad 1 /\ (pad <= 3)%nat /\
  (zlen bs + Z.of_nat pad) mod 4 = 0.
Proof.
  assert (forall fuel l, exists k, pad_options fuel l = l ++ replicate k 1 /\ (k <= fuel)%nat /\
    ((zlen l + Z.of_nat k) mod 4 = 0 \/ k = fuel /\ forall j, (j < k)%nat -> (zlen l + Z.of_nat j) mod 4 <> 0)) as H.
  { induction fuel as [|fuel IH]; intros l; cbn [pad_options].
    - exists O. rewrite app_nil_r. split_and!; [done|lia|]. right. split; [done|]. intros; lia.
    - destruct (Z.eqb_spec (zlen l mod 4) 0) as [Hz|Hz].
      + exists O. rewrite app_nil_r. split_and!; [done|lia|]. left. by rewrite Z.add_0_r.
      + destruct (IH (l ++ [TCP_OPT_NOP])) as (k & -> & Hk & Hd). exists (S k). rewrite <- app_assoc.
        rewrite zlen_app in Hd. change (zlen [TCP_OPT_NOP]) with 1 in Hd. split_and!; [done|lia|].
        destruct Hd as [Hd|[-> Hd]].
        * left. by replace (zlen l + Z.of_nat (S k)) with (zlen l + 1 + Z.of_nat k) by lia.
        * right. split; [done|]. intros [|j] Hj; [by rewrite Z.add_0_r|].
          replace (zlen l + Z.of_nat (S j)) with (zlen l + 1 + Z.of_nat j) by lia. apply Hd. lia. }
  destruct (H 3%nat bs) as (k & Hp & Hk & [Hd|[-> Hd]]); exists k || exists 3%nat; split_and!; try done.
  pose proof (Hd 0%nat ltac:(lia)). pose proof (Hd 1%nat ltac:(lia)). pose proof (Hd 2%nat ltac:(lia)).
  pose proof (Z.div_mod (zlen bs) 4 ltac:(lia)). pose proof (Z.mod_pos_bound (zlen bs) 4 ltac:(lia)).
  assert (zlen bs mod 4 = 1 \/ zlen bs mod 4 = 2 \/ zlen bs mod 4 = 3 \/ zlen bs mod 4 = 0) as Hcase by lia.
  rewrite Zplus_mod in *. destruct Hcase as [Hm|[Hm|[Hm|Hm]]]; rewrite Hm in *; vm_compute in *; done.
Qed.

Lemma push_options_canonical os : forall acc, Forall canonical os -> zlen acc + zlen (options_bytes os) <= 40 ->
  ofold push_option acc os = Ok (acc ++ options_bytes os).
Proof.
  induction os as [|o os IH]; intros acc Hc Hl; cbn [ofold]; [by rewrite app_nil_r|].
  apply Forall_cons in Hc as [Ho Hc]. rewrite options_bytes_cons, zlen_app in Hl. pose proof (zlen_nonneg (options_bytes os)).
  unfold push_option at 1. rewrite encode_option_canonical by done. ostep.
  rewrite (proj2 (Z.ltb_ge _ _)) by (rewrite zlen_app; ulia). ostep.
  rewrite IH; [by rewrite <- app_assoc|done|rewrite zlen_app; lia].
Qed.

(** ** Segments *)

(** A segment with its checksum field [c], whose option area is [area]. *)
Definition segment_bytes (sp dp seq ackn off fl wnd c : Z) (area payload : bytes) : bytes :=
  u16_be sp ++ u16_be dp ++ u32_be seq ++ u32_be ackn ++ [off; fl] ++ u16_be wnd ++ u16_be c ++ u16_be 0
  ++ area ++ payload.

Lemma zlen_segment_bytes sp dp seq ackn off fl wnd c area payload :
  zlen (segment_bytes sp dp seq ackn off fl wnd c area payload) = 20 + zlen area + zlen payload.
Proof. unfold segment_bytes. autorewrite with zlen. lia. Qed.

(** What the parser returns, as a function of the bytes. *)
Lemma tcp_parse_eq src dst data chk : 20 <= zlen data ->
  let off := byte_at data 12 / 16 in
  tcp_parse src dst data chk =
  try? ensure (negb (off <? 5)) (InvalidDataOffset off) in
  try? ensure (negb (zlen data <? off * 4)) (DataOffsetExceedsLength (off * 4) (zlen data)) in
  let? ok := (if chk then verify_ipv4_transport_checksum (ip_octets src) (ip_octets dst) 6 data else Ok true) in
  try? ensure ok (TcpInvalidChecksum (from_be_bytes (sub data 16 2))) in
  let? os := parse_options option_fuel data (off * 4) 20 in
  Ok {| src_port := from_be_bytes (sub data 0 2); dst_port := from_be_bytes (sub data 2 2);
        seq_num := from_be_bytes (sub data 4 4); ack_num := from_be_bytes (sub data 8 4); data_offset := off;
        flags := flags_from_u8 (byte_at data 13); window_size := from_be_bytes (sub data 14 2);
        tcp_checksum := from_be_bytes (sub data 16 2); urgent_ptr := from_be_bytes (sub data 18 2);
        options := os; tcp_payload := sub data (off * 4) (zlen data - off * 4) |}.
Proof.
  intros Hl off. unfold tcp_parse. rewrite (proj2 (Z.ltb_ge _ _)) by ulia. ostep. be_reads. rewrite nibble_high. fold off.
  destruct (Z.ltb_spec off 5); ostep; [done|]. destruct (Z.ltb_spec (zlen data) (off * 4)); ostep; [done|].
  be_reads. destruct (if chk then _ else _) as [ok|e|]; ostep; [|done..]. destruct ok; ostep; [|done].
  done.
Qed.

(** A segment whose option area parses to [os] parses to its fields. *)
Lemma segment_parses src dst sp dp seq ackn off fl wnd c area payload os :
  is_u16 sp -> is_u16 dp -> is_u32 seq -> is_u32 ackn -> is_u16 wnd -> is_u16 c ->
  off * 4 = 20 + zlen area -> 5 <= off ->
  let raw := segment_bytes sp dp seq ackn (off * 16) (flags_to_u8 fl) wnd c area payload in
  @verify_ipv4_transport_checksum TcpError (ip_octets src) (ip_octets dst) 6 raw = Ok true ->
  parse_options option_fuel raw (20 + zlen area) 20 = Ok os ->
  tcp_parse src dst raw true =
  Ok {| src_port := sp; dst_port := dp; seq_num := seq; ack_num := ackn; data_offset := off; flags := fl;
        window_size := wnd; tcp_checksum := c; urgent_ptr := 0; options := os; tcp_payload := payload |}.
Proof.
  intros Hsp Hdp Hseq Hack Hwnd Hc Hoff Ho5 raw Hv Hos. pose proof (zlen_nonneg payload). pose proof (zlen_nonneg area).
  assert (zlen raw = 20 + zlen area + zlen payload) as Hz by apply zlen_segment_bytes.
  rewrite tcp_parse_eq by lia. change (byte_at raw 12) with (off * 16). change (byte_at raw 13) with (flags_to_u8 fl).
  rewrite Z.div_mul, Hoff, Hv by lia. rewrite (proj2 (Z.ltb_ge off 5)), (proj2 (Z.ltb_ge (zlen raw) _)) by lia. ostep.
  rewrite Hos. ostep. rewrite flags_from_to. subst raw. do 2 f_equal.
  all: try (unfold segment_bytes; field_at; first [by apply from_u16_be|by apply from_u32_be]).
  rewrite Hz. unfold segment_bytes. rewrite !app_assoc. rewrite sub_app_r by zside.
  replace (20 + zlen area - zlen _) with 0 by zside. apply sub_all. lia.
Qed.

(** [(data_offset << 4) & 0xF0] *)
Lemma offset_byte off : 5 <= off <= 15 -> Z.land (as_u8 (Z.shiftl off 4)) 0xF0 = off * 16.
Proof.
  intros Ho. assert (off = 5 \/ off = 6 \/ off = 7 \/ off = 8 \/ off = 9 \/ off = 10 \/ off = 11 \/ off = 12 \/
    off = 13 \/ off = 14 \/ off = 15) as Hc by lia.
  repeat destruct Hc as [->|Hc]; [by vm_compute..|]. by subst.
Qed.

Lemma Forall_options_bytes os : Forall canonical os -> Forall is_byte (options_bytes os).
Proof.
  induction 1; [constructor|]. rewrite options_bytes_cons. apply Forall_app_2; [by apply Forall_option_bytes|done].
Qed.

(** What the serializer produces for canonical options. *)
Lemma serialize_canonical src dst sp dp seq ackn fl wnd os payload :
  ip_wf src -> ip_wf dst -> Forall canonical os -> zlen (options_bytes os) <= 40 ->
  Forall is_byte payload -> zlen payload <= 65535 ->
  exists c pad off, (pad <= 3)%nat /\ is_u16 c /\ 5 <= off <= 15 /\
    let area := options_bytes os ++ replicate pad 1 in
    let raw := segment_bytes sp dp seq ackn (off * 16) (flags_to_u8 fl) wnd c area payload in
    off * 4 = 20 + zlen area /\
    try_serialize_with_options src dst sp dp seq ackn fl wnd os payload = Ok raw /\
    @verify_ipv4_transport_checksum TcpError (ip_octets src) (ip_octets dst) 6 raw = Ok true.
Proof.
  intros [Bs Ls] [Bd Ld] Hos Hlen Hb Hl. pose proof (zlen_nonneg (options_bytes os)) as Hnn. pose proof (zlen_nonneg payload).
  unfold try_serialize_with_options. rewrite push_options_canonical by (done || (rewrite zlen_nil; lia)). ostep.
  destruct (pad_options_eq (options_bytes os)) as (pad & Hpad & Hp3 & Hp4). rewrite app_nil_l, Hpad.
  set (area := options_bytes os ++ replicate pad 1) in *.
  assert (zlen area = zlen (options_bytes os) + Z.of_nat pad) as Harea by (subst area; by rewrite zlen_app, zlen_replicate).
  pose proof (Z.div_mod (zlen area) 4 ltac:(lia)) as Hdiv. rewrite Harea, Hp4, <- Harea in Hdiv.
  set (off := (20 + zlen area) / 4). assert (off * 4 = 20 + zlen area) as Hoff.
  { subst off. replace (20 + zlen area) with ((5 + zlen area / 4) * 4) by lia. by rewrite Z.div_mul. }
  rewrite (proj2 (Z.ltb_ge _ _)) by ulia. ostep. change (TCP_MIN_HEADER_LEN + zlen area) with (20 + zlen area). fold off.
  change (as_u8 off) with (off mod 2 ^ 8). rewrite (Z.mod_small off), offset_byte by lia.
  set (pre := u16_be sp ++ u16_be dp ++ u32_be seq ++ u32_be ackn ++ [off * 16; flags_to_u8 fl] ++ u16_be wnd).
  set (post := u16_be 0 ++ area ++ payload).
  destruct (@verify_transport_filled (ip_octets src) (ip_octets dst) 6 Bs Bd Ls Ld ltac:(ulia) TcpSerializeError TcpError pre post)
    as (c & Hc & Hu & _ & Hv).
  { subst pre post area. rewrite !Forall_app, !Forall_cons, !Forall_nil. pose proof (flags_to_u8_bound fl).
    split_and!; auto using Forall_options_bytes with bytes; try ulia. apply Forall_replicate. ulia. }
  { subst pre post. unfold transport_capacity. zside. }
  { subst pre. by autorewrite with zlen. }
  assert (forall x, u16_be sp ++ u16_be dp ++ u32_be seq ++ u32_be ackn ++ [off * 16] ++ [flags_to_u8 fl] ++ u16_be wnd
    ++ x ++ u16_be 0 ++ area ++ payload = pre ++ x ++ post) as Hbuf by (intros x; subst pre post; by rewrite <- !app_assoc).
  rewrite <- (Hbuf (u16_be c)) in Hv. exists c, pad, off.
  split; [done|]. split; [done|]. split; [lia|]. split; [done|]. split; [|exact Hv].
  rewrite Hbuf, Hc. ostep. rewrite copy_range_Ok by (subst pre post; zside).
  rewrite put_mid by (subst pre; autorewrite with zlen; done). by rewrite <- Hbuf.
Qed.

(** What the serializer makes of canonical options parses back. *)
Lemma serialize_parses src dst sp dp seq ackn fl wnd os payload :
  ip_wf src -> ip_wf dst -> is_u16 sp -> is_u16 dp -> is_u32 seq -> is_u32 ackn -> is_u16 wnd ->
  Forall canonical os -> zlen (options_bytes os) <= 40 -> Forall is_byte payload -> zlen payload <= 65535 ->
  exists raw c pad off, try_serialize_with_options src dst sp dp seq ackn fl wnd os payload = Ok raw /\ (pad <= 3)%nat /\
    tcp_parse src dst raw true =
    Ok {| src_port := sp; dst_port := dp; seq_num := seq; ack_num := ackn; data_offset := off;
          flags := fl; window_size := wnd; tcp_checksum := c; urgent_ptr := 0;
          options := os ++ replicate pad Nop; tcp_payload := payload |}.
Proof.
  intros Hsrc Hdst Hsp Hdp Hseq Hack Hwnd Hos Hlen Hb Hl.
  destruct (serialize_canonical src dst sp dp seq ackn fl wnd os payload Hsrc Hdst Hos Hlen Hb Hl)
    as (c & pad & off & Hp3 & Hu & [Ho5 Ho15] & Hoff & Hser & Hv).
  eexists _, c, pad, off. split; [exact Hser|]. split; [done|].
  apply segment_parses; [done..|].
  set (pre := u16_be sp ++ u16_be dp ++ u32_be seq ++ u32_be ackn ++ [off * 16; flags_to_u8 fl] ++ u16_be wnd ++ u16_be c ++ u16_be 0).
  pose proof (parse_options_at os option_fuel pre pad payload Hos ltac:(change (Z.of_nat option_fuel) with 40; rewrite zlen_app, zlen_replicate in Hoff; lia)) as Hpo.
  assert (zlen pre = 20) as H20 by (subst pre; by autorewrite with zlen). rewrite H20 in Hpo.
  rewrite zlen_app, zlen_replicate, Z.add_assoc.
  assert (pre ++ options_bytes os ++ replicate pad 1 ++ payload =
    segment_bytes sp dp seq ackn (off * 16) (flags_to_u8 fl) wnd c (options_bytes os ++ replicate pad 1) payload) as Heq
    by (subst pre; unfold segment_bytes; by rewrite <- !app_assoc).
  rewrite Heq in Hpo. exact Hpo.
Qed.

(** C31: TCP segments survive the wire with their options. For canonical options
    of at most 40 bytes and a payload that fits an IPv4 datagram, serializing
    succeeds, and the parser, checksum included, recovers ports, numbers, flags,
    window, payload and every option in order, followed by the zero to three
    no-operation options that pad the header to a multiple of four. *)
Theorem tcp_roundtrip src dst sp dp seq ackn fl wnd os payload :
  ip_wf src -> ip_wf dst -> is_u16 sp -> is_u16 dp -> is_u32 seq -> is_u32 ackn -> is_u16 wnd ->
  Forall canonical os -> zlen (options_bytes os) <= 40 -> Forall is_byte payload -> zlen payload <= 65535 ->
  exists raw c pad off, try_serialize_with_options src dst sp dp seq ackn fl wnd os payload = Ok raw /\ (pad <= 3)%nat /\
    tcp_parse src dst raw true =
    Ok {| src_port := sp; dst_port := dp; seq_num := seq; ack_num := ackn; data_offset := off;
          flags := fl; window_size := wnd; tcp_checksum := c; urgent_ptr := 0;
          options := os ++ replicate pad Nop; tcp_payload := payload |}.
Proof. apply serialize_parses. Qed.

Lemma tcp_roundtrip_witness :
  exists raw c pad off,
    try_serialize_with_options (Ip [10; 0; 0; 1]) (Ip [10; 0; 0; 2]) 40000 80 1000 0 flags_syn 65535 [Mss 1460; SackPermitted] [] = Ok raw /\
    (pad <= 3)%nat /\ tcp_parse (Ip [10; 0; 0; 1]) (Ip [10; 0; 0; 2]) raw true =
    Ok {| src_port := 40000; dst_port := 80; seq_num := 1000; ack_num := 0; data_offset := off; flags := flags_syn;
          window_size := 65535; tcp_checksum := c; urgent_ptr := 0;
          options := [Mss 1460; SackPermitted] ++ replicate pad Nop; tcp_payload := [] |}.
Proof.
  apply (tcp_roundtrip (Ip [10; 0; 0; 1]) (Ip [10; 0; 0; 2]) 40000 80 1000 0 flags_syn 65535 [Mss 1460; SackPermitted] []);
    try by apply (bool_decide_eq_true_1 _).
  repeat constructor; by vm_compute.
Defined.

(** ** Parsing any input *)

Lemma parse_option_no_panic data off kind len :
  0 <= off -> 2 <= len -> off + len <= zlen data -> parse_option data off kind len <> Panic.
Proof.
  intros Ho Hl Hz. unfold parse_option.
  repeat case_match; bool_facts; try done;
    try (apply obind_no_panic; [first [apply read_be_no_panic|apply index_at_no_panic|apply slice_no_panic]; lia|intros; try done]).
  - apply obind_no_panic; [|done]. apply (owp_no_panic _ (fun _ => True) (fun _ => True)).
    apply (owp_fold_range _ (fun _ _ => True)); [pose proof (Z.div_pos (len - 2) 8); lia|done|].
    intros acc i Hi _. pose proof (Z.mul_div_le (len - 2) 8 ltac:(lia)).
    unfold parse_block. rewrite !read_be_Ok by lia. done.
  - apply obind_no_panic; [apply read_be_no_panic; lia|done].
Qed.

(** The option loop ends with every outcome but a panic, in at most one round
    per byte of the option area. *)
Lemma parse_options_no_panic fuel : forall data lim off,
  Forall is_byte data -> 0 <= off -> lim <= zlen data -> lim - off <= Z.of_nat fuel ->
  parse_options fuel data lim off <> Panic.
Proof.
  induction fuel as [|fuel IH]; intros data lim off Hb Ho Hlim Hf; cbn [parse_options].
  { rewrite (proj2 (Z.ltb_ge _ _)) by lia. done. }
  destruct (Z.ltb_spec off lim); cbn [negb]; [|done].
  rewrite index_at_byte by lia. ostep. case_match; [done|]. case_match.
  - apply obind_no_panic; [apply IH; (done || lia)|done].
  - destruct (Z.leb_spec lim (off + 1)); ostep; [done|]. rewrite index_at_byte by lia. ostep.
    destruct (Z.ltb_spec (byte_at data (off + 1)) 2); ostep; [done|].
    destruct (Z.ltb_spec (lim - off) (byte_at data (off + 1))); ostep; [done|].
    apply obind_no_panic; [apply parse_option_no_panic; lia|]. intros opt _.
    apply obind_no_panic; [apply IH; (done || lia)|done].
Qed.

(** C32: parsing a TCP segment from the network cannot panic or loop: for every
    byte string the parser returns a segment or an error, and a segment it
    returns has its header inside the buffer (20 to 60 bytes), a verified
    checksum when asked for, and as payload exactly the bytes behind it. *)
Theorem tcp_parse_safe src dst data chk :
  ip_wf src -> ip_wf dst -> Forall is_byte data ->
  match tcp_parse src dst data chk with
  | Ok s => 20 <= data_offset s * 4 <= 60 /\ data_offset s * 4 <= zlen data /\
      tcp_payload s = sub data (data_offset s * 4) (zlen data - data_offset s * 4) /\
      (chk = true -> @verify_ipv4_transport_checksum TcpError (ip_octets src) (ip_octets dst) 6 data = Ok true)
  | Err _ => True
  | Panic => False
  end.
Proof.
  intros [Bs Ls] [Bd Ld] Hb. destruct (decide (20 <= zlen data)) as [Hl|Hl].
  2:{ unfold tcp_parse. by rewrite (proj2 (Z.ltb_lt _ _)) by ulia. }
  rewrite tcp_parse_eq by done. set (off := byte_at data 12 / 16).
  assert (0 <= off <= 15) as Hoff.
  { pose proof (byte_at_bound data 12 Hb). subst off. split; [apply Z.div_pos; ulia|apply Z.lt_succ_r, Z.div_lt_upper_bound; ulia]. }
  destruct (Z.ltb_spec off 5); ostep; [done|]. destruct (Z.ltb_spec (zlen data) (off * 4)); ostep; [done|].
  assert (exists b, (if chk then verify_ipv4_transport_checksum (ip_octets src) (ip_octets dst) 6 data else Ok true) = @Ok TcpError bool b)
    as [b Hv].
  { destruct chk; [|by exists true]. unfold verify_ipv4_transport_checksum. rewrite pseudo_sum_Ok by done. by eexists. }
  rewrite Hv. ostep. destruct b; ostep; [|done].
  pose proof (parse_options_no_panic option_fuel data (off * 4) 20 Hb ltac:(lia) ltac:(lia)
    ltac:(change (Z.of_nat option_fuel) with 40; lia)) as Hp.
  destruct (parse_options option_fuel data (off * 4) 20) as [os|e|]; ostep; [|done..]. cbn [data_offset tcp_payload].
  split; [lia|]. split; [lia|]. split; [done|]. intros ->. exact Hv.
Qed.

Lemma tcp_parse_safe_witness :
  exists s, tcp_parse (Ip [1; 1; 1; 1]) (Ip [2; 2; 2; 2])
    [0; 1; 0; 2; 0; 0; 0; 3; 0; 0; 0; 4; 0x50; 2; 0; 5; 0; 0; 0; 0; 9] false = Ok s /\ 20 <= data_offset s * 4 <= 60.
Proof.
  pose proof (tcp_parse_safe (Ip [1; 1; 1; 1]) (Ip [2; 2; 2; 2])
    [0; 1; 0; 2; 0; 0; 0; 3; 0; 0; 0; 4; 0x50; 2; 0; 5; 0; 0; 0; 0; 9] false
    ltac:(by apply (bool_decide_eq_true_1 _)) ltac:(by apply (bool_decide_eq_true_1 _)) ltac:(by apply (bool_decide_eq_true_1 _))) as H.
  destruct (tcp_parse _ _ _ _) as [s|e|] eqn:Hp; [|by vm_compute in Hp..]. exists s. split; [done|]. apply H.
Defined.

(** ** Serializing any options *)

(** The serializer never panics, and without options it never fails. *)
Lemma encode_option_no_panic acc o : encode_option acc o <> Panic.
Proof.
  destruct o; cbn [encode_option]; try done.
  - pose proof (zlen_nonneg blocks). rewrite slice_Ok by lia. done.
  - destruct (u8_max <? _); done.
Qed.

Lemma try_serialize_no_panic src dst sp dp seq ackn fl wnd os payload :
  ip_wf src -> ip_wf dst -> try_serialize_with_options src dst sp dp seq ackn fl wnd os payload <> Panic.
Proof.
  intros [_ Ls] [_ Ld]. unfold try_serialize_with_options. apply obind_no_panic.
  { generalize (@nil Z) as acc. induction os as [|o os IH]; intros acc; cbn [ofold]; [done|].
    apply obind_no_panic; [|intros; apply IH]. unfold push_option. apply obind_no_panic; [apply encode_option_no_panic|].
    intros x _. destruct (_ <? _); done. }
  intros area _. set (a := pad_options 3 area). destruct (_ <? zlen a); ostep; [done|].
  unfold compute_ipv4_transport_checksum, pseudo_sum. rewrite !read_be_Ok by lia. ostep.
  apply copy_range_no_panic; [lia|by rewrite zlen_u16_be|].
  pose proof (zlen_nonneg a). pose proof (zlen_nonneg payload). zside.
Qed.
