(* ===== verification/Float64.v ===== *)
(** * IEEE 754 binary64 ([f64])

    The operations [congestion.rs] and [tcp.rs] use on [f64], on the Standard
    Library's specification of binary floating point at 53 bits of precision:
    arithmetic, comparisons, [max], [min], [clamp], and the casts from and to
    unsigned integers. *)

From Stdlib Require Export Floats.SpecFloat.
From S2P Require Import Prelude Bytes NetBytes.

Abbreviation f64 := spec_float.
Definition f64_prec : Z := 53.
Definition f64_emax : Z := 1024.

Definition f64_add : f64 -> f64 -> f64 := SFadd f64_prec f64_emax.
Definition f64_sub : f64 -> f64 -> f64 := SFsub f64_prec f64_emax.
Definition f64_mul : f64 -> f64 -> f64 := SFmul f64_prec f64_emax.
Definition f64_div : f64 -> f64 -> f64 := SFdiv f64_prec f64_emax.
Definition f64_abs : f64 -> f64 := SFabs.
Definition f64_lt (x y : f64) : bool := SFltb x y.
Definition f64_le (x y : f64) : bool := SFleb x y.
Definition f64_is_nan (x : f64) : bool := match x with S754_nan => true | _ => false end.

(** [x as f64] for an unsigned integer, rounded to nearest, ties to even. *)
Definition f64_of (x : Z) : f64 := binary_normalize f64_prec f64_emax x 0 false.
(** A literal [m * 2^e]. *)
Definition f64_lit (m e : Z) : f64 := binary_normalize f64_prec f64_emax m e false.

(** [x as u64]: truncated towards zero, saturating, with NaN as 0. *)
Definition f64_as_u64 (x : f64) : Z :=
  match x with
  | S754_finite false m e =>
      Z.min (if 0 <=? e then Z.shiftl (Z.pos m) e else Z.shiftr (Z.pos m) (- e)) u64_max
  | S754_infinity false => u64_max
  | _ => 0
  end.

(** [x.max(y)] and [x.min(y)]: a NaN argument is ignored. *)
Definition f64_max (x y : f64) : f64 :=
  if f64_is_nan x then y else if f64_is_nan y then x else if f64_lt x y then y else x.
Definition f64_min (x y : f64) : f64 :=
  if f64_is_nan x then y else if f64_is_nan y then x else if f64_lt y x then y else x.

(** [x.clamp(lo, hi)] asserts [lo <= hi]. *)
Definition f64_clamp {E} (x lo hi : f64) : outcome E f64 :=
  if f64_le lo hi then
    let x := if f64_lt x lo then lo else x in
    let x := if f64_lt hi x then hi else x in
    Ok x
  else Panic.

(** ** Order *)

Lemma compare_refl x : f64_is_nan x = false -> SFcompare x x = Some Eq.
Proof.
  destruct x as [[]|[]| |[] m e]; try done; intros _; simpl; rewrite Z.compare_refl; simpl;
    change (Pos.compare_cont Eq m m) with (m ?= m)%positive; by rewrite Pos.compare_refl.
Qed.

Lemma f64_le_refl x : f64_is_nan x = false -> f64_le x x = true.
Proof. intros. unfold f64_le, SFleb. by rewrite compare_refl. Qed.

(** The order is total on numbers. *)
Lemma f64_le_not_lt x y : f64_is_nan x = false -> f64_is_nan y = false -> f64_lt x y = false -> f64_le y x = true.
Proof.
  unfold f64_lt, f64_le, SFltb, SFleb.
  destruct x as [[]|[]| |[] m e], y as [[]|[]| |[] m' e']; try done; simpl; intros _ _;
    rewrite (Z.compare_antisym e e'); destruct (e ?= e')%Z; simpl; try done;
    change (Pos.compare_cont Eq m m') with (m ?= m')%positive;
    change (Pos.compare_cont Eq m' m) with (m' ?= m)%positive;
    rewrite (Pos.compare_antisym m m'); by destruct (m ?= m')%positive.
Qed.

Lemma f64_lt_le x y : f64_lt x y = true -> f64_le x y = true.
Proof. unfold f64_lt, f64_le, SFltb, SFleb. by destruct (SFcompare x y) as [[]|]. Qed.

(** ** Numbers that are not negative *)

Definition nonneg (x : f64) : Prop :=
  match x with S754_zero _ => True | S754_infinity s => s = false | S754_nan => False | S754_finite s _ _ => s = false end.
Definition finite (x : f64) : Prop := match x with S754_zero _ | S754_finite _ _ _ => True | _ => False end.

Lemma nonneg_number x : nonneg x -> f64_is_nan x = false.
Proof. by destruct x. Qed.

(** *** Rounding keeps the sign and never produces a NaN. *)

Definition has_sign (s : bool) (x : f64) : Prop :=
  match x with S754_zero s' | S754_infinity s' | S754_finite s' _ _ => s' = s | S754_nan => False end.

Lemma has_sign_nonneg x : has_sign false x -> nonneg x.
Proof. by destruct x. Qed.
Lemma has_sign_number s x : has_sign s x -> f64_is_nan x = false.
Proof. by destruct x. Qed.

Lemma iter_pos_keeps {A} (f : A -> A) (P : A -> Prop) n x :
  (forall y, P y -> P (f y)) -> P x -> P (@SpecFloat.iter_pos A f n x).
Proof. intros Hf. revert x. induction n as [n IH|n IH|]; simpl; auto. Qed.

Lemma shr_1_nonneg r : 0 <= shr_m r -> 0 <= shr_m (shr_1 r).
Proof. destruct r as [[|[p|p|]|p] [] []]; simpl; lia. Qed.

Lemma shr_fexp_nonneg m e l : 0 <= m -> 0 <= shr_m (shr_fexp f64_prec f64_emax m e l).1.
Proof.
  intros Hm. unfold shr_fexp, shr. destruct (_ - e).
  all: simpl; try (destruct l as [|[]]; simpl; lia).
  apply (iter_pos_keeps _ (fun r => 0 <= shr_m r)); [apply shr_1_nonneg|]. destruct l as [|[]]; simpl; lia.
Qed.

Lemma round_nearest_nonneg m l : 0 <= m -> 0 <= round_nearest_even m l.
Proof. unfold round_nearest_even. destruct l as [|[]]; try destruct (Z.even m); lia. Qed.

Lemma round_aux_sign s m e l : 0 <= m -> has_sign s (binary_round_aux f64_prec f64_emax s m e l).
Proof.
  intros Hm. unfold binary_round_aux. pose proof (shr_fexp_nonneg m e l Hm) as H1.
  destruct (shr_fexp _ _ m e l) as [r e']. simpl in H1.
  pose proof (shr_fexp_nonneg _ e' loc_Exact (round_nearest_nonneg _ (loc_of_shr_record r) H1)) as H2.
  destruct (shr_fexp _ _ _ e' _) as [r' e'']. simpl in H2.
  destruct (shr_m r'); [done| |lia]. by destruct (_ <=? _).
Qed.

Lemma round_sign s m e : has_sign s (binary_round f64_prec f64_emax s m e).
Proof. unfold binary_round. destruct (shl_align _ _ _). apply round_aux_sign. lia. Qed.

Lemma normalize_nonneg m e : 0 <= m -> nonneg (binary_normalize f64_prec f64_emax m e false).
Proof. intros. apply has_sign_nonneg. destruct m; [done|apply round_sign|lia]. Qed.

Lemma normalize_number m e : f64_is_nan (binary_normalize f64_prec f64_emax m e false) = false.
Proof. destruct m; [done|eapply has_sign_number, round_sign..]. Qed.

(** *** Arithmetic on numbers that are not negative *)

Lemma f64_of_nonneg x : 0 <= x -> nonneg (f64_of x).
Proof. apply normalize_nonneg. Qed.

Lemma f64_add_nonneg x y : nonneg x -> nonneg y -> nonneg (f64_add x y).
Proof.
  destruct x as [[]|[]| |[] m e], y as [[]|[]| |[] m' e']; try done; intros _ _.
  apply normalize_nonneg. simpl. lia.
Qed.

Lemma f64_mul_nonneg m e x : nonneg x -> nonneg (f64_mul (S754_finite false m e) x).
Proof.
  destruct x as [[]|[]| |[] m' e']; try done; intros _.
  apply has_sign_nonneg, round_aux_sign. lia.
Qed.

(** [(x - y).abs()] for a finite [y] *)
Lemma f64_distance_nonneg x y : nonneg x -> finite y -> nonneg (f64_abs (f64_sub x y)).
Proof.
  intros Hx Hy. enough (f64_is_nan (f64_sub x y) = false) as Hn.
  { by destruct (f64_sub x y). }
  destruct x as [[]|[]| |[] m e], y as [[]|[]| |[] m' e']; try done; apply normalize_number.
Qed.

Lemma div_core_nonneg m1 e1 m2 e2 : 0 <= (SFdiv_core_binary f64_prec f64_emax (Z.pos m1) e1 (Z.pos m2) e2).1.1.
Proof.
  unfold SFdiv_core_binary. simpl.
  match goal with |- context [Z.div_eucl ?a ?b] => pose proof (Z_div_mod a b ltac:(lia)) as Hdm; assert (0 <= a) as Ha end.
  { destruct (_ - Z.min _ _); [lia| |lia]. apply Z.shiftl_nonneg. lia. }
  destruct (Z.div_eucl _ _) as [q r]. simpl. nia.
Qed.

Lemma f64_div_nonneg x m e : nonneg x -> nonneg (f64_div x (S754_finite false m e)).
Proof.
  destruct x as [[]|[]| |[] m' e']; try done; intros _.
  apply has_sign_nonneg. unfold f64_div. cbn [SFdiv].
  pose proof (div_core_nonneg m' e' m e) as H. destruct (SFdiv_core_binary _ _ _ _ _ _) as [[q z] l].
  apply round_aux_sign. done.
Qed.

(** ** Clamping *)

Lemma f64_clamp_range {E} x lo hi : f64_is_nan x = false -> f64_is_nan lo = false -> f64_is_nan hi = false ->
  f64_le lo hi = true ->
  exists y, @f64_clamp E x lo hi = Ok y /\ f64_le lo y = true /\ f64_le y hi = true.
Proof.
  intros Hx Hlo Hhi Hle. unfold f64_clamp. rewrite Hle. eexists. split; [done|].
  destruct (f64_lt x lo) eqn:H1.
  - destruct (f64_lt hi lo) eqn:H2; (split; [|by auto using f64_le_refl]); [done|by apply f64_le_refl].
  - destruct (f64_lt hi x) eqn:H2; (split; [|by auto using f64_le_refl, f64_le_not_lt]); [done|by apply f64_le_not_lt].
Qed.

Lemma f64_min_le x hi : f64_is_nan x = false -> f64_is_nan hi = false -> f64_le (f64_min x hi) hi = true.
Proof.
  intros Hx Hhi. unfold f64_min. rewrite Hx, Hhi. destruct (f64_lt hi x) eqn:H; [by apply f64_le_refl|by apply f64_le_not_lt].
Qed.

(** ** Canonical form
    Every result of an operation has a mantissa of 53 bits, or fewer at the
    smallest exponent; the order of such numbers is that of their values. *)

Definition f64_emin : Z := -1074.
Definition normal (m : positive) (e : Z) : Prop :=
  Z.pos m < 2 ^ 53 /\ f64_emin <= e /\ (2 ^ 52 <= Z.pos m \/ e = f64_emin).
Definition valid (x : f64) : Prop := match x with S754_finite _ m e => normal m e | _ => True end.

Abbreviation fexp64 := (fexp f64_prec f64_emax).
Lemma fexp_eq k : fexp64 k = Z.max (k - 53) f64_emin. Proof. done. Qed.

Lemma digits_bound m : 2 ^ (Z.pos (digits2_pos m) - 1) <= Z.pos m < 2 ^ Z.pos (digits2_pos m).
Proof.
  induction m as [m IH|m IH|]; simpl digits2_pos; [| |simpl; lia];
    rewrite Pos2Z.inj_succ; replace (Z.succ (Z.pos (digits2_pos m)) - 1) with (Z.succ (Z.pos (digits2_pos m) - 1)) by lia;
    rewrite !Z.pow_succ_r by lia; lia.
Qed.

Lemma digits_le m k : 0 <= k -> Z.pos m < 2 ^ k -> Z.pos (digits2_pos m) <= k.
Proof.
  intros Hk Hm. destruct (digits_bound m) as [Hl _].
  destruct (Z.le_gt_cases (Z.pos (digits2_pos m)) k); [done|].
  pose proof (Z.pow_le_mono_r 2 k (Z.pos (digits2_pos m) - 1) ltac:(lia) ltac:(lia)). lia.
Qed.

Lemma digits_ge m k : 0 <= k -> 2 ^ k <= Z.pos m -> k + 1 <= Z.pos (digits2_pos m).
Proof.
  intros Hk Hm. destruct (digits_bound m) as [_ Hu].
  destruct (Z.le_gt_cases (k + 1) (Z.pos (digits2_pos m))); [done|].
  pose proof (Z.pow_le_mono_r 2 (Z.pos (digits2_pos m)) k ltac:(lia) ltac:(lia)). lia.
Qed.

Lemma shr_1_half r : 0 <= shr_m r -> shr_m (shr_1 r) = shr_m r / 2.
Proof.
  destruct r as [[|[p|p|]|p] r s]; simpl; try done; intros _.
  - change (Z.pos p~1) with (2 * Z.pos p + 1). rewrite Z.mul_comm, Z.div_add_l by lia. change (1 / 2) with 0. lia.
  - change (Z.pos p~0) with (2 * Z.pos p). by rewrite Z.mul_comm, Z.div_mul by lia.
Qed.

Lemma shr_iter n r : 0 <= shr_m r -> shr_m (SpecFloat.iter_pos shr_1 n r) = shr_m r / 2 ^ Z.pos n.
Proof.
  assert (forall k r, 0 <= shr_m r -> 0 <= shr_m (SpecFloat.iter_pos shr_1 k r)) as Hpos.
  { intros k r' Hr. apply (iter_pos_keeps _ (fun r => 0 <= shr_m r)); [apply shr_1_nonneg|done]. }
  revert r. induction n as [n IH|n IH|]; intros r Hr; cbn [SpecFloat.iter_pos].
  - rewrite !IH by auto using shr_1_nonneg. rewrite shr_1_half by done. rewrite !Z.div_div by lia.
    f_equal. replace (Z.pos n~1) with (1 + Z.pos n + Z.pos n) by lia. rewrite !Z.pow_add_r by lia. lia.
  - rewrite !IH by auto. rewrite !Z.div_div by lia.
    f_equal. replace (Z.pos n~0) with (Z.pos n + Z.pos n) by lia. by rewrite !Z.pow_add_r by lia.
  - by apply shr_1_half.
Qed.

Lemma shr_fexp_spec m e l : 0 <= m -> let '(r, e') := shr_fexp f64_prec f64_emax m e l in
  e' = Z.max e (fexp64 (Zdigits2 m + e)) /\ shr_m r = m / 2 ^ (e' - e).
Proof.
  intros Hm. unfold shr_fexp, shr. set (k := fexp64 (Zdigits2 m + e)).
  assert (shr_m (shr_record_of_loc m l) = m) as Hl by (by destruct l as [|[]]).
  destruct (k - e) as [|n|n] eqn:Hk.
  - split; [lia|]. rewrite Z.sub_diag. by rewrite Z.div_1_r.
  - split; [lia|]. rewrite shr_iter by lia. rewrite Hl. do 2 f_equal. lia.
  - split; [lia|]. rewrite Z.sub_diag. by rewrite Z.div_1_r.
Qed.

Lemma div_pow2_lt a n k : 0 <= n -> 0 <= k -> a < 2 ^ (n + k) -> a / 2 ^ n < 2 ^ k.
Proof. intros. apply Z.div_lt_upper_bound; [lia|]. by rewrite <- Z.pow_add_r. Qed.

Lemma div_pow2_le a n k : 0 <= n -> 0 <= k -> 2 ^ (n + k) <= a -> 2 ^ k <= a / 2 ^ n.
Proof. intros. apply Z.div_le_lower_bound; [lia|]. by rewrite <- Z.pow_add_r. Qed.

Lemma round_nearest_range m l : m <= round_nearest_even m l <= m + 1.
Proof. unfold round_nearest_even. destruct l as [|[]]; try destruct (Z.even m); lia. Qed.

(** The first shift leaves at most 53 bits. *)
Lemma shift_normal m e : e <= fexp64 (Z.pos (digits2_pos m) + e) ->
  let e1 := fexp64 (Z.pos (digits2_pos m) + e) in
  let m1 := Z.pos m / 2 ^ (e1 - e) in
  0 <= m1 < 2 ^ 53 /\ (2 ^ 52 <= m1 \/ e1 = f64_emin).
Proof.
  intros He. simpl. rewrite fexp_eq in *. destruct (digits_bound m) as [Hl Hu].
  set (d := Z.pos (digits2_pos m)) in *. assert (0 < d) by (unfold d; lia).
  split; [split|].
  - apply Z.div_pos; lia.
  - apply div_pow2_lt; [lia..|]. eapply Z.lt_le_trans; [exact Hu|]. apply Z.pow_le_mono_r; unfold f64_emin in *; lia.
  - destruct (Z.le_gt_cases (d + e - 53) f64_emin); [right; lia|left].
    apply div_pow2_le; [lia..|]. eapply Z.le_trans; [|exact Hl]. apply Z.pow_le_mono_r; lia.
Qed.

(** The second shift, after rounding up may have carried into a 54th bit. *)
Lemma carry_normal m e : 0 <= m <= 2 ^ 53 -> f64_emin <= e -> (2 ^ 52 <= m \/ e = f64_emin) ->
  let '(r, e') := shr_fexp f64_prec f64_emax m e loc_Exact in
  e <= e' <= e + 1 /\ match shr_m r with Z0 => m = 0 | Z.pos p => normal p e' | Z.neg _ => False end.
Proof.
  intros Hm He Hn. pose proof (shr_fexp_spec m e loc_Exact ltac:(lia)) as Hs.
  destruct (shr_fexp _ _ m e loc_Exact) as [r e']. rewrite fexp_eq in Hs. destruct Hs as [He' Hr]. rewrite Hr.
  destruct m as [|p|p]; [|destruct (decide (Z.pos p = 2 ^ 53)) as [Hp|Hp]|lia].
  - rewrite Zdiv_0_l. simpl in He'. split; [lia|done].
  - injection Hp as ->. change (Zdigits2 _) with 54 in He'. replace (e' - e) with 1 by lia.
    split; [lia|]. change (_ / _) with (2 ^ 52). simpl. unfold normal. split; [done|]. split; [lia|]. by left.
  - pose proof (digits_le p 53 ltac:(lia) ltac:(lia)). simpl in He'. replace (e' - e) with 0 by lia.
    rewrite Z.div_1_r. split; [lia|]. unfold normal. replace e' with e by lia. split; [lia|]. by split.
Qed.

Lemma round_aux_valid s m e l : e <= fexp64 (Z.pos (digits2_pos m) + e) ->
  let e1 := fexp64 (Z.pos (digits2_pos m) + e) in
  let x := binary_round_aux f64_prec f64_emax s (Z.pos m) e l in
  valid x /\ (e1 < 971 -> finite x) /\
  (f64_emin < e1 < 971 -> exists p e2, x = S754_finite s p e2 /\ e1 <= e2).
Proof.
  intros He. cbn zeta. unfold binary_round_aux. pose proof (shift_normal m e He) as [Hm1 Hn1].
  pose proof (shr_fexp_spec (Z.pos m) e l ltac:(lia)) as Hs.
  destruct (shr_fexp _ _ (Z.pos m) e l) as [r e1]. cbn [Zdigits2] in Hs. destruct Hs as [He1 Hr].
  rewrite Z.max_r in He1 by done. rewrite <- He1 in Hm1, Hn1, He |- *. rewrite <- Hr in Hm1, Hn1.
  pose proof (round_nearest_range (shr_m r) (loc_of_shr_record r)).
  assert (f64_emin <= e1) by (rewrite He1, fexp_eq; lia).
  pose proof (carry_normal (round_nearest_even (shr_m r) (loc_of_shr_record r)) e1 ltac:(lia) ltac:(lia) ltac:(lia)) as Hc.
  destruct (shr_fexp _ _ _ e1 loc_Exact) as [r' e2]. destruct Hc as [He2 Hc].
  destruct (shr_m r') as [|p|p]; [|change (f64_emax - f64_prec) with 971|done].
  - split_and!; [done..|]. lia.
  - destruct (e2 <=? 971) eqn:Hle; bool_facts; split_and!; try done; [|lia..].
    intros _. exists p, e2. split; [done|lia].
Qed.

(** A quotient below the smallest exponent rounds to zero or to its unit. *)
Lemma round_aux_tiny s e l : e <= f64_emin -> valid (binary_round_aux f64_prec f64_emax s 0 e l).
Proof.
  intros He. unfold binary_round_aux. pose proof (shr_fexp_spec 0 e l ltac:(lia)) as Hs.
  destruct (shr_fexp _ _ 0 e l) as [r e1]. rewrite fexp_eq in Hs. destruct Hs as [He1 Hr]. rewrite Zdiv_0_l in Hr.
  simpl in He1. pose proof (round_nearest_range (shr_m r) (loc_of_shr_record r)).
  pose proof (carry_normal (round_nearest_even (shr_m r) (loc_of_shr_record r)) e1 ltac:(lia) ltac:(lia) ltac:(lia)) as Hc.
  destruct (shr_fexp _ _ _ e1 loc_Exact) as [r' e2]. destruct Hc as [He2 Hc].
  destruct (shr_m r') as [|p|p]; [done| |done]. by destruct (e2 <=? _).
Qed.

Lemma shl_align_spec m e e' : let '(m', ez) := shl_align m e e' in
  ez = Z.min e e' /\ Z.pos m' = Z.pos m * 2 ^ (e - ez).
Proof.
  unfold shl_align. destruct (e' - e) as [|d|d] eqn:Hd.
  - split; [lia|]. rewrite Z.sub_diag. lia.
  - split; [lia|]. rewrite Z.sub_diag. lia.
  - split; [lia|]. replace (e - e') with (Z.pos d) by lia.
    clear. revert m. induction d as [|d IH] using Pos.peano_ind; intros m; [cbn [Pos.iter]; change (2 ^ 1) with 2; lia|].
    rewrite Pos.iter_succ, Pos2Z.inj_succ, Z.pow_succ_r by lia.
    specialize (IH m). rewrite Pos2Z.inj_xO, IH. lia.
Qed.

Lemma digits_shift m m' k : 0 <= k -> Z.pos m' = Z.pos m * 2 ^ k ->
  Z.pos (digits2_pos m') = Z.pos (digits2_pos m) + k.
Proof.
  intros Hk Hm. destruct (digits_bound m) as [Hl Hu].
  apply Z.le_antisymm.
  - apply digits_le; [lia|]. rewrite Z.pow_add_r, Hm by lia. apply Z.mul_lt_mono_pos_r; lia.
  - enough (Z.pos (digits2_pos m) - 1 + k + 1 <= Z.pos (digits2_pos m')) by lia.
    apply digits_ge; [lia|]. rewrite Z.pow_add_r, Hm by lia. apply Z.mul_le_mono_nonneg_r; lia.
Qed.

Lemma round_valid s m e : valid (binary_round f64_prec f64_emax s m e) /\
  (fexp64 (Z.pos (digits2_pos m) + e) < 971 -> finite (binary_round f64_prec f64_emax s m e)).
Proof.
  unfold binary_round. pose proof (shl_align_spec m e (fexp64 (Z.pos (digits2_pos m) + e))) as H.
  destruct (shl_align _ _ _) as [m' ez]. destruct H as [Hez Hm].
  pose proof (digits_shift m m' (e - ez) ltac:(lia) Hm) as Hd.
  replace (Z.pos (digits2_pos m) + e) with (Z.pos (digits2_pos m') + ez) in * by lia.
  destruct (round_aux_valid s m' ez loc_Exact ltac:(lia)) as (Hv & Hf & _). by split.
Qed.

Lemma normalize_valid m e : valid (binary_normalize f64_prec f64_emax m e false).
Proof. destruct m; [done|apply round_valid..]. Qed.

Lemma f64_of_finite x : 0 <= x < 2 ^ 64 -> finite (f64_of x).
Proof.
  intros Hx. destruct x as [|p|p]; [done| |lia]. apply round_valid. rewrite fexp_eq.
  pose proof (digits_le p 64). unfold f64_emin. lia.
Qed.
Lemma f64_of_valid x : valid (f64_of x).
Proof. apply normalize_valid. Qed.

Lemma f64_add_valid x y : valid x -> valid y -> valid (f64_add x y).
Proof.
  destruct x as [[]|[]| |s m e], y as [[]|[]| |s' m' e']; try done; intros _ _; apply normalize_valid.
Qed.

Lemma f64_sub_valid x y : valid x -> valid y -> valid (f64_sub x y).
Proof.
  destruct x as [[]|[]| |s m e], y as [[]|[]| |s' m' e']; try done; intros _ _; apply normalize_valid.
Qed.

Lemma f64_abs_valid x : valid x -> valid (f64_abs x).
Proof. by destruct x. Qed.

Lemma mul_exponent m e m' e' : normal m e -> normal m' e' -> e + e' <= fexp64 (Z.pos (digits2_pos (m * m')) + (e + e')).
Proof.
  intros (_ & He & Hm) (_ & He' & Hm'). rewrite fexp_eq. unfold f64_emin in *.
  assert (e + e' <= -1074 \/ 2 ^ 52 <= Z.pos (m * m')) as [?|Hb]; [|lia|].
  { rewrite Pos2Z.inj_mul. destruct Hm as [?|?], Hm' as [?|?]; [right; nia..|left; lia]. }
  pose proof (digits_ge (m * m') 52 ltac:(lia) Hb). lia.
Qed.

Lemma f64_mul_valid x y : valid x -> valid y -> valid (f64_mul x y).
Proof.
  destruct x as [[]|[]| |s m e], y as [[]|[]| |s' m' e']; try done; intros Hx Hy.
  by apply round_aux_valid, mul_exponent.
Qed.

(** The quotient has enough bits. *)
Lemma div_exponent m1 e1 m2 e2 : let '(q, e', _) := SFdiv_core_binary f64_prec f64_emax (Z.pos m1) e1 (Z.pos m2) e2 in
  (exists p, q = Z.pos p /\ e' <= fexp64 (Z.pos (digits2_pos p) + e')) \/ (q = 0 /\ e' <= f64_emin).
Proof.
  unfold SFdiv_core_binary. cbn [Zdigits2].
  set (k := Z.pos (digits2_pos m1) + e1 - (Z.pos (digits2_pos m2) + e2)). set (e' := Z.min (fexp64 k) (e1 - e2)).
  set (s := e1 - e2 - e').
  assert (match s with Z0 => Z.pos m1 | Z.pos _ => Z.shiftl (Z.pos m1) s | Z.neg _ => 0 end = Z.pos m1 * 2 ^ s) as ->.
  { assert (0 <= s) by lia. destruct s as [|n|n]; [lia| |lia]. by rewrite Z.shiftl_mul_pow2 by lia. }
  destruct (digits_bound m1) as [Hl1 _]. destruct (digits_bound m2) as [_ Hu2].
  set (d1 := Z.pos (digits2_pos m1)) in *. set (d2 := Z.pos (digits2_pos m2)) in *.
  pose proof (Z_div_mod (Z.pos m1 * 2 ^ s) (Z.pos m2) ltac:(lia)) as Hdm.
  destruct (Z.div_eucl _ _) as [q r]. destruct Hdm as [Hq Hr].
  assert (0 <= s) by lia. pose proof (Z.pow_pos_nonneg 2 s ltac:(lia) ltac:(lia)).
  assert (s = e1 - e2 - e') by done. assert (k = d1 + e1 - (d2 + e2)) by done.
  assert (e' <= fexp64 k) as Hek by (unfold e'; lia). rewrite fexp_eq in Hek.
  assert (2 ^ (d1 - 1) * 2 ^ s <= Z.pos m1 * 2 ^ s) as Hnum by (apply Z.mul_le_mono_nonneg_r; lia).
  rewrite <- Z.pow_add_r in Hnum by (unfold d1; lia).
  assert (0 <= q) by nia. destruct q as [|p|p]; [right; split; [done|]|left; exists p; split; [done|]|lia].
  { destruct (Z.le_gt_cases e' f64_emin); [done|]. exfalso.
    pose proof (Z.pow_le_mono_r 2 d2 (d1 - 1 + s) ltac:(lia) ltac:(lia)). lia. }
  assert (d1 + s - d2 <= Z.pos (digits2_pos p)) as Hd.
  { destruct (Z.le_gt_cases (d1 + s - d2) (Z.pos (digits2_pos p))) as [|Hlt]; [done|].
    destruct (digits_bound p) as [_ Hup]. exfalso.
    assert ((Z.pos p + 1) * Z.pos m2 <= 2 ^ Z.pos (digits2_pos p) * 2 ^ d2) by nia.
    rewrite <- !Z.pow_add_r in * by (unfold d1, d2; lia).
    pose proof (Z.pow_le_mono_r 2 (Z.pos (digits2_pos p) + d2) (d1 - 1 + s) ltac:(lia) ltac:(lia)). nia. }
  rewrite fexp_eq. lia.
Qed.

Lemma f64_div_valid x y : valid x -> valid y -> valid (f64_div x y).
Proof.
  destruct x as [[]|[]| |s m e], y as [[]|[]| |s' m' e']; try done; intros _ _.
  unfold f64_div. cbn [SFdiv]. pose proof (div_exponent m e m' e') as H.
  destruct (SFdiv_core_binary _ _ _ _ _ _) as [[q z] l]. destruct H as [(p & -> & He)|[-> He]].
  - by apply round_aux_valid.
  - by apply round_aux_tiny.
Qed.

(** ** From the order to the value *)

Lemma finite_between lo_m lo_e x hi_m hi_e :
  f64_le (S754_finite false lo_m lo_e) x = true -> f64_le x (S754_finite false hi_m hi_e) = true ->
  exists m e, x = S754_finite false m e /\ lo_e <= e <= hi_e /\ (e = lo_e -> Z.pos lo_m <= Z.pos m) /\
    (e = hi_e -> Z.pos m <= Z.pos hi_m).
Proof.
  unfold f64_le, SFleb. destruct x as [[]|[]| |[] m e]; simpl; try done. intros H1 H2. exists m, e. split; [done|].
  change (Pos.compare_cont Eq lo_m m) with (lo_m ?= m)%positive in H1.
  change (Pos.compare_cont Eq m hi_m) with (m ?= hi_m)%positive in H2.
  destruct (Z.compare_spec lo_e e) as [->|?|?], (Z.compare_spec e hi_e) as [->|?|?]; try done;
    destruct (Pos.compare_spec lo_m m); try done; destruct (Pos.compare_spec m hi_m); try done; split_and!; lia.
Qed.
