(* ===== verification/Congestion.v ===== *)
(** * Congestion control and round-trip estimation ([congestion.rs])

    [CongestionControl] with its slow-start, congestion-avoidance and
    fast-recovery arms on [u32] arithmetic, and the [f64] estimator of the
    retransmission timeout. *)

From S2P Require Import Prelude Bytes NetBytes Float64.

Inductive CongestionState : Type :=
| SlowStart
| CongestionAvoidance
| FastRecovery.
#[global] Instance CongestionState_eq_dec : EqDecision CongestionState.
Proof. solve_decision. Defined.

Record CongestionControl : Type := {
  cwnd : Z;
  ssthresh : Z;
  cc_mss : Z;
  dup_ack_count : Z;
  cc_state : CongestionState;
  in_flight : Z;
}.

Definition congestion_new {E} (mss : Z) : outcome E CongestionControl :=
  let? initial_cwnd := mul_u32 2 mss in
  Ok {| cwnd := initial_cwnd; ssthresh := 65535; cc_mss := mss; dup_ack_count := 0; cc_state := SlowStart; in_flight := 0 |}.

Definition on_ack (bytes_acked : Z) (c : CongestionControl) : CongestionControl :=
  let flight := if bytes_acked <=? in_flight c then in_flight c - bytes_acked else 0 in
  match cc_state c with
  | SlowStart =>
      let w := saturating_add_u32 (cwnd c) (Z.min bytes_acked (cc_mss c)) in
      {| cwnd := w; ssthresh := ssthresh c; cc_mss := cc_mss c; dup_ack_count := 0;
         cc_state := if ssthresh c <=? w then CongestionAvoidance else SlowStart; in_flight := flight |}
  | CongestionAvoidance =>
      let w := if 0 <? cwnd c then
                 let increment := as_u32 (cc_mss c * cc_mss c / cwnd c) in
                 saturating_add_u32 (cwnd c) (Z.max increment 1)
               else cwnd c in
      {| cwnd := w; ssthresh := ssthresh c; cc_mss := cc_mss c; dup_ack_count := 0;
         cc_state := CongestionAvoidance; in_flight := flight |}
  | FastRecovery =>
      {| cwnd := ssthresh c; ssthresh := ssthresh c; cc_mss := cc_mss c; dup_ack_count := 0;
         cc_state := CongestionAvoidance; in_flight := flight |}
  end.

(** [(self.cwnd / 2).max(2 * self.mss)] *)
Definition halved {E} (c : CongestionControl) : outcome E Z :=
  let? twice := mul_u32 2 (cc_mss c) in Ok (Z.max (cwnd c / 2) twice).

Definition on_dup_ack {E} (c : CongestionControl) : outcome E (bool * CongestionControl) :=
  let? n := add_u32 (dup_ack_count c) 1 in
  if n =? 3 then
    let? t := halved c in
    let? triple := mul_u32 3 (cc_mss c) in
    let? w := add_u32 t triple in
    Ok (true, {| cwnd := w; ssthresh := t; cc_mss := cc_mss c; dup_ack_count := n; cc_state := FastRecovery;
                 in_flight := in_flight c |})
  else if (3 <? n) && bool_decide (cc_state c = FastRecovery) then
    Ok (false, {| cwnd := saturating_add_u32 (cwnd c) (cc_mss c); ssthresh := ssthresh c; cc_mss := cc_mss c;
                  dup_ack_count := n; cc_state := cc_state c; in_flight := in_flight c |})
  else
    Ok (false, {| cwnd := cwnd c; ssthresh := ssthresh c; cc_mss := cc_mss c; dup_ack_count := n;
                  cc_state := cc_state c; in_flight := in_flight c |}).

Definition on_timeout {E} (c : CongestionControl) : outcome E CongestionControl :=
  let? t := halved c in
  Ok {| cwnd := cc_mss c; ssthresh := t; cc_mss := cc_mss c; dup_ack_count := 0; cc_state := SlowStart;
        in_flight := in_flight c |}.

Definition send_window_available (peer_rwnd : Z) (c : CongestionControl) : Z :=
  let max_window := Z.min (cwnd c) peer_rwnd in
  saturating_sub max_window (in_flight c).

Definition record_sent {E} (bytes : Z) (c : CongestionControl) : outcome E CongestionControl :=
  let? n := add_u32 (in_flight c) bytes in
  Ok {| cwnd := cwnd c; ssthresh := ssthresh c; cc_mss := cc_mss c; dup_ack_count := dup_ack_count c;
        cc_state := cc_state c; in_flight := n |}.

(** [self.congestion.mss = m], which [tcp.rs] does when the peer announces it *)
Definition set_cc_mss (m : Z) (c : CongestionControl) : CongestionControl :=
  {| cwnd := cwnd c; ssthresh := ssthresh c; cc_mss := m; dup_ack_count := dup_ack_count c;
     cc_state := cc_state c; in_flight := in_flight c |}.

(** ** The retransmission timeout *)

Record RttEstimator : Type := {
  srtt : option f64;
  rttvar : option f64;
  rto : f64;
  min_rto : f64;
  max_rto : f64;
}.

Definition rtt_new : RttEstimator :=
  {| srtt := None; rttvar := None; rto := f64_of 1000; min_rto := f64_of 200; max_rto := f64_of 60000 |}.

Definition update_sample {E} (rtt_sample : f64) (r : RttEstimator) : outcome E RttEstimator :=
  match srtt r, rttvar r with
  | None, _ =>
      let var := f64_div rtt_sample (f64_lit 2 0) in
      let? t := f64_clamp (f64_add rtt_sample (f64_mul (f64_lit 4 0) (f64_div rtt_sample (f64_lit 2 0)))) (min_rto r) (max_rto r) in
      Ok {| srtt := Some rtt_sample; rttvar := Some var; rto := t; min_rto := min_rto r; max_rto := max_rto r |}
  | Some s, Some v =>
      let new_rttvar := f64_add (f64_mul (f64_lit 3 (-2)) v) (f64_mul (f64_lit 1 (-2)) (f64_abs (f64_sub s rtt_sample))) in
      let new_srtt := f64_add (f64_mul (f64_lit 7 (-3)) s) (f64_mul (f64_lit 1 (-3)) rtt_sample) in
      let? t := f64_clamp (f64_add new_srtt (f64_mul (f64_lit 4 0) new_rttvar)) (min_rto r) (max_rto r) in
      Ok {| srtt := Some new_srtt; rttvar := Some new_rttvar; rto := t; min_rto := min_rto r; max_rto := max_rto r |}
  | _, _ => Ok r
  end.

Definition backoff (r : RttEstimator) : RttEstimator :=
  {| srtt := srtt r; rttvar := rttvar r; rto := f64_min (f64_mul (rto r) (f64_lit 2 0)) (max_rto r);
     min_rto := min_rto r; max_rto := max_rto r |}.

(** ** The timeout stays between its bounds *)

(** A sample the stack can take: a count of milliseconds, not a NaN. *)
Definition sample_ok (x : f64) : Prop := nonneg x /\ finite x /\ valid x.

Lemma sample_of ms : is_u64 ms -> sample_ok (f64_of ms).
Proof.
  intros. split_and!; [apply f64_of_nonneg; ulia|apply f64_of_finite; ulia|apply f64_of_valid].
Qed.

Lemma sample_max x y : sample_ok x -> sample_ok y -> sample_ok (f64_max x y).
Proof. intros. unfold f64_max. by repeat case_match. Qed.

Record rtt_inv (r : RttEstimator) : Prop := {
  inv_min : min_rto r = f64_of 200;
  inv_max : max_rto r = f64_of 60000;
  inv_low : f64_le (f64_of 200) (rto r) = true;
  inv_high : f64_le (rto r) (f64_of 60000) = true;
  inv_valid : valid (rto r);
  inv_smooth : match srtt r, rttvar r with
               | None, None => True
               | Some s, Some v => nonneg s /\ valid s /\ nonneg v /\ valid v
               | _, _ => False
               end;
}.

Lemma rtt_new_inv : rtt_inv rtt_new.
Proof. split; [by vm_compute..|apply f64_of_valid|done]. Qed.

Lemma f64_clamp_valid {E} x lo hi y : @f64_clamp E x lo hi = Ok y -> valid x -> valid lo -> valid hi -> valid y.
Proof. unfold f64_clamp. intros H ???. repeat case_match; simplify_eq; done. Qed.

Lemma clamp_rto {E} x : nonneg x -> valid x ->
  exists y, @f64_clamp E x (f64_of 200) (f64_of 60000) = Ok y /\
    f64_le (f64_of 200) y = true /\ f64_le y (f64_of 60000) = true /\ valid y.
Proof.
  intros Hn Hv. destruct (@f64_clamp_range E x (f64_of 200) (f64_of 60000)) as (y & Hy & Hl & Hh);
    [by apply nonneg_number|by vm_compute..|].
  exists y. split_and!; try done. eapply f64_clamp_valid; [exact Hy|done|apply f64_of_valid..].
Qed.

(** The literals [4.0], [0.75], [0.25], [0.875] and [0.125] scale without losing the sign. *)
Lemma scale_ok k x : (exists m e, k = S754_finite false m e /\ normal m e) -> nonneg x -> valid x ->
  nonneg (f64_mul k x) /\ valid (f64_mul k x).
Proof. intros (m & e & -> & Hk) Hn Hv. split; [by apply f64_mul_nonneg|by apply f64_mul_valid]. Qed.
Lemma normal_lit m e : match f64_lit m e with S754_finite s _ _ => negb s | _ => false end = true ->
  exists m' e', f64_lit m e = S754_finite false m' e' /\ normal m' e'.
Proof.
  pose proof (normalize_valid m e) as Hv. change (binary_normalize _ _ m e false) with (f64_lit m e) in Hv.
  destruct (f64_lit m e) as [| | |[] m' e']; try done. intros _. by exists m', e'.
Qed.
Ltac scaled := apply scale_ok; [by apply normal_lit|..].

Lemma sum_ok x y : nonneg x /\ valid x -> nonneg y /\ valid y -> nonneg (f64_add x y) /\ valid (f64_add x y).
Proof. intros [] []. split; [by apply f64_add_nonneg|by apply f64_add_valid]. Qed.

Lemma update_sample_inv {E} x r : sample_ok x -> rtt_inv r -> exists r', @update_sample E x r = Ok r' /\ rtt_inv r'.
Proof.
  intros (Hn & Hf & Hv) [Hmin Hmax Hlow Hhigh Hval Hs]. unfold update_sample. rewrite Hmin, Hmax.
  destruct (srtt r) as [s|], (rttvar r) as [v|]; try done.
  - destruct Hs as (Hsn & Hsv & Hvn & Hvv).
    assert (nonneg (f64_abs (f64_sub s x)) /\ valid (f64_abs (f64_sub s x))) as [Hdn Hdv].
    { split; [by apply f64_distance_nonneg|by apply f64_abs_valid, f64_sub_valid]. }
    set (v' := f64_add (f64_mul (f64_lit 3 (-2)) v) _). set (s' := f64_add (f64_mul (f64_lit 7 (-3)) s) _).
    assert (nonneg v' /\ valid v') as [Hvn' Hvv'] by (apply sum_ok; scaled; done).
    assert (nonneg s' /\ valid s') as [Hsn' Hsv'] by (apply sum_ok; scaled; done).
    assert (nonneg (f64_add s' (f64_mul (f64_lit 4 0) v')) /\ valid (f64_add s' (f64_mul (f64_lit 4 0) v'))) as [Htn Htv].
    { apply sum_ok; [done|]. scaled; done. }
    destruct (@clamp_rto E _ Htn Htv) as (y & -> & Hl & Hh & Hy). eexists. split; [done|]. by split.
  - set (v' := f64_div x _). assert (nonneg v' /\ valid v') as [Hvn' Hvv'].
    { split; [|by apply f64_div_valid; [|apply (normalize_valid 2)]].
      change (f64_lit 2 0) with (S754_finite false 4503599627370496 (-51)) in v'. by apply f64_div_nonneg. }
    assert (nonneg (f64_add x (f64_mul (f64_lit 4 0) v')) /\ valid (f64_add x (f64_mul (f64_lit 4 0) v'))) as [Htn Htv].
    { apply sum_ok; [done|]. scaled; done. }
    destruct (@clamp_rto E _ Htn Htv) as (y & -> & Hl & Hh & Hy). eexists. split; [done|]. by split.
Qed.

Lemma rto_finite r : rtt_inv r -> exists m e, rto r = S754_finite false m e /\ -45 <= e <= -37 /\ 2 ^ 52 <= Z.pos m < 2 ^ 53 /\
  (e = -45 -> 7036874417766400 <= Z.pos m) /\ (e = -37 -> Z.pos m <= 8246337208320000).
Proof.
  intros [_ _ Hl Hh Hv _].
  change (f64_of 200) with (S754_finite false 7036874417766400 (-45)) in Hl.
  change (f64_of 60000) with (S754_finite false 8246337208320000 (-37)) in Hh.
  destruct (finite_between _ _ _ _ _ Hl Hh) as (m & e & Hr & He & Hlo & Hhi). exists m, e. rewrite Hr in Hv.
  destruct Hv as (? & ? & ?). unfold f64_emin in *. split_and!; try done; lia.
Qed.

Lemma double_ok m e : -45 <= e <= -37 -> 2 ^ 52 <= Z.pos m < 2 ^ 53 ->
  exists p e', f64_mul (S754_finite false m e) (f64_lit 2 0) = S754_finite false p e' /\ e < e'.
Proof.
  intros He Hm. change (f64_lit 2 0) with (S754_finite false 4503599627370496 (-51)).
  unfold f64_mul. cbn [SFmul xorb].
  assert (normal m e) as Hn by (unfold normal, f64_emin; lia).
  assert (normal 4503599627370496 (-51)) as Hn2 by (unfold normal, f64_emin; lia).
  pose proof (mul_exponent _ _ _ _ Hn Hn2) as Hx.
  destruct (round_aux_valid false _ _ loc_Exact Hx) as (_ & _ & Hb).
  rewrite (digits_shift m (m * 4503599627370496) 52) in Hb by lia. rewrite fexp_eq in Hb.
  pose proof (digits_le m 53 ltac:(lia) ltac:(lia)). pose proof (digits_ge m 52 ltac:(lia) ltac:(lia)).
  unfold f64_emin in Hb. destruct Hb as (p & e' & Hb & He'); [lia|]. exists p, e'. split; [exact Hb|lia].
Qed.

Lemma backoff_inv r : rtt_inv r -> rtt_inv (backoff r).
Proof.
  intros Hr. destruct (rto_finite r Hr) as (m & e & Hm & He & Hb & _). destruct Hr as [Hmin Hmax _ _ Hv Hs].
  destruct (double_ok m e He Hb) as (p & e' & Hd & He'). unfold backoff. rewrite Hmax, Hm, Hd.
  rewrite Hm in Hv. pose proof (f64_mul_valid _ _ Hv (normalize_valid 2 0)) as Hv'.
  change (binary_normalize _ _ 2 0 false) with (f64_lit 2 0) in Hv'. rewrite Hd in Hv'.
  split; cbn [min_rto max_rto rto srtt rttvar]; try done.
  - unfold f64_min. cbn [f64_is_nan]. replace (f64_is_nan (f64_of 60000)) with false by (by vm_compute).
    destruct (f64_lt (f64_of 60000) _); [by vm_compute|].
    change (f64_of 200) with (S754_finite false 7036874417766400 (-45)). unfold f64_le, SFleb. cbn [SFcompare].
    by rewrite (proj2 (Z.compare_lt_iff (-45) e')) by lia.
  - by apply f64_min_le; vm_compute.
  - unfold f64_min. cbn [f64_is_nan]. replace (f64_is_nan (f64_of 60000)) with false by (by vm_compute).
    destruct (f64_lt (f64_of 60000) _); [apply f64_of_valid|exact Hv'].
Qed.

(** What the stack does to the estimator. *)
Inductive rtt_op : Type :=
| Sample (x : f64)
| Backoff.
Definition rtt_step {E} (r : RttEstimator) (op : rtt_op) : outcome E RttEstimator :=
  match op with Sample x => update_sample x r | Backoff => Ok (backoff r) end.
Definition rtt_op_ok (op : rtt_op) : Prop := match op with Sample x => sample_ok x | Backoff => True end.

Lemma rtt_run_inv {E} ops r : Forall rtt_op_ok ops -> rtt_inv r ->
  exists r', @ofold E _ _ rtt_step r ops = Ok r' /\ rtt_inv r'.
Proof.
  intros Hops. revert r. induction Hops as [|op ops Hop _ IH]; intros r Hr; [by exists r|].
  cbn [ofold]. destruct op as [x|]; cbn [rtt_step].
  - destruct (@update_sample_inv E x r Hop Hr) as (r' & -> & Hr'). ostep. by apply IH.
  - ostep. by apply IH, backoff_inv.
Qed.

(** C26: the retransmission timeout is always between 200 milliseconds and one
    minute. Whatever round-trip times are sampled (any [u64] count of
    milliseconds, converted to [f64]) and however often the timer backs off,
    the estimator never panics on its clamp, never turns into a NaN, and the
    timeout that [poll_output] reads with [rto as u64] is in that range. *)
Theorem rto_bounded ops : Forall rtt_op_ok ops ->
  exists r, @ofold Empty_set _ _ rtt_step rtt_new ops = Ok r /\ 200 <= f64_as_u64 (rto r) <= 60000.
Proof.
  intros Hops. destruct (@rtt_run_inv Empty_set ops _ Hops rtt_new_inv) as (r & -> & Hr).
  exists r. split; [done|]. destruct (rto_finite r Hr) as (m & e & -> & He & Hm & Hlo & Hhi).
  cbn [f64_as_u64]. rewrite (proj2 (Z.leb_gt 0 e)) by lia. rewrite Z.shiftr_div_pow2 by lia.
  assert (200 <= Z.pos m / 2 ^ (- e) <= 60000); [|ulia].
  assert (exists k, e = - k /\ 37 <= k <= 45) as (k & -> & Hk) by (exists (- e); lia). rewrite Z.opp_involutive.
  assert (k = 45 \/ k = 44 \/ k = 43 \/ k = 42 \/ k = 41 \/ k = 40 \/ k = 39 \/ k = 38 \/ k = 37) as Hc by lia.
  destruct Hc as [->|[->|[->|[->|[->|[->|[->|[->| ->]]]]]]]];
    (split; [apply Z.div_le_lower_bound|apply Z.lt_succ_r, Z.div_lt_upper_bound]; lia).
Qed.

Lemma rto_bounded_witness : exists r,
  @ofold Empty_set _ _ rtt_step rtt_new [Sample (f64_of 100); Backoff; Sample (f64_of (2 ^ 63)); Backoff] = Ok r /\
  200 <= f64_as_u64 (rto r) <= 60000.
Proof. apply rto_bounded. repeat constructor; try (apply sample_of; ulia); by vm_compute. Defined.

(** ** The congestion window *)

Inductive cc_op : Type :=
| Acked (bytes : Z)
| DupAck
| TimedOut
| Sent (bytes : Z).

Definition cc_step {E} (c : CongestionControl) (op : cc_op) : outcome E CongestionControl :=
  match op with
  | Acked n => Ok (on_ack n c)
  | DupAck => let? (_, c) := on_dup_ack c in Ok c
  | TimedOut => on_timeout c
  | Sent n => record_sent n c
  end.
Definition cc_op_ok (op : cc_op) : Prop := match op with Acked n | Sent n => is_u32 n | _ => True end.
Definition sent_bytes (ops : list cc_op) : Z :=
  foldr (fun op n => match op with Sent b => b + n | _ => n end) 0 ops.

(** At least a segment is always allowed; [n] operations and [sent] bytes have gone by. *)
Record cc_inv (mss n sent : Z) (c : CongestionControl) : Prop := {
  cc_same : cc_mss c = mss;
  cc_window : mss <= cwnd c <= u32_max;
  cc_thresh : Z.min 65535 (2 * mss) <= ssthresh c <= u32_max;
  cc_dups : 0 <= dup_ack_count c <= n;
  cc_flight : 0 <= in_flight c <= sent;
}.

Lemma halved_ok {E} mss n sent c : 1 <= mss <= 65535 -> cc_inv mss n sent c ->
  exists t, @halved E c = Ok t /\ 2 * mss <= t <= 2 ^ 31.
Proof.
  intros Hm [Hs Hw _ _ _]. unfold halved, mul_u32. rewrite Hs, (proj2 (Z.leb_le _ _)) by ulia. ostep.
  eexists. split; [done|]. assert (cwnd c / 2 <= 2 ^ 31) by (apply Z.div_le_upper_bound; ulia). lia.
Qed.

Lemma on_ack_inv mss n sent a c : 1 <= mss <= 65535 -> 0 <= a -> cc_inv mss n sent c -> cc_inv mss (n + 1) sent (on_ack a c).
Proof.
  intros Hm Ha [Hs Hw Ht Hd Hf]. unfold on_ack, saturating_add_u32.
  assert (0 <= (if a <=? in_flight c then in_flight c - a else 0) <= sent) by (case_match; bool_facts; lia).
  destruct (cc_state c); split; cbn [cc_mss cwnd ssthresh dup_ack_count in_flight]; try lia.
  destruct (0 <? cwnd c) eqn:H0; bool_facts; [|lia]. pose proof (Z.mod_pos_bound (cc_mss c * cc_mss c / cwnd c) (2 ^ 32)).
  unfold as_u32. lia.
Qed.

Lemma cc_step_inv {E} mss n sent c op : 1 <= mss <= 65535 -> cc_op_ok op -> n < u32_max ->
  sent + sent_bytes [op] <= u32_max -> cc_inv mss n sent c ->
  exists c', @cc_step E c op = Ok c' /\ cc_inv mss (n + 1) (sent + sent_bytes [op]) c'.
Proof.
  intros Hm Hop Hn Hsent Hc. destruct op as [a| | |b]; cbn [cc_step sent_bytes foldr cc_op_ok] in *; rewrite ?Z.add_0_r in *.
  - eexists. split; [done|]. apply on_ack_inv; [done|ulia|done].
  - destruct (@halved_ok E _ _ _ _ Hm Hc) as (t & Ht & Htb). destruct Hc as [Hs Hw Hthr Hd Hf].
    unfold on_dup_ack, saturating_add_u32. unfold add_u32 at 1. rewrite (proj2 (Z.leb_le _ _)) by ulia. ostep.
    destruct (_ =? 3) eqn:H3; bool_facts.
    + rewrite Ht. ostep. unfold mul_u32, add_u32. rewrite Hs, (proj2 (Z.leb_le (3 * mss) _)) by ulia. ostep.
      rewrite (proj2 (Z.leb_le _ _)) by ulia. ostep. eexists. split; [done|]. split; simpl; ulia.
    + destruct (_ && _); ostep; (eexists; split; [done|]); split; simpl; ulia.
  - destruct (@halved_ok E _ _ _ _ Hm Hc) as (t & Ht & Htb). destruct Hc as [Hs Hw Hthr Hd Hf].
    unfold on_timeout. rewrite Ht. ostep. eexists. split; [done|]. split; simpl; ulia.
  - destruct Hc as [Hs Hw Hthr Hd Hf]. unfold record_sent, add_u32.
    rewrite (proj2 (Z.leb_le _ _)) by ulia. ostep. eexists. split; [done|]. split; simpl; ulia.
Qed.

Lemma sent_bytes_cons op ops : sent_bytes (op :: ops) = sent_bytes [op] + sent_bytes ops.
Proof. destruct op; simpl; lia. Qed.
Lemma sent_bytes_nonneg ops : Forall cc_op_ok ops -> 0 <= sent_bytes ops.
Proof. induction 1 as [|[] ops Hop _ IH]; simpl in *; ulia. Qed.

Lemma cc_run_inv {E} mss ops n sent c : 1 <= mss <= 65535 -> Forall cc_op_ok ops -> n + zlen ops <= u32_max ->
  sent + sent_bytes ops <= u32_max -> cc_inv mss n sent c ->
  exists c', @ofold E _ _ cc_step c ops = Ok c' /\ cc_inv mss (n + zlen ops) (sent + sent_bytes ops) c'.
Proof.
  intros Hm Hops. revert n sent c. induction Hops as [|op ops Hop Hops IH]; intros n sent c Hn Hs Hc.
  - exists c. split; [done|]. by rewrite !Z.add_0_r.
  - rewrite zlen_cons, sent_bytes_cons in *. pose proof (zlen_nonneg ops). pose proof (sent_bytes_nonneg ops Hops).
    destruct (@cc_step_inv E mss n sent c op Hm Hop ltac:(lia) ltac:(lia) Hc) as (c1 & Hc1 & Hi).
    cbn [ofold]. rewrite Hc1. ostep. rewrite !Z.add_assoc. apply IH; [lia..|done].
Qed.

(** C25: the congestion controller keeps its window usable. After any sequence of
    acknowledgements, duplicate acknowledgements, timeouts and transmissions
    (fewer than [2^32] events and bytes) no [u32] operation overflows, the
    window is at least one segment, the threshold at least two (or the initial
    65535), no more than was sent counts as in flight, and sending what
    [send_window_available] allows never takes the flight above the smaller of
    the congestion window and the peer's window. *)
Theorem congestion_window_bounds mss ops : 1 <= mss <= 65535 -> Forall cc_op_ok ops ->
  zlen ops <= u32_max -> sent_bytes ops <= u32_max ->
  exists c, (let? c := @congestion_new Empty_set mss in ofold cc_step c ops) = Ok c /\
    mss <= cwnd c <= u32_max /\ Z.min 65535 (2 * mss) <= ssthresh c /\ 0 <= in_flight c <= sent_bytes ops /\
    forall rwnd, in_flight c + send_window_available rwnd c <= Z.max (in_flight c) (Z.min (cwnd c) rwnd).
Proof.
  intros Hm Hops Hn Hs. unfold congestion_new, mul_u32. rewrite (proj2 (Z.leb_le _ _)) by ulia. ostep.
  destruct (@cc_run_inv Empty_set mss ops 0 0 {| cwnd := 2 * mss; ssthresh := 65535; cc_mss := mss; dup_ack_count := 0;
    cc_state := SlowStart; in_flight := 0 |} Hm Hops ltac:(lia) ltac:(lia)) as (c & -> & [_ Hw Ht _ Hf]); [by split; simpl; ulia|].
  exists c. split_and!; try done; try lia. intros rwnd. unfold send_window_available. rewrite saturating_sub_eq. lia.
Qed.

Lemma congestion_window_bounds_witness : exists c,
  (let? c := @congestion_new Empty_set 1460 in ofold cc_step c [Sent 1460; DupAck; DupAck; DupAck; Acked 1460; TimedOut]) = Ok c /\
  1460 <= cwnd c.
Proof.
  destruct (congestion_window_bounds 1460 [Sent 1460; DupAck; DupAck; DupAck; Acked 1460; TimedOut]) as (c & Hc & Hw & _);
    [lia|repeat constructor; vm_compute; congruence|by vm_compute..|].
  exists c. split; [exact Hc|lia].
Defined.
