(* ===== verification/TcpState.v ===== *)
(** * TCP connections: state ([tcp.rs], [TcpConnection])

    The data of a connection with one setter per field, and its two
    constructors. *)

From S2P Require Import Prelude Bytes NetBytes TcpSeq Checksum Ipv4 TcpSegment Float64 Congestion.

Definition MAX_RETRANSMITS : Z := 12.
Definition MAX_OOO_BYTES : Z := 262144.
Definition TIME_WAIT_MS : Z := 2000.
Definition PERSIST_INTERVAL_MS : Z := 500.
Definition SND_BUFFER_CAPACITY : Z := 262144.
#[export] Hint Unfold MAX_RETRANSMITS MAX_OOO_BYTES TIME_WAIT_MS PERSIST_INTERVAL_MS SND_BUFFER_CAPACITY : consts.

Inductive TcpState : Type :=
| Closed
| Listen
| SynSent
| SynReceived
| Established
| FinWait1
| FinWait2
| CloseWait
| Closing
| LastAck
| TimeWait.
#[global] Instance TcpState_eq_dec : EqDecision TcpState.
Proof. solve_decision. Defined.

Record SocketAddrV4 : Type := { ip : Ipv4Address; port : Z }.
#[global] Instance SocketAddrV4_eq_dec : EqDecision SocketAddrV4.
Proof. solve_decision. Defined.
#[global] Instance SocketAddrV4_countable : Countable SocketAddrV4.
Proof.
  refine (inj_countable' (fun s => (ip s, port s)) (fun p => {| ip := p.1; port := p.2 |}) _).
  by intros [].
Defined.

Record TcpConnectionKey : Type := { key_local : SocketAddrV4; key_remote : SocketAddrV4 }.
#[global] Instance TcpConnectionKey_eq_dec : EqDecision TcpConnectionKey.
Proof. solve_decision. Defined.
#[global] Instance TcpConnectionKey_countable : Countable TcpConnectionKey.
Proof.
  refine (inj_countable' (fun k => (key_local k, key_remote k)) (fun p => {| key_local := p.1; key_remote := p.2 |}) _).
  by intros [].
Defined.

Record TcpStats : Type := {
  bytes_sent : Z;
  bytes_received : Z;
  segments_sent : Z;
  segments_received : Z;
  retransmissions : Z;
  duplicate_acks : Z;
  fast_retransmits : Z;
  timeouts : Z;
  invalid_segments : Z;
  zero_window_probes : Z;
  sack_blocks_received : Z;
  sack_blocks_sent : Z;
  paws_discards : Z;
}.

Definition set_bytes_sent (x : Z) (c : TcpStats) : TcpStats :=
  {| bytes_sent := x; bytes_received := bytes_received c; segments_sent := segments_sent c;
     segments_received := segments_received c; retransmissions := retransmissions c;
     duplicate_acks := duplicate_acks c; fast_retransmits := fast_retransmits c; timeouts := timeouts c;
     invalid_segments := invalid_segments c; zero_window_probes := zero_window_probes c;
     sack_blocks_received := sack_blocks_received c; sack_blocks_sent := sack_blocks_sent c;
     paws_discards := paws_discards c |}.
Definition set_bytes_received (x : Z) (c : TcpStats) : TcpStats :=
  {| bytes_sent := bytes_sent c; bytes_received := x; segments_sent := segments_sent c;
     segments_received := segments_received c; retransmissions := retransmissions c;
     duplicate_acks := duplicate_acks c; fast_retransmits := fast_retransmits c; timeouts := timeouts c;
     invalid_segments := invalid_segments c; zero_window_probes := zero_window_probes c;
     sack_blocks_received := sack_blocks_received c; sack_blocks_sent := sack_blocks_sent c;
     paws_discards := paws_discards c |}.
Definition set_segments_sent (x : Z) (c : TcpStats) : TcpStats :=
  {| bytes_sent := bytes_sent c; bytes_received := bytes_received c; segments_sent := x;
     segments_received := segments_received c; retransmissions := retransmissions c;
     duplicate_acks := duplicate_acks c; fast_retransmits := fast_retransmits c; timeouts := timeouts c;
     invalid_segments := invalid_segments c; zero_window_probes := zero_window_probes c;
     sack_blocks_received := sack_blocks_received c; sack_blocks_sent := sack_blocks_sent c;
     paws_discards := paws_discards c |}.
Definition set_segments_received (x : Z) (c : TcpStats) : TcpStats :=
  {| bytes_sent := bytes_sent c; bytes_received := bytes_received c; segments_sent := segments_sent c;
     segments_received := x; retransmissions := retransmissions c; duplicate_acks := duplicate_acks c;
     fast_retransmits := fast_retransmits c; timeouts := timeouts c;
     invalid_segments := invalid_segments c; zero_window_probes := zero_window_probes c;
     sack_blocks_received := sack_blocks_received c; sack_blocks_sent := sack_blocks_sent c;
     paws_discards := paws_discards c |}.
Definition set_retransmissions (x : Z) (c : TcpStats) : TcpStats :=
  {| bytes_sent := bytes_sent c; bytes_received := bytes_received c; segments_sent := segments_sent c;
     segments_received := segments_received c; retransmissions := x; duplicate_acks := duplicate_acks c;
     fast_retransmits := fast_retransmits c; timeouts := timeouts c;
     invalid_segments := invalid_segments c; zero_window_probes := zero_window_probes c;
     sack_blocks_received := sack_blocks_received c; sack_blocks_sent := sack_blocks_sent c;
     paws_discards := paws_discards c |}.
Definition set_duplicate_acks (x : Z) (c : TcpStats) : TcpStats :=
  {| bytes_sent := bytes_sent c; bytes_received := bytes_received c; segments_sent := segments_sent c;
     segments_received := segments_received c; retransmissions := retransmissions c;
     duplicate_acks := x; fast_retransmits := fast_retransmits c; timeouts := timeouts c;
     invalid_segments := invalid_segments c; zero_window_probes := zero_window_probes c;
     sack_blocks_received := sack_blocks_received c; sack_blocks_sent := sack_blocks_sent c;
     paws_discards := paws_discards c |}.
Definition set_fast_retransmits (x : Z) (c : TcpStats) : TcpStats :=
  {| bytes_sent := bytes_sent c; bytes_received := bytes_received c; segments_sent := segments_sent c;
     segments_received := segments_received c; retransmissions := retransmissions c;
     duplicate_acks := duplicate_acks c; fast_retransmits := x; timeouts := timeouts c;
     invalid_segments := invalid_segments c; zero_window_probes := zero_window_probes c;
     sack_blocks_received := sack_blocks_received c; sack_blocks_sent := sack_blocks_sent c;
     paws_discards := paws_discards c |}.
Definition set_timeouts (x : Z) (c : TcpStats) : TcpStats :=
  {| bytes_sent := bytes_sent c; bytes_received := bytes_received c; segments_sent := segments_sent c;
     segments_received := segments_received c; retransmissions := retransmissions c;
     duplicate_acks := duplicate_acks c; fast_retransmits := fast_retransmits c; timeouts := x;
     invalid_segments := invalid_segments c; zero_window_probes := zero_window_probes c;
     sack_blocks_received := sack_blocks_received c; sack_blocks_sent := sack_blocks_sent c;
     paws_discards := paws_discards c |}.
Definition set_invalid_segments (x : Z) (c : TcpStats) : TcpStats :=
  {| bytes_sent := bytes_sent c; bytes_received := bytes_received c; segments_sent := segments_sent c;
     segments_received := segments_received c; retransmissions := retransmissions c;
     duplicate_acks := duplicate_acks c; fast_retransmits := fast_retransmits c; timeouts := timeouts c;
     invalid_segments := x; zero_window_probes := zero_window_probes c;
     sack_blocks_received := sack_blocks_received c; sack_blocks_sent := sack_blocks_sent c;
     paws_discards := paws_discards c |}.
Definition set_zero_window_probes (x : Z) (c : TcpStats) : TcpStats :=
  {| bytes_sent := bytes_sent c; bytes_received := bytes_received c; segments_sent := segments_sent c;
     segments_received := segments_received c; retransmissions := retransmissions c;
     duplicate_acks := duplicate_acks c; fast_retransmits := fast_retransmits c; timeouts := timeouts c;
     invalid_segments := invalid_segments c; zero_window_probes := x;
     sack_blocks_received := sack_blocks_received c; sack_blocks_sent := sack_blocks_sent c;
     paws_discards := paws_discards c |}.
Definition set_sack_blocks_received (x : Z) (c : TcpStats) : TcpStats :=
  {| bytes_sent := bytes_sent c; bytes_received := bytes_received c; segments_sent := segments_sent c;
     segments_received := segments_received c; retransmissions := retransmissions c;
     duplicate_acks := duplicate_acks c; fast_retransmits := fast_retransmits c; timeouts := timeouts c;
     invalid_segments := invalid_segments c; zero_window_probes := zero_window_probes c;
     sack_blocks_received := x; sack_blocks_sent := sack_blocks_sent c;
     paws_discards := paws_discards c |}.
Definition set_sack_blocks_sent (x : Z) (c : TcpStats) : TcpStats :=
  {| bytes_sent := bytes_sent c; bytes_received := bytes_received c; segments_sent := segments_sent c;
     segments_received := segments_received c; retransmissions := retransmissions c;
     duplicate_acks := duplicate_acks c; fast_retransmits := fast_retransmits c; timeouts := timeouts c;
     invalid_segments := invalid_segments c; zero_window_probes := zero_window_probes c;
     sack_blocks_received := sack_blocks_received c; sack_blocks_sent := x;
     paws_discards := paws_discards c |}.
Definition set_paws_discards (x : Z) (c : TcpStats) : TcpStats :=
  {| bytes_sent := bytes_sent c; bytes_received := bytes_received c; segments_sent := segments_sent c;
     segments_received := segments_received c; retransmissions := retransmissions c;
     duplicate_acks := duplicate_acks c; fast_retransmits := fast_retransmits c; timeouts := timeouts c;
     invalid_segments := invalid_segments c; zero_window_probes := zero_window_probes c;
     sack_blocks_received := sack_blocks_received c; sack_blocks_sent := sack_blocks_sent c;
     paws_discards := x |}.

Definition stats_default : TcpStats :=
  {| bytes_sent := 0; bytes_received := 0; segments_sent := 0; segments_received := 0; retransmissions := 0;
     duplicate_acks := 0; fast_retransmits := 0; timeouts := 0; invalid_segments := 0; zero_window_probes := 0;
     sack_blocks_received := 0; sack_blocks_sent := 0; paws_discards := 0 |}.

Record RetransmitSegment : Type := {
  rs_seq_num : Z;
  rs_end_seq : Z;
  rs_flags : TcpFlags;
  rs_payload : bytes;
  first_sent_ms : Z;
  last_sent_ms : Z;
  retransmits : Z;
  sacked : bool;
}.

Record TcpConnection : Type := {
  local : SocketAddrV4;
  remote : SocketAddrV4;
  state : TcpState;
  snd_una : Z;
  snd_nxt : Z;
  snd_wnd : Z;
  rcv_nxt : Z;
  rcv_wnd : Z;
  rcv_capacity : Z;
  peer_mss : Z;
  local_mss : Z;
  rx_buffer : bytes;
  tx_buffer : bytes;
  ooo_queue : gmap Z bytes;
  ooo_segments : list (Z * bytes);
  retransmit_queue : list RetransmitSegment;
  congestion : CongestionControl;
  rtt : RttEstimator;
  stats : TcpStats;
  current_time_ms : Z;
  time_wait_entered_ms : option Z;
  fin_sent : bool;
  fin_received : bool;
  close_requested : bool;
  aborted : bool;
  persist_deadline_ms : option Z;
  last_advertised_wnd : Z;
  sack_permitted : bool;
  peer_sack_permitted : bool;
  ts_enabled : bool;
  ts_recent : Z;
  last_ts_ack : Z;
  last_ack_sent : Z;
}.

Definition set_local (x : SocketAddrV4) (c : TcpConnection) : TcpConnection :=
  {| local := x; remote := remote c; state := state c; snd_una := snd_una c; snd_nxt := snd_nxt c;
     snd_wnd := snd_wnd c; rcv_nxt := rcv_nxt c; rcv_wnd := rcv_wnd c; rcv_capacity := rcv_capacity c;
     peer_mss := peer_mss c; local_mss := local_mss c; rx_buffer := rx_buffer c;
     tx_buffer := tx_buffer c; ooo_queue := ooo_queue c; ooo_segments := ooo_segments c;
     retransmit_queue := retransmit_queue c; congestion := congestion c; rtt := rtt c; stats := stats c;
     current_time_ms := current_time_ms c; time_wait_entered_ms := time_wait_entered_ms c;
     fin_sent := fin_sent c; fin_received := fin_received c; close_requested := close_requested c;
     aborted := aborted c; persist_deadline_ms := persist_deadline_ms c;
     last_advertised_wnd := last_advertised_wnd c; sack_permitted := sack_permitted c;
     peer_sack_permitted := peer_sack_permitted c; ts_enabled := ts_enabled c; ts_recent := ts_recent c;
     last_ts_ack := last_ts_ack c; last_ack_sent := last_ack_sent c |}.
Definition set_remote (x : SocketAddrV4) (c : TcpConnection) : TcpConnection :=
  {| local := local c; remote := x; state := state c; snd_una := snd_una c; snd_nxt := snd_nxt c;
     snd_wnd := snd_wnd c; rcv_nxt := rcv_nxt c; rcv_wnd := rcv_wnd c; rcv_capacity := rcv_capacity c;
     peer_mss := peer_mss c; local_mss := local_mss c; rx_buffer := rx_buffer c;
     tx_buffer := tx_buffer c; ooo_queue := ooo_queue c; ooo_segments := ooo_segments c;
     retransmit_queue := retransmit_queue c; congestion := congestion c; rtt := rtt c; stats := stats c;
     current_time_ms := current_time_ms c; time_wait_entered_ms := time_wait_entered_ms c;
     fin_sent := fin_sent c; fin_received := fin_received c; close_requested := close_requested c;
     aborted := aborted c; persist_deadline_ms := persist_deadline_ms c;
     last_advertised_wnd := last_advertised_wnd c; sack_permitted := sack_permitted c;
     peer_sack_permitted := peer_sack_permitted c; ts_enabled := ts_enabled c; ts_recent := ts_recent c;
     last_ts_ack := last_ts_ack c; last_ack_sent := last_ack_sent c |}.
Definition set_state (x : TcpState) (c : TcpConnection) : TcpConnection :=
  {| local := local c; remote := remote c; state := x; snd_una := snd_una c; snd_nxt := snd_nxt c;
     snd_wnd := snd_wnd c; rcv_nxt := rcv_nxt c; rcv_wnd := rcv_wnd c; rcv_capacity := rcv_capacity c;
     peer_mss := peer_mss c; local_mss := local_mss c; rx_buffer := rx_buffer c;
     tx_buffer := tx_buffer c; ooo_queue := ooo_queue c; ooo_segments := ooo_segments c;
     retransmit_queue := retransmit_queue c; congestion := congestion c; rtt := rtt c; stats := stats c;
     current_time_ms := current_time_ms c; time_wait_entered_ms := time_wait_entered_ms c;
     fin_sent := fin_sent c; fin_received := fin_received c; close_requested := close_requested c;
     aborted := aborted c; persist_deadline_ms := persist_deadline_ms c;
     last_advertised_wnd := last_advertised_wnd c; sack_permitted := sack_permitted c;
     peer_sack_permitted := peer_sack_permitted c; ts_enabled := ts_enabled c; ts_recent := ts_recent c;
     last_ts_ack := last_ts_ack c; last_ack_sent := last_ack_sent c |}.
Definition set_snd_una (x : Z) (c : TcpConnection) : TcpConnection :=
  {| local := local c; remote := remote c; state := state c; snd_una := x; snd_nxt := snd_nxt c;
     snd_wnd := snd_wnd c; rcv_nxt := rcv_nxt c; rcv_wnd := rcv_wnd c; rcv_capacity := rcv_capacity c;
     peer_mss := peer_mss c; local_mss := local_mss c; rx_buffer := rx_buffer c;
     tx_buffer := tx_buffer c; ooo_queue := ooo_queue c; ooo_segments := ooo_segments c;
     retransmit_queue := retransmit_queue c; congestion := congestion c; rtt := rtt c; stats := stats c;
     current_time_ms := current_time_ms c; time_wait_entered_ms := time_wait_entered_ms c;
     fin_sent := fin_sent c; fin_received := fin_received c; close_requested := close_requested c;
     aborted := aborted c; persist_deadline_ms := persist_deadline_ms c;
     last_advertised_wnd := last_advertised_wnd c; sack_permitted := sack_permitted c;
     peer_sack_permitted := peer_sack_permitted c; ts_enabled := ts_enabled c; ts_recent := ts_recent c;
     last_ts_ack := last_ts_ack c; last_ack_sent := last_ack_sent c |}.
Definition set_snd_nxt (x : Z) (c : TcpConnection) : TcpConnection :=
  {| local := local c; remote := remote c; state := state c; snd_una := snd_una c; snd_nxt := x;
     snd_wnd := snd_wnd c; rcv_nxt := rcv_nxt c; rcv_wnd := rcv_wnd c; rcv_capacity := rcv_capacity c;
     peer_mss := peer_mss c; local_mss := local_mss c; rx_buffer := rx_buffer c;
     tx_buffer := tx_buffer c; ooo_queue := ooo_queue c; ooo_segments := ooo_segments c;
     retransmit_queue := retransmit_queue c; congestion := congestion c; rtt := rtt c; stats := stats c;
     current_time_ms := current_time_ms c; time_wait_entered_ms := time_wait_entered_ms c;
     fin_sent := fin_sent c; fin_received := fin_received c; close_requested := close_requested c;
     aborted := aborted c; persist_deadline_ms := persist_deadline_ms c;
     last_advertised_wnd := last_advertised_wnd c; sack_permitted := sack_permitted c;
     peer_sack_permitted := peer_sack_permitted c; ts_enabled := ts_enabled c; ts_recent := ts_recent c;
     last_ts_ack := last_ts_ack c; last_ack_sent := last_ack_sent c |}.
Definition set_snd_wnd (x : Z) (c : TcpConnection) : TcpConnection :=
  {| local := local c; remote := remote c; state := state c; snd_una := snd_una c; snd_nxt := snd_nxt c;
     snd_wnd := x; rcv_nxt := rcv_nxt c; rcv_wnd := rcv_wnd c; rcv_capacity := rcv_capacity c;
     peer_mss := peer_mss c; local_mss := local_mss c; rx_buffer := rx_buffer c;
     tx_buffer := tx_buffer c; ooo_queue := ooo_queue c; ooo_segments := ooo_segments c;
     retransmit_queue := retransmit_queue c; congestion := congestion c; rtt := rtt c; stats := stats c;
     current_time_ms := current_time_ms c; time_wait_entered_ms := time_wait_entered_ms c;
     fin_sent := fin_sent c; fin_received := fin_received c; close_requested := close_requested c;
     aborted := aborted c; persist_deadline_ms := persist_deadline_ms c;
     last_advertised_wnd := last_advertised_wnd c; sack_permitted := sack_permitted c;
     peer_sack_permitted := peer_sack_permitted c; ts_enabled := ts_enabled c; ts_recent := ts_recent c;
     last_ts_ack := last_ts_ack c; last_ack_sent := last_ack_sent c |}.
Definition set_rcv_nxt (x : Z) (c : TcpConnection) : TcpConnection :=
  {| local := local c; remote := remote c; state := state c; snd_una := snd_una c; snd_nxt := snd_nxt c;
     snd_wnd := snd_wnd c; rcv_nxt := x; rcv_wnd := rcv_wnd c; rcv_capacity := rcv_capacity c;
     peer_mss := peer_mss c; local_mss := local_mss c; rx_buffer := rx_buffer c;
     tx_buffer := tx_buffer c; ooo_queue := ooo_queue c; ooo_segments := ooo_segments c;
     retransmit_queue := retransmit_queue c; congestion := congestion c; rtt := rtt c; stats := stats c;
     current_time_ms := current_time_ms c; time_wait_entered_ms := time_wait_entered_ms c;
     fin_sent := fin_sent c; fin_received := fin_received c; close_requested := close_requested c;
     aborted := aborted c; persist_deadline_ms := persist_deadline_ms c;
     last_advertised_wnd := last_advertised_wnd c; sack_permitted := sack_permitted c;
     peer_sack_permitted := peer_sack_permitted c; ts_enabled := ts_enabled c; ts_recent := ts_recent c;
     last_ts_ack := last_ts_ack c; last_ack_sent := last_ack_sent c |}.
Definition set_rcv_wnd (x : Z) (c : TcpConnection) : TcpConnection :=
  {| local := local c; remote := remote c; state := state c; snd_una := snd_una c; snd_nxt := snd_nxt c;
     snd_wnd := snd_wnd c; rcv_nxt := rcv_nxt c; rcv_wnd := x; rcv_capacity := rcv_capacity c;
     peer_mss := peer_mss c; local_mss := local_mss c; rx_buffer := rx_buffer c;
     tx_buffer := tx_buffer c; ooo_queue := ooo_queue c; ooo_segments := ooo_segments c;
     retransmit_queue := retransmit_queue c; congestion := congestion c; rtt := rtt c; stats := stats c;
     current_time_ms := current_time_ms c; time_wait_entered_ms := time_wait_entered_ms c;
     fin_sent := fin_sent c; fin_received := fin_received c; close_requested := close_requested c;
     aborted := aborted c; persist_deadline_ms := persist_deadline_ms c;
     last_advertised_wnd := last_advertised_wnd c; sack_permitted := sack_permitted c;
     peer_sack_permitted := peer_sack_permitted c; ts_enabled := ts_enabled c; ts_recent := ts_recent c;
     last_ts_ack := last_ts_ack c; last_ack_sent := last_ack_sent c |}.
Definition set_rcv_capacity (x : Z) (c : TcpConnection) : TcpConnection :=
  {| local := local c; remote := remote c; state := state c; snd_una := snd_una c; snd_nxt := snd_nxt c;
     snd_wnd := snd_wnd c; rcv_nxt := rcv_nxt c; rcv_wnd := rcv_wnd c; rcv_capacity := x;
     peer_mss := peer_mss c; local_mss := local_mss c; rx_buffer := rx_buffer c;
     tx_buffer := tx_buffer c; ooo_queue := ooo_queue c; ooo_segments := ooo_segments c;
     retransmit_queue := retransmit_queue c; congestion := congestion c; rtt := rtt c; stats := stats c;
     current_time_ms := current_time_ms c; time_wait_entered_ms := time_wait_entered_ms c;
     fin_sent := fin_sent c; fin_received := fin_received c; close_requested := close_requested c;
     aborted := aborted c; persist_deadline_ms := persist_deadline_ms c;
     last_advertised_wnd := last_advertised_wnd c; sack_permitted := sack_permitted c;
     peer_sack_permitted := peer_sack_permitted c; ts_enabled := ts_enabled c; ts_recent := ts_recent c;
     last_ts_ack := last_ts_ack c; last_ack_sent := last_ack_sent c |}.
Definition set_peer_mss (x : Z) (c : TcpConnection) : TcpConnection :=
  {| local := local c; remote := remote c; state := state c; snd_una := snd_una c; snd_nxt := snd_nxt c;
     snd_wnd := snd_wnd c; rcv_nxt := rcv_nxt c; rcv_wnd := rcv_wnd c; rcv_capacity := rcv_capacity c;
     peer_mss := x; local_mss := local_mss c; rx_buffer := rx_buffer c; tx_buffer := tx_buffer c;
     ooo_queue := ooo_queue c; ooo_segments := ooo_segments c; retransmit_queue := retransmit_queue c;
     congestion := congestion c; rtt := rtt c; stats := stats c; current_time_ms := current_time_ms c;
     time_wait_entered_ms := time_wait_entered_ms c; fin_sent := fin_sent c;
     fin_received := fin_received c; close_requested := close_requested c; aborted := aborted c;
     persist_deadline_ms := persist_deadline_ms c; last_advertised_wnd := last_advertised_wnd c;
     sack_permitted := sack_permitted c; peer_sack_permitted := peer_sack_permitted c;
     ts_enabled := ts_enabled c; ts_recent := ts_recent c; last_ts_ack := last_ts_ack c;
     last_ack_sent := last_ack_sent c |}.
Definition set_local_mss (x : Z) (c : TcpConnection) : TcpConnection :=
  {| local := local c; remote := remote c; state := state c; snd_una := snd_una c; snd_nxt := snd_nxt c;
     snd_wnd := snd_wnd c; rcv_nxt := rcv_nxt c; rcv_wnd := rcv_wnd c; rcv_capacity := rcv_capacity c;
     peer_mss := peer_mss c; local_mss := x; rx_buffer := rx_buffer c; tx_buffer := tx_buffer c;
     ooo_queue := ooo_queue c; ooo_segments := ooo_segments c; retransmit_queue := retransmit_queue c;
     congestion := congestion c; rtt := rtt c; stats := stats c; current_time_ms := current_time_ms c;
     time_wait_entered_ms := time_wait_entered_ms c; fin_sent := fin_sent c;
     fin_received := fin_received c; close_requested := close_requested c; aborted := aborted c;
     persist_deadline_ms := persist_deadline_ms c; last_advertised_wnd := last_advertised_wnd c;
     sack_permitted := sack_permitted c; peer_sack_permitted := peer_sack_permitted c;
     ts_enabled := ts_enabled c; ts_recent := ts_recent c; last_ts_ack := last_ts_ack c;
     last_ack_sent := last_ack_sent c |}.
Definition set_rx_buffer (x : bytes) (c : TcpConnection) : TcpConnection :=
  {| local := local c; remote := remote c; state := state c; snd_una := snd_una c; snd_nxt := snd_nxt c;
     snd_wnd := snd_wnd c; rcv_nxt := rcv_nxt c; rcv_wnd := rcv_wnd c; rcv_capacity := rcv_capacity c;
     peer_mss := peer_mss c; local_mss := local_mss c; rx_buffer := x; tx_buffer := tx_buffer c;
     ooo_queue := ooo_queue c; ooo_segments := ooo_segments c; retransmit_queue := retransmit_queue c;
     congestion := congestion c; rtt := rtt c; stats := stats c; current_time_ms := current_time_ms c;
     time_wait_entered_ms := time_wait_entered_ms c; fin_sent := fin_sent c;
     fin_received := fin_received c; close_requested := close_requested c; aborted := aborted c;
     persist_deadline_ms := persist_deadline_ms c; last_advertised_wnd := last_advertised_wnd c;
     sack_permitted := sack_permitted c; peer_sack_permitted := peer_sack_permitted c;
     ts_enabled := ts_enabled c; ts_recent := ts_recent c; last_ts_ack := last_ts_ack c;
     last_ack_sent := last_ack_sent c |}.
Definition set_tx_buffer (x : bytes) (c : TcpConnection) : TcpConnection :=
  {| local := local c; remote := remote c; state := state c; snd_una := snd_una c; snd_nxt := snd_nxt c;
     snd_wnd := snd_wnd c; rcv_nxt := rcv_nxt c; rcv_wnd := rcv_wnd c; rcv_capacity := rcv_capacity c;
     peer_mss := peer_mss c; local_mss := local_mss c; rx_buffer := rx_buffer c; tx_buffer := x;
     ooo_queue := ooo_queue c; ooo_segments := ooo_segments c; retransmit_queue := retransmit_queue c;
     congestion := congestion c; rtt := rtt c; stats := stats c; current_time_ms := current_time_ms c;
     time_wait_entered_ms := time_wait_entered_ms c; fin_sent := fin_sent c;
     fin_received := fin_received c; close_requested := close_requested c; aborted := aborted c;
     persist_deadline_ms := persist_deadline_ms c; last_advertised_wnd := last_advertised_wnd c;
     sack_permitted := sack_permitted c; peer_sack_permitted := peer_sack_permitted c;
     ts_enabled := ts_enabled c; ts_recent := ts_recent c; last_ts_ack := last_ts_ack c;
     last_ack_sent := last_ack_sent c |}.
Definition set_ooo_queue (x : gmap Z bytes) (c : TcpConnection) : TcpConnection :=
  {| local := local c; remote := remote c; state := state c; snd_una := snd_una c; snd_nxt := snd_nxt c;
     snd_wnd := snd_wnd c; rcv_nxt := rcv_nxt c; rcv_wnd := rcv_wnd c; rcv_capacity := rcv_capacity c;
     peer_mss := peer_mss c; local_mss := local_mss c; rx_buffer := rx_buffer c;
     tx_buffer := tx_buffer c; ooo_queue := x; ooo_segments := ooo_segments c;
     retransmit_queue := retransmit_queue c; congestion := congestion c; rtt := rtt c; stats := stats c;
     current_time_ms := current_time_ms c; time_wait_entered_ms := time_wait_entered_ms c;
     fin_sent := fin_sent c; fin_received := fin_received c; close_requested := close_requested c;
     aborted := aborted c; persist_deadline_ms := persist_deadline_ms c;
     last_advertised_wnd := last_advertised_wnd c; sack_permitted := sack_permitted c;
     peer_sack_permitted := peer_sack_permitted c; ts_enabled := ts_enabled c; ts_recent := ts_recent c;
     last_ts_ack := last_ts_ack c; last_ack_sent := last_ack_sent c |}.
Definition set_ooo_segments (x : list (Z * bytes)) (c : TcpConnection) : TcpConnection :=
  {| local := local c; remote := remote c; state := state c; snd_una := snd_una c; snd_nxt := snd_nxt c;
     snd_wnd := snd_wnd c; rcv_nxt := rcv_nxt c; rcv_wnd := rcv_wnd c; rcv_capacity := rcv_capacity c;
     peer_mss := peer_mss c; local_mss := local_mss c; rx_buffer := rx_buffer c;
     tx_buffer := tx_buffer c; ooo_queue := ooo_queue c; ooo_segments := x;
     retransmit_queue := retransmit_queue c; congestion := congestion c; rtt := rtt c; stats := stats c;
     current_time_ms := current_time_ms c; time_wait_entered_ms := time_wait_entered_ms c;
     fin_sent := fin_sent c; fin_received := fin_received c; close_requested := close_requested c;
     aborted := aborted c; persist_deadline_ms := persist_deadline_ms c;
     last_advertised_wnd := last_advertised_wnd c; sack_permitted := sack_permitted c;
     peer_sack_permitted := peer_sack_permitted c; ts_enabled := ts_enabled c; ts_recent := ts_recent c;
     last_ts_ack := last_ts_ack c; last_ack_sent := last_ack_sent c |}.
Definition set_retransmit_queue (x : list RetransmitSegment) (c : TcpConnection) : TcpConnection :=
  {| local := local c; remote := remote c; state := state c; snd_una := snd_una c; snd_nxt := snd_nxt c;
     snd_wnd := snd_wnd c; rcv_nxt := rcv_nxt c; rcv_wnd := rcv_wnd c; rcv_capacity := rcv_capacity c;
     peer_mss := peer_mss c; local_mss := local_mss c; rx_buffer := rx_buffer c;
     tx_buffer := tx_buffer c; ooo_queue := ooo_queue c; ooo_segments := ooo_segments c;
     retransmit_queue := x; congestion := congestion c; rtt := rtt c; stats := stats c;
     current_time_ms := current_time_ms c; time_wait_entered_ms := time_wait_entered_ms c;
     fin_sent := fin_sent c; fin_received := fin_received c; close_requested := close_requested c;
     aborted := aborted c; persist_deadline_ms := persist_deadline_ms c;
     last_advertised_wnd := last_advertised_wnd c; sack_permitted := sack_permitted c;
     peer_sack_permitted := peer_sack_permitted c; ts_enabled := ts_enabled c; ts_recent := ts_recent c;
     last_ts_ack := last_ts_ack c; last_ack_sent := last_ack_sent c |}.
Definition set_congestion (x : CongestionControl) (c : TcpConnection) : TcpConnection :=
  {| local := local c; remote := remote c; state := state c; snd_una := snd_una c; snd_nxt := snd_nxt c;
     snd_wnd := snd_wnd c; rcv_nxt := rcv_nxt c; rcv_wnd := rcv_wnd c; rcv_capacity := rcv_capacity c;
     peer_mss := peer_mss c; local_mss := local_mss c; rx_buffer := rx_buffer c;
     tx_buffer := tx_buffer c; ooo_queue := ooo_queue c; ooo_segments := ooo_segments c;
     retransmit_queue := retransmit_queue c; congestion := x; rtt := rtt c; stats := stats c;
     current_time_ms := current_time_ms c; time_wait_entered_ms := time_wait_entered_ms c;
     fin_sent := fin_sent c; fin_received := fin_received c; close_requested := close_requested c;
     aborted := aborted c; persist_deadline_ms := persist_deadline_ms c;
     last_advertised_wnd := last_advertised_wnd c; sack_permitted := sack_permitted c;
     peer_sack_permitted := peer_sack_permitted c; ts_enabled := ts_enabled c; ts_recent := ts_recent c;
     last_ts_ack := last_ts_ack c; last_ack_sent := last_ack_sent c |}.
Definition set_rtt (x : RttEstimator) (c : TcpConnection) : TcpConnection :=
  {| local := local c; remote := remote c; state := state c; snd_una := snd_una c; snd_nxt := snd_nxt c;
     snd_wnd := snd_wnd c; rcv_nxt := rcv_nxt c; rcv_wnd := rcv_wnd c; rcv_capacity := rcv_capacity c;
     peer_mss := peer_mss c; local_mss := local_mss c; rx_buffer := rx_buffer c;
     tx_buffer := tx_buffer c; ooo_queue := ooo_queue c; ooo_segments := ooo_segments c;
     retransmit_queue := retransmit_queue c; congestion := congestion c; rtt := x; stats := stats c;
     current_time_ms := current_time_ms c; time_wait_entered_ms := time_wait_entered_ms c;
     fin_sent := fin_sent c; fin_received := fin_received c; close_requested := close_requested c;
     aborted := aborted c; persist_deadline_ms := persist_deadline_ms c;
     last_advertised_wnd := last_advertised_wnd c; sack_permitted := sack_permitted c;
     peer_sack_permitted := peer_sack_permitted c; ts_enabled := ts_enabled c; ts_recent := ts_recent c;
     last_ts_ack := last_ts_ack c; last_ack_sent := last_ack_sent c |}.
Definition set_stats (x : TcpStats) (c : TcpConnection) : TcpConnection :=
  {| local := local c; remote := remote c; state := state c; snd_una := snd_una c; snd_nxt := snd_nxt c;
     snd_wnd := snd_wnd c; rcv_nxt := rcv_nxt c; rcv_wnd := rcv_wnd c; rcv_capacity := rcv_capacity c;
     peer_mss := peer_mss c; local_mss := local_mss c; rx_buffer := rx_buffer c;
     tx_buffer := tx_buffer c; ooo_queue := ooo_queue c; ooo_segments := ooo_segments c;
     retransmit_queue := retransmit_queue c; congestion := congestion c; rtt := rtt c; stats := x;
     current_time_ms := current_time_ms c; time_wait_entered_ms := time_wait_entered_ms c;
     fin_sent := fin_sent c; fin_received := fin_received c; close_requested := close_requested c;
     aborted := aborted c; persist_deadline_ms := persist_deadline_ms c;
     last_advertised_wnd := last_advertised_wnd c; sack_permitted := sack_permitted c;
     peer_sack_permitted := peer_sack_permitted c; ts_enabled := ts_enabled c; ts_recent := ts_recent c;
     last_ts_ack := last_ts_ack c; last_ack_sent := last_ack_sent c |}.
Definition set_current_time_ms (x : Z) (c : TcpConnection) : TcpConnection :=
  {| local := local c; remote := remote c; state := state c; snd_una := snd_una c; snd_nxt := snd_nxt c;
     snd_wnd := snd_wnd c; rcv_nxt := rcv_nxt c; rcv_wnd := rcv_wnd c; rcv_capacity := rcv_capacity c;
     peer_mss := peer_mss c; local_mss := local_mss c; rx_buffer := rx_buffer c;
     tx_buffer := tx_buffer c; ooo_queue := ooo_queue c; ooo_segments := ooo_segments c;
     retransmit_queue := retransmit_queue c; congestion := congestion c; rtt := rtt c; stats := stats c;
     current_time_ms := x; time_wait_entered_ms := time_wait_entered_ms c; fin_sent := fin_sent c;
     fin_received := fin_received c; close_requested := close_requested c; aborted := aborted c;
     persist_deadline_ms := persist_deadline_ms c; last_advertised_wnd := last_advertised_wnd c;
     sack_permitted := sack_permitted c; peer_sack_permitted := peer_sack_permitted c;
     ts_enabled := ts_enabled c; ts_recent := ts_recent c; last_ts_ack := last_ts_ack c;
     last_ack_sent := last_ack_sent c |}.
Definition set_time_wait_entered_ms (x : option Z) (c : TcpConnection) : TcpConnection :=
  {| local := local c; remote := remote c; state := state c; snd_una := snd_una c; snd_nxt := snd_nxt c;
     snd_wnd := snd_wnd c; rcv_nxt := rcv_nxt c; rcv_wnd := rcv_wnd c; rcv_capacity := rcv_capacity c;
     peer_mss := peer_mss c; local_mss := local_mss c; rx_buffer := rx_buffer c;
     tx_buffer := tx_buffer c; ooo_queue := ooo_queue c; ooo_segments := ooo_segments c;
     retransmit_queue := retransmit_queue c; congestion := congestion c; rtt := rtt c; stats := stats c;
     current_time_ms := current_time_ms c; time_wait_entered_ms := x; fin_sent := fin_sent c;
     fin_received := fin_received c; close_requested := close_requested c; aborted := aborted c;
     persist_deadline_ms := persist_deadline_ms c; last_advertised_wnd := last_advertised_wnd c;
     sack_permitted := sack_permitted c; peer_sack_permitted := peer_sack_permitted c;
     ts_enabled := ts_enabled c; ts_recent := ts_recent c; last_ts_ack := last_ts_ack c;
     last_ack_sent := last_ack_sent c |}.
Definition set_fin_sent (x : bool) (c : TcpConnection) : TcpConnection :=
  {| local := local c; remote := remote c; state := state c; snd_una := snd_una c; snd_nxt := snd_nxt c;
     snd_wnd := snd_wnd c; rcv_nxt := rcv_nxt c; rcv_wnd := rcv_wnd c; rcv_capacity := rcv_capacity c;
     peer_mss := peer_mss c; local_mss := local_mss c; rx_buffer := rx_buffer c;
     tx_buffer := tx_buffer c; ooo_queue := ooo_queue c; ooo_segments := ooo_segments c;
     retransmit_queue := retransmit_queue c; congestion := congestion c; rtt := rtt c; stats := stats c;
     current_time_ms := current_time_ms c; time_wait_entered_ms := time_wait_entered_ms c;
     fin_sent := x; fin_received := fin_received c; close_requested := close_requested c;
     aborted := aborted c; persist_deadline_ms := persist_deadline_ms c;
     last_advertised_wnd := last_advertised_wnd c; sack_permitted := sack_permitted c;
     peer_sack_permitted := peer_sack_permitted c; ts_enabled := ts_enabled c; ts_recent := ts_recent c;
     last_ts_ack := last_ts_ack c; last_ack_sent := last_ack_sent c |}.
Definition set_fin_received (x : bool) (c : TcpConnection) : TcpConnection :=
  {| local := local c; remote := remote c; state := state c; snd_una := snd_una c; snd_nxt := snd_nxt c;
     snd_wnd := snd_wnd c; rcv_nxt := rcv_nxt c; rcv_wnd := rcv_wnd c; rcv_capacity := rcv_capacity c;
     peer_mss := peer_mss c; local_mss := local_mss c; rx_buffer := rx_buffer c;
     tx_buffer := tx_buffer c; ooo_queue := ooo_queue c; ooo_segments := ooo_segments c;
     retransmit_queue := retransmit_queue c; congestion := congestion c; rtt := rtt c; stats := stats c;
     current_time_ms := current_time_ms c; time_wait_entered_ms := time_wait_entered_ms c;
     fin_sent := fin_sent c; fin_received := x; close_requested := close_requested c;
     aborted := aborted c; persist_deadline_ms := persist_deadline_ms c;
     last_advertised_wnd := last_advertised_wnd c; sack_permitted := sack_permitted c;
     peer_sack_permitted := peer_sack_permitted c; ts_enabled := ts_enabled c; ts_recent := ts_recent c;
     last_ts_ack := last_ts_ack c; last_ack_sent := last_ack_sent c |}.
Definition set_close_requested (x : bool) (c : TcpConnection) : TcpConnection :=
  {| local := local c; remote := remote c; state := state c; snd_una := snd_una c; snd_nxt := snd_nxt c;
     snd_wnd := snd_wnd c; rcv_nxt := rcv_nxt c; rcv_wnd := rcv_wnd c; rcv_capacity := rcv_capacity c;
     peer_mss := peer_mss c; local_mss := local_mss c; rx_buffer := rx_buffer c;
     tx_buffer := tx_buffer c; ooo_queue := ooo_queue c; ooo_segments := ooo_segments c;
     retransmit_queue := retransmit_queue c; congestion := congestion c; rtt := rtt c; stats := stats c;
     current_time_ms := current_time_ms c; time_wait_entered_ms := time_wait_entered_ms c;
     fin_sent := fin_sent c; fin_received := fin_received c; close_requested := x; aborted := aborted c;
     persist_deadline_ms := persist_deadline_ms c; last_advertised_wnd := last_advertised_wnd c;
     sack_permitted := sack_permitted c; peer_sack_permitted := peer_sack_permitted c;
     ts_enabled := ts_enabled c; ts_recent := ts_recent c; last_ts_ack := last_ts_ack c;
     last_ack_sent := last_ack_sent c |}.
Definition set_aborted (x : bool) (c : TcpConnection) : TcpConnection :=
  {| local := local c; remote := remote c; state := state c; snd_una := snd_una c; snd_nxt := snd_nxt c;
     snd_wnd := snd_wnd c; rcv_nxt := rcv_nxt c; rcv_wnd := rcv_wnd c; rcv_capacity := rcv_capacity c;
     peer_mss := peer_mss c; local_mss := local_mss c; rx_buffer := rx_buffer c;
     tx_buffer := tx_buffer c; ooo_queue := ooo_queue c; ooo_segments := ooo_segments c;
     retransmit_queue := retransmit_queue c; congestion := congestion c; rtt := rtt c; stats := stats c;
     current_time_ms := current_time_ms c; time_wait_entered_ms := time_wait_entered_ms c;
     fin_sent := fin_sent c; fin_received := fin_received c; close_requested := close_requested c;
     aborted := x; persist_deadline_ms := persist_deadline_ms c;
     last_advertised_wnd := last_advertised_wnd c; sack_permitted := sack_permitted c;
     peer_sack_permitted := peer_sack_permitted c; ts_enabled := ts_enabled c; ts_recent := ts_recent c;
     last_ts_ack := last_ts_ack c; last_ack_sent := last_ack_sent c |}.
Definition set_persist_deadline_ms (x : option Z) (c : TcpConnection) : TcpConnection :=
  {| local := local c; remote := remote c; state := state c; snd_una := snd_una c; snd_nxt := snd_nxt c;
     snd_wnd := snd_wnd c; rcv_nxt := rcv_nxt c; rcv_wnd := rcv_wnd c; rcv_capacity := rcv_capacity c;
     peer_mss := peer_mss c; local_mss := local_mss c; rx_buffer := rx_buffer c;
     tx_buffer := tx_buffer c; ooo_queue := ooo_queue c; ooo_segments := ooo_segments c;
     retransmit_queue := retransmit_queue c; congestion := congestion c; rtt := rtt c; stats := stats c;
     current_time_ms := current_time_ms c; time_wait_entered_ms := time_wait_entered_ms c;
     fin_sent := fin_sent c; fin_received := fin_received c; close_requested := close_requested c;
     aborted := aborted c; persist_deadline_ms := x; last_advertised_wnd := last_advertised_wnd c;
     sack_permitted := sack_permitted c; peer_sack_permitted := peer_sack_permitted c;
     ts_enabled := ts_enabled c; ts_recent := ts_recent c; last_ts_ack := last_ts_ack c;
     last_ack_sent := last_ack_sent c |}.
Definition set_last_advertised_wnd (x : Z) (c : TcpConnection) : TcpConnection :=
  {| local := local c; remote := remote c; state := state c; snd_una := snd_una c; snd_nxt := snd_nxt c;
     snd_wnd := snd_wnd c; rcv_nxt := rcv_nxt c; rcv_wnd := rcv_wnd c; rcv_capacity := rcv_capacity c;
     peer_mss := peer_mss c; local_mss := local_mss c; rx_buffer := rx_buffer c;
     tx_buffer := tx_buffer c; ooo_queue := ooo_queue c; ooo_segments := ooo_segments c;
     retransmit_queue := retransmit_queue c; congestion := congestion c; rtt := rtt c; stats := stats c;
     current_time_ms := current_time_ms c; time_wait_entered_ms := time_wait_entered_ms c;
     fin_sent := fin_sent c; fin_received := fin_received c; close_requested := close_requested c;
     aborted := aborted c; persist_deadline_ms := persist_deadline_ms c; last_advertised_wnd := x;
     sack_permitted := sack_permitted c; peer_sack_permitted := peer_sack_permitted c;
     ts_enabled := ts_enabled c; ts_recent := ts_recent c; last_ts_ack := last_ts_ack c;
     last_ack_sent := last_ack_sent c |}.
Definition set_sack_permitted (x : bool) (c : TcpConnection) : TcpConnection :=
  {| local := local c; remote := remote c; state := state c; snd_una := snd_una c; snd_nxt := snd_nxt c;
     snd_wnd := snd_wnd c; rcv_nxt := rcv_nxt c; rcv_wnd := rcv_wnd c; rcv_capacity := rcv_capacity c;
     peer_mss := peer_mss c; local_mss := local_mss c; rx_buffer := rx_buffer c;
     tx_buffer := tx_buffer c; ooo_queue := ooo_queue c; ooo_segments := ooo_segments c;
     retransmit_queue := retransmit_queue c; congestion := congestion c; rtt := rtt c; stats := stats c;
     current_time_ms := current_time_ms c; time_wait_entered_ms := time_wait_entered_ms c;
     fin_sent := fin_sent c; fin_received := fin_received c; close_requested := close_requested c;
     aborted := aborted c; persist_deadline_ms := persist_deadline_ms c;
     last_advertised_wnd := last_advertised_wnd c; sack_permitted := x;
     peer_sack_permitted := peer_sack_permitted c; ts_enabled := ts_enabled c; ts_recent := ts_recent c;
     last_ts_ack := last_ts_ack c; last_ack_sent := last_ack_sent c |}.
Definition set_peer_sack_permitted (x : bool) (c : TcpConnection) : TcpConnection :=
  {| local := local c; remote := remote c; state := state c; snd_una := snd_una c; snd_nxt := snd_nxt c;
     snd_wnd := snd_wnd c; rcv_nxt := rcv_nxt c; rcv_wnd := rcv_wnd c; rcv_capacity := rcv_capacity c;
     peer_mss := peer_mss c; local_mss := local_mss c; rx_buffer := rx_buffer c;
     tx_buffer := tx_buffer c; ooo_queue := ooo_queue c; ooo_segments := ooo_segments c;
     retransmit_queue := retransmit_queue c; congestion := congestion c; rtt := rtt c; stats := stats c;
     current_time_ms := current_time_ms c; time_wait_entered_ms := time_wait_entered_ms c;
     fin_sent := fin_sent c; fin_received := fin_received c; close_requested := close_requested c;
     aborted := aborted c; persist_deadline_ms := persist_deadline_ms c;
     last_advertised_wnd := last_advertised_wnd c; sack_permitted := sack_permitted c;
     peer_sack_permitted := x; ts_enabled := ts_enabled c; ts_recent := ts_recent c;
     last_ts_ack := last_ts_ack c; last_ack_sent := last_ack_sent c |}.
Definition set_ts_enabled (x : bool) (c : TcpConnection) : TcpConnection :=
  {| local := local c; remote := remote c; state := state c; snd_una := snd_una c; snd_nxt := snd_nxt c;
     snd_wnd := snd_wnd c; rcv_nxt := rcv_nxt c; rcv_wnd := rcv_wnd c; rcv_capacity := rcv_capacity c;
     peer_mss := peer_mss c; local_mss := local_mss c; rx_buffer := rx_buffer c;
     tx_buffer := tx_buffer c; ooo_queue := ooo_queue c; ooo_segments := ooo_segments c;
     retransmit_queue := retransmit_queue c; congestion := congestion c; rtt := rtt c; stats := stats c;
     current_time_ms := current_time_ms c; time_wait_entered_ms := time_wait_entered_ms c;
     fin_sent := fin_sent c; fin_received := fin_received c; close_requested := close_requested c;
     aborted := aborted c; persist_deadline_ms := persist_deadline_ms c;
     last_advertised_wnd := last_advertised_wnd c; sack_permitted := sack_permitted c;
     peer_sack_permitted := peer_sack_permitted c; ts_enabled := x; ts_recent := ts_recent c;
     last_ts_ack := last_ts_ack c; last_ack_sent := last_ack_sent c |}.
Definition set_ts_recent (x : Z) (c : TcpConnection) : TcpConnection :=
  {| local := local c; remote := remote c; state := state c; snd_una := snd_una c; snd_nxt := snd_nxt c;
     snd_wnd := snd_wnd c; rcv_nxt := rcv_nxt c; rcv_wnd := rcv_wnd c; rcv_capacity := rcv_capacity c;
     peer_mss := peer_mss c; local_mss := local_mss c; rx_buffer := rx_buffer c;
     tx_buffer := tx_buffer c; ooo_queue := ooo_queue c; ooo_segments := ooo_segments c;
     retransmit_queue := retransmit_queue c; congestion := congestion c; rtt := rtt c; stats := stats c;
     current_time_ms := current_time_ms c; time_wait_entered_ms := time_wait_entered_ms c;
     fin_sent := fin_sent c; fin_received := fin_received c; close_requested := close_requested c;
     aborted := aborted c; persist_deadline_ms := persist_deadline_ms c;
     last_advertised_wnd := last_advertised_wnd c; sack_permitted := sack_permitted c;
     peer_sack_permitted := peer_sack_permitted c; ts_enabled := ts_enabled c; ts_recent := x;
     last_ts_ack := last_ts_ack c; last_ack_sent := last_ack_sent c |}.
Definition set_last_ts_ack (x : Z) (c : TcpConnection) : TcpConnection :=
  {| local := local c; remote := remote c; state := state c; snd_una := snd_una c; snd_nxt := snd_nxt c;
     snd_wnd := snd_wnd c; rcv_nxt := rcv_nxt c; rcv_wnd := rcv_wnd c; rcv_capacity := rcv_capacity c;
     peer_mss := peer_mss c; local_mss := local_mss c; rx_buffer := rx_buffer c;
     tx_buffer := tx_buffer c; ooo_queue := ooo_queue c; ooo_segments := ooo_segments c;
     retransmit_queue := retransmit_queue c; congestion := congestion c; rtt := rtt c; stats := stats c;
     current_time_ms := current_time_ms c; time_wait_entered_ms := time_wait_entered_ms c;
     fin_sent := fin_sent c; fin_received := fin_received c; close_requested := close_requested c;
     aborted := aborted c; persist_deadline_ms := persist_deadline_ms c;
     last_advertised_wnd := last_advertised_wnd c; sack_permitted := sack_permitted c;
     peer_sack_permitted := peer_sack_permitted c; ts_enabled := ts_enabled c; ts_recent := ts_recent c;
     last_ts_ack := x; last_ack_sent := last_ack_sent c |}.
Definition set_last_ack_sent (x : Z) (c : TcpConnection) : TcpConnection :=
  {| local := local c; remote := remote c; state := state c; snd_una := snd_una c; snd_nxt := snd_nxt c;
     snd_wnd := snd_wnd c; rcv_nxt := rcv_nxt c; rcv_wnd := rcv_wnd c; rcv_capacity := rcv_capacity c;
     peer_mss := peer_mss c; local_mss := local_mss c; rx_buffer := rx_buffer c;
     tx_buffer := tx_buffer c; ooo_queue := ooo_queue c; ooo_segments := ooo_segments c;
     retransmit_queue := retransmit_queue c; congestion := congestion c; rtt := rtt c; stats := stats c;
     current_time_ms := current_time_ms c; time_wait_entered_ms := time_wait_entered_ms c;
     fin_sent := fin_sent c; fin_received := fin_received c; close_requested := close_requested c;
     aborted := aborted c; persist_deadline_ms := persist_deadline_ms c;
     last_advertised_wnd := last_advertised_wnd c; sack_permitted := sack_permitted c;
     peer_sack_permitted := peer_sack_permitted c; ts_enabled := ts_enabled c; ts_recent := ts_recent c;
     last_ts_ack := last_ts_ack c; last_ack_sent := x |}.

(** The struct both constructors build. *)
Definition initial (st : TcpState) (l r : SocketAddrV4) (isn mss : Z) (cc : CongestionControl) : TcpConnection :=
  {| local := l; remote := r; state := st; snd_una := isn; snd_nxt := isn; snd_wnd := 65535;
     rcv_nxt := 0; rcv_wnd := 65535; rcv_capacity := 65535; peer_mss := mss; local_mss := mss;
     rx_buffer := []; tx_buffer := []; ooo_queue := ∅; ooo_segments := []; retransmit_queue := [];
     congestion := cc; rtt := rtt_new; stats := stats_default; current_time_ms := 0;
     time_wait_entered_ms := None; fin_sent := false; fin_received := false; close_requested := false;
     aborted := false; persist_deadline_ms := None; last_advertised_wnd := 65535;
     sack_permitted := false; peer_sack_permitted := false; ts_enabled := false; ts_recent := 0;
     last_ts_ack := 0; last_ack_sent := 0 |}.

Definition new_server {E} (l r : SocketAddrV4) (isn : Z) : outcome E TcpConnection :=
  let mss := 1460 in
  let? cc := congestion_new mss in
  Ok (initial Listen l r isn mss cc).

Definition new_client {E} (l r : SocketAddrV4) (isn : Z) : outcome E TcpConnection :=
  let mss := 1460 in
  let? cc := congestion_new mss in
  Ok (initial Closed l r isn mss cc).

(** A method on [&mut self] that returns no error. *)
Abbreviation TM := (ST Empty_set TcpConnection).

(** [self.stats.<field> += n] *)
Definition count (get : TcpStats -> Z) (set : Z -> TcpStats -> TcpStats) (n : Z) : TM unit := fun c =>
  match add_u64 (get (stats c)) n with
  | Ok x => (Ok tt, set_stats (set x (stats c)) c)
  | Err e => (Err e, c)
  | Panic => (Panic, c)
  end.

(** [self.<field> = f(self.<field>)] for an [f] that may panic *)
Definition iupdate {A} (get : TcpConnection -> A) (set : A -> TcpConnection -> TcpConnection)
    (f : A -> outcome Empty_set A) : TM unit := fun c =>
  match f (get c) with
  | Ok x => (Ok tt, set x c)
  | Err e => (Err e, c)
  | Panic => (Panic, c)
  end.
