(* ===== verification/TcpConnection.v ===== *)
(** * TCP connections: operations ([tcp.rs], [impl TcpConnection])

    Receiving (window, trimming, out-of-order queue, SACK blocks), sending
    (segmentation, retransmission, window probes) and the state machine, each
    method a state transformer on the connection. *)

From S2P Require Import Prelude Bytes NetBytes TcpSeq Checksum Ipv4 TcpSegment Float64 Congestion TcpState.

(** ** The receive side *)

(** The lengths of live vectors add up without overflow. *)
Definition segs_bytes (segs : list (Z * bytes)) : Z := foldl (fun n s => n + zlen s.2) 0 segs.
Definition ooo_bytes (c : TcpConnection) : Z := segs_bytes (ooo_segments c).

Definition sync_legacy_ooo_view : TM unit :=
  iset (fun c => set_ooo_queue (foldl (fun m s => <[s.1 := s.2]> m) ∅ (ooo_segments c)) c).

Definition current_rcv_wnd (c : TcpConnection) : Z :=
  let avail := saturating_sub (rcv_capacity c) (zlen (rx_buffer c)) in
  as_u16 (Z.min avail 65535).

(** The sequence number after a segment. *)
Definition seg_end_of (s : Z * bytes) : Z := wrapping_add_u32 s.1 (as_u32 (zlen s.2)).

(** [sort_by] with the comparator [seq_lt]. [sort_by] may panic when its
    comparator is not a total order, and wrapping sequence numbers are not
    ordered in general: unless the segments can be arranged so that each comes
    before every later one and none of the later ones before it, the model
    panics. *)
Fixpoint insert_by_seq (x : Z * bytes) (l : list (Z * bytes)) : list (Z * bytes) :=
  match l with
  | [] => [x]
  | y :: l' => if seq_lt x.1 y.1 then x :: l else y :: insert_by_seq x l'
  end.
Fixpoint strictly_sorted (l : list (Z * bytes)) : bool :=
  match l with
  | [] => true
  | x :: l' => forallb (fun y => seq_lt x.1 y.1 && negb (seq_lt y.1 x.1)) l' && strictly_sorted l'
  end.
Definition sort_by_seq {E} (l : list (Z * bytes)) : outcome E (list (Z * bytes)) :=
  let sorted := foldl (fun acc x => insert_by_seq x acc) [] l in
  if strictly_sorted sorted then Ok sorted else Panic.

Definition buffer_ooo (seq : Z) (payload : bytes) : TM unit :=
  let seg_end := wrapping_add_u32 seq (as_u32 (zlen payload)) in
  let! segs := iget ooo_segments in
  if existsb (fun s => seq_le s.1 seq && seq_le seg_end (seg_end_of s)) segs then iret tt else
  do! iset (fun c => set_ooo_segments
              (filter (fun s => negb (seq_le seq s.1 && seq_le (seg_end_of s) seg_end)) (ooo_segments c)) c) in
  let! queued := iget ooo_bytes in
  if MAX_OOO_BYTES <? queued + zlen payload then iret tt else
  let! segs := iget ooo_segments in
  let! sorted := ilift (sort_by_seq (segs ++ [(seq, payload)])) in
  iset (set_ooo_segments sorted).

(** [self.rx_buffer.extend_from_slice(data)] with the two counters behind it *)
Definition deliver (data : bytes) : TM unit :=
  do! iset (fun c => set_rx_buffer (rx_buffer c ++ data) c) in
  do! iset (fun c => set_rcv_nxt (wrapping_add_u32 (rcv_nxt c) (as_u32 (zlen data))) c) in
  count bytes_received set_bytes_received (zlen data).

(** The inner [while]: whether it advanced, and the segments it left. *)
Fixpoint drain_pass (segs : list (Z * bytes)) : TM (bool * list (Z * bytes)) :=
  match segs with
  | [] => iret (false, [])
  | s :: rest =>
      let! nxt := iget rcv_nxt in
      if seq_le (seg_end_of s) nxt then
        let! (_, kept) := drain_pass rest in iret (true, kept)
      else if seq_le s.1 nxt then
        let offset := seq_diff nxt s.1 in
        let! fresh := ilift (slice_from s.2 offset) in
        do! deliver fresh in
        let! (_, kept) := drain_pass rest in iret (true, kept)
      else
        let! (advanced, kept) := drain_pass rest in iret (advanced, s :: kept)
  end.

(** [loop { .. if !advanced { break } }]: a round that advances removes a segment. *)
Fixpoint drain_loop (fuel : nat) : TM unit :=
  let! segs := iget ooo_segments in
  let! (advanced, kept) := drain_pass segs in
  do! iset (set_ooo_segments kept) in
  if advanced then
    match fuel with
    | O => ilift Panic
    | S fuel' => drain_loop fuel'
    end
  else iret tt.

Definition drain_ooo : TM unit := fun c => drain_loop (length (ooo_segments c)) c.

Definition accept_data (seq : Z) (payload : bytes) : TM unit :=
  if is_empty payload then iret tt else
  let! window := iget current_rcv_wnd in
  let seg_end := wrapping_add_u32 seq (as_u32 (zlen payload)) in
  let! nxt := iget rcv_nxt in
  if seq_le seg_end nxt then iret tt else
  let! trimmed :=
    (if seq_lt seq nxt then
       let offset := seq_diff nxt seq in
       if zlen payload <=? offset then iret None
       else let! rest := ilift (slice_from payload offset) in iret (Some (nxt, rest))
     else iret (Some (seq, payload))) in
  match trimmed with
  | None => iret tt
  | Some (seq, payload) =>
      if window =? 0 then iret tt else
      let offset_in_window := seq_diff seq nxt in
      if window <=? offset_in_window then iret tt else
      let allowed := window - offset_in_window in
      let! payload := (if allowed <? zlen payload then ilift (slice payload 0 allowed) else iret payload) in
      if is_empty payload then iret tt else
      do! (if seq =? nxt then do! deliver payload in drain_ooo else buffer_ooo seq payload) in
      sync_legacy_ooo_view
  end.

(** One round of the loop of [build_sack_blocks]. *)
Definition push_block (blocks : list (Z * Z)) (s : Z * bytes) : list (Z * Z) :=
  let left := s.1 in
  let right := seg_end_of s in
  match last blocks with
  | Some b => if b.2 =? left then removelast blocks ++ [(b.1, right)] else blocks ++ [(left, right)]
  | None => blocks ++ [(left, right)]
  end.
Definition build_sack_blocks (c : TcpConnection) : list (Z * Z) :=
  take 4 (foldl push_block [] (ooo_segments c)).

(** [TcpSegment::serialize_with_options] from this end to the other *)
Definition send_segment (seq : Z) (ackn : Z) (fl : TcpFlags) (wnd : Z) (os : list TcpOption) (payload : bytes) : TM bytes :=
  fun c => (serialize_with_options (ip (local c)) (ip (remote c)) (port (local c)) (port (remote c)) seq ackn fl wnd os payload, c).

(** The SACK option of an outgoing segment, if there is anything to report. *)
Definition sack_option (c : TcpConnection) : list TcpOption :=
  if sack_permitted c && negb (is_empty (ooo_segments c)) then
    let blocks := build_sack_blocks c in
    if negb (is_empty blocks) then [Sack blocks] else []
  else [].

Definition build_ack : TM bytes :=
  do! count segments_sent set_segments_sent 1 in
  do! iset (fun c => set_last_ack_sent (rcv_nxt c) c) in
  let! wnd := iget current_rcv_wnd in
  do! iset (set_last_advertised_wnd wnd) in
  let! sack := iget sack_option in
  do! match sack with
      | [Sack blocks] => count sack_blocks_sent set_sack_blocks_sent (zlen blocks)
      | _ => iret tt
      end in
  let! c := iget id in
  let options := sack ++ if ts_enabled c then [Timestamp (as_u32 (current_time_ms c)) (ts_recent c)] else [] in
  send_segment (snd_nxt c) (rcv_nxt c) flags_ack wnd options [].

Definition rst_acceptable (seg : TcpSegment) (c : TcpConnection) : bool :=
  match state c with
  | SynSent => ack (flags seg) && (ack_num seg =? snd_nxt c)
  | Listen | Closed => false
  | _ =>
      let window := Z.max (current_rcv_wnd c) 1 in
      seq_ge (seq_num seg) (rcv_nxt c) && seq_lt (seq_num seg) (wrapping_add_u32 (rcv_nxt c) window)
  end.

(** ** The send side *)

Definition track_for_retransmit (seq len : Z) (fl : TcpFlags) (payload : bytes) (now_ms : Z) : TM unit :=
  do! iset (fun c => set_retransmit_queue (retransmit_queue c ++
        [{| rs_seq_num := seq; rs_end_seq := wrapping_add_u32 seq len; rs_flags := fl; rs_payload := payload;
            first_sent_ms := now_ms; last_sent_ms := now_ms; retransmits := 0; sacked := false |}]) c) in
  iupdate congestion set_congestion (record_sent len).

(** The body of the loop of [retire_acked]. *)
Definition retire_entry (ack_num now_ms : Z) (acc : RttEstimator * list RetransmitSegment) (entry : RetransmitSegment)
    : outcome Empty_set (RttEstimator * list RetransmitSegment) :=
  let '(r, remaining) := acc in
  if seq_le (rs_end_seq entry) ack_num then
    if retransmits entry =? 0 then
      let sample := f64_of (saturating_sub now_ms (first_sent_ms entry)) in
      let? r := update_sample (f64_max sample (f64_of 1)) r in Ok (r, remaining)
    else Ok (r, remaining)
  else Ok (r, remaining ++ [entry]).

Definition retire_acked (ack_num now_ms : Z) : TM unit :=
  let! c := iget id in
  let! (r, remaining) := ilift (ofold (retire_entry ack_num now_ms) (rtt c, []) (retransmit_queue c)) in
  do! iset (set_rtt r) in
  iset (set_retransmit_queue remaining).

Definition write (data : bytes) : TM Z :=
  let! tx := iget tx_buffer in
  let room := saturating_sub SND_BUFFER_CAPACITY (zlen tx) in
  let accepted := Z.min room (zlen data) in
  let! taken := ilift (slice data 0 accepted) in
  do! iset (fun c => set_tx_buffer (tx_buffer c ++ taken) c) in
  iret accepted.

Definition send_buffer_available (c : TcpConnection) : Z := saturating_sub SND_BUFFER_CAPACITY (zlen (tx_buffer c)).

(** The number of bytes read, and what they left in [buf]. *)
Definition read (buf : bytes) : TM (Z * bytes) :=
  let! rx := iget rx_buffer in
  if is_empty rx then iret (0, buf) else
  let to_read := Z.min (zlen buf) (zlen rx) in
  let! data := ilift (slice rx 0 to_read) in
  let! buf := ilift (copy_range buf 0 to_read data) in
  let! rest := ilift (slice_from rx to_read) in
  do! iset (set_rx_buffer rest) in
  do! iset (fun c => set_rcv_wnd (current_rcv_wnd c) c) in
  iret (to_read, buf).

Definition initiate_syn_at (now_ms : Z) : TM bytes :=
  do! iset (set_current_time_ms now_ms) in
  do! iset (set_state SynSent) in
  let! syn_seq := iget snd_nxt in
  do! iset (fun c => set_snd_nxt (wrapping_add_u32 (snd_nxt c) 1) c) in
  let! c := iget id in
  let options := [Mss (local_mss c); SackPermitted] ++ if ts_enabled c then [Timestamp (as_u32 now_ms) 0] else [] in
  let! packet := send_segment syn_seq 0 flags_syn (current_rcv_wnd c) options [] in
  do! track_for_retransmit syn_seq 1 flags_syn [] now_ms in
  do! count segments_sent set_segments_sent 1 in
  iret packet.
Definition initiate_syn : TM bytes := let! now := iget current_time_ms in initiate_syn_at now.

Definition emit_fin (now_ms : Z) : TM (option bytes) :=
  let! sent := iget fin_sent in
  if sent then iret None else
  let! st := iget state in
  let next := match st with Established => Some FinWait1 | CloseWait => Some LastAck | _ => None end in
  match next with
  | None => iret None
  | Some st' =>
      do! iset (set_state st') in
      let! fin_seq := iget snd_nxt in
      do! iset (fun c => set_snd_nxt (wrapping_add_u32 (snd_nxt c) 1) c) in
      do! iset (set_fin_sent true) in
      do! iset (fun c => set_last_ack_sent (rcv_nxt c) c) in
      let! c := iget id in
      let! packet := send_segment fin_seq (rcv_nxt c) flags_fin_ack (current_rcv_wnd c) [] [] in
      do! track_for_retransmit fin_seq 1 flags_fin_ack [] now_ms in
      do! count segments_sent set_segments_sent 1 in
      iret (Some packet)
  end.

Definition initiate_close_at (now_ms : Z) : TM (option bytes) :=
  do! iset (set_current_time_ms now_ms) in
  let! st := iget state in
  match st with
  | Established | CloseWait =>
      do! iset (set_close_requested true) in
      let! tx := iget tx_buffer in
      if is_empty tx then emit_fin now_ms else iret None
  | _ => iret None
  end.
Definition initiate_close : TM (option bytes) := let! now := iget current_time_ms in initiate_close_at now.

(** The entry [find(|s| !s.sacked)] gives, with its place in the queue. *)
Definition oldest_unsacked (queue : list RetransmitSegment) : option (Z * RetransmitSegment) :=
  match position (fun s => negb (sacked s)) queue with
  | Some i => (fun e => (i, e)) <$> queue !! Z.to_nat i
  | None => None
  end.

Definition resent (now_ms n : Z) (e : RetransmitSegment) : RetransmitSegment :=
  {| rs_seq_num := rs_seq_num e; rs_end_seq := rs_end_seq e; rs_flags := rs_flags e; rs_payload := rs_payload e;
     first_sent_ms := first_sent_ms e; last_sent_ms := now_ms; retransmits := n; sacked := sacked e |}.

Definition retransmit_oldest (now_ms : Z) (fast : bool) : TM (option bytes) :=
  let! c := iget id in
  let nxt := rcv_nxt c in
  let wnd := current_rcv_wnd c in
  match oldest_unsacked (retransmit_queue c) with
  | None => iret None
  | Some (i, oldest) =>
      if MAX_RETRANSMITS <=? retransmits oldest then iret None else
      let! n := ilift (add_u32 (retransmits oldest) 1) in
      let! queue := ilift (set_at (retransmit_queue c) i (resent now_ms n oldest)) in
      do! iset (set_retransmit_queue queue) in
      do! count retransmissions set_retransmissions 1 in
      do! count segments_sent set_segments_sent 1 in
      do! (if fast then count fast_retransmits set_fast_retransmits 1 else iret tt) in
      let! c := iget id in
      let options :=
        if syn (rs_flags oldest) then [Mss (local_mss c)] ++ if sack_permitted c then [SackPermitted] else []
        else sack_option c ++ if ts_enabled c then [Timestamp (as_u32 now_ms) (ts_recent c)] else [] in
      let! packet := send_segment (rs_seq_num oldest) nxt (rs_flags oldest) wnd options (rs_payload oldest) in
      iret (Some packet)
  end.

Definition is_reapable (now_ms : Z) (c : TcpConnection) : bool :=
  if aborted c then true
  else match state c with
       | Closed => true
       | TimeWait => match time_wait_entered_ms c with
                     | Some t => TIME_WAIT_MS <=? saturating_sub now_ms t
                     | None => false
                     end
       | _ => false
       end.

Definition bytes_in_flight (c : TcpConnection) : Z := in_flight (congestion c).

(** *** [poll_output] *)

Definition flags_psh_ack : TcpFlags := {| fin := false; syn := false; rst := false; psh := true; ack := true; urg := false |}.

(** Take [n] bytes off the send buffer and send them with [fl]. *)
Definition send_front (n : Z) (fl : TcpFlags) (now_ms : Z) : TM bytes :=
  let! tx := iget tx_buffer in
  let! chunk := ilift (slice tx 0 n) in
  let! rest := ilift (slice_from tx n) in
  do! iset (set_tx_buffer rest) in
  let! seq := iget snd_nxt in
  do! iset (fun c => set_snd_nxt (wrapping_add_u32 (snd_nxt c) (as_u32 (zlen chunk))) c) in
  let! wnd := iget current_rcv_wnd in
  do! iset (set_last_advertised_wnd wnd) in
  let! nxt := iget rcv_nxt in
  let! segment := send_segment seq nxt fl wnd [] chunk in
  do! iset (fun c => set_last_ack_sent (rcv_nxt c) c) in
  do! count bytes_sent set_bytes_sent (zlen chunk) in
  do! track_for_retransmit seq (as_u32 (zlen chunk)) fl chunk now_ms in
  iret segment.

(** The sending loop: every round takes at least a byte off the buffer. *)
Fixpoint send_loop (fuel : nat) (now_ms : Z) : TM (list bytes) :=
  let! c := iget id in
  let avail := send_window_available (snd_wnd c) (congestion c) in
  if avail =? 0 then iret [] else
  let chunk_size := Z.min (Z.min avail (peer_mss c)) (zlen (tx_buffer c)) in
  if chunk_size =? 0 then iret [] else
  let! segment := send_front chunk_size flags_psh_ack now_ms in
  do! count segments_sent set_segments_sent 1 in
  let! tx := iget tx_buffer in
  if is_empty tx then iret [segment] else
  match fuel with
  | O => ilift Panic
  | S fuel' => let! rest := send_loop fuel' now_ms in iret (segment :: rest)
  end.

Definition is_sending (st : TcpState) : bool := match st with Established | CloseWait => true | _ => false end.

(** Step 2: the close that waited for the send buffer. *)
Definition deferred_fin (now_ms : Z) : TM (list bytes) :=
  let! c := iget id in
  if close_requested c && negb (fin_sent c) && is_empty (tx_buffer c) && is_sending (state c) then
    let! fin := emit_fin now_ms in iret (option_list fin)
  else iret [].

(** Step 3: the retransmission timer; [None] is the early return of an abort. *)
Definition check_timeout (now_ms : Z) : TM (option (list bytes)) :=
  let! c := iget id in
  let rto_ms := f64_as_u64 (rto (rtt c)) in
  match head (retransmit_queue c) with
  | Some e =>
      if rto_ms <=? saturating_sub now_ms (last_sent_ms e) then
        if MAX_RETRANSMITS <=? retransmits e then
          do! iset (set_aborted true) in
          do! iset (set_state Closed) in
          do! iset (set_retransmit_queue []) in
          do! iset (set_tx_buffer []) in
          iret None
        else
          do! iupdate congestion set_congestion on_timeout in
          do! iset (fun c => set_rtt (backoff (rtt c)) c) in
          do! count timeouts set_timeouts 1 in
          let! pkt := retransmit_oldest now_ms false in
          iret (Some (option_list pkt))
      else iret (Some [])
  | None => iret (Some [])
  end.

(** Step 4: tell the peer that the window has reopened. *)
Definition window_update : TM (list bytes) :=
  let! c := iget id in
  let wnd_now := current_rcv_wnd c in
  if (last_advertised_wnd c <? local_mss c) && (local_mss c <=? wnd_now)
     && negb (bool_decide (state c = Closed \/ state c = TimeWait)) then
    let! pkt := build_ack in iret [pkt]
  else iret [].

(** Step 5: probe a zero window with one byte. *)
Definition persist_probe (sending : bool) (now_ms : Z) : TM (list bytes) :=
  let! c := iget id in
  let stalled := (send_window_available (snd_wnd c) (congestion c) =? 0) && is_empty (retransmit_queue c) in
  if sending && negb (is_empty (tx_buffer c)) && stalled then
    match persist_deadline_ms c with
    | None =>
        let! due := ilift (add_u64 now_ms PERSIST_INTERVAL_MS) in
        do! iset (set_persist_deadline_ms (Some due)) in iret []
    | Some due =>
        if due <=? now_ms then
          let! next := ilift (add_u64 now_ms PERSIST_INTERVAL_MS) in
          do! iset (set_persist_deadline_ms (Some next)) in
          do! count zero_window_probes set_zero_window_probes 1 in
          do! count segments_sent set_segments_sent 1 in
          let! probe := send_front 1 flags_ack now_ms in
          iret [probe]
        else iret []
    end
  else do! iset (set_persist_deadline_ms None) in iret [].

(** Step 6: leave TIME_WAIT. *)
Definition expire_time_wait (now_ms : Z) : TM unit :=
  let! c := iget id in
  match state c, time_wait_entered_ms c with
  | TimeWait, Some entered =>
      if TIME_WAIT_MS <=? saturating_sub now_ms entered then iset (set_state Closed) else iret tt
  | _, _ => iret tt
  end.

Definition poll_output (now_ms : Z) : TM (list bytes) :=
  do! iset (set_current_time_ms now_ms) in
  let! c := iget id in
  if aborted c || bool_decide (state c = Closed) then iret [] else
  let sending := is_sending (state c) in
  let! data := (if sending && negb (is_empty (tx_buffer c)) then send_loop (length (tx_buffer c)) now_ms else iret []) in
  let! fin := deferred_fin now_ms in
  let! resent := check_timeout now_ms in
  match resent with
  | None => iret (data ++ fin)
  | Some resent =>
      let! update := window_update in
      let! probe := persist_probe sending now_ms in
      do! expire_time_wait now_ms in
      iret (data ++ fin ++ resent ++ update ++ probe)
  end.

Definition send_data_at (payload : bytes) (now_ms : Z) : TM (option bytes) :=
  do! iset (set_current_time_ms now_ms) in
  let! st := iget state in
  if bool_decide (st <> Established) then iret None else
  let! _ := write payload in
  let! segments := poll_output now_ms in
  iret (last segments).
Definition send_data (payload : bytes) : TM (option bytes) :=
  let! now := iget current_time_ms in send_data_at payload now.

(** ** [handle_segment_at] *)

Definition mark_sacked (l r : Z) (e : RetransmitSegment) : RetransmitSegment :=
  if seq_ge (rs_seq_num e) l && seq_le (rs_end_seq e) r then
    {| rs_seq_num := rs_seq_num e; rs_end_seq := rs_end_seq e; rs_flags := rs_flags e; rs_payload := rs_payload e;
       first_sent_ms := first_sent_ms e; last_sent_ms := last_sent_ms e; retransmits := retransmits e; sacked := true |}
  else e.

(** The loop over the options; its value is [seg_timestamp]. *)
Definition take_option (seg_timestamp : option (Z * Z)) (opt : TcpOption) : TM (option (Z * Z)) :=
  match opt with
  | Mss m =>
      do! iset (set_peer_mss m) in
      do! iset (fun c => set_congestion (set_cc_mss m (congestion c)) c) in
      iret seg_timestamp
  | SackPermitted =>
      do! iset (set_peer_sack_permitted true) in
      do! iset (set_sack_permitted true) in
      iret seg_timestamp
  | Sack blocks =>
      do! ifor (fun b => do! count sack_blocks_received set_sack_blocks_received 1 in
                         iset (fun c => set_retransmit_queue (mark_sacked b.1 b.2 <$> retransmit_queue c) c)) blocks in
      iret seg_timestamp
  | Timestamp val ecr => iret (Some (val, ecr))
  | _ => iret seg_timestamp
  end.

Definition is_synchronized (st : TcpState) : bool := match st with Closed | Listen | SynSent => false | _ => true end.

(** Whether timestamps are in use, decided by the SYN. *)
Definition negotiate_timestamps (seg : TcpSegment) (synchronized : bool) (seg_timestamp : option (Z * Z))
    : TM (option (Z * Z)) :=
  do! (if syn (flags seg) && negb synchronized then
         do! iset (set_ts_enabled (bool_decide (is_Some seg_timestamp))) in
         match seg_timestamp with
         | Some (tsval, _) =>
             do! iset (set_ts_recent tsval) in
             iset (set_last_ack_sent (wrapping_add_u32 (seq_num seg) 1))
         | None => iret tt
         end
       else iret tt) in
  let! enabled := iget ts_enabled in
  iret (if enabled then seg_timestamp else None).

(** PAWS and the update of [ts_recent]; [Some ack] is the early return. *)
Definition check_timestamp (seg : TcpSegment) (synchronized : bool) (seg_timestamp : option (Z * Z)) (now_ms : Z)
    : TM (option bytes) :=
  match seg_timestamp with
  | None => iret None
  | Some (tsval, ecr) =>
      let! c := iget id in
      if synchronized && negb (rst (flags seg)) && negb (syn (flags seg)) && seq_lt tsval (ts_recent c) then
        do! count paws_discards set_paws_discards 1 in
        do! count invalid_segments set_invalid_segments 1 in
        let! pkt := build_ack in iret (Some pkt)
      else
        do! (if seq_ge tsval (ts_recent c) && seq_le (seq_num seg) (last_ack_sent c)
             then iset (set_ts_recent tsval) else iret tt) in
        do! iset (set_last_ts_ack ecr) in
        do! (if negb (ecr =? 0) then
               let sample := f64_of (saturating_sub (as_u32 now_ms) ecr) in
               if f64_lt (f64_of 0) sample then iupdate rtt set_rtt (update_sample sample) else iret tt
             else iret tt) in
        iret None
  end.

Definition handle_rst (seg : TcpSegment) : TM unit :=
  let! ok := iget (rst_acceptable seg) in
  if ok then
    do! iset (set_state Closed) in
    do! iset (set_retransmit_queue []) in
    do! iset (set_tx_buffer []) in
    do! iset (set_ooo_segments []) in
    iset (set_ooo_queue ∅)
  else count invalid_segments set_invalid_segments 1.

Definition on_listen (seg : TcpSegment) (now_ms : Z) : TM (option bytes) :=
  if syn (flags seg) then
    do! iset (set_rcv_nxt (wrapping_add_u32 (seq_num seg) 1)) in
    do! iset (set_snd_wnd (window_size seg)) in
    let! my_syn_seq := iget snd_nxt in
    do! iset (fun c => set_snd_nxt (wrapping_add_u32 (snd_nxt c) 1) c) in
    do! iset (set_state SynReceived) in
    let! c := iget id in
    let options := [Mss (local_mss c)] ++ (if peer_sack_permitted c then [SackPermitted] else [])
                   ++ (if ts_enabled c then [Timestamp (as_u32 now_ms) (ts_recent c)] else []) in
    let! syn_ack := send_segment my_syn_seq (rcv_nxt c) flags_syn_ack (current_rcv_wnd c) options [] in
    do! track_for_retransmit my_syn_seq 1 flags_syn_ack [] now_ms in
    do! iset (fun c => set_last_ack_sent (rcv_nxt c) c) in
    do! count segments_sent set_segments_sent 1 in
    iret (Some syn_ack)
  else iret None.

(** [acked = seq_diff(ack, snd_una); snd_una = ack; on_ack(acked); retire_acked(ack)] *)
Definition slide_window (ackn now_ms : Z) : TM unit :=
  let! una := iget snd_una in
  let acked := seq_diff ackn una in
  do! iset (set_snd_una ackn) in
  do! iset (fun c => set_congestion (on_ack acked (congestion c)) c) in
  retire_acked ackn now_ms.

(** An acknowledgement outside [build_ack], with [fl] and without options. *)
Definition plain_reply (fl : TcpFlags) : TM (option bytes) :=
  let! c := iget id in
  let! pkt := send_segment (snd_nxt c) (rcv_nxt c) fl (current_rcv_wnd c) [] [] in
  do! iset (fun c => set_last_ack_sent (rcv_nxt c) c) in
  do! count segments_sent set_segments_sent 1 in
  iret (Some pkt).

Definition on_syn_sent (seg : TcpSegment) (now_ms : Z) : TM (option bytes) :=
  if syn (flags seg) && ack (flags seg) then
    let! nxt := iget snd_nxt in
    if ack_num seg =? nxt then
      do! iset (set_rcv_nxt (wrapping_add_u32 (seq_num seg) 1)) in
      do! iset (set_snd_wnd (window_size seg)) in
      do! iset (set_state Established) in
      do! slide_window (ack_num seg) now_ms in
      plain_reply flags_ack
    else iret None
  else if syn (flags seg) then
    do! iset (set_rcv_nxt (wrapping_add_u32 (seq_num seg) 1)) in
    do! iset (set_state SynReceived) in
    plain_reply flags_syn_ack
  else iret None.

Definition on_syn_received (seg : TcpSegment) (now_ms : Z) : TM (option bytes) :=
  let! nxt := iget snd_nxt in
  if ack (flags seg) && (ack_num seg =? nxt) then
    do! iset (set_snd_wnd (window_size seg)) in
    do! iset (set_state Established) in
    do! slide_window (ack_num seg) now_ms in
    if negb (is_empty (tcp_payload seg)) then
      do! accept_data (seq_num seg) (tcp_payload seg) in
      let! pkt := build_ack in iret (Some pkt)
    else iret None
  else iret None.

(** Step 1 of the data states: [inl] is the early return, [inr] a fast retransmission. *)
Definition process_ack (seg : TcpSegment) (now_ms : Z) : TM (bytes + option bytes) :=
  if ack (flags seg) then
    let! c := iget id in
    if seq_gt (ack_num seg) (snd_una c) && seq_le (ack_num seg) (snd_nxt c) then
      do! iset (set_snd_wnd (window_size seg)) in
      do! slide_window (ack_num seg) now_ms in
      iret (inr None)
    else if seq_gt (ack_num seg) (snd_nxt c) then
      do! count invalid_segments set_invalid_segments 1 in
      let! pkt := build_ack in iret (inl pkt)
    else if (ack_num seg =? snd_una c) && is_empty (tcp_payload seg) && negb (syn (flags seg))
            && negb (fin (flags seg)) && negb (is_empty (retransmit_queue c)) then
      do! iset (set_snd_wnd (window_size seg)) in
      do! count duplicate_acks set_duplicate_acks 1 in
      let! (third, cc) := ilift (on_dup_ack (congestion c)) in
      do! iset (set_congestion cc) in
      if third then let! pkt := retransmit_oldest now_ms true in iret (inr pkt) else iret (inr None)
    else
      do! iset (set_snd_wnd (window_size seg)) in
      iret (inr None)
  else iret (inr None).

(** Step 3: whether the peer's FIN was consumed. *)
Definition process_fin (seg : TcpSegment) (now_ms : Z) : TM bool :=
  let fin_seq := wrapping_add_u32 (wrapping_add_u32 (seq_num seg) (if syn (flags seg) then 1 else 0))
                                  (as_u32 (zlen (tcp_payload seg))) in
  let! c := iget id in
  if fin (flags seg) && (fin_seq =? rcv_nxt c) && negb (fin_received c) then
    do! iset (set_rcv_nxt (wrapping_add_u32 (rcv_nxt c) 1)) in
    do! iset (set_fin_received true) in
    do! match state c with
        | Established => iset (set_state CloseWait)
        | FinWait1 => iset (set_state Closing)
        | FinWait2 => do! iset (set_time_wait_entered_ms (Some now_ms)) in iset (set_state TimeWait)
        | _ => iret tt
        end in
    iret true
  else iret false.

(** Step 5: our FIN has been acknowledged. *)
Definition advance_close (now_ms : Z) : TM unit :=
  let! c := iget id in
  let done := fin_sent c && seq_ge (snd_una c) (snd_nxt c) in
  match state c with
  | FinWait1 => if done then iset (set_state FinWait2) else iret tt
  | Closing =>
      if done then do! iset (set_state TimeWait) in iset (set_time_wait_entered_ms (Some now_ms)) else iret tt
  | _ => iret tt
  end.

(** [Established], [FinWait1] and [FinWait2] *)
Definition on_data_state (seg : TcpSegment) (now_ms : Z) : TM (option bytes) :=
  let! r := process_ack seg now_ms in
  match r with
  | inl pkt => iret (Some pkt)
  | inr resp =>
      let had_payload := negb (is_empty (tcp_payload seg)) in
      do! (if had_payload then accept_data (seq_num seg) (tcp_payload seg) else iret tt) in
      let! fin_consumed := process_fin seg now_ms in
      let! resp := (if (had_payload || fin_consumed) && negb (bool_decide (is_Some resp))
                    then let! pkt := build_ack in iret (Some pkt) else iret resp) in
      do! advance_close now_ms in
      iret resp
  end.

Definition on_close_wait (seg : TcpSegment) (now_ms : Z) : TM (option bytes) :=
  let! c := iget id in
  do! (if ack (flags seg) && seq_gt (ack_num seg) (snd_una c) && seq_le (ack_num seg) (snd_nxt c) then
         do! iset (set_snd_wnd (window_size seg)) in slide_window (ack_num seg) now_ms
       else iret tt) in
  if fin (flags seg) then let! pkt := build_ack in iret (Some pkt) else iret None.

Definition on_closing (seg : TcpSegment) (now_ms : Z) : TM (option bytes) :=
  let! c := iget id in
  do! (if ack (flags seg) && seq_ge (ack_num seg) (snd_nxt c) then
         do! slide_window (ack_num seg) now_ms in
         do! iset (set_state TimeWait) in
         iset (set_time_wait_entered_ms (Some now_ms))
       else iret tt) in
  iret None.

Definition on_last_ack (seg : TcpSegment) (now_ms : Z) : TM (option bytes) :=
  let! c := iget id in
  do! (if ack (flags seg) && seq_ge (ack_num seg) (snd_nxt c) then
         do! slide_window (ack_num seg) now_ms in iset (set_state Closed)
       else iret tt) in
  iret None.

Definition on_time_wait (seg : TcpSegment) : TM (option bytes) :=
  if fin (flags seg) then plain_reply flags_ack else iret None.

(** The [match self.state]. *)
Definition dispatch (seg : TcpSegment) (now_ms : Z) : TM (option bytes) :=
  let! st := iget state in
  match st with
  | Listen => on_listen seg now_ms
  | SynSent => on_syn_sent seg now_ms
  | SynReceived => on_syn_received seg now_ms
  | Established | FinWait1 | FinWait2 => on_data_state seg now_ms
  | CloseWait => on_close_wait seg now_ms
  | Closing => on_closing seg now_ms
  | LastAck => on_last_ack seg now_ms
  | TimeWait => on_time_wait seg
  | Closed => iret None
  end.

Definition handle_segment_at (seg : TcpSegment) (now_ms : Z) : TM (option bytes) :=
  do! iset (set_current_time_ms now_ms) in
  do! count segments_received set_segments_received 1 in
  let! seg_timestamp := ifold take_option None (options seg) in
  let! st := iget state in
  let synchronized := is_synchronized st in
  let! seg_timestamp := negotiate_timestamps seg synchronized seg_timestamp in
  let! early := check_timestamp seg synchronized seg_timestamp now_ms in
  match early with
  | Some pkt => iret (Some pkt)
  | None =>
      if rst (flags seg) then do! handle_rst seg in iret None
      else dispatch seg now_ms
  end.
Definition handle_segment (seg : TcpSegment) : TM (option bytes) :=
  let! now := iget current_time_ms in handle_segment_at seg now.

(** ** The sending loop ends *)

Lemma ibind_run {S A B} (m : ST Empty_set S A) (k : A -> ST Empty_set S B) s r s' : ibind m k s = (Ok r, s') ->
  exists x s1, m s = (Ok x, s1) /\ k x s1 = (Ok r, s').
Proof. unfold ibind. destruct (m s) as [[x| |] s1]; [|done..]. eauto. Qed.

Lemma count_tx get set n c c' : count get set n c = (Ok tt, c') -> tx_buffer c' = tx_buffer c.
Proof. unfold count. intros. repeat case_match; by simplify_eq/=. Qed.

(** A chunk leaves the buffer. *)
Lemma send_front_shrinks n fl now c segment c' : n <> 0 -> send_front n fl now c = (Ok segment, c') ->
  (length (tx_buffer c') < length (tx_buffer c))%nat.
Proof.
  unfold send_front, track_for_retransmit, iupdate. intros Hn H.
  repeat (apply ibind_run in H as (? & ? & ? & H); unfold iget, iset, ilift, iret, send_segment in *; simplify_eq/=).
  match goal with E : slice_from _ _ = Ok _ |- _ => apply slice_from_inv in E as (Hr & -> & _) end.
  match goal with E : count _ _ _ _ = (Ok ?u, _) |- _ => destruct u; apply count_tx in E as Htx end.
  match goal with E : slice _ 0 n = Ok _ |- _ => apply slice_inv in E as (Hn0 & _) end.
  match goal with E : ibind _ _ _ = (Ok _, _) |- _ => apply ibind_run in E as (? & ? & ? & E) end.
  repeat case_match; simplify_eq/=. rewrite Htx. simpl. unfold sub. unfold zlen in *. rewrite length_take, length_drop. lia.
Qed.

(** One round of the loop, and what it depends on. *)
Definition send_round (now_ms : Z) (next : bytes -> TM (list bytes)) : TM (list bytes) :=
  let! c := iget id in
  let avail := send_window_available (snd_wnd c) (congestion c) in
  if avail =? 0 then iret [] else
  let chunk_size := Z.min (Z.min avail (peer_mss c)) (zlen (tx_buffer c)) in
  if chunk_size =? 0 then iret [] else
  let! segment := send_front chunk_size flags_psh_ack now_ms in
  do! count segments_sent set_segments_sent 1 in
  let! tx := iget tx_buffer in
  if is_empty tx then iret [segment] else next segment.

Lemma send_round_ext now next1 next2 c :
  (forall segment c', (length (tx_buffer c') < length (tx_buffer c))%nat -> next1 segment c' = next2 segment c') ->
  send_round now next1 c = send_round now next2 c.
Proof.
  intros Hext. unfold send_round, ibind, iget, id. destruct (_ =? 0); [done|]. destruct (_ =? 0) eqn:Hn; [done|].
  apply Z.eqb_neq in Hn. destruct (send_front _ _ _ c) as [[segment| |] c1] eqn:Hs; [|done..].
  apply send_front_shrinks in Hs; [|done]. destruct (count _ _ _ c1) as [[[]| |] c2] eqn:Hc; [|done..]. apply count_tx in Hc.
  destruct (is_empty _); [done|]. apply Hext. by rewrite Hc.
Qed.

(** With at least the length of the buffer, more fuel changes nothing: the loop
    ends by itself. *)
Lemma send_loop_ends more now : forall fuel c, (length (tx_buffer c) <= fuel)%nat ->
  send_loop (fuel + more) now c = send_loop fuel now c.
Proof.
  induction fuel as [|fuel IH]; intros c Hf.
  - destruct more as [|more]; [done|].
    apply (send_round_ext now (fun s => let! rest := send_loop more now in iret (s :: rest)) (fun _ => ilift Panic)). lia.
  - apply (send_round_ext now (fun s => let! rest := send_loop (fuel + more) now in iret (s :: rest))
      (fun s => let! rest := send_loop fuel now in iret (s :: rest))).
    intros segment c' Hc. unfold ibind. by rewrite IH by lia.
Qed.
