(* ===== verification/TcpManager.v ===== *)
(** * The TCP connection manager ([tcp.rs], [TcpManager])

    Listeners and connections in hash maps, and the dispatch of segments to
    them: an existing connection, a listener's new connection, or a reset. *)

From S2P Require Import Prelude Bytes NetBytes TcpSeq Checksum Ipv4 TcpSegment Float64 Congestion TcpState TcpConnection.

Record TcpManager : Type := {
  listeners : gmap Z Z;
  connections : gmap TcpConnectionKey TcpConnection;
  manager_time_ms : Z;
}.

Definition manager_new : TcpManager := {| listeners := ∅; connections := ∅; manager_time_ms := 0 |}.

Definition set_listeners l (m : TcpManager) : TcpManager :=
  {| listeners := l; connections := connections m; manager_time_ms := manager_time_ms m |}.
Definition set_connections cs (m : TcpManager) : TcpManager :=
  {| listeners := listeners m; connections := cs; manager_time_ms := manager_time_ms m |}.
Definition set_manager_time t (m : TcpManager) : TcpManager :=
  {| listeners := listeners m; connections := connections m; manager_time_ms := t |}.

Abbreviation MM := (ST Empty_set TcpManager).

(** A call on the connection [get_mut] returned. *)
Definition on_connection {A} (key : TcpConnectionKey) (conn : TcpConnection) (call : TM A) : MM A := fun m =>
  let '(r, conn') := call conn in (r, set_connections (<[key := conn']> (connections m)) m).

Definition listen (port : Z) : MM unit := iset (fun m => set_listeners (<[port := 1000]> (listeners m)) m).

Definition connect (l r : SocketAddrV4) (isn : Z) : MM bytes :=
  let! conn := ilift (new_client l r isn) in
  let! now := iget manager_time_ms in
  on_connection {| key_local := l; key_remote := r |} conn (initiate_syn_at now).

Definition manager_send_data (l r : SocketAddrV4) (data : bytes) : MM (option bytes) :=
  let! m := iget id in
  let key := {| key_local := l; key_remote := r |} in
  match connections m !! key with
  | Some conn => on_connection key conn (send_data_at data (manager_time_ms m))
  | None => iret None
  end.

Definition manager_close (l r : SocketAddrV4) : MM (option bytes) :=
  let! m := iget id in
  let key := {| key_local := l; key_remote := r |} in
  match connections m !! key with
  | Some conn => on_connection key conn (initiate_close_at (manager_time_ms m))
  | None => iret None
  end.

Definition get_connection (l r : SocketAddrV4) (m : TcpManager) : option TcpConnection :=
  connections m !! {| key_local := l; key_remote := r |}.

Definition has_endpoint (local_ip : Ipv4Address) (local_port : Z) (remote_ip : Ipv4Address) (remote_port : Z)
    (m : TcpManager) : bool :=
  let key := {| key_local := {| ip := local_ip; port := local_port |};
                key_remote := {| ip := remote_ip; port := remote_port |} |} in
  bool_decide (is_Some (connections m !! key)) || bool_decide (is_Some (listeners m !! local_port)).

(** The reset for a segment nobody waits for. *)
Definition closed_port_reply {E} (src_ip dst_ip : Ipv4Address) (seg : TcpSegment) : outcome E (option bytes) :=
  if negb (rst (flags seg)) then
    let rst_seq := if ack (flags seg) then ack_num seg else 0 in
    let rst_ack := wrapping_add_u32 (seq_num seg)
                     (if syn (flags seg) || fin (flags seg) then 1 else as_u32 (zlen (tcp_payload seg))) in
    let fl := if negb (ack (flags seg))
              then {| fin := false; syn := false; rst := true; psh := false; ack := true; urg := false |}
              else flags_rst in
    let? pkt := tcp_serialize dst_ip src_ip (dst_port seg) (src_port seg) rst_seq rst_ack fl 0 [] in
    Ok (Some pkt)
  else Ok None.

Definition process_segment_at (src_ip dst_ip : Ipv4Address) (seg : TcpSegment) (now_ms : Z) : MM (option bytes) :=
  do! iset (set_manager_time now_ms) in
  let key := {| key_local := {| ip := dst_ip; port := dst_port seg |};
                key_remote := {| ip := src_ip; port := src_port seg |} |} in
  let! m := iget id in
  match connections m !! key with
  | Some conn => on_connection key conn (handle_segment_at seg now_ms)
  | None =>
      match listeners m !! dst_port seg with
      | Some isn =>
          if syn (flags seg) then
            let! conn := ilift (new_server (key_local key) (key_remote key) isn) in
            do! iset (fun m => set_listeners (<[dst_port seg := wrapping_add_u32 isn 1000]> (listeners m)) m) in
            on_connection key conn (handle_segment_at seg now_ms)
          else ilift (closed_port_reply src_ip dst_ip seg)
      | None => ilift (closed_port_reply src_ip dst_ip seg)
      end
  end.
Definition process_segment (src_ip dst_ip : Ipv4Address) (seg : TcpSegment) : MM (option bytes) :=
  let! now := iget manager_time_ms in process_segment_at src_ip dst_ip seg now.

(** The order in which [HashMap::iter_mut] visits the connections. *)
Class ConnectionOrder : Type := {
  conn_iter : gmap TcpConnectionKey TcpConnection -> list TcpConnectionKey;
  conn_iter_perm m : conn_iter m ≡ₚ (map_to_list m).*1;
}.

Section Timers.
Context `{ConnectionOrder}.

Definition step_connection (now_ms : Z) (outgoing : list (SocketAddrV4 * SocketAddrV4 * bytes)) (key : TcpConnectionKey)
    : MM (list (SocketAddrV4 * SocketAddrV4 * bytes)) :=
  let! m := iget id in
  match connections m !! key with
  | Some conn =>
      let! packets := on_connection key conn (poll_output now_ms) in
      iret (outgoing ++ ((fun p => (key_local key, key_remote key, p)) <$> packets))
  | None => iret outgoing
  end.

Definition step_timers (now_ms : Z) : MM (list (SocketAddrV4 * SocketAddrV4 * bytes)) :=
  do! iset (set_manager_time now_ms) in
  let! m := iget id in
  ifold (step_connection now_ms) [] (conn_iter (connections m)).
End Timers.
