(* ===== verification/TcpReceive.v ===== *)
(** * The receive side of a TCP connection

    Position [p] of the stream a peer sends has the sequence number
    [seq_of (b + p)]. What [accept_data] keeps is described by positions: the
    bytes delivered follow each other without a gap, and the out-of-order queue
    holds pieces strictly ahead of them, inside the receive window. Which byte
    may stand at which position is a parameter: the bytes of one stream, for
    what a correct peer sends, or anything, for what an attacker sends. *)

From S2P Require Import Prelude Bytes NetBytes TcpSeq Checksum Ipv4 TcpSegment Float64 Congestion TcpState TcpConnection.

(** A piece: a position and the bytes from there on. *)
Definition pend (pl : Z * bytes) : Z := pl.1 + zlen pl.2.
(** The piece as the queue stores it. *)
Definition piece (b : Z) (pl : Z * bytes) : Z * bytes := (seq_of (b + pl.1), pl.2).

(** Position [i] lies in one of the pieces. *)
Definition covered (ps : list (Z * bytes)) (i : Z) : Prop := exists pl, pl ∈ ps /\ pl.1 <= i < pend pl.
(** Position [i] has been delivered or is queued. *)
Definition held (n : Z) (ps : list (Z * bytes)) (i : Z) : Prop := i < n \/ covered ps i.

Lemma covered_nil i : ~ covered [] i.
Proof. intros (pl & Hin & _). by apply not_elem_of_nil in Hin. Qed.
Lemma covered_cons pl ps i : covered (pl :: ps) i <-> pl.1 <= i < pend pl \/ covered ps i.
Proof.
  unfold covered. split.
  - intros (pl' & Hin & Hi). apply elem_of_cons in Hin as [->|Hin]; [by left|right; eauto].
  - intros [Hi|(pl' & Hin & Hi)]; eexists; (split; [|done]); by constructor.
Qed.
Lemma covered_app ps qs i : covered (ps ++ qs) i <-> covered ps i \/ covered qs i.
Proof. unfold covered. setoid_rewrite elem_of_app. naive_solver. Qed.
Lemma covered_perm ps qs i : ps ≡ₚ qs -> covered ps i <-> covered qs i.
Proof. intros H. by split; intros (pl & Hin & Hi); exists pl; (split; [|done]); [rewrite <- H|rewrite H]. Qed.

Lemma Forall_sublist {A} (P : A -> Prop) l k : l `sublist_of` k -> Forall P k -> Forall P l.
Proof. intros Hs Hk. apply Forall_forall. intros x Hx. by eapply Forall_forall in Hk; [|by eapply elem_of_sublist]. Qed.

Lemma NoDup_keys_sublist (l k : list (Z * bytes)) : l `sublist_of` k -> NoDup k.*1 -> NoDup l.*1.
Proof. intros Hs Hk. eapply sublist_NoDup; [done|]. by apply fmap_sublist. Qed.

(** ** Sorting and sizes *)

Lemma insert_by_seq_perm x l : insert_by_seq x l ≡ₚ x :: l.
Proof.
  induction l as [|y l IH]; simpl; [done|]. destruct (seq_lt _ _); [done|]. rewrite IH. apply Permutation_swap.
Qed.
Lemma fold_insert_perm l : foldl (fun acc x => insert_by_seq x acc) [] l ≡ₚ l.
Proof.
  enough (forall acc, foldl (fun acc x => insert_by_seq x acc) acc l ≡ₚ acc ++ l) as H by apply H.
  induction l as [|x l IH]; intros acc; simpl; [by rewrite app_nil_r|].
  rewrite IH, insert_by_seq_perm. by rewrite <- Permutation_middle.
Qed.

Lemma segs_bytes_acc l a : foldl (fun n s => n + zlen (snd s)) a l = a + segs_bytes l.
Proof.
  unfold segs_bytes. revert a. induction l as [|s l IH]; intros a; simpl; [lia|].
  rewrite IH, (IH (0 + zlen s.2)). lia.
Qed.
Lemma segs_bytes_cons s l : segs_bytes (s :: l) = zlen s.2 + segs_bytes l.
Proof. unfold segs_bytes at 1. simpl. rewrite segs_bytes_acc. lia. Qed.
Lemma segs_bytes_nonneg l : 0 <= segs_bytes l.
Proof. induction l as [|s l IH]; [done|]. rewrite segs_bytes_cons. pose proof (zlen_nonneg s.2). lia. Qed.
Lemma segs_bytes_app l k : segs_bytes (l ++ k) = segs_bytes l + segs_bytes k.
Proof. induction l as [|s l IH]; [done|]. rewrite <- app_comm_cons, !segs_bytes_cons, IH. lia. Qed.
Lemma segs_bytes_perm l k : l ≡ₚ k -> segs_bytes l = segs_bytes k.
Proof. induction 1; rewrite ?segs_bytes_cons; lia. Qed.
Lemma segs_bytes_sublist l k : l `sublist_of` k -> segs_bytes l <= segs_bytes k.
Proof.
  induction 1 as [|x l k Hs IH|x l k Hs IH]; rewrite ?segs_bytes_cons; [done|lia|].
  pose proof (zlen_nonneg x.2). lia.
Qed.
Lemma segs_bytes_pieces b ps : segs_bytes (piece b <$> ps) = segs_bytes ps.
Proof. induction ps as [|pl ps IH]; [done|]. by rewrite fmap_cons, !segs_bytes_cons, IH. Qed.

(** ** Sequence numbers of positions *)

Lemma wrapping_add_pos x n : wrapping_add_u32 (seq_of x) (as_u32 n) = seq_of (x + n).
Proof. apply seq_of_wrapping_add. Qed.

Lemma pos_le b x y : - 2 ^ 31 <= x - y < 2 ^ 31 -> seq_le (seq_of (b + x)) (seq_of (b + y)) = (x <=? y).
Proof. intros. rewrite seq_le_near by lia. lia. Qed.
Lemma pos_lt b x y : - 2 ^ 31 <= x - y < 2 ^ 31 -> seq_lt (seq_of (b + x)) (seq_of (b + y)) = (x <? y).
Proof. intros. rewrite seq_lt_near by lia. lia. Qed.
Lemma pos_diff b x y : 0 <= x - y < 2 ^ 31 -> seq_diff (seq_of (b + x)) (seq_of (b + y)) = x - y.
Proof. intros. rewrite seq_diff_near by lia. lia. Qed.
Lemma seq_of_inj x y : - 2 ^ 31 < x - y < 2 ^ 31 -> seq_of x = seq_of y -> x = y.
Proof.
  intros Hd E. pose proof (seq_le_near x y ltac:(lia)) as H1. pose proof (seq_le_near y x ltac:(lia)) as H2.
  assert (forall z, seq_le z z = true) as Hr by (intros; unfold seq_le, wrapping_sub_u32; by rewrite Z.sub_diag).
  rewrite E, Hr in H1. rewrite <- E, Hr in H2. lia.
Qed.
Lemma pos_eq b x y : - 2 ^ 31 < x - y < 2 ^ 31 -> (seq_of (b + x) =? seq_of (b + y)) = (x =? y).
Proof.
  intros. destruct (Z.eqb_spec (seq_of (b + x)) (seq_of (b + y))) as [E|E].
  - apply seq_of_inj in E; lia.
  - symmetry. apply Z.eqb_neq. by intros ->.
Qed.

(** Pieces with distinct positions less than 2^31 apart are strictly ordered,
    so sorting them does not panic. *)
Section Sorting.
Context (b lo hi : Z) (Hnear : hi - lo < 2 ^ 31).
Abbreviation near := (fun pl : Z * bytes => lo <= pl.1 < hi).

Lemma strictly_sorted_pieces ps : Forall near ps -> StronglySorted (fun pl ql => pl.1 < ql.1) ps ->
  strictly_sorted (piece b <$> ps) = true.
Proof.
  intros Hps Hs. induction Hs as [|pl ps Hs IH Hlt]; [done|]. apply Forall_cons in Hps as [Hpl Hps].
  rewrite fmap_cons. cbn [strictly_sorted]. rewrite IH by done. rewrite andb_true_r. apply forallb_forall.
  intros s Hin. apply list_elem_of_In, list_elem_of_fmap in Hin as (ql & -> & Hin).
  eapply Forall_forall in Hlt; [|done]. eapply Forall_forall in Hps; [|done]. cbn [piece fst].
  rewrite !pos_lt by lia. lia.
Qed.

Lemma insert_piece pl ps : near pl -> Forall near ps -> pl.1 ∉ ps.*1 -> StronglySorted (fun pl ql => pl.1 < ql.1) ps ->
  exists ps', insert_by_seq (piece b pl) (piece b <$> ps) = piece b <$> ps' /\ ps' ≡ₚ pl :: ps /\
    StronglySorted (fun pl ql => pl.1 < ql.1) ps'.
Proof.
  intros Hpl Hps Hnew Hs. induction Hs as [|ql ps Hs IH Hlt].
  { exists [pl]. split_and!; [done..|repeat constructor]. }
  apply Forall_cons in Hps as [Hql Hps]. rewrite fmap_cons in Hnew. apply not_elem_of_cons in Hnew as [Hne Hnew].
  cbv beta in *. rewrite fmap_cons. cbn [insert_by_seq piece fst]. rewrite pos_lt by lia. destruct (pl.1 <? ql.1) eqn:E; bool_facts.
  - exists (pl :: ql :: ps). split_and!; [done..|]. constructor; [by constructor|]. constructor; [done|].
    eapply Forall_impl; [done|]. intros x Hx. cbn in Hx. lia.
  - destruct (IH Hps Hnew) as (ps' & E' & Hperm & Hs'). exists (ql :: ps'). split_and!.
    + rewrite fmap_cons, <- E'. done.
    + rewrite Hperm. apply Permutation_swap.
    + constructor; [done|]. rewrite Hperm. constructor; [lia|done].
Qed.

Lemma sort_pieces {E} ps : Forall near ps -> NoDup ps.*1 ->
  exists ps', sort_by_seq (E:=E) (piece b <$> ps) = Ok (piece b <$> ps') /\ ps' ≡ₚ ps.
Proof.
  intros Hps Hnd. enough (forall acc, Forall near (acc ++ ps) -> NoDup (acc ++ ps).*1 ->
    StronglySorted (fun pl ql => pl.1 < ql.1) acc ->
    exists ps', foldl (fun acc x => insert_by_seq x acc) (piece b <$> acc) (piece b <$> ps) = piece b <$> ps' /\
      ps' ≡ₚ acc ++ ps /\ StronglySorted (fun pl ql => pl.1 < ql.1) ps') as H.
  { destruct (H [] Hps Hnd ltac:(constructor)) as (ps' & Ef & Hperm & Hs). exists ps'. split; [|done]. unfold sort_by_seq.
    rewrite (Ef : foldl _ [] _ = _), strictly_sorted_pieces; [done|by rewrite Hperm|done]. }
  clear Hps Hnd. induction ps as [|pl ps IH]; intros acc Hn Hnd Hs.
  { exists acc. by rewrite app_nil_r. }
  apply Forall_app in Hn as [Ha [Hpl Hps]%Forall_cons]. rewrite fmap_app, fmap_cons in Hnd.
  pose proof Hnd as (_ & Hd & _)%NoDup_app.
  destruct (insert_piece pl acc) as (acc' & Ei & Hperm & Hs'); [done|done| |done|].
  { intros Hin. apply (Hd _ Hin). by left. }
  rewrite fmap_cons. cbn [foldl]. rewrite Ei. destruct (IH acc') as (ps' & Ef & Hp' & Hs''); [| |done|].
  - rewrite Hperm. apply Forall_app. split; [by constructor|done].
  - rewrite fmap_app, Hperm, fmap_cons. by rewrite <- app_comm_cons, Permutation_middle.
  - exists ps'. split_and!; [done| |done]. rewrite Hp', Hperm. by rewrite <- app_comm_cons, Permutation_middle.
Qed.
End Sorting.

Lemma seg_end_piece b pl : seg_end_of (piece b pl) = seq_of (b + pend pl).
Proof. unfold seg_end_of, pend. cbn [piece fst snd]. by rewrite wrapping_add_pos, Z.add_assoc. Qed.

Abbreviation noerr := (fun (_ : Empty_set) (_ : TcpConnection) => False).

Section Stream.
Context (b : Z) (allowed : Z -> Z -> Prop) (last_pos : Z).
Abbreviation enc := (piece b).

(** The bytes [data] may stand at position [p]. *)
Definition fits (p : Z) (data : bytes) : Prop := forall j x, data !! j = Some x -> allowed (p + Z.of_nat j) x.

Lemma fits_nil p : fits p []. Proof. done. Qed.
Lemma fits_app p d1 d2 : fits p (d1 ++ d2) <-> fits p d1 /\ fits (p + zlen d1) d2.
Proof.
  unfold fits. split.
  - intros H. split; intros j x Hj.
    + apply H. by apply lookup_app_l_Some.
    + specialize (H (length d1 + j)%nat x). unfold zlen. rewrite Nat2Z.inj_add in H. rewrite <- Z.add_assoc. apply H.
      rewrite lookup_app_r by lia. rewrite <- Hj. f_equal. lia.
  - intros [H1 H2] j x Hj. apply lookup_app_Some in Hj as [Hj|[Hl Hj]]; [by apply H1|].
    specialize (H2 _ _ Hj). unfold zlen in H2. replace (p + Z.of_nat j) with (p + Z.of_nat (length d1) + Z.of_nat (j - length d1)) by lia.
    done.
Qed.
Lemma sub_halves (data : bytes) a : 0 <= a <= zlen data -> sub data 0 a ++ sub data a (zlen data - a) = data.
Proof.
  intros. transitivity (sub data 0 (a + (zlen data - a))); [by rewrite sub_split by lia|]. apply sub_all. lia.
Qed.
Lemma fits_sub p data a : fits p data -> 0 <= a <= zlen data -> fits p (sub data 0 a) /\ fits (p + a) (sub data a (zlen data - a)).
Proof.
  intros Hf Ha. rewrite <- (sub_halves data a Ha) in Hf. apply fits_app in Hf. by rewrite zlen_sub in Hf by lia.
Qed.

(** A piece between two positions. *)
Definition piece_ok (lo hi : Z) (pl : Z * bytes) : Prop := lo <= pl.1 /\ 0 < zlen pl.2 /\ pend pl <= hi /\ fits pl.1 pl.2.

Lemma piece_ok_weaken lo hi lo' hi' pl : piece_ok lo hi pl -> lo' <= lo -> hi <= hi' -> piece_ok lo' hi' pl.
Proof. intros (?&?&?&?) ? ?. split_and!; [lia..|done]. Qed.
Lemma pieces_weaken lo hi lo' hi' ps : Forall (piece_ok lo hi) ps -> lo' <= lo -> hi <= hi' -> Forall (piece_ok lo' hi') ps.
Proof. intros H ??. eapply Forall_impl; [done|]. intros pl Hpl. by eapply piece_ok_weaken. Qed.

(** ** Delivery *)

(** The connection has received the stream up to [n], of which the application
    has read [k] bytes, and its byte counter does not overflow up to [last_pos]. *)
Record cursor (k n : Z) (c : TcpConnection) : Prop := {
  cu_nxt : rcv_nxt c = seq_of (b + n);
  cu_len : zlen (rx_buffer c) = n - k;
  cu_rx : fits k (rx_buffer c);
  cu_count : bytes_received (stats c) + (last_pos - n) <= u64_max;
}.

(** Everything a connection has besides its receive buffers and statistics. *)
Definition rest_of (c : TcpConnection) : TcpConnection :=
  set_rx_buffer [] (set_rcv_nxt 0 (set_ooo_segments [] (set_ooo_queue ∅ (set_stats stats_default c)))).

Lemma deliver_at k n data c : cursor k n c -> fits n data -> n + zlen data <= last_pos ->
  wp (deliver data)
     (fun _ c' => cursor k (n + zlen data) c' /\ rx_buffer c' = rx_buffer c ++ data /\
        ooo_segments c' = ooo_segments c /\ rest_of c' = rest_of c) noerr c.
Proof.
  intros [Hn Hlen Hrx Hc] Hf Hle. unfold deliver, wp, ibind, iset, count. cbn [stats set_rx_buffer set_rcv_nxt].
  unfold add_u64. rewrite (proj2 (Z.leb_le _ _)) by lia.
  split; [|by destruct c]. split; cbn.
  - rewrite Hn, wrapping_add_pos. f_equal. lia.
  - rewrite zlen_app. lia.
  - apply fits_app. split; [done|]. replace (k + zlen (rx_buffer c)) with n by lia. done.
  - lia.
Qed.

(** ** Draining the queue *)

(** What a run over the queue [ps] at [n] leads to: [n'] and the queue [ps']
    hold the same bytes, and everything else is as it was. *)
Record drained (k n n' : Z) (ps ps' : list (Z * bytes)) (c c' : TcpConnection) : Prop := {
  dr_cursor : cursor k n' c';
  dr_more : n <= n';
  dr_rx : rx_buffer c `prefix_of` rx_buffer c';
  dr_sub : ps' `sublist_of` ps;
  dr_held i : held n' ps' i <-> held n ps i;
  dr_limit R : Forall (fun pl => pend pl <= R) ps -> n <= R -> n' <= R;
  dr_rest : rest_of c' = rest_of c;
}.

Lemma drained_trans k n n1 n2 ps ps1 ps2 c c1 c2 :
  drained k n n1 ps ps1 c c1 -> drained k n1 n2 ps1 ps2 c1 c2 -> drained k n n2 ps ps2 c c2.
Proof.
  intros [C1 M1 X1 S1 H1 L1 R1] [C2 M2 X2 S2 H2 L2 R2]. split; [done|lia|by etrans|by etrans| | |congruence].
  - intros i. by rewrite H2, H1.
  - intros R HR Hn. apply L2; [|by apply L1]. by eapply Forall_sublist.
Qed.

Lemma drained_refl k n ps c : cursor k n c -> drained k n n ps ps c c.
Proof. by split. Qed.

(** A piece in front of the queue is kept, dropped as old, or delivered. *)
Lemma drained_keep k n n' pl ps ps' c c' : drained k n n' ps ps' c c' -> drained k n n' (pl :: ps) (pl :: ps') c c'.
Proof.
  intros [C M X S H L R]. split; try done; [by apply sublist_skip| |].
  - intros i. unfold held in *. rewrite !covered_cons. specialize (H i). tauto.
  - intros R' [_ HR]%Forall_cons Hn. by apply L.
Qed.

Lemma drained_old k n n' pl ps ps' c c' : pend pl <= n -> drained k n n' ps ps' c c' -> drained k n n' (pl :: ps) ps' c c'.
Proof.
  intros Ho [C M X S H L R]. split; try done; [by apply sublist_cons| |].
  - intros i. rewrite H. unfold held. rewrite covered_cons.
    split; [tauto|]. intros [?|[?|?]]; [by left|left; lia|by right].
  - intros R' [_ HR]%Forall_cons Hn. by apply L.
Qed.

Lemma drained_next k n n' pl ps ps' c c1 c' : pl.1 <= n <= pend pl -> rest_of c1 = rest_of c ->
  rx_buffer c `prefix_of` rx_buffer c1 ->
  drained k (pend pl) n' ps ps' c1 c' -> drained k n n' (pl :: ps) ps' c c'.
Proof.
  intros Ho Hc Hx [C M X S H L R]. split; try done; [lia|by etrans|by apply sublist_cons| | |congruence].
  - intros i. rewrite H. unfold held. rewrite covered_cons.
    destruct (decide (i < n)); [|destruct (decide (i < pend pl))]; naive_solver lia.
  - intros R' [HR1 HR]%Forall_cons Hn. by apply L.
Qed.

Lemma drain_pass_spec k lo hi ps : Forall (piece_ok lo hi) ps -> hi - lo < 2 ^ 31 -> hi <= last_pos ->
  forall n c, lo <= n <= hi -> cursor k n c ->
  wp (drain_pass (enc <$> ps))
     (fun r c' => exists n' ps', r.2 = enc <$> ps' /\ ooo_segments c' = ooo_segments c /\ drained k n n' ps ps' c c' /\
        if r.1 : bool then (length ps' < length ps)%nat else n' = n /\ ps' = ps /\ Forall (fun pl => n < pl.1) ps) noerr c.
Proof.
  intros Hps Hnear Hlast. induction Hps as [|pl ps Hpl Hps IH]; intros n c Hn Hc.
  { exists n, []. split_and!; try done; by apply drained_refl. }
  rewrite fmap_cons. cbn [drain_pass]. apply wp_bind, wp_get. rewrite (cu_nxt _ _ _ Hc), seg_end_piece.
  destruct Hpl as (Hp0 & Hl0 & Hple & Hfit). rewrite pos_le by (unfold pend in *; lia).
  destruct (pend pl <=? n) eqn:Hold; bool_facts.
  { apply wp_bind. eapply wp_mono; [by apply IH| |done].
    intros [a kept] c' (n' & ps' & Hk & Ho & Hd & Ha). cbn [fst snd] in Hk, Ha. subst kept.
    apply wp_ret. exists n', ps'. split_and!; try done; [by apply drained_old|].
    pose proof (sublist_length _ _ (dr_sub _ _ _ _ _ _ _ Hd)). simpl. lia. }
  change (enc pl).1 with (seq_of (b + pl.1)). change (enc pl).2 with pl.2.
  rewrite pos_le by (unfold pend in *; lia). destruct (pl.1 <=? n) eqn:Hin; bool_facts.
  - rewrite pos_diff by (unfold pend in *; lia). apply wp_bind. unfold slice_from, pend in *.
    rewrite slice_Ok by lia. destruct (fits_sub _ _ (n - pl.1) Hfit ltac:(lia)) as [_ Hfresh].
    replace (pl.1 + (n - pl.1)) with n in Hfresh by lia. set (fresh := sub pl.2 (n - pl.1) (zlen pl.2 - (n - pl.1))) in *.
    assert (zlen fresh = pl.1 + zlen pl.2 - n) as Hfl by (unfold fresh; rewrite zlen_sub; lia).
    apply wp_lift. simpl. apply wp_bind. eapply wp_mono; [apply (deliver_at k n); [done..|lia]| |done].
    intros _ c1 (Hc1 & Hx1 & Ho1 & Hr1). replace (n + zlen fresh) with (pend pl) in Hc1 by (unfold pend; lia).
    apply wp_bind. eapply wp_mono; [apply (IH (pend pl)); [unfold pend; lia|done]| |done].
    intros [a kept] c' (n' & ps' & Hk & Ho & Hd & Ha). cbn [fst snd] in Hk, Ha. subst kept.
    apply wp_ret. exists n', ps'. split_and!; try done; [congruence| |].
    + apply (drained_next _ _ _ _ _ _ _ c1); [unfold pend; lia|done| |done]. rewrite Hx1. by apply prefix_app_r.
    + pose proof (sublist_length _ _ (dr_sub _ _ _ _ _ _ _ Hd)). simpl. lia.
  - apply wp_bind. eapply wp_mono; [by apply IH| |done].
    intros [a kept] c' (n' & ps' & Hk & Ho & Hd & Ha). cbn [fst snd] in Hk, Ha. subst kept.
    apply wp_ret. exists n', (pl :: ps'). split_and!; try done; [by apply drained_keep|].
    destruct a; simpl in *; [lia|]. destruct Ha as (-> & -> & Ha). split_and!; try done. by constructor.
Qed.

(** The loop ends, within a round per queued piece, with nothing left that
    could be delivered. *)
Lemma drain_loop_spec k lo hi fuel : hi - lo < 2 ^ 31 -> hi <= last_pos ->
  forall ps n c, (length ps <= fuel)%nat -> Forall (piece_ok lo hi) ps -> lo <= n <= hi -> cursor k n c ->
  ooo_segments c = enc <$> ps ->
  wp (drain_loop fuel)
     (fun _ c' => exists n' ps', ooo_segments c' = enc <$> ps' /\ drained k n n' ps ps' c c' /\
        Forall (fun pl => n' < pl.1) ps') noerr c.
Proof.
  intros Hnear Hlast. induction fuel as [|fuel IH]; intros ps n c Hf Hps Hn Hc Ho.
  all: cbn [drain_loop]; apply wp_bind, wp_get; rewrite Ho; apply wp_bind.
  all: eapply wp_mono; [by eapply drain_pass_spec| |done].
  all: intros [a kept] c1 (n1 & ps1 & Hk & Ho1 & Hd & Ha); cbn [fst snd] in Hk, Ha; subst kept; apply wp_bind; cbn [fst snd].
  all: unfold wp at 1, iset; assert (cursor k n1 (set_ooo_segments (enc <$> ps1) c1)) as Hc1 by (by destruct Hd as [[]]).
  all: assert (drained k n n1 ps ps1 c (set_ooo_segments (enc <$> ps1) c1)) as Hd1
    by (destruct Hd as [? ? ? ? ? ? Hr]; split; [done..|exact Hr]).
  all: destruct a; [|destruct Ha as (-> & -> & Ha); apply wp_ret; exists n, ps; split_and!; [done|exact Hd1|done]].
  - lia.
  - eapply wp_mono; [apply (IH ps1 n1); [lia| | |done..]| |done].
    { by eapply Forall_sublist; [apply (dr_sub _ _ _ _ _ _ _ Hd)|]. }
    { split; [pose proof (dr_more _ _ _ _ _ _ _ Hd); lia|]. apply (dr_limit _ _ _ _ _ _ _ Hd); [|lia].
      eapply Forall_impl; [done|]. by intros pl (_&_&?&_). }
    intros _ c' (n' & ps' & Ho' & Hd' & Ha'). exists n', ps'. split_and!; [done| |done]. by eapply drained_trans.
Qed.

(** ** Queueing a piece *)

Lemma filter_pieces (f g : Z * bytes -> bool) (ps : list (Z * bytes)) : (forall pl, pl ∈ ps -> f (enc pl) = g pl) ->
  filter (fun s => Is_true (f s)) (enc <$> ps) = enc <$> filter (fun pl => Is_true (g pl)) ps.
Proof.
  intros Hfg. induction ps as [|pl ps IH]; [done|]. rewrite fmap_cons, !filter_cons.
  rewrite (Hfg pl) by constructor. rewrite IH by (intros; apply Hfg; by constructor). by destruct (g pl).
Qed.

(** [pl] contains [ql]. *)
Definition contains (pl ql : Z * bytes) : bool := (pl.1 <=? ql.1) && (pend ql <=? pend pl).

Lemma contains_seq lo hi pl ql : piece_ok lo hi pl -> piece_ok lo hi ql -> hi - lo < 2 ^ 31 ->
  seq_le (enc pl).1 (enc ql).1 && seq_le (seg_end_of (enc ql)) (seg_end_of (enc pl)) = contains pl ql.
Proof.
  intros (?&?&?&_) (?&?&?&_) ?. rewrite !seg_end_piece. cbn [piece fst]. unfold pend in *. rewrite !pos_le by lia. done.
Qed.

Lemma buffer_ooo_spec lo hi ql (ps : list (Z * bytes)) c : piece_ok lo hi ql -> Forall (piece_ok lo hi) ps -> hi - lo < 2 ^ 31 ->
  ooo_segments c = enc <$> ps -> segs_bytes ps <= MAX_OOO_BYTES -> NoDup ps.*1 ->
  wp (buffer_ooo (seq_of (b + ql.1)) ql.2)
     (fun _ c' => exists ps', c' = set_ooo_segments (enc <$> ps') c /\
        (exists qs, ps' ≡ₚ qs /\ qs `sublist_of` ps ++ [ql]) /\ segs_bytes ps' <= MAX_OOO_BYTES /\ NoDup ps'.*1 /\
        (ql ∈ ps -> ps' = ps) /\
        (segs_bytes ps + zlen ql.2 <= MAX_OOO_BYTES -> forall i, covered ps' i <-> covered ps i \/ ql.1 <= i < pend ql)) noerr c.
Proof.
  intros Hql Hps Hnear Ho Hbytes Hnd. unfold buffer_ooo.
  change (wrapping_add_u32 (seq_of (b + ql.1)) (as_u32 (zlen ql.2))) with (seg_end_of (enc ql)).
  change (seq_of (b + ql.1)) with (enc ql).1. apply wp_bind, wp_get. rewrite Ho.
  assert (forall pl, pl ∈ ps -> piece_ok lo hi pl) as Hok by (by apply Forall_forall).
  destruct (existsb _ _) eqn:Hex.
  - apply wp_ret. apply existsb_exists in Hex as (s & Hs & Hc). apply list_elem_of_In, list_elem_of_fmap in Hs as (pl & -> & Hpl).
    rewrite (contains_seq lo hi) in Hc by auto. unfold contains in Hc. bool_facts.
    exists ps. split_and!; [by destruct c; simpl in *; subst| |done|done|done|].
    { exists ps. split; [done|]. by apply sublist_inserts_r. }
    intros _ i. split; [by left|]. intros [?|?]; [done|]. exists pl. split; [done|lia].
  - assert (~ ql ∈ ps) as Hnew.
    { intros Hpl. apply not_true_iff_false in Hex. apply Hex. apply existsb_exists. exists (enc ql).
      split; [by apply list_elem_of_In, list_elem_of_fmap_2|]. rewrite (contains_seq lo hi) by auto. unfold contains. lia. }
    apply wp_bind. unfold wp at 1, iset. apply wp_bind, wp_get. unfold ooo_bytes. cbn [ooo_segments set_ooo_segments].
    rewrite Ho, (filter_pieces (fun s => negb (seq_le (enc ql).1 s.1 && seq_le (seg_end_of s) (seg_end_of (enc ql)))) (fun pl => negb (contains ql pl)))
      by (intros pl Hpl; f_equal; by apply (contains_seq lo hi); auto).
    set (kept := filter _ ps). assert (kept `sublist_of` ps) as Hsub by apply sublist_filter.
    rewrite segs_bytes_pieces. pose proof (segs_bytes_sublist _ _ Hsub).
    destruct (MAX_OOO_BYTES <? segs_bytes kept + zlen ql.2) eqn:Hmax; bool_facts.
    + apply wp_ret. exists kept. split_and!; [done| |lia|by eapply NoDup_keys_sublist|done|lia].
      exists kept. split; [done|]. by apply sublist_inserts_r.
    + apply wp_bind, wp_get. cbn [ooo_segments set_ooo_segments].
      change [((enc ql).1, ql.2)] with (enc <$> [ql]). rewrite <- fmap_app.
      assert (NoDup (kept ++ [ql]).*1) as Hnd'.
      { rewrite fmap_app. apply NoDup_app. split_and!; [by eapply NoDup_keys_sublist| |apply NoDup_singleton].
        intros x Hx ->%list_elem_of_singleton. apply list_elem_of_fmap in Hx as (pl & Hx & [Hc Hpl]%list_elem_of_filter).
        apply not_true_iff_false in Hex. apply Hex, existsb_exists. exists (enc pl).
        split; [by apply list_elem_of_In, list_elem_of_fmap_2|]. rewrite (contains_seq lo hi) by auto.
        unfold contains in *. destruct (pend pl <=? pend ql) eqn:E; bool_facts; [|lia].
        rewrite (proj2 (Z.leb_le ql.1 pl.1)) in Hc by lia. done. }
      destruct (sort_pieces b lo hi Hnear (E:=Empty_set) (kept ++ [ql])) as (ps' & Hs & Hperm); [|done|].
      { apply Forall_app. split; [|apply Forall_singleton]; [|destruct Hql as (?&?&?&_); unfold pend in *; lia].
        apply Forall_forall. intros pl [_ Hpl]%list_elem_of_filter. destruct (Hok pl Hpl) as (?&?&?&_). unfold pend in *. lia. }
      apply wp_bind, wp_lift. rewrite Hs. cbn [owp]. unfold wp, iset. symmetry in Hperm.
      exists ps'. split_and!; [done| | |by rewrite <- Hperm|done|].
      { exists (kept ++ [ql]). split; [by symmetry|]. by apply sublist_app. }
      { rewrite <- (segs_bytes_perm _ _ Hperm), segs_bytes_app, segs_bytes_cons. cbn. lia. }
      intros _ i. rewrite <- (covered_perm _ _ _ Hperm), covered_app, covered_cons. split.
      * intros [(pl & Hpl & Hi)|[?|Hn]]; [left|by right|by apply covered_nil in Hn].
        exists pl. split; [by eapply elem_of_sublist|done].
      * intros [(pl & Hpl & Hi)|?]; [|by right; left].
        destruct (contains ql pl) eqn:Hc; [right; left; unfold contains in Hc; bool_facts; lia|].
        left. exists pl. split; [|done]. apply list_elem_of_filter. split; [by rewrite Hc|done].
Qed.

(** ** Accepting a segment *)

(** The receive side between two segments: [n] bytes of the stream received,
    [k] of them read, and the pieces [ps] queued, all strictly ahead of [n] and
    inside the receive window, at distinct positions and within the memory limit
    of the queue. *)
Record recv_inv (k n : Z) (ps : list (Z * bytes)) (c : TcpConnection) : Prop := {
  ri_cursor : cursor k n c;
  ri_ooo : ooo_segments c = enc <$> ps;
  ri_pieces : Forall (piece_ok (n + 1) (Z.min (n + 65535) (k + rcv_capacity c))) ps;
  ri_fit : n <= k + rcv_capacity c;
  ri_bytes : segs_bytes ps <= MAX_OOO_BYTES /\ NoDup ps.*1;
}.

Lemma rest_capacity c c' : rest_of c' = rest_of c -> rcv_capacity c' = rcv_capacity c.
Proof. intros H. apply (f_equal rcv_capacity) in H. exact H. Qed.

Lemma recv_window k n ps c : recv_inv k n ps c -> current_rcv_wnd c = Z.min (k + rcv_capacity c - n) 65535.
Proof.
  intros [[_ Hlen _ _] _ _ Hf _]. unfold current_rcv_wnd. rewrite Hlen, saturating_sub_eq.
  unfold as_u16. rewrite Z.mod_small by lia. lia.
Qed.

Lemma recv_inv_view k n ps c c' : recv_inv k n ps c -> rcv_nxt c' = rcv_nxt c -> rx_buffer c' = rx_buffer c ->
  ooo_segments c' = ooo_segments c -> rcv_capacity c' = rcv_capacity c ->
  bytes_received (stats c') = bytes_received (stats c) -> recv_inv k n ps c'.
Proof.
  intros [[] ? ? ? ?] E1 E2 E3 E4 E5. split; [split|..]; rewrite ?E1, ?E2, ?E3, ?E4, ?E5; done.
Qed.

(** What a segment adds: nothing received is lost, and if the segment fits the
    window and the queue, exactly its own bytes are gained. *)
Record accepted (k n : Z) (ps : list (Z * bytes)) (ql : Z * bytes) (c : TcpConnection)
    (n' : Z) (ps' : list (Z * bytes)) (c' : TcpConnection) : Prop := {
  ac_inv : recv_inv k n' ps' c';
  ac_more : n <= n' <= n + 65535;
  ac_rx : rx_buffer c `prefix_of` rx_buffer c';
  ac_rest : rest_of c' = rest_of c;
  ac_all : pend ql <= n + current_rcv_wnd c -> segs_bytes ps + zlen ql.2 <= MAX_OOO_BYTES \/ ql ∈ ps ->
    (forall i, held n' ps' i <-> held n ps i \/ ql.1 <= i < pend ql) /\ (forall pl, pl ∈ ps' -> pl ∈ ps \/ pl = ql) /\
    (NoDup ps -> NoDup ps');
}.

Lemma accepted_old k n ps ql c : recv_inv k n ps c -> pend ql <= n -> accepted k n ps ql c n ps c.
Proof.
  intros Hi Hq. split; [done|lia|done|done|]. intros _ _. split_and!; [|by left|done].
  intros i. split; [by left|]. intros [?|?]; [done|]. left. lia.
Qed.
Lemma accepted_refused k n ps ql c : recv_inv k n ps c -> n + current_rcv_wnd c < pend ql -> accepted k n ps ql c n ps c.
Proof. intros Hi Hq. split; [done|lia|done|done|]. intros. lia. Qed.

Lemma sync_view (Q : TcpConnection -> Prop) c :
  (forall m, Q (set_ooo_queue m c)) -> wp sync_legacy_ooo_view (fun _ => Q) noerr c.
Proof. intros H. unfold sync_legacy_ooo_view, wp, iset. apply H. Qed.

(** In-order data, already trimmed to the window. *)
Lemma accept_in_order k n ps ql data c : recv_inv k n ps c -> n + 65535 <= last_pos -> ql.1 <= n -> n < pend ql ->
  fits n data -> 0 < zlen data -> zlen data = Z.min (pend ql - n) (current_rcv_wnd c) ->
  wp (do! (do! deliver data in drain_ooo) in sync_legacy_ooo_view)
     (fun _ c' => exists n' ps', accepted k n ps ql c n' ps' c') noerr c.
Proof.
  intros Hi Hlast Hq Hn Hfits Hl2 Hl2e. pose proof (recv_window _ _ _ _ Hi) as Hw. destruct Hi as [Hc Ho Hps Hfit [Hb Hnd]].
  apply wp_bind, wp_bind. eapply wp_mono; [apply (deliver_at k n); [done..|lia]| |done].
  intros _ c1 (Hc1 & Hx1 & Ho1 & Hr1). unfold drain_ooo. rewrite Ho in Ho1.
  eapply wp_mono; [apply (drain_loop_spec k n (Z.min (n + 65535) (k + rcv_capacity c)) _ ltac:(lia) ltac:(lia) ps (n + zlen data));
    [rewrite Ho1, length_fmap; done|eapply pieces_weaken; [done|lia..]|lia|done..]| |done].
  intros _ c2 (n' & ps' & Ho2 & [Hc2 Hm Hx2 Hsub Hheld Hl Hr2] & Ha2). apply sync_view. intros m. exists n', ps'.
  assert (rest_of (set_ooo_queue m c2) = rest_of c) as Hr by (transitivity (rest_of c2); [done|congruence]).
  assert (n' <= n + 65535).
  { apply Hl; [|lia]. eapply Forall_impl; [done|]. intros pl (?&?&?&?). lia. }
  split; [|lia| |done|].
  - assert (rcv_capacity c2 = rcv_capacity c) as Hcap by (apply rest_capacity; congruence).
    split; [by destruct Hc2|done|..]; cbn [rcv_capacity set_ooo_queue]; rewrite ?Hcap.
    + apply Forall_forall. intros pl Hpl. eapply Forall_forall in Ha2; [|done].
      eapply elem_of_sublist in Hpl; [|done]. eapply Forall_forall in Hps as (?&?&?&?); [|done]. split_and!; [lia..|done].
    + apply (Hl (k + rcv_capacity c)); [|lia]. eapply Forall_impl; [done|]. intros pl (?&?&?&?). lia.
    + pose proof (segs_bytes_sublist _ _ Hsub). split; [lia|by eapply NoDup_keys_sublist].
  - cbn [rx_buffer set_ooo_queue]. etrans; [|done]. rewrite Hx1. by apply prefix_app_r.
  - intros Hwin _. assert (n + zlen data = pend ql) as E by lia. rewrite E in Hheld. split_and!.
    + intros i. rewrite Hheld. unfold held. destruct (decide (i < n)); naive_solver lia.
    + intros pl Hpl. left. by eapply elem_of_sublist.
    + intros Hnd'. by eapply sublist_NoDup.
Qed.

(** Data ahead of what was received, already trimmed to the window. *)
Lemma accept_ahead k n ps ql data c : recv_inv k n ps c -> n < ql.1 -> fits ql.1 data -> 0 < zlen data ->
  zlen data = Z.min (zlen ql.2) (n + current_rcv_wnd c - ql.1) -> (pend ql <= n + current_rcv_wnd c -> data = ql.2) ->
  wp (do! buffer_ooo (seq_of (b + ql.1)) data in sync_legacy_ooo_view)
     (fun _ c' => exists n' ps', accepted k n ps ql c n' ps' c') noerr c.
Proof.
  intros Hi Hq Hfits Hl2 Hl2e Hall. pose proof (recv_window _ _ _ _ Hi) as Hw. pose proof Hi as [Hc Ho Hps Hfit [Hb Hndk]].
  set (hi := Z.min (n + 65535) (k + rcv_capacity c)) in *.
  assert (piece_ok (n + 1) hi (ql.1, data)) as Hok by (unfold piece_ok, pend, hi; cbn [fst snd]; split_and!; [lia..|done]).
  apply wp_bind. eapply wp_mono; [apply (buffer_ooo_spec (n + 1) hi (ql.1, data) ps); [done|done|unfold hi; lia|done|done|done]| |done].
  intros _ c' (ps' & -> & (qs & Hperm & Hsub) & Hb' & Hnd' & Hdup & Hcov). apply sync_view. intros m. exists n, ps'.
  split; [|lia|done|done|].
  - split; [by destruct Hc|done| |done|done]. cbn [rcv_capacity set_ooo_queue set_ooo_segments]. fold hi.
    rewrite Hperm. eapply Forall_sublist; [done|]. apply Forall_app. by rewrite Forall_singleton.
  - intros Hwin Hfits'. assert ((ql.1, data) = ql) as E by (rewrite Hall by done; by destruct ql). rewrite E in *.
    assert (forall i, covered ps' i <-> covered ps i \/ ql.1 <= i < pend ql) as Hcov'.
    { destruct Hfits' as [?|Hin]; [by apply Hcov|]. rewrite (Hdup Hin). intros i. split; [by left|].
      intros [?|?]; [done|]. by exists ql. }
    split_and!.
    + intros i. unfold held. rewrite Hcov'. tauto.
    + intros pl Hpl. rewrite Hperm in Hpl. eapply elem_of_sublist in Hpl; [|done].
      by apply elem_of_app in Hpl as [?|?%list_elem_of_singleton]; [left|right].
    + intros Hnd. destruct (decide (ql ∈ ps)) as [Hin|Hin]; [by rewrite (Hdup Hin)|].
      rewrite Hperm. eapply sublist_NoDup; [|done]. apply NoDup_app. split_and!; [done| |apply NoDup_singleton].
      intros x Hx ->%list_elem_of_singleton. done.
Qed.

Lemma is_empty_false (data : bytes) : 0 < zlen data -> is_empty data = false.
Proof. by destruct data. Qed.

(** Trimming to the window. *)
Lemma trim_window (w : Z) (data : bytes) (c : TcpConnection) : 0 < w ->
  (if w <? zlen data then ilift (slice data 0 w) else iret data) c
  = ((Ok (sub data 0 (Z.min (zlen data) w)) : outcome Empty_set bytes), c).
Proof.
  intros. destruct (w <? zlen data) eqn:E; bool_facts.
  - unfold ilift. rewrite slice_Ok by lia. do 3 f_equal. lia.
  - unfold iret. rewrite sub_all by lia. done.
Qed.

Lemma accept_data_spec k n ps ql c : recv_inv k n ps c -> n + 65535 <= last_pos -> 0 < zlen ql.2 < 2 ^ 31 -> fits ql.1 ql.2 ->
  - 2 ^ 31 <= ql.1 - n -> pend ql - n < 2 ^ 31 ->
  wp (accept_data (seq_of (b + ql.1)) ql.2) (fun _ c' => exists n' ps', accepted k n ps ql c n' ps' c') noerr c.
Proof.
  intros Hi Hlast Hl Hf Hlow Hhigh. pose proof (recv_window _ _ _ _ Hi) as Hw.
  pose proof (ri_cursor _ _ _ _ Hi) as Hc. pose proof (ri_fit _ _ _ _ Hi) as Hfit.
  unfold accept_data. rewrite is_empty_false by lia. apply wp_bind, wp_get, wp_bind, wp_get.
  change (wrapping_add_u32 (seq_of (b + ql.1)) (as_u32 (zlen ql.2))) with (seg_end_of (enc ql)).
  rewrite (cu_nxt _ _ _ Hc), seg_end_piece. unfold pend in Hhigh. rewrite pos_le, pos_lt by (unfold pend; lia).
  destruct (pend ql <=? n) eqn:Hold; bool_facts; [apply wp_ret; exists n, ps; by apply accepted_old|].
  unfold pend in Hold. assert (exists q1, q1 = Z.max ql.1 n) as [q1 Hq1] by eauto.
  apply wp_bind. apply (wp_mono _ (fun t c' => c' = c /\ exists data, t = Some (seq_of (b + q1), data) /\
    zlen data = pend ql - q1 /\ fits q1 data /\ (n < ql.1 -> data = ql.2)) _ noerr); [| |done].
  { destruct (ql.1 <? n) eqn:Hlt; bool_facts.
    - rewrite pos_diff by lia. rewrite (proj2 (Z.leb_gt _ _)) by lia. apply wp_bind, wp_lift.
      unfold slice_from. rewrite slice_Ok by lia. apply wp_ret.
      split; [done|]. replace q1 with n by lia. eexists. split_and!; [done| | |lia].
      + rewrite zlen_sub by lia. unfold pend. lia.
      + replace n with (ql.1 + (n - ql.1)) at 1 by lia. apply fits_sub; [done|lia].
    - apply wp_ret. split; [done|]. replace q1 with ql.1 by lia. exists ql.2. split_and!; try done. unfold pend. lia. }
  intros t c' (-> & data & -> & Hlen & Hfd & Hsame). destruct (current_rcv_wnd c =? 0) eqn:Hz; bool_facts.
  { apply wp_ret. exists n, ps. apply accepted_refused; [done|unfold pend; lia]. }
  unfold pend in Hlen. rewrite pos_diff by lia. destruct (current_rcv_wnd c <=? q1 - n) eqn:Hout; bool_facts.
  { apply wp_ret. exists n, ps. apply accepted_refused; [done|unfold pend; lia]. }
  apply wp_bind. unfold wp at 1. rewrite trim_window by lia.
  remember (Z.min (zlen data) (current_rcv_wnd c - (q1 - n))) as w eqn:Hwe. assert (0 < w <= zlen data) as Hw0 by lia.
  destruct (fits_sub _ _ w Hfd ltac:(lia)) as [Hft _]. assert (zlen (sub data 0 w) = w) as Hlw by (rewrite zlen_sub; lia).
  rewrite is_empty_false by lia. rewrite pos_eq by lia. destruct (q1 =? n) eqn:Heq; bool_facts.
  - rewrite Heq in *. apply (accept_in_order k n ps ql); try done; rewrite ?Hlw; unfold pend; lia.
  - replace q1 with ql.1 in * by lia. apply accept_ahead; try done; rewrite ?Hlw; try lia.
    unfold pend. intros Hall. rewrite sub_all by lia. apply Hsame. lia.
Qed.

(** A segment too far ahead looks old and is ignored. *)
Lemma accept_data_far k n ps ql c : recv_inv k n ps c -> 0 < zlen ql.2 < 2 ^ 31 -> ql.1 - n < 2 ^ 31 -> 2 ^ 31 <= pend ql - n ->
  wp (accept_data (seq_of (b + ql.1)) ql.2) (fun _ c' => c' = c) noerr c.
Proof.
  intros Hi Hl Hlow Hhigh. pose proof (ri_cursor _ _ _ _ Hi) as Hc.
  unfold accept_data. rewrite is_empty_false by lia. apply wp_bind, wp_get, wp_bind, wp_get.
  change (wrapping_add_u32 (seq_of (b + ql.1)) (as_u32 (zlen ql.2))) with (seg_end_of (enc ql)).
  rewrite (cu_nxt _ _ _ Hc), seg_end_piece. unfold pend in *.
  assert (seq_of (b + (ql.1 + zlen ql.2)) = seq_of (b + (ql.1 + zlen ql.2 - 2 ^ 32))) as ->.
  { unfold seq_of. rewrite <- (Z.mod_add (b + (ql.1 + zlen ql.2 - 2 ^ 32)) 1) by lia. f_equal. lia. }
  rewrite pos_le by lia. rewrite (proj2 (Z.leb_le _ _)) by lia. by apply wp_ret.
Qed.

(** Reading moves the window on. *)
Lemma read_spec k n ps buf c : recv_inv k n ps c ->
  wp (read buf) (fun r c' => exists m, m = Z.min (zlen buf) (zlen (rx_buffer c)) /\ r = (m, put buf 0 (sub (rx_buffer c) 0 m)) /\
     rx_buffer c = sub (rx_buffer c) 0 m ++ rx_buffer c' /\ recv_inv (k + m) n ps c' /\
     rest_of (set_rcv_wnd 0 c') = rest_of (set_rcv_wnd 0 c)) noerr c.
Proof.
  intros [[Hn Hlen Hrx Hcnt] Ho Hps Hfit Hb]. pose proof (zlen_nonneg buf). pose proof (zlen_nonneg (rx_buffer c)).
  unfold read. apply wp_bind, wp_get. destruct (is_empty (rx_buffer c)) eqn:He.
  { apply wp_ret. destruct (rx_buffer c) eqn:E; [|done]. exists 0. rewrite zlen_nil in Hlen. split_and!; try done.
    - change (zlen ([] : bytes)) with 0. lia.
    - rewrite Z.add_0_r. split; [split|..]; rewrite ?E; done. }
  remember (Z.min (zlen buf) (zlen (rx_buffer c))) as m eqn:Hm. assert (0 <= m <= zlen buf /\ m <= zlen (rx_buffer c)) as [Hm1 Hm2] by lia.
  apply wp_bind, wp_lift. rewrite slice_Ok by lia. rewrite Z.sub_0_r. cbn [owp].
  apply wp_bind, wp_lift. rewrite copy_range_Ok by (rewrite ?zlen_sub; lia). cbn [owp].
  apply wp_bind, wp_lift. unfold slice_from. rewrite slice_Ok by lia. cbn [owp].
  apply wp_bind. unfold wp at 1, iset. apply wp_bind. unfold wp at 1, iset. apply wp_ret. exists m.
  split_and!; try done; [symmetry; apply sub_halves; lia|].
  destruct (fits_sub _ _ m Hrx ltac:(lia)) as [_ Hf2].
  split; [split|..]; cbn [rcv_nxt rx_buffer stats ooo_segments rcv_capacity set_rx_buffer set_rcv_wnd]; try done; try lia.
  - rewrite zlen_sub by lia. lia.
  - eapply pieces_weaken; [done|lia..].
Qed.
End Stream.
