(* ===== verification/TcpDelivery.v ===== *)
(** * What the receive side delivers

    A run of [accept_data] over the segments of one stream, in any order, and a
    run over anything, with reads in between. *)

From S2P Require Import Prelude Bytes NetBytes TcpSeq Checksum Ipv4 TcpSegment Float64 Congestion TcpState TcpConnection TcpReceive.

(** The bytes of [stream] at their positions. *)
Definition of_stream (stream : bytes) (i x : Z) : Prop := 0 <= i /\ stream !! Z.to_nat i = Some x.

(** [data] is what [stream] has at [p]. *)
Definition cut_at (stream : bytes) (pl : Z * bytes) : Prop :=
  0 <= pl.1 /\ 0 < zlen pl.2 /\ pend pl <= zlen stream /\ pl.2 = sub stream pl.1 (zlen pl.2).

Lemma fits_stream stream p data : 0 <= p -> p + zlen data <= zlen stream ->
  fits (of_stream stream) p data <-> data = sub stream p (zlen data).
Proof.
  intros Hp Hle. unfold zlen in *. split.
  - intros H. unfold sub. apply list_eq. intros j. destruct (data !! j) as [x|] eqn:Hj.
    + pose proof (lookup_lt_Some _ _ _ Hj). destruct (H j x Hj) as [_ Hs].
      rewrite lookup_take_lt, lookup_drop by lia. rewrite <- Hs. f_equal. lia.
    + apply lookup_ge_None in Hj. symmetry. apply lookup_take_ge. lia.
  - intros E j x Hj. split; [lia|]. pose proof (lookup_lt_Some _ _ _ Hj). rewrite E in Hj. unfold sub in Hj.
    rewrite lookup_take_lt, lookup_drop in Hj by lia. rewrite <- Hj. f_equal. lia.
Qed.

(** A receive buffer that fits the stream from its start is a prefix of it. *)
Lemma fits_prefix stream data : zlen data <= zlen stream -> fits (of_stream stream) 0 data -> data = sub stream 0 (zlen data).
Proof. intros. apply fits_stream; [lia..|done]. Qed.

(** A connection that has received nothing of a stream that starts at [b]. *)
Definition fresh_receive (b : Z) (c : TcpConnection) : Prop :=
  rcv_nxt c = seq_of b /\ rx_buffer c = [] /\ ooo_segments c = [].

Lemma fresh_inv b allowed last_pos c : fresh_receive b c -> 0 <= rcv_capacity c ->
  bytes_received (stats c) + last_pos <= u64_max -> recv_inv b allowed last_pos 0 0 [] c.
Proof.
  intros (Hn & Hr & Ho) Hcap Hb. split; [split|..].
  - by rewrite Hn, Z.add_0_r.
  - by rewrite Hr.
  - by rewrite Hr.
  - lia.
  - by rewrite Ho.
  - constructor.
  - lia.
  - split; [done|constructor].
Qed.

(** [for seg in arrivals { self.accept_data(seg.seq_num, seg.payload) }] *)
Definition accept_all (arrivals : list (Z * bytes)) : TM unit := ifor (fun s => accept_data s.1 s.2) arrivals.

(** ** Any order *)

Lemma segs_bytes_subset l k : NoDup l -> (forall x, x ∈ l -> x ∈ k) -> segs_bytes l <= segs_bytes k.
Proof.
  intros Hn Hs. apply NoDup_submseteq in Hs; [|done]. apply submseteq_Permutation in Hs as [k' Hk].
  rewrite (segs_bytes_perm _ _ Hk), segs_bytes_app. pose proof (segs_bytes_nonneg k'). lia.
Qed.

Section AnyOrder.
Context (b : Z) (stream : bytes) (Hlen : zlen stream <= 65535).
Abbreviation inv := (recv_inv b (of_stream stream) 131070 0).

Lemma accept_one n ps pl c : inv n ps c -> cut_at stream pl -> zlen stream <= rcv_capacity c -> 0 <= n <= zlen stream ->
  segs_bytes ps + zlen pl.2 <= MAX_OOO_BYTES \/ pl ∈ ps -> NoDup ps -> (forall x, x ∈ ps -> cut_at stream x) ->
  wp (accept_data (piece b pl).1 (piece b pl).2) (fun _ c' => exists n' ps', inv n' ps' c' /\ n <= n' <= zlen stream /\
     rest_of c' = rest_of c /\ (forall i, held n' ps' i <-> held n ps i \/ pl.1 <= i < pend pl) /\
     (forall x, x ∈ ps' -> x ∈ ps \/ x = pl) /\ NoDup ps') noerr c.
Proof using Hlen.
  intros Hi (Hp & Hl & Hle & Hs) Hcap Hn Hroom Hnd Hcut. pose proof (recv_window _ _ _ _ _ _ _ Hi) as Hw. unfold pend in *.
  eapply wp_mono; [eapply (accept_data_spec b (of_stream stream) 131070 0 n ps pl); [done|lia|lia| |unfold pend; lia..]| |done].
  { by apply fits_stream. }
  intros _ c' (n' & ps' & [Hi' Hm _ Hr Hall]). destruct Hall as (Hh & Hin & Hnd'); [unfold pend; lia|done|].
  exists n', ps'. split_and!; try done; [lia| |by apply Hnd'].
  destruct (decide (n' <= zlen stream)) as [|Hgt]; [done|]. exfalso.
  assert (held n' ps' (zlen stream)) as Hheld by (left; lia). apply Hh in Hheld as [[?|(x & Hx & Hix)]|?]; [lia| |unfold pend in *; lia].
  apply Hcut in Hx as (_ & _ & ? & _). lia.
Qed.

Lemma accept_run todo : forall done n ps c, inv n ps c -> Forall (cut_at stream) (done ++ todo) -> zlen stream <= rcv_capacity c ->
  0 <= n <= zlen stream -> segs_bytes (remove_dups (done ++ todo)) <= MAX_OOO_BYTES ->
  (forall i, held n ps i <-> i < 0 \/ covered done i) -> (forall x, x ∈ ps -> x ∈ done) -> NoDup ps ->
  wp (accept_all (piece b <$> todo)) (fun _ c' => exists n' ps', inv n' ps' c' /\ 0 <= n' <= zlen stream /\
     (forall i, held n' ps' i <-> i < 0 \/ covered (done ++ todo) i) /\ rest_of c' = rest_of c) noerr c.
Proof using Hlen.
  induction todo as [|pl todo IH]; intros done n ps c Hi Hcut Hcap Hn Hmax Hheld Hin Hnd.
  { apply wp_ret. exists n, ps. by rewrite app_nil_r. }
  unfold accept_all. rewrite fmap_cons. cbn [ifor]. apply wp_bind.
  assert (forall x, x ∈ ps -> cut_at stream x) as Hpcut.
  { intros x Hx. eapply Forall_forall; [exact Hcut|]. apply elem_of_app. left. auto. }
  eapply wp_mono; [eapply (accept_one n ps pl); try done| |done].
  - eapply Forall_forall; [exact Hcut|]. apply elem_of_app. right. by constructor.
  - destruct (decide (pl ∈ ps)) as [|Hno]; [by right|left].
    enough (segs_bytes (pl :: ps) <= segs_bytes (remove_dups (done ++ pl :: todo))) as Hle by (rewrite segs_bytes_cons in Hle; lia).
    apply segs_bytes_subset; [by constructor|]. intros x Hx. apply elem_of_remove_dups, elem_of_app.
    apply elem_of_cons in Hx as [->|Hx]; [right; by constructor|left; auto].
  - intros [] c' (n' & ps' & Hi' & Hn' & Hr & Hh & Hin' & Hnd'). rewrite <- (rest_capacity _ _ Hr) in Hcap.
    replace (done ++ pl :: todo) with ((done ++ [pl]) ++ todo) in * by (by rewrite <- app_assoc).
    eapply wp_mono; [apply (IH (done ++ [pl]) n' ps'); [exact Hi'|exact Hcut|exact Hcap|lia|exact Hmax| | |exact Hnd']| |done].
    + intros i. rewrite Hh, Hheld, covered_app, covered_cons. pose proof (covered_nil i). tauto.
    + intros x [Hx| ->]%Hin'; apply elem_of_app; [left; auto|right; by constructor].
    + intros _ c'' (n'' & ps'' & ?&?&?&?). exists n'', ps''. split_and!; try done; try lia. congruence.
Qed.
End AnyOrder.

(** C21: reassembly delivers the stream, in any order. Let segments cut from a
    stream of at most 65535 bytes, overlapping and of any sizes, reach a
    connection that waits for the start of it, in any order and any number of
    times (the different ones together at most 262144 bytes), with any initial
    sequence number. Then no call panics, the receive buffer holds exactly the
    stream up to the first byte that no segment brought, and [rcv_nxt]
    acknowledges exactly that; in particular the whole stream once every byte of
    it has arrived. *)
Theorem receive_any_order b stream arrivals c : zlen stream <= 65535 -> fresh_receive b c ->
  zlen stream <= rcv_capacity c -> bytes_received (stats c) <= 2 ^ 63 ->
  Forall (cut_at stream) arrivals -> segs_bytes (remove_dups arrivals) <= MAX_OOO_BYTES ->
  exists n c', accept_all (piece b <$> arrivals) c = (Ok tt, c') /\
    rx_buffer c' = sub stream 0 n /\ rcv_nxt c' = seq_of (b + n) /\
    (forall i, 0 <= i < n -> covered arrivals i) /\ ~ covered arrivals n /\
    ((forall i, 0 <= i < zlen stream -> covered arrivals i) -> rx_buffer c' = stream /\ ooo_segments c' = []).
Proof.
  intros Hlen Hf Hcap Hb Hcut Hmax. pose proof (zlen_nonneg stream).
  pose proof (fresh_inv b (of_stream stream) 131070 c Hf ltac:(lia) ltac:(ulia)) as Hi.
  pose proof (accept_run b stream Hlen arrivals [] 0 [] c Hi Hcut Hcap ltac:(lia) Hmax ltac:(done) ltac:(set_solver) (NoDup_nil_2)) as Hrun.
  unfold wp in Hrun. destruct (accept_all _ c) as [[[]|[]|] c']; [|done].
  destruct Hrun as (n & ps & Hi' & Hn & Hheld & _).
  destruct Hi' as [[Hnxt Hzl Hrx _] Ho Hps _ _]. rewrite Z.sub_0_r in Hzl. simpl in Hheld.
  apply fits_prefix in Hrx; [|lia]. rewrite Hzl in Hrx.
  assert (~ covered arrivals n) as Hgap.
  { intros Hc. destruct (proj2 (Hheld n) (or_intror Hc)) as [?|(pl & Hpl & ?)]; [lia|].
    eapply Forall_forall in Hps as (?&_); [|done]. lia. }
  exists n, c'. split_and!; try done.
  - intros i Hi0. destruct (proj1 (Hheld i)) as [?|?]; [by left; lia|lia|done].
  - intros Hall. assert (n = zlen stream) as -> by (destruct (decide (n = zlen stream)); [done|]; exfalso; apply Hgap, Hall; lia).
    split; [by rewrite Hrx, sub_all|]. destruct ps as [|pl ps]; [by rewrite Ho|]. exfalso.
    apply Forall_cons in Hps as [(?&?&?&Hfit) _]. unfold pend in *.
    destruct (lookup_lt_is_Some_2 pl.2 0) as [x Hx]; [unfold zlen in *; lia|].
    destruct (Hfit _ _ Hx) as [_ Hs]. apply lookup_lt_Some in Hs. unfold zlen in *. lia.
Qed.

Lemma receive_any_order_witness :
  let l := {| ip := LOCALHOST; port := 80 |} in
  let cc := {| cwnd := 2920; ssthresh := 65535; cc_mss := 1460; dup_ack_count := 0; cc_state := SlowStart; in_flight := 0 |} in
  exists c', accept_all (piece (2 ^ 32 - 2) <$> [(3, [4; 5; 6]); (1, [2; 3]); (3, [4; 5; 6]); (0, [1; 2])])
    (set_rcv_nxt (2 ^ 32 - 2) (initial Listen l l 1000 1460 cc)) = (Ok tt, c') /\ rx_buffer c' = [1; 2; 3; 4; 5; 6].
Proof.
  intros l cc. set (c := set_rcv_nxt _ _).
  destruct (receive_any_order (2 ^ 32 - 2) [1; 2; 3; 4; 5; 6] [(3, [4; 5; 6]); (1, [2; 3]); (3, [4; 5; 6]); (0, [1; 2])] c)
    as (n & c' & Hrun & _ & _ & _ & _ & Hall);
    [by vm_compute|by split_and!|by vm_compute|by vm_compute|repeat constructor; by vm_compute|by vm_compute|].
  exists c'. split; [exact Hrun|]. apply Hall. intros i Hi.
  unfold covered. destruct (decide (i < 2)); [exists (0, [1; 2])|destruct (decide (i < 3)); [exists (1, [2; 3])|exists (3, [4; 5; 6])]];
    (split; [repeat (apply list_elem_of_here || apply list_elem_of_further)|]); unfold pend, zlen in *; simpl in *; lia.
Defined.

(** ** Anything at all *)

Definition anything (i x : Z) : Prop := True.
Lemma fits_anything p data : fits anything p data. Proof. done. Qed.

(** The position of a sequence number, seen from [n]. *)
Lemma position_of b n seq : is_u32 seq -> exists q, seq = seq_of (b + q) /\ - 2 ^ 31 <= q - n < 2 ^ 31.
Proof.
  intros Hs. set (d := as_i32 (seq_of (seq - (b + n)))). exists (n + d).
  assert (exists k, d = seq - (b + n) + k * 2 ^ 32 /\ - 2 ^ 31 <= d < 2 ^ 31) as (k & Hd & Hr).
  { subst d. unfold as_i32, seq_of. pose proof (Z.mod_pos_bound (seq - (b + n)) (2 ^ 32) ltac:(lia)).
    pose proof (Z.div_mod (seq - (b + n)) (2 ^ 32) ltac:(lia)) as Hdm.
    set (q := (seq - (b + n)) / 2 ^ 32) in *. set (r := (seq - (b + n)) mod 2 ^ 32) in *.
    destruct (r <? 2 ^ 31) eqn:E; bool_facts; [exists (- q)|exists (- q - 1)]; lia. }
  split; [|lia]. rewrite Hd. replace (b + (n + (seq - (b + n) + k * 2 ^ 32))) with (seq + k * 2 ^ 32) by lia.
  unfold seq_of. rewrite Z.mod_add by lia. symmetry. apply Z.mod_small. ulia.
Qed.

Lemma accept_any b last_pos k n ps seq data c : recv_inv b anything last_pos k n ps c -> n + 65535 <= last_pos ->
  is_u32 seq -> zlen data < 2 ^ 31 ->
  wp (accept_data seq data) (fun _ c' => exists n' ps', recv_inv b anything last_pos k n' ps' c' /\ n <= n' <= n + 65535 /\
     rest_of c' = rest_of c) noerr c.
Proof.
  intros Hi Hlast Hs Hl. destruct (decide (zlen data = 0)) as [H0|H0].
  { destruct data; [|rewrite zlen_cons in H0; pose proof (zlen_nonneg data); lia]. apply wp_ret. exists n, ps. split_and!; [done|lia..|done]. }
  pose proof (zlen_nonneg data). destruct (position_of b n seq Hs) as (q & -> & Hq).
  destruct (decide (q + zlen data - n < 2 ^ 31)) as [Hnear|Hfar].
  - eapply wp_mono; [apply (accept_data_spec b anything last_pos k n ps (q, data)); try done; cbn; unfold pend; cbn; lia| |done].
    intros _ c' (n' & ps' & [Hi' Hm _ Hr _]). by exists n', ps'.
  - eapply wp_mono; [apply (accept_data_far b anything last_pos k n ps (q, data)); try done; cbn; unfold pend; cbn; lia| |done].
    intros _ c' ->. exists n, ps. split_and!; [done|lia..|done].
Qed.

(** What can happen to the receive side. *)
Inductive recv_op : Type :=
| Arrive (seq : Z) (data : bytes)
| ReadInto (buf : bytes).
Definition recv_step (op : recv_op) : TM unit :=
  match op with
  | Arrive seq data => accept_data seq data
  | ReadInto buf => do! read buf in iret tt
  end.
Definition recv_op_ok (op : recv_op) : Prop :=
  match op with Arrive seq data => is_u32 seq /\ zlen data < 2 ^ 31 | ReadInto _ => True end.

Lemma recv_run b ops : Forall recv_op_ok ops -> forall k n ps c, recv_inv b anything (n + 65535 * zlen ops) k n ps c ->
  wp (ifor recv_step ops) (fun _ c' => exists last_pos k' n' ps', recv_inv b anything last_pos k' n' ps' c' /\
     rcv_capacity c' = rcv_capacity c) noerr c.
Proof.
  induction 1 as [|op ops Hop Hops IH]; intros k n ps c Hi.
  { apply wp_ret. by eexists _, k, n, ps. }
  pose proof (zlen_nonneg ops). rewrite zlen_cons in Hi. cbn [ifor]. apply wp_bind. destruct op as [seq data|buf]; cbn [recv_step].
  - destruct Hop as [Hs Hl]. eapply wp_mono; [apply (accept_any _ _ _ _ _ _ _ _ Hi); [lia|done..]| |done].
    intros _ c' (n' & ps' & Hi' & Hn' & Hr).
    assert (recv_inv b anything (n' + 65535 * zlen ops) k n' ps' c') as Hi2.
    { destruct Hi' as [[? ? ? ?] ? ? ? ?]. split; [split|..]; try done. lia. }
    eapply wp_mono; [by apply (IH _ _ _ _ Hi2)| |done]. intros _ c'' (lp & k'' & n'' & ps'' & ? & Hc).
    exists lp, k'', n'', ps''. split; [done|]. rewrite Hc. by apply rest_capacity.
  - apply wp_bind. eapply wp_mono; [by apply read_spec| |done].
    intros [m r] c' (m' & _ & _ & _ & Hi' & Hr). apply wp_ret.
    assert (recv_inv b anything (n + 65535 * zlen ops) (k + m') n ps c') as Hi2.
    { destruct Hi' as [[? ? ? ?] ? ? ? ?]. split; [split|..]; try done. lia. }
    eapply wp_mono; [by apply (IH _ _ _ _ Hi2)| |done]. intros _ c'' (lp & k'' & n'' & ps'' & ? & Hc).
    exists lp, k'', n'', ps''. split; [done|]. rewrite Hc. apply (f_equal rcv_capacity) in Hr. exact Hr.
Qed.

(** C22: no peer can exhaust the receive side. Whatever segments arrive (any
    sequence numbers, overlaps, contradictory contents, any lengths below 2 GiB),
    in any order and mixed with reads, no slice of [accept_data] or [drain_ooo]
    goes out of range, no loop fails to end and the sort of the out-of-order
    queue never sees an inconsistent order, the receive buffer never exceeds
    its capacity, so that the advertised window is exactly the room left (at
    most 65535), and the out-of-order queue never exceeds its limit of 262144
    bytes. *)
Theorem receive_bounded ops c : rx_buffer c = [] -> ooo_segments c = [] -> is_u32 (rcv_nxt c) -> 0 <= rcv_capacity c ->
  Forall recv_op_ok ops -> bytes_received (stats c) + 65535 * zlen ops <= u64_max ->
  exists c', ifor recv_step ops c = (Ok tt, c') /\ zlen (rx_buffer c') <= rcv_capacity c /\
    ooo_bytes c' <= MAX_OOO_BYTES /\ current_rcv_wnd c' = Z.min (rcv_capacity c - zlen (rx_buffer c')) 65535.
Proof.
  intros Hrx Ho Hn Hcap Hops Hb.
  pose proof (fresh_inv (rcv_nxt c) anything (0 + 65535 * zlen ops) c) as Hi.
  assert (fresh_receive (rcv_nxt c) c) as Hf by (split_and!; [symmetry; by apply seq_of_small|done|done]).
  pose proof (recv_run _ ops Hops _ _ _ _ (Hi Hf ltac:(lia) ltac:(lia))) as Hrun. unfold wp in Hrun.
  destruct (ifor recv_step ops c) as [[[]|[]|] c']; [|done]. destruct Hrun as (lp & k & n & ps & Hi' & Hc').
  exists c'. split; [done|]. pose proof (recv_window _ _ _ _ _ _ _ Hi') as Hw.
  destruct Hi' as [[_ Hlen _ _] Ho' _ Hfit [Hbytes _]]. rewrite <- Hc'. split_and!; [lia| |rewrite Hw; lia].
  unfold ooo_bytes. by rewrite Ho', segs_bytes_pieces.
Qed.

Lemma receive_bounded_witness :
  let l := {| ip := LOCALHOST; port := 80 |} in
  let cc := {| cwnd := 2920; ssthresh := 65535; cc_mss := 1460; dup_ack_count := 0; cc_state := SlowStart; in_flight := 0 |} in
  exists c', ifor recv_step [Arrive 7 [1; 2]; Arrive 4294967290 [9; 9; 9; 9; 9; 9; 9; 9]; ReadInto [0; 0]; Arrive 1 [5]; Arrive 1 [6; 7; 8]]
    (initial Established l l 1000 1460 cc) = (Ok tt, c') /\ zlen (rx_buffer c') <= 65535.
Proof.
  intros l cc. set (c := initial _ _ _ _ _ _).
  destruct (receive_bounded [Arrive 7 [1; 2]; Arrive 4294967290 [9; 9; 9; 9; 9; 9; 9; 9]; ReadInto [0; 0]; Arrive 1 [5]; Arrive 1 [6; 7; 8]] c)
    as (c' & Hrun & Hlen & _);
    [reflexivity|reflexivity|by vm_compute|by vm_compute|repeat constructor; by vm_compute|by vm_compute|].
  exists c'. split; [exact Hrun|]. exact Hlen.
Defined.
