(* ===== verification/TcpAck.v ===== *)
(** * Acknowledgements

    What an acknowledgement reports (the cumulative acknowledgement, the window
    and the SACK blocks), and when building one fails. *)

From S2P Require Import Prelude Bytes NetBytes TcpSeq Checksum Ipv4 TcpSegment Float64 Congestion TcpState TcpConnection TcpReceive TcpDelivery.

(** ** SACK blocks *)

Section Blocks.
Context (b : Z) (allowed : Z -> Z -> Prop) (lo hi : Z) (Hnear : hi - lo < 2 ^ 31).

(** A block that reports only positions of the queue. *)
Definition block_ok (ps : list (Z * bytes)) (bl : Z * Z) : Prop :=
  exists x y, bl = (seq_of (b + x), seq_of (b + y)) /\ lo <= x < y /\ y <= hi /\ forall i, x <= i < y -> covered ps i.

Lemma block_ok_weaken ps qs bl : (forall x, x ∈ ps -> x ∈ qs) -> block_ok ps bl -> block_ok qs bl.
Proof using.
  intros Hs (x & y & ? & ? & ? & Hc). exists x, y. split_and!; try done; [lia..|].
  intros i Hi. destruct (Hc i Hi) as (pl & Hpl & ?). exists pl. auto.
Qed.

Lemma push_block_ok ps blocks pl : piece_ok allowed lo hi pl -> pl ∈ ps -> Forall (block_ok ps) blocks ->
  Forall (block_ok ps) (push_block blocks (piece b pl)).
Proof using Hnear.
  intros (Hlo & Hl & Hhi & _) Hin Hb. unfold push_block. rewrite seg_end_piece. cbn [piece fst].
  assert (block_ok ps (seq_of (b + pl.1), seq_of (b + pend pl))) as Hnew.
  { exists pl.1, (pend pl). unfold pend in *. split_and!; try done; try lia. intros i Hi. by exists pl. }
  destruct (last blocks) as [bl|] eqn:Hlast; [|apply Forall_app; split; [done|by constructor]].
  apply last_Some in Hlast as [front ->]. apply Forall_app in Hb as [Hf Hbl]. rewrite Forall_singleton in Hbl.
  destruct Hbl as (x & y & -> & Hx & Hy & Hc). cbn [fst snd]. unfold pend in *.
  rewrite pos_eq by lia. destruct (y =? pl.1) eqn:E; bool_facts.
  - rewrite removelast_last. apply Forall_app. split; [done|]. constructor; [|done].
    exists x, (pl.1 + zlen pl.2). split_and!; try done; try lia. intros i Hi. destruct (decide (i < y)); [by apply Hc; lia|].
    exists pl. split; [done|]. unfold pend. lia.
  - apply Forall_app. split; [apply Forall_app; split; [done|]|]; (constructor; [|done]); [|done]. exists x, y. split_and!; try done; lia.
Qed.

Lemma blocks_ok ps : Forall (piece_ok allowed lo hi) ps -> Forall (block_ok ps) (foldl push_block [] (piece b <$> ps)).
Proof using Hnear.
  intros Hps. enough (forall qs blocks, (forall x, x ∈ qs -> x ∈ ps) -> Forall (block_ok ps) blocks ->
    Forall (block_ok ps) (foldl push_block blocks (piece b <$> qs))) as H by (apply H; [done|constructor]).
  induction qs as [|pl qs IH]; intros blocks Hs Hb; [done|]. rewrite fmap_cons. cbn [foldl].
  apply IH; [intros; apply Hs; by constructor|]. assert (pl ∈ ps) by (apply Hs; constructor).
  apply push_block_ok; [by eapply Forall_forall|done..].
Qed.
End Blocks.

(** The byte with sequence number [x] waits in the out-of-order queue. *)
Definition queued_at (c : TcpConnection) (x : Z) : Prop :=
  exists s data, (s, data) ∈ ooo_segments c /\ seq_diff x s < zlen data.

(** C24: a connection reports only what it holds. Whatever segments arrived and
    whatever was read, each SACK block (there are at most four) is a non-empty
    range of sequence numbers ahead of [rcv_nxt] that ends inside the window the
    connection advertises at that moment ([current_rcv_wnd], the room left in
    the receive buffer), and every sequence number of it is stored in the out-of-order queue. *)
Theorem sack_blocks_truthful ops c : rx_buffer c = [] -> ooo_segments c = [] -> is_u32 (rcv_nxt c) -> 0 <= rcv_capacity c ->
  Forall recv_op_ok ops -> bytes_received (stats c) + 65535 * zlen ops <= u64_max ->
  exists c', ifor recv_step ops c = (Ok tt, c') /\ zlen (build_sack_blocks c') <= 4 /\
    forall l r, (l, r) ∈ build_sack_blocks c' ->
      0 < seq_diff l (rcv_nxt c') < seq_diff r (rcv_nxt c') /\ seq_diff r (rcv_nxt c') <= current_rcv_wnd c' /\
      forall j, 0 <= j < seq_diff r l -> queued_at c' (wrapping_add_u32 l j).
Proof.
  intros Hrx Ho Hn Hcap Hops Hb.
  pose proof (fresh_inv (rcv_nxt c) anything (0 + 65535 * zlen ops) c) as Hi.
  assert (fresh_receive (rcv_nxt c) c) as Hf by (split_and!; [symmetry; by apply seq_of_small|done|done]).
  pose proof (recv_run _ ops Hops _ _ _ _ (Hi Hf ltac:(lia) ltac:(lia))) as Hrun. unfold wp in Hrun.
  destruct (ifor recv_step ops c) as [[[]|[]|] c']; [|done]. destruct Hrun as (lp & k & n & ps & Hi' & Hc').
  exists c'. split; [done|]. pose proof (recv_window _ _ _ _ _ _ _ Hi') as Hw.
  destruct Hi' as [[Hnxt _ _ _] Ho' Hps _ _]. unfold build_sack_blocks. split.
  { unfold zlen. rewrite length_take. lia. }
  intros l r Hlr. pose proof (blocks_ok (rcv_nxt c) anything (n + 1) (n + current_rcv_wnd c') ltac:(lia) ps) as Hblocks.
  rewrite Ho' in Hlr. eapply elem_of_sublist in Hlr; [|apply sublist_take].
  eapply Forall_forall in Hlr; [|apply Hblocks; eapply pieces_weaken; [done|lia..]].
  destruct Hlr as (x & y & [= -> ->] & Hx & Hy & Hcov). rewrite Hnxt, !pos_diff by lia. split; [lia|]. split; [lia|].
  intros j Hj. destruct (Hcov (x + j) ltac:(lia)) as (pl & Hpl & Hin). eapply Forall_forall in Hps as (Hp1 & _ & Hp2 & _); [|done].
  exists (piece (rcv_nxt c) pl).1, (piece (rcv_nxt c) pl).2. split.
  { rewrite Ho', <- surjective_pairing. by apply list_elem_of_fmap_2. }
  cbn [piece fst snd]. unfold pend in *. rewrite seq_of_add, <- Z.add_assoc. rewrite pos_diff by lia. lia.
Qed.

Lemma sack_blocks_truthful_witness :
  let l := {| ip := LOCALHOST; port := 80 |} in
  let cc := {| cwnd := 2920; ssthresh := 65535; cc_mss := 1460; dup_ack_count := 0; cc_state := SlowStart; in_flight := 0 |} in
  exists c', ifor recv_step [Arrive 7 [1; 2]; Arrive 9 [3]; Arrive 20 [4]] (initial Established l l 1000 1460 cc) = (Ok tt, c') /\
  zlen (build_sack_blocks c') <= 4.
Proof.
  intros l cc. set (c := initial _ _ _ _ _ _).
  destruct (sack_blocks_truthful [Arrive 7 [1; 2]; Arrive 9 [3]; Arrive 20 [4]] c) as (c' & Hrun & Hlen & _);
    [reflexivity|reflexivity|by vm_compute|by vm_compute|repeat constructor; by vm_compute|by vm_compute|].
  exists c'. split; [exact Hrun|]. exact Hlen.
Defined.

(** ** Building an acknowledgement *)

(** Fields in their ranges. *)
Record conn_wf (c : TcpConnection) : Prop := {
  wf_local : ip_wf (ip (local c)) /\ is_u16 (port (local c));
  wf_remote : ip_wf (ip (remote c)) /\ is_u16 (port (remote c));
  wf_snd_nxt : is_u32 (snd_nxt c);
  wf_rcv_nxt : is_u32 (rcv_nxt c);
  wf_ts : is_u32 (ts_recent c);
  wf_ooo : Forall (fun s => is_u32 s.1) (ooo_segments c);
}.

Lemma current_rcv_wnd_u16 c : is_u16 (current_rcv_wnd c).
Proof. unfold current_rcv_wnd, as_u16, is_u16. pose proof (Z.mod_pos_bound (Z.min (saturating_sub (rcv_capacity c) (zlen (rx_buffer c))) 65535) (2 ^ 16)). ulia. Qed.
Lemma as_u32_range x : is_u32 (as_u32 x).
Proof. unfold as_u32. pose proof (Z.mod_pos_bound x (2 ^ 32)). ulia. Qed.

Abbreviation block_range := (fun bl : Z * Z => is_u32 bl.1 /\ is_u32 bl.2).

Lemma seg_end_of_u32 s : is_u32 (seg_end_of s).
Proof. unfold seg_end_of, wrapping_add_u32. pose proof (Z.mod_pos_bound (s.1 + as_u32 (zlen s.2)) (2 ^ 32)). ulia. Qed.

Lemma push_block_range blocks s : is_u32 s.1 -> Forall block_range blocks -> Forall block_range (push_block blocks s).
Proof.
  intros Hs Hb. unfold push_block. pose proof (seg_end_of_u32 s) as He.
  destruct (last blocks) as [bl|] eqn:Hl; [|apply Forall_app; by split; [|constructor]].
  apply last_Some in Hl as [front ->]. destruct (_ =? _).
  - rewrite removelast_last. apply Forall_app in Hb as [Hf Hbl]. rewrite Forall_singleton in Hbl. destruct Hbl.
    apply Forall_app. by split; [|constructor].
  - apply Forall_app. by split; [|constructor].
Qed.

Lemma sack_blocks_range c : conn_wf c -> Forall block_range (build_sack_blocks c).
Proof.
  intros Hc. unfold build_sack_blocks. apply Forall_take.
  enough (forall l acc, Forall (fun s => is_u32 s.1) l -> Forall block_range acc -> Forall block_range (foldl push_block acc l)) as H
    by (apply H; [apply Hc|constructor]).
  induction l as [|s l IH]; intros acc Hl Hacc; [done|]. apply Forall_cons in Hl as [Hs Hl]. apply IH; [done|].
  by apply push_block_range.
Qed.

Lemma sack_option_cases c : conn_wf c ->
  (sack_option c = [] /\ ~ (sack_permitted c = true /\ length (build_sack_blocks c) = 4%nat)) \/
  (sack_permitted c = true /\ sack_option c = [Sack (build_sack_blocks c)] /\ 1 <= zlen (build_sack_blocks c) <= 4).
Proof.
  intros Hc. unfold sack_option. destruct (sack_permitted c); [|by left; split; [|intros []]].
  destruct (is_empty (ooo_segments c)) eqn:Ho; simpl.
  { left. split; [done|]. unfold build_sack_blocks. by destruct (ooo_segments c); [intros []|]. }
  assert (zlen (build_sack_blocks c) <= 4) by (unfold build_sack_blocks, zlen; rewrite length_take; lia).
  destruct (build_sack_blocks c) as [|bl bls]; simpl; [left; split; [done|by intros []]|].
  right. split_and!; try done. rewrite zlen_cons. pose proof (zlen_nonneg bls). lia.
Qed.

(** The options of an acknowledgement. *)
Definition ack_options (c : TcpConnection) : list TcpOption :=
  sack_option c ++ if ts_enabled c then [Timestamp (as_u32 (current_time_ms c)) (ts_recent c)] else [].

Lemma ack_options_canonical c : conn_wf c -> Forall canonical (ack_options c).
Proof.
  intros Hc. unfold ack_options. apply Forall_app. split.
  - destruct (sack_option_cases c Hc) as [[-> _]|(_ & -> & ?)]; constructor; [|done].
    split; [lia|]. by apply sack_blocks_range.
  - destruct (ts_enabled c); constructor; [|done]. split; [apply as_u32_range|apply Hc].
Qed.

(** Four SACK blocks take 34 bytes, the timestamp 10: more than the 40 a header has. *)
Definition too_many (c : TcpConnection) : Prop :=
  ts_enabled c = true /\ sack_permitted c = true /\ length (build_sack_blocks c) = 4%nat.

Lemma options_bytes_sack bls : zlen (options_bytes [Sack bls]) = 2 + 8 * zlen bls.
Proof. rewrite options_bytes_cons, zlen_app. unfold options_bytes, option_bytes. cbn [mjoin list_join fmap list_fmap]. rewrite zlen_app, zlen_blocks, !zlen_cons, !zlen_nil. lia. Qed.

Lemma options_fit c : conn_wf c -> ~ too_many c -> zlen (options_bytes (ack_options c)) <= 40.
Proof.
  intros Hc Hfew. unfold ack_options, too_many in *.
  assert (zlen (options_bytes (sack_option c)) <= 34 /\ (ts_enabled c = true -> zlen (options_bytes (sack_option c)) <= 26)) as [H1 H2].
  { destruct (sack_option_cases c Hc) as [[-> _]|(Hs & -> & Hl)]; [by vm_compute; split; [|intros]|].
    rewrite options_bytes_sack. split; [lia|]. intros Ht. unfold zlen in *.
    destruct (decide (length (build_sack_blocks c) = 4%nat)); [exfalso; auto|lia]. }
  unfold options_bytes in *. rewrite fmap_app, join_app, zlen_app.
  destruct (ts_enabled c); cbn [fmap list_fmap mjoin list_join option_bytes]; rewrite ?app_nil_r, ?zlen_app, ?zlen_u32_be, ?zlen_cons, ?zlen_nil.
  - specialize (H2 eq_refl). lia.
  - lia.
Qed.

Lemma options_overflow c : conn_wf c -> too_many c ->
  ofold push_option [] (ack_options c) = Err (OptionsTooLong 44 40).
Proof.
  intros Hc (Ht & Hs & Hl). unfold ack_options. rewrite Ht.
  destruct (sack_option_cases c Hc) as [[_ Hno]|(_ & -> & Hb)]; [exfalso; auto|].
  rewrite ofold_app. rewrite push_options_canonical.
  - ostep. cbn [ofold app]. unfold push_option. rewrite encode_option_canonical by (split; [apply as_u32_range|apply Hc]).
    ostep. rewrite !zlen_app, options_bytes_sack. unfold option_bytes. rewrite !zlen_app, !zlen_u32_be, !zlen_cons, !zlen_nil.
    unfold zlen. rewrite Hl. done.
  - repeat constructor; [lia..|]. by apply sack_blocks_range.
  - rewrite options_bytes_sack, zlen_nil. lia.
Qed.

(** The two counters an acknowledgement raises have room. *)
Definition ack_counters (c : TcpConnection) : Prop :=
  segments_sent (stats c) + 1 <= u64_max /\ sack_blocks_sent (stats c) + 4 <= u64_max.

Lemma count_ok get set n c : get (stats c) + n <= u64_max ->
  count get set n c = (Ok tt, set_stats (set (get (stats c) + n) (stats c)) c).
Proof. intros. unfold count, add_u64. by rewrite (proj2 (Z.leb_le _ _)) by lia. Qed.

Lemma build_ack_run c : conn_wf c -> ack_counters c -> exists st, bytes_received st = bytes_received (stats c) /\
  build_ack c = (serialize_with_options (ip (local c)) (ip (remote c)) (port (local c)) (port (remote c)) (snd_nxt c) (rcv_nxt c)
                   flags_ack (current_rcv_wnd c) (ack_options c) [],
                 set_last_advertised_wnd (current_rcv_wnd c) (set_last_ack_sent (rcv_nxt c) (set_stats st c))).
Proof.
  intros Hc [H1 H2]. unfold build_ack, ibind at 1. rewrite count_ok by done.
  set (c1 := set_stats _ c). unfold ibind at 1, iset at 1. unfold ibind at 1, iget at 1. unfold ibind at 1, iset at 1.
  unfold ibind at 1, iget at 1. change (sack_option _) with (sack_option c).
  destruct (sack_option_cases c Hc) as [[E _]|(_ & E & Hb)].
  - exists (stats c1). split; [done|]. rewrite E. unfold ibind, iret, iget, send_segment. unfold ack_options. by rewrite E.
  - eexists. split; [|rewrite E; unfold ibind at 1; rewrite count_ok by (cbn; lia)].
    2:{ unfold ibind, iget, send_segment. unfold ack_options. rewrite E. reflexivity. }
    done.
Qed.

(** A run of segments through [handle_segment_at], one millisecond apart. *)
Fixpoint handle_all (now : Z) (segs : list TcpSegment) : TM unit :=
  match segs with
  | [] => iret tt
  | seg :: rest => do! handle_segment_at seg now in handle_all (now + 1) rest
  end.

(** The segments of a peer that opens a connection with SACK and timestamps and
    then sends every second byte of five. *)
Definition gap_segment (fl : TcpFlags) (seq ackn : Z) (os : list TcpOption) (payload : bytes) : TcpSegment :=
  {| src_port := 40000; dst_port := 80; seq_num := seq; ack_num := ackn; data_offset := 10; flags := fl; window_size := 65535;
     tcp_checksum := 0; urgent_ptr := 0; options := os; tcp_payload := payload |}.
Definition gap_peer (blocks : nat) : list TcpSegment :=
  [gap_segment flags_syn 100 0 [SackPermitted; Timestamp 1 0] []; gap_segment flags_ack 101 1001 [Timestamp 1 0] []]
  ++ ((fun i => gap_segment flags_ack (103 + 2 * i) 1001 [Timestamp 1 0] [7]) <$> seqZ 0 (Z.of_nat blocks)).
Definition gap_server : TcpConnection :=
  initial Listen {| ip := LOCALHOST; port := 80 |} {| ip := LOCALHOST; port := 40000 |} 1000 1460
    {| cwnd := 2920; ssthresh := 65535; cc_mss := 1460; dup_ack_count := 0; cc_state := SlowStart; in_flight := 0 |}.

(** C23: when an acknowledgement can be built. With timestamps negotiated and
    four SACK blocks to report, [build_ack] panics, for the options take 44 of
    the 40 bytes a header has; in every other state it returns a segment that
    parses, checksum included, and carries the cumulative acknowledgement, the
    window and the options. A peer can bring a server to the panic: after a
    handshake with both options, three gaps in the stream are acknowledged and
    the segment behind the fourth is not. *)
Theorem build_ack_exact c : conn_wf c -> ack_counters c ->
  match (build_ack c).1 with
  | Ok raw => ~ too_many c /\ exists off ck pad,
      tcp_parse (ip (local c)) (ip (remote c)) raw true =
      Ok {| src_port := port (local c); dst_port := port (remote c); seq_num := snd_nxt c; ack_num := rcv_nxt c;
            data_offset := off; flags := flags_ack; window_size := current_rcv_wnd c; tcp_checksum := ck; urgent_ptr := 0;
            options := ack_options c ++ replicate pad Nop; tcp_payload := [] |}
  | Err _ => False
  | Panic => too_many c
  end /\
  is_ok (handle_all 0 (gap_peer 3) gap_server).1 = true /\ (handle_all 0 (gap_peer 4) gap_server).1 = Panic.
Proof.
  intros Hc Hk. split; [|by vm_compute]. destruct (build_ack_run c Hc Hk) as (st & _ & ->). cbn [fst].
  unfold serialize_with_options.
  assert (too_many c \/ ~ too_many c) as [Hm|Hm].
  { unfold too_many. destruct (ts_enabled c), (sack_permitted c), (decide (length (build_sack_blocks c) = 4%nat)); naive_solver. }
  - unfold try_serialize_with_options. by rewrite options_overflow.
  - pose proof Hc as [[] [] ? ? ? ?].
    destruct (serialize_parses (ip (local c)) (ip (remote c)) (port (local c)) (port (remote c)) (snd_nxt c) (rcv_nxt c) flags_ack
      (current_rcv_wnd c) (ack_options c) []) as (raw & ck & pad & off & -> & _ & Hp);
      try done; [apply current_rcv_wnd_u16|by apply ack_options_canonical|by apply options_fit|].
    split; [done|]. by exists off, ck, pad.
Qed.

Lemma build_ack_exact_witness : is_ok (build_ack gap_server).1 = true /\ (handle_all 0 (gap_peer 4) gap_server).1 = Panic.
Proof.
  assert (ip_wf LOCALHOST) as Hip by (split; [repeat constructor; by vm_compute|done]).
  assert (conn_wf gap_server) as Hc by (split; [split; [exact Hip|by vm_compute]..|by vm_compute|by vm_compute|by vm_compute|constructor]).
  destruct (build_ack_exact gap_server Hc ltac:(split; by vm_compute)) as (H1 & _ & H2). split; [|exact H2].
  destruct (build_ack gap_server).1 as [raw|[]|]; [done|]. by destruct H1.
Defined.
