(* ===== verification/SampleDisk.v ===== *)
(** * A small formatted disk

    Twelve blocks, freshly formatted: the concrete state on which the theorems
    about devices are instantiated. *)

From S2P Require Import Prelude Bytes Block CrashDevice Allocation Superblock Region AllocationDisk.
From S2P Require Import Journal JournalCodec JournalRegion Recovery TransactionImage.
From S2P Require Import TransactionPlan InodeCodec RecordTable InodeTable DirectoryCodec.
From S2P Require Import DirectoryTable Atomicity CreateTx Format.

Definition blank_disk : list block := replicate 12 zero_block.
Definition sample_disk : list block := formatted sample_sb blank_disk.

Lemma blank_disk_ok : image_ok 12 blank_disk.
Proof. split; [done|]. split; [apply Forall_replicate, zero_block_ok|done]. Qed.

Lemma zlen_sample : zlen sample_disk = 12.
Proof. unfold sample_disk. rewrite zlen_formatted; [done|apply sample_geometry|done]. Qed.

Lemma sample_disk_ok : image_ok 12 sample_disk.
Proof.
  split; [apply zlen_sample|]. split; [|done]. unfold sample_disk, formatted.
  apply Forall_insert; [|apply encode_ok].
  pose proof (fresh_plan_ok sample_sb sample_geometry) as Hp.
  rewrite <- (apply_plan_writes (allocation_start sample_sb) _ (reserved sample_sb)) by done.
  eapply (image_ok_apply_writes 12); [apply blank_disk_ok|by eapply plan_writes_ok].
Qed.

Lemma mjoin_zero_blocks n : mjoin (replicate n zero_block) = zeros (Z.of_nat n * BLOCK_SIZE).
Proof.
  induction n as [|n IH]; [done|]. cbn [replicate]. change (mjoin (zero_block :: ?l)) with (zero_block ++ mjoin l).
  rewrite IH. unfold zero_block. rewrite <- zeros_add by (unfold BLOCK_SIZE; lia). f_equal. lia.
Qed.

Lemma sample_journal : journal_on_disk sample_sb sample_disk = Ok [].
Proof.
  unfold sample_disk. rewrite formatted_journal; [|apply sample_geometry|done].
  unfold journal_on_disk, disk_region. change (sub blank_disk _ _) with (replicate 4 zero_block).
  rewrite mjoin_zero_blocks. unfold decode_region. by rewrite all_zero_zeros.
Qed.

Lemma sample_quiescent : quiescent sample_sb sample_disk.
Proof. exists []. split; [apply sample_journal|done]. Qed.

Lemma sample_metadata : metadata_on_disk sample_sb sample_disk = Ok (empty_allocator sample_sb, [], []).
Proof. apply formatted_metadata; [apply sample_geometry|done]. Qed.

(** A device holding it, scheduled to crash at its [n]-th write or flush. *)
Definition sample_device (crash : option Z) : CrashDevice :=
  arm crash (mkCrashDevice sample_disk sample_disk None 0 false).

Lemma sample_state crash : at_state false (sample_device crash) sample_disk sample_disk.
Proof.
  unfold sample_device. apply (arm_state crash true). pose proof sample_disk_ok as (Hl & Hb & Hn).
  repeat split; simpl; rewrite ?Hl; try done. by left.
Qed.

Lemma sample_healthy : at_state true (sample_device None) sample_disk sample_disk.
Proof.
  destruct (sample_state None) as (Hok & Hv & Hs & _). split; [done|]. split; [done|]. split; [done|].
  intros _. by right.
Qed.

(** A root directory with one file [a] that owns block 10. *)
Definition sample_allocator : BlockAllocator :=
  mkBlockAllocator 12 10 (replicate 10 false ++ [true; false]) 1.
Definition sample_inodes : list PersistedInode :=
  [mkPersistedInode 1 Directory []; mkPersistedInode 2 InodeCodec.File [10]].
Definition sample_entries : list PersistedDirectoryEntry := [mkPersistedDirectoryEntry 1 2 [97]].

Lemma sample_allocator_of : allocator_of sample_sb sample_allocator.
Proof.
  constructor; [|done|done]. constructor; [done|done|done| |reflexivity].
  intros b Hb. unfold bit. cbn in Hb. cbn [allocated sample_allocator].
  rewrite lookup_app_l by (rewrite length_replicate; lia). by rewrite lookup_replicate_2 by lia.
Qed.

Lemma sample_storable : create_storable sample_sb sample_inodes sample_entries.
Proof.
  split; (split; [split; [|split]|]).
  - repeat constructor; try done. all: by apply not_elem_of_nil.
  - simpl. rewrite !NoDup_cons. repeat split; [set_solver..|constructor].
  - done.
  - done.
  - apply Forall_singleton. repeat split; simpl; try done. all: try by repeat constructor.
    all: set_solver.
  - simpl. apply NoDup_singleton.
  - done.
  - done.
Qed.
