(* ===== verification/Witnesses.v ===== *)
(** * The theorems about stored structures at work on the sample disk

    Each device-level theorem of the component files, applied to the sample
    file system of [SampleDisk]. *)

From S2P Require Import Prelude Bytes Block CrashDevice Allocation Superblock Region AllocationDisk.
From S2P Require Import Journal JournalCodec JournalRegion Recovery TransactionImage.
From S2P Require Import TransactionPlan InodeCodec RecordTable InodeTable DirectoryCodec.
From S2P Require Import DirectoryTable Atomicity CreateTx Format Namespace Fsck.
From S2P Require Import Transition LinkTx TruncateTx RenameTx UnlinkTx FileState FileData FileRange FileGrow.
From S2P Require Import MetaEffects Operations OperationOutcome Lifecycle FileContents SampleDisk.

Lemma allocation_image_exact_witness :
  let image := bitmap_image sample_sb (zeros 2) in
  AllocationDisk.decode_image image sample_sb <> Panic /\
  (AllocationDisk.decode_image image sample_sb = Ok (zeros 2) <->
     zlen (zeros 2) = bitmap_size sample_sb /\ Forall is_byte (zeros 2) /\
     data_bits_only sample_sb (zeros 2) /\ image = bitmap_image sample_sb (zeros 2)).
Proof.
  refine (allocation_image_exact sample_sb (bitmap_image sample_sb (zeros 2)) (zeros 2) sample_geometry _ _).
  - apply Forall_bitmap_image, Forall_zeros.
  - by apply (zlen_bitmap_image sample_sb sample_geometry).
Defined.

Lemma allocator_store_load_witness :
  exists d1, store_allocator sample_sb sample_allocator (sample_device None) = (Ok tt, d1) /\
    durable d1 = volatile d1 /\
    (forall b, 0 <= b -> b < allocation_start sample_sb \/ inode_start sample_sb <= b ->
       volatile d1 !! Z.to_nat b = sample_disk !! Z.to_nat b) /\
    exists d2, load_allocator sample_sb d1 = (Ok sample_allocator, d2) /\
      volatile d2 = volatile d1 /\ durable d2 = durable d1.
Proof.
  exact (allocator_store_load sample_sb sample_allocator (sample_device None) sample_disk sample_disk
    sample_geometry sample_allocator_of sample_healthy zlen_sample).
Defined.

(** A transaction that zeroes block 10. *)
Definition sample_writes : list (Z * block) := [(10, zero_block)].
Lemma sample_writes_ok : home_writes_ok sample_sb sample_writes.
Proof. apply Forall_singleton. split; [done|apply zero_block_ok]. Qed.

Lemma journal_store_load_witness :
  let run := store_journal_image sample_sb (tx_log sample_writes) (sample_device None) in
  (~ log_ok sample_sb (tx_log sample_writes) -> exists e, run = (Err e, sample_device None)) /\
  (log_ok sample_sb (tx_log sample_writes) ->
     match run.1 with
     | Ok _ => journal_fits sample_sb (tx_log sample_writes) /\
         journal_on_disk sample_sb (durable run.2) = Ok (tx_log sample_writes) /\
         (true = true -> (load_journal_image sample_sb run.2).1 = Ok (tx_log sample_writes))
     | Err _ => durable run.2 = sample_disk /\ (true = true -> ~ journal_fits sample_sb (tx_log sample_writes))
     | Panic => False
     end).
Proof.
  exact (journal_store_load sample_sb (tx_log sample_writes) true (sample_device None) sample_disk sample_disk
    sample_geometry (proj1 (tx_log_good sample_sb sample_geometry sample_writes sample_writes_ok))
    sample_healthy zlen_sample).
Defined.

(** The sample disk with one committed transaction in its log, which writes block 10. *)
Definition sample_tx : list (Z * block) := [(10, replicate 4096 7)].
Definition sample_logged : list block := logged sample_sb sample_tx sample_disk.
Definition sample_logged_device : CrashDevice := mkCrashDevice sample_logged sample_logged None 0 false.

Lemma sample_tx_ok : home_writes_ok sample_sb sample_tx.
Proof. apply Forall_singleton. split; [by vm_compute|]. split; [done|]. by apply Forall_replicate. Qed.

Lemma sample_tx_fit : journal_fits sample_sb (tx_log sample_tx).
Proof. apply journal_fits_tx; [|done]. apply Forall_singleton. split; [done|]. by apply Forall_replicate. Qed.

Lemma sample_logged_ok : image_ok (total_blocks sample_sb) sample_logged.
Proof. exact (logged_image_ok sample_sb sample_geometry sample_disk sample_disk_ok sample_tx sample_tx_ok sample_tx_fit). Qed.

Lemma whole_device_state N v : image_ok N v -> at_state true (mkCrashDevice v v None 0 false) v v.
Proof.
  intros (Hl & Hb & Hn). unfold at_state. simpl. unfold crash_ok, crash_healthy. simpl. rewrite Hl. naive_solver.
Qed.

Lemma recovery_replays_once_witness :
  let run := recover_journal_and_checkpoint sample_sb sample_logged_device in
  run.1 = Ok (report_of (tx_log sample_tx)) /\ journal_on_disk sample_sb (durable run.2) = Ok [] /\
  (forall b, b = 0 \/ home_block sample_sb b ->
     durable run.2 !! Z.to_nat b = apply_writes (replay_writes (tx_log sample_tx)) sample_logged !! Z.to_nat b) /\
  let again := recover_journal_and_checkpoint sample_sb run.2 in
  again.1 = Ok report_default /\ durable again.2 = durable run.2.
Proof.
  exact (recovery_replays_once sample_sb sample_logged_device sample_logged (tx_log sample_tx) sample_geometry
    (whole_device_state _ _ sample_logged_ok) (proj1 sample_logged_ok)
    (journal_on_logged sample_sb sample_geometry sample_disk sample_disk_ok sample_tx sample_tx_ok sample_tx_fit)).
Defined.

Lemma recovery_failure_safe_witness :
  let run := recover_journal_and_checkpoint sample_sb (sample_device (Some 0)) in
  run.1 <> Panic /\
  forall e, run.1 = Err e ->
    (false = true -> journal_on_disk sample_sb sample_disk = Err e /\ durable run.2 = sample_disk) /\
    (durable run.2 = sample_disk \/ exists es, journal_on_disk sample_sb sample_disk = Ok es /\
       durable run.2 = apply_writes (replay_writes es) sample_disk /\
       journal_on_disk sample_sb (durable run.2) = Ok es).
Proof.
  exact (recovery_failure_safe sample_sb false (sample_device (Some 0)) sample_disk sample_geometry
    (sample_state (Some 0)) zlen_sample).
Defined.

Lemma collect_is_full_write_witness :
  exists self' changed d',
    collect_changed_range (mkCaptureDevice 12 {[10 := zero_block]}) (10, 11) "missing" [] (sample_device None) =
      (Ok (self', changed), d') /\
    volatile d' = sample_disk /\ durable d' = sample_disk /\
    (forall k, capture_blocks self' !! k =
       if decide (10 <= k < 11) then None else capture_blocks (mkCaptureDevice 12 {[10 := zero_block]}) !! k) /\
    Forall (fun w => 10 <= w.1 < 11 /\ w.2 = zero_block /\ sample_disk !! Z.to_nat w.1 <> Some w.2) changed /\
    apply_writes changed sample_disk = apply_writes ((fun k => (k, zero_block)) <$> zrange 10 11) sample_disk.
Proof.
  refine (collect_is_full_write (sample_device None) sample_disk sample_disk
    (mkCaptureDevice 12 {[10 := zero_block]}) 10 11 "missing" (fun _ => zero_block) sample_healthy _ _ _).
  - lia.
  - rewrite zlen_sample. lia.
  - intros k Hk. assert (k = 10) as -> by lia. apply lookup_singleton_eq.
Defined.

Lemma journal_capacity_witness :
  let run := store_journal_image sample_sb (tx_log sample_writes) (sample_device None) in
  (run.1 = Ok tt <-> 96 + 4128 * zlen sample_writes <= journal_blocks sample_sb * BLOCK_SIZE) /\
  (journal_blocks sample_sb = DEFAULT_JOURNAL_BLOCKS -> run.1 = Ok tt <-> zlen sample_writes <= 3) /\
  (run.1 <> Ok tt -> durable run.2 = sample_disk).
Proof.
  exact (journal_capacity sample_sb sample_writes (sample_device None) sample_disk sample_geometry
    sample_writes_ok sample_healthy zlen_sample).
Defined.

Lemma inode_table_exact_witness :
  let image := table_image inode_format (inode_blocks sample_sb * BLOCK_SIZE) sample_inodes in
  RecordTable.decode_image inode_format image <> Panic /\
  (is_ok (RecordTable.encode_image inode_format sample_sb sample_inodes) = true <->
     storable inode_format sample_sb sample_inodes) /\
  (RecordTable.decode_image inode_format image = Ok sample_inodes <->
     RecordTable.encode_image inode_format sample_sb sample_inodes = Ok image).
Proof.
  destruct (proj1 sample_storable) as [[Hv Hk] Hf].
  exact (inode_table_exact sample_sb _ sample_inodes sample_geometry
    (Forall_table_image inode_format _ sample_inodes Hv) (zlen_table_image inode_format _ sample_inodes Hf)
    (storable_typed _ _ _ (proj1 sample_storable))).
Defined.

Lemma inode_table_store_load_witness :
  let run := store_inode_table sample_sb sample_inodes (sample_device None) in
  (storable inode_format sample_sb sample_inodes ->
     run.1 = Ok tt /\ durable run.2 = volatile run.2 /\
     (forall b, 0 <= b -> b < inode_start sample_sb \/ inode_start sample_sb + inode_blocks sample_sb <= b ->
        durable run.2 !! Z.to_nat b = sample_disk !! Z.to_nat b) /\
     (load_inode_table sample_sb run.2).1 = Ok sample_inodes) /\
  (~ storable inode_format sample_sb sample_inodes -> exists e, run = (Err e, sample_device None)).
Proof.
  exact (inode_table_store_load sample_sb sample_inodes (sample_device None) sample_disk sample_disk
    sample_geometry (storable_typed _ _ _ (proj1 sample_storable)) sample_healthy zlen_sample).
Defined.

Lemma directory_table_exact_witness :
  let image := table_image directory_format (directory_blocks sample_sb * BLOCK_SIZE) sample_entries in
  directory_decode_image image <> Panic /\
  (is_ok (directory_encode_image sample_sb sample_entries) = true <->
     storable directory_format sample_sb sample_entries) /\
  (directory_decode_image image = Ok sample_entries <->
     directory_encode_image sample_sb sample_entries = Ok image).
Proof.
  destruct (proj2 sample_storable) as [[Hv Hk] Hf].
  exact (directory_table_exact sample_sb _ sample_entries sample_geometry
    (Forall_table_image directory_format _ sample_entries Hv)
    (zlen_table_image directory_format _ sample_entries Hf)
    (storable_typed _ _ _ (proj2 sample_storable))).
Defined.

Lemma directory_table_store_load_witness :
  let run := store_directory_table sample_sb sample_entries (sample_device None) in
  (storable directory_format sample_sb sample_entries ->
     run.1 = Ok tt /\ durable run.2 = volatile run.2 /\
     (forall b, 0 <= b ->
        b < directory_start sample_sb \/ directory_start sample_sb + directory_blocks sample_sb <= b ->
        durable run.2 !! Z.to_nat b = sample_disk !! Z.to_nat b) /\
     (load_directory_table sample_sb run.2).1 = Ok sample_entries) /\
  (~ storable directory_format sample_sb sample_entries -> exists e, run = (Err e, sample_device None)).
Proof.
  exact (directory_table_store_load sample_sb sample_entries (sample_device None) sample_disk sample_disk
    sample_geometry (storable_typed _ _ _ (proj2 sample_storable)) sample_healthy zlen_sample).
Defined.

Lemma create_crash_atomic_witness :
  let run := store_create_metadata_journaled sample_sb sample_allocator sample_inodes sample_entries
               (sample_device (Some 5)) in
  exists r d', recover_journal_and_checkpoint sample_sb (reboot (restarts sample_sb [Some 1; Some 0] run.2)) = (Ok r, d') /\
    (metadata_on_disk sample_sb (cd_durable d') = Ok (sample_allocator, sample_inodes, sample_entries) \/
     (exists e, run.1 = Err e) /\
       metadata_on_disk sample_sb (cd_durable d') = Ok (empty_allocator sample_sb, [], [])) /\
    (forall b, reserved sample_sb <= b -> cd_durable d' !! Z.to_nat b = sample_disk !! Z.to_nat b).
Proof.
  exact (create_crash_atomic sample_sb sample_allocator sample_inodes sample_entries sample_disk
    (empty_allocator sample_sb, [], []) (sample_device (Some 5)) [Some 1; Some 0]
    sample_geometry sample_allocator_of sample_storable (sample_state (Some 5)) zlen_sample
    sample_quiescent sample_metadata).
Defined.

Lemma create_outcome_witness :
  let ws := create_writes sample_sb sample_allocator sample_inodes sample_entries sample_disk in
  let run := store_create_metadata_journaled sample_sb sample_allocator sample_inodes sample_entries
               (sample_device None) in
  (create_storable sample_sb sample_inodes sample_entries /\ fits_log sample_sb ws ->
     run.1 = Ok (report_for ws) /\
     metadata_on_disk sample_sb (durable run.2) = Ok (sample_allocator, sample_inodes, sample_entries) /\
     (forall b, b = 0 \/ reserved sample_sb <= b ->
        durable run.2 !! Z.to_nat b = sample_disk !! Z.to_nat b)) /\
  (~ (create_storable sample_sb sample_inodes sample_entries /\ fits_log sample_sb ws) ->
     exists e, run.1 = Err e /\ durable run.2 = sample_disk).
Proof.
  exact (create_outcome sample_sb sample_allocator sample_inodes sample_entries sample_disk
    (sample_device None) sample_geometry sample_allocator_of
    (storable_typed _ _ _ (proj1 sample_storable)) (storable_typed _ _ _ (proj2 sample_storable))
    sample_healthy zlen_sample sample_quiescent).
Defined.

Lemma tables_crash_atomic_witness :
  let run := store_inode_directory_tables_journaled sample_sb sample_inodes sample_entries
               (sample_device (Some 6)) in
  exists r d', recover_journal_and_checkpoint sample_sb (reboot (restarts sample_sb [Some 2] run.2)) = (Ok r, d') /\
    (metadata_on_disk sample_sb (cd_durable d') =
       Ok (empty_allocator sample_sb, sample_inodes, sample_entries) \/
     (exists e, run.1 = Err e) /\
       metadata_on_disk sample_sb (cd_durable d') = Ok (empty_allocator sample_sb, [], [])).
Proof.
  exact (tables_crash_atomic sample_sb sample_inodes sample_entries sample_disk
    (empty_allocator sample_sb) [] [] (sample_device (Some 6)) [Some 2]
    sample_geometry sample_storable (sample_state (Some 6)) zlen_sample sample_quiescent sample_metadata).
Defined.

Lemma format_all_or_nothing_witness :
  let run := format_device (crash_new 12) in
  match run.1 with
  | Ok sb =>
      superblock_on_disk (durable run.2) = Ok sb /\ total_blocks sb = zlen blank_disk /\
      metadata_on_disk sb (durable run.2) = Ok (empty_allocator sb, [], [])
  | Err e => durable run.2 = blank_disk /\ (true = true -> superblock_new (zlen blank_disk) = Err e)
  | Panic => False
  end.
Proof.
  refine (format_all_or_nothing true (crash_new 12) blank_disk blank_disk _ _); [|done].
  apply (crash_new_state 12). done.
Defined.

Lemma format_keeps_stale_log_witness :
  let run1 := store_allocator_journaled sample_sb sample_allocator (sample_device None) in
  let run2 := format_device run1.2 in
  let run3 := recover_journal_and_checkpoint sample_sb run2.2 in
  run2.1 = Ok sample_sb /\
  metadata_on_disk sample_sb (durable run2.2) = Ok (empty_allocator sample_sb, [], []) /\
  is_ok run3.1 = true /\ metadata_on_disk sample_sb (durable run3.2) = Ok (sample_allocator, [], []).
Proof.
  refine (format_keeps_stale_log sample_sb sample_allocator sample_disk (sample_device None) _
    sample_geometry sample_allocator_of sample_healthy _).
  - rewrite zlen_sample. exact sample_new.
  - apply journal_fits_tx; [|by rewrite (zlen_writes_of _ (allocation_region_ok _ sample_geometry _ sample_allocator_of))].
    eapply Forall_impl; [exact (allocation_writes_ok _ _ sample_geometry sample_allocator_of)|]. by intros w [].
Defined.

(** ** The sample disk is sound, and so is the sample metadata *)

Lemma sample_superblock_on_disk : superblock_on_disk sample_disk = Ok sample_sb.
Proof. by apply (superblock_formatted sample_sb blank_disk sample_geometry). Qed.

Lemma empty_namespace_ok : namespace_ok [] [].
Proof.
  pose proof (audit_namespace_spec [] [] (NoDup_nil_2)) as H. exact H.
Qed.

Lemma sample_disk_sound : disk_sound sample_disk sample_sb (empty_allocator sample_sb) [] [] [].
Proof.
  split; [apply sample_superblock_on_disk|by rewrite zlen_sample|apply sample_metadata|apply sample_journal| |].
  - split; constructor.
  - apply empty_namespace_ok.
Qed.

Lemma sample_namespace_ok : namespace_ok sample_inodes sample_entries.
Proof.
  assert (Hids : NoDup (id <$> sample_inodes)) by (by apply (bool_decide_unpack _)).
  pose proof (audit_namespace_spec sample_inodes sample_entries Hids) as H.
  assert (E : audit_namespace sample_inodes sample_entries = Ok tt) by (vm_compute; reflexivity).
  rewrite E in H. exact H.
Qed.

Lemma sample_ownership : ownership_sound sample_allocator sample_inodes.
Proof. split; [apply Forall_singleton, elem_of_owned; done|apply NoDup_singleton]. Qed.


(** The device fails at its fourth operation, and recovery at its second. *)
Lemma create_crash_fsck_witness :
  let run := store_create_metadata_journaled sample_sb sample_allocator sample_inodes sample_entries
               (sample_device (Some 3)) in
  exists r d', recover_journal_and_checkpoint sample_sb (reboot (restarts sample_sb [Some 1] run.2)) = (Ok r, d') /\
    ((check_device d').1 = Ok (fsck_report sample_sb sample_allocator sample_inodes sample_entries []) \/
     (exists e, run.1 = Err e) /\
     (check_device d').1 = Ok (fsck_report sample_sb (empty_allocator sample_sb) [] [] [])).
Proof.
  apply (create_crash_fsck sample_sb sample_allocator sample_inodes sample_entries sample_disk
    (empty_allocator sample_sb) [] [] [] (sample_device (Some 3)) [Some 1]).
  - by rewrite zlen_sample.
  - apply sample_disk_sound.
  - apply sample_quiescent.
  - apply sample_allocator_of.
  - apply sample_storable.
  - apply sample_ownership.
  - apply sample_namespace_ok.
  - apply sample_state.
Defined.

(** ** Operations on the sample disk *)

Definition sample_metadata_value : metadata := (sample_allocator, sample_inodes, sample_entries).

(** The disk as formatted. *)
Definition sample_fs : file_system := mkFs (empty_allocator sample_sb, [], []) (data_area sample_sb sample_disk).

Lemma sample_fs_sound : fs_sound sample_sb sample_disk sample_fs.
Proof.
  destruct sample_disk_sound as [Hsb _ Hm _ Ho Hn]. split; [split|reflexivity|exact Hsb|exact (conj Ho Hn)].
  - apply sample_geometry.
  - apply sample_disk_ok.
  - apply sample_quiescent.
  - exact Hm.
Qed.

Lemma sample_sound : metadata_sound sample_metadata_value.
Proof. split; [apply sample_ownership|apply sample_namespace_ok]. Qed.

Lemma sample_typed : typed_metadata sample_sb sample_metadata_value.
Proof.
  split; [apply sample_allocator_of|]. destruct sample_storable as [Hi He].
  split; [exact (storable_typed _ _ _ Hi)|exact (storable_typed _ _ _ He)].
Qed.

(** Create a file, link it while the power fails, rename it, append to it, copy
    within it and read it. *)
Definition sample_life : list attempt := [
  mkAttempt (Meta (Create sample_metadata_value)) None [];
  mkAttempt (Meta (HardLink 1 [98] 2)) (Some 3) [Some 0; Some 5];
  mkAttempt (Meta (Rename 1 [97] 1 [99])) (Some 7) [];
  mkAttempt (AppendBlock 2 zero_block) (Some 4) [Some 1];
  mkAttempt (CopyRange (mkEndpoint 2 0 5) (mkEndpoint 2 0 7) 100) None [];
  mkAttempt (ReadRange 2 0 3 8) None []].

Lemma lifecycle_crash_safe_witness :
  exists fs' s, follows sample_sb sample_fs (life sample_sb sample_life (sample_device None)).1 fs' /\
    at_state true (life sample_sb sample_life (sample_device None)).2 s s /\ fs_sound sample_sb s fs' /\
    (sample_life <> [] ->
     (check_device (life sample_sb sample_life (sample_device None)).2).1 = Ok (metadata_report sample_sb (fs_meta fs'))).
Proof.
  apply (lifecycle_crash_safe sample_sb sample_disk sample_fs sample_life (sample_device None)).
  - apply sample_fs_sound.
  - apply sample_healthy.
  - repeat (apply Forall_cons; split); [split; [apply sample_typed|apply sample_sound]|..|constructor].
    + split; [by apply Forall_singleton|reflexivity].
    + split; [by apply Forall_singleton|reflexivity].
    + apply zero_block_ok.
    + repeat split; done.
    + repeat split; done.
Defined.

(** ** File contents: the sample disk with file 2 *)

Definition sample_change : fs_change := mkChange sample_metadata_value [].
Definition sample_file_disk : list block :=
  committed_image sample_sb (target_writes sample_sb sample_disk sample_change) sample_disk.
Definition sample_files : file_system := fs_apply sample_sb sample_fs sample_change.
Definition sample_file_device : CrashDevice := mkCrashDevice sample_file_disk sample_file_disk None 0 false.

Lemma sample_change_storable : target_storable sample_sb sample_disk sample_change.
Proof. split; [split; [apply sample_allocator_of|apply sample_storable]|constructor]. Qed.

Lemma sample_files_sound : fs_sound sample_sb sample_file_disk sample_files.
Proof.
  apply (fs_sound_changed sample_fs_sound); [apply sample_change_storable|apply sample_sound|].
  apply (committed_settled sample_sb sample_geometry sample_disk sample_disk_ok); [|apply sample_quiescent].
  apply (change_home sample_sb sample_geometry), sample_change_storable.
Qed.

Lemma sample_file_disk_sound : sound_disk sample_sb sample_file_disk.
Proof. exists sample_files. apply sample_files_sound. Qed.

Lemma sample_file_state : at_state true sample_file_device sample_file_disk sample_file_disk.
Proof. exact (whole_device_state _ _ (holds_image _ _ _ (fs_holds _ _ _ sample_files_sound))). Qed.

Lemma sample_ids : NoDup (InodeCodec.id <$> sample_inodes).
Proof. by apply (bool_decide_unpack _). Qed.

(** File 2 gets the second name [b] and loses it. *)
Lemma hard_link_unlink_witness :
  hard_unlink (sample_allocator, sample_inodes, sample_entries ++ [mkPersistedDirectoryEntry 1 2 [98]]) 1 [98]
    = Ok (tt, sample_metadata_value).
Proof.
  apply (hard_link_unlink sample_metadata_value 1 [98] 2 tt).
  - apply sample_ids.
  - apply sample_sound.
  - reflexivity.
Defined.

Lemma sample_name : str_typed [99].
Proof. split; [by apply Forall_singleton|reflexivity]. Qed.

(** [a] is renamed to [c]. *)
Lemma rename_exact_witness :
  exists i e, sample_entries !! i = Some e /\ may_move sample_entries 1 [99] e.
Proof.
  destruct (proj1 (rename_exact sample_allocator sample_inodes sample_entries 1 [97] 1 [99]
    (sample_allocator, sample_inodes, [mkPersistedDirectoryEntry 1 2 [99]]) sample_ids
    ltac:(apply NoDup_singleton) (proj1 (proj2 sample_typed)) sample_namespace_ok
    sample_name) ltac:(vm_compute; reflexivity))
    as (_ & _ & i & e & Hi & _ & _ & _ & [[Hsame _]|(_ & Hmv & _)]); [discriminate Hsame|].
  by exists i, e.
Defined.

(** The same rename on the disk. *)
Lemma operation_outcome_witness :
  let o := Meta (Rename 1 [97] 1 [99]) in
  let run := run_op sample_sb o sample_file_device in
  match run.1 with
  | Ok r => exists c, op_spec sample_sb o sample_files = Ok (r, c) /\ room sample_sb sample_file_disk c /\
      op_effect sample_sb sample_files o r (fs_apply sample_sb sample_files c) /\
      fs_sound sample_sb (durable run.2) (fs_apply sample_sb sample_files c)
  | Err e => durable run.2 = sample_file_disk /\
      (op_spec sample_sb o sample_files = Err e /\ (~ exists r fs', op_effect sample_sb sample_files o r fs') \/
       exists r c, op_spec sample_sb o sample_files = Ok (r, c) /\
         op_effect sample_sb sample_files o r (fs_apply sample_sb sample_files c) /\ ~ room sample_sb sample_file_disk c)
  | Panic => False
  end.
Proof.
  exact (operation_outcome sample_sb sample_file_disk sample_files (Meta (Rename 1 [97] 1 [99])) sample_file_device
    sample_files_sound sample_name sample_file_state).
Defined.

(** The sample metadata without file 2. *)
Definition sample_unlinked : metadata :=
  (mkBlockAllocator 12 10 (replicate 12 false) 0, [mkPersistedInode 1 Directory []], []).

Lemma unlink_exact_witness :
  exists removed, can_unlink sample_metadata_value removed /\ unlinked sample_metadata_value removed sample_unlinked.
Proof.
  apply (unlink_exact sample_metadata_value sample_unlinked).
  - apply sample_allocator_of.
  - apply (empty_allocator_of sample_sb sample_geometry).
  - apply sample_ids.
  - apply NoDup_singleton.
  - apply sample_sound.
  - vm_compute. reflexivity.
Defined.

(** Eight bytes of file 2 from byte 3 on. *)
Lemma read_file_range_exact_witness :
  match read_file_range sample_sb 2 0 3 8 sample_file_device with
  | (Ok out, d') => durable d' = sample_file_disk /\
      exists flat, range_on_disk sample_sb sample_file_disk 2 0 3 8 flat /\ out = sub flat (0 * BLOCK_SIZE + 3) 8
  | (Err _, d') => durable d' = sample_file_disk /\
      ~ exists flat, range_on_disk sample_sb sample_file_disk 2 0 3 8 flat
  | (Panic, _) => False
  end.
Proof.
  exact (read_file_range_exact sample_sb sample_file_disk 2 0 3 8 sample_file_device sample_file_disk_sound
    sample_file_state ltac:(vm_compute; split; discriminate) ltac:(lia) ltac:(vm_compute; split; discriminate)).
Defined.

Lemma write_file_range_exact_witness :
  match write_file_range_journaled sample_sb 2 0 3 [1; 2] sample_file_device with
  | (Ok _, d') => exists flat, range_on_disk sample_sb sample_file_disk 2 0 3 (zlen [1; 2]) flat /\
      sound_disk sample_sb (durable d') /\
      metadata_on_disk sample_sb (durable d') = metadata_on_disk sample_sb sample_file_disk /\
      file_on_disk sample_sb (durable d') 2 = Ok (put flat (0 * BLOCK_SIZE + 3) [1; 2]) /\
      forall y, y <> 2 -> file_on_disk sample_sb (durable d') y = file_on_disk sample_sb sample_file_disk y
  | (Err _, d') => durable d' = sample_file_disk /\
      ((~ exists flat, range_on_disk sample_sb sample_file_disk 2 0 3 (zlen [1; 2]) flat) \/
       spans_too_much sample_sb 3 (zlen [1; 2]))
  | (Panic, _) => False
  end.
Proof.
  exact (write_file_range_exact sample_sb sample_file_disk 2 0 3 [1; 2] sample_file_device sample_file_disk_sound
    sample_file_state ltac:(vm_compute; split; discriminate) ltac:(lia) ltac:(repeat constructor; done)
    ltac:(vm_compute; discriminate)).
Defined.

(** Overlapping ranges of file 2. *)
Definition sample_source : FileRangeEndpoint := mkEndpoint 2 0 5.
Definition sample_target : FileRangeEndpoint := mkEndpoint 2 0 7.

Lemma copy_file_range_exact_witness :
  match copy_file_range_journaled sample_sb sample_source sample_target 100 sample_file_device with
  | (Ok _, d') => exists from to, endpoint_on_disk sample_sb sample_file_disk sample_source 100 from /\
      endpoint_on_disk sample_sb sample_file_disk sample_target 100 to /\ sound_disk sample_sb (durable d') /\
      metadata_on_disk sample_sb (durable d') = metadata_on_disk sample_sb sample_file_disk /\
      file_on_disk sample_sb (durable d') (ep_inode sample_target) =
        Ok (put to (endpoint_pos sample_target) (sub from (endpoint_pos sample_source) 100)) /\
      forall y, y <> ep_inode sample_target ->
        file_on_disk sample_sb (durable d') y = file_on_disk sample_sb sample_file_disk y
  | (Err _, d') => durable d' = sample_file_disk /\
      ((~ exists from to, endpoint_on_disk sample_sb sample_file_disk sample_source 100 from /\
          endpoint_on_disk sample_sb sample_file_disk sample_target 100 to) \/
       spans_too_much sample_sb (ep_offset sample_target) 100)
  | (Panic, _) => False
  end.
Proof.
  exact (copy_file_range_exact sample_sb sample_file_disk sample_source sample_target 100 sample_file_device
    sample_file_disk_sound sample_file_state ltac:(split; vm_compute; [split|]; discriminate)
    ltac:(split; vm_compute; [split|]; discriminate) ltac:(lia) ltac:(vm_compute; discriminate)).
Defined.

Lemma append_blocks_exact_witness :
  match append_batch_of sample_files 2 [zero_block] with
  | Ok (bs, c) => exists old, file_of sample_sb sample_files 2 = Ok old /\ [zero_block] <> [] /\
      length bs = length [zero_block] /\ file_grown sample_sb sample_files 2 (old ++ [zero_block]) bs c
  | Err _ => ~ ([zero_block] <> [] /\ (exists old, file_of sample_sb sample_files 2 = Ok old) /\
      zlen [zero_block] <= Z.of_nat (size (free_blocks (fs_meta sample_files).1.1)))
  | Panic => False
  end.
Proof.
  exact (append_blocks_exact sample_sb sample_files 2 [zero_block] sample_geometry (sound_wf sample_files_sound)
    ltac:(apply Forall_singleton, zero_block_ok)).
Defined.

Lemma insert_block_exact_witness :
  match insert_of sample_files 2 0 zero_block with
  | Ok (b, c) => exists old, file_of sample_sb sample_files 2 = Ok old /\ 0 <= zlen old /\
      file_grown sample_sb sample_files 2 (take (Z.to_nat 0) old ++ [zero_block] ++ drop (Z.to_nat 0) old) [b] c
  | Err _ => ~ ((exists old, file_of sample_sb sample_files 2 = Ok old /\ 0 <= zlen old) /\
      free_blocks (fs_meta sample_files).1.1 <> ∅)
  | Panic => False
  end.
Proof.
  exact (insert_block_exact sample_sb sample_files 2 0 zero_block sample_geometry (sound_wf sample_files_sound)
    ltac:(lia) zero_block_ok).
Defined.

(** One byte more than [isize::MAX], on the empty sample disk. *)
Lemma range_length_overflow_witness :
  (zero_file_range_journaled sample_sb 2 0 0 (isize_max + 1) (sample_device None)).1 = Panic /\
  (read_file_range sample_sb 2 0 0 (isize_max + 1) (sample_device None)).1 = Panic /\
  (copy_file_range_journaled sample_sb (mkEndpoint 2 0 0) (mkEndpoint 2 0 0) (isize_max + 1) (sample_device None)).1 = Panic.
Proof.
  exact (range_length_overflow sample_sb 2 0 0 (isize_max + 1) (mkEndpoint 2 0 0) (sample_device None) eq_refl).
Defined.
